(* ===== verification/_CoqProject ===== *)
-Q . S2P
Prelude.v
ByteOrder.v
Checksum.v
IpAddr.v
Mem.v
Memp.v
Pbuf.v
PbufChain.v
PbufAlloc.v
Ip.v
Tcp.v
TcpOut.v
TcpIn.v
TcpOpt.v
TcpStream.v
TcpAck.v
TcpSend.v
TcpWrite.v
TcpRecv.v
TcpWorld.v
TcpProcess.v
TcpTimer.v
TcpShape.v
TcpKeeps.v
TcpLists.v
TcpCalls.v
TcpSteps.v
TcpScenarios.v
TcpTimerSteps.v
TcpLive.v
IpFrag.v
IpReass.v
IpFragRound.v
Etharp.v
EtharpTable.v
Netif.v
Autoip.v
EtharpIn.v
EtharpResolve.v
NetifAddr.v
AutoipLive.v
Timers.v
TimersSpec.v
SysArch.v
SysArchSpec.v
Nbuf.v
Inet.v
Icmp.v
Udp.v
Raw.v
TcpWire.v
IpInput.v
InetDemo.v
InetHdr.v
InetSafe.v
InetSend.v
UdpRound.v
InetEcho.v
Netifapi.v
Tcpip.v
Driver.v
DriverLink.v
Portaudio.v
UdpTable.v
Asn1.v
Asn1Round.v
Asn1Safe.v
Igmp.v
IgmpSafe.v
IgmpLive.v
Dns.v
DnsTable.v
DnsLive.v
DnsReply.v
DnsDemo.v
