(* ===== verification/Prelude.v ===== *)
(** * Verification of the quiet-lwip network stack: prelude and overview

    quiet-lwip is lwIP 1.4 (src/src/lwip, headers in src/include/lwip) with a
    driver that sends Ethernet frames as sound (src/src/driver.c). The library
    models the core of the stack, src/src/lwip/core with core/ipv4 and
    netif/etharp.c, its thread (api/tcpip.c), the semaphores and mailboxes of
    sys_arch.c, and the drivers. This file
    holds what the others share: machine integers, results, record updates,
    tactics and lemmas on lists.

    ** Configuration

    src/include/lwip/lwipopts.h is empty, so the configuration is that of
    opt.h: NO_SYS 0, MEM_ALIGNMENT 1, 16 kB of heap, TCP_MSS 1024, DNS with a
    local host list, no IP forwarding, DHCP, PPP and IPv6, no statistics in the
    models; ETH_PAD_SIZE 0. IGMP and the encoding of SNMP are modelled on their own, as
    LWIP_IGMP 1 and LWIP_SNMP 1 build them. The host is a little-endian 64-bit machine.
    LWIP_ASSERT and LWIP_ERROR abort the process (arch/cc.h); both are
    [Err AssertFailed].

    ** How the code is modelled

    - Integers are [Z]; every conversion to a narrower type is written as
      [u8], [u16], [u32], [s16], [s32]. An address in network byte order is
      the [Z] that the C code holds, as loaded on the host.
    - A function that can fail returns [res]: [Err AssertFailed] for an
      assertion, [Err BadAccess] for an access outside an object (behind the
      end of a packet, through a pointer that points to nothing), and
      [Err OutOfFuel] for a loop whose bound was too small. Error codes of
      lwIP (ERR_MEM, ...) are values.
    - State is passed explicitly, a record per module of the program, whose
      fields are the globals of the C file. Objects that are shared through
      pointers (heap headers, pbufs, control blocks, UDP and raw blocks,
      interfaces) live in finite maps keyed by address, lists of them are
      lists of addresses.
    - The outcome of an allocation inside TCP, ARP, IP and UDP is read off a
      stream of booleans ([allocs], [in_allocs]); the theorems hold for every
      stream. Mem.v, Memp.v and PbufAlloc.v show what the allocators do.
    - Callbacks of the application are parameters (Section variables):
      [tcp_callbacks] for TCP, [eats] for raw sockets. The UDP callback is the
      last thing [udp_input] does, so it is an entry of the log [in_log].

    ** The files

    Data. ByteOrder (def.c), Checksum (inet_chksum.c), IpAddr (ip_addr.c,
    ip_addr.h, struct netif of netif.h).

    Memory. Mem (mem.c), Memp (memp.c): the allocators with their invariants;
    each is an instance of an interface (a Class) that says what it promises.
    Pbuf (pbuf.c) uses the interfaces; PbufChain reads a chain of pbufs as a
    string of bytes and shows what the operations do to it; PbufAlloc relates
    pbufs, heap and pools and shows that allocation and release are sound.

    TCP. Tcp (tcp.h, tcp_impl.h, windows of tcp.c), TcpOut (tcp_out.c), TcpIn
    (tcp_in.c: options, ACK and data of one block), TcpWorld (tcp.c: the lists
    of blocks and the raw API), TcpProcess (tcp_in.c: state machine and
    demultiplexer), TcpTimer (tcp.c: the timers). The theorems are in
    TcpOpt (options), TcpStream and TcpRecv (what the application receives is
    a prefix of what the peer sent), TcpAck, TcpSend and TcpWrite (the queues
    of the sender), TcpShape (the abstract machine of connections), TcpKeeps,
    TcpLists, TcpCalls, TcpSteps and TcpTimerSteps (every operation is a
    sequence of its steps, the lists keep the axioms stated in tcp_impl.h),
    TcpLive (the slow timer ends, TIME-WAIT ends). TcpScenarios evaluates
    whole runs, among them those that show defects.

    IP fragments. IpFrag (ip_frag.c), IpReass (invariant, timer, soundness),
    IpFragRound (fragments in any order give the packet back).

    Link layer. Ip (routing), Etharp and EtharpIn (etharp.c: output and table,
    input), Netif (netif.c), Autoip (autoip.c). Theorems: EtharpTable (the
    invariant of the table), EtharpResolve (two hosts resolve an address,
    through the bytes of the frames), NetifAddr (an address change aborts the
    connections of the old address), AutoipLive (an address is claimed after
    the announcements, as RFC 3927 wants).

    Time and threads. Timers and TimersSpec (timers.c refines a list of
    absolute deadlines, against the class [TimerOps] of what the components
    offer), SysArch and SysArchSpec (sys_arch.c: an interleaving of threads on
    a mailbox, which is a FIFO and loses no wakeup with one reader).

    The network layer. Nbuf (a packet between the layers), Inet (the state,
    ip_output of ip.c), Icmp (icmp.c), Udp (udp.c), Raw (raw.c), TcpWire (the
    bytes of a TCP packet, the head of tcp_input), IpInput (ip_input). Here
    the components are put together: [ip_input] calls the reassembly, raw,
    UDP, ICMP and TCP, whose packets go down through [ip_output], [ip_frag]
    and [etharp_output] to the wire. Theorems: InetHdr (the header that is
    sent passes the checks of the receiver), InetSafe (each packet is
    disposed of once, nothing aborts), InetSend and UdpRound (what IP and UDP
    send, with which errors, and that a datagram arrives at another host),
    InetEcho (the echo reply), UdpTable (the invariant of the UDP blocks).
    InetDemo evaluates concrete packets.

    IGMP. Igmp (igmp.c: the groups of a host, with ip_output_if_opt of ip.c),
    IgmpSafe (the list of groups stays well-formed, nothing fails but a
    division by zero), IgmpLive (a query is answered in time).

    DNS. Dns (dns.c, on top of the UDP of Udp), DnsTable (what a tick does; the
    class [dns_network] is what the resolver needs of the network, which Inet
    offers), DnsLive (every request is answered once, in time), DnsReply (a reply
    in the format of RFC 1035 is understood), DnsDemo (runs, with defects).

    The host. Tcpip (api/tcpip.c: the thread of the stack, its messages and
    timers), Netifapi (api/netifapi.c: calls on interfaces for that thread), Driver (driver.c, util.c) and Portaudio (driver_portaudio.c) with
    the encoder and decoder of libquiet as parameters. Theorems: DriverLink (a
    datagram from the application on one host to that on another, through all
    layers), Portaudio (half duplex: no sound over a frame of the peer).

    SNMP. Asn1 (asn1_enc.c, asn1_dec.c: the encoding of SNMP messages in
    chains of pbufs), Asn1Round (every value that is encoded is decoded),
    Asn1Safe (every decoder ends on every input).

    ** Bounds

    A loop over a list is a Fixpoint on the list; where the code follows
    pointers or counts, the model has fuel. [scan_fuel] (1000) exceeds the
    number of blocks a 16 kB heap can hold (each has 20 bytes at least),
    [pool_fuel] (64) the pbufs of 65535 bytes, [memfind_fuel] the length of a
    packet; a chain is followed with the number of pbufs in the store; the
    ports of a range are tried with the size of the range. The invariants of
    Mem.v and PbufAlloc.v exclude [OutOfFuel] for the first ones. The timers
    of TCP restart their loops, so their fuel is an argument; TcpLive.v proves
    that one unit per block and one more are enough, whatever the callbacks
    do.

    ** Not modelled

    - The socket and netconn API (api/): threads and message passing around the
      functions modelled here. lwip_strerr, stats, init: constant
      tables and counters.
    - dhcp.c, ppp/, slipif.c, IPv6 and the rest of snmp/: not built in this
      configuration.
    - libquiet and PortAudio, which are not part of the repository; the
      functions of the drivers that only pass samples to them. The examples.
    - pbuf_free_ooseq, statistics, debug output, the Win32 part of sys_arch.c.
    - The payload of a queued TCP segment is its bytes, and the layers above
      the link pass packets as bytes (Nbuf.v): the reference counts and the
      sharing of pbufs are the subject of Pbuf.v and PbufAlloc.v only. *)
From stdpp Require Export base numbers option list gmap strings.
From Stdlib Require Export ZArith Lia.

Open Scope Z_scope.

(** ** Machine integers

    A C unsigned integer of width w is a [Z] in [0, 2^w); a conversion to
    the type wraps around. The signed types are two's complement. *)
Definition u8 (x : Z) : Z := x mod 256.
Definition u16 (x : Z) : Z := x mod 65536.
Definition u32 (x : Z) : Z := x mod 4294967296.
Definition s8 (x : Z) : Z := (x + 128) mod 256 - 128.
Definition s16 (x : Z) : Z := (x + 32768) mod 65536 - 32768.
Definition s32 (x : Z) : Z := (x + 2147483648) mod 4294967296 - 2147483648.

Definition is_u8 (x : Z) : Prop := 0 <= x < 256.
Definition is_u16 (x : Z) : Prop := 0 <= x < 65536.
Definition is_u32 (x : Z) : Prop := 0 <= x < 4294967296.

#[export] Instance is_u8_dec x : Decision (is_u8 x).
Proof. unfold is_u8. apply _. Defined.
#[export] Instance is_u16_dec x : Decision (is_u16 x).
Proof. unfold is_u16. apply _. Defined.
#[export] Instance is_u32_dec x : Decision (is_u32 x).
Proof. unfold is_u32. apply _. Defined.

(** Bytes of memory: a list of [Z], each an [is_u8]. *)
Definition bytes_ok (bs : list Z) : Prop := Forall is_u8 bs.
Lemma bytes_check bs : forallb (fun x => (0 <=? x) && (x <? 256)) bs = true -> bytes_ok bs.
Proof.
  induction bs as [|b bs IH]; cbn; [constructor|]. intros [[H1 H2]%andb_true_iff H]%andb_true_iff.
  apply Z.leb_le in H1. apply Z.ltb_lt in H2. constructor; [done|by apply IH].
Qed.

(** ** Automation *)

(** Linear arithmetic with the widths unfolded and [mod], [/] with constants
    turned into equations. *)
Ltac mlia :=
  unfold u8, u16, u32, s8, s16, s32, is_u8, is_u16, is_u32 in *;
  Z.div_mod_to_equations; lia.

Create HintDb lwip.

Lemma u8_range x : 0 <= u8 x < 256. Proof. mlia. Qed.
Lemma u16_range x : 0 <= u16 x < 65536. Proof. mlia. Qed.
Lemma u32_range x : 0 <= u32 x < 4294967296. Proof. mlia. Qed.
Lemma u8_id x : 0 <= x < 256 -> u8 x = x. Proof. mlia. Qed.
Lemma u16_id x : 0 <= x < 65536 -> u16 x = x. Proof. mlia. Qed.
Lemma u32_id x : 0 <= x < 4294967296 -> u32 x = x. Proof. mlia. Qed.
Lemma s32_id x : -2147483648 <= x < 2147483648 -> s32 x = x. Proof. mlia. Qed.
Lemma is_u16_u16 x : is_u16 (u16 x). Proof. mlia. Qed.
Lemma is_u32_u32 x : is_u32 (u32 x). Proof. mlia. Qed.
Lemma is_u8_u8 x : is_u8 (u8 x). Proof. mlia. Qed.
Lemma u32_add_l a b : u32 (u32 a + b) = u32 (a + b).
Proof. unfold u32. by rewrite Zplus_mod_idemp_l. Qed.
Lemma u32_add_r a b : u32 (a + u32 b) = u32 (a + b).
Proof. unfold u32. by rewrite Zplus_mod_idemp_r. Qed.
Lemma u16_add_l a b : u16 (u16 a + b) = u16 (a + b).
Proof. unfold u16. by rewrite Zplus_mod_idemp_l. Qed.
#[export] Hint Resolve is_u8_u8 is_u16_u16 is_u32_u32 : lwip.

(** ** Masks and shifts as arithmetic

    The C code writes masks and shifts; these lemmas turn the ones it uses
    into [mod], [/] and [*] so that [lia] applies. *)
Lemma land_mask (k x : Z) : 0 <= k -> Z.land x (2 ^ k - 1) = x mod 2 ^ k.
Proof. intros Hk. rewrite <- Z.land_ones by done. by rewrite Z.ones_equiv, Z.sub_1_r. Qed.

Lemma land_ff x : Z.land x 255 = x mod 256. Proof. apply (land_mask 8); lia. Qed.
Lemma land_ffff x : Z.land x 65535 = x mod 65536. Proof. apply (land_mask 16); lia. Qed.

(** A mask of [k] ones starting at bit [j]. *)
Lemma land_mask_shift (j k x : Z) :
  0 <= j -> 0 <= k ->
  Z.land x ((2 ^ k - 1) * 2 ^ j) = (x / 2 ^ j) mod 2 ^ k * 2 ^ j.
Proof.
  intros Hj Hk. rewrite <- !Z.shiftl_mul_pow2, <- Z.shiftr_div_pow2, <- land_mask by done.
  apply Z.bits_inj'. intros n Hn.
  rewrite Z.land_spec, !Z.shiftl_spec, Z.land_spec by done.
  destruct (decide (n < j)).
  - rewrite (Z.testbit_neg_r (2 ^ k - 1)), andb_false_r by lia. by rewrite andb_false_r.
  - rewrite Z.shiftr_spec by lia. do 2 f_equal. lia.
Qed.

Lemma land_ff00 x : Z.land x 65280 = (x / 256) mod 256 * 256.
Proof. apply (land_mask_shift 8 8); lia. Qed.
Lemma land_ff0000 x : Z.land x 16711680 = (x / 65536) mod 256 * 65536.
Proof. apply (land_mask_shift 16 8); lia. Qed.
Lemma land_ff000000 x : Z.land x 4278190080 = (x / 16777216) mod 256 * 16777216.
Proof. apply (land_mask_shift 24 8); lia. Qed.
Lemma land_ffff0000 x : Z.land x 4294901760 = (x / 65536) mod 65536 * 65536.
Proof. apply (land_mask_shift 16 16); lia. Qed.

(** Or-ing a value below [2^k] into a multiple of [2^k] adds it. *)
Lemma lor_add (k a b : Z) : 0 <= k -> 0 <= b < 2 ^ k -> Z.lor (a * 2 ^ k) b = a * 2 ^ k + b.
Proof.
  intros Hk Hb. symmetry. apply Z.add_nocarry_lor.
  apply Z.bits_inj'. intros n Hn. rewrite Z.land_spec, Z.bits_0.
  destruct (decide (n < k)).
  - rewrite Z.mul_pow2_bits_low by lia. done.
  - rewrite andb_false_iff. right.
    rewrite <- (Z.mod_small b (2 ^ k)) by done. apply Z.mod_pow2_bits_high. lia.
Qed.
Lemma lor_add_l (k a b : Z) : 0 <= k -> 0 <= b < 2 ^ k -> Z.lor b (a * 2 ^ k) = b + a * 2 ^ k.
Proof. intros. rewrite Z.lor_comm, Z.add_comm. by apply lor_add. Qed.

Lemma shl8 x : Z.shiftl x 8 = x * 256. Proof. by rewrite Z.shiftl_mul_pow2. Qed.
Lemma shl16 x : Z.shiftl x 16 = x * 65536. Proof. by rewrite Z.shiftl_mul_pow2. Qed.
Lemma shl24 x : Z.shiftl x 24 = x * 16777216. Proof. by rewrite Z.shiftl_mul_pow2. Qed.
Lemma shr8 x : Z.shiftr x 8 = x / 256. Proof. by rewrite Z.shiftr_div_pow2. Qed.
Lemma shr16 x : Z.shiftr x 16 = x / 65536. Proof. by rewrite Z.shiftr_div_pow2. Qed.
Lemma shr24 x : Z.shiftr x 24 = x / 16777216. Proof. by rewrite Z.shiftr_div_pow2. Qed.

Create Rewrite HintDb bits.
#[export] Hint Rewrite land_ff land_ffff land_ff00 land_ff0000 land_ff000000
  land_ffff0000 shl8 shl16 shl24 shr8 shr16 shr24 : bits.

(** The bytes of a 32-bit value, least significant first. *)
Lemma u32_bytes n : is_u32 n -> exists a b c d, is_u8 a /\ is_u8 b /\ is_u8 c /\ is_u8 d /\
  n = a + 256 * b + 65536 * c + 16777216 * d.
Proof.
  intros H. exists (n mod 256), (n / 256 mod 256), (n / 256 / 256 mod 256), (n / 256 / 256 / 256).
  pose proof (Z.div_mod n 256). pose proof (Z.div_mod (n / 256) 256).
  pose proof (Z.div_mod (n / 256 / 256) 256).
  unfold is_u8, is_u32 in *.
  pose proof (Z.mod_pos_bound n 256). pose proof (Z.mod_pos_bound (n / 256) 256).
  pose proof (Z.mod_pos_bound (n / 256 / 256) 256). lia.
Qed.

Lemma digits32 a b c d : is_u8 a -> is_u8 b -> is_u8 c -> is_u8 d ->
  let n := a + 256 * b + 65536 * c + 16777216 * d in
  n mod 256 = a /\ n / 256 mod 256 = b /\ n / 65536 mod 256 = c /\ n / 16777216 = d /\
  n / 16777216 mod 256 = d.
Proof.
  unfold is_u8. intros Ha Hb Hc Hd. cbv zeta.
  assert (H1 : (a + 256 * b + 65536 * c + 16777216 * d) / 256 = b + 256 * c + 65536 * d) by mlia.
  assert (H2 : (a + 256 * b + 65536 * c + 16777216 * d) / 65536 = c + 256 * d) by mlia.
  assert (H3 : (a + 256 * b + 65536 * c + 16777216 * d) / 16777216 = d) by mlia.
  rewrite H1, H2, H3. split_and!; mlia.
Qed.

(** Bitwise complement of a 16- and a 32-bit value. *)
Definition not16 (x : Z) : Z := u16 (Z.lnot x).
Definition not32 (x : Z) : Z := u32 (Z.lnot x).
Lemma not16_eq x : is_u16 x -> not16 x = 65535 - x.
Proof. unfold not16, Z.lnot, Z.pred. mlia. Qed.
Lemma not32_eq x : is_u32 x -> not32 x = 4294967295 - x.
Proof. unfold not32, Z.lnot, Z.pred. mlia. Qed.

(** [flags & f] as a condition. *)
Definition has_flag (flags f : Z) : bool := negb (Z.land flags f =? 0).

Lemma has_flag_lor x a b : has_flag x (Z.lor a b) = has_flag x a || has_flag x b.
Proof.
  unfold has_flag. rewrite Z.land_lor_distr_r, <- negb_andb. f_equal.
  apply eq_bool_prop_intro. rewrite !Is_true_true, andb_true_iff, !Z.eqb_eq. apply Z.lor_eq_0_iff.
Qed.
Lemma has_flag_lor_l x y f : has_flag (Z.lor x y) f = has_flag x f || has_flag y f.
Proof.
  unfold has_flag. rewrite Z.land_lor_distr_l, <- negb_andb. f_equal.
  apply eq_bool_prop_intro. rewrite !Is_true_true, andb_true_iff, !Z.eqb_eq. apply Z.lor_eq_0_iff.
Qed.
Lemma has_flag_land x m f : has_flag (Z.land x m) f = has_flag x (Z.land m f).
Proof. unfold has_flag. by rewrite Z.land_assoc. Qed.

(** ** Outcomes of C code

    [Ok a]: the call returns [a]. [AssertFailed]: an [LWIP_ASSERT] fails
    ([LWIP_PLATFORM_ASSERT] of include/lwip/arch/cc.h aborts the process).
    [BadAccess]: the code dereferences a pointer that is not valid.
    [OutOfFuel]: a loop of the model ran out of its fuel; the theorems show
    that it does not. [DivByZero]: an integer division by zero. *)
Inductive fault := AssertFailed | BadAccess | OutOfFuel | DivByZero.
#[export] Instance fault_eq_dec : EqDecision fault.
Proof. solve_decision. Defined.

Inductive res (A : Type) := Ok (a : A) | Err (e : fault).
Arguments Ok {A} _.
Arguments Err {A} _.

Definition res_bind {A B} (r : res A) (f : A -> res B) : res B :=
  match r with Ok a => f a | Err e => Err e end.
Definition of_option {A} (e : fault) (o : option A) : res A :=
  match o with Some a => Ok a | None => Err e end.
Definition lwip_assert (b : bool) : res unit := if b then Ok tt else Err AssertFailed.

Declare Scope res_scope.
Delimit Scope res_scope with res.
Notation "'let!' x ':=' r 'in' k" := (res_bind r (fun x => k))
  (at level 10, x pattern, r at level 100, k at level 200) : res_scope.
Notation "'assert!' b 'in' k" := (res_bind (lwip_assert b) (fun _ => k))
  (at level 10, b at level 100, k at level 200) : res_scope.
Open Scope res_scope.

Lemma res_bind_ok {A B} (r : res A) (f : A -> res B) b :
  res_bind r f = Ok b -> exists a, r = Ok a /\ f a = Ok b.
Proof. destruct r; simpl; [eauto | discriminate]. Qed.

(** Take apart a chain of binds that returned. *)
Ltac inv_res :=
  repeat match goal with
  | H : res_bind _ _ = Ok _ |- _ =>
      apply res_bind_ok in H; destruct H as (? & ? & H); simpl in H
  | H : Ok _ = Ok _ |- _ => injection H as H; subst
  | H : Err _ = Ok _ |- _ => discriminate H
  | H : lwip_assert ?b = Ok _ |- _ => unfold lwip_assert in H; destruct b eqn:?; [|discriminate H]; clear H
  | H : of_option _ ?o = Ok _ |- _ => unfold of_option in H; destruct o eqn:?; [|discriminate H]
  end.

(** ** Record update

    [r <| f := v |>] is [r] with field [f] set to [v]. A record type gives its
    expansion as a constructor applied to its projections ([Eta]); [setter]
    derives the update of one field from it. *)
Class Eta (R : Type) := { eta : R -> R }.
Class Setter {R T : Type} (f : R -> T) := { set_field : T -> R -> R }.
Arguments set_field {R T} f {Setter} v r.
Notation "r <| f := v |>" := (set_field f v r)
  (at level 1, left associativity, f at next level, v at level 200,
   format "r  <| f  :=  v |>").
Ltac setter :=
  lazymatch goal with |- @Setter ?R ?T ?f =>
    constructor; intros v r;
    let e := eval hnf in (eta r) in
    lazymatch eval pattern (f r) in e with ?P _ =>
      let b := eval cbv beta in (P v) in exact b end end.

(** ** Error codes of include/lwip/lwip/err.h (lines 44 to 79) *)
Definition err_t := Z.
Definition ERR_OK : err_t := 0.
Definition ERR_MEM : err_t := -1.
Definition ERR_BUF : err_t := -2.
Definition ERR_TIMEOUT : err_t := -3.
Definition ERR_RTE : err_t := -4.
Definition ERR_INPROGRESS : err_t := -5.
Definition ERR_VAL : err_t := -6.
Definition ERR_WOULDBLOCK : err_t := -7.
Definition ERR_USE : err_t := -8.
Definition ERR_ISCONN : err_t := -9.
Definition ERR_CONN_WARN : err_t := -10.
Definition ERR_ABRT : err_t := -11.
Definition ERR_RST : err_t := -12.
Definition ERR_CLSD : err_t := -13.
Definition ERR_CONN : err_t := -14.
Definition ERR_ARG : err_t := -15.
Definition ERR_IF : err_t := -16.
Definition ERR_IS_FATAL (e : err_t) : bool := e <? ERR_CONN_WARN.

(** ** Lists *)
Definition zlen {A} (l : list A) : Z := Z.of_nat (length l).
Lemma zlen_nonneg {A} (l : list A) : 0 <= zlen l. Proof. unfold zlen. lia. Qed.
Lemma zlen_app {A} (l k : list A) : zlen (l ++ k) = zlen l + zlen k.
Proof. unfold zlen. rewrite length_app. lia. Qed.
Lemma zlen_cons {A} (a : A) l : zlen (a :: l) = 1 + zlen l.
Proof. unfold zlen. simpl. lia. Qed.

(** The [n] bytes from offset [pos] on. *)
Definition slice (pos n : Z) (bs : list Z) : list Z := take (Z.to_nat n) (drop (Z.to_nat pos) bs).

Lemma zlen_slice pos n (bs : list Z) : 0 <= pos -> 0 <= n -> pos + n <= zlen bs -> zlen (slice pos n bs) = n.
Proof. unfold zlen, slice. intros. rewrite length_take, length_drop. lia. Qed.

Lemma slice_slice pos n pos2 n2 (bs : list Z) : 0 <= pos -> 0 <= pos2 -> 0 <= n2 -> pos2 + n2 <= n ->
  slice pos2 n2 (slice pos n bs) = slice (pos + pos2) n2 bs.
Proof.
  intros. unfold slice. rewrite skipn_firstn_comm, take_take, drop_drop. f_equal; [lia|f_equal; lia].
Qed.

Lemma slice_0 n (bs : list Z) : slice 0 n bs = take (Z.to_nat n) bs.
Proof. done. Qed.
Lemma slice_all (bs : list Z) : slice 0 (zlen bs) bs = bs.
Proof. unfold slice, zlen. rewrite Nat2Z.id, drop_0. by rewrite firstn_all. Qed.

Lemma slice_nil pos (bs : list Z) : slice pos 0 bs = [].
Proof. unfold slice. by rewrite take_0. Qed.
Lemma slice_app pos n m (bs : list Z) : 0 <= pos -> 0 <= n -> 0 <= m ->
  slice pos n bs ++ slice (pos + n) m bs = slice pos (n + m) bs.
Proof.
  intros. unfold slice. rewrite !Z2Nat.inj_add by lia.
  by rewrite <- drop_drop, <- take_take_drop.
Qed.
Lemma take_slice pos n m (bs : list Z) : 0 <= m <= n -> take (Z.to_nat m) (slice pos n bs) = slice pos m bs.
Proof. intros. unfold slice. rewrite take_take. f_equal. lia. Qed.
Lemma drop_slice pos n m (bs : list Z) : 0 <= pos -> 0 <= m <= n ->
  drop (Z.to_nat m) (slice pos n bs) = slice (pos + m) (n - m) bs.
Proof.
  intros. unfold slice. rewrite skipn_firstn_comm, drop_drop. f_equal; [lia|f_equal; lia].
Qed.

(** Two concrete lists have no common element. *)
Lemma list_apart {A} `{EqDecision A} (l k : list A) :
  bool_decide (Forall (fun x => ~ x ∈ k) l) = true -> forall x, x ∈ l -> x ∉ k.
Proof. intros Hd%bool_decide_eq_true. by apply Forall_forall. Qed.
