(* ===== verification/ByteOrder.v ===== *)
(** * Byte order (src/src/lwip/core/def.c)

    The byte swapping functions of def.c for a little-endian host
    (include/lwip/arch/cc.h sets BYTE_ORDER to LITTLE_ENDIAN), and how a
    16- and a 32-bit integer is laid out in memory there. *)
From S2P Require Import Prelude.

(** ** The functions of def.c *)

Definition lwip_htons (n : Z) : Z :=
  u16 (Z.lor (Z.shiftl (Z.land n 0xff) 8) (Z.shiftr (Z.land n 0xff00) 8)).

Definition lwip_ntohs (n : Z) : Z := lwip_htons n.

Definition lwip_htonl (n : Z) : Z :=
  u32 (Z.lor (Z.lor (Z.lor (Z.shiftl (Z.land n 0xff) 24)
                           (Z.shiftl (Z.land n 0xff00) 8))
                    (Z.shiftr (Z.land n 0xff0000) 8))
             (Z.shiftr (Z.land n 0xff000000) 24)).

Definition lwip_ntohl (n : Z) : Z := lwip_htonl n.

(** ** Memory layout *)

(** What a load of a u16_t or u32_t reads on a little-endian host. *)
Definition load_le16 (b0 b1 : Z) : Z := Z.lor b0 (Z.shiftl b1 8).
Definition load_le32 (b0 b1 b2 b3 : Z) : Z :=
  Z.lor (load_le16 b0 b1) (Z.shiftl (load_le16 b2 b3) 16).

(** The bytes a store of the integer writes. *)
Definition store_le16 (n : Z) : list Z := [u8 n; u8 (Z.shiftr n 8)].
Definition store_le32 (n : Z) : list Z :=
  [u8 n; u8 (Z.shiftr n 8); u8 (Z.shiftr n 16); u8 (Z.shiftr n 24)].

(** Network byte order: the most significant byte first. *)
Definition be16_bytes (n : Z) : list Z := [n / 256 mod 256; n mod 256].
Definition be32_bytes (n : Z) : list Z :=
  [n / 16777216 mod 256; n / 65536 mod 256; n / 256 mod 256; n mod 256].

(** ** Arithmetic forms *)

Lemma load_le16_eq b0 b1 : is_u8 b0 -> load_le16 b0 b1 = b0 + b1 * 256.
Proof.
  intros H. unfold load_le16. rewrite shl8. apply (lor_add_l 8); [lia|]. unfold is_u8 in H. lia.
Qed.

Lemma load_le32_eq b0 b1 b2 b3 : is_u8 b0 -> is_u8 b1 -> is_u8 b2 ->
  load_le32 b0 b1 b2 b3 = b0 + b1 * 256 + b2 * 65536 + b3 * 16777216.
Proof.
  intros H0 H1 H2. unfold load_le32. rewrite !load_le16_eq by done.
  rewrite shl16, (lor_add_l 16); unfold is_u8 in *; lia.
Qed.

Lemma lwip_htons_eq n : is_u16 n -> lwip_htons n = n mod 256 * 256 + n / 256.
Proof.
  intros H. unfold lwip_htons. autorewrite with bits.
  rewrite (Z.div_mul _ 256) by lia.
  rewrite (lor_add 8) by mlia. mlia.
Qed.

Lemma lwip_htons_range n : is_u16 (lwip_htons n).
Proof. unfold lwip_htons. auto with lwip. Qed.

Lemma lwip_htons_invol n : is_u16 n -> lwip_htons (lwip_htons n) = n.
Proof.
  intros H. pose proof (lwip_htons_range n).
  rewrite (lwip_htons_eq (lwip_htons n)), lwip_htons_eq by done. mlia.
Qed.

Lemma lwip_htonl_eq n : is_u32 n ->
  lwip_htonl n = n mod 256 * 16777216 + n / 256 mod 256 * 65536
                 + n / 65536 mod 256 * 256 + n / 16777216.
Proof.
  intros H. unfold lwip_htonl. autorewrite with bits.
  replace (n / 256 mod 256 * 256 * 256) with (n / 256 mod 256 * 65536) by lia.
  replace (n / 65536 mod 256 * 65536 / 256) with (n / 65536 mod 256 * 256) by mlia.
  rewrite Z.div_mul by lia.
  change 16777216 with (2 ^ 24) at 1.
  rewrite (lor_add 24) by mlia.
  replace (n mod 256 * 2 ^ 24 + n / 256 mod 256 * 65536)
    with ((n mod 256 * 256 + n / 256 mod 256) * 2 ^ 16) by lia.
  rewrite (lor_add 16) by mlia.
  replace ((n mod 256 * 256 + n / 256 mod 256) * 2 ^ 16 + n / 65536 mod 256 * 256)
    with ((n mod 256 * 65536 + n / 256 mod 256 * 256 + n / 65536 mod 256) * 2 ^ 8) by lia.
  rewrite (lor_add 8) by mlia. mlia.
Qed.

Lemma lwip_htonl_range n : is_u32 (lwip_htonl n).
Proof. unfold lwip_htonl. auto with lwip. Qed.
#[export] Hint Resolve lwip_htons_range lwip_htonl_range : lwip.

(** [htonl] reverses the bytes. *)
Lemma lwip_htonl_bytes a b c d : is_u8 a -> is_u8 b -> is_u8 c -> is_u8 d ->
  lwip_htonl (a + 256 * b + 65536 * c + 16777216 * d)
  = d + 256 * c + 65536 * b + 16777216 * a.
Proof.
  intros Ha Hb Hc Hd. rewrite lwip_htonl_eq by (unfold is_u8, is_u32 in *; lia).
  destruct (digits32 a b c d) as (-> & -> & -> & -> & _); [done..|]. lia.
Qed.

Lemma lwip_htonl_invol n : is_u32 n -> lwip_htonl (lwip_htonl n) = n.
Proof.
  intros (a & b & c & d & Ha & Hb & Hc & Hd & ->)%u32_bytes.
  by rewrite !lwip_htonl_bytes.
Qed.

Lemma store_le16_eq n : store_le16 n = [n mod 256; n / 256 mod 256].
Proof. unfold store_le16. by rewrite shr8. Qed.

Lemma store_le32_eq n :
  store_le32 n = [n mod 256; n / 256 mod 256; n / 65536 mod 256; n / 16777216 mod 256].
Proof. unfold store_le32. by rewrite shr8, shr16, shr24. Qed.

Lemma store_htons n : is_u16 n -> store_le16 (lwip_htons n) = be16_bytes n.
Proof.
  intros H. rewrite store_le16_eq, lwip_htons_eq by done. unfold be16_bytes.
  f_equal; [mlia|]. f_equal. mlia.
Qed.

Lemma store_htonl n : is_u32 n -> store_le32 (lwip_htonl n) = be32_bytes n.
Proof.
  intros (a & b & c & d & Ha & Hb & Hc & Hd & ->)%u32_bytes.
  rewrite store_le32_eq, lwip_htonl_bytes by done. unfold be32_bytes.
  destruct (digits32 a b c d) as (-> & -> & -> & _ & ->); [done..|].
  by destruct (digits32 d c b a) as (-> & -> & -> & _ & ->).
Qed.

(** What is stored is loaded. *)
Lemma load_store16 n : is_u16 n -> load_le16 (u8 n) (u8 (Z.shiftr n 8)) = n.
Proof.
  intros Hn. rewrite load_le16_eq by apply is_u8_u8. rewrite shr8. unfold u8, is_u16 in *.
  pose proof (Z.div_mod n 256). assert (n / 256 < 256) by (apply Z.div_lt_upper_bound; lia).
  assert (0 <= n / 256) by (apply Z.div_pos; lia). rewrite (Z.mod_small (n / 256)) by lia. lia.
Qed.
Lemma load_store32 n : is_u32 n -> load_le32 (u8 n) (u8 (Z.shiftr n 8)) (u8 (Z.shiftr n 16)) (u8 (Z.shiftr n 24)) = n.
Proof.
  intros Hn. destruct (u32_bytes n Hn) as (a & b & c & d & Ha & Hb & Hc & Hd & ->).
  destruct (digits32 a b c d Ha Hb Hc Hd) as (H1 & H2 & H3 & _ & H4).
  rewrite load_le32_eq by apply is_u8_u8. rewrite shr8, shr16, shr24. unfold u8. rewrite H1, H2, H3, H4. lia.
Qed.

(** ** Properties *)

(** The swap functions put integers in network byte order: stored in
    memory by the little-endian host, [htons n] and [htonl n] are the
    big-endian bytes of [n]; [ntohs] and [ntohl] undo them. *)
Theorem byte_order_roundtrip n m : is_u16 n -> is_u32 m ->
  store_le16 (lwip_htons n) = be16_bytes n /\ lwip_ntohs (lwip_htons n) = n /\
  store_le32 (lwip_htonl m) = be32_bytes m /\ lwip_ntohl (lwip_htonl m) = m.
Proof.
  intros Hn Hm. unfold lwip_ntohs, lwip_ntohl.
  auto using store_htons, store_htonl, lwip_htons_invol, lwip_htonl_invol.
Qed.

Lemma byte_order_roundtrip_witness :
  store_le16 (lwip_htons 0x1234) = [0x12; 0x34] /\ lwip_ntohs (lwip_htons 0x1234) = 0x1234 /\
  store_le32 (lwip_htonl 0xc0a80008) = [192; 168; 0; 8] /\
  lwip_ntohl (lwip_htonl 0xc0a80008) = 0xc0a80008.
Proof. apply (byte_order_roundtrip 0x1234 0xc0a80008); unfold is_u16, is_u32; lia. Defined.
