(* ===== verification/Checksum.v ===== *)
(** * Internet checksum (src/src/lwip/core/ipv4/inet_chksum.c)

    The three versions of [lwip_standard_chksum] (LWIP_CHKSUM_ALGORITHM 1, 2
    and 3; the build uses 2), the checksum of a contiguous buffer, of a pbuf
    chain, and of a chain with the TCP/UDP pseudo header.

    A buffer is the list of its bytes; where the code looks at the address of
    the buffer it is a parameter. A pbuf chain is the list of its segments,
    each the address of its payload and its [len] bytes. The 32-bit
    accumulators wrap around as in C.

    The specification: the bytes read as one little-endian number, modulo
    65535, zero being represented by 0 only for the number 0 and by 65535
    otherwise ([norm]). This is the one's complement sum of RFC 1071. *)
From S2P Require Import Prelude ByteOrder.

(** ** The code *)

Definition FOLD_U32T (u : Z) : Z := u32 (Z.shiftr u 16 + Z.land u 0xffff).
Definition SWAP_BYTES_IN_WORD (w : Z) : Z :=
  Z.lor (Z.shiftl (Z.land w 0xff) 8) (Z.shiftr (Z.land w 0xff00) 8).

(** Version 1: two octets at a time, most significant first. *)
Fixpoint chksum_loop1 (acc : Z) (bs : list Z) : Z :=
  match bs with
  | b0 :: b1 :: rest => chksum_loop1 (u32 (acc + Z.lor (u16 (Z.shiftl b0 8)) b1)) rest
  | [b0] => u32 (acc + u16 (Z.shiftl b0 8))
  | [] => acc
  end.

Definition lwip_standard_chksum1 (bs : list Z) : Z :=
  let acc := chksum_loop1 0 bs in
  let acc := u32 (Z.shiftr acc 16 + Z.land acc 0xffff) in
  let acc := if bool_decide (Z.land acc 0xffff0000 ≠ 0)
             then u32 (Z.shiftr acc 16 + Z.land acc 0xffff) else acc in
  lwip_htons (u16 acc).

(** [while (len > 1) { sum += *ps++; len -= 2; }]: the sum and the bytes left. *)
Fixpoint chksum_words (sum : Z) (bs : list Z) : Z * list Z :=
  match bs with
  | b0 :: b1 :: rest => chksum_words (u32 (sum + load_le16 b0 b1)) rest
  | _ => (sum, bs)
  end.

(** The byte in front of the first aligned word: (t[1], the other bytes). *)
Definition chksum_head (odd : bool) (bs : list Z) : Z * list Z :=
  match bs with
  | b :: rest => if odd then (b, rest) else (0, bs)
  | [] => (0, [])
  end.

(** The byte behind the last word: t[0]. *)
Definition chksum_tail (bs : list Z) : Z :=
  match bs with b :: _ => b | [] => 0 end.

(** Version 2: 16-bit words at aligned addresses; [dataptr] is the address. *)
Definition lwip_standard_chksum2 (dataptr : Z) (bs : list Z) : Z :=
  let odd := bool_decide (Z.land dataptr 1 ≠ 0) in
  let '(t1, bs) := chksum_head odd bs in
  let '(sum, bs) := chksum_words 0 bs in
  let t := load_le16 (chksum_tail bs) t1 in
  let sum := u32 (sum + t) in
  let sum := FOLD_U32T (FOLD_U32T sum) in
  let sum := if odd then SWAP_BYTES_IN_WORD sum else sum in
  u16 sum.

(** Version 3: 8 bytes per turn as two 32-bit words, the carry added back. *)
Fixpoint chksum_loop3 (sum : Z) (bs : list Z) : Z * list Z :=
  match bs with
  | b0 :: b1 :: b2 :: b3 :: b4 :: b5 :: b6 :: b7 :: rest =>
      let tmp := u32 (sum + load_le32 b0 b1 b2 b3) in
      let tmp := if tmp <? sum then u32 (tmp + 1) else tmp in
      let sum := u32 (tmp + load_le32 b4 b5 b6 b7) in
      let sum := if sum <? tmp then u32 (sum + 1) else sum in
      chksum_loop3 sum rest
  | _ => (sum, bs)
  end.

(** [if (((mem_ptr_t)ps & 3) && len > 1)]: one word up to a 32-bit boundary. *)
Definition chksum_align3 (ps : Z) (bs : list Z) : Z * list Z :=
  match bs with
  | b0 :: b1 :: rest =>
      if bool_decide (Z.land ps 3 ≠ 0) then (load_le16 b0 b1, rest) else (0, bs)
  | _ => (0, bs)
  end.

Definition lwip_standard_chksum3 (dataptr : Z) (bs : list Z) : Z :=
  let odd := bool_decide (Z.land dataptr 1 ≠ 0) in
  let ps := if odd && negb (bool_decide (bs = [])) then dataptr + 1 else dataptr in
  let '(t1, bs) := chksum_head odd bs in
  let '(sum, bs) := chksum_align3 ps bs in
  let '(sum, bs) := chksum_loop3 sum bs in
  let sum := FOLD_U32T sum in
  let '(sum, bs) := chksum_words sum bs in
  let t := load_le16 (chksum_tail bs) t1 in
  let sum := u32 (sum + t) in
  let sum := FOLD_U32T (FOLD_U32T sum) in
  let sum := if odd then SWAP_BYTES_IN_WORD sum else sum in
  u16 sum.

(** LWIP_CHKSUM: the default version. *)
Definition LWIP_CHKSUM := lwip_standard_chksum2.

Definition inet_chksum (dataptr : Z) (bs : list Z) : Z := not16 (LWIP_CHKSUM dataptr bs).

(** A segment of a chain: the address of the payload and its bytes. *)
Abbreviation seg := (Z * list Z)%type.

(** One turn of the loops over the chain: [len] is [q->len]. *)
Definition chksum_step (st : Z * bool) (payload : Z) (bs : list Z) (len : Z) : Z * bool :=
  let '(acc, swapped) := st in
  let acc := FOLD_U32T (u32 (acc + LWIP_CHKSUM payload bs)) in
  if bool_decide (len mod 2 ≠ 0) then (SWAP_BYTES_IN_WORD acc, negb swapped) else (acc, swapped).

Fixpoint chksum_chain (st : Z * bool) (p : list seg) : Z * bool :=
  match p with
  | [] => st
  | (payload, bs) :: next => chksum_chain (chksum_step st payload bs (zlen bs)) next
  end.

Definition chksum_unswap (st : Z * bool) : Z :=
  if st.2 then SWAP_BYTES_IN_WORD st.1 else st.1.

Definition inet_chksum_pbuf (p : list seg) : Z :=
  not16 (Z.land (chksum_unswap (chksum_chain (0, false) p)) 0xffff).

(** The pseudo header: both addresses in network order, protocol, length. *)
Definition chksum_pseudo_hdr (acc src dest proto proto_len : Z) : Z :=
  let acc := u32 (acc + Z.land src 0xffff) in
  let acc := u32 (acc + Z.land (Z.shiftr src 16) 0xffff) in
  let acc := u32 (acc + Z.land dest 0xffff) in
  let acc := u32 (acc + Z.land (Z.shiftr dest 16) 0xffff) in
  let acc := u32 (acc + lwip_htons (u16 proto)) in
  let acc := u32 (acc + lwip_htons proto_len) in
  let acc := FOLD_U32T (FOLD_U32T acc) in
  not16 (Z.land acc 0xffff).

Definition inet_chksum_pseudo (p : list seg) (src dest proto proto_len : Z) : Z :=
  let acc := chksum_unswap (chksum_chain (0, false) p) in
  chksum_pseudo_hdr acc src dest proto proto_len.

(** The loop of the partial version stops when [chksum_len] bytes are summed. *)
Fixpoint chksum_chain_partial (st : Z * bool) (chksum_len : Z) (p : list seg) : res (Z * bool) :=
  match p with
  | [] => Ok st
  | (payload, bs) :: next =>
      if 0 <? chksum_len then
        let len := zlen bs in
        let chklen := if len >? chksum_len then chksum_len else len in
        let data := take (Z.to_nat chklen) bs in
        let chksum_len := u16 (chksum_len - chklen) in
        assert! chksum_len <? 0x7fff in
        chksum_chain_partial (chksum_step st payload data len) chksum_len next
      else Ok st
  end.

Definition inet_chksum_pseudo_partial (p : list seg) (src dest proto proto_len chksum_len : Z)
    : res Z :=
  let! st := chksum_chain_partial (0, false) chksum_len p in
  Ok (chksum_pseudo_hdr (chksum_unswap st) src dest proto proto_len).

(** ** Specification: one's complement representatives *)

(** The number the bytes spell, least significant first. *)
Fixpoint le_value (bs : list Z) : Z :=
  match bs with [] => 0 | b :: rest => b + 256 * le_value rest end.

(** The 16-bit one's complement representative of a number. *)
Definition norm (s : Z) : Z := if s =? 0 then 0 else (s - 1) mod 65535 + 1.

(** [a] and [b] have the same one's complement representative. *)
Definition rep (a b : Z) : Prop :=
  0 <= a /\ 0 <= b /\ (exists k, a = b + k * 65535) /\ (a = 0 <-> b = 0).

#[export] Instance rep_sym : Symmetric rep.
Proof. intros a b (Ha & Hb & [k ->] & H). split_and!; try done. exists (- k). lia. Qed.

#[export] Instance rep_trans : Transitive rep.
Proof.
  intros a b c (Ha & Hb & [k Hk] & H) (_ & Hc & [j Hj] & H').
  split_and!; try done. exists (k + j). lia. by rewrite H.
Qed.

#[export] Instance rep_add : Proper (rep ==> rep ==> rep) Z.add.
Proof.
  intros a b (Ha & Hb & [k Hk] & H) c d (Hc & Hd & [j Hj] & H').
  split_and!; try lia. exists (k + j). lia.
Qed.

Lemma rep_refl a : 0 <= a -> rep a a.
Proof. intros H. split_and!; try done. exists 0. lia. Qed.

Lemma rep_scale c a b : 0 < c -> rep a b -> rep (c * a) (c * b).
Proof.
  intros Hc (Ha & Hb & [k Hk] & H). split_and!; try nia. exists (c * k). nia.
Qed.

(** A shift by 16 bits does not matter: 65536 is 1 modulo 65535. *)
Lemma rep_shift16 a : 0 <= a -> rep (65536 * a) a.
Proof. intros H. split_and!; try lia. exists a. lia. Qed.

Lemma norm_range s : 0 <= norm s <= 65535.
Proof. unfold norm. destruct (Z.eqb_spec s 0); mlia. Qed.

Lemma norm_rep s : 0 <= s -> rep (norm s) s.
Proof.
  intros H. unfold norm. destruct (Z.eqb_spec s 0) as [->|Hs]; [by apply rep_refl|].
  split_and!; try mlia. exists (- ((s - 1) / 65535)). mlia.
Qed.

(** The representative is unique. *)
Lemma norm_unique r s : rep r s -> r <= 65535 -> r = norm s.
Proof.
  intros (Hr & Hs & [k Hk] & H0) Hle. unfold norm.
  destruct (Z.eqb_spec s 0) as [->|Hne]; [by apply H0|]. mlia.
Qed.

Lemma norm_ext a b : rep a b -> norm a = norm b.
Proof.
  intros H. apply norm_unique; [|apply norm_range].
  transitivity a; [|done]. apply norm_rep, H.
Qed.

(** ** Folding and swapping *)

Lemma fold_rep u : is_u32 u -> rep (FOLD_U32T u) u /\ FOLD_U32T u <= 131070.
Proof.
  intros H. unfold FOLD_U32T. autorewrite with bits.
  rewrite u32_id by mlia. split; [|mlia].
  split_and!; try mlia. exists (- (u / 65536)). mlia.
Qed.

Lemma fold_once u : 0 <= u <= 131070 -> FOLD_U32T u = norm u.
Proof.
  intros H. apply norm_unique; [apply fold_rep; mlia|].
  unfold FOLD_U32T. autorewrite with bits. mlia.
Qed.

Lemma fold_twice u : is_u32 u -> FOLD_U32T (FOLD_U32T u) = norm u.
Proof.
  intros H. destruct (fold_rep u H) as [Hrep Hle].
  rewrite fold_once by (split; [apply Hrep|done]). by apply norm_ext.
Qed.

Lemma swap_eq w : is_u16 w -> SWAP_BYTES_IN_WORD w = w mod 256 * 256 + w / 256.
Proof.
  intros H. rewrite <- lwip_htons_eq by done.
  unfold lwip_htons, SWAP_BYTES_IN_WORD. autorewrite with bits.
  rewrite Z.div_mul by lia. rewrite (lor_add 8) by mlia. by rewrite u16_id by mlia.
Qed.

Lemma swap_norm s : 0 <= s -> SWAP_BYTES_IN_WORD (norm s) = norm (256 * s).
Proof.
  intros H. pose proof (norm_range s) as Hr. rewrite swap_eq by mlia.
  apply norm_unique; [|mlia].
  transitivity (256 * norm s); [|apply rep_scale; [lia|by apply norm_rep]].
  split_and!; try mlia. exists (- (norm s / 256)). mlia.
Qed.

Lemma htons_norm s : 0 <= s -> lwip_htons (norm s) = norm (256 * s).
Proof.
  intros H. pose proof (norm_range s). rewrite <- swap_norm, swap_eq, lwip_htons_eq by mlia. done.
Qed.

(** ** The numbers spelled by byte lists *)

Lemma le_value_nonneg bs : bytes_ok bs -> 0 <= le_value bs.
Proof. induction 1 as [|b bs Hb _ IH]; simpl; [done|]. unfold is_u8 in Hb. lia. Qed.

Lemma bytes_ok_cons b bs : bytes_ok (b :: bs) <-> is_u8 b /\ bytes_ok bs.
Proof. unfold bytes_ok. by rewrite Forall_cons. Qed.
Lemma bytes_ok_app a b : bytes_ok (a ++ b) <-> bytes_ok a /\ bytes_ok b.
Proof. unfold bytes_ok. by rewrite Forall_app. Qed.

Lemma le_value_app a b : le_value (a ++ b) = le_value a + 256 ^ zlen a * le_value b.
Proof.
  induction a as [|x a IH]; [change (256 ^ zlen []) with 1; simpl; lia|].
  rewrite zlen_cons, Z.pow_add_r by (pose proof (zlen_nonneg a); lia). simpl. rewrite IH. lia.
Qed.

(** A shift by a number of bytes only matters by its parity. *)
Lemma rep_pow256 n a : 0 <= n -> 0 <= a -> rep (256 ^ n * a) ((if Z.odd n then 256 else 1) * a).
Proof.
  intros Hn Ha. revert n Hn. apply (natlike_ind _); [rewrite Z.pow_0_r; change (Z.odd 0) with false; apply rep_refl; lia|].
  intros n Hn IH. rewrite Z.pow_succ_r, Z.odd_succ, <- Z.negb_odd by done.
  transitivity (256 * ((if Z.odd n then 256 else 1) * a)).
  - rewrite <- Z.mul_assoc. apply rep_scale; [lia|done].
  - destruct (Z.odd n); simpl.
    + rewrite Z.mul_assoc. replace (1 * a) with a by lia. by apply rep_shift16.
    + replace (1 * a) with a by lia. apply rep_refl. lia.
Qed.

(** Induction two elements at a time. *)
Lemma pair_ind {A} (P : list A -> Prop) :
  P [] -> (forall a, P [a]) -> (forall a b l, P l -> P (a :: b :: l)) -> forall l, P l.
Proof.
  intros H0 H1 H2 l. enough (P l /\ forall a, P (a :: l)) by tauto.
  induction l as [|x l [IH IH']]; split; auto.
Qed.

Ltac bytes_inv :=
  repeat match goal with
  | H : bytes_ok (_ :: _) |- _ => apply bytes_ok_cons in H as [? H]
  end.

(** ** The word loop *)

Lemma chksum_words_spec bs : forall sum, bytes_ok bs -> 0 <= sum ->
  2 * sum + 65535 * zlen bs < 8589934592 ->
  let '(sum', rest) := chksum_words sum bs in
  (rest = [] /\ zlen bs mod 2 = 0 \/ exists b, rest = [b] /\ is_u8 b) /\
  0 <= sum' /\ 2 * sum' + 65535 * zlen rest <= 2 * sum + 65535 * zlen bs /\
  rep (sum' + chksum_tail rest) (sum + le_value bs).
Proof.
  induction bs as [|a|a b bs IH] using pair_ind; intros sum Hb Hs Hlen; simpl.
  - split_and!; try lia; [left; done|]. apply rep_refl. lia.
  - bytes_inv. split_and!; try lia; [right; eauto|].
    replace (a + 256 * 0) with a by lia. apply rep_refl. unfold is_u8 in *. lia.
  - bytes_inv. rewrite !zlen_cons in Hlen. pose proof (zlen_nonneg bs).
    assert (Hw : load_le16 a b = a + 256 * b /\ 0 <= a + 256 * b <= 65535).
    { rewrite load_le16_eq by done. unfold is_u8 in *. lia. }
    destruct Hw as [-> Hw]. rewrite u32_id by lia.
    specialize (IH (sum + (a + 256 * b)) Hb ltac:(lia) ltac:(lia)).
    destruct (chksum_words _ bs) as [sum' rest]. destruct IH as (Hr & Hs' & Hle & Hrep).
    rewrite !zlen_cons. split_and!; try lia.
    + destruct Hr as [[-> Hr]|Hr]; [left|by right]. split; [done|]. mlia.
    + transitivity (sum + (a + 256 * b) + le_value bs); [done|].
      replace (sum + (a + 256 * (b + 256 * le_value bs)))
        with (sum + (a + 256 * b) + 65536 * le_value bs) by lia.
      apply le_value_nonneg in Hb.
      apply rep_add; [apply rep_refl; lia|]. symmetry. by apply rep_shift16.
Qed.

Lemma chksum_head_spec (odd : bool) bs : bytes_ok bs ->
  let '(t1, rest) := chksum_head odd bs in
  is_u8 t1 /\ bytes_ok rest /\
  (if odd then le_value bs = t1 + 256 * le_value rest else t1 = 0 /\ rest = bs) /\
  zlen rest <= zlen bs /\ (t1 = 0 \/ zlen bs = 1 + zlen rest).
Proof.
  intros H. destruct bs as [|b bs]; simpl.
  - split_and!; try done; [by destruct odd|by left].
  - bytes_inv. destruct odd; split_and!; try done.
    + rewrite zlen_cons. lia.
    + right. apply zlen_cons.
    + by apply bytes_ok_cons.
    + by left.
Qed.

(** The sum of the words and the bytes outside them fits 32 bits. *)
Lemma chksum_words_bound bs sum : bytes_ok bs -> 0 <= sum ->
  2 * sum + 65535 * zlen bs < 8589934592 ->
  forall t1, is_u8 t1 -> (t1 = 0 \/ sum <= 131070 /\ zlen bs <= 131065 \/
    sum = 0 /\ zlen bs <= 131071) ->
  let '(sum', rest) := chksum_words sum bs in
  bytes_ok rest /\ 0 <= sum' /\ sum' + chksum_tail rest + 256 * t1 < 4294967296 /\
  rep (sum' + chksum_tail rest) (sum + le_value bs).
Proof.
  intros Hb Hs Hlt t1 Ht Hor. pose proof (chksum_words_spec bs sum Hb Hs Hlt) as Hw.
  destruct (chksum_words sum bs) as [sum' rest]. destruct Hw as (Hr & Hs' & Hle & Hrep).
  unfold is_u8 in *. destruct Hr as [[-> Hev]|(b & -> & Hb2)]; split_and!; try done.
  - constructor.
  - change (zlen (@nil Z)) with 0 in Hle. simpl. mlia.
  - apply bytes_ok_cons. split; [done|constructor].
  - change (zlen [b]) with 1 in Hle. simpl. unfold is_u8 in *. lia.
Qed.

(** The end of versions 2 and 3: the bytes outside the words are added, the
    sum is folded twice and swapped when the address was odd. *)
Definition chksum_finish (odd : bool) (sum t1 : Z) (rest : list Z) : Z :=
  let sum := FOLD_U32T (FOLD_U32T (u32 (sum + load_le16 (chksum_tail rest) t1))) in
  u16 (if odd then SWAP_BYTES_IN_WORD sum else sum).

Lemma chksum_finish_spec (odd : bool) sum t1 rest bs' bs :
  bytes_ok rest -> is_u8 t1 -> bytes_ok bs' -> 0 <= sum ->
  sum + chksum_tail rest + 256 * t1 < 4294967296 ->
  rep (sum + chksum_tail rest) (le_value bs') ->
  (if odd then le_value bs = t1 + 256 * le_value bs' else t1 = 0 /\ bs' = bs) ->
  chksum_finish odd sum t1 rest = norm (le_value bs).
Proof.
  intros Hrest Ht Hb Hs Hlt Hrep Hodd. unfold chksum_finish.
  assert (Htl : is_u8 (chksum_tail rest)) by (destruct rest; simpl; [done|by bytes_inv]).
  rewrite load_le16_eq by done. pose proof (le_value_nonneg bs' Hb) as Hnn.
  unfold is_u8 in Ht, Htl. rewrite u32_id, fold_twice by (unfold is_u32; lia).
  destruct odd.
  - rewrite swap_norm by lia. rewrite u16_id by (pose proof (norm_range (256 * (sum + (chksum_tail rest + t1 * 256)))); lia).
    rewrite Hodd. apply norm_ext.
    replace (256 * (sum + (chksum_tail rest + t1 * 256)))
      with (65536 * t1 + 256 * (sum + chksum_tail rest)) by lia.
    apply rep_add; [apply rep_shift16; lia|by apply rep_scale].
  - destruct Hodd as [-> ->]. rewrite u16_id by (pose proof (norm_range (sum + (chksum_tail rest + 0 * 256))); lia).
    apply norm_ext. replace (sum + (chksum_tail rest + 0 * 256)) with (sum + chksum_tail rest) by lia. done.
Qed.

Lemma lwip_standard_chksum2_eq p bs : bytes_ok bs -> zlen bs <= 0x20000 ->
  lwip_standard_chksum2 p bs = norm (le_value bs).
Proof.
  intros Hb Hlen. unfold lwip_standard_chksum2.
  set (odd := bool_decide _). pose proof (chksum_head_spec odd bs Hb) as Hh.
  destruct (chksum_head odd bs) as [t1 bs']. destruct Hh as (Ht & Hb' & Hodd & Hl & Ht1).
  pose proof (chksum_words_bound bs' 0 Hb' ltac:(lia) ltac:(lia) t1 Ht ltac:(lia)) as Hw.
  destruct (chksum_words 0 bs') as [sum rest]. destruct Hw as (Hr & Hs & Hle & Hrep).
  by apply (chksum_finish_spec odd sum t1 rest bs').
Qed.

(** ** Version 1 *)

Lemma chksum_loop1_spec bs : forall acc, bytes_ok bs -> 0 <= acc ->
  2 * acc + 65535 * (zlen bs + 1) < 8589934592 ->
  is_u32 (chksum_loop1 acc bs) /\ rep (chksum_loop1 acc bs) (acc + 256 * le_value bs).
Proof.
  induction bs as [|a|a b bs IH] using pair_ind; intros acc Hb Hacc Hlen; simpl.
  - change (zlen (@nil Z)) with 0 in Hlen. replace (acc + 256 * 0) with acc by lia.
    split; [unfold is_u32; lia|]. by apply rep_refl.
  - bytes_inv. change (zlen [a]) with 1 in Hlen. unfold is_u8 in *.
    rewrite shl8, u16_id, u32_id by lia. replace (256 * (a + 256 * 0)) with (a * 256) by lia.
    split; [unfold is_u32; lia|]. apply rep_refl. lia.
  - bytes_inv. rewrite !zlen_cons in Hlen. pose proof (zlen_nonneg bs). unfold is_u8 in *.
    rewrite shl8, u16_id, (lor_add 8), u32_id by lia. change (2 ^ 8) with 256.
    destruct (IH (acc + (a * 256 + b)) Hb) as [Hr Hrep]; [lia..|].
    split; [done|]. etransitivity; [exact Hrep|].
    apply le_value_nonneg in Hb.
    replace (acc + 256 * (a + 256 * (b + 256 * le_value bs)))
      with (acc + a * 256 + 65536 * (b + 256 * le_value bs)) by lia.
    replace (acc + (a * 256 + b) + 256 * le_value bs)
      with (acc + a * 256 + (b + 256 * le_value bs)) by lia.
    apply rep_add; [apply rep_refl; lia|]. symmetry. apply rep_shift16. lia.
Qed.

Lemma lwip_standard_chksum1_eq bs : bytes_ok bs -> zlen bs <= 65535 ->
  lwip_standard_chksum1 bs = norm (le_value bs).
Proof.
  intros Hb Hlen. unfold lwip_standard_chksum1.
  destruct (chksum_loop1_spec bs 0 Hb) as [Hr Hrep]; [lia..|].
  pose proof (le_value_nonneg bs Hb).
  change (lwip_htons (u16 (let a := FOLD_U32T (chksum_loop1 0 bs) in
    if bool_decide (Z.land a 0xffff0000 ≠ 0) then FOLD_U32T a else a)) = norm (le_value bs)).
  destruct (fold_rep _ Hr) as [Hf Hle]. set (a := FOLD_U32T (chksum_loop1 0 bs)) in *. cbv zeta.
  assert (Ha : (if bool_decide (Z.land a 0xffff0000 ≠ 0) then FOLD_U32T a else a)
               = norm (256 * le_value bs)).
  { rewrite land_ffff0000. apply norm_unique.
    - transitivity (chksum_loop1 0 bs); [|done]. case_bool_decide; [|done].
      transitivity a; [|done]. apply fold_rep. destruct Hf; unfold is_u32; lia.
    - case_bool_decide; [|destruct Hf; mlia].
      rewrite fold_once by (destruct Hf; lia). apply norm_range. }
  rewrite Ha, u16_id by (pose proof (norm_range (256 * le_value bs)); lia).
  rewrite htons_norm by lia. apply norm_ext.
  replace (256 * (256 * le_value bs)) with (65536 * le_value bs) by lia. by apply rep_shift16.
Qed.

(** ** Version 3 *)

(** Adding with the carry put back is addition modulo 2^32 - 1. *)
Lemma carry_add_rep s w : is_u32 s -> is_u32 w ->
  let t := u32 (s + w) in
  let t := if t <? s then u32 (t + 1) else t in is_u32 t /\ rep t (s + w).
Proof.
  intros Hs Hw. cbv zeta. unfold is_u32 in *. destruct (Z.ltb_spec (u32 (s + w)) s).
  - assert (u32 (s + w) = s + w - 4294967296 /\ 4294967296 <= s + w) as [Hu Hge] by mlia.
    rewrite Hu in *.
    rewrite u32_id by lia. split; [lia|]. split_and!; try lia. exists (-65537). lia.
  - assert (u32 (s + w) = s + w) as -> by mlia. split; [mlia|]. apply rep_refl. lia.
Qed.

Lemma load_le32_value b0 b1 b2 b3 : is_u8 b0 -> is_u8 b1 -> is_u8 b2 -> is_u8 b3 ->
  load_le32 b0 b1 b2 b3 = le_value [b0; b1; b2; b3] /\ is_u32 (load_le32 b0 b1 b2 b3).
Proof. intros H0 H1 H2 H3. rewrite load_le32_eq by done. unfold is_u8, is_u32 in *. simpl. lia. Qed.

Lemma chksum_loop3_spec n : forall sum bs, (length bs <= n)%nat -> bytes_ok bs -> is_u32 sum ->
  let '(sum', rest) := chksum_loop3 sum bs in
  is_u32 sum' /\ bytes_ok rest /\ zlen rest <= 7 /\ rep (sum' + le_value rest) (sum + le_value bs).
Proof.
  induction n as [n IH] using lt_wf_ind; intros sum bs Hn Hb Hs.
  assert (Hdone : zlen bs <= 7 ->
    is_u32 sum /\ bytes_ok bs /\ zlen bs <= 7 /\ rep (sum + le_value bs) (sum + le_value bs)).
  { intros. split_and!; try done. apply rep_refl. apply le_value_nonneg in Hb. unfold is_u32 in Hs. lia. }
  do 8 (destruct bs as [|? bs]; [by apply Hdone|]).
  cbn [chksum_loop3]. bytes_inv.
  destruct (load_le32_value z z0 z1 z2) as [E1 R1]; [done..|].
  destruct (load_le32_value z3 z4 z5 z6) as [E2 R2]; [done..|].
  destruct (carry_add_rep sum _ Hs R1) as [Ht Hrep1]. cbv zeta in *.
  set (t := if u32 (sum + load_le32 z z0 z1 z2) <? sum then _ else _) in *.
  destruct (carry_add_rep t _ Ht R2) as [Hu Hrep2]. cbv zeta in *.
  set (u := if u32 (t + load_le32 z3 z4 z5 z6) <? t then _ else _) in *.
  simpl in Hn. specialize (IH (length bs) ltac:(lia) u bs (le_n _) Hb Hu).
  destruct (chksum_loop3 u bs) as [sum' rest]. destruct IH as (? & ? & ? & IH).
  split_and!; [done..|]. apply le_value_nonneg in Hb.
  etransitivity; [exact IH|]. unfold is_u32, is_u8 in *.
  transitivity (t + load_le32 z3 z4 z5 z6 + le_value bs); [apply rep_add; [done|by apply rep_refl]|].
  transitivity (sum + load_le32 z z0 z1 z2 + load_le32 z3 z4 z5 z6 + le_value bs).
  { do 2 (apply rep_add; [|apply rep_refl; lia]). done. }
  rewrite E1, E2. simpl.
  set (A := z + 256 * (z0 + 256 * (z1 + 256 * z2))). set (B := z3 + 256 * (z4 + 256 * (z5 + 256 * z6))).
  match goal with |- rep ?l ?r =>
    replace l with (sum + A + B + le_value bs) by (unfold A, B; lia);
    replace r with (sum + A + 65536 * (65536 * (B + 65536 * (65536 * le_value bs))))
      by (unfold A, B; lia) end.
  assert (Hsh : rep (65536 * (65536 * le_value bs)) (le_value bs)).
  { transitivity (65536 * le_value bs); apply rep_shift16; lia. }
  symmetry. transitivity (sum + A + (B + 65536 * (65536 * le_value bs))).
  - apply rep_add; [apply rep_refl; unfold A; lia|].
    transitivity (65536 * (B + 65536 * (65536 * le_value bs))); apply rep_shift16; unfold B; lia.
  - replace (sum + A + B + le_value bs) with (sum + A + (B + le_value bs)) by lia.
    apply rep_add; [apply rep_refl; unfold A; lia|]. apply rep_add; [apply rep_refl; unfold B; lia|done].
Qed.

Lemma chksum_align3_spec ps bs : bytes_ok bs ->
  let '(sum, rest) := chksum_align3 ps bs in
  is_u32 sum /\ bytes_ok rest /\ rep (sum + le_value rest) (le_value bs).
Proof.
  intros Hb. assert (Hd : is_u32 0 /\ bytes_ok bs /\ rep (0 + le_value bs) (le_value bs)).
  { split_and!; [unfold is_u32; lia|done|]. apply rep_refl. by apply le_value_nonneg. }
  destruct bs as [|b0 [|b1 bs]]; simpl; [done|done|]. case_bool_decide; [|done].
  clear Hd. bytes_inv. apply le_value_nonneg in Hb as Hnn. rewrite load_le16_eq by done.
  unfold is_u8, is_u32 in *. split_and!; [lia|lia|done|].
  replace (b0 + 256 * (b1 + 256 * le_value bs))
    with (b0 + b1 * 256 + 65536 * le_value bs) by lia.
  apply rep_add; [apply rep_refl; lia|]. symmetry. by apply rep_shift16.
Qed.

Lemma lwip_standard_chksum3_eq p bs : bytes_ok bs ->
  lwip_standard_chksum3 p bs = norm (le_value bs).
Proof.
  intros Hb. unfold lwip_standard_chksum3.
  set (odd := bool_decide _). set (ps := if _ : bool then p + 1 else p). clearbody ps.
  pose proof (chksum_head_spec odd bs Hb) as Hh.
  destruct (chksum_head odd bs) as [t1 b1]. destruct Hh as (Ht & Hb1 & Hodd & _ & _).
  pose proof (chksum_align3_spec ps b1 Hb1) as Ha.
  destruct (chksum_align3 ps b1) as [s2 b2]. destruct Ha as (Hs2 & Hb2 & Hr2).
  pose proof (chksum_loop3_spec _ s2 b2 (le_n _) Hb2 Hs2) as Hl.
  destruct (chksum_loop3 s2 b2) as [s3 b3]. destruct Hl as (Hs3 & Hb3 & Hl3 & Hr3).
  destruct (fold_rep s3 Hs3) as [Hf Hfle]. pose proof (le_value_nonneg b3 Hb3).
  pose proof (zlen_nonneg b3).
  pose proof (chksum_words_bound b3 (FOLD_U32T s3) Hb3 ltac:(apply Hf) ltac:(lia) t1 Ht ltac:(lia)) as Hw.
  destruct (chksum_words (FOLD_U32T s3) b3) as [sum rest]. destruct Hw as (Hr & Hs & Hle & Hrep).
  apply (chksum_finish_spec odd sum t1 rest b1); try done.
  etransitivity; [exact Hrep|]. etransitivity; [|exact Hr2].
  etransitivity; [|exact Hr3]. apply rep_add; [done|by apply rep_refl].
Qed.

(** ** Chains *)

(** A segment the loops accept: bytes, and a [len] that fits its u16_t. *)
Definition seg_ok (s : seg) : Prop := bytes_ok s.2 /\ is_u16 (zlen s.2).

Definition chain_bytes (p : list seg) : list Z := concat (map snd p).

(** The state of the loop after [done]: the accumulator is the sum of the
    bytes so far, shifted by a byte when their number is odd. *)
Definition chain_inv (st : Z * bool) (done : list Z) : Prop :=
  st.2 = Z.odd (zlen done) /\
  st.1 = norm ((if st.2 then 256 else 1) * le_value done).

Lemma chain_inv_init : chain_inv (0, false) [].
Proof. done. Qed.

Lemma odd_mod2 n : bool_decide (n mod 2 ≠ 0) = Z.odd n.
Proof. rewrite Zmod_odd. destruct (Z.odd n); done. Qed.

Lemma chksum_step_inv st payload bs len pre : bytes_ok pre -> bytes_ok bs -> zlen bs <= 0x20000 ->
  chain_inv st pre -> Z.odd len = Z.odd (zlen bs) -> chain_inv (chksum_step st payload bs len) (pre ++ bs).
Proof.
  intros Hp Hb Hlen [Hsw Hacc] Hodd. destruct st as [acc sw]. simpl in *. subst sw.
  unfold chksum_step, LWIP_CHKSUM. rewrite lwip_standard_chksum2_eq by done.
  rewrite odd_mod2, Hodd. apply le_value_nonneg in Hp as Hpn. apply le_value_nonneg in Hb as Hbn.
  set (V := (if Z.odd (zlen pre) then 256 else 1) * le_value pre) in *.
  assert (HV : 0 <= V) by (unfold V; destruct (Z.odd _); lia).
  pose proof (norm_range V). pose proof (norm_range (le_value bs)).
  rewrite u32_id, fold_once by lia.
  assert (Hn : norm (acc + norm (le_value bs)) = norm (V + le_value bs)).
  { apply norm_ext. subst acc. apply rep_add; by apply norm_rep. }
  unfold chain_inv. rewrite zlen_app, Z.odd_add, le_value_app.
  pose proof (rep_pow256 (zlen pre) (le_value bs) (zlen_nonneg pre) Hbn) as Hpow.
  rewrite Hn. destruct (Z.odd (zlen bs)); simpl.
  - split; [by destruct (Z.odd (zlen pre))|]. rewrite swap_norm by lia. apply norm_ext.
    unfold V. destruct (Z.odd (zlen pre)); simpl.
    + rewrite Z.mul_1_l. etransitivity.
      2: { apply rep_add; [apply rep_refl; lia|symmetry; exact Hpow]. }
      replace (256 * (256 * le_value pre + le_value bs))
        with (65536 * le_value pre + 256 * le_value bs) by lia.
      apply rep_add; [by apply rep_shift16|apply rep_refl; lia].
    + rewrite !Z.mul_1_l in *. apply rep_scale; [lia|].
      apply rep_add; [by apply rep_refl|by symmetry].
  - rewrite xorb_false_r. split; [done|]. apply norm_ext. unfold V.
    destruct (Z.odd (zlen pre)); simpl.
    + rewrite Z.mul_add_distr_l. apply rep_add; [apply rep_refl; lia|].
      transitivity (65536 * le_value bs); [symmetry; by apply rep_shift16|].
      replace (65536 * le_value bs) with (256 * (256 * le_value bs)) by lia.
      apply rep_scale; [lia|by symmetry].
    + rewrite !Z.mul_1_l in *. apply rep_add; [by apply rep_refl|by symmetry].
Qed.

Lemma chksum_chain_inv p : forall st pre, bytes_ok pre -> Forall seg_ok p -> chain_inv st pre ->
  chain_inv (chksum_chain st p) (pre ++ chain_bytes p) /\ bytes_ok (pre ++ chain_bytes p).
Proof.
  induction p as [|[a bs] p IH]; intros st pre Hp Hok Hinv; simpl.
  - unfold chain_bytes. simpl. by rewrite app_nil_r.
  - apply Forall_cons in Hok as [[Hb Hl] Hok]. simpl in *.
    unfold chain_bytes. simpl. fold (chain_bytes p). rewrite app_assoc.
    apply IH; [by apply bytes_ok_app|done|].
    apply chksum_step_inv; unfold is_u16 in *; try done. lia.
Qed.

Lemma chain_unswap st pre : bytes_ok pre -> chain_inv st pre ->
  chksum_unswap st = norm (le_value pre).
Proof.
  intros Hp [Hsw Hacc]. unfold chksum_unswap. rewrite Hacc. apply le_value_nonneg in Hp.
  destruct (st.2) eqn:E.
  - rewrite swap_norm by lia. apply norm_ext.
    replace (256 * (256 * le_value pre)) with (65536 * le_value pre) by lia. by apply rep_shift16.
  - f_equal. lia.
Qed.

Lemma chain_sum p : Forall seg_ok p ->
  chksum_unswap (chksum_chain (0, false) p) = norm (le_value (chain_bytes p)) /\ bytes_ok (chain_bytes p).
Proof.
  intros H. destruct (chksum_chain_inv p (0, false) [] (Forall_nil_2 _) H chain_inv_init) as [Hi Hb].
  split; [|done]. by rewrite (chain_unswap _ _ Hb Hi).
Qed.

Lemma land_ffff_norm s : Z.land (norm s) 0xffff = norm s.
Proof. rewrite land_ffff. apply Z.mod_small. pose proof (norm_range s). lia. Qed.

(** The bytes of the TCP/UDP pseudo header (RFC 793, RFC 768); the addresses
    are u32_t values in network order, so their bytes in memory. *)
Definition pseudo_header (src dest proto proto_len : Z) : list Z :=
  store_le32 src ++ store_le32 dest ++ [0; proto] ++ be16_bytes proto_len.

Lemma pseudo_hdr_sum acc src dest proto proto_len : is_u16 acc ->
  is_u32 src -> is_u32 dest -> is_u8 proto -> is_u16 proto_len ->
  chksum_pseudo_hdr acc src dest proto proto_len
  = not16 (norm (acc + le_value (pseudo_header src dest proto proto_len))).
Proof.
  intros Ha (a & b & c & d & Hba & Hbb & Hbc & Hbd & ->)%u32_bytes
    (e & f & g & h & Hbe & Hbf & Hbg & Hbh & ->)%u32_bytes Hp Hl.
  unfold chksum_pseudo_hdr, pseudo_header. rewrite !store_le32_eq. unfold be16_bytes.
  destruct (digits32 a b c d) as (-> & -> & -> & _ & ->); [done..|].
  destruct (digits32 e f g h) as (-> & -> & -> & _ & ->); [done..|].
  autorewrite with bits.
  assert (Hlo : forall a b c d, is_u8 a -> is_u8 b -> is_u8 c -> is_u8 d ->
     (a + 256 * b + 65536 * c + 16777216 * d) mod 65536 = a + 256 * b /\
     ((a + 256 * b + 65536 * c + 16777216 * d) / 65536) mod 65536 = c + 256 * d).
  { clear. intros a b c d. unfold is_u8. intros. split; mlia. }
  destruct (Hlo a b c d) as [-> ->]; [done..|]. destruct (Hlo e f g h) as [-> ->]; [done..|].
  rewrite !lwip_htons_eq by (unfold is_u8 in *; mlia).
  unfold is_u8, is_u16 in *. rewrite (u16_id proto) by lia.
  rewrite (Z.mod_small proto 256), (Z.div_small proto 256) by lia.
  set (lo := proto_len mod 256). set (hi := proto_len / 256).
  assert (0 <= lo < 256 /\ 0 <= hi < 256) as [Hlo1 Hhi] by (unfold lo, hi; mlia).
  rewrite (Z.mod_small hi 256) by lia.
  repeat (rewrite u32_add_l; rewrite <- ?Z.add_assoc).
  rewrite u32_id by lia. rewrite fold_twice by (unfold is_u32; lia).
  rewrite (Z.mod_small (norm _)) by (match goal with |- _ <= norm ?x < _ => pose proof (norm_range x) end; lia).
  f_equal. apply norm_ext. simpl.
  match goal with |- rep ?x ?y =>
    replace x with (acc + (a + 256 * b + (c + 256 * d) + (e + 256 * f) + (g + 256 * h) + (0 + 256 * proto) + (hi + 256 * lo))) by lia end.
  apply rep_add; [apply rep_refl; lia|]. symmetry.
  split_and!; try lia.
  exists ((c + 256 * d) + 65537 * (e + 256 * f) + (65536 * 65536 + 65537) * (g + 256 * h)
    + (65536 * 65536 * 65536 + 65536 * 65536 + 65537) * (256 * proto)
    + (65536 * 65536 * 65536 * 65536 + 65536 * 65536 * 65536 + 65536 * 65536 + 65537) * (hi + 256 * lo)).
  lia.
Qed.

(** ** The partial sum *)

Lemma swap_invol w : is_u16 w -> SWAP_BYTES_IN_WORD (SWAP_BYTES_IN_WORD w) = w.
Proof.
  intros H. assert (Hr : is_u16 (SWAP_BYTES_IN_WORD w)) by (rewrite swap_eq by done; mlia).
  rewrite (swap_eq _ Hr), swap_eq by done. mlia.
Qed.

(** Whether the loop swaps after the last segment does not matter. *)
Lemma chksum_unswap_step st a bs len len' :
  is_u16 (FOLD_U32T (u32 (st.1 + LWIP_CHKSUM a bs))) ->
  chksum_unswap (chksum_step st a bs len) = chksum_unswap (chksum_step st a bs len').
Proof.
  intros H. destruct st as [acc sw]. unfold chksum_step, chksum_unswap. simpl in *.
  do 2 case_bool_decide; destruct sw; simpl; try done; by rewrite swap_invol.
Qed.

Lemma chksum_chain_partial_spec p : forall st pre n, bytes_ok pre -> Forall seg_ok p ->
  chain_inv st pre -> 0 <= n < 0x7fff ->
  exists st', chksum_chain_partial st n p = Ok st' /\
    chksum_unswap st' = norm (le_value (pre ++ take (Z.to_nat n) (chain_bytes p))).
Proof.
  induction p as [|[a bs] p IH]; intros st pre n Hp Hok Hinv Hn; simpl.
  - eexists. split; [done|]. unfold chain_bytes. simpl. rewrite take_nil, app_nil_r.
    by apply chain_unswap.
  - destruct (Z.ltb_spec 0 n) as [Hpos|Hz].
    2: { eexists. split; [done|]. replace (Z.to_nat n) with 0%nat by lia.
         rewrite take_0, app_nil_r. by apply chain_unswap. }
    apply Forall_cons in Hok as [[Hb Hl] Hok]. simpl in *. unfold is_u16 in Hl.
    unfold chain_bytes. simpl. fold (chain_bytes p). rewrite take_app.
    rewrite Z.gtb_ltb. destruct (Z.ltb_spec n (zlen bs)) as [Hlt|Hge].
    + replace (u16 (n - n)) with 0 by mlia. simpl.
      assert (Ht : zlen (take (Z.to_nat n) bs) = n) by (unfold zlen in *; rewrite length_take; lia).
      assert (Hbt : bytes_ok (take (Z.to_nat n) bs)) by by apply Forall_take.
      exists (chksum_step st a (take (Z.to_nat n) bs) (zlen bs)). split.
      { destruct p as [|[]]; done. }
      replace (Z.to_nat n - length bs)%nat with 0%nat by (unfold zlen in *; lia).
      rewrite take_0, app_nil_r.
      rewrite (chksum_unswap_step _ _ _ _ (zlen (take (Z.to_nat n) bs))).
      * apply chain_unswap; [by apply bytes_ok_app|]. apply chksum_step_inv; try done. lia.
      * unfold LWIP_CHKSUM. rewrite lwip_standard_chksum2_eq by (done || lia).
        destruct Hinv as [_ ->].
        pose proof (norm_range (le_value (take (Z.to_nat n) bs))).
        match goal with |- context [norm ?x + _] => pose proof (norm_range x) end.
        rewrite u32_id, fold_once by lia.
        match goal with |- is_u16 (norm ?x) => pose proof (norm_range x) end. unfold is_u16. lia.
    + replace (u16 (n - zlen bs)) with (n - zlen bs) by mlia.
      rewrite !(take_ge bs) by (unfold zlen in *; lia).
      destruct (Z.ltb_spec (n - zlen bs) 0x7fff); [simpl|lia].
      destruct (IH (chksum_step st a bs (zlen bs)) (pre ++ bs) (n - zlen bs))
        as (st' & Hst' & Hsum); try (done || lia); [by apply bytes_ok_app| |].
      * apply chksum_step_inv; (done || lia).
      * exists st'. split; [done|]. rewrite Hsum, <- app_assoc. do 4 f_equal. f_equal. unfold zlen. lia.
Qed.

(** ** Sums with a checksum in them *)
Lemma pseudo_header_ok src dest proto proto_len : is_u8 proto -> bytes_ok (pseudo_header src dest proto proto_len).
Proof.
  intros Hp. unfold pseudo_header, store_le32, be16_bytes, bytes_ok.
  repeat (apply Forall_cons_2 || apply Forall_app_2 || apply Forall_nil_2); try (auto with lwip); unfold is_u8 in *; mlia.
Qed.
Lemma pseudo_hdr_bytes bs src dest proto proto_len : bytes_ok bs ->
  is_u32 src -> is_u32 dest -> is_u8 proto -> is_u16 proto_len ->
  chksum_pseudo_hdr (norm (le_value bs)) src dest proto proto_len
  = not16 (norm (le_value (pseudo_header src dest proto proto_len ++ bs))).
Proof.
  intros Hbs Hs Hd Hpr Hl. apply le_value_nonneg in Hbs.
  rewrite pseudo_hdr_sum by (done || (pose proof (norm_range (le_value bs)); unfold is_u16; lia)).
  f_equal. apply norm_ext. rewrite le_value_app. rewrite Z.add_comm.
  pose proof (le_value_nonneg _ (pseudo_header_ok src dest proto proto_len Hpr)) as Hph.
  apply rep_add; [by apply rep_refl|].
  transitivity (le_value bs); [by apply norm_rep|]. symmetry.
  replace (zlen (pseudo_header src dest proto proto_len)) with 12 by done. pose proof (rep_pow256 12 (le_value bs)) as Hr.
  change (Z.odd 12) with false in Hr. rewrite Z.mul_1_l in Hr. apply Hr; lia.
Qed.
Lemma inet_chksum_pbuf_eq p : Forall seg_ok p -> inet_chksum_pbuf p = not16 (norm (le_value (chain_bytes p))).
Proof. intros Hp. unfold inet_chksum_pbuf. destruct (chain_sum p Hp) as [-> _]. by rewrite land_ffff_norm. Qed.
Lemma inet_chksum_pseudo_eq p src dest proto proto_len :
  Forall seg_ok p -> is_u32 src -> is_u32 dest -> is_u8 proto -> is_u16 proto_len ->
  inet_chksum_pseudo p src dest proto proto_len
  = not16 (norm (le_value (pseudo_header src dest proto proto_len ++ chain_bytes p))).
Proof. intros Hp ????. unfold inet_chksum_pseudo. destruct (chain_sum p Hp) as [-> Hb]. by apply pseudo_hdr_bytes. Qed.

(** Filling in a field of 0 at an even offset so that the sum is 0 or all ones. *)
Lemma norm_filled pre post c : bytes_ok pre -> bytes_ok post -> Z.odd (zlen pre) = false -> is_u16 c ->
  (norm (le_value (pre ++ [0; 0] ++ post)) + c = 65535 \/ norm (le_value (pre ++ [0; 0] ++ post)) + c = 131070) ->
  norm (le_value (pre ++ store_le16 c ++ post)) = 65535.
Proof.
  intros Hpre Hpost Hodd Hcu Hsum.
  assert (Hz : bytes_ok (pre ++ [0; 0] ++ post)).
  { apply bytes_ok_app. split; [done|]. repeat (apply bytes_ok_cons; split; [unfold is_u8; lia|]). done. }
  set (V := le_value (pre ++ [0; 0] ++ post)) in *. rewrite store_le16_eq.
  set (lo := c mod 256). set (hi := c / 256 mod 256).
  assert (is_u8 lo /\ is_u8 hi /\ c = lo + 256 * hi) as (Hlo & Hhi & Hc) by (unfold lo, hi, is_u16 in *; mlia).
  apply le_value_nonneg in Hz. fold V in Hz.
  assert (HV : le_value (pre ++ [lo; hi] ++ post) = V + 256 ^ zlen pre * c).
  { unfold V. rewrite !le_value_app. change (zlen [lo; hi]) with 2. change (zlen [0; 0]) with 2.
    simpl. rewrite Hc. lia. }
  simpl in *. rewrite HV. symmetry. apply norm_unique; [|done].
  pose proof (rep_pow256 (zlen pre) c (zlen_nonneg pre) ltac:(unfold is_u16 in *; lia)) as Hr.
  rewrite Hodd, Z.mul_1_l in Hr. transitivity (norm V + c).
  - split_and!; try lia. destruct Hsum; [exists 0|exists (-1)]; lia.
  - apply rep_add; [by apply norm_rep|by symmetry].
Qed.
(** The two ways the stack fills in a checksum. *)
Lemma norm_chksum pre post : bytes_ok pre -> bytes_ok post -> Z.odd (zlen pre) = false ->
  let c := not16 (norm (le_value (pre ++ [0; 0] ++ post))) in
  norm (le_value (pre ++ store_le16 c ++ post)) = 65535 /\
  norm (le_value (pre ++ store_le16 (if c =? 0 then 0xffff else c) ++ post)) = 65535.
Proof.
  intros Hpre Hpost Hodd c. pose proof (norm_range (le_value (pre ++ [0; 0] ++ post))) as Hn.
  assert (Hc : c = 65535 - norm (le_value (pre ++ [0; 0] ++ post))) by (unfold c; rewrite not16_eq; unfold is_u16; lia).
  split; apply norm_filled; try done; try (destruct (Z.eqb_spec c 0)); unfold is_u16; lia.
Qed.

(** ** Properties *)

(** C39. The three checksum algorithms compute the same function: whatever the
    address of the buffer (odd addresses included), each returns the one's
    complement representative of the buffer read as a little-endian number,
    for every length the source documents (up to 0x20000 for version 2, the
    u16_t range for version 1); no accumulator overflow is ever lost. *)
Theorem chksum_versions_agree p q bs : bytes_ok bs -> zlen bs <= 0x20000 ->
  lwip_standard_chksum2 p bs = norm (le_value bs) /\
  lwip_standard_chksum3 q bs = norm (le_value bs) /\
  (zlen bs <= 65535 -> lwip_standard_chksum1 bs = norm (le_value bs)).
Proof.
  auto using lwip_standard_chksum1_eq, lwip_standard_chksum2_eq, lwip_standard_chksum3_eq.
Qed.

Lemma chksum_versions_agree_witness :
  lwip_standard_chksum2 7 [1; 2; 3] = 516 /\ lwip_standard_chksum3 2 [1; 2; 3] = 516 /\
  lwip_standard_chksum1 [1; 2; 3] = 516.
Proof.
  destruct (chksum_versions_agree 7 2 [1; 2; 3]) as (-> & -> & H);
    [repeat constructor; unfold is_u8; lia|done|].
  split_and!; [done|done|]. rewrite H; done.
Defined.

(** The checksum of a pbuf chain with the pseudo header is the checksum of
    the pseudo header followed by the chain's bytes: it depends neither on
    how the data is cut into pbufs (odd lengths included) nor on their
    alignment. The same for the chain alone, and the partial version sums
    the first [chksum_len] bytes, when its assertion allows the length. *)
Theorem inet_chksum_pseudo_correct p src dest proto proto_len chksum_len :
  Forall seg_ok p -> is_u32 src -> is_u32 dest -> is_u8 proto -> is_u16 proto_len ->
  0 <= chksum_len < 0x7fff ->
  let ph := pseudo_header src dest proto proto_len in
  inet_chksum_pbuf p = not16 (norm (le_value (chain_bytes p))) /\
  inet_chksum_pseudo p src dest proto proto_len = not16 (norm (le_value (ph ++ chain_bytes p))) /\
  inet_chksum_pseudo_partial p src dest proto proto_len chksum_len
  = Ok (not16 (norm (le_value (ph ++ take (Z.to_nat chksum_len) (chain_bytes p))))).
Proof.
  intros Hp Hs Hd Hpr Hl Hc ph. destruct (chain_sum p Hp) as [Hsum Hb].
  split_and!; [by apply inet_chksum_pbuf_eq|by apply inet_chksum_pseudo_eq|].
  unfold inet_chksum_pseudo_partial.
  destruct (chksum_chain_partial_spec p (0, false) [] chksum_len) as (st & -> & Hst);
    [constructor|done|apply chain_inv_init|done|].
  simpl. rewrite Hst. rewrite pseudo_hdr_bytes by (done || by apply Forall_take). done.
Qed.

Lemma inet_chksum_pseudo_correct_witness :
  inet_chksum_pseudo [(100, [1; 2; 3]); (33, [4; 5])] 0x0100a8c0 0x0200a8c0 17 5 = 36725 /\
  inet_chksum_pseudo [(100, [1; 2; 3]); (33, [4; 5])] 0x0100a8c0 0x0200a8c0 17 5
  = inet_chksum_pseudo [(0, [1; 2; 3; 4; 5])] 0x0100a8c0 0x0200a8c0 17 5.
Proof.
  split; [reflexivity|].
  destruct (inet_chksum_pseudo_correct [(100, [1; 2; 3]); (33, [4; 5])]
    0x0100a8c0 0x0200a8c0 17 5 3) as (_ & -> & _);
    try (unfold is_u32, is_u16, is_u8; lia);
    [repeat constructor; unfold is_u8, is_u16, zlen; simpl; lia|reflexivity].
Defined.

(** Verification: writing the checksum into a zeroed field at an even
    offset makes the checksum of the buffer 0, which is what the receiver of
    an IP header, ICMP message or UDP/TCP segment tests. *)
Theorem inet_chksum_verifies p q pre post : bytes_ok pre -> bytes_ok post ->
  Z.odd (zlen pre) = false -> zlen (pre ++ [0; 0] ++ post) <= 0x20000 ->
  inet_chksum q (pre ++ store_le16 (inet_chksum p (pre ++ [0; 0] ++ post)) ++ post) = 0.
Proof.
  intros Hpre Hpost Hodd Hlen. unfold inet_chksum, LWIP_CHKSUM.
  rewrite (lwip_standard_chksum2_eq p (pre ++ [0; 0] ++ post)).
  2: { apply bytes_ok_app. split; [done|]. repeat (apply bytes_ok_cons; split; [unfold is_u8; lia|]). done. }
  2: { done. }
  rewrite lwip_standard_chksum2_eq.
  - by destruct (norm_chksum pre post Hpre Hpost Hodd) as [-> _].
  - apply bytes_ok_app. split; [done|]. apply bytes_ok_app. split; [|done]. rewrite store_le16_eq.
    repeat (apply bytes_ok_cons; split; [unfold is_u8; apply Z.mod_pos_bound; lia|]). constructor.
  - rewrite !zlen_app in *. done.
Qed.

Lemma inet_chksum_verifies_witness :
  inet_chksum 1 ([0x45; 0; 0; 28] ++ store_le16 (inet_chksum 4 ([0x45; 0; 0; 28] ++ [0; 0] ++ [255; 17]))
                 ++ [255; 17]) = 0.
Proof.
  apply (inet_chksum_verifies 4 1 [0x45; 0; 0; 28] [255; 17]); try done;
    repeat constructor; unfold is_u8; lia.
Defined.
