(* ===== verification/IpAddr.v ===== *)
(** * IPv4 addresses (src/src/lwip/core/ipv4/ip_addr.c)

    The network interface record of netif.h, the address predicates and the
    conversions between dotted text and the u32_t in network byte order.

    A C string is the list of its character codes before the terminating NUL;
    reading at the end of the list reads the NUL. *)
From S2P Require Import Prelude ByteOrder.

(** ** Interfaces *)

(** struct netif: the fields the stack reads and writes; the callbacks
    (input, output, linkoutput) are parameters of the functions that call
    them, and the driver's [state] is in the file of the driver. *)
Record netif := mk_netif {
  nif_ip_addr : Z;
  nif_netmask : Z;
  nif_gw : Z;
  nif_mtu : Z;
  nif_hwaddr : list Z;
  nif_flags : Z;
  nif_name : Z * Z;
  nif_num : Z
}.

Definition NETIF_FLAG_UP : Z := 0x01.
Definition NETIF_FLAG_BROADCAST : Z := 0x02.
Definition NETIF_FLAG_POINTTOPOINT : Z := 0x04.
Definition NETIF_FLAG_LINK_UP : Z := 0x10.
Definition NETIF_FLAG_ETHARP : Z := 0x20.
Definition NETIF_FLAG_ETHERNET : Z := 0x40.

Definition netif_is_up (n : netif) : bool := has_flag (nif_flags n) NETIF_FLAG_UP.
Definition netif_is_link_up (n : netif) : bool := has_flag (nif_flags n) NETIF_FLAG_LINK_UP.

(** ** Address predicates *)

Definition IPADDR_ANY : Z := 0.
Definition IPADDR_NONE : Z := 0xffffffff.
Definition IPADDR_BROADCAST : Z := 0xffffffff.
Definition IPADDR_LOOPBACK : Z := 0x7f000001.

Definition ip_addr_netcmp (addr1 addr2 mask : Z) : bool :=
  Z.land addr1 mask =? Z.land addr2 mask.
Definition ip_addr_ismulticast (addr : Z) : bool :=
  Z.land addr (lwip_htonl 0xf0000000) =? lwip_htonl 0xe0000000.
Definition ip_addr_islinklocal (addr : Z) : bool :=
  Z.land addr (lwip_htonl 0xffff0000) =? lwip_htonl 0xa9fe0000.

Definition ip4_addr_isbroadcast (addr : Z) (n : netif) : bool :=
  if (not32 addr =? IPADDR_ANY) || (addr =? IPADDR_ANY) then true
  else if Z.land (nif_flags n) NETIF_FLAG_BROADCAST =? 0 then false
  else if addr =? nif_ip_addr n then false
  else if ip_addr_netcmp addr (nif_ip_addr n) (nif_netmask n)
          && (Z.land addr (not32 (nif_netmask n))
              =? Z.land IPADDR_BROADCAST (not32 (nif_netmask n))) then true
  else false.

(** The two loops of the netmask test; [mask] is [1 << (n-1)], or 0 when [n]
    is 0. The first finds the first zero bit, the second a one after it. *)
Fixpoint mask_skip_ones (nm : Z) (n : nat) : nat :=
  match n with
  | O => O
  | S n' => if Z.land nm (Z.shiftl 1 (Z.of_nat n')) =? 0 then n else mask_skip_ones nm n'
  end.
Fixpoint mask_no_ones (nm : Z) (n : nat) : bool :=
  match n with
  | O => true
  | S n' => if negb (Z.land nm (Z.shiftl 1 (Z.of_nat n')) =? 0) then false else mask_no_ones nm n'
  end.

Definition ip4_addr_netmask_valid (netmask : Z) : bool :=
  let nm_hostorder := lwip_htonl netmask in
  mask_no_ones nm_hostorder (mask_skip_ones nm_hostorder 32).

(** ** Text to address *)

Definition in_range (c lo up : Z) : bool := (lo <=? u8 c) && (u8 c <=? up).
Definition isdigit (c : Z) : bool := in_range c 48 57.
Definition isxdigit (c : Z) : bool := isdigit c || in_range c 97 102 || in_range c 65 70.
Definition islower (c : Z) : bool := in_range c 97 122.
Definition isspace (c : Z) : bool :=
  (c =? 32) || (c =? 12) || (c =? 10) || (c =? 13) || (c =? 9) || (c =? 11).

(** The character at [cp]. *)
Definition chr (cp : list Z) : Z := match cp with c :: _ => c | [] => 0 end.

(** The inner loop: digits of one part; the value and where it stops. *)
Fixpoint aton_number (base val : Z) (cp : list Z) : Z * list Z :=
  match cp with
  | [] => (val, [])
  | c :: rest =>
      if isdigit c then aton_number base (u32 (u32 (val * base) + (c - 48))) rest
      else if (base =? 16) && isxdigit c then
        aton_number base
          (Z.lor (u32 (Z.shiftl val 4)) (c + 10 - (if islower c then 97 else 65))) rest
      else (val, cp)
  end.

(** One part: its base, then its digits. *)
Definition aton_part (cp : list Z) : Z * list Z :=
  if chr cp =? 48 then
    let cp := tail cp in
    if (chr cp =? 120) || (chr cp =? 88) then aton_number 16 0 (tail cp)
    else aton_number 8 0 cp
  else aton_number 10 0 cp.

(** The outer loop: [room] is how many entries of [parts] are still free
    before [parts + 3]. Returns the parts, the last value and the rest. *)
Fixpoint aton_parts (room : nat) (parts : list Z) (cp : list Z) : option (list Z * Z * list Z) :=
  if negb (isdigit (chr cp)) then None
  else
    let '(val, cp) := aton_part cp in
    if chr cp =? 46 then
      match room with
      | O => None
      | S room => aton_parts room (parts ++ [val]) (tail cp)
      end
    else Some (parts, val, cp).

Definition ipaddr_aton (cp : list Z) : option Z :=
  match aton_parts 3 [] cp with
  | None => None
  | Some (parts, val, cp) =>
      if negb (chr cp =? 0) && negb (isspace (chr cp)) then None
      else
        let shl x n := u32 (Z.shiftl x n) in
        match parts with
        | [] => Some (lwip_htonl val)
        | [p0] =>
            if val >? 0xffffff then None else Some (lwip_htonl (Z.lor val (shl p0 24)))
        | [p0; p1] =>
            if val >? 0xffff then None
            else Some (lwip_htonl (Z.lor val (Z.lor (shl p0 24) (shl p1 16))))
        | [p0; p1; p2] =>
            if val >? 0xff then None
            else Some (lwip_htonl (Z.lor val (Z.lor (Z.lor (shl p0 24) (shl p1 16)) (shl p2 8))))
        | _ => None
        end
  end.

Definition ipaddr_addr (cp : list Z) : Z :=
  match ipaddr_aton cp with Some val => val | None => IPADDR_NONE end.

(** ** Address to text *)

(** The do-while loop that fills [inv]: [room] entries of the 3-byte array
    are free; the digits come out most significant first. *)
Fixpoint ntoa_digits (room : nat) (ap : Z) (inv : list Z) : res (list Z) :=
  match room with
  | O => Err BadAccess
  | S room =>
      let inv := u8 (48 + ap mod 10) :: inv in
      let ap := ap / 10 in
      if ap =? 0 then Ok inv else ntoa_digits room ap inv
  end.

(** Writing characters to the buffer of [buflen] bytes; [None] is the return
    of NULL. [out] is what the buffer holds up to [rp]. *)
Fixpoint ntoa_put (buflen len : Z) (out cs : list Z) : option (Z * list Z) :=
  match cs with
  | [] => Some (len, out)
  | c :: cs => if len >=? buflen then None else ntoa_put buflen (len + 1) (out ++ [c]) cs
  end.

Fixpoint ntoa_octets (buflen len : Z) (out octets : list Z) : res (option (list Z)) :=
  match octets with
  | [] => Ok (Some out)
  | ap :: rest =>
      let! inv := ntoa_digits 3 ap [] in
      match ntoa_put buflen len out (inv ++ [46]) with
      | None => Ok None
      | Some (len, out) => ntoa_octets buflen len out rest
      end
  end.

(** The string in the buffer: the last dot is overwritten with the NUL. *)
Definition ipaddr_ntoa_r (addr : Z) (buflen : Z) : res (option (list Z)) :=
  let! out := ntoa_octets buflen 0 [] (store_le32 addr) in
  Ok (@removelast Z <$> out).

Definition ipaddr_ntoa (addr : Z) : res (option (list Z)) := ipaddr_ntoa_r addr 16.

(** ** Bits *)

Lemma testbit_not32 x i : 0 <= i -> Z.testbit (not32 x) i = (i <? 32) && negb (Z.testbit x i).
Proof.
  intros Hi. unfold not32, u32. change 4294967296 with (2 ^ 32).
  rewrite <- Z.land_ones, Z.land_spec, Z.lnot_spec, Z.testbit_ones by lia.
  destruct (Z.leb_spec 0 i); [|lia]. simpl. by rewrite andb_comm.
Qed.

Lemma testbit_u32_high x i : is_u32 x -> 32 <= i -> Z.testbit x i = false.
Proof.
  intros Hx Hi. rewrite <- (Z.mod_small x (2 ^ 32)) by done. apply Z.mod_pow2_bits_high. lia.
Qed.

Lemma land_pow2_testbit x n : 0 <= n -> (Z.land x (Z.shiftl 1 n) =? 0) = negb (Z.testbit x n).
Proof.
  intros Hn. assert (Hb : forall i, 0 <= i -> Z.testbit (Z.land x (Z.shiftl 1 n)) i = Z.testbit x n && (i =? n)).
  { intros i Hi. rewrite Z.land_spec, Z.shiftl_1_l, Z.pow2_bits_eqb, (Z.eqb_sym n i) by done.
    destruct (Z.eqb_spec i n) as [->|]; [done|]. by rewrite !andb_false_r. }
  destruct (Z.testbit x n) eqn:E; simpl.
  - apply Z.eqb_neq. intros H0. specialize (Hb n Hn). rewrite H0, Z.bits_0, Z.eqb_refl in Hb. done.
  - apply Z.eqb_eq. apply Z.bits_inj'. intros i Hi. rewrite Hb by done. by rewrite Z.bits_0.
Qed.

(** A subnet's broadcast address is the one address with the network part of
    the interface and all ones in the host part. *)
Lemma directed_broadcast addr ip mask : is_u32 addr -> is_u32 ip ->
  ip_addr_netcmp addr ip mask && (Z.land addr (not32 mask) =? Z.land IPADDR_BROADCAST (not32 mask))
  = (addr =? Z.lor (Z.land ip mask) (not32 mask)).
Proof.
  intros Ha Hi. apply eq_true_iff_eq. unfold ip_addr_netcmp.
  rewrite andb_true_iff, !Z.eqb_eq. split.
  - intros [Hn Hh]. apply Z.bits_inj'. intros i Hpos.
    apply (f_equal (fun z => Z.testbit z i)) in Hn, Hh.
    rewrite !Z.land_spec in Hn, Hh. rewrite !testbit_not32 in Hh by done.
    rewrite Z.lor_spec, Z.land_spec, testbit_not32 by done.
    destruct (Z.ltb_spec i 32); [|by rewrite !testbit_u32_high, andb_false_l by done].
    change IPADDR_BROADCAST with (Z.ones 32) in Hh. rewrite Z.ones_spec_low in Hh by lia.
    destruct (Z.testbit mask i), (Z.testbit addr i), (Z.testbit ip i); done.
  - intros ->. split; apply Z.bits_inj'; intros i Hpos;
      rewrite !Z.land_spec, Z.lor_spec, Z.land_spec, !testbit_not32 by done.
    + destruct (Z.testbit mask i); rewrite ?andb_true_r, ?andb_false_r, ?orb_false_r; done.
    + destruct (Z.ltb_spec i 32); [|by rewrite !andb_false_l, !andb_false_r].
      change IPADDR_BROADCAST with (Z.ones 32). rewrite Z.ones_spec_low by lia.
      destruct (Z.testbit mask i), (Z.testbit ip i); done.
Qed.

(** ** The netmask loops *)

Lemma mask_skip_ones_spec nm n : let m := mask_skip_ones nm n in
  (m <= n)%nat /\ (forall i, (m <= i < n)%nat -> Z.testbit nm (Z.of_nat i) = true) /\
  (m = O \/ Z.testbit nm (Z.of_nat (pred m)) = false).
Proof.
  induction n as [|n IH]; simpl; [auto with lia|].
  rewrite land_pow2_testbit by lia. destruct (Z.testbit nm (Z.of_nat n)) eqn:E; simpl.
  - destruct IH as (H1 & H2 & H3). split_and!; [lia| |done].
    intros i Hi. destruct (decide (i = n)) as [->|]; [done|]. apply H2. lia.
  - split_and!; [lia|lia|by right].
Qed.

Lemma mask_no_ones_spec nm n :
  mask_no_ones nm n = true <-> forall i, (i < n)%nat -> Z.testbit nm (Z.of_nat i) = false.
Proof.
  induction n as [|n IH]; simpl; [split; [lia|done]|].
  rewrite land_pow2_testbit, negb_involutive by lia.
  destruct (Z.testbit nm (Z.of_nat n)) eqn:E.
  - split; [done|]. intros H. rewrite H in E by lia. done.
  - rewrite IH. split; intros H i Hi; [|apply H; lia].
    destruct (decide (i = n)) as [->|]; [done|]. apply H. lia.
Qed.

(** The mask with [32 - k] leading ones. *)
Lemma prefix_mask_bits k i : 0 <= k <= 32 -> 0 <= i ->
  Z.testbit (2 ^ 32 - 2 ^ k) i = (k <=? i) && (i <? 32).
Proof.
  intros Hk Hi.
  assert (2 ^ 32 - 2 ^ k = Z.shiftl (Z.ones (32 - k)) k) as ->.
  { rewrite Z.shiftl_mul_pow2, Z.ones_equiv by lia.
    replace 32 with (32 - k + k) at 1 by lia. rewrite Z.pow_add_r by lia. lia. }
  destruct (Z.leb_spec k i); simpl.
  - rewrite Z.shiftl_spec, Z.testbit_ones by lia.
    destruct (Z.leb_spec 0 (i - k)), (Z.ltb_spec (i - k) (32 - k)), (Z.ltb_spec i 32); (done || lia).
  - rewrite Z.shiftl_spec_low by lia. done.
Qed.

(** ** Decimal text *)

(** The decimal digits of an octet. *)
Definition dec (b : Z) : list Z :=
  if b <? 10 then [48 + b]
  else if b <? 100 then [48 + b / 10; 48 + b mod 10]
  else [48 + b / 100; 48 + b / 10 mod 10; 48 + b mod 10].

(** Dotted text of an address in network byte order. *)
Definition dotted (addr : Z) : list Z :=
  match store_le32 addr with
  | [a; b; c; d] => dec a ++ 46 :: dec b ++ 46 :: dec c ++ 46 :: dec d
  | _ => []
  end.

Lemma ntoa_digits_dec b : is_u8 b -> ntoa_digits 3 b [] = Ok (dec b).
Proof.
  intros H. unfold is_u8 in H. unfold ntoa_digits, dec.
  assert (Hd : forall x, u8 (48 + x mod 10) = 48 + x mod 10) by (intros; mlia). rewrite !Hd.
  destruct (Z.ltb_spec b 10).
  - rewrite Z.div_small, Z.mod_small by lia. done.
  - destruct (Z.eqb_spec (b / 10) 0); [mlia|]. destruct (Z.ltb_spec b 100).
    + rewrite (Z.div_small (b / 10) 10), (Z.mod_small (b / 10) 10) by mlia. done.
    + destruct (Z.eqb_spec (b / 10 / 10) 0); [mlia|].
      replace (b / 10 / 10 / 10) with 0 by mlia. simpl. do 2 f_equal. mlia.
Qed.

Lemma dec_len b : 1 <= zlen (dec b) <= 3.
Proof. unfold dec. destruct (b <? 10), (b <? 100); unfold zlen; simpl; lia. Qed.

Lemma ntoa_put_spec buflen cs : forall len out, len <= buflen ->
  ntoa_put buflen len out cs
  = if len + zlen cs <=? buflen then Some (len + zlen cs, out ++ cs) else None.
Proof.
  induction cs as [|c cs IH]; intros len out Hlen; simpl.
  - change (zlen (@nil Z)) with 0. rewrite Z.add_0_r, app_nil_r.
    destruct (Z.leb_spec len buflen); [done|lia].
  - rewrite zlen_cons. pose proof (zlen_nonneg cs). destruct (Z.geb_spec len buflen).
    + destruct (Z.leb_spec (len + (1 + zlen cs)) buflen); [lia|done].
    + rewrite IH by lia. rewrite <- app_assoc. simpl.
      replace (len + 1 + zlen cs) with (len + (1 + zlen cs)) by lia. done.
Qed.

Lemma ntoa_octets_spec buflen os : forall len out, bytes_ok os -> 0 <= len <= buflen ->
  let text := concat (map (fun b => dec b ++ [46]) os) in
  ntoa_octets buflen len out os
  = Ok (if len + zlen text <=? buflen then Some (out ++ text) else None).
Proof.
  induction os as [|b os IH]; intros len out Hb Hlen; cbn [ntoa_octets map concat].
  - change (zlen (@nil Z)) with 0. rewrite app_nil_r.
    destruct (Z.leb_spec (len + 0) buflen); [done|lia].
  - apply Forall_cons in Hb as [Hb Hos]. rewrite ntoa_digits_dec by done. cbn [res_bind].
    rewrite ntoa_put_spec by lia. set (w := dec b ++ [46]).
    rewrite (zlen_app w). pose proof (zlen_nonneg w).
    match goal with |- context [zlen (concat ?l)] => pose proof (zlen_nonneg (concat l)) end.
    destruct (Z.leb_spec (len + zlen w) buflen).
    + rewrite IH by (done || lia). rewrite app_assoc, Z.add_assoc. done.
    + match goal with |- context [?x <=? buflen] => destruct (Z.leb_spec x buflen); [lia|done] end.
Qed.

Lemma isdigit_dec d : 0 <= d < 10 -> isdigit (48 + d) = true.
Proof. intros H. unfold isdigit, in_range. rewrite u8_id by lia. apply andb_true_iff. lia. Qed.

Lemma aton_number_digit d v t : 0 <= d < 10 -> 0 <= v < 1000 ->
  aton_number 10 v (48 + d :: t) = aton_number 10 (v * 10 + d) t.
Proof.
  intros Hd Hv. cbn [aton_number]. rewrite isdigit_dec by done.
  rewrite (u32_id (v * 10)), u32_id by lia. f_equal. lia.
Qed.

(** The rest of a text behind a part: nothing or a dot. *)
Definition part_end (t : list Z) : Prop := t = [] \/ exists u, t = 46 :: u.

Lemma aton_number_end b v t : part_end t -> (b = 8 \/ b = 10) -> aton_number b v t = (v, t).
Proof. intros [->|[u ->]] [-> | ->]; done. Qed.

Lemma aton_part_dec b t : is_u8 b -> part_end t -> aton_part (dec b ++ t) = (b, t).
Proof.
  intros Hb Ht. unfold is_u8 in Hb. unfold dec. destruct (Z.ltb_spec b 10).
  - simpl. unfold aton_part. cbn [chr].
    destruct (Z.eqb_spec (48 + b) 48).
    + replace b with 0 by lia. cbn [tail].
      assert ((chr t =? 120) || (chr t =? 88) = false) as ->
        by (destruct Ht as [->|[u ->]]; done).
      apply aton_number_end; auto.
    + rewrite aton_number_digit, aton_number_end by (done || lia || auto). done.
  - assert (Hd : forall d ds, 1 <= d < 10 -> aton_part (48 + d :: ds) = aton_number 10 d ds).
    { intros d ds Hd. unfold aton_part. cbn [chr].
      destruct (Z.eqb_spec (48 + d) 48); [lia|]. rewrite aton_number_digit by lia. done. }
    destruct (Z.ltb_spec b 100); simpl; rewrite Hd by mlia.
    + rewrite aton_number_digit, aton_number_end by (done || mlia || auto). f_equal. mlia.
    + rewrite !aton_number_digit, aton_number_end by (done || mlia || auto). f_equal. mlia.
Qed.

Lemma chr_dec b t : is_u8 b -> isdigit (chr (dec b ++ t)) = true.
Proof.
  intros Hb. unfold is_u8 in Hb. unfold dec.
  destruct (Z.ltb_spec b 10), (Z.ltb_spec b 100); simpl; apply isdigit_dec; mlia.
Qed.

Lemma aton_parts_dot room parts b u : is_u8 b ->
  aton_parts (S room) parts (dec b ++ 46 :: u) = aton_parts room (parts ++ [b]) u.
Proof.
  intros Hb. cbn [aton_parts]. rewrite chr_dec by done. cbn [negb].
  rewrite aton_part_dec by (done || right; eauto). done.
Qed.

Lemma aton_parts_last room parts b : is_u8 b ->
  aton_parts room parts (dec b) = Some (parts, b, []).
Proof.
  intros Hb. pose proof (aton_part_dec b [] Hb (or_introl eq_refl)) as Hp.
  pose proof (chr_dec b [] Hb) as Hc. rewrite app_nil_r in *.
  destruct room; cbn [aton_parts]; rewrite Hc; cbn [negb]; rewrite Hp; done.
Qed.

Lemma dotted_text addr : is_u32 addr ->
  concat (map (fun b => dec b ++ [46]) (store_le32 addr)) = dotted addr ++ [46].
Proof.
  intros (a & b & c & d & Ha & Hb & Hc & Hd & ->)%u32_bytes. unfold dotted.
  rewrite !store_le32_eq. simpl. by repeat (rewrite <- app_assoc; simpl).
Qed.

Lemma store_le32_ok addr : bytes_ok (store_le32 addr).
Proof. unfold store_le32. repeat constructor; apply u8_range. Qed.

Lemma ipaddr_ntoa_r_eq addr buflen : is_u32 addr -> 0 <= buflen ->
  ipaddr_ntoa_r addr buflen
  = Ok (if zlen (dotted addr) + 1 <=? buflen then Some (dotted addr) else None).
Proof.
  intros Ha Hbuf. unfold ipaddr_ntoa_r.
  pose proof (ntoa_octets_spec buflen (store_le32 addr) 0 [] (store_le32_ok addr) ltac:(lia)) as H.
  cbv zeta in H. rewrite (dotted_text addr Ha), zlen_app, Z.add_0_l in H. rewrite H. cbn [res_bind].
  change (zlen [46]) with 1. destruct (_ <=? buflen); [|done].
  simpl. by rewrite removelast_last.
Qed.

Lemma dotted_len addr : is_u32 addr -> zlen (dotted addr) <= 15.
Proof.
  intros (a & b & c & d & Ha & Hb & Hc & Hd & ->)%u32_bytes. unfold dotted.
  rewrite store_le32_eq. rewrite !zlen_app, !zlen_cons, !zlen_app, !zlen_cons, !zlen_app, !zlen_cons.
  match goal with |- zlen (dec ?x) + (1 + (zlen (dec ?y) + (1 + (zlen (dec ?z) + (1 + zlen (dec ?w)))))) <= _ =>
    pose proof (dec_len x); pose proof (dec_len y); pose proof (dec_len z); pose proof (dec_len w) end.
  lia.
Qed.

Lemma ipaddr_aton_dotted addr : is_u32 addr -> ipaddr_aton (dotted addr) = Some addr.
Proof.
  intros (a & b & c & d & Ha & Hb & Hc & Hd & ->)%u32_bytes.
  unfold dotted. rewrite store_le32_eq.
  destruct (digits32 a b c d) as (-> & -> & -> & _ & ->); [done..|].
  unfold ipaddr_aton. rewrite !aton_parts_dot, aton_parts_last by done. cbn [chr app].
  change (negb (0 =? 0) && negb (isspace 0)) with false. cbv iota zeta.
  unfold is_u8 in *. rewrite Z.gtb_ltb. destruct (Z.ltb_spec 255 d); [lia|].
  rewrite shl24, shl16, shl8, !u32_id by lia.
  change 16777216 with (2 ^ 24). rewrite (lor_add 24) by lia.
  replace (a * 2 ^ 24 + b * 65536) with ((a * 256 + b) * 2 ^ 16) by lia.
  rewrite (lor_add 16) by lia.
  replace ((a * 256 + b) * 2 ^ 16 + c * 256) with ((a * 65536 + b * 256 + c) * 2 ^ 8) by lia.
  rewrite (lor_add_l 8) by lia. f_equal.
  replace (d + (a * 65536 + b * 256 + c) * 2 ^ 8)
    with (d + 256 * c + 65536 * b + 16777216 * a) by lia.
  rewrite lwip_htonl_bytes by (unfold is_u8; lia). lia.
Qed.

(** ** Properties *)

(** C40. Text round trip: for every address, [ipaddr_ntoa] returns the dotted
    decimal text (its 16-byte buffer and the 3-digit scratch array never
    overflow), the caller's buffer suffices exactly when it holds the text and
    its NUL, and [ipaddr_aton] reads the text back to the address. *)
Theorem ipaddr_text_roundtrip addr buflen : is_u32 addr -> 0 <= buflen ->
  ipaddr_ntoa addr = Ok (Some (dotted addr)) /\
  ipaddr_ntoa_r addr buflen
  = Ok (if zlen (dotted addr) + 1 <=? buflen then Some (dotted addr) else None) /\
  ipaddr_aton (dotted addr) = Some addr /\ ipaddr_addr (dotted addr) = addr.
Proof.
  intros Ha Hb. unfold ipaddr_addr. rewrite ipaddr_aton_dotted by done.
  split_and!; try done; [|by apply ipaddr_ntoa_r_eq].
  unfold ipaddr_ntoa. rewrite ipaddr_ntoa_r_eq by (done || lia).
  pose proof (dotted_len addr Ha). destruct (Z.leb_spec (zlen (dotted addr) + 1) 16); [done|lia].
Qed.

(** "192.168.0.8" *)
Lemma ipaddr_text_roundtrip_witness :
  ipaddr_ntoa 0x0800a8c0 = Ok (Some [49; 57; 50; 46; 49; 54; 56; 46; 48; 46; 56]) /\
  ipaddr_aton [49; 57; 50; 46; 49; 54; 56; 46; 48; 46; 56] = Some 0x0800a8c0.
Proof.
  destruct (ipaddr_text_roundtrip 0x0800a8c0 16) as (H1 & _ & H2 & _); [unfold is_u32; lia|lia|].
  split; [exact H1|exact H2].
Defined.

(** [ip4_addr_isbroadcast] is exact: it holds of the all-ones and all-zeros
    address and, on an interface that supports broadcast, of the one address
    that joins the interface's network number with an all-ones host part
    (unless the interface itself has that address). *)
Theorem ip4_addr_isbroadcast_iff addr n : is_u32 addr -> is_u32 (nif_ip_addr n) ->
  ip4_addr_isbroadcast addr n = true <->
  addr = IPADDR_BROADCAST \/ addr = IPADDR_ANY \/
  (has_flag (nif_flags n) NETIF_FLAG_BROADCAST = true /\ addr <> nif_ip_addr n /\
   addr = Z.lor (Z.land (nif_ip_addr n) (nif_netmask n)) (not32 (nif_netmask n))).
Proof.
  intros Ha Hi. unfold ip4_addr_isbroadcast, has_flag. rewrite directed_broadcast by done.
  rewrite not32_eq by done. unfold IPADDR_ANY, IPADDR_BROADCAST.
  destruct (Z.eqb_spec (4294967295 - addr) 0), (Z.eqb_spec addr 0); simpl; [lia|split; [lia|done]|split; [lia|done]|].
  destruct (Z.land (nif_flags n) NETIF_FLAG_BROADCAST =? 0); simpl;
    [split; [done|]; intros [?|[?|[? _]]]; (lia || done)|].
  destruct (Z.eqb_spec addr (nif_ip_addr n)); [split; [done|]; intros [?|[?|(_ & ? & _)]]; (lia || done)|].
  match goal with |- (if ?b then _ else _) = true <-> _ => destruct b eqn:E end.
  - apply Z.eqb_eq in E. split; [auto|done].
  - apply Z.eqb_neq in E. split; [done|]. intros [?|[?|(_ & _ & ?)]]; (lia || done).
Qed.

(** 10.0.0.5/8: 10.255.255.255 is its broadcast address. *)
Lemma ip4_addr_isbroadcast_iff_witness :
  ip4_addr_isbroadcast 0xffffff0a (mk_netif 0x0500000a 0xff 0 1500 [] 0x12 (113, 117) 0) = true.
Proof.
  apply (ip4_addr_isbroadcast_iff 0xffffff0a (mk_netif 0x0500000a 0xff 0 1500 [] 0x12 (113, 117) 0));
    [unfold is_u32; lia|unfold is_u32; simpl; lia|].
  right. right. split_and!; [reflexivity|discriminate|reflexivity].
Defined.

(** [ip4_addr_netmask_valid] accepts exactly the contiguous masks: ones
    followed by zeros in host order, 33 of the 2^32 values. *)
Theorem ip4_addr_netmask_valid_iff nm :
  ip4_addr_netmask_valid nm = true <-> exists k, 0 <= k <= 32 /\ lwip_htonl nm = 2 ^ 32 - 2 ^ k.
Proof.
  unfold ip4_addr_netmask_valid. pose proof (lwip_htonl_range nm) as Hr.
  set (h := lwip_htonl nm) in *. pose proof (mask_skip_ones_spec h 32) as (Hle & Hones & Hz).
  set (m := mask_skip_ones h 32) in *. rewrite mask_no_ones_spec. split.
  - intros Hlow. exists (Z.of_nat m). split; [lia|]. apply Z.bits_inj'. intros i Hi.
    rewrite prefix_mask_bits by lia.
    destruct (Z.ltb_spec i 32); [|rewrite testbit_u32_high, andb_false_r by done; done].
    replace i with (Z.of_nat (Z.to_nat i)) at 1 by lia.
    destruct (Z.leb_spec (Z.of_nat m) i); [apply Hones; lia|apply Hlow; lia].
  - intros (k & Hk & Heq) i Hi. rewrite Heq, prefix_mask_bits by lia.
    destruct Hz as [->|Hz]; [lia|]. rewrite Heq, prefix_mask_bits in Hz by lia.
    destruct (Z.leb_spec k (Z.of_nat i)); [|done]. simpl.
    destruct (Z.leb_spec k (Z.of_nat (pred m))), (Z.ltb_spec (Z.of_nat (pred m)) 32); (done || lia).
Qed.

(** The parts before the last are not checked against 255: the text
    "256.1.2.3" is accepted and read as 0.1.2.3, and the digits 8 and 9 are
    accepted in an octal part ("1.2.3.08"). *)
Example ipaddr_aton_part_overflow :
  ipaddr_aton [50; 53; 54; 46; 49; 46; 50; 46; 51] = ipaddr_aton [48; 46; 49; 46; 50; 46; 51] /\
  ipaddr_aton [48; 46; 49; 46; 50; 46; 51] = Some 0x03020100 /\
  ipaddr_aton [49; 46; 50; 46; 51; 46; 48; 56] = Some 0x08030201.
Proof. split_and!; reflexivity. Qed.
