(* ===== verification/Mem.v ===== *)
(** * The heap (src/src/lwip/core/mem.c)

    lwIP's malloc on a static array: a list of [struct mem] headers threaded
    through the array, first fit from the lowest free block, with the holes
    merged on free. The configuration of opt.h: MEM_ALIGNMENT 1 (the
    alignment macros are the identity), MEM_SIZE 16384, mem_size_t is u16_t.

    A pointer into the array is its offset from [ram]. The headers are the
    cells of a finite map keyed by their offset; a merged header stays in
    memory. The data between the headers is not modelled here: no operation
    but mem_calloc writes it. The mutex is taken around each operation, so an
    operation is one step. The statistics counters are left out. *)
From S2P Require Import Prelude.

Definition SIZEOF_STRUCT_MEM : Z := 6.
Definition MIN_SIZE_ALIGNED : Z := 12.
Definition MEM_SIZE_ALIGNED : Z := 16384.

(** struct mem *)
Record mhdr := mk_mhdr { m_next : Z; m_prev : Z; m_used : bool }.

(** The static variables: the array's headers and [lfree]; [ram_end] is the
    offset MEM_SIZE_ALIGNED. *)
Record heap := mk_heap { ram : gmap Z mhdr; lfree : Z }.

Definition ram_end : Z := MEM_SIZE_ALIGNED.

(** Access to the header at an offset. *)
Definition mget (r : gmap Z mhdr) (off : Z) : res mhdr := of_option BadAccess (r !! off).
Definition set_next (m : mhdr) (n : Z) : mhdr := mk_mhdr n (m_prev m) (m_used m).
Definition set_prev (m : mhdr) (p : Z) : mhdr := mk_mhdr (m_next m) p (m_used m).
Definition set_used (m : mhdr) (u : bool) : mhdr := mk_mhdr (m_next m) (m_prev m) u.

(** [((struct mem * )&ram[off])->prev = p] *)
Definition write_prev (r : gmap Z mhdr) (off p : Z) : res (gmap Z mhdr) :=
  let! m := mget r off in Ok (<[off := set_prev m p]> r).

(** Sizes computed with sizeof are of type size_t. *)
Definition usize (x : Z) : Z := x mod 18446744073709551616.

Definition mem_init : heap :=
  mk_heap (<[ram_end := mk_mhdr MEM_SIZE_ALIGNED MEM_SIZE_ALIGNED true]>
            (<[0 := mk_mhdr MEM_SIZE_ALIGNED 0 false]> ∅)) 0.

(** The forward and the backward half of plug_holes. *)
Definition plug_forward (h : heap) (mem : Z) : res heap :=
  let! m := mget (ram h) mem in
  assert! m_next m <=? MEM_SIZE_ALIGNED in
  let nmem := m_next m in
  let! nm := mget (ram h) nmem in
  if negb (mem =? nmem) && negb (m_used nm) && negb (nmem =? ram_end) then
    let lf := if lfree h =? nmem then mem else lfree h in
    let r := <[mem := set_next m (m_next nm)]> (ram h) in
    let! r := write_prev r (m_next nm) mem in
    Ok (mk_heap r lf)
  else Ok h.

Definition plug_backward (h : heap) (mem : Z) : res heap :=
  let! m := mget (ram h) mem in
  let pmem := m_prev m in
  let! pm := mget (ram h) pmem in
  if negb (pmem =? mem) && negb (m_used pm) then
    let lf := if lfree h =? mem then pmem else lfree h in
    let r := <[pmem := set_next pm (m_next m)]> (ram h) in
    let! r := write_prev r (m_next m) pmem in
    Ok (mk_heap r lf)
  else Ok h.

Definition plug_holes (h : heap) (mem : Z) : res heap :=
  assert! 0 <=? mem in
  assert! mem <? ram_end in
  let! m := mget (ram h) mem in
  assert! negb (m_used m) in
  let! h := plug_forward h mem in
  plug_backward h mem.

(** mem_free of a non-NULL pointer. *)
Definition mem_free (h : heap) (rmem : Z) : res heap :=
  assert! (0 <=? rmem) && (rmem <? ram_end) in
  let mem := rmem - SIZEOF_STRUCT_MEM in
  let! m := mget (ram h) mem in
  assert! m_used m in
  let r := <[mem := set_used m false]> (ram h) in
  let lf := if mem <? lfree h then mem else lfree h in
  plug_holes (mk_heap r lf) mem.

(** The pointer mem_trim returns (None for NULL) and the heap. *)
Definition mem_trim (h : heap) (rmem newsize : Z) : res (option Z * heap) :=
  let newsize := if newsize <? MIN_SIZE_ALIGNED then MIN_SIZE_ALIGNED else newsize in
  if newsize >? MEM_SIZE_ALIGNED then Ok (None, h) else
  assert! (0 <=? rmem) && (rmem <? ram_end) in
  let mem := rmem - SIZEOF_STRUCT_MEM in
  let! m := mget (ram h) mem in
  let ptr := mem in
  let size := u16 (m_next m - ptr - SIZEOF_STRUCT_MEM) in
  assert! newsize <=? size in
  if newsize =? size then Ok (Some rmem, h) else
  let mem2 := m_next m in
  let! m2 := mget (ram h) mem2 in
  if negb (m_used m2) then
    let next := m_next m2 in
    let ptr2 := u16 (ptr + SIZEOF_STRUCT_MEM + newsize) in
    let lf := if lfree h =? mem2 then ptr2 else lfree h in
    let r := <[ptr2 := mk_mhdr next ptr false]> (ram h) in
    let r := <[mem := set_next m ptr2]> r in
    let! r := if negb (next =? MEM_SIZE_ALIGNED) then write_prev r next ptr2 else Ok r in
    Ok (Some rmem, mk_heap r lf)
  else if newsize + SIZEOF_STRUCT_MEM + MIN_SIZE_ALIGNED <=? size then
    let ptr2 := u16 (ptr + SIZEOF_STRUCT_MEM + newsize) in
    let lf := if ptr2 <? lfree h then ptr2 else lfree h in
    let r := <[ptr2 := mk_mhdr (m_next m) ptr false]> (ram h) in
    let r := <[mem := set_next m ptr2]> r in
    let! r := if negb (m_next m =? MEM_SIZE_ALIGNED) then write_prev r (m_next m) ptr2 else Ok r in
    Ok (Some rmem, mk_heap r lf)
  else Ok (Some rmem, h).

(** The scan for a free block that is big enough; every step moves up by at
    least a header and MIN_SIZE_ALIGNED, so [scan_fuel] steps reach the end. *)
Definition scan_fuel : nat := 1000.

Fixpoint mem_scan (fuel : nat) (r : gmap Z mhdr) (ptr size : Z) : res (option Z) :=
  match fuel with
  | O => Err OutOfFuel
  | S fuel =>
      if ptr <? MEM_SIZE_ALIGNED - size then
        let! m := mget r ptr in
        if negb (m_used m) && (usize (m_next m - (ptr + SIZEOF_STRUCT_MEM)) >=? size)
        then Ok (Some ptr) else mem_scan fuel r (m_next m) size
      else Ok None
  end.

(** [while (cur->used && cur != ram_end) cur = cur->next] *)
Fixpoint next_free (fuel : nat) (r : gmap Z mhdr) (cur : Z) : res Z :=
  match fuel with
  | O => Err OutOfFuel
  | S fuel =>
      let! m := mget r cur in
      if m_used m && negb (cur =? ram_end) then next_free fuel r (m_next m) else Ok cur
  end.

(** Taking the free block [mem] for [size] bytes: split it when the rest can
    hold a header and MIN_SIZE_ALIGNED bytes. *)
Definition mem_take (r : gmap Z mhdr) (mem size : Z) : res (gmap Z mhdr) :=
  let! m := mget r mem in
  if usize (m_next m - (mem + SIZEOF_STRUCT_MEM)) >=? size + SIZEOF_STRUCT_MEM + MIN_SIZE_ALIGNED then
    let ptr2 := u16 (mem + SIZEOF_STRUCT_MEM + size) in
    let r := <[ptr2 := mk_mhdr (m_next m) mem false]> r in
    let r := <[mem := mk_mhdr ptr2 (m_prev m) true]> r in
    if negb (m_next m =? MEM_SIZE_ALIGNED) then write_prev r (m_next m) ptr2 else Ok r
  else Ok (<[mem := set_used m true]> r).

Definition mem_malloc (h : heap) (size : Z) : res (option Z * heap) :=
  if size =? 0 then Ok (None, h) else
  let size := if size <? MIN_SIZE_ALIGNED then MIN_SIZE_ALIGNED else size in
  if size >? MEM_SIZE_ALIGNED then Ok (None, h) else
  let! found := mem_scan scan_fuel (ram h) (lfree h) size in
  match found with
  | None => Ok (None, h)
  | Some mem =>
      let! r := mem_take (ram h) mem size in
      let! lf := (if mem =? lfree h then
                    let! cur := next_free scan_fuel r (lfree h) in
                    let! m := mget r cur in
                    assert! (cur =? ram_end) || negb (m_used m) in Ok cur
                  else Ok (lfree h)) in
      assert! mem + SIZEOF_STRUCT_MEM + size <=? ram_end in
      Ok (Some (mem + SIZEOF_STRUCT_MEM), mk_heap r lf)
  end.

(** mem_calloc: the pointer, the heap, and how many bytes memset clears. *)
Definition mem_calloc (h : heap) (count size : Z) : res (option Z * heap * Z) :=
  let! (p, h) := mem_malloc h (u16 (count * size)) in
  match p with
  | Some p => Ok (Some p, h, usize (count * size))
  | None => Ok (None, h, 0)
  end.

(** ** The abstract heap: a list of blocks *)

(** A block: its header is at [b_start], the next block at [b_next]. *)
Record blk := mk_blk { b_start : Z; b_next : Z; b_used : bool }.

(** The headers of [bl] are in memory, linked both ways, from offset [off]
    (whose predecessor is [prev]) up to [off'] (with predecessor [prev']). *)
Fixpoint lseg (r : gmap Z mhdr) (prev off : Z) (bl : list blk) (prev' off' : Z) : Prop :=
  match bl with
  | [] => prev' = prev /\ off' = off
  | b :: rest =>
      b_start b = off /\ r !! off = Some (mk_mhdr (b_next b) prev (b_used b)) /\
      off + SIZEOF_STRUCT_MEM + MIN_SIZE_ALIGNED <= b_next b /\
      lseg r off (b_next b) rest prev' off'
  end.

(** The same up to the end of the heap, where [ram_end] stands. *)
Fixpoint to_end (r : gmap Z mhdr) (prev off : Z) (bl : list blk) : Prop :=
  match bl with
  | [] => off = ram_end /\ exists e, r !! ram_end = Some (mk_mhdr ram_end e true)
  | b :: rest =>
      b_start b = off /\ r !! off = Some (mk_mhdr (b_next b) prev (b_used b)) /\
      off + SIZEOF_STRUCT_MEM + MIN_SIZE_ALIGNED <= b_next b /\
      to_end r off (b_next b) rest
  end.

(** No two neighbours are both free; on the list of the used flags. *)
Fixpoint no_holes (us : list bool) : Prop :=
  match us with
  | u1 :: ((u2 :: _) as rest) => u1 || u2 = true /\ no_holes rest
  | _ => True
  end.

Fixpoint first_free (bl : list blk) : Z :=
  match bl with
  | [] => ram_end
  | b :: rest => if b_used b then first_free rest else b_start b
  end.

(** The invariant of the heap, with its list of blocks. *)
Definition heap_wf (h : heap) (bl : list blk) : Prop :=
  to_end (ram h) 0 0 bl /\ no_holes (map b_used bl) /\ lfree h = first_free bl.

(** The allocated areas: first byte and end of the data of each used block. *)
Definition allocs (bl : list blk) : list (Z * Z) :=
  map (fun b => (b_start b + SIZEOF_STRUCT_MEM, b_next b)) (List.filter b_used bl).

Ltac munf := unfold SIZEOF_STRUCT_MEM, MIN_SIZE_ALIGNED, MEM_SIZE_ALIGNED, ram_end, MEM_SIZE_ALIGNED in *.

(** ** Segments *)

Lemma lseg_le r p o bl p' o' : lseg r p o bl p' o' -> o <= o'.
Proof.
  revert p o. induction bl as [|b bl IH]; simpl; intros p o; [intros [_ ->]; lia|].
  intros (_ & _ & H & Hs). apply IH in Hs. munf. lia.
Qed.

Lemma to_end_le r p o bl : to_end r p o bl -> o <= ram_end.
Proof.
  revert p o. induction bl as [|b bl IH]; simpl; intros p o; [intros [-> _]; lia|].
  intros (_ & _ & H & Hs). apply IH in Hs. munf. lia.
Qed.

Lemma to_end_len r p o bl : to_end r p o bl -> o + 18 * zlen bl <= ram_end.
Proof.
  revert p o. induction bl as [|b bl IH]; simpl; intros p o.
  - intros [-> _]. change (zlen (@nil blk)) with 0. lia.
  - intros (_ & _ & H & Hs). apply IH in Hs. rewrite zlen_cons. munf. lia.
Qed.

Lemma to_end_app r l R : forall p o,
  to_end r p o (l ++ R) <-> exists p' o', lseg r p o l p' o' /\ to_end r p' o' R.
Proof.
  induction l as [|b l IH]; intros p o; simpl.
  - split; [eauto|]. intros (p' & o' & [-> ->] & H). done.
  - rewrite (IH o (b_next b)). split; [intros (? & ? & ? & p' & o' & ? & ?)|intros (p' & o' & (? & ? & ? & ?) & ?)]; eauto 10.
Qed.

Lemma lseg_app r l R p' o' : forall p o,
  lseg r p o (l ++ R) p' o' <-> exists p1 o1, lseg r p o l p1 o1 /\ lseg r p1 o1 R p' o'.
Proof.
  induction l as [|b l IH]; intros p o; simpl.
  - split; [eauto|]. intros (p1 & o1 & [-> ->] & H). done.
  - rewrite (IH o (b_next b)). split; [intros (? & ? & ? & p1 & o1 & ? & ?)|intros (p1 & o1 & (? & ? & ? & ?) & ?)]; eauto 10.
Qed.

Lemma lseg_ext r r' bl p' o' : forall p o, (forall k, o <= k < o' -> r' !! k = r !! k) ->
  lseg r p o bl p' o' -> lseg r' p o bl p' o'.
Proof.
  induction bl as [|b bl IH]; intros p o Heq; simpl; [done|].
  intros (Hs & Hr & Hle & Hl). pose proof (lseg_le _ _ _ _ _ _ Hl). munf.
  split_and!; [done|by rewrite Heq by lia|done|]. apply IH; [|done]. intros k Hk. apply Heq. lia.
Qed.

Lemma to_end_ext r r' bl : forall p o, (forall k, o <= k -> r' !! k = r !! k) ->
  to_end r p o bl -> to_end r' p o bl.
Proof.
  induction bl as [|b bl IH]; intros p o Heq; simpl.
  - intros [-> [e He]]. split; [done|]. exists e. rewrite Heq by lia. done.
  - intros (Hs & Hr & Hle & Hl). munf.
    split_and!; [done|by rewrite Heq by lia|done|]. apply IH; [|done]. intros k Hk. apply Heq. lia.
Qed.

(** Relinking a suffix to a new predecessor. *)
Lemma to_end_set_prev r p q o bl : to_end r p o bl ->
  exists r', write_prev r o q = Ok r' /\ to_end r' q o bl /\ forall k, k <> o -> r' !! k = r !! k.
Proof.
  intros H. unfold write_prev, mget. destruct bl as [|b bl]; simpl in H.
  - destruct H as [-> [e He]]. rewrite He. simpl. eexists. split; [done|]. split.
    + split; [done|]. eexists. by rewrite lookup_insert_eq.
    + intros k Hk. by rewrite lookup_insert_ne.
  - destruct H as (Hs & Hr & Hle & Hl). rewrite Hr. simpl. eexists. split; [done|]. split.
    + split_and!; [done|by rewrite lookup_insert_eq|done|].
      apply (to_end_ext r); [|done]. intros k Hk. munf. by rewrite lookup_insert_ne by lia.
    + intros k Hk. by rewrite lookup_insert_ne.
Qed.

(** ** plug_holes *)

(** Merging [b] with a free block behind it. *)
Definition merge_next (nx : Z) (R : list blk) : Z * list blk :=
  match R with
  | n :: R' => if b_used n then (nx, R) else (b_next n, R')
  | [] => (nx, R)
  end.

(** The list after freeing [b] between [l] and [R]. *)
Definition free_blocks (l : list blk) (b : blk) (R : list blk) : list blk :=
  let '(nx, R) := merge_next (b_next b) R in
  match last l with
  | Some p => if b_used p then l ++ mk_blk (b_start b) nx false :: R
              else removelast l ++ mk_blk (b_start p) nx false :: R
  | None => mk_blk (b_start b) nx false :: R
  end.

Lemma plug_forward_spec h l p o nx R :
  lseg (ram h) 0 0 l p o -> ram h !! o = Some (mk_mhdr nx p false) ->
  o + SIZEOF_STRUCT_MEM + MIN_SIZE_ALIGNED <= nx -> to_end (ram h) o nx R ->
  exists h', plug_forward h o = Ok h' /\
    let '(nx', R') := merge_next nx R in
    lseg (ram h') 0 0 l p o /\ ram h' !! o = Some (mk_mhdr nx' p false) /\
    o + SIZEOF_STRUCT_MEM + MIN_SIZE_ALIGNED <= nx' /\ to_end (ram h') o nx' R' /\
    lfree h' = if negb (nx =? nx') && (lfree h =? nx) then o else lfree h.
Proof.
  intros Hl Ho Hle HR. unfold plug_forward, mget. rewrite Ho. simpl.
  pose proof (to_end_le _ _ _ _ HR) as Hend. munf.
  unfold lwip_assert. destruct (Z.leb_spec nx 16384); [simpl|lia].
  destruct R as [|n R]; simpl in HR |- *.
  - destruct HR as [-> [e He]]. rewrite He. simpl. rewrite andb_false_r. simpl. eexists.
    split; [done|]. split_and!; try done. by exists e.
  - destruct HR as (Hs & Hr & Hn & HR). rewrite Hr. simpl.
    destruct (b_used n) eqn:Hu; simpl.
    + rewrite andb_false_r. simpl. eexists. split; [done|]. split_and!; try done.
      all: by rewrite ?Z.eqb_refl, ?Hu.
    + destruct (Z.eqb_spec o nx); [lia|].
      pose proof (to_end_le _ _ _ _ HR). munf. destruct (Z.eqb_spec nx 16384); [lia|]. simpl.
      assert (HR' : to_end (<[o:=mk_mhdr (b_next n) p false]> (ram h)) nx (b_next n) R).
      { apply (to_end_ext (ram h)); [|done]. intros k Hk. by rewrite lookup_insert_ne by lia. }
      destruct (to_end_set_prev _ _ o _ _ HR') as (r' & Hw & Ht & Hk).
      unfold set_next. simpl. rewrite Hw. simpl. eexists. split; [done|]. simpl.
      split_and!; [| | lia | done | ].
      * apply (lseg_ext (ram h)); [|done]. intros k Hk'. rewrite Hk, lookup_insert_ne by lia. done.
      * rewrite Hk by lia. by rewrite lookup_insert_eq.
      * destruct (Z.eqb_spec nx (b_next n)); [lia|]. simpl. done.
Qed.

Lemma lseg_last r l p o : lseg r 0 0 l p o ->
  match last l with
  | None => l = [] /\ p = 0 /\ o = 0
  | Some pb => l = removelast l ++ [pb] /\ p = b_start pb /\ b_next pb = o /\ exists q,
      lseg r 0 0 (removelast l) q p /\ r !! p = Some (mk_mhdr o q (b_used pb)) /\
      p + SIZEOF_STRUCT_MEM + MIN_SIZE_ALIGNED <= o
  end.
Proof.
  induction l as [|pb l _] using rev_ind; [by simpl|].
  rewrite last_snoc, removelast_last. intros (q & o1 & Hl & Hb)%lseg_app.
  simpl in Hb. destruct Hb as (<- & Hr & Hle & -> & ->). eauto 10.
Qed.

Lemma first_free_app l R : first_free (l ++ R) = if forallb b_used l then first_free R else first_free l.
Proof.
  induction l as [|b l IH]; simpl; [done|]. destruct (b_used b); simpl; [done|done].
Qed.

Lemma first_free_lt r l : forall p0 o0 p o, lseg r p0 o0 l p o -> forallb b_used l = false ->
  o0 <= first_free l < o.
Proof.
  induction l as [|b l IH]; simpl; [done|]. intros p0 o0 p o (Hs & _ & Hle & Hl) Hf.
  pose proof (lseg_le _ _ _ _ _ _ Hl). munf. destruct (b_used b); simpl in Hf; [|lia].
  pose proof (IH _ _ _ _ Hl Hf). lia.
Qed.

Lemma first_free_ge r R : forall p o, to_end r p o R -> o <= first_free R.
Proof.
  induction R as [|b R IH]; simpl; intros p o; [intros [-> _]; lia|].
  intros (Hs & _ & Hle & Hl). munf. destruct (b_used b); [|lia].
  pose proof (IH _ _ Hl). lia.
Qed.

Lemma no_holes_snoc us x : no_holes (us ++ [x]) <->
  no_holes us /\ match last us with Some y => y || x = true | None => True end.
Proof.
  induction us as [|a us IH]; simpl; [done|]. destruct us as [|b us]; simpl in *; [tauto|].
  rewrite IH. destruct us; simpl in *; tauto.
Qed.

Lemma no_holes_app us x vs : no_holes (us ++ x :: vs) <-> no_holes (us ++ [x]) /\ no_holes (x :: vs).
Proof.
  induction us as [|a us IH]; simpl; [tauto|]. destruct us as [|b us]; simpl in *.
  - tauto.
  - rewrite IH. tauto.
Qed.

Lemma no_holes_cons_used us : no_holes (true :: us) <-> no_holes us.
Proof. destruct us; simpl; tauto. Qed.

Lemma plug_backward_spec h l p o nx R :
  lseg (ram h) 0 0 l p o -> ram h !! o = Some (mk_mhdr nx p false) ->
  o + SIZEOF_STRUCT_MEM + MIN_SIZE_ALIGNED <= nx -> to_end (ram h) o nx R ->
  exists h', plug_backward h o = Ok h' /\
    match last l with
    | Some pb =>
        if b_used pb then h' = h
        else to_end (ram h') 0 0 (removelast l ++ mk_blk (b_start pb) nx false :: R) /\
             lfree h' = if lfree h =? o then p else lfree h
    | None => h' = h
    end.
Proof.
  intros Hl Ho Hle HR. unfold plug_backward, mget. rewrite Ho. simpl.
  pose proof (lseg_last _ _ _ _ Hl) as Hlast. destruct (last l) as [pb|].
  - destruct Hlast as (_ & -> & Hnx & q & Hl' & Hp & Hple). rewrite Hp. simpl. munf.
    destruct (Z.eqb_spec (b_start pb) o); [lia|]. simpl.
    destruct (b_used pb); simpl; [eauto|].
    pose proof (lseg_le _ _ _ _ _ _ Hl'). set (pp := b_start pb) in *.
    set (r1 := <[pp:=set_next (mk_mhdr o q false) nx]> (ram h)).
    assert (HR' : to_end r1 o nx R).
    { apply (to_end_ext (ram h)); [|done]. intros k Hk. unfold r1. by rewrite lookup_insert_ne by lia. }
    destruct (to_end_set_prev _ _ pp _ _ HR') as (r' & Hw & Ht & Hk). rewrite Hw. simpl.
    eexists. split; [done|]. simpl. split; [|done]. apply to_end_app. exists q, pp. split.
    + apply (lseg_ext (ram h)); [|done]. intros k Hk'.
      rewrite Hk by lia. unfold r1. by rewrite lookup_insert_ne by lia.
    + simpl. munf. split_and!; [done| |lia|done].
      rewrite Hk by lia. unfold r1. by rewrite lookup_insert_eq.
  - destruct Hlast as (_ & -> & ->). rewrite Ho. simpl. eauto.
Qed.

(** ** mem_free *)

Lemma forallb_used_snoc l pb : forallb b_used (l ++ [pb]) = forallb b_used l && b_used pb.
Proof. rewrite forallb_app. simpl. by rewrite andb_true_r. Qed.

(** The lowest free block after [b] is freed, before the merging. *)
Lemma first_free_freed h l b R p : lseg (ram h) 0 0 l p (b_start b) ->
  to_end (ram h) (b_start b) (b_next b) R -> b_start b < b_next b ->
  lfree h = first_free (l ++ b :: R) -> b_used b = true ->
  (if b_start b <? lfree h then b_start b else lfree h)
  = if forallb b_used l then b_start b else first_free l.
Proof.
  intros Hl HR Hlt -> Hu. rewrite first_free_app. simpl. rewrite Hu.
  destruct (forallb b_used l) eqn:Hf.
  - pose proof (first_free_ge _ _ _ _ HR). destruct (Z.ltb_spec (b_start b) (first_free R)); lia.
  - pose proof (first_free_lt _ _ _ _ _ _ Hl Hf). destruct (Z.ltb_spec (b_start b) (first_free l)); lia.
Qed.

Lemma merge_next_no_holes nx R : no_holes (map b_used R) ->
  no_holes (false :: map b_used (merge_next nx R).2).
Proof.
  destruct R as [|n R]; simpl; [done|]. destruct (b_used n) eqn:E; simpl.
  - rewrite E. done.
  - intros H. destruct R as [|n2 R]; simpl in *; [done|]. destruct H as [H1 H2]. split; [|done].
    by rewrite H1.
Qed.

Lemma no_holes_free_blocks l b R : no_holes (map b_used (l ++ b :: R)) -> b_used b = true ->
  no_holes (map b_used (free_blocks l b R)).
Proof.
  rewrite map_app. simpl. intros H Hu. rewrite Hu in H.
  apply no_holes_app in H as [Hl HR]. rewrite no_holes_cons_used in HR.
  apply no_holes_snoc in Hl as [Hl _].
  pose proof (merge_next_no_holes (b_next b) R HR) as Hm. unfold free_blocks.
  destruct (merge_next (b_next b) R) as [nx R']. simpl in Hm.
  destruct l as [|pb l _] using rev_ind; [done|]. rewrite last_snoc, removelast_last.
  rewrite map_app in Hl. simpl in Hl. apply no_holes_snoc in Hl as Hl2. destruct Hl2 as [Hl' Hlast].
  destruct (b_used pb) eqn:E; rewrite ?map_app; simpl; apply no_holes_app; (split; [|done]).
  - rewrite E. apply no_holes_snoc. split; [done|]. by rewrite last_snoc.
  - done.
Qed.

Lemma mem_free_spec h l b R : heap_wf h (l ++ b :: R) -> b_used b = true ->
  exists h', mem_free h (b_start b + SIZEOF_STRUCT_MEM) = Ok h' /\ heap_wf h' (free_blocks l b R).
Proof.
  intros (Ht & Hnh & Hlf) Hu. pose proof (no_holes_free_blocks _ _ _ Hnh Hu) as Hnh'.
  apply to_end_app in Ht as (p & o & Hl & Hb). simpl in Hb. destruct Hb as (<- & Hr & Hle & HR).
  set (o := b_start b) in *. pose proof (lseg_le _ _ _ _ _ _ Hl). pose proof (to_end_le _ _ _ _ HR).
  pose proof (first_free_freed h l b R p Hl HR ltac:(unfold o in *; munf; lia) Hlf Hu) as Hff. fold o in Hff.
  unfold mem_free, mget. replace (o + SIZEOF_STRUCT_MEM - SIZEOF_STRUCT_MEM) with o by lia.
  assert ((0 <=? o + SIZEOF_STRUCT_MEM) && (o + SIZEOF_STRUCT_MEM <? ram_end) = true) as ->
    by (munf; apply andb_true_iff; lia).
  simpl. rewrite Hr. simpl. rewrite Hu. simpl. rewrite Hff.
  set (lf := if forallb b_used l then o else first_free l).
  change (set_used (mk_mhdr (b_next b) p true) false) with (mk_mhdr (b_next b) p false).
  set (r1 := <[o := mk_mhdr (b_next b) p false]> (ram h)).
  assert (Ho : r1 !! o = Some (mk_mhdr (b_next b) p false)) by apply lookup_insert_eq.
  assert (Hl1 : lseg r1 0 0 l p o).
  { apply (lseg_ext (ram h)); [|done]. intros k Hk. unfold r1. by rewrite lookup_insert_ne by lia. }
  assert (HR1 : to_end r1 o (b_next b) R).
  { apply (to_end_ext (ram h)); [|done]. intros k Hk. unfold r1. munf. by rewrite lookup_insert_ne by lia. }
  unfold plug_holes, mget. simpl. rewrite Ho. simpl.
  assert ((0 <=? o) = true /\ (o <? ram_end) = true) as [-> ->] by (munf; lia). simpl.
  destruct (plug_forward_spec (mk_heap r1 lf) l p o _ _ Hl1 Ho Hle HR1) as (h2 & -> & H2). simpl.
  unfold free_blocks in *. destruct (merge_next (b_next b) R) as [nx R'].
  destruct H2 as (Hl2 & Ho2 & Hle2 & HR2 & Hlf2).
  assert (lfree h2 = lf) as Hlf2'.
  { simpl in Hlf2. rewrite Hlf2. destruct (Z.eqb_spec lf (b_next b)); [|by rewrite andb_false_r].
    exfalso. unfold lf in *. destruct (forallb b_used l) eqn:E; [munf; lia|].
    pose proof (first_free_lt _ _ _ _ _ _ Hl E). munf. lia. }
  destruct (plug_backward_spec h2 l p o nx R' Hl2 Ho2 Hle2 HR2) as (h3 & -> & H3).
  exists h3. split; [done|]. pose proof (lseg_last _ _ _ _ Hl2) as Hlast.
  assert (Hsame : to_end (ram h2) 0 0 (l ++ mk_blk o nx false :: R')).
  { apply to_end_app. exists p, o. split; [done|]. simpl. done. }
  assert (Hfs : lf = first_free (l ++ mk_blk o nx false :: R')).
  { rewrite first_free_app. done. }
  destruct (last l) as [pb|] eqn:El.
  - destruct Hlast as (Hsplit & -> & Hnx & q & Hl' & Hp & Hple).
    destruct (b_used pb) eqn:E.
    + subst h3. split_and!; [done|done|]. by rewrite Hlf2'.
    + destruct H3 as [Ht3 Hlf3]. split_and!; [done|done|].
      assert (forallb b_used l = false) as Hfb.
      { rewrite Hsplit, forallb_used_snoc, E. apply andb_false_r. }
      rewrite Hlf3, Hlf2'. unfold lf. rewrite Hfb.
      pose proof (first_free_lt _ _ _ _ _ _ Hl Hfb).
      destruct (Z.eqb_spec (first_free l) o); [lia|].
      rewrite Hsplit, first_free_app at 1. rewrite first_free_app. simpl. rewrite E. done.
  - destruct Hlast as (-> & -> & Ho0). subst h3. split_and!; [done|done|]. by rewrite Hlf2'.
Qed.

(** ** Allocated areas *)

Lemma allocs_app l R : allocs (l ++ R) = allocs l ++ allocs R.
Proof. unfold allocs. by rewrite List.filter_app, map_app. Qed.

Lemma allocs_cons b R : allocs (b :: R)
  = (if b_used b then [(b_start b + SIZEOF_STRUCT_MEM, b_next b)] else []) ++ allocs R.
Proof. unfold allocs. simpl. by destruct (b_used b). Qed.

Lemma allocs_free_blocks l b R : allocs (free_blocks l b R) = allocs l ++ allocs R.
Proof.
  unfold free_blocks. assert (Hm : allocs (merge_next (b_next b) R).2 = allocs R).
  { destruct R as [|n R]; simpl; [done|]. rewrite (allocs_cons n).
    destruct (b_used n) eqn:E; simpl; [by rewrite allocs_cons, E|done]. }
  destruct (merge_next (b_next b) R) as [nx R']. simpl in Hm. rewrite <- Hm.
  destruct l as [|pb l _] using rev_ind; [done|]. rewrite last_snoc, removelast_last.
  destruct (b_used pb) eqn:E; rewrite !allocs_app, !allocs_cons, ?E; simpl; [done|].
  unfold allocs at 3. simpl. by rewrite app_nil_r.
Qed.

(** The areas lie in the heap, in order, a header apart from each other. *)
Fixpoint areas_from (lo : Z) (a : list (Z * Z)) : Prop :=
  match a with
  | [] => True
  | (s, e) :: a => lo + SIZEOF_STRUCT_MEM <= s /\ s + MIN_SIZE_ALIGNED <= e /\
                   e <= ram_end /\ areas_from e a
  end.

Lemma areas_from_weaken lo lo' a : lo' <= lo -> areas_from lo a -> areas_from lo' a.
Proof. destruct a as [|[s e] a]; simpl; [done|]. intros. split_and!; try tauto. lia. Qed.

Lemma to_end_areas r bl : forall p o, to_end r p o bl -> areas_from o (allocs bl).
Proof.
  induction bl as [|b bl IH]; simpl; intros p o; [done|]. intros (Hs & _ & Hle & Ht).
  pose proof (to_end_le _ _ _ _ Ht). apply IH in Ht. rewrite allocs_cons. munf.
  destruct (b_used b); simpl.
  - munf. split_and!; try lia. done.
  - apply (areas_from_weaken (b_next b)); [lia|done].
Qed.

(** ** mem_malloc *)

(** The room behind the header of a block. *)
Definition room (b : blk) : Z := b_next b - (b_start b + SIZEOF_STRUCT_MEM).
Definition fits (size : Z) (b : blk) : bool := negb (b_used b) && (room b >=? size).

Lemma usize_id x : 0 <= x <= ram_end -> usize x = x.
Proof. intros H. munf. unfold usize. apply Z.mod_small. lia. Qed.

(** Blocks too close to the end are too small. *)
Lemma find_fits_end r size R : MIN_SIZE_ALIGNED <= size -> forall p o, to_end r p o R ->
  MEM_SIZE_ALIGNED - size <= o -> List.find (fits size) R = None.
Proof.
  intros Hsz. induction R as [|b R IH]; simpl; [done|]. intros p o (Hs & _ & Hle & Ht) Ho.
  pose proof (to_end_le _ _ _ _ Ht). unfold fits at 1, room. munf.
  destruct (Z.geb_spec (b_next b - (b_start b + 6)) size); [lia|]. rewrite andb_false_r.
  apply (IH _ _ Ht). lia.
Qed.

Lemma mem_scan_spec r size R : MIN_SIZE_ALIGNED <= size <= MEM_SIZE_ALIGNED ->
  forall fuel p o, 0 <= o -> to_end r p o R -> (length R < fuel)%nat ->
  mem_scan fuel r o size = Ok (b_start <$> List.find (fits size) R).
Proof.
  intros Hsz. induction R as [|b R IH]; intros [|fuel] p o H0 Ht Hf; simpl in Hf; [lia| |lia|].
  - destruct Ht as [-> _]. simpl. munf. destruct (Z.ltb_spec 16384 (16384 - size)); [lia|done].
  - cbn [mem_scan]. destruct (Z.ltb_spec o (MEM_SIZE_ALIGNED - size)) as [Hlt|Hge].
    + destruct Ht as (Hs & Hr & Hle & Ht). pose proof (to_end_le _ _ _ _ Ht). subst o.
      unfold mget. rewrite Hr. cbn [of_option res_bind m_used m_next List.find]. unfold fits, room.
      rewrite usize_id by (munf; lia).
      destruct (negb (b_used b) && (b_next b - (b_start b + SIZEOF_STRUCT_MEM) >=? size)); [done|].
      apply (IH fuel _ _) in Ht; [done|munf; lia|lia].
    + by rewrite (find_fits_end _ _ _ (proj1 Hsz) _ _ Ht Hge).
Qed.

(** What taking [size] bytes makes of a free block. *)
Definition take_blocks (b : blk) (size : Z) : list blk :=
  if room b >=? size + SIZEOF_STRUCT_MEM + MIN_SIZE_ALIGNED then
    let ptr2 := b_start b + SIZEOF_STRUCT_MEM + size in
    [mk_blk (b_start b) ptr2 true; mk_blk ptr2 (b_next b) false]
  else [mk_blk (b_start b) (b_next b) true].

(** Relinking unless the suffix is the end of the heap. *)
Lemma to_end_relink r p q o bl : to_end r p o bl ->
  exists r', (if negb (o =? MEM_SIZE_ALIGNED) then write_prev r o q else Ok r) = Ok r' /\
    to_end r' q o bl /\ forall k, k <> o -> r' !! k = r !! k.
Proof.
  intros H. destruct (Z.eqb_spec o MEM_SIZE_ALIGNED) as [->|]; simpl; [|by eapply to_end_set_prev].
  exists r. split_and!; try done. destruct bl as [|b bl]; [done|].
  simpl in H. destruct H as (_ & _ & Hle & Ht). apply to_end_le in Ht. munf. lia.
Qed.

Lemma mem_take_spec r l p b R size : 12 <= size -> lseg r 0 0 l p (b_start b) ->
  to_end r p (b_start b) (b :: R) -> size <= room b ->
  exists r', mem_take r (b_start b) size = Ok r' /\
    lseg r' 0 0 l p (b_start b) /\ to_end r' p (b_start b) (take_blocks b size ++ R).
Proof.
  intros Hsz Hl (_ & Hr & Hle & Ht) Hroom. unfold mem_take, mget. rewrite Hr. simpl.
  pose proof (to_end_le _ _ _ _ Ht). pose proof (lseg_le _ _ _ _ _ _ Hl).
  unfold take_blocks, room in *. rewrite usize_id by (munf; lia).
  destruct (Z.geb_spec (b_next b - (b_start b + SIZEOF_STRUCT_MEM)) (size + SIZEOF_STRUCT_MEM + MIN_SIZE_ALIGNED)).
  - rewrite u16_id by (munf; lia). set (o := b_start b) in *. set (ptr2 := o + SIZEOF_STRUCT_MEM + size) in *.
    set (r1 := <[o:=mk_mhdr ptr2 p true]> (<[ptr2:=mk_mhdr (b_next b) o false]> r)).
    assert (Ht1 : to_end r1 o (b_next b) R).
    { apply (to_end_ext r); [|done]. intros k Hk. unfold r1, ptr2. munf.
      by rewrite !lookup_insert_ne by lia. }
    destruct (to_end_relink _ _ ptr2 _ _ Ht1) as (r' & Hw & Ht' & Hk).
    exists r'. split; [done|]. split.
    + apply (lseg_ext r); [|done]. intros k Hk'. unfold ptr2 in *. munf.
      rewrite Hk by lia. unfold r1. by rewrite !lookup_insert_ne by lia.
    + simpl. unfold ptr2 in *. munf. split_and!; try done; try lia.
      * rewrite Hk by lia. unfold r1. by rewrite lookup_insert_eq.
      * rewrite Hk by lia. unfold r1. by rewrite lookup_insert_ne, lookup_insert_eq by lia.
  - eexists. split; [done|]. split.
    + apply (lseg_ext r); [|done]. intros k Hk'. by rewrite lookup_insert_ne by lia.
    + simpl. split_and!; [done|by rewrite lookup_insert_eq|done|].
      apply (to_end_ext r); [|done]. intros k Hk. munf. by rewrite lookup_insert_ne by lia.
Qed.

Lemma next_free_spec r R : forall fuel p o, to_end r p o R -> (length R < fuel)%nat ->
  next_free fuel r o = Ok (first_free R).
Proof.
  induction R as [|b R IH]; intros [|fuel] p o Ht Hf; simpl in Hf; [lia| |lia|].
  - destruct Ht as [-> [e He]]. simpl. unfold mget. rewrite He. simpl. done.
  - destruct Ht as (Hs & Hr & Hle & Ht). pose proof (to_end_le _ _ _ _ Ht).
    cbn [next_free first_free]. unfold mget. rewrite Hr. cbn [of_option res_bind m_used m_next].
    destruct (b_used b); simpl; [|by subst].
    destruct (Z.eqb_spec o ram_end); [munf; lia|]. simpl. apply (IH fuel _ _ Ht). lia.
Qed.

(** The blocks below [lfree] are used. *)
Lemma first_free_split bl : exists l0 R0, bl = l0 ++ R0 /\ forallb b_used l0 = true /\
  match R0 with [] => first_free bl = ram_end | b :: _ => b_used b = false /\ first_free bl = b_start b end.
Proof.
  induction bl as [|b bl (l0 & R0 & -> & Hu & HR)]; [by exists [], []|].
  destruct (b_used b) eqn:E.
  - exists (b :: l0), R0. simpl. rewrite E. simpl. destruct R0; auto.
  - exists [], (b :: l0 ++ R0). simpl. rewrite E. auto.
Qed.

Lemma find_split {A} (f : A -> bool) l x : List.find f l = Some x ->
  exists l1 l2, l = l1 ++ x :: l2 /\ f x = true /\ forallb (fun y => negb (f y)) l1 = true.
Proof.
  induction l as [|a l IH]; simpl; [done|]. destruct (f a) eqn:E.
  - intros [= ->]. by exists [], l.
  - intros (l1 & l2 & -> & Hx & Hl)%IH. exists (a :: l1), l2. simpl. rewrite E. auto.
Qed.

Lemma find_used_app size l R : forallb b_used l = true ->
  List.find (fits size) (l ++ R) = List.find (fits size) R.
Proof.
  induction l as [|b l IH]; simpl; [done|]. intros [Hb Hl]%andb_true_iff.
  unfold fits at 1. rewrite Hb. simpl. auto.
Qed.

Lemma no_holes_take l b R size : no_holes (map b_used (l ++ b :: R)) -> b_used b = false ->
  no_holes (map b_used (l ++ take_blocks b size ++ R)).
Proof.
  rewrite !map_app. simpl. intros H Hu. rewrite Hu in H. apply no_holes_app in H as [Hl HR].
  apply no_holes_snoc in Hl as [Hl _].
  assert (Hr : no_holes (map b_used R)) by (destruct (map b_used R); [done|by apply HR]).
  assert (Ht : no_holes (map b_used (take_blocks b size) ++ map b_used R)).
  { unfold take_blocks. destruct (room b >=? _); simpl; [by split|by apply no_holes_cons_used]. }
  assert (Hhd : exists rest, map b_used (take_blocks b size) ++ map b_used R = true :: rest).
  { unfold take_blocks. destruct (room b >=? _); simpl; eauto. }
  destruct Hhd as [rest Hrest]. rewrite Hrest in *. apply no_holes_app. split; [|done].
  apply no_holes_snoc. split; [done|]. destruct (last _) as [[]|]; done.
Qed.

Lemma first_free_take l b R size : b_used b = false ->
  first_free (l ++ take_blocks b size ++ R)
  = if forallb b_used l then first_free (take_blocks b size ++ R) else first_free (l ++ b :: R).
Proof. intros Hu. rewrite !first_free_app. by destruct (forallb b_used l). Qed.

Lemma mem_malloc_spec h bl size : heap_wf h bl -> is_u16 size ->
  exists o h', mem_malloc h size = Ok (o, h') /\
  match o with
  | None => h' = h /\ (size = 0 \/ List.find (fits (Z.max size MIN_SIZE_ALIGNED)) bl = None)
  | Some p => exists l b R, bl = l ++ b :: R /\ fits (Z.max size MIN_SIZE_ALIGNED) b = true /\
      p = b_start b + SIZEOF_STRUCT_MEM /\
      heap_wf h' (l ++ take_blocks b (Z.max size MIN_SIZE_ALIGNED) ++ R)
  end.
Proof.
  intros (Ht & Hnh & Hlf) Hsize. unfold mem_malloc.
  destruct (Z.eqb_spec size 0) as [->|Hne]; [exists None, h; auto|].
  replace (if size <? MIN_SIZE_ALIGNED then MIN_SIZE_ALIGNED else size)
    with (Z.max size MIN_SIZE_ALIGNED) by (destruct (Z.ltb_spec size MIN_SIZE_ALIGNED); lia).
  set (sz := Z.max size MIN_SIZE_ALIGNED). assert (Hsz : MIN_SIZE_ALIGNED <= sz) by (unfold sz; lia).
  rewrite Z.gtb_ltb. destruct (Z.ltb_spec MEM_SIZE_ALIGNED sz).
  { eexists None, h. split; [done|]. split; [done|]. right. apply (find_fits_end _ _ _ Hsz _ _ Ht). lia. }
  destruct (first_free_split bl) as (l0 & R0 & -> & Hu0 & HR0).
  apply to_end_app in Ht as (p0 & o0 & Hl0 & Ht0). pose proof (lseg_le _ _ _ _ _ _ Hl0).
  assert (Ho0 : lfree h = o0).
  { rewrite Hlf. destruct R0 as [|b0 R0]; [by destruct Ht0 as [-> _]|].
    destruct HR0 as [_ ->]. by destruct Ht0 as [-> _]. }
  pose proof (to_end_len _ _ _ _ Ht0) as Hlen.
  rewrite (find_used_app _ _ _ Hu0), Ho0.
  rewrite (mem_scan_spec _ _ _ (conj Hsz H) _ p0) by (done || unfold scan_fuel, zlen in *; munf; lia).
  destruct (List.find (fits sz) R0) as [b|] eqn:Hf;
    cbn [res_bind fmap option_fmap option_map]; [|exists None, h; auto].
  apply find_split in Hf as (l1 & R & -> & Hfit & Hl1).
  pose proof Hfit as [Hub Hroom]%andb_true_iff. apply negb_true_iff in Hub. apply Z.geb_le in Hroom.
  apply to_end_app in Ht0 as (p & o & Hl1s & Htb). assert (o = b_start b) as -> by by destruct Htb.
  assert (Hl : lseg (ram h) 0 0 (l0 ++ l1) p (b_start b)) by (apply lseg_app; eauto).
  assert (Hsz12 : 12 <= sz) by (munf; lia).
  destruct (mem_take_spec _ _ _ _ _ sz Hsz12 Hl Htb Hroom) as (r' & -> & Hl' & Ht').
  cbn [res_bind].
  assert (Hend : b_start b + SIZEOF_STRUCT_MEM + sz <= ram_end).
  { destruct Htb as (_ & _ & _ & Htb). apply to_end_le in Htb. unfold room in Hroom. lia. }
  pose proof (to_end_len _ _ _ _ Ht') as Hlen'.
  pose proof (lseg_le _ _ _ _ _ _ Hl').
  assert (Hwf : forall lf, lf = first_free ((l0 ++ l1) ++ take_blocks b sz ++ R) ->
    heap_wf (mk_heap r' lf) ((l0 ++ l1) ++ take_blocks b sz ++ R)).
  { intros lf ->. split_and!; [|apply no_holes_take; [by rewrite <- app_assoc|done]|done].
    apply to_end_app. eauto. }
  assert (Hcur : (b_start b = o0 /\ l1 = []) \/ (b_start b <> o0 /\ forallb b_used (l0 ++ l1) = false)).
  { destruct l1 as [|b1 l1]; [left; split; [by destruct Hl1s|done]|right].
    destruct Hl1s as (_ & _ & Hle1 & Hl1s). apply lseg_le in Hl1s. munf. split; [lia|].
    simpl in HR0. destruct HR0 as [HR0 _]. rewrite forallb_app. simpl. rewrite HR0. apply andb_false_r. }
  unfold lwip_assert. destruct (Z.leb_spec (b_start b + SIZEOF_STRUCT_MEM + sz) ram_end); [|lia].
  destruct Hcur as [[He ->]|[Hne' Hff]].
  - rewrite He, Z.eqb_refl, <- He, (next_free_spec _ _ _ _ _ Ht') by (unfold scan_fuel, zlen in *; munf; lia).
    rewrite app_nil_r in *. cbn [res_bind].
    assert (Hm : exists m, mget r' (first_free (take_blocks b sz ++ R)) = Ok m /\
      (first_free (take_blocks b sz ++ R) =? ram_end) || negb (m_used m) = true).
    { clear -Ht'. revert Ht'. generalize (take_blocks b sz ++ R) as bs, p, (b_start b).
      induction bs as [|a bs IH]; simpl; intros q o.
      - intros [_ [e He]]. unfold mget. rewrite He. simpl. by eexists.
      - intros (Hs & Hr & _ & Hb). destruct (b_used a) eqn:E; [by apply (IH _ _ Hb)|].
        subst o. unfold mget. rewrite Hr. simpl. eexists. split; [done|]. simpl. by rewrite orb_true_r. }
    destruct Hm as (m & -> & Hm). cbn [res_bind]. rewrite Hm. cbn [res_bind].
    eexists (Some _), _. split; [done|]. exists l0, b, R. split_and!; try done.
    apply Hwf. by rewrite (first_free_app l0), Hu0.
  - destruct (Z.eqb_spec (b_start b) o0); [done|]. cbn [res_bind].
    eexists (Some _), _. split; [done|]. exists (l0 ++ l1), b, R.
    split_and!; try done; [by rewrite <- app_assoc|]. apply Hwf.
    rewrite first_free_take, Hff, <- app_assoc by done. simpl. by rewrite <- Ho0.
Qed.

(** ** mem_trim *)

(** The list from a used block [b] on after shrinking it to [ns] bytes. *)
Definition trim_blocks (b : blk) (ns : Z) (R : list blk) : list blk :=
  let ptr2 := b_start b + SIZEOF_STRUCT_MEM + ns in
  if ns =? room b then b :: R else
  match R with
  | n :: R' =>
      if negb (b_used n) then mk_blk (b_start b) ptr2 true :: mk_blk ptr2 (b_next n) false :: R'
      else if ns + SIZEOF_STRUCT_MEM + MIN_SIZE_ALIGNED <=? room b
      then mk_blk (b_start b) ptr2 true :: mk_blk ptr2 (b_next b) false :: R else b :: R
  | [] =>
      if ns + SIZEOF_STRUCT_MEM + MIN_SIZE_ALIGNED <=? room b
      then [mk_blk (b_start b) ptr2 true; mk_blk ptr2 (b_next b) false] else [b]
  end.

(** Cutting [b] at [ptr2] with a free block up to [nx] behind it. *)
Lemma cut_block r l p b o nx q R ptr2 :
  lseg r 0 0 l p o ->
  r !! o = Some (mk_mhdr (b_next b) p true) -> to_end r q nx R ->
  o + SIZEOF_STRUCT_MEM + MIN_SIZE_ALIGNED <= ptr2 ->
  ptr2 + SIZEOF_STRUCT_MEM + MIN_SIZE_ALIGNED <= nx ->
  exists r', (if negb (nx =? MEM_SIZE_ALIGNED)
    then write_prev (<[o := set_next (mk_mhdr (b_next b) p true) ptr2]>
                      (<[ptr2 := mk_mhdr nx o false]> r)) nx ptr2
    else Ok (<[o := set_next (mk_mhdr (b_next b) p true) ptr2]>
              (<[ptr2 := mk_mhdr nx o false]> r))) = Ok r' /\
    to_end r' 0 0 (l ++ mk_blk o ptr2 true :: mk_blk ptr2 nx false :: R).
Proof.
  intros Hl Hb HR' Hp Hn.
  set (r1 := <[o:=set_next (mk_mhdr (b_next b) p true) ptr2]> (<[ptr2:=mk_mhdr nx o false]> r)).
  assert (Ht1 : to_end r1 q nx R).
  { apply (to_end_ext r); [|done]. intros k Hk. unfold r1. munf. by rewrite !lookup_insert_ne by lia. }
  destruct (to_end_relink _ _ ptr2 _ _ Ht1) as (r' & Hw & Ht' & Hk).
  exists r'. split; [done|]. pose proof (lseg_le _ _ _ _ _ _ Hl). munf.
  apply to_end_app. exists p, o. split.
  - apply (lseg_ext r); [|done]. intros k Hk'. rewrite Hk by lia. unfold r1. by rewrite !lookup_insert_ne by lia.
  - simpl. munf. split_and!; try done; try lia.
    + rewrite Hk by lia. unfold r1. by rewrite lookup_insert_eq.
    + rewrite Hk by lia. unfold r1. by rewrite lookup_insert_ne, lookup_insert_eq by lia.
Qed.

Lemma no_holes_trim l b ns R : no_holes (map b_used (l ++ b :: R)) -> b_used b = true ->
  no_holes (map b_used (l ++ trim_blocks b ns R)).
Proof.
  rewrite !map_app. simpl. intros H Hu. rewrite Hu in H. apply no_holes_app in H as [Hl HR].
  assert (Hg : exists rest, map b_used (trim_blocks b ns R) = true :: rest /\ no_holes (true :: rest)).
  { unfold trim_blocks. destruct (ns =? room b); [simpl; rewrite Hu; eauto|].
    destruct R as [|n R]; simpl in *.
    - destruct (_ <=? _); simpl; rewrite ?Hu; (eexists; split; [done|simpl; auto]).
    - destruct (b_used n) eqn:E; simpl in *; rewrite ?E.
      + destruct (_ <=? _); simpl; rewrite ?Hu, ?E; [|eauto].
        eexists. split; [done|]. simpl. destruct HR; auto.
      + eexists. split; [done|]. destruct HR. simpl. split; [done|]. destruct (map b_used R); simpl in *; tauto. }
  destruct Hg as (rest & -> & Hrest). by apply no_holes_app.
Qed.

Lemma allocs_trim l b ns R : b_used b = true ->
  exists e, allocs (l ++ trim_blocks b ns R) = allocs l ++ (b_start b + SIZEOF_STRUCT_MEM, e) :: allocs R /\
  (ns <= room b -> e <= b_next b /\ b_start b + SIZEOF_STRUCT_MEM + ns <= e).
Proof.
  intros Hu. rewrite allocs_app. unfold trim_blocks, room.
  destruct (Z.eqb_spec ns (b_next b - (b_start b + SIZEOF_STRUCT_MEM))).
  { exists (b_next b). rewrite allocs_cons, Hu. split; [done|lia]. }
  destruct R as [|nb R].
  - destruct (Z.leb_spec (ns + SIZEOF_STRUCT_MEM + MIN_SIZE_ALIGNED) (b_next b - (b_start b + SIZEOF_STRUCT_MEM))).
    + exists (b_start b + SIZEOF_STRUCT_MEM + ns). split; [done|munf; lia].
    + exists (b_next b). rewrite allocs_cons, Hu. split; [done|lia].
  - destruct (b_used nb) eqn:E; simpl.
    + destruct (Z.leb_spec (ns + SIZEOF_STRUCT_MEM + MIN_SIZE_ALIGNED) (b_next b - (b_start b + SIZEOF_STRUCT_MEM))).
      * exists (b_start b + SIZEOF_STRUCT_MEM + ns). rewrite !allocs_cons. simpl. split; [done|munf; lia].
      * exists (b_next b). rewrite !allocs_cons, Hu. split; [done|lia].
    + exists (b_start b + SIZEOF_STRUCT_MEM + ns). rewrite !allocs_cons. simpl. rewrite E. split; [done|munf; lia].
Qed.

Lemma mem_trim_spec h l b R newsize : heap_wf h (l ++ b :: R) -> b_used b = true ->
  0 <= newsize -> Z.max newsize MIN_SIZE_ALIGNED <= room b ->
  exists h', mem_trim h (b_start b + SIZEOF_STRUCT_MEM) newsize
             = Ok (Some (b_start b + SIZEOF_STRUCT_MEM), h') /\
    heap_wf h' (l ++ trim_blocks b (Z.max newsize MIN_SIZE_ALIGNED) R).
Proof.
  intros (Ht & Hnh & Hlf) Hu H0 Hns. unfold mem_trim.
  replace (if newsize <? MIN_SIZE_ALIGNED then MIN_SIZE_ALIGNED else newsize)
    with (Z.max newsize MIN_SIZE_ALIGNED) by (destruct (Z.ltb_spec newsize MIN_SIZE_ALIGNED); lia).
  set (ns := Z.max newsize MIN_SIZE_ALIGNED) in *. assert (MIN_SIZE_ALIGNED <= ns) as Hns12 by lia.
  pose proof (no_holes_trim l b ns R Hnh Hu) as Hnh'.
  pose proof Ht as Ht0.
  apply to_end_app in Ht as (p & o & Hl & Htb). assert (o = b_start b) as -> by by destruct Htb.
  destruct Htb as (_ & Hr & Hle & HR). rewrite Hu in Hr.
  pose proof (to_end_le _ _ _ _ HR). pose proof (lseg_le _ _ _ _ _ _ Hl).
  set (o := b_start b) in *. unfold room in Hns. fold o in Hns.
  rewrite Z.gtb_ltb. destruct (Z.ltb_spec MEM_SIZE_ALIGNED ns); [munf; lia|].
  assert ((0 <=? o + SIZEOF_STRUCT_MEM) && (o + SIZEOF_STRUCT_MEM <? ram_end) = true) as ->
    by (munf; apply andb_true_iff; lia). cbn [lwip_assert res_bind].
  replace (o + SIZEOF_STRUCT_MEM - SIZEOF_STRUCT_MEM) with o by lia.
  unfold mget at 1. rewrite Hr. cbn [of_option res_bind m_next].
  replace (u16 (b_next b - o - SIZEOF_STRUCT_MEM)) with (room b)
    by (unfold room; fold o; rewrite u16_id by (munf; lia); lia).
  assert (Hroom : room b = b_next b - (o + SIZEOF_STRUCT_MEM)) by done.
  assert ((ns <=? room b) = true) as -> by (apply Z.leb_le; lia). cbn [lwip_assert res_bind].
  unfold trim_blocks in *. fold o in Hnh'. fold o.
  destruct (Z.eqb_spec ns (room b)) as [|Hneq]; [exists h; split; [done|by split_and!]|].
  rewrite (u16_id (o + SIZEOF_STRUCT_MEM + ns)) by (munf; lia).
  destruct R as [|n R].
  - pose proof HR as [Hnx [e He]]. unfold mget at 1. rewrite Hnx, He. cbn [of_option res_bind m_used negb].
    rewrite <- Hnx. destruct (Z.leb_spec (ns + SIZEOF_STRUCT_MEM + MIN_SIZE_ALIGNED) (room b)); [|exists h; split; [done|by split_and!]].
    destruct (cut_block _ _ _ _ o (b_next b) _ [] (o + SIZEOF_STRUCT_MEM + ns) Hl Hr HR)
      as (r' & -> & Ht'); [fold o; lia|munf; lia|]. cbn [res_bind].
    eexists. split; [done|]. split_and!; [exact Ht'|done|]. simpl. rewrite Hlf, !first_free_app. simpl.
    rewrite Hu. fold o. destruct (forallb b_used l) eqn:E; [destruct (Z.ltb_spec (o + SIZEOF_STRUCT_MEM + ns) ram_end); munf; lia|].
    pose proof (first_free_lt _ _ _ _ _ _ Hl E). fold o in H3.
    destruct (Z.ltb_spec (o + SIZEOF_STRUCT_MEM + ns) (first_free l)); [munf; lia|done].
  - pose proof HR as (Hs & Hn & Hnle & HR'). unfold mget at 1. rewrite Hn.
    cbn [of_option res_bind m_used m_next negb]. destruct (b_used n) eqn:E; cbn [negb].
    + destruct (Z.leb_spec (ns + SIZEOF_STRUCT_MEM + MIN_SIZE_ALIGNED) (room b)); [|exists h; split; [done|by split_and!]].
      destruct (cut_block _ _ _ _ o (b_next b) _ (n :: R) (o + SIZEOF_STRUCT_MEM + ns) Hl Hr HR)
        as (r' & -> & Ht'); [fold o; lia|munf; lia|]. cbn [res_bind].
      eexists. split; [done|]. split_and!; [exact Ht'|done|]. simpl. rewrite Hlf, !first_free_app. simpl.
      rewrite Hu, E. fold o. pose proof (first_free_ge _ _ _ _ HR').
      destruct (forallb b_used l) eqn:E2; [destruct (Z.ltb_spec (o + SIZEOF_STRUCT_MEM + ns) (first_free R)); munf; lia|].
      pose proof (first_free_lt _ _ _ _ _ _ Hl E2). fold o in H4.
      destruct (Z.ltb_spec (o + SIZEOF_STRUCT_MEM + ns) (first_free l)); [munf; lia|done].
    + destruct (cut_block _ _ _ _ o (b_next n) _ R (o + SIZEOF_STRUCT_MEM + ns) Hl Hr HR')
        as (r' & -> & Ht'); [fold o; lia|munf; lia|]. cbn [res_bind].
      eexists. split; [done|]. split_and!; [exact Ht'|done|]. simpl. rewrite Hlf, !first_free_app. simpl.
      rewrite Hu, E. fold o. rewrite Hs. destruct (forallb b_used l) eqn:E2; [by rewrite Z.eqb_refl|].
      pose proof (first_free_lt _ _ _ _ _ _ Hl E2). fold o in H2.
      destruct (Z.eqb_spec (first_free l) (b_next b)); [munf; lia|done].
Qed.

(** ** Clients *)

Lemma areas_from_lb a : forall lo s e, areas_from lo a -> (s, e) ∈ a -> lo + SIZEOF_STRUCT_MEM <= s /\ s + MIN_SIZE_ALIGNED <= e.
Proof.
  induction a as [|[s1 e1] a IH]; intros lo s e Ha Hin; [by apply not_elem_of_nil in Hin|].
  simpl in Ha. destruct Ha as (H1 & H2 & H3 & Ha). apply elem_of_cons in Hin as [[= -> ->]|Hin]; [done|].
  apply (IH _ _ _ Ha) in Hin. munf. lia.
Qed.

Lemma areas_from_app a1 p e a2 : forall lo, areas_from lo (a1 ++ (p, e) :: a2) ->
  (forall s e', (s, e') ∈ a1 -> e' + SIZEOF_STRUCT_MEM <= p) /\
  (forall s e', (s, e') ∈ a2 -> e + SIZEOF_STRUCT_MEM <= s).
Proof.
  induction a1 as [|[s1 e1] a1 IH]; intros lo; simpl; intros (H1 & H2 & H3 & Ha).
  - split; [intros s e' Hin; by apply not_elem_of_nil in Hin|].
    intros s e' Hin. by apply (areas_from_lb _ _ _ _ Ha) in Hin as [? _].
  - destruct (IH _ Ha) as [Hl Hr]. split; [|done]. intros s e' [[= -> ->]|Hin]%elem_of_cons; [|by eapply Hl].
    eapply areas_from_lb; [exact Ha|]. apply elem_of_app. right. by left.
Qed.

(** The pointers are distinct. *)
Lemma areas_from_neq lo a1 p e a2 : areas_from lo (a1 ++ (p, e) :: a2) ->
  forall s e', (s, e') ∈ a1 ++ a2 -> s <> p.
Proof.
  intros Ha s e' Hin ->. pose proof (areas_from_app _ _ _ _ _ Ha) as [Hl Hr].
  assert (p + MIN_SIZE_ALIGNED <= e) by (eapply areas_from_lb; [exact Ha|apply elem_of_app; right; by left]).
  apply elem_of_app in Hin as [Hin|Hin].
  - pose proof (Hl _ _ Hin). assert (p + MIN_SIZE_ALIGNED <= e')
      by (eapply areas_from_lb; [exact Ha|apply elem_of_app; by left]). munf. lia.
  - apply Hr in Hin. munf. lia.
Qed.

(** A block with a data pointer [p] in use. *)
Lemma allocs_split bl p e : (p, e) ∈ allocs bl ->
  exists l b R, bl = l ++ b :: R /\ b_used b = true /\ p = b_start b + SIZEOF_STRUCT_MEM /\ e = b_next b.
Proof.
  induction bl as [|b bl IH]; [intros H; by apply not_elem_of_nil in H|].
  rewrite allocs_cons. intros [Hin|Hin]%elem_of_app.
  - destruct (b_used b) eqn:E; [|by apply not_elem_of_nil in Hin].
    apply list_elem_of_singleton in Hin as [= -> ->]. by exists [], b, bl.
  - destruct (IH Hin) as (l & b' & R & -> & ?). by exists (b :: l), b', R.
Qed.

Lemma allocs_take b size R : allocs (take_blocks b size ++ R)
  = (b_start b + SIZEOF_STRUCT_MEM,
     if room b >=? size + SIZEOF_STRUCT_MEM + MIN_SIZE_ALIGNED
     then b_start b + SIZEOF_STRUCT_MEM + size else b_next b) :: allocs R.
Proof. unfold take_blocks. destruct (room b >=? _); by rewrite ?app_comm_cons, ?allocs_app. Qed.

Lemma heap_wf_init : heap_wf mem_init [mk_blk 0 MEM_SIZE_ALIGNED false].
Proof.
  split_and!; [|done|done]. simpl. munf. split_and!; try done; try lia. by exists 16384.
Qed.

(** A heap without used blocks is one free block. *)
Lemma heap_wf_empty h bl : heap_wf h bl -> allocs bl = [] -> bl = [mk_blk 0 MEM_SIZE_ALIGNED false].
Proof.
  intros (Ht & Hnh & _) Ha. destruct bl as [|b1 bl]; [by destruct Ht|].
  rewrite allocs_cons in Ha. destruct (b_used b1) eqn:E1; [done|]. simpl in Ha, Ht, Hnh.
  destruct Ht as (Hs & _ & _ & Ht). destruct bl as [|b2 bl].
  - destruct b1 as [s1 n1 u1]. simpl in *. destruct Ht as [-> _]. by subst.
  - rewrite allocs_cons in Ha. destruct (b_used b2) eqn:E2; [done|]. simpl in Hnh. rewrite E1, E2 in Hnh.
    by destruct Hnh.
Qed.

(** The heap as its clients see it: [L] maps each pointer in use to the
    number of bytes behind it. *)
Definition heap_ok (h : heap) (L : gmap Z Z) : Prop :=
  exists bl, heap_wf h bl /\ forall p n, L !! p = Some n <-> (p, p + n) ∈ allocs bl.

Lemma heap_ok_init : heap_ok mem_init ∅.
Proof.
  eexists. split; [apply heap_wf_init|]. intros p n. rewrite lookup_empty.
  split; [done|]. intros H. by apply not_elem_of_nil in H.
Qed.

(** Where the used block [b] is, and its neighbours. *)
Lemma heap_ok_split h L p n : heap_ok h L -> L !! p = Some n ->
  exists l b R, heap_wf h (l ++ b :: R) /\ b_used b = true /\ p = b_start b + SIZEOF_STRUCT_MEM /\
    n = room b /\ (forall q m, L !! q = Some m <-> (q, q + m) ∈ allocs l ++ (p, p + n) :: allocs R).
Proof.
  intros (bl & Hwf & HL) Hp. pose proof Hp as Hin. apply HL in Hin.
  apply allocs_split in Hin as (l & b & R & -> & Hu & -> & He).
  exists l, b, R. split_and!; try done; [unfold room; lia|]. intros q m. rewrite (HL q m).
  by rewrite allocs_app, allocs_cons, Hu, He.
Qed.

Lemma heap_ok_distinct h l b R : heap_wf h (l ++ b :: R) -> b_used b = true ->
  forall s e, (s, e) ∈ allocs l ++ allocs R -> s <> b_start b + SIZEOF_STRUCT_MEM.
Proof.
  intros [Ht _] Hu. apply to_end_areas in Ht. rewrite allocs_app, allocs_cons, Hu in Ht.
  by eapply areas_from_neq.
Qed.

(** An interval that meets no used block lies in one free block. *)
Lemma gap_in_block r bl : forall pv o a z, to_end r pv o bl -> no_holes (map b_used bl) ->
  o <= a < z -> z <= ram_end ->
  (forall b, b ∈ bl -> b_used b = true -> z <= b_start b \/ b_next b <= a) ->
  exists b, b ∈ bl /\ b_used b = false /\ b_start b <= a /\ z <= b_next b.
Proof.
  induction bl as [|b bl IH]; simpl; intros pv o a z Ht Hnh Ha Hz Hd.
  - destruct Ht as [-> _]. lia.
  - destruct Ht as (Hs & _ & Hle & Ht). destruct (decide (b_next b <= a)) as [|Hlt].
    + destruct (IH o (b_next b) a z Ht) as (b' & Hb' & ?); try (done || lia).
      * destruct (map b_used bl); [done|by apply Hnh].
      * intros b' Hb'. apply Hd. by right.
      * exists b'. split; [by right|done].
    + destruct (b_used b) eqn:E; [destruct (Hd b ltac:(by left) E); lia|].
      exists b. split_and!; [by left|done|lia|]. destruct (decide (z <= b_next b)); [done|exfalso].
      destruct bl as [|b2 bl]; simpl in *; [destruct Ht as [Hn _]; lia|].
      destruct Ht as (Hs2 & _ & Hle2 & _). destruct Hnh as [Hu2 _].
      destruct (Hd b2 ltac:(right; by left) Hu2); munf; lia.
Qed.

Lemma find_none_free size bl b : List.find (fits size) bl = None -> b ∈ bl -> b_used b = false -> room b < size.
Proof.
  intros Hf Hin Hu. apply list_elem_of_In in Hin. pose proof (find_none _ _ Hf _ Hin) as H.
  unfold fits in H. rewrite Hu in H. simpl in H. rewrite Z.geb_leb in H. by apply Z.leb_gt in H.
Qed.

Lemma in_used_allocs bl b : b ∈ bl -> b_used b = true ->
  (b_start b + SIZEOF_STRUCT_MEM, b_next b) ∈ allocs bl.
Proof.
  intros (l & R & ->)%list_elem_of_split Hu. rewrite allocs_app, allocs_cons, Hu. simpl.
  apply elem_of_app. right. by left.
Qed.

(** Areas keyed by their start, when the one at [p] is set to [n]. *)
Lemma areas_insert (L : gmap Z Z) (A B : list (Z * Z)) (p n q m : Z) :
  (forall s e, (s, e) ∈ A ++ B -> s <> p) ->
  (forall s k, s <> p -> L !! s = Some k <-> (s, s + k) ∈ A ++ B) ->
  <[p := n]> L !! q = Some m <-> (q, q + m) ∈ A ++ (p, p + n) :: B.
Proof.
  intros Hd HL. rewrite elem_of_app, elem_of_cons. destruct (decide (q = p)) as [->|Hne].
  - rewrite lookup_insert_eq. split; [intros [= <-]; by right; left|].
    intros [Hi|[[= Hi]|Hi]]; [|f_equal; lia|]; exfalso; eapply (Hd p (p + m)); try done; apply elem_of_app; tauto.
  - rewrite lookup_insert_ne, (HL q m), elem_of_app by done.
    split; [tauto|]. intros [?|[[= ? ?]|?]]; [tauto|done|tauto].
Qed.

Lemma areas_from_in a : forall lo s e, areas_from lo a -> (s, e) ∈ a -> lo + SIZEOF_STRUCT_MEM <= s /\ e <= ram_end.
Proof.
  induction a as [|[s1 e1] a IH]; intros lo s e Ha Hin; [by apply not_elem_of_nil in Hin|].
  destruct Ha as (H1 & H2 & H3 & Ha). apply elem_of_cons in Hin as [[= -> ->]|Hin]; [done|].
  destruct (IH _ _ _ Ha Hin). munf. lia.
Qed.

Lemma area_min (h : heap) (L : gmap Z Z) p n : heap_ok h L -> L !! p = Some n -> MIN_SIZE_ALIGNED <= n.
Proof.
  intros (bl & (Hto & _) & HL) Hp. apply HL in Hp. apply to_end_areas in Hto.
  destruct (areas_from_lb _ _ _ _ Hto Hp). lia.
Qed.

(** The area of a taken block is fresh, and the list of areas grows by it. *)
Lemma taken_area h' (L : gmap Z Z) l b R size : is_u16 size ->
  (forall p n, L !! p = Some n <-> (p, p + n) ∈ allocs (l ++ b :: R)) ->
  fits (Z.max size MIN_SIZE_ALIGNED) b = true ->
  heap_wf h' (l ++ take_blocks b (Z.max size MIN_SIZE_ALIGNED) ++ R) ->
  let p := b_start b + SIZEOF_STRUCT_MEM in
  exists n, size <= n /\ L !! p = None /\ heap_ok h' (<[p := n]> L) /\
    SIZEOF_STRUCT_MEM <= p /\ p + n <= MEM_SIZE_ALIGNED /\
    forall q m, L !! q = Some m -> p + n <= q - SIZEOF_STRUCT_MEM \/ q + m <= p - SIZEOF_STRUCT_MEM.
Proof.
  intros Hsz HL Hfit Hwf' p. pose proof Hwf' as [Hto' _].
  apply andb_true_iff in Hfit as [Hub%negb_true_iff Hroom%Z.geb_le].
  apply to_end_areas in Hto'. pose proof (allocs_app l (b :: R)) as Ha.
  rewrite allocs_cons, Hub in Ha. simpl in Ha. rewrite allocs_app, allocs_take in Hto'. fold p in Hto'.
  set (e := if room b >=? _ then _ else _) in Hto'.
  pose proof (areas_from_app _ _ _ _ _ Hto') as [Hl HR].
  pose proof (areas_from_neq _ _ _ _ _ Hto') as Hneq.
  assert (He : p + Z.max size MIN_SIZE_ALIGNED <= e) by (unfold e, p, room in *; destruct (_ >=? _); lia).
  destruct (areas_from_in _ _ p e Hto') as [H1 H2]; [apply elem_of_app; right; by left|].
  exists (e - p). split_and!; [lia| | |munf; lia|munf; lia|].
  - destruct (L !! p) as [n|] eqn:E; [|done]. exfalso. apply HL in E. rewrite Ha in E.
    by apply (Hneq _ _ E).
  - eexists. split; [exact Hwf'|]. intros q n. rewrite allocs_app, allocs_take. fold p e.
    replace (p, e) with (p, p + (e - p)) by (f_equal; lia).
    apply areas_insert; [done|]. intros s k _. by rewrite (HL s k), Ha.
  - intros q m Hq. apply HL in Hq. rewrite Ha in Hq. apply elem_of_app in Hq as [Hq|Hq].
    + apply Hl in Hq. munf. lia.
    + apply HR in Hq. munf. lia.
Qed.

(** When no block fits, every place for the area meets an area in use. *)
Lemma no_room h (L : gmap Z Z) bl size p : heap_wf h bl ->
  (forall p n, L !! p = Some n <-> (p, p + n) ∈ allocs bl) ->
  List.find (fits size) bl = None -> 0 < size ->
  SIZEOF_STRUCT_MEM <= p -> p + size <= MEM_SIZE_ALIGNED ->
  exists q m, L !! q = Some m /\ q - SIZEOF_STRUCT_MEM < p + size /\ p - SIZEOF_STRUCT_MEM < q + m.
Proof.
  intros (Hto & Hnh & _) HL Hf H0 Hp Hpe.
  set (P := fun x : blk => b_used x = true /\ p - SIZEOF_STRUCT_MEM < b_next x /\ b_start x < p + size).
  assert (HP : forall x, Decision (P x)) by (intros; unfold P; apply _).
  destruct (decide (Exists P bl)) as [Hex|Hnex].
  - apply Exists_exists in Hex as (x & Hx & Hu & H1 & H2).
    exists (b_start x + SIZEOF_STRUCT_MEM), (room x). unfold room.
    split_and!; try lia. apply HL. pose proof (in_used_allocs _ _ Hx Hu) as Hi.
    by replace (b_start x + SIZEOF_STRUCT_MEM + (b_next x - (b_start x + SIZEOF_STRUCT_MEM)))
      with (b_next x) by lia.
  - exfalso. destruct (gap_in_block _ _ _ _ (p - SIZEOF_STRUCT_MEM) (p + size) Hto Hnh) as (x & Hx & Hu & H1 & H2);
      [munf; lia|munf; lia| |].
    + intros x Hx Hu. destruct (decide (P x)) as [|Hn]; [exfalso; apply Hnex, Exists_exists; eauto|].
      unfold P in Hn. destruct (decide (p + size <= b_start x)); [by left|]. right.
      destruct (decide (b_next x <= p - SIZEOF_STRUCT_MEM)); [done|]. exfalso. apply Hn. split_and!; [done|lia|lia].
    + pose proof (find_none_free _ _ _ Hf Hx Hu). unfold room in *. munf. lia.
Qed.

Lemma mem_malloc_area h L size : heap_ok h L -> is_u16 size ->
  exists o h', mem_malloc h size = Ok (o, h') /\
  match o with
  | Some p => exists n, size <= n /\ L !! p = None /\ heap_ok h' (<[p := n]> L) /\
      SIZEOF_STRUCT_MEM <= p /\ p + n <= MEM_SIZE_ALIGNED /\
      forall q m, L !! q = Some m -> p + n <= q - SIZEOF_STRUCT_MEM \/ q + m <= p - SIZEOF_STRUCT_MEM
  | None => h' = h /\ (size = 0 \/ forall p, SIZEOF_STRUCT_MEM <= p ->
      p + Z.max size MIN_SIZE_ALIGNED <= MEM_SIZE_ALIGNED ->
      exists q m, L !! q = Some m /\ q - SIZEOF_STRUCT_MEM < p + Z.max size MIN_SIZE_ALIGNED /\
                  p - SIZEOF_STRUCT_MEM < q + m)
  end.
Proof.
  intros (bl & Hwf & HL) Hsz. destruct (mem_malloc_spec h bl size Hwf Hsz) as (o & h' & Hm & Ho).
  exists o, h'. split; [done|]. destruct o as [p|].
  - destruct Ho as (l & b & R & -> & Hfit & -> & Hwf'). by eapply taken_area.
  - destruct Ho as [-> [->|Hf]]; [by auto|]. split; [done|]. right. intros p Hp Hpe.
    eapply no_room; try done. munf; lia.
Qed.

Lemma mem_free_area h L p n : heap_ok h L -> L !! p = Some n ->
  exists h', mem_free h p = Ok h' /\ heap_ok h' (delete p L).
Proof.
  intros Hok Hp. destruct (heap_ok_split h L p n Hok Hp) as (l & b & R & Hwf & Hu & -> & -> & HL).
  destruct (mem_free_spec h l b R Hwf Hu) as (h' & Hf & Hwf'). exists h'. split; [done|].
  exists (free_blocks l b R). split; [done|]. intros q m. rewrite allocs_free_blocks, lookup_delete_Some, (HL q m).
  pose proof (heap_ok_distinct _ _ _ _ Hwf Hu) as Hd. rewrite !elem_of_app, elem_of_cons. split.
  - intros [Hne [?|[[= ? ?]|?]]]; [tauto|by subst|tauto].
  - intros Hi. split; [|tauto]. intros <-. apply elem_of_app in Hi. by apply Hd in Hi.
Qed.

Lemma mem_trim_area h L p n newsize : heap_ok h L -> L !! p = Some n ->
  0 <= newsize -> Z.max newsize MIN_SIZE_ALIGNED <= n ->
  exists h' n', mem_trim h p newsize = Ok (Some p, h') /\ newsize <= n' <= n /\ heap_ok h' (<[p := n']> L).
Proof.
  intros Hok Hp H0 Hns. destruct (heap_ok_split h L p n Hok Hp) as (l & b & R & Hwf & Hu & -> & -> & HL).
  destruct (mem_trim_spec h l b R newsize Hwf Hu H0 Hns) as (h' & Ht & Hwf').
  destruct (allocs_trim l b (Z.max newsize MIN_SIZE_ALIGNED) R Hu) as (e & He & Hle).
  specialize (Hle Hns). exists h', (e - (b_start b + SIZEOF_STRUCT_MEM)).
  split_and!; [done|lia|unfold room; lia|]. eexists. split; [exact Hwf'|]. intros q m. rewrite He.
  pose proof (heap_ok_distinct _ _ _ _ Hwf Hu) as Hd.
  replace (b_start b + SIZEOF_STRUCT_MEM, e) with
    (b_start b + SIZEOF_STRUCT_MEM, b_start b + SIZEOF_STRUCT_MEM + (e - (b_start b + SIZEOF_STRUCT_MEM))) by (f_equal; lia).
  apply areas_insert.
  - intros s x Hx. by apply (Hd s x).
  - intros s m' Hne. rewrite (HL s m'), !elem_of_app, elem_of_cons.
    split; [intros [?|[[= ? ?]|?]]; try tauto; by subst|tauto].
Qed.

(** ** What a client relies on: areas by address and size *)
Class RamAlloc (H : Type) := {
  ra_malloc : H -> Z -> res (option Z * H);
  ra_free : H -> Z -> res H;
  ra_trim : H -> Z -> Z -> res (option Z * H);
  ra_ok : H -> gmap Z Z -> Prop;
  ra_malloc_spec h L size : ra_ok h L -> is_u16 size ->
    exists o h', ra_malloc h size = Ok (o, h') /\
    match o with
    | Some p => exists n, size <= n /\ L !! p = None /\ ra_ok h' (<[p := n]> L)
    | None => h' = h
    end;
  ra_free_spec h L p n : ra_ok h L -> L !! p = Some n ->
    exists h', ra_free h p = Ok h' /\ ra_ok h' (delete p L);
  ra_trim_spec h L p n newsize : ra_ok h L -> L !! p = Some n -> 0 <= newsize <= n ->
    exists h' n', ra_trim h p newsize = Ok (Some p, h') /\ newsize <= n' <= n /\ ra_ok h' (<[p := n']> L);
}.

#[export] Program Instance mem_ram_alloc : RamAlloc heap := {|
  ra_malloc := mem_malloc; ra_free := mem_free; ra_trim := mem_trim; ra_ok := heap_ok;
  ra_free_spec := mem_free_area;
|}.
Next Obligation.
  intros h L size Hok Hsz. destruct (mem_malloc_area h L size Hok Hsz) as (o & h' & Hm & Ho).
  exists o, h'. split; [done|]. destruct o; naive_solver.
Qed.
Next Obligation.
  intros h L p n newsize Hok Hp Hn. apply mem_trim_area with (n := n); try done; [lia|].
  pose proof (area_min _ _ _ _ Hok Hp). lia.
Qed.

(** ** Properties *)

(** C35. mem_malloc on a consistent heap never trips an assertion and never
    follows a wild pointer, and its scan ends. When it returns a pointer, the
    area behind it has at least the requested size, lies in the heap, and does
    not overlap any area in use (headers included); when it returns NULL for a
    non-zero size there is no place in the heap where header and data would
    fit between the used blocks. *)
Theorem mem_malloc_correct h L size : heap_ok h L -> is_u16 size ->
  exists o h', mem_malloc h size = Ok (o, h') /\
  match o with
  | Some p => exists n, size <= n /\ L !! p = None /\ heap_ok h' (<[p := n]> L) /\
      SIZEOF_STRUCT_MEM <= p /\ p + n <= MEM_SIZE_ALIGNED /\
      forall q m, L !! q = Some m -> p + n <= q - SIZEOF_STRUCT_MEM \/ q + m <= p - SIZEOF_STRUCT_MEM
  | None => h' = h /\ (size = 0 \/ forall p, SIZEOF_STRUCT_MEM <= p ->
      p + Z.max size MIN_SIZE_ALIGNED <= MEM_SIZE_ALIGNED ->
      exists q m, L !! q = Some m /\ q - SIZEOF_STRUCT_MEM < p + Z.max size MIN_SIZE_ALIGNED /\
                  p - SIZEOF_STRUCT_MEM < q + m)
  end.
Proof. apply mem_malloc_area. Qed.

Lemma mem_malloc_correct_witness : exists h' n, mem_malloc mem_init 100 = Ok (Some 6, h') /\
  100 <= n /\ heap_ok h' (<[6 := n]> ∅).
Proof.
  destruct (mem_malloc_correct mem_init ∅ 100 heap_ok_init) as (o & h' & Hm & Ho); [unfold is_u16; lia|].
  assert (o = Some 6) as -> by (vm_compute in Hm; congruence).
  destruct Ho as (n & Hn & _ & Hok & _). by exists h', n.
Defined.

(** C36. mem_free of a pointer in use succeeds without tripping an assertion,
    whatever holes are merged on either side, and exactly that pointer is gone:
    all other areas keep their place and size, and the heap is consistent. *)
Theorem mem_free_correct h L p n : heap_ok h L -> L !! p = Some n ->
  exists h', mem_free h p = Ok h' /\ heap_ok h' (delete p L).
Proof. apply mem_free_area. Qed.

Lemma mem_free_correct_witness : exists h h', mem_malloc mem_init 20 = Ok (Some 6, h) /\ mem_free h 6 = Ok h'.
Proof.
  destruct (mem_malloc_correct mem_init ∅ 20 heap_ok_init) as (o & h & Hm & Ho); [unfold is_u16; lia|].
  assert (o = Some 6) as -> by (vm_compute in Hm; congruence).
  destruct Ho as (n & _ & _ & Hok & _). exists h.
  destruct (mem_free_correct h (<[6:=n]> ∅) 6 n Hok (lookup_insert_eq _ _ _)) as (h' & Hf & _).
  exists h'. split; [exact Hm|exact Hf].
Defined.

(** mem_trim shrinks an area in place: it returns the same pointer, the
    area keeps at least the requested bytes (and never grows), the cut-off tail
    becomes free and every other area is untouched. *)
Theorem mem_trim_correct h L p n newsize : heap_ok h L -> L !! p = Some n ->
  0 <= newsize -> Z.max newsize MIN_SIZE_ALIGNED <= n ->
  exists h' n', mem_trim h p newsize = Ok (Some p, h') /\ newsize <= n' <= n /\ heap_ok h' (<[p := n']> L).
Proof. apply mem_trim_area. Qed.

Lemma mem_trim_correct_witness : exists h h', mem_malloc mem_init 100 = Ok (Some 6, h) /\
  mem_trim h 6 40 = Ok (Some 6, h').
Proof.
  destruct (mem_malloc_correct mem_init ∅ 100 heap_ok_init) as (o & h & Hm & Ho); [unfold is_u16; lia|].
  assert (o = Some 6) as -> by (vm_compute in Hm; congruence).
  destruct Ho as (n & Hn & _ & Hok & _). exists h.
  destruct (mem_trim_correct h (<[6:=n]> ∅) 6 n 40 Hok (lookup_insert_eq _ _ _)) as (h' & n' & Ht & _);
    [lia|munf; lia|].
  exists h'. split; [exact Hm|exact Ht].
Defined.

(** mem_calloc multiplies in [int] but mem_malloc takes a u16_t: for 256
    objects of 257 bytes it allocates 256 bytes and clears 65792. *)
Example mem_calloc_overflow :
  exists h, mem_calloc mem_init 256 257 = Ok (Some 6, h, 65792) /\ heap_ok h {[6 := 256]}.
Proof.
  eexists. split; [vm_compute; reflexivity|].
  exists [mk_blk 0 262 true; mk_blk 262 16384 false]. split.
  - vm_compute. repeat match goal with |- _ /\ _ => split end; try exact I; try reflexivity; try discriminate; by eexists.
  - intros p k. rewrite lookup_singleton_Some. split.
    + intros [<- <-]. by left.
    + intros Hi. apply list_elem_of_singleton in Hi. injection Hi as -> Hk. split; [done|munf; lia].
Qed.
