(* ===== verification/Memp.v ===== *)
(** * The memory pools (src/src/lwip/core/memp.c)

    Each pool is a singly linked list of free elements of one size, all
    carved out of one static array by memp_init. The configuration of opt.h:
    MEMP_MEM_MALLOC 0, MEMP_OVERFLOW_CHECK 0, MEMP_SANITY_CHECK 0 and
    MEMP_SEPARATE_POOLS 0, so MEMP_SIZE is 0 and the link to the next free
    element lies in the element's own first bytes. The number and the size of
    the elements of each pool (memp_std.h, which depends on the size of the C
    structs) is the argument [pools]; [memp_memory] is the array's address.
    An operation is protected by SYS_ARCH_PROTECT, so it is one step. *)
From S2P Require Import Prelude.

(** memp_num and memp_sizes of one pool *)
Record pool_desc := mk_pool { memp_num : Z; memp_size : Z }.

(** The link words of the elements and the head of each pool's free list. *)
Record memp_state := mk_memp { memp_next : gmap Z (option Z); memp_tab : list (option Z) }.

(** The inner loop of memp_init: the elements of one pool from [memp] on. *)
Fixpoint memp_carve (n : nat) (size memp : Z) (nx : gmap Z (option Z)) (tab : option Z)
  : gmap Z (option Z) * option Z * Z :=
  match n with
  | O => (nx, tab, memp)
  | S n => memp_carve n size (memp + size) (<[memp := tab]> nx) (Some memp)
  end.

Fixpoint memp_init_pools (pools : list pool_desc) (memp : Z) (nx : gmap Z (option Z))
  : gmap Z (option Z) * list (option Z) :=
  match pools with
  | [] => (nx, [])
  | d :: rest =>
      let '(nx, tab, memp) := memp_carve (Z.to_nat (memp_num d)) (memp_size d) memp nx None in
      let '(nx, tabs) := memp_init_pools rest memp nx in (nx, tab :: tabs)
  end.

Definition memp_init (pools : list pool_desc) (memp_memory : Z) : memp_state :=
  let '(nx, tabs) := memp_init_pools pools memp_memory ∅ in mk_memp nx tabs.

Definition memp_malloc (s : memp_state) (type : nat) : res (option Z * memp_state) :=
  match memp_tab s !! type with
  | None => Err AssertFailed
  | Some None => Ok (None, s)
  | Some (Some memp) =>
      let! nx := of_option BadAccess (memp_next s !! memp) in
      Ok (Some memp, mk_memp (memp_next s) (<[type := nx]> (memp_tab s)))
  end.

(** memp_free of a non-NULL element *)
Definition memp_free (s : memp_state) (type : nat) (mem : Z) : res memp_state :=
  match memp_tab s !! type with
  | None => Err BadAccess
  | Some tab => Ok (mk_memp (<[mem := tab]> (memp_next s)) (<[type := Some mem]> (memp_tab s)))
  end.

(** ** What a client relies on

    [pa_free_list m F]: the free elements of each pool are those of [F], in the
    order they will be handed out. [pa_elem t e]: [e] is an element of pool
    [t]; elements of different pools differ. *)
Definition upd {A} (t : nat) (a : A) (F : nat -> A) : nat -> A :=
  fun u => if decide (u = t) then a else F u.

Class PoolAlloc (M : Type) := {
  pa_malloc : M -> nat -> res (option Z * M);
  pa_free : M -> nat -> Z -> res M;
  pa_elem : nat -> Z -> Prop;
  pa_pools : nat;
  pa_free_list : M -> (nat -> list Z) -> Prop;
  pa_elem_pool t u e : pa_elem t e -> pa_elem u e -> t = u;
  pa_free_elem m F t e : pa_free_list m F -> e ∈ F t -> pa_elem t e;
  pa_free_NoDup m F t : pa_free_list m F -> NoDup (F t);
  pa_malloc_spec m F t : pa_free_list m F -> (t < pa_pools)%nat ->
    match F t with
    | [] => pa_malloc m t = Ok (None, m)
    | e :: l => exists m', pa_malloc m t = Ok (Some e, m') /\ pa_free_list m' (upd t l F)
    end;
  pa_free_spec m F t e : pa_free_list m F -> (t < pa_pools)%nat -> pa_elem t e -> e ∉ F t ->
    exists m', pa_free m t e = Ok m' /\ pa_free_list m' (upd t (e :: F t) F);
}.

(** ** Free lists *)

Fixpoint linked (nx : gmap Z (option Z)) (o : option Z) (l : list Z) : Prop :=
  match l with
  | [] => o = None
  | e :: l => o = Some e /\ exists n, nx !! e = Some n /\ linked nx n l
  end.

Lemma linked_insert_ne nx o l e v : e ∉ l -> linked nx o l -> linked (<[e := v]> nx) o l.
Proof.
  revert o. induction l as [|a l IH]; intros o He; [done|]. intros (-> & n & Hn & Hl).
  apply not_elem_of_cons in He as [Hne He]. split; [done|]. exists n.
  split; [by rewrite lookup_insert_ne|by apply IH].
Qed.

Section Memp.
Context (pools : list pool_desc) (memp_memory : Z).
(** An element can hold a [struct memp]: one 8-byte pointer. *)
Context (sizes_ok : Forall (fun d => 0 <= memp_num d /\ 8 <= memp_size d) pools).

(** The first address of pool [t]. *)
Definition pool_base (t : nat) : Z :=
  memp_memory + foldr Z.add 0 (map (fun d => memp_num d * memp_size d) (take t pools)).

Definition memp_elem (t : nat) (e : Z) : Prop :=
  exists d j, pools !! t = Some d /\ 0 <= j < memp_num d /\ e = pool_base t + j * memp_size d.

Definition memp_rep (s : memp_state) (F : nat -> list Z) : Prop :=
  length (memp_tab s) = length pools /\
  forall t, NoDup (F t) /\ (forall e, e ∈ F t -> memp_elem t e) /\
    forall o, memp_tab s !! t = Some o -> linked (memp_next s) o (F t).

Lemma pool_base_S t d : pools !! t = Some d -> pool_base (S t) = pool_base t + memp_num d * memp_size d.
Proof.
  intros Hd. unfold pool_base. rewrite (take_S_r _ _ d) by done.
  rewrite map_app, foldr_app. simpl.
  enough (forall l a, foldr Z.add a l = foldr Z.add 0 l + a) as -> by lia.
  induction l as [|x l IH]; intros a; simpl; [lia|rewrite IH; lia].
Qed.

Lemma pool_base_mono t u : (t <= u)%nat -> (u <= length pools)%nat -> pool_base t <= pool_base u.
Proof.
  intros Htu. induction Htu as [|u Htu IH]; [lia|]. intros Hu.
  destruct (lookup_lt_is_Some_2 pools u) as [d Hd]; [lia|].
  rewrite (pool_base_S _ _ Hd). rewrite Forall_lookup in sizes_ok.
  destruct (sizes_ok _ _ Hd). specialize (IH ltac:(lia)). nia.
Qed.

(** An element lies in the part of the array of its pool. *)
Lemma elem_range t d e : pools !! t = Some d -> memp_elem t e ->
  pool_base t <= e /\ e + memp_size d <= pool_base (S t).
Proof.
  intros Hd (d' & j & Hd' & Hj & ->). rewrite Hd in Hd'. injection Hd' as <-.
  rewrite (pool_base_S _ _ Hd). rewrite Forall_lookup in sizes_ok.
  destruct (sizes_ok _ _ Hd). nia.
Qed.

Lemma elem_lt t e : memp_elem t e -> (t < length pools)%nat.
Proof. intros (d & _ & Hd & _). by eapply lookup_lt_Some. Qed.

Lemma elem_pool_lt t u e : memp_elem t e -> memp_elem u e -> ~ (t < u)%nat.
Proof.
  intros Ht Hu Hlt. pose proof (elem_lt _ _ Hu).
  pose proof Ht as Ht2. destruct Ht2 as (d1 & j & Hd & _).
  pose proof Hu as Hu2. destruct Hu2 as (d2 & j2 & Hd2 & _).
  destruct (elem_range _ _ _ Hd Ht). destruct (elem_range _ _ _ Hd2 Hu).
  pose proof (pool_base_mono (S t) u ltac:(lia) ltac:(lia)).
  rewrite Forall_lookup in sizes_ok. destruct (sizes_ok _ _ Hd). lia.
Qed.

Lemma elem_pool t u e : memp_elem t e -> memp_elem u e -> t = u.
Proof.
  intros Ht Hu. pose proof (elem_pool_lt _ _ _ Ht Hu). pose proof (elem_pool_lt _ _ _ Hu Ht). lia.
Qed.

Lemma rep_linked s F t : memp_rep s F -> (t < length pools)%nat ->
  exists o, memp_tab s !! t = Some o /\ linked (memp_next s) o (F t).
Proof.
  intros [Hlen Hrep] Ht. destruct (lookup_lt_is_Some_2 (memp_tab s) t) as [o Ho]; [lia|].
  exists o. split; [done|]. by apply Hrep.
Qed.

Lemma memp_malloc_spec s F t : memp_rep s F -> (t < length pools)%nat ->
  match F t with
  | [] => memp_malloc s t = Ok (None, s)
  | e :: l => exists s', memp_malloc s t = Ok (Some e, s') /\ memp_rep s' (upd t l F)
  end.
Proof.
  intros Hrep Ht. destruct (rep_linked _ _ _ Hrep Ht) as (o & Ho & Hl).
  unfold memp_malloc. rewrite Ho. destruct Hrep as [Hlen Hrep].
  destruct (F t) as [|e l] eqn:HF; [by rewrite Hl|].
  destruct Hl as (-> & n & Hn & Hl). rewrite Hn. simpl. eexists. split; [done|].
  split; [by simpl; rewrite length_insert|]. intros u. unfold upd. simpl.
  destruct (Hrep u) as (Hnd & Hel & Hlk). case_decide as Hu.
  - subst u. rewrite HF in *. apply NoDup_cons in Hnd as [_ Hnd]. split_and!; [done| |].
    + intros a Ha. apply Hel. by right.
    + intros o' Ho'. rewrite list_lookup_insert_eq in Ho' by lia. by injection Ho' as <-.
  - split_and!; [done|done|]. intros o' Ho'. rewrite list_lookup_insert_ne in Ho' by done. by apply Hlk.
Qed.

Lemma memp_free_spec s F t e : memp_rep s F -> (t < length pools)%nat -> memp_elem t e -> e ∉ F t ->
  exists s', memp_free s t e = Ok s' /\ memp_rep s' (upd t (e :: F t) F).
Proof.
  intros Hrep Ht He Hnew. destruct (rep_linked _ _ _ Hrep Ht) as (o & Ho & Hl).
  unfold memp_free. rewrite Ho. destruct Hrep as [Hlen Hrep]. eexists. split; [done|].
  split; [by simpl; rewrite length_insert|]. intros u. unfold upd. simpl.
  destruct (Hrep u) as (Hnd & Hel & Hlk). case_decide as Hu.
  - subst u. split_and!; [by apply NoDup_cons|intros a [->|Ha]%elem_of_cons; [done|by apply Hel]|].
    intros o' Ho'. rewrite list_lookup_insert_eq in Ho' by lia. injection Ho' as <-.
    split; [done|]. exists o. by rewrite lookup_insert_eq; split; [|apply linked_insert_ne].
  - split_and!; [done|done|]. intros o' Ho'. rewrite list_lookup_insert_ne in Ho' by done.
    apply linked_insert_ne; [|by apply Hlk]. intros Hin. apply Hel in Hin.
    by apply Hu, (elem_pool _ _ _ Hin He).
Qed.

(** *** Initialisation *)

(** The elements of a pool in the order memp_init links them: the last one
    first. *)
Fixpoint carved (n : nat) (size memp : Z) (acc : list Z) : list Z :=
  match n with
  | O => acc
  | S n => carved n size (memp + size) (memp :: acc)
  end.

Lemma elem_of_carved n size memp acc e : e ∈ carved n size memp acc <->
  e ∈ acc \/ exists j, 0 <= j < Z.of_nat n /\ e = memp + j * size.
Proof.
  revert memp acc. induction n as [|n IH]; intros memp acc; simpl.
  - split; [by left|]. intros [?|(j & ? & _)]; [done|lia].
  - rewrite IH, elem_of_cons. split.
    + intros [[->|?]|(j & Hj & ->)]; [right; exists 0; lia|by left|right; exists (j + 1); lia].
    + intros [?|(j & Hj & ->)]; [by auto|]. destruct (decide (j = 0)) as [->|]; [left; left; lia|].
      right. exists (j - 1). lia.
Qed.

Lemma NoDup_carved n size memp acc : 0 < size -> NoDup acc -> (forall e, e ∈ acc -> e < memp) ->
  NoDup (carved n size memp acc).
Proof.
  revert memp acc. induction n as [|n IH]; intros memp acc Hs Hnd Hlt; simpl; [done|].
  apply IH; [done| |].
  - apply NoDup_cons. split; [|done]. intros Hin. apply Hlt in Hin. lia.
  - intros e [->|He]%elem_of_cons; [lia|]. apply Hlt in He. lia.
Qed.

Lemma memp_carve_spec n size : forall memp nx tab acc, 0 < size ->
  linked nx tab acc -> (forall e, e ∈ acc -> e < memp) ->
  exists nx' tab', memp_carve n size memp nx tab = (nx', tab', memp + Z.of_nat n * size) /\
    linked nx' tab' (carved n size memp acc) /\
    forall e, e < memp \/ memp + Z.of_nat n * size <= e -> nx' !! e = nx !! e.
Proof.
  induction n as [|n IH]; intros memp nx tab acc Hs Hl Hlt; cbn [memp_carve carved].
  - exists nx, tab. split_and!; [f_equal; lia|done|done].
  - destruct (IH (memp + size) (<[memp:=tab]> nx) (Some memp) (memp :: acc)) as (nx' & tab' & -> & Hl' & Hout);
      [done| | |].
    + split; [done|]. exists tab. rewrite lookup_insert_eq. split; [done|].
      apply linked_insert_ne; [|done]. intros Hin. apply Hlt in Hin. lia.
    + intros e [->|He]%elem_of_cons; [lia|]. apply Hlt in He. lia.
    + exists nx', tab'. split_and!; [f_equal; lia|done|]. intros e He.
      rewrite Hout by nia. rewrite lookup_insert_ne; [done|nia].
Qed.

Lemma linked_ext nx nx' o l : (forall e, e ∈ l -> nx' !! e = nx !! e) -> linked nx o l -> linked nx' o l.
Proof.
  revert o. induction l as [|a l IH]; intros o He; [done|]. intros (-> & n & Hn & Hl). split; [done|].
  exists n. rewrite He by (by left). split; [done|]. apply IH; [|done]. intros e Hin. apply He. by right.
Qed.

Definition carved_pool (t : nat) (d : pool_desc) : list Z :=
  carved (Z.to_nat (memp_num d)) (memp_size d) (pool_base t) [].

Lemma elem_of_carved_pool t d e : pools !! t = Some d -> e ∈ carved_pool t d <-> memp_elem t e.
Proof.
  intros Hd. unfold carved_pool. rewrite elem_of_carved. pose proof sizes_ok as Hok.
  rewrite Forall_lookup in Hok. destruct (Hok _ _ Hd) as [H1 H2]. unfold memp_elem. split.
  - intros [Hin|(j & Hj & ->)]; [by apply not_elem_of_nil in Hin|]. exists d, j. split_and!; [done|lia..].
  - intros (d' & j & Hd' & Hj & ->). rewrite Hd in Hd'. injection Hd' as <-. right. exists j. lia.
Qed.

(** The loop of memp_init over the pools from [t] on. *)
Lemma memp_init_pools_spec rest : forall t nx, pools = take t pools ++ rest -> (t + length rest = length pools)%nat ->
  exists nx' tabs, memp_init_pools rest (pool_base t) nx = (nx', tabs) /\ length tabs = length rest /\
    (forall e, e < pool_base t -> nx' !! e = nx !! e) /\
    forall k o, tabs !! k = Some o -> exists d, pools !! (t + k)%nat = Some d /\ linked nx' o (carved_pool (t + k) d).
Proof.
  induction rest as [|d rest IH]; intros t nx Hsplit Hlen; cbn [memp_init_pools].
  - exists nx, []. split_and!; done.
  - assert (Hd : pools !! t = Some d).
    { rewrite Hsplit, lookup_app_r, length_take by (rewrite length_take; lia).
      replace (t - t `min` length pools)%nat with O by (simpl in Hlen; lia). done. }
    pose proof sizes_ok as Hok. rewrite Forall_lookup in Hok. destruct (Hok _ _ Hd) as [H1 H2].
    destruct (memp_carve_spec (Z.to_nat (memp_num d)) (memp_size d) (pool_base t) nx None [])
      as (nx1 & tab & -> & Hl & Hout); [lia|done|by intros ? ?%not_elem_of_nil|].
    rewrite Z2Nat.id by done. rewrite <- (pool_base_S _ _ Hd).
    destruct (IH (S t) nx1) as (nx' & tabs & -> & Hlt & Hlow & Htabs);
      [by rewrite (take_S_r _ _ d), <- app_assoc by done|simpl in Hlen; lia|].
    exists nx', (tab :: tabs). split_and!; [done|simpl; lia| |].
    + intros e He. rewrite Hlow; [apply Hout; by left|]. rewrite (pool_base_S _ _ Hd). nia.
    + intros [|k] o Hk.
      * injection Hk as <-. rewrite Nat.add_0_r. exists d. split; [done|].
        eapply linked_ext; [|exact Hl]. intros e He. apply Hlow.
        apply (elem_of_carved_pool t d e Hd) in He. destruct (elem_range _ _ _ Hd He). lia.
      * destruct (Htabs k o Hk) as (d' & Hd' & Hl'). exists d'. by rewrite Nat.add_succ_r.
Qed.

Definition init_lists (t : nat) : list Z :=
  match pools !! t with Some d => carved_pool t d | None => [] end.

Lemma memp_init_rep : memp_rep (memp_init pools memp_memory) init_lists.
Proof.
  destruct (memp_init_pools_spec pools 0 ∅) as (nx & tabs & Hi & Hlen & _ & Htabs); [done|done|].
  unfold memp_init. assert (Hb : pool_base 0 = memp_memory) by (unfold pool_base; simpl; lia).
  rewrite Hb in Hi. rewrite Hi. split; [done|]. intros t. unfold init_lists.
  destruct (pools !! t) as [d|] eqn:Hd.
  - pose proof sizes_ok as Hok. rewrite Forall_lookup in Hok. destruct (Hok _ _ Hd) as [H1 H2].
    split_and!.
    + apply NoDup_carved; [lia|apply NoDup_nil_2|by intros ? ?%not_elem_of_nil].
    + intros e He. by apply (elem_of_carved_pool t d e Hd).
    + intros o Ho. destruct (Htabs t o Ho) as (d' & Hd' & Hl). simpl in Hd'.
      rewrite Hd in Hd'. by injection Hd' as <-.
  - split_and!; [apply NoDup_nil_2|by intros ? ?%not_elem_of_nil|]. intros o Ho.
    destruct (Htabs t o Ho) as (d' & Hd' & _). simpl in Hd'. congruence.
Qed.

(** The pools implement the interface. *)
#[export] Program Instance memp_pool_alloc : PoolAlloc memp_state := {|
  pa_malloc := memp_malloc; pa_free := memp_free; pa_elem := memp_elem; pa_pools := length pools;
  pa_free_list := memp_rep; pa_elem_pool := elem_pool; pa_malloc_spec := memp_malloc_spec;
  pa_free_spec := memp_free_spec;
|}.
Next Obligation. intros m F t e [_ Hrep] He. by apply (Hrep t). Qed.
Next Obligation. intros m F t [_ Hrep]. by apply (Hrep t). Qed.
End Memp.

(** memp_init gives every pool its full number of elements: the free list
    of pool [t] holds every element of the pool exactly once, no two elements
    of any pools overlap, and all of them lie in the array. From there on
    memp_malloc hands out the head of the pool's list (NULL, and nothing
    changes, when it is empty) and memp_free puts an element that is not free
    back in front, and neither touches the list of another pool: a pool never
    hands out an element twice. *)
Theorem memp_correct pools base : Forall (fun d => 0 <= memp_num d /\ 8 <= memp_size d) pools ->
  (exists F, memp_rep pools base (memp_init pools base) F /\
     forall t d, pools !! t = Some d -> zlen (F t) = memp_num d /\ NoDup (F t)) /\
  (forall t u d d' e e', pools !! t = Some d -> pools !! u = Some d' ->
     memp_elem pools base t e -> memp_elem pools base u e' -> (t, e) <> (u, e') ->
     e + memp_size d <= e' \/ e' + memp_size d' <= e) /\
  (forall s F t, memp_rep pools base s F -> (t < length pools)%nat ->
     match F t with
     | [] => memp_malloc s t = Ok (None, s)
     | e :: l => (e ∉ l) /\ exists s', memp_malloc s t = Ok (Some e, s') /\ memp_rep pools base s' (upd t l F)
     end) /\
  (forall s F t e, memp_rep pools base s F -> memp_elem pools base t e -> e ∉ F t ->
     exists s', memp_free s t e = Ok s' /\ memp_rep pools base s' (upd t (e :: F t) F)).
Proof.
  intros Hok. split_and!.
  - exists (init_lists pools base). split; [by apply memp_init_rep|]. intros t d Hd.
    pose proof (memp_init_rep pools base Hok) as [_ Hrep]. destruct (Hrep t) as (Hnd & _).
    split; [|done]. unfold init_lists. rewrite Hd.
    enough (forall n size memp acc, length (carved n size memp acc) = (n + length acc)%nat) as Hlen.
    { unfold carved_pool, zlen. rewrite Hlen. simpl. rewrite Forall_lookup in Hok. destruct (Hok _ _ Hd). lia. }
    induction n as [|n IH]; intros size memp acc; simpl; [done|]. rewrite IH. simpl. lia.
  - intros t u d d' e e' Hd Hd' He He' Hne. destruct (decide (t = u)) as [<-|Htu].
    + rewrite Hd in Hd'. injection Hd' as <-. destruct He as (d1 & j & Hd1 & Hj & ->).
      destruct He' as (d2 & j' & Hd2 & Hj' & ->). rewrite Hd in Hd1, Hd2. injection Hd1 as <-. injection Hd2 as <-.
      rewrite Forall_lookup in Hok. destruct (Hok _ _ Hd) as [_ Hs].
      destruct (decide (j = j')) as [<-|]; [congruence|]. nia.
    + destruct (elem_range _ _ Hok _ _ _ Hd He), (elem_range _ _ Hok _ _ _ Hd' He').
      pose proof (elem_lt _ _ _ _ He). pose proof (elem_lt _ _ _ _ He').
      destruct (decide (t < u)%nat).
      * pose proof (pool_base_mono _ base Hok (S t) u). lia.
      * pose proof (pool_base_mono _ base Hok (S u) t). lia.
  - intros s F t Hrep Ht. pose proof (memp_malloc_spec _ _ s F t Hrep Ht) as Hm.
    destruct Hrep as [_ Hrep]. destruct (Hrep t) as (Hnd & _). destruct (F t); [done|].
    apply NoDup_cons in Hnd. tauto.
  - intros s F t e Hrep He Hnew. pose proof (elem_lt _ _ _ _ He). by apply memp_free_spec.
Qed.

Lemma memp_correct_witness : exists s F, memp_rep [mk_pool 2 16; mk_pool 1 40] 1000 s F /\
  memp_malloc s 0 = Ok (Some 1016, mk_memp (memp_next s) [Some 1000; Some 1032]).
Proof.
  destruct (memp_correct [mk_pool 2 16; mk_pool 1 40] 1000) as ((F & Hrep & _) & _).
  - repeat constructor; simpl; lia.
  - eexists _, F. split; [exact Hrep|reflexivity].
Defined.
