(* ===== verification/Pbuf.v ===== *)
(** * Packet buffers (src/src/lwip/core/pbuf.c)

    A packet is a chain of pbufs. The pbufs are the cells of a store keyed by
    pointer; the bytes they refer to are blocks of memory keyed by the object
    that holds them, so that two pbufs can share a payload, a pbuf can point
    into a buffer of the caller, and an access outside a block is an error.
    The heap (mem.c) and the pools (memp.c) are used through the interfaces of
    Mem.v and Memp.v. The configuration of opt.h: MEM_ALIGNMENT 1,
    LWIP_SUPPORT_CUSTOM_PBUF 1 (its only user is ip_frag.c), LP64 (struct pbuf
    has 24 bytes), PBUF_POOL_BUFSIZE 1078. LWIP_ERROR aborts like LWIP_ASSERT. *)
From S2P Require Import Prelude Mem Memp.

(** Where a pbuf lives: the heap or an element of a pool. *)
Inductive ptr := RamPtr (addr : Z) | MempPtr (pool : nat) (elem : Z).
#[export] Instance ptr_eq_dec : EqDecision ptr.
Proof. solve_decision. Defined.
#[export] Program Instance ptr_countable : Countable ptr :=
  inj_countable' (fun p => match p with RamPtr a => inl a | MempPtr t e => inr (t, e) end)
    (fun s => match s with inl a => RamPtr a | inr (t, e) => MempPtr t e end) _.
Next Obligation. by intros []. Qed.

(** A block of bytes: the memory behind a struct pbuf in the same object, or
    some other buffer. *)
Inductive blk := Own (p : ptr) | Ext (id : Z).
#[export] Instance blk_eq_dec : EqDecision blk.
Proof. solve_decision. Defined.
#[export] Program Instance blk_countable : Countable blk :=
  inj_countable' (fun b => match b with Own p => inl p | Ext i => inr i end)
    (fun s => match s with inl p => Own p | inr i => Ext i end) _.
Next Obligation. by intros []. Qed.

Inductive pbuf_layer := PBUF_TRANSPORT | PBUF_IP | PBUF_LINK | PBUF_RAW.
Inductive pbuf_type := PBUF_RAM | PBUF_ROM | PBUF_REF | PBUF_POOL.
#[export] Instance pbuf_type_eq_dec : EqDecision pbuf_type.
Proof. solve_decision. Defined.

Definition PBUF_FLAG_PUSH : Z := 0x01.
Definition PBUF_FLAG_IS_CUSTOM : Z := 0x02.
Definition PBUF_FLAG_MCASTLOOP : Z := 0x04.
Definition PBUF_FLAG_LLBCAST : Z := 0x08.
Definition PBUF_FLAG_LLMCAST : Z := 0x10.
Definition PBUF_FLAG_TCP_FIN : Z := 0x20.

(** struct pbuf. The payload is a block and an offset into it; the offset into
    [Own p] counts from the end of the struct. [p_orig] is the field
    [original] of the struct pbuf_custom_ref around a custom pbuf. *)
Record pbuf := mk_pbuf {
  p_next : option ptr;
  p_payload : option (blk * Z);
  p_tot_len : Z;
  p_len : Z;
  p_type : pbuf_type;
  p_flags : Z;
  p_ref : Z;
  p_orig : option ptr
}.

Definition set_pnext n c := mk_pbuf n (p_payload c) (p_tot_len c) (p_len c) (p_type c) (p_flags c) (p_ref c) (p_orig c).
Definition set_payload l c := mk_pbuf (p_next c) l (p_tot_len c) (p_len c) (p_type c) (p_flags c) (p_ref c) (p_orig c).
Definition set_tot_len n c := mk_pbuf (p_next c) (p_payload c) n (p_len c) (p_type c) (p_flags c) (p_ref c) (p_orig c).
Definition set_len n c := mk_pbuf (p_next c) (p_payload c) (p_tot_len c) n (p_type c) (p_flags c) (p_ref c) (p_orig c).
Definition set_flags n c := mk_pbuf (p_next c) (p_payload c) (p_tot_len c) (p_len c) (p_type c) n (p_ref c) (p_orig c).
Definition set_ref n c := mk_pbuf (p_next c) (p_payload c) (p_tot_len c) (p_len c) (p_type c) (p_flags c) n (p_orig c).

(** Static memory is zero. *)
Definition zero_pbuf : pbuf := mk_pbuf None None 0 0 PBUF_RAM 0 0 None.

Definition SIZEOF_STRUCT_PBUF : Z := 24.
Definition PBUF_LINK_HLEN : Z := 14.
Definition PBUF_IP_HLEN : Z := 20.
Definition PBUF_TRANSPORT_HLEN : Z := 20.
Definition PBUF_POOL_BUFSIZE : Z := 1078.

(** The indices of the pools in memp_std.h, with every option at its default. *)
Definition MEMP_FRAG_PBUF : nat := 6.
Definition MEMP_PBUF : nat := 12.
Definition MEMP_PBUF_POOL : nat := 13.

Definition layer_offset (layer : pbuf_layer) : Z :=
  match layer with
  | PBUF_TRANSPORT => PBUF_LINK_HLEN + PBUF_IP_HLEN + PBUF_TRANSPORT_HLEN
  | PBUF_IP => PBUF_LINK_HLEN + PBUF_IP_HLEN
  | PBUF_LINK => PBUF_LINK_HLEN
  | PBUF_RAW => 0
  end.

(** ** Bytes *)

Definition splice (pos : Z) (w bs : list Z) : list Z :=
  take (Z.to_nat pos) bs ++ w ++ drop (Z.to_nat pos + length w) bs.

(** The [n] bytes at [loc + off]; copying no byte touches no memory. *)
Definition read_bytes (d : gmap blk (list Z)) (loc : option (blk * Z)) (off n : Z) : res (list Z) :=
  if n =? 0 then Ok [] else
  let! (b, o) := of_option BadAccess loc in
  let! bs := of_option BadAccess (d !! b) in
  if (0 <=? o + off) && (0 <=? n) && (o + off + n <=? zlen bs) then Ok (slice (o + off) n bs)
  else Err BadAccess.

Definition write_bytes (d : gmap blk (list Z)) (loc : option (blk * Z)) (off : Z) (w : list Z)
  : res (gmap blk (list Z)) :=
  if zlen w =? 0 then Ok d else
  let! (b, o) := of_option BadAccess loc in
  let! bs := of_option BadAccess (d !! b) in
  if (0 <=? o + off) && (o + off + zlen w <=? zlen bs) then Ok (<[b := splice (o + off) w bs]> d)
  else Err BadAccess.

Section Pbuf.
Context {H M : Type} `{RA : !RamAlloc H} `{PA : !PoolAlloc M}.
(** The byte the heap's array happens to hold at an offset when it is handed
    out. *)
Context (junk : Z -> Z).

(** The pbufs in use, what freed pool elements still hold, the bytes, the heap
    and the pools. *)
Record pstate := mk_ps {
  cells : gmap ptr pbuf;
  stale : gmap ptr pbuf;
  data : gmap blk (list Z);
  heap : H;
  pools : M
}.

Definition set_cells m s := mk_ps m (stale s) (data s) (heap s) (pools s).
Definition set_data d s := mk_ps (cells s) (stale s) d (heap s) (pools s).

Definition cell (s : pstate) (p : ptr) : res pbuf := of_option BadAccess (cells s !! p).
Definition put (s : pstate) (p : ptr) (c : pbuf) : pstate := set_cells (<[p := c]> (cells s)) s.

(** A bound on the length of a loop along [next] pointers that ends. *)
Definition walk (s : pstate) : nat := S (size (cells s)).

(** [memp_malloc] of a pbuf: the element with what it held before. *)
Definition memp_malloc_pbuf (s : pstate) (t : nat) : res (option (ptr * pbuf) * pstate) :=
  let! (o, m) := pa_malloc (pools s) t in
  match o with
  | None => Ok (None, s)
  | Some e => let p := MempPtr t e in
      Ok (Some (p, default zero_pbuf (stale s !! p)), mk_ps (cells s) (stale s) (data s) (heap s) m)
  end.

(** [memp_free] and [mem_free] of a pbuf. *)
Definition memp_free_pbuf (s : pstate) (t : nat) (p : ptr) : res pstate :=
  match p with
  | MempPtr u e =>
      if decide (u = t) then
        let! c := cell s p in
        let! m := pa_free (pools s) t e in
        Ok (mk_ps (delete p (cells s)) (<[p := c]> (stale s)) (data s) (heap s) m)
      else Err BadAccess
  | RamPtr _ => Err BadAccess
  end.

Definition mem_free_pbuf (s : pstate) (p : ptr) : res pstate :=
  match p with
  | RamPtr a =>
      let! h := ra_free (heap s) a in
      Ok (mk_ps (delete p (cells s)) (stale s) (delete (Own p) (data s)) h (pools s))
  | MempPtr _ _ => Err BadAccess
  end.

(** ** Operations *)

(** pbuf_free's loop. A custom pbuf is released by its custom_free_function,
    which is ipfrag_free_pbuf_custom of ip_frag.c: it frees the original pbuf
    and puts the struct back. *)
Fixpoint pbuf_free_loop (fuel : nat) (s : pstate) (o : option ptr) (count : Z) : res (Z * pstate) :=
  match o with
  | None => Ok (count, s)
  | Some p =>
    match fuel with
    | O => Err OutOfFuel
    | S fuel =>
        let! c := cell s p in
        assert! p_ref c >? 0 in
        let ref := p_ref c - 1 in
        let s := put s p (set_ref ref c) in
        if ref =? 0 then
          let q := p_next c in
          let! s :=
            (if has_flag (p_flags c) PBUF_FLAG_IS_CUSTOM then
               let! s := (match p_orig c with
                          | Some _ => let! (_, s) := pbuf_free_loop fuel s (p_orig c) 0 in Ok s
                          | None => Ok s
                          end) in
               memp_free_pbuf s MEMP_FRAG_PBUF p
             else match p_type c with
                  | PBUF_POOL => memp_free_pbuf s MEMP_PBUF_POOL p
                  | PBUF_ROM | PBUF_REF => memp_free_pbuf s MEMP_PBUF p
                  | PBUF_RAM => mem_free_pbuf s p
                  end) in
          pbuf_free_loop fuel s q (u8 (count + 1))
        else Ok (count, s)
    end
  end.

Definition pbuf_free (s : pstate) (p : option ptr) : res (Z * pstate) :=
  match p with
  | None => Err AssertFailed
  | Some _ => pbuf_free_loop (walk s) s p 0
  end.

(** The loop of pbuf_alloc that adds pool pbufs behind [r] until [rem_len]
    bytes are there; [None] when the pool ran out and the chain was freed. A
    u16_t length needs at most 61 pbufs. *)
Definition pool_fuel : nat := 64.

Fixpoint pool_tail (fuel : nat) (s : pstate) (p r : ptr) (rem_len : Z) : res (option ptr * pstate) :=
  if rem_len >? 0 then
    match fuel with
    | O => Err OutOfFuel
    | S fuel =>
        let! (o, s) := memp_malloc_pbuf s MEMP_PBUF_POOL in
        match o with
        | None => let! (_, s) := pbuf_free s (Some p) in Ok (None, s)
        | Some (q, _) =>
            let! rc := cell s r in
            let s := put s r (set_pnext (Some q) rc) in
            assert! rem_len <? 0xffff in
            let len := Z.min (u16 rem_len) PBUF_POOL_BUFSIZE in
            let s := put s q (mk_pbuf None (Some (Own q, 0)) (u16 rem_len) len PBUF_POOL 0 1 None) in
            let! pc := cell s p in
            let! (_, o) := of_option BadAccess (p_payload pc) in
            assert! o + p_len pc <=? PBUF_POOL_BUFSIZE in
            pool_tail fuel s p q (rem_len - len)
        end
    end
  else Ok (Some p, s).

Definition pbuf_alloc (s : pstate) (layer : pbuf_layer) (length : Z) (type : pbuf_type)
  : res (option ptr * pstate) :=
  let offset := layer_offset layer in
  match type with
  | PBUF_POOL =>
      let! (o, s) := memp_malloc_pbuf s MEMP_PBUF_POOL in
      match o with
      | None => Ok (None, s)
      | Some (p, old) =>
          let len := Z.min length (PBUF_POOL_BUFSIZE - offset) in
          (* the flags are still what the element held before *)
          let s := put s p (mk_pbuf None (Some (Own p, offset)) length len PBUF_POOL (p_flags old) 1 (p_orig old)) in
          assert! offset + len <=? PBUF_POOL_BUFSIZE in
          assert! PBUF_POOL_BUFSIZE - offset >? 0 in
          let! (o, s) := pool_tail pool_fuel s p p (length - len) in
          match o with
          | None => Ok (None, s)
          | Some p =>
              let! c := cell s p in
              Ok (Some p, put s p (set_flags 0 (set_ref 1 c)))
          end
      end
  | PBUF_RAM =>
      let size := u16 (SIZEOF_STRUCT_PBUF + offset + length) in
      let! (o, h) := ra_malloc (heap s) size in
      match o with
      | None => Ok (None, mk_ps (cells s) (stale s) (data s) h (pools s))
      | Some a =>
          (* the struct must fit where it is written *)
          if size <? SIZEOF_STRUCT_PBUF then Err BadAccess else
          let p := RamPtr a in
          let fresh := map (fun i => junk (a + SIZEOF_STRUCT_PBUF + Z.of_nat i)) (seq 0 (Z.to_nat (size - SIZEOF_STRUCT_PBUF))) in
          let c := mk_pbuf None (Some (Own p, offset)) length length PBUF_RAM 0 1 None in
          Ok (Some p, mk_ps (<[p := c]> (cells s)) (stale s) (<[Own p := fresh]> (data s)) h (pools s))
      end
  | PBUF_ROM | PBUF_REF =>
      let! (o, s) := memp_malloc_pbuf s MEMP_PBUF in
      match o with
      | None => Ok (None, s)
      | Some (p, old) => Ok (Some p, put s p (mk_pbuf None None length length type 0 1 (p_orig old)))
      end
  end.

(** pbuf_alloced_custom on the struct pbuf_custom_ref at [p], whose original
    field is set. *)
Definition pbuf_alloced_custom (s : pstate) (l : pbuf_layer) (length : Z) (type : pbuf_type)
    (p : ptr) (orig : option ptr) (payload_mem : option (blk * Z)) (payload_mem_len : Z) : option ptr * pstate :=
  let offset := layer_offset l in
  if offset + length >? payload_mem_len then (None, s) else
  let payload := match payload_mem with Some (b, o) => Some (b, o + offset) | None => None end in
  (Some p, put s p (mk_pbuf None payload length length type PBUF_FLAG_IS_CUSTOM 1 orig)).

(** The loop of pbuf_realloc to the new last pbuf. *)
Fixpoint realloc_walk (fuel : nat) (s : pstate) (q : ptr) (rem_len grow : Z) : res (ptr * Z * pstate) :=
  match fuel with
  | O => Err OutOfFuel
  | S fuel =>
      let! c := cell s q in
      if rem_len >? p_len c then
        assert! grow <? 0xffff in
        let s := put s q (set_tot_len (u16 (p_tot_len c + u16 grow)) c) in
        let! q := of_option AssertFailed (p_next c) in
        realloc_walk fuel s q (rem_len - p_len c) grow
      else Ok (q, rem_len, s)
  end.

(** [mem_trim] of the pbuf [q] to [newsize] bytes, struct included. *)
Definition mem_trim_pbuf (s : pstate) (q : ptr) (newsize : Z) : res pstate :=
  match q with
  | RamPtr a =>
      let! (o, h) := ra_trim (heap s) a newsize in
      let! a' := of_option AssertFailed o in
      let! bs := of_option BadAccess (data s !! Own q) in
      if decide (a' = a) then
        Ok (mk_ps (cells s) (stale s) (<[Own q := take (Z.to_nat (newsize - SIZEOF_STRUCT_PBUF)) bs]> (data s)) h (pools s))
      else Err BadAccess
  | MempPtr _ _ => Err BadAccess
  end.

(** The offset of the payload from the pbuf. *)
Definition payload_off (q : ptr) (c : pbuf) : res Z :=
  match p_payload c with
  | Some (b, o) => if decide (b = Own q) then Ok (SIZEOF_STRUCT_PBUF + o) else Err BadAccess
  | None => Err BadAccess
  end.

Definition pbuf_realloc (s : pstate) (p : ptr) (new_len : Z) : res pstate :=
  let! c := cell s p in
  if new_len >=? p_tot_len c then Ok s else
  let grow := new_len - p_tot_len c in
  let! (q, rem_len, s) := realloc_walk (walk s) s p new_len grow in
  let! c := cell s q in
  let! s := (if bool_decide (p_type c = PBUF_RAM) && negb (rem_len =? p_len c) then
               let! off := payload_off q c in
               mem_trim_pbuf s q (u16 (u16 off + rem_len))
             else Ok s) in
  let s := put s q (set_tot_len rem_len (set_len rem_len c)) in
  let! s := (match p_next c with
             | Some _ => let! (_, s) := pbuf_free s (p_next c) in Ok s
             | None => Ok s
             end) in
  let! c := cell s q in
  Ok (put s q (set_pnext None c)).

(** pbuf_header by an s16_t; [true] is the non-zero return of a failure. *)
Definition pbuf_header (s : pstate) (p : ptr) (inc : Z) : res (bool * pstate) :=
  if inc =? 0 then Ok (false, s) else
  let! c := cell s p in
  let mag := u16 (Z.abs inc) in
  assert! (inc >=? 0) || (mag <=? p_len c) in
  let done payload :=
    Ok (false, put s p (set_payload payload
          (set_len (u16 (p_len c + inc)) (set_tot_len (u16 (p_tot_len c + inc)) c)))) in
  match p_type c with
  | PBUF_RAM | PBUF_POOL =>
      let! off := payload_off p c in
      let off := off - inc in
      if off <? SIZEOF_STRUCT_PBUF then Ok (true, s) else done (Some (Own p, off - SIZEOF_STRUCT_PBUF))
  | PBUF_REF | PBUF_ROM =>
      if (inc <? 0) && (mag <=? p_len c) then
        let! (b, o) := of_option BadAccess (p_payload c) in
        done (Some (b, o - inc))
      else Ok (true, s)
  end.

Fixpoint clen_loop (fuel : nat) (s : pstate) (o : option ptr) (len : Z) : res Z :=
  match o with
  | None => Ok len
  | Some p =>
    match fuel with
    | O => Err OutOfFuel
    | S fuel => let! c := cell s p in clen_loop fuel s (p_next c) (u8 (len + 1))
    end
  end.
Definition pbuf_clen (s : pstate) (p : option ptr) : res Z := clen_loop (walk s) s p 0.

Definition pbuf_ref (s : pstate) (p : option ptr) : res pstate :=
  match p with
  | None => Ok s
  | Some p => let! c := cell s p in Ok (put s p (set_ref (u16 (p_ref c + 1)) c))
  end.

(** The loop of pbuf_cat: every pbuf of the head grows by the tail's length. *)
Fixpoint cat_walk (fuel : nat) (s : pstate) (p t : ptr) : res (ptr * pstate) :=
  match fuel with
  | O => Err OutOfFuel
  | S fuel =>
      let! c := cell s p in
      match p_next c with
      | Some n =>
          let! tc := cell s t in
          cat_walk fuel (put s p (set_tot_len (u16 (p_tot_len c + p_tot_len tc)) c)) n t
      | None => Ok (p, s)
      end
  end.

Definition pbuf_cat (s : pstate) (h t : ptr) : res pstate :=
  let! (p, s) := cat_walk (walk s) s h t in
  let! c := cell s p in
  assert! p_tot_len c =? p_len c in
  let! tc := cell s t in
  Ok (put s p (set_pnext (Some t) (set_tot_len (u16 (p_tot_len c + p_tot_len tc)) c))).

Definition pbuf_chain (s : pstate) (h t : ptr) : res pstate :=
  let! s := pbuf_cat s h t in pbuf_ref s (Some t).

Definition pbuf_dechain (s : pstate) (p : ptr) : res (option ptr * pstate) :=
  let! c := cell s p in
  let! (tail_gone, s) :=
    (match p_next c with
     | None => Ok (1, s)
     | Some q =>
         let! qc := cell s q in
         assert! p_tot_len qc =? p_tot_len c - p_len c in
         let s := put s q (set_tot_len (u16 (p_tot_len c - p_len c)) qc) in
         let s := put s p (set_pnext None (set_tot_len (p_len c) c)) in
         pbuf_free s (Some q)
     end) in
  let! c' := cell s p in
  assert! p_tot_len c' =? p_len c' in
  Ok (if tail_gone >? 0 then None else p_next c, s).

(** The do-while loop of pbuf_copy; a round finishes a pbuf of one side. *)
Fixpoint copy_loop (fuel : nat) (s : pstate) (p_to p_from : ptr) (offset_to offset_from : Z) : res (err_t * pstate) :=
  match fuel with
  | O => Err OutOfFuel
  | S fuel =>
      let! ct := cell s p_to in
      let! cf := cell s p_from in
      let len := if p_len ct - offset_to >=? p_len cf - offset_from
                 then u16 (p_len cf - offset_from) else u16 (p_len ct - offset_to) in
      let! bs := read_bytes (data s) (p_payload cf) offset_from len in
      let! d := write_bytes (data s) (p_payload ct) offset_to bs in
      let s := set_data d s in
      let offset_to := u16 (offset_to + len) in
      let offset_from := u16 (offset_from + len) in
      assert! offset_to <=? p_len ct in
      assert! offset_from <=? p_len cf in
      let '(o_from, offset_from) := if offset_from >=? p_len cf then (p_next cf, 0) else (Some p_from, offset_from) in
      let '(o_to, offset_to) := if offset_to =? p_len ct then (p_next ct, 0) else (Some p_to, offset_to) in
      assert! match o_to, o_from with None, Some _ => false | _, _ => true end in
      let! _ := (match o_from with
                 | Some f => let! c := cell s f in
                     lwip_assert (negb (p_len c =? p_tot_len c) || bool_decide (p_next c = None))
                 | None => Ok tt end) in
      let! _ := (match o_to with
                 | Some t => let! c := cell s t in
                     lwip_assert (negb (p_len c =? p_tot_len c) || bool_decide (p_next c = None))
                 | None => Ok tt end) in
      match o_from, o_to with
      | None, _ => Ok (ERR_OK, s)
      | Some f, Some t => copy_loop fuel s t f offset_to offset_from
      | Some _, None => Err AssertFailed
      end
  end.

Definition pbuf_copy (s : pstate) (p_to p_from : ptr) : res (err_t * pstate) :=
  let! ct := cell s p_to in
  let! cf := cell s p_from in
  assert! p_tot_len ct >=? p_tot_len cf in
  copy_loop (2 * walk s) s p_to p_from 0 0.

(** pbuf_copy_partial: the bytes it writes to [dataptr], whose number it
    returns. *)
Fixpoint copy_partial_loop (fuel : nat) (s : pstate) (o : option ptr) (len offset : Z) : res (list Z) :=
  match o with
  | Some p =>
    if len =? 0 then Ok [] else
    match fuel with
    | O => Err OutOfFuel
    | S fuel =>
        let! c := cell s p in
        if negb (offset =? 0) && (offset >=? p_len c) then
          copy_partial_loop fuel s (p_next c) len (offset - p_len c)
        else
          let n := u16 (p_len c - offset) in
          let n := if n >? len then len else n in
          let! bs := read_bytes (data s) (p_payload c) offset n in
          let! rest := copy_partial_loop fuel s (p_next c) (len - n) 0 in
          Ok (bs ++ rest)
    end
  | None => Ok []
  end.
Definition pbuf_copy_partial (s : pstate) (buf : ptr) (len offset : Z) : res (list Z) :=
  copy_partial_loop (walk s) s (Some buf) len offset.

(** pbuf_take of the bytes [src] *)
Fixpoint take_loop (fuel : nat) (s : pstate) (o : option ptr) (src : list Z) : res pstate :=
  match src with
  | [] => Ok s
  | _ =>
    match fuel with
    | O => Err OutOfFuel
    | S fuel =>
        let! p := of_option AssertFailed o in
        let! c := cell s p in
        let n := if zlen src >? p_len c then p_len c else zlen src in
        let! d := write_bytes (data s) (p_payload c) 0 (take (Z.to_nat n) src) in
        take_loop fuel (set_data d s) (p_next c) (drop (Z.to_nat n) src)
    end
  end.
Definition pbuf_take (s : pstate) (buf : ptr) (src : list Z) : res (err_t * pstate) :=
  let! c := cell s buf in
  if p_tot_len c <? zlen src then Ok (ERR_ARG, s) else
  let! s := take_loop (walk s) s (Some buf) src in Ok (ERR_OK, s).

Definition pbuf_coalesce (s : pstate) (p : ptr) (layer : pbuf_layer) : res (ptr * pstate) :=
  let! c := cell s p in
  match p_next c with
  | None => Ok (p, s)
  | Some _ =>
      let! (o, s) := pbuf_alloc s layer (p_tot_len c) PBUF_RAM in
      match o with
      | None => Ok (p, s)
      | Some q =>
          let! (err, s) := pbuf_copy s q p in
          assert! err =? ERR_OK in
          let! (_, s) := pbuf_free s (Some p) in
          Ok (q, s)
      end
  end.

(** The loops of pbuf_get_at and pbuf_memcmp to the pbuf that holds a byte. *)
Fixpoint seek (fuel : nat) (s : pstate) (q : option ptr) (from : Z) : res (option (ptr * pbuf) * Z) :=
  match q with
  | None => Ok (None, from)
  | Some p =>
    match fuel with
    | O => Err OutOfFuel
    | S fuel =>
        let! c := cell s p in
        if p_len c <=? from then seek fuel s (p_next c) (from - p_len c) else Ok (Some (p, c), from)
    end
  end.

Definition pbuf_get_at (s : pstate) (p : ptr) (offset : Z) : res Z :=
  let! (q, from) := seek (walk s) s (Some p) offset in
  match q with
  | None => Ok 0
  | Some (_, c) =>
      let! bs := read_bytes (data s) (p_payload c) from 1 in
      Ok (hd 0 bs)
  end.

(** The comparison loop of pbuf_memcmp from [i] on. *)
Fixpoint memcmp_loop (s : pstate) (q : ptr) (start i : Z) (s2 : list Z) : res Z :=
  match s2 with
  | [] => Ok 0
  | b :: s2 =>
      let! a := pbuf_get_at s q (u16 (start + i)) in
      if negb (a =? b) then Ok (u16 (i + 1)) else memcmp_loop s q start (u16 (i + 1)) s2
  end.

(** pbuf_memcmp with the [n] bytes [s2] *)
Definition pbuf_memcmp (s : pstate) (p : ptr) (offset : Z) (s2 : list Z) : res Z :=
  let! (q, start) := seek (walk s) s (Some p) offset in
  match q with
  | None => Ok 0xffff
  | Some (q, _) => memcmp_loop s q start 0 s2
  end.

Fixpoint memfind_loop (fuel : nat) (s : pstate) (p : ptr) (mem : list Z) (i max : Z) : res Z :=
  if i <=? max then
    match fuel with
    | O => Err OutOfFuel
    | S fuel =>
        let! plus := pbuf_memcmp s p i mem in
        if plus =? 0 then Ok i else memfind_loop fuel s p mem (u16 (i + plus)) max
    end
  else Ok 0xFFFF.

(** For a non-empty [mem] the position grows in every round, so 65537 rounds
    are enough. *)
Definition memfind_fuel : nat := Z.to_nat 65537.

Definition pbuf_memfind (s : pstate) (p : ptr) (mem : list Z) (start_offset : Z) : res Z :=
  let! c := cell s p in
  let max := u16 (p_tot_len c - zlen mem) in
  if p_tot_len c >=? zlen mem + start_offset then memfind_loop memfind_fuel s p mem start_offset max
  else Ok 0xFFFF.

(** pbuf_strstr of a non-NULL string, given without its final zero *)
Definition pbuf_strstr (s : pstate) (p : ptr) (substr : list Z) : res Z :=
  match substr with
  | [] => Ok 0xFFFF
  | _ =>
      let! c := cell s p in
      if p_tot_len c =? 0xFFFF then Ok 0xFFFF else
      if zlen substr >=? 0xFFFF then Ok 0xFFFF else pbuf_memfind s p substr 0
  end.

End Pbuf.
