(* ===== verification/PbufChain.v ===== *)
(** * Packets as byte strings

    The abstract view of a pbuf chain: the list of its pbufs and the bytes they
    hold. The operations of Pbuf.v that read and write packets are shown to act
    on these bytes as their documentation says, whatever the cut into pbufs. *)
From S2P Require Import Prelude Mem Memp Pbuf.

(** ** Slices *)

Lemma zlen_splice pos w (bs : list Z) : 0 <= pos -> pos + zlen w <= zlen bs -> zlen (splice pos w bs) = zlen bs.
Proof. unfold zlen, splice. intros. rewrite !length_app, length_take, length_drop. lia. Qed.

Lemma splice_nil pos (bs : list Z) : splice pos [] bs = bs.
Proof. unfold splice. simpl. by rewrite Nat.add_0_r, take_drop. Qed.

Lemma splice_0 w (bs : list Z) : splice 0 w bs = w ++ drop (length w) bs.
Proof. done. Qed.

Lemma splice_splice pos w1 w2 (bs : list Z) : 0 <= pos -> pos + zlen w1 <= zlen bs ->
  splice (pos + zlen w1) w2 (splice pos w1 bs) = splice pos (w1 ++ w2) bs.
Proof.
  intros H0 H1. unfold splice, zlen in *. rewrite length_app, <- !app_assoc.
  rewrite take_app, length_take, take_take. replace (Z.to_nat (pos + Z.of_nat (length w1)) `min` Z.to_nat pos)%nat
    with (Z.to_nat pos) by lia.
  rewrite <- app_assoc. f_equal.
  replace (Z.to_nat (pos + Z.of_nat (length w1)) - Z.to_nat pos `min` length bs)%nat with (length w1) by lia.
  rewrite take_app_length'  by done. f_equal. f_equal.
  rewrite drop_app, (drop_ge (take _ _)) by (rewrite length_take; lia). simpl.
  rewrite length_take, drop_app, (drop_ge w1) by lia. simpl.
  rewrite drop_drop. f_equal. lia.
Qed.

(** A write inside a window of the block, seen in the window. *)
Lemma slice_splice o n off w (bs : list Z) : 0 <= o -> 0 <= off -> off + zlen w <= n -> o + n <= zlen bs ->
  slice o n (splice (o + off) w bs) = splice off w (slice o n bs).
Proof.
  intros. unfold slice, splice, zlen in *.
  rewrite drop_app, length_take. replace (Z.to_nat o - Z.to_nat (o + off) `min` length bs)%nat with O by lia.
  rewrite drop_0, skipn_firstn_comm. replace (Z.to_nat (o + off) - Z.to_nat o)%nat with (Z.to_nat off) by lia.
  rewrite take_app, take_take, length_take, length_drop.
  replace (Z.to_nat n `min` Z.to_nat off)%nat with (Z.to_nat off) by lia.
  rewrite (take_take (drop _ _)). replace (Z.to_nat off `min` Z.to_nat n)%nat with (Z.to_nat off) by lia. f_equal.
  replace (Z.to_nat n - Z.to_nat off `min` (length bs - Z.to_nat o))%nat with (Z.to_nat n - Z.to_nat off)%nat by lia.
  rewrite take_app, (take_ge w) by lia. f_equal.
  rewrite skipn_firstn_comm, drop_drop. f_equal; [lia|f_equal; lia].
Qed.

(** A write before or behind a window. *)
Lemma slice_splice_out o n pos w (bs : list Z) : 0 <= o -> 0 <= n -> 0 <= pos -> pos + zlen w <= zlen bs ->
  o + n <= pos \/ pos + zlen w <= o -> slice o n (splice pos w bs) = slice o n bs.
Proof.
  intros H1 H2 H3 H4 H5. unfold slice, splice, zlen in *. destruct H5 as [H5|H5].
  - rewrite drop_app, length_take. replace (Z.to_nat o - Z.to_nat pos `min` length bs)%nat with O by lia.
    rewrite drop_0, skipn_firstn_comm, take_app, length_take, length_drop, take_take.
    replace (Z.to_nat n - (Z.to_nat pos - Z.to_nat o) `min` (length bs - Z.to_nat o))%nat with O by lia.
    rewrite take_0, app_nil_r. f_equal. lia.
  - rewrite drop_app, (drop_ge (take _ _)) by (rewrite length_take; lia). simpl.
    rewrite drop_app, (drop_ge w) by (rewrite length_take; lia). simpl. rewrite drop_drop, length_take.
    f_equal. f_equal. lia.
Qed.

Lemma splice_app_l pos w (b1 b2 : list Z) : 0 <= pos -> pos + zlen w <= zlen b1 ->
  splice pos w (b1 ++ b2) = splice pos w b1 ++ b2.
Proof.
  intros. unfold splice, zlen in *. rewrite take_app_le, drop_app_le by lia. by rewrite <- !app_assoc.
Qed.

Lemma splice_app_r pos w (b1 b2 : list Z) : 0 <= pos -> splice (zlen b1 + pos) w (b1 ++ b2) = b1 ++ splice pos w b2.
Proof.
  intros. unfold splice, zlen. rewrite take_app_ge, drop_app_ge by lia. rewrite <- app_assoc.
  f_equal. f_equal; [f_equal; lia|]. f_equal. f_equal. lia.
Qed.

(** A write that runs over the end of the first part. *)
Lemma splice_app_split w1 w2 (b1 b2 : list Z) : zlen w1 = zlen b1 -> splice 0 (w1 ++ w2) (b1 ++ b2) = w1 ++ splice 0 w2 b2.
Proof.
  intros. rewrite !splice_0. unfold zlen in *. rewrite length_app, drop_app_ge, <- app_assoc by lia.
  do 3 f_equal. lia.
Qed.

(** ** Memory *)

Lemma read_bytes_len d loc n bs : 0 <= n -> read_bytes d loc 0 n = Ok bs -> zlen bs = n.
Proof.
  intros Hn. unfold read_bytes. destruct (Z.eqb_spec n 0) as [->|]; [by intros [= <-]|].
  destruct loc as [[b o]|]; simpl; [|done]. destruct (d !! b) as [w|]; simpl; [|done].
  destruct (_ && _) eqn:E; [|done]. intros [= <-]. apply zlen_slice; lia.
Qed.

Lemma read_bytes_sub d loc n bs off k : 0 <= off -> 0 <= k -> off + k <= n ->
  read_bytes d loc 0 n = Ok bs -> read_bytes d loc off k = Ok (slice off k bs).
Proof.
  intros H1 H2 H3. unfold read_bytes. destruct (Z.eqb_spec k 0) as [->|]; [done|].
  destruct (Z.eqb_spec n 0) as [->|]; [lia|].
  destruct loc as [[b o]|]; simpl; [|done]. destruct (d !! b) as [w|]; simpl; [|done].
  destruct ((0 <=? o + 0) && _ && _) eqn:E; [|done]. intros [= <-].
  replace ((0 <=? o + off) && (0 <=? k) && (o + off + k <=? zlen w)) with true by lia.
  rewrite slice_slice by lia. do 2 f_equal. lia.
Qed.

Lemma read_bytes_ext d d' loc off n :
  (forall b o, loc = Some (b, o) -> d' !! b = d !! b) -> read_bytes d' loc off n = read_bytes d loc off n.
Proof.
  intros H. unfold read_bytes. destruct (n =? 0); [done|]. destruct loc as [[b o]|]; [|done].
  simpl. by rewrite (H b o).
Qed.

(** Writing inside the window of a pbuf succeeds, changes its bytes, and
    touches no other block. *)
Lemma write_bytes_spec d loc n bs off w : 0 <= n -> 0 <= off -> off + zlen w <= n ->
  read_bytes d loc 0 n = Ok bs ->
  exists d', write_bytes d loc off w = Ok d' /\ read_bytes d' loc 0 n = Ok (splice off w bs) /\
    (forall b, (forall o, loc <> Some (b, o)) -> d' !! b = d !! b) /\
    (forall b v, d !! b = Some v -> exists v', d' !! b = Some v' /\ zlen v' = zlen v).
Proof.
  intros H1 H2 H3 Hr. unfold write_bytes. destruct (Z.eqb_spec (zlen w) 0) as [Hw|Hw].
  - assert (w = []) as -> by (destruct w; [done|]; rewrite zlen_cons in Hw; pose proof (zlen_nonneg w); lia).
    exists d. rewrite splice_nil. split_and!; try done. eauto.
  - pose proof (zlen_nonneg w). unfold read_bytes in *. destruct (Z.eqb_spec n 0); [lia|].
    destruct loc as [[b o]|]; simpl in *; [|done]. destruct (d !! b) as [v|] eqn:Hb; simpl in *; [|done].
    destruct (_ && _) eqn:E; [|done]. injection Hr as <-.
    replace ((0 <=? o + off) && (o + off + zlen w <=? zlen v)) with true by lia.
    eexists. split; [done|]. rewrite lookup_insert_eq. simpl. rewrite zlen_splice by lia. rewrite E.
    split_and!.
    + rewrite Z.add_0_r, slice_splice by lia. done.
    + intros b' Hb'. rewrite lookup_insert_ne; [done|]. intros ->. by eapply Hb'.
    + intros b' v' Hv'. destruct (decide (b = b')) as [<-|].
      * rewrite lookup_insert_eq. rewrite Hb in Hv'. injection Hv' as <-. eexists. split; [done|]. apply zlen_splice; lia.
      * rewrite lookup_insert_ne by done. eauto.
Qed.

(** ** Chains *)

(** [o] points to the chain of pbufs [l] in the store [m]. *)
Fixpoint chain (m : gmap ptr pbuf) (o : option ptr) (l : list (ptr * pbuf)) : Prop :=
  match l with
  | [] => o = None
  | (p, c) :: l => o = Some p /\ m !! p = Some c /\ chain m (p_next c) l
  end.

Definition chain_len (l : list (ptr * pbuf)) : Z := foldr (fun pc n => p_len pc.2 + n) 0 l.

(** The invariant of pbuf.h: p->tot_len == p->len + (p->next? p->next->tot_len: 0) *)
Fixpoint lens_ok (l : list (ptr * pbuf)) : Prop :=
  match l with
  | [] => True
  | (_, c) :: l => 0 <= p_len c /\ p_tot_len c = p_len c + chain_len l /\ lens_ok l
  end.

(** The bytes of the packet; an error when some pbuf's bytes are not there. *)
Fixpoint content (d : gmap blk (list Z)) (l : list (ptr * pbuf)) : res (list Z) :=
  match l with
  | [] => Ok []
  | (_, c) :: l =>
      let! bs := read_bytes d (p_payload c) 0 (p_len c) in
      let! rest := content d l in
      Ok (bs ++ rest)
  end.

(** The blocks the pbufs of a chain point into. *)
Definition blocks (l : list (ptr * pbuf)) : list blk := omap (fun pc => fst <$> p_payload pc.2) l.

(** [o] is a packet with the pbufs [l] and the bytes [bs]. *)
Definition packet (m : gmap ptr pbuf) (d : gmap blk (list Z)) (p : ptr) (l : list (ptr * pbuf)) (bs : list Z) : Prop :=
  chain m (Some p) l /\ lens_ok l /\ chain_len l < 65536 /\ content d l = Ok bs.


Lemma chain_fun m l : forall o l', chain m o l -> chain m o l' -> l = l'.
Proof.
  induction l as [|[p c] l IH]; intros o [|[p' c'] l']; simpl; [done|by intros -> [? _]|by intros [-> _]|].
  intros (-> & Hp & Hl) ([= <-] & Hp' & Hl'). rewrite Hp in Hp'. injection Hp' as <-.
  by rewrite (IH _ _ Hl Hl').
Qed.

Lemma chain_suffix m l1 : forall o p c l2, chain m o (l1 ++ (p, c) :: l2) -> chain m (Some p) ((p, c) :: l2).
Proof.
  induction l1 as [|[q cq] l1 IH]; simpl; intros o p c l2; [intros (-> & ?); done|].
  intros (_ & _ & H). by eapply IH.
Qed.

(** A chain that ends passes no pbuf twice. *)
Lemma chain_NoDup m o l : chain m o l -> NoDup l.*1.
Proof.
  revert o. induction l as [|[p c] l IH]; intros o Hc; simpl; [apply NoDup_nil_2|].
  pose proof Hc as (-> & Hp & Hl). apply NoDup_cons. split; [|by eapply IH].
  intros ([p' c'] & -> & Hin)%list_elem_of_fmap. simpl in *.
  apply list_elem_of_split in Hin as (l1 & l2 & ->).
  pose proof (chain_suffix _ _ _ _ _ _ Hl) as Hs.
  pose proof (chain_fun _ ((_, c) :: _) _ _ Hc Hs) as He. apply (f_equal length) in He. simpl in He.
  rewrite length_app in He. simpl in He. lia.
Qed.

Lemma chain_nin m o p c l : chain m o ((p, c) :: l) -> p ∉ l.*1.
Proof. intros Hc. apply chain_NoDup in Hc. by apply NoDup_cons in Hc as [? _]. Qed.

Lemma chain_elem m o l p c : chain m o l -> (p, c) ∈ l -> m !! p = Some c.
Proof.
  intros Hc Hin. apply list_elem_of_split in Hin as (l1 & l2 & ->).
  by destruct (chain_suffix _ _ _ _ _ _ Hc) as (_ & ? & _).
Qed.

Lemma chain_length m o l : chain m o l -> (length l <= size m)%nat.
Proof.
  intros Hc. pose proof (chain_NoDup _ _ _ Hc) as Hnd.
  rewrite <- (length_fmap fst l), <- (size_list_to_set (C := gset ptr)) by done.
  rewrite <- (size_dom (D := gset ptr)). apply subseteq_size. intros p Hp.
  apply elem_of_list_to_set, list_elem_of_fmap in Hp as ([p' c] & -> & Hin).
  apply elem_of_dom. exists c. by eapply chain_elem.
Qed.

Lemma chain_put m o l p c : p ∉ l.*1 -> chain m o l -> chain (<[p := c]> m) o l.
Proof.
  revert o. induction l as [|[q cq] l IH]; intros o; simpl; [done|].
  intros [Hne Hin]%not_elem_of_cons (-> & Hq & Hl). split_and!; [done| |by apply IH].
  by rewrite lookup_insert_ne.
Qed.

Lemma chain_ext m m' o l : (forall p, p ∈ l.*1 -> m' !! p = m !! p) -> chain m o l -> chain m' o l.
Proof.
  revert o. induction l as [|[q cq] l IH]; intros o He; simpl; [done|]. intros (-> & Hq & Hl).
  split_and!; [done|rewrite He; [done|by left]|]. apply IH; [|done]. intros p Hp. apply He. by right.
Qed.

Lemma chain_len_nonneg l : lens_ok l -> 0 <= chain_len l.
Proof. induction l as [|[p c] l IH]; simpl; [done|]. intros (? & _ & ?). specialize (IH ltac:(done)). lia. Qed.

Lemma chain_len_app l1 l2 : chain_len (l1 ++ l2) = chain_len l1 + chain_len l2.
Proof. induction l1 as [|[p c] l1 IH]; simpl; [done|]. rewrite IH. lia. Qed.

Lemma lens_ok_app_r l1 l2 : lens_ok (l1 ++ l2) -> lens_ok l2.
Proof. induction l1 as [|[p c] l1 IH]; simpl; [done|]. tauto. Qed.

Lemma content_len d l bs : lens_ok l -> content d l = Ok bs -> zlen bs = chain_len l.
Proof.
  revert bs. induction l as [|[p c] l IH]; simpl; intros bs Hl Hc; inv_res; [done|].
  destruct Hl as (Hge & _ & Hl). rewrite zlen_app, (IH x0 Hl) by done. f_equal. by eapply read_bytes_len.
Qed.

Lemma content_app d l1 l2 : content d (l1 ++ l2) =
  (let! b1 := content d l1 in let! b2 := content d l2 in Ok (b1 ++ b2)).
Proof.
  induction l1 as [|[p c] l1 IH]; simpl; [by destruct (content d l2)|]. rewrite IH.
  destruct (read_bytes _ _ _ _); simpl; [|done]. destruct (content d l1); simpl; [|done].
  destruct (content d l2); simpl; [|done]. by rewrite app_assoc.
Qed.

Lemma content_ext d d' l : (forall b, b ∈ blocks l -> d' !! b = d !! b) -> content d' l = content d l.
Proof.
  induction l as [|[p c] l IH]; simpl; intros He; [done|]. unfold blocks in *. simpl in *.
  rewrite (read_bytes_ext d d').
  - rewrite IH; [done|]. intros b Hb. apply He. destruct (fst <$> p_payload c); [by right|done].
  - intros b o Ho. apply He. rewrite Ho. simpl. by left.
Qed.

(** ** Reading *)
Section Reading.
Context {H M : Type} `{RA : !RamAlloc H} `{PA : !PoolAlloc M}.
Implicit Types s : pstate (H:=H) (M:=M).

Definition is_packet s p l bs : Prop := packet (cells s) (data s) p l bs.

Lemma cell_ok s p c : cells s !! p = Some c -> cell s p = Ok c.
Proof. unfold cell. by intros ->. Qed.

Lemma content_cons_inv d p c l bs : content d ((p, c) :: l) = Ok bs ->
  exists b1 b2, bs = b1 ++ b2 /\ read_bytes d (p_payload c) 0 (p_len c) = Ok b1 /\ content d l = Ok b2.
Proof.
  simpl. destruct (read_bytes _ _ _ _) as [b1|]; simpl; [|done].
  destruct (content d l) as [b2|]; simpl; [|done]. intros [= <-]. by exists b1, b2.
Qed.

Lemma copy_partial_loop_spec s l : forall fuel o bs len offset,
  chain (cells s) o l -> lens_ok l -> chain_len l < 65536 -> content (data s) l = Ok bs ->
  (length l <= fuel)%nat -> 0 <= len -> 0 <= offset ->
  copy_partial_loop fuel s o len offset = Ok (slice offset len bs).
Proof.
  induction l as [|[p c] l IH]; intros fuel o bs len offset Hc Hl Hlt Hb Hf Hn Ho.
  - simpl in Hc. subst o. simpl in Hb. injection Hb as <-. destruct fuel; cbn; unfold slice; by rewrite drop_nil, take_nil.
  - destruct Hc as (-> & Hp & Hc). destruct Hl as (Hge & Htot & Hl).
    apply content_cons_inv in Hb as (b1 & b2 & -> & Hb1 & Hb2).
    pose proof (read_bytes_len _ _ _ _ Hge Hb1) as Hl1. pose proof (chain_len_nonneg _ Hl).
    destruct fuel as [|fuel]; simpl in Hf; [lia|]. cbn [copy_partial_loop]. simpl in Hlt.
    destruct (Z.eqb_spec len 0) as [->|Hlen]; [done|].
    rewrite (cell_ok _ _ _ Hp). simpl.
    destruct (negb (offset =? 0) && (offset >=? p_len c)) eqn:E.
    + rewrite (IH fuel _ b2); try (done || lia). f_equal. unfold slice, zlen in *. f_equal.
      rewrite drop_app, (drop_ge b1) by lia. simpl. f_equal. lia.
    + assert (u16 (p_len c - offset) = p_len c - offset) as -> by (apply u16_id; lia).
      set (n := if p_len c - offset >? len then len else p_len c - offset).
      assert (0 <= n /\ n <= len /\ offset + n <= p_len c /\ (n = len \/ n = p_len c - offset))
        as (Hn1 & Hn2 & Hn3 & Hn4) by (unfold n; destruct (Z.gtb_spec (p_len c - offset) len); lia).
      rewrite (read_bytes_sub _ _ (p_len c) b1) by (done || lia). simpl.
      rewrite (IH fuel _ b2) by (done || lia). simpl. f_equal. unfold slice, zlen in *.
      rewrite drop_0, drop_app, take_app, length_drop.
      replace (Z.to_nat offset - length b1)%nat with O by lia. rewrite drop_0. f_equal.
      * destruct Hn4 as [->| ->]; [done|]. rewrite !take_ge; [done|rewrite length_drop; lia..].
      * destruct Hn4 as [->| ->]; f_equal; lia.
Qed.

Lemma packet_walk s p l bs : is_packet s p l bs -> (length l <= walk s)%nat.
Proof. intros (Hc & _). apply chain_length in Hc. unfold walk. lia. Qed.

(** The walk to the pbuf that holds the byte at [from]: it and the pbufs behind
    it are a packet with the rest of the bytes. *)
Lemma seek_spec s l : forall fuel o bs from, chain (cells s) o l -> lens_ok l -> content (data s) l = Ok bs ->
  (length l <= fuel)%nat -> 0 <= from ->
  exists r, seek fuel s o from = Ok r /\
  match r with
  | (None, _) => zlen bs <= from
  | (Some (p, c), f) => 0 <= f < p_len c /\ exists l1 b1 l2 b2, l = l1 ++ (p, c) :: l2 /\ bs = b1 ++ b2 /\
      content (data s) ((p, c) :: l2) = Ok b2 /\ from = zlen b1 + f
  end.
Proof.
  induction l as [|[p c] l IH]; intros fuel o bs from Hc Hl Hb Hf H0.
  - simpl in Hc, Hb. subst o. injection Hb as <-. eexists. split; [destruct fuel; reflexivity|done].
  - destruct Hc as (-> & Hp & Hc). destruct Hl as (Hge & Htot & Hl).
    pose proof Hb as (b1 & b2 & -> & Hb1 & Hb2)%content_cons_inv.
    pose proof (read_bytes_len _ _ _ _ Hge Hb1) as Hl1.
    destruct fuel as [|fuel]; simpl in Hf; [lia|]. cbn [seek]. rewrite (cell_ok _ _ _ Hp). cbn [res_bind].
    destruct (Z.leb_spec (p_len c) from) as [Hle|Hgt].
    + destruct (IH fuel (p_next c) b2 (from - p_len c)) as (r & -> & Hr); try (done || lia).
      exists r. split; [done|]. destruct r as [[[q cq]|] f]; [|rewrite zlen_app; lia].
      destruct Hr as (Hf1 & l1 & b3 & l2 & b4 & -> & -> & Hb4 & Hfrom). split; [done|].
      exists ((p, c) :: l1), (b1 ++ b3), l2, b4. rewrite zlen_app, app_assoc. split_and!; try done. lia.
    + eexists. split; [done|]. simpl. split; [lia|]. exists [], [], l, (b1 ++ b2). done.
Qed.

(** Byte [i] of [bs], zero behind the end. *)
Definition byte_at (bs : list Z) (i : Z) : Z := nth (Z.to_nat i) bs 0.

Lemma byte_at_app bs1 bs2 i : 0 <= i -> byte_at (bs1 ++ bs2) (zlen bs1 + i) = byte_at bs2 i.
Proof. intros Hi. unfold byte_at, zlen. rewrite app_nth2 by lia. f_equal. lia. Qed.

Lemma pbuf_get_at_spec s p l bs offset : is_packet s p l bs -> 0 <= offset ->
  pbuf_get_at s p offset = Ok (byte_at bs offset).
Proof.
  intros Hpk H0. pose proof (packet_walk _ _ _ _ Hpk) as Hw. destruct Hpk as (Hc & Hl & Hlt & Hb).
  destruct (seek_spec s l (walk s) (Some p) bs offset Hc Hl Hb Hw H0) as ([q f] & Hs & Hr).
  unfold pbuf_get_at. rewrite Hs. cbn [res_bind]. destruct q as [[q cq]|].
  - destruct Hr as (Hf & l1 & b1 & l2 & b2 & -> & -> & Hb2 & ->).
    apply content_cons_inv in Hb2 as (b3 & b4 & -> & Hb3 & _).
    pose proof (read_bytes_len _ _ (p_len cq) _ ltac:(lia) Hb3) as Hl3.
    rewrite (read_bytes_sub _ _ (p_len cq) b3) by (done || lia). cbn [res_bind]. f_equal.
    rewrite byte_at_app by lia. unfold byte_at, slice, zlen in *. rewrite app_nth1 by lia.
    rewrite <- (take_drop (Z.to_nat f) b3) at 2.
    rewrite app_nth2, length_take by (rewrite length_take; lia).
    replace (Z.to_nat f - Z.to_nat f `min` length b3)%nat with O by lia.
    destruct (drop (Z.to_nat f) b3) eqn:E; [|done].
    apply (f_equal length) in E. rewrite length_drop in E. simpl in E. lia.
  - f_equal. unfold byte_at. symmetry. apply nth_overflow. unfold zlen in *. lia.
Qed.

(** What pbuf_memcmp returns: the position behind the first difference, zero
    when there is none; behind the end of the packet its bytes count as zero. *)
Fixpoint first_diff (a : Z -> Z) (i : Z) (w : list Z) : Z :=
  match w with
  | [] => 0
  | b :: w => if a i =? b then first_diff a (i + 1) w else i + 1
  end.

Lemma packet_suffix s p l1 q c l2 bs b1 b2 : is_packet s p (l1 ++ (q, c) :: l2) bs ->
  content (data s) ((q, c) :: l2) = Ok b2 -> bs = b1 ++ b2 -> is_packet s q ((q, c) :: l2) b2.
Proof.
  intros (Hc & Hl & Hlt & Hb) Hb2 _. split_and!; [by eapply chain_suffix|by eapply lens_ok_app_r| |done].
  rewrite chain_len_app in Hlt. enough (0 <= chain_len l1) by lia.
  clear -Hl. induction l1 as [|[a x] l1 IH]; simpl in *; [lia|]. destruct Hl as (? & _ & Hl).
  specialize (IH Hl). lia.
Qed.

Lemma memcmp_loop_spec s q l bs start : is_packet s q l bs -> 0 <= start ->
  forall w i, 0 <= i -> start + i + zlen w < 65536 ->
  memcmp_loop s q start i w = Ok (first_diff (fun i => byte_at bs (start + i)) i w).
Proof.
  intros Hpk H0. induction w as [|b w IH]; intros i Hi Hlt; [done|]. cbn [memcmp_loop first_diff].
  rewrite zlen_cons in Hlt. pose proof (zlen_nonneg w).
  rewrite u16_id by lia. rewrite (pbuf_get_at_spec _ _ _ _ _ Hpk) by lia. cbn [res_bind].
  rewrite (u16_id (i + 1)) by lia. destruct (_ =? b); cbn [negb]; [|done]. apply IH; lia.
Qed.

Lemma first_diff_ext a a' w : forall i, 0 <= i -> (forall j, 0 <= j -> a j = a' j) -> first_diff a i w = first_diff a' i w.
Proof.
  induction w as [|b w IH]; intros i Hi He; simpl; [done|]. rewrite (He i Hi). rewrite IH; [done|lia|done].
Qed.

Lemma pbuf_memcmp_spec s p l bs offset w : is_packet s p l bs -> 0 <= offset -> offset + zlen w < 65536 ->
  pbuf_memcmp s p offset w =
    Ok (if zlen bs <=? offset then 0xffff else first_diff (fun i => byte_at bs (offset + i)) 0 w).
Proof.
  intros Hpk H0 Hlt. pose proof (packet_walk _ _ _ _ Hpk) as Hw. pose proof Hpk as (Hc & Hl & _ & Hb).
  destruct (seek_spec s l (walk s) (Some p) bs offset Hc Hl Hb Hw H0) as ([q f] & Hs & Hr).
  unfold pbuf_memcmp. rewrite Hs. cbn [res_bind]. destruct q as [[q cq]|].
  - destruct Hr as (Hf & l1 & b1 & l2 & b2 & -> & -> & Hb2 & ->). pose proof (zlen_nonneg b1).
    pose proof (packet_suffix _ _ _ _ _ _ _ _ _ Hpk Hb2 eq_refl) as Hq.
    rewrite (memcmp_loop_spec _ _ _ _ _ Hq) by lia. f_equal.
    assert (f < zlen b2) as Hfb.
    { destruct Hq as (_ & Hl2 & _). rewrite (content_len _ _ _ Hl2 Hb2). simpl in *.
      destruct Hl2 as (_ & _ & Hl2). pose proof (chain_len_nonneg _ Hl2). lia. }
    rewrite zlen_app. destruct (Z.leb_spec (zlen b1 + zlen b2) (zlen b1 + f)); [lia|].
    apply first_diff_ext; [lia|]. intros j Hj. rewrite <- Z.add_assoc. symmetry. apply byte_at_app. lia.
  - destruct (Z.leb_spec (zlen bs) offset); [done|lia].
Qed.

(** A result 0 means equal, any other is the place behind a difference. *)
Lemma first_diff_range a : forall w i, 0 <= i -> first_diff a i w = 0 \/ i < first_diff a i w <= i + zlen w.
Proof.
  induction w as [|b w IH]; intros i Hi; simpl; [by left|]. rewrite zlen_cons. pose proof (zlen_nonneg w).
  destruct (_ =? _); [|lia]. specialize (IH (i + 1) ltac:(lia)). lia.
Qed.

Lemma first_diff_0 bs off : forall w i, 0 <= off -> 0 <= i -> off + i + zlen w <= zlen bs ->
  first_diff (fun j => byte_at bs (off + j)) i w = 0 <-> slice (off + i) (zlen w) bs = w.
Proof.
  induction w as [|b w IH]; intros i Ho Hi Hle; [done|]. rewrite zlen_cons in *. pose proof (zlen_nonneg w).
  cbn [first_diff]. assert (slice (off + i) (1 + zlen w) bs = byte_at bs (off + i) :: slice (off + i + 1) (zlen w) bs) as ->.
  { unfold slice, byte_at. replace (Z.to_nat (1 + zlen w)) with (S (Z.to_nat (zlen w))) by lia.
    replace (Z.to_nat (off + i + 1)) with (S (Z.to_nat (off + i))) by lia. unfold zlen in *.
    destruct (nth_lookup_or_length bs (Z.to_nat (off + i)) 0) as [Hn|Hn]; [|lia].
    by rewrite (drop_S _ _ _ Hn). }
  destruct (Z.eqb_spec (byte_at bs (off + i)) b) as [->|Hne].
  - rewrite IH by lia. rewrite <- Z.add_assoc. split; [by intros ->|by intros [= ->]].
  - split; [lia|]. by intros [= He _].
Qed.

Lemma memfind_loop_spec s p l bs mem max : is_packet s p l bs -> 0 < zlen mem -> max + zlen mem = zlen bs ->
  zlen bs < 65536 ->
  forall fuel i, 0 <= i -> max - i < Z.of_nat fuel ->
  exists r, memfind_loop fuel s p mem i max = Ok r /\
    (r = 0xffff \/ i <= r <= max /\ slice r (zlen mem) bs = mem) /\
    (zlen mem = 1 -> forall j, i <= j -> (j < r \/ r = 0xffff) -> j <= max -> slice j 1 bs <> mem).
Proof.
  intros Hpk Hm Hmax Hlt. induction fuel as [|fuel IH]; intros i Hi Hf; cbn [memfind_loop].
  - destruct (Z.leb_spec i max); [lia|]. eexists. split; [done|]. split; [by left|]. lia.
  - destruct (Z.leb_spec i max) as [Hle|]; [|eexists; split; [done|]; split; [by left|lia]].
    rewrite (pbuf_memcmp_spec _ _ _ _ _ _ Hpk) by lia. cbn [res_bind].
    destruct (Z.leb_spec (zlen bs) i); [lia|]. set (d := first_diff _ 0 mem).
    pose proof (first_diff_range (fun j => byte_at bs (i + j)) mem 0 ltac:(lia)) as Hd. fold d in Hd.
    pose proof (first_diff_0 bs i mem 0 Hi ltac:(lia) ltac:(lia)) as Hz. fold d in Hz. rewrite Z.add_0_r in Hz.
    destruct (Z.eqb_spec d 0) as [Hd0|Hd0].
    + exists i. split; [done|]. split; [right; split; [lia|tauto]|]. lia.
    + rewrite u16_id by lia. destruct (IH (i + d)) as (r & -> & Hr & Hc); [lia..|].
      exists r. split; [done|]. split; [destruct Hr as [?|[? ?]]; [by left|right; split; [lia|done]]|].
      intros H1 j Hj1 Hj2 Hj3.
      destruct (decide (j = i)) as [->|]; [rewrite <- H1; tauto|]. apply Hc; lia.
Qed.
End Reading.

(** ** Writing *)
Section Writing.
Context {H M : Type} `{RA : !RamAlloc H} `{PA : !PoolAlloc M}.
Implicit Types s : pstate (H:=H) (M:=M).

Lemma set_data_id s : set_data (data s) s = s.
Proof. by destruct s. Qed.
Lemma set_data_twice d d' s : set_data d (set_data d' s) = set_data d s.
Proof. done. Qed.

(** Only blocks in [bl] differ, and no block changes its size. *)
Definition same_but (bl : list blk) (d d' : gmap blk (list Z)) : Prop :=
  (forall b, b ∉ bl -> d' !! b = d !! b) /\
  forall b v, d !! b = Some v -> exists v', d' !! b = Some v' /\ zlen v' = zlen v.

Lemma same_but_refl bl d : same_but bl d d.
Proof. split; eauto. Qed.
Lemma same_but_trans bl d1 d2 d3 : same_but bl d1 d2 -> same_but bl d2 d3 -> same_but bl d1 d3.
Proof.
  intros [H1 H2] [H3 H4]. split; [intros b Hb; by rewrite H3, H1|]. intros b v Hv.
  destruct (H2 b v Hv) as (v' & Hv' & E). destruct (H4 b v' Hv') as (v2 & ? & ?). exists v2. by rewrite <- E.
Qed.
Lemma same_but_weaken bl bl' d d' : (forall b, b ∈ bl -> b ∈ bl') -> same_but bl d d' -> same_but bl' d d'.
Proof. intros Hs [H1 H2]. split; [|done]. intros b Hb. apply H1. intros Hin. by apply Hb, Hs. Qed.

Lemma blocks_cons p c l : blocks ((p, c) :: l) = match p_payload c with Some (b, _) => b :: blocks l | None => blocks l end.
Proof. unfold blocks. simpl. by destruct (p_payload c) as [[b o]|]. Qed.

(** Writing into the first pbuf of a chain. *)
Lemma write_head d p c l bs off w : lens_ok ((p, c) :: l) -> content d ((p, c) :: l) = Ok bs ->
  NoDup (blocks ((p, c) :: l)) -> 0 <= off -> off + zlen w <= p_len c ->
  exists d', write_bytes d (p_payload c) off w = Ok d' /\ content d' ((p, c) :: l) = Ok (splice off w bs) /\
    (forall l', (forall b, b ∈ blocks l' -> forall o, p_payload c <> Some (b, o)) -> content d' l' = content d l') /\
    same_but (blocks ((p, c) :: l)) d d'.
Proof.
  intros (Hge & _ & Hl) (b1 & b2 & -> & Hb1 & Hb2)%content_cons_inv Hnd H0 Hle.
  pose proof (read_bytes_len _ _ _ _ Hge Hb1) as Hl1.
  destruct (write_bytes_spec d (p_payload c) (p_len c) b1 off w Hge H0 Hle Hb1) as (d' & Hw & Hr & Hout & Hsz).
  assert (Hframe : forall l', (forall b, b ∈ blocks l' -> forall o, p_payload c <> Some (b, o)) -> content d' l' = content d l').
  { intros l' Hl'. apply content_ext. intros b Hb. by apply Hout, Hl'. }
  exists d'. split; [done|]. split_and!; [|done|].
  - cbn [content]. rewrite Hr, Hframe, Hb2; cbn [res_bind].
    + by rewrite splice_app_l by lia.
    + intros b Hb o Ho. rewrite blocks_cons, Ho in Hnd. apply NoDup_cons in Hnd. tauto.
  - split; [|done]. intros b Hb. apply Hout. intros o Ho. apply Hb. rewrite blocks_cons, Ho. by left.
Qed.

Lemma NoDup_blocks_cons p c l : NoDup (blocks ((p, c) :: l)) ->
  NoDup (blocks l) /\ forall b, b ∈ blocks l -> forall o, p_payload c <> Some (b, o).
Proof.
  rewrite blocks_cons. destruct (p_payload c) as [[b o]|]; [|by split; [|intros ???]].
  intros [Hn Hnd]%NoDup_cons. split; [done|]. intros b' Hb' o' [= -> _]. done.
Qed.

Lemma in_blocks_cons p c l b : b ∈ blocks l -> b ∈ blocks ((p, c) :: l).
Proof. rewrite blocks_cons. destruct (p_payload c) as [[]|]; [by right|done]. Qed.

(** The bytes of the first pbuf are not touched by changes in the blocks of
    the others. *)
Lemma content_cons_frame d d' p c l b1 b2 : NoDup (blocks ((p, c) :: l)) -> same_but (blocks l) d d' ->
  read_bytes d (p_payload c) 0 (p_len c) = Ok b1 -> content d' l = Ok b2 ->
  content d' ((p, c) :: l) = Ok (b1 ++ b2).
Proof.
  intros [_ Hn]%NoDup_blocks_cons [Hs _] Hb1 Hb2. cbn [content]. rewrite (read_bytes_ext d).
  - by rewrite Hb1, Hb2.
  - intros b o Ho. apply Hs. intros Hin. by eapply Hn.
Qed.

Lemma take_loop_S fuel s o w : w <> [] -> take_loop (S fuel) s o w =
  (let! p := of_option AssertFailed o in
   let! c := cell s p in
   let n := if zlen w >? p_len c then p_len c else zlen w in
   let! d := write_bytes (data s) (p_payload c) 0 (take (Z.to_nat n) w) in
   take_loop fuel (set_data d s) (p_next c) (drop (Z.to_nat n) w)).
Proof. by destruct w. Qed.

Lemma take_loop_nil fuel s o : take_loop fuel s o [] = Ok s.
Proof. by destruct fuel. Qed.

Lemma take_loop_spec l : forall fuel s o bs w,
  chain (cells s) o l -> lens_ok l -> content (data s) l = Ok bs -> NoDup (blocks l) ->
  zlen w <= chain_len l -> (length l <= fuel)%nat ->
  exists d', take_loop fuel s o w = Ok (set_data d' s) /\ content d' l = Ok (splice 0 w bs) /\
    same_but (blocks l) (data s) d'.
Proof.
  induction l as [|[p c] l IH]; intros fuel s o bs w Hc Hl Hb Hnd Hw Hf;
    (destruct (decide (w = [])) as [->|Hne];
      [exists (data s); rewrite take_loop_nil, set_data_id, splice_nil; split_and!; [done|done|apply same_but_refl]|]).
  - simpl in Hw. destruct w; [done|]. rewrite zlen_cons in Hw. pose proof (zlen_nonneg w). lia.
  - pose proof Hc as (-> & Hp & Hc'). destruct fuel as [|fuel]; simpl in Hf; [lia|].
    rewrite take_loop_S by done. cbn [of_option res_bind]. rewrite (cell_ok _ _ _ Hp). cbn [res_bind].
    set (n := if zlen w >? p_len c then p_len c else zlen w).
    pose proof Hb as (b1 & b2 & -> & Hb1 & Hb2)%content_cons_inv. pose proof Hl as (Hge & _ & Hl2).
    pose proof (read_bytes_len _ _ _ _ Hge Hb1) as Hl1. pose proof (zlen_nonneg w). pose proof (chain_len_nonneg _ Hl2). simpl in Hw.
    assert (Hn : 0 <= n /\ n <= p_len c /\ n <= zlen w /\ (n = p_len c \/ n = zlen w)).
    { unfold n. destruct (Z.gtb_spec (zlen w) (p_len c)); lia. }
    assert (Hlt : zlen (take (Z.to_nat n) w) = n) by (unfold zlen in *; rewrite length_take; lia).
    assert (Hld : zlen (drop (Z.to_nat n) w) = zlen w - n) by (unfold zlen in *; rewrite length_drop; lia).
    destruct (write_head (data s) p c l (b1 ++ b2) 0 (take (Z.to_nat n) w) Hl Hb Hnd ltac:(lia) ltac:(lia))
      as (d1 & -> & Hc1 & Hfr & Hsame). cbn [res_bind].
    pose proof (NoDup_blocks_cons _ _ _ Hnd) as [Hnd' Hnin].
    destruct (IH fuel (set_data d1 s) (p_next c) b2 (drop (Z.to_nat n) w)) as (d2 & -> & Hc2 & Hsame2);
      [done|done|cbn; by rewrite Hfr|done|lia|lia|].
    exists d2. rewrite set_data_twice. split; [done|]. split.
    + rewrite splice_app_l in Hc1 by lia.
      assert (read_bytes d1 (p_payload c) 0 (p_len c) = Ok (splice 0 (take (Z.to_nat n) w) b1)) as Hr.
      { cbn [content] in Hc1. rewrite Hfr, Hb2 in Hc1 by done. destruct (read_bytes d1 _ _ _) as [b1'|]; [|done].
        cbn [res_bind] in Hc1. injection Hc1 as He. f_equal. by eapply app_inv_tail. }
      rewrite (content_cons_frame d1 d2 _ _ _ _ _ Hnd Hsame2 Hr Hc2). f_equal.
      rewrite <- (take_drop (Z.to_nat n) w) at 3. destruct Hn as (Hn1 & Hn2 & Hn3 & [Hn|Hn]).
      * rewrite splice_app_split by lia. f_equal. rewrite splice_0, drop_ge, app_nil_r; [done|unfold zlen in *; lia].
      * assert (drop (Z.to_nat n) w = []) as -> by (destruct (drop _ w); [done|rewrite zlen_cons in Hld; pose proof (zlen_nonneg l0); lia]).
        rewrite app_nil_r, splice_nil, splice_app_l by lia. done.
    + eapply same_but_trans; [exact Hsame|]. eapply same_but_weaken; [|exact Hsame2]. intros b. apply in_blocks_cons.
Qed.

(** pbuf_copy asserts of each pbuf it moves on to that its length is not the
    total length unless it is the last one. *)
Lemma not_a_queue s p c l : chain (cells s) (Some p) ((p, c) :: l) -> lens_ok ((p, c) :: l) ->
  Forall (fun pc => 0 < p_len pc.2) l -> negb (p_len c =? p_tot_len c) || bool_decide (p_next c = None) = true.
Proof.
  intros (_ & _ & Hc) (_ & Ht & Hl) Hpos. destruct l as [|[q cq] l]; [simpl in Hc; rewrite Hc; apply orb_true_r|].
  apply Forall_cons in Hpos as [Hpos _]. simpl in *. pose proof (chain_len_nonneg l ltac:(tauto)).
  destruct (Z.eqb_spec (p_len c) (p_tot_len c)); [lia|done].
Qed.

Lemma chain_tail s p c l : chain (cells s) (Some p) ((p, c) :: l) ->
  match l with [] => p_next c = None | (q, cq) :: l' => p_next c = Some q /\ chain (cells s) (Some q) l end.
Proof. intros (_ & _ & Hc). destruct l as [|[q cq] l]; [done|]. pose proof Hc as (Hn & _). rewrite Hn in *. by split. Qed.

(** What is left to do of the copy: [p] is the pbuf at which a side stands, [o]
    the offset in it. *)
Definition copy_side s (p : ptr) (c : pbuf) (l : list (ptr * pbuf)) : Prop :=
  chain (cells s) (Some p) ((p, c) :: l) /\ lens_ok ((p, c) :: l) /\ chain_len ((p, c) :: l) < 65536 /\
  Forall (fun pc => 0 < p_len pc.2) l.

Lemma copy_side_next s p c q cq l : copy_side s p c ((q, cq) :: l) ->
  copy_side s q cq l /\ p_next c = Some q /\ 0 < p_len cq.
Proof.
  intros (Hc & Hl & Hlt & Hpos). apply Forall_cons in Hpos as [Hq Hpos]. destruct (chain_tail _ _ _ _ Hc) as [Hn Hc'].
  destruct Hl as (Hge & _ & Hl). simpl in Hlt.
  split; [unfold copy_side; split_and!; try done; simpl; lia|by split].
Qed.

Lemma copy_side_cell s p c l : copy_side s p c l -> cell s p = Ok c /\
  lwip_assert (negb (p_len c =? p_tot_len c) || bool_decide (p_next c = None)) = Ok tt.
Proof.
  intros (Hc & Hl & _ & Hpos). split; [apply cell_ok; by destruct Hc as (_ & ? & _)|].
  by rewrite (not_a_queue _ _ _ _ Hc Hl Hpos).
Qed.

(** The bytes of a packet whose first pbuf is done. *)
Lemma copy_join d1 d2 p c l b1 b2 ot w r : NoDup (blocks ((p, c) :: l)) -> same_but (blocks l) d1 d2 ->
  zlen b1 = p_len c -> 0 <= ot -> ot + zlen w = p_len c ->
  content d1 ((p, c) :: l) = Ok (splice ot w (b1 ++ b2)) -> content d1 l = Ok b2 ->
  content d2 l = Ok (splice 0 r b2) -> content d2 ((p, c) :: l) = Ok (splice ot (w ++ r) (b1 ++ b2)).
Proof.
  intros Hnd Hsame Hb1 Hot Hw Hc1 Hc2 Hr. pose proof (zlen_nonneg w). rewrite splice_app_l in Hc1 by lia.
  assert (read_bytes d1 (p_payload c) 0 (p_len c) = Ok (splice ot w b1)) as Hrd.
  { apply content_cons_inv in Hc1 as (x & y & Hxy & Hx & Hy). rewrite Hc2 in Hy. injection Hy as <-.
    apply app_inv_tail in Hxy. by subst x. }
  rewrite (content_cons_frame d1 d2 _ _ _ _ _ Hnd Hsame Hrd Hr). f_equal.
  rewrite <- splice_splice, (splice_app_l ot) by (rewrite ?zlen_app; pose proof (zlen_nonneg b2); lia).
  assert (zlen (splice ot w b1) = ot + zlen w) as <- by (rewrite zlen_splice; lia).
  rewrite <- splice_app_r by lia. by rewrite Z.add_0_r.
Qed.

(** One round writes [len] bytes; then each side stays or moves on. *)
Lemma copy_loop_spec : forall fuel s pt ct lt pf cf lf ot ofr bt bf,
  copy_side s pt ct lt -> copy_side s pf cf lf ->
  content (data s) ((pt, ct) :: lt) = Ok bt -> content (data s) ((pf, cf) :: lf) = Ok bf ->
  NoDup (blocks ((pt, ct) :: lt)) ->
  (forall b, b ∈ blocks ((pt, ct) :: lt) -> b ∉ blocks ((pf, cf) :: lf)) ->
  0 <= ot <= p_len ct -> 0 <= ofr <= p_len cf ->
  zlen bf - ofr <= zlen bt - ot -> (length lt + length lf + 2 <= fuel)%nat ->
  exists d', copy_loop fuel s pt pf ot ofr = Ok (ERR_OK, set_data d' s) /\
    content d' ((pt, ct) :: lt) = Ok (splice ot (drop (Z.to_nat ofr) bf) bt) /\
    same_but (blocks ((pt, ct) :: lt)) (data s) d'.
Proof.
  induction fuel as [|fuel IH]; intros s pt ct lt pf cf lf ot ofr bt bf Ht Hf Hbt Hbf Hnd Hdis Hot Hof Hle Hfuel; [lia|].
  pose proof (copy_side_cell _ _ _ _ Ht) as [Hct Hqt]. pose proof (copy_side_cell _ _ _ _ Hf) as [Hcf Hqf].
  cbn [copy_loop]. rewrite Hct, Hcf. cbn [res_bind].
  pose proof Ht as (Hcht & Hlt & Hlent & _). pose proof Hf as (Hchf & (Hgef & _ & Hlf) & Hlenf & _).
  simpl in Hlent, Hlenf. pose proof (chain_len_nonneg lt ltac:(apply Hlt)). pose proof (chain_len_nonneg _ Hlf).
  pose proof Hbf as (bf1 & bf2 & -> & Hbf1 & Hbf2)%content_cons_inv.
  pose proof Hbt as (bt1 & bt2 & -> & Hbt1 & Hbt2)%content_cons_inv.
  pose proof (read_bytes_len _ _ (p_len ct) _ ltac:(lia) Hbt1) as Hlt1.
  pose proof (read_bytes_len _ _ _ _ Hgef Hbf1) as Hlf1.
  rewrite !zlen_app in Hle. rewrite (content_len _ _ _ Hlf Hbf2) in Hle.
  rewrite (content_len _ lt bt2 ltac:(apply Hlt) Hbt2) in Hle.
  rewrite !u16_id by lia. set (len := if _ >=? _ then p_len cf - ofr else _).
  assert (Hlen : 0 <= len /\ ofr + len <= p_len cf /\ ot + len <= p_len ct /\
            (ofr + len = p_len cf \/ ot + len = p_len ct)).
  { unfold len. destruct (p_len ct - ot >=? p_len cf - ofr) eqn:E; lia. }
  clearbody len. destruct Hlen as (Hlen0 & Hlenf1 & Hlent1 & Hadv).
  rewrite (read_bytes_sub _ _ (p_len cf) bf1) by (done || lia). cbn [res_bind].
  set (w := slice ofr len bf1). assert (Hw : zlen w = len) by (apply zlen_slice; lia).
  assert (Hdrop : drop (Z.to_nat ofr) (bf1 ++ bf2) = w ++ drop (Z.to_nat (ofr + len)) (bf1 ++ bf2)).
  { unfold w, slice. rewrite <- (take_drop (Z.to_nat len) (drop _ (bf1 ++ bf2))), drop_drop.
    rewrite !drop_app_le by (unfold zlen in *; lia).
    rewrite take_app_le by (rewrite length_drop; unfold zlen in *; lia).
    by replace (Z.to_nat (ofr + len)) with (Z.to_nat ofr + Z.to_nat len)%nat by lia. }
  destruct (write_head (data s) pt ct lt (bt1 ++ bt2) ot w Hlt Hbt Hnd ltac:(lia) ltac:(lia)) as (d1 & -> & Hc1 & Hfr & Hsame).
  cbn [res_bind]. rewrite !u16_id by lia.
  assert (HF : content d1 ((pf, cf) :: lf) = Ok (bf1 ++ bf2)).
  { rewrite <- Hbf. apply content_ext. intros b Hb. apply Hsame. intros Hin. by apply (Hdis b). }
  pose proof (NoDup_blocks_cons _ _ _ Hnd) as [Hnd' Hnin].
  assert (HT : content d1 lt = Ok bt2) by (by rewrite Hfr).
  replace (ot + len <=? p_len ct) with true by lia. replace (ofr + len <=? p_len cf) with true by lia.
  cbn [lwip_assert res_bind]. rewrite Hdrop.
  assert (HF2 : ofr + len = p_len cf -> drop (Z.to_nat (ofr + len)) (bf1 ++ bf2) = bf2).
  { intros ->. rewrite drop_app_ge by (unfold zlen in *; lia). replace (Z.to_nat (p_len cf) - length bf1)%nat with O by (unfold zlen in *; lia). done. }
  assert (Hdis' : forall b, b ∈ blocks ((pt, ct) :: lt) -> b ∉ blocks lf).
  { intros b Hb Hin. by eapply Hdis, in_blocks_cons. }
  assert (HFt : content d1 lf = Ok bf2).
  { rewrite <- Hbf2. apply content_ext. intros b Hb. apply Hsame. intros Hin. by apply (Hdis' b). }
  assert (Hfin : lf = [] -> ofr + len = p_len cf ->
    content d1 ((pt, ct) :: lt) = Ok (splice ot (w ++ drop (Z.to_nat (ofr + len)) (bf1 ++ bf2)) (bt1 ++ bt2))).
  { intros -> He. rewrite (HF2 He), Hc1. injection Hbf2 as <-. by rewrite app_nil_r. }
  assert (Hstay : forall d2 r, ot + len = p_len ct -> content d2 lt = Ok (splice 0 r bt2) -> same_but (blocks lt) d1 d2 ->
    content d2 ((pt, ct) :: lt) = Ok (splice ot (w ++ r) (bt1 ++ bt2)) /\ same_but (blocks ((pt, ct) :: lt)) (data s) d2).
  { intros d2 r He Hr Hsame2. split; [eapply copy_join; try done; lia|]. eapply same_but_trans; [done|].
    eapply same_but_weaken; [|done]. intros b. apply in_blocks_cons. }
  pose proof (content_len _ _ _ Hlf Hbf2) as Hbf2l. pose proof (content_len _ lt _ ltac:(apply Hlt) Hbt2) as Hbt2l.
  assert (Hpos : match lf with [] => chain_len lf = 0 | _ => 0 < chain_len lf end).
  { destruct lf as [|[f cf2] lf]; [done|]. destruct Hf as (_ & _ & _ & [Hp _]%Forall_cons). simpl in *.
    pose proof (chain_len_nonneg lf ltac:(apply Hlf)). lia. }
  destruct (Z.geb_spec (ofr + len) (p_len cf)) as [Hge|Hlt']; destruct (Z.eqb_spec (ot + len) (p_len ct)) as [He|Hne].
  - (* both pbufs are done *)
    destruct lf as [|[f cf2] lf]; destruct lt as [|[t ct2] lt]; try (simpl in *; lia).
    + rewrite (chain_tail _ _ _ _ Hcht), (chain_tail _ _ _ _ Hchf). exists d1. cbn. split_and!; [done|by apply Hfin; [|lia]|done].
    + apply copy_side_next in Ht as (Ht & Hnt & _). destruct (copy_side_cell _ _ _ _ Ht) as [Hc2 Hq2].
      rewrite Hnt, (chain_tail _ _ _ _ Hchf). exists d1. change (cell (set_data d1 s) t) with (cell s t).
      rewrite Hc2. cbn [lwip_assert res_bind]. rewrite Hq2. cbn [res_bind]. split_and!; [done|by apply Hfin; [|lia]|done].
    + apply copy_side_next in Ht as (Ht & Hnt & _). destruct (copy_side_cell _ _ _ _ Ht) as [Hc2 Hq2].
      apply copy_side_next in Hf as (Hf & Hnf & _). destruct (copy_side_cell _ _ _ _ Hf) as [Hc3 Hq3].
      rewrite Hnt, Hnf. change (cell (set_data d1 s) t) with (cell s t). change (cell (set_data d1 s) f) with (cell s f).
      rewrite Hc2, Hc3. cbn [lwip_assert res_bind]. rewrite Hq2, Hq3. cbn [res_bind].
      destruct (IH (set_data d1 s) t ct2 lt f cf2 lf 0 0 bt2 bf2) as (d2 & -> & Hr & Hs2); try done; try (simpl in *; lia).
      { intros b Hb. by apply Hdis', in_blocks_cons. }
      exists d2. rewrite HF2 by lia. split; [done|]. by apply Hstay.
  - (* the source pbuf is done *)
    change (cell (set_data d1 s) pt) with (cell s pt). rewrite Hct. cbn [res_bind]. rewrite Hqt.
    destruct lf as [|[f cf2] lf].
    + rewrite (chain_tail _ _ _ _ Hchf). exists d1. cbn. split_and!; [done|by apply Hfin; [|lia]|done].
    + apply copy_side_next in Hf as (Hf & Hnf & _). destruct (copy_side_cell _ _ _ _ Hf) as [Hc3 Hq3].
      rewrite Hnf. change (cell (set_data d1 s) f) with (cell s f). rewrite Hc3. cbn [lwip_assert res_bind].
      rewrite Hq3. cbn [res_bind].
      destruct (IH (set_data d1 s) pt ct lt f cf2 lf (ot + len) 0 (splice ot w (bt1 ++ bt2)) bf2) as (d2 & -> & Hr & Hs2);
        try done; try (simpl in *; lia).
      { rewrite zlen_splice by (rewrite ?zlen_app; lia). rewrite zlen_app. lia. }
      exists d2. rewrite HF2 by lia. split; [done|]. split; [|by eapply same_but_trans].
      rewrite Hr. f_equal. rewrite drop_0, <- Hw. apply splice_splice; [lia|]. rewrite zlen_app. lia.
  - (* the target pbuf is full *)
    change (cell (set_data d1 s) pf) with (cell s pf). rewrite Hcf. cbn [res_bind]. rewrite Hqf.
    destruct lt as [|[t ct2] lt]; [simpl in *; lia|].
    apply copy_side_next in Ht as (Ht & Hnt & _). destruct (copy_side_cell _ _ _ _ Ht) as [Hc2 Hq2].
    rewrite Hnt. change (cell (set_data d1 s) t) with (cell s t). rewrite Hc2. cbn [lwip_assert res_bind].
    rewrite Hq2. cbn [res_bind].
    destruct (IH (set_data d1 s) t ct2 lt pf cf lf 0 (ofr + len) bt2 (bf1 ++ bf2)) as (d2 & -> & Hr & Hs2);
      try done; try (simpl in *; lia).
    { intros b Hb. by apply Hdis, in_blocks_cons. }
    { rewrite zlen_app. lia. }
    exists d2. split; [done|]. by apply Hstay.
  - lia.
Qed.
End Writing.

(** ** Joining packets and moving headers *)
Section Joining.
Context {H M : Type} `{RA : !RamAlloc H} `{PA : !PoolAlloc M}.
Implicit Types s : pstate (H:=H) (M:=M).

(** The head chain after pbuf_cat of a tail of [n] bytes at [t]. *)
Fixpoint attach (n : Z) (t : ptr) (l : list (ptr * pbuf)) : list (ptr * pbuf) :=
  match l with
  | [] => []
  | (p, c) :: l' =>
      (p, set_pnext (match l' with [] => Some t | _ => p_next c end) (set_tot_len (u16 (p_tot_len c + n)) c)) :: attach n t l'
  end.

Lemma attach_ptrs n t l : (attach n t l).*1 = l.*1.
Proof. induction l as [|[p c] l IH]; [done|]. cbn. by f_equal. Qed.

Lemma attach_content n t l d lt : content d (attach n t l ++ lt) = content d (l ++ lt).
Proof. induction l as [|[p c] l IH]; [done|]. cbn. by rewrite IH. Qed.

Lemma attach_lens t l lt : lens_ok l -> lens_ok lt -> chain_len l + chain_len lt < 65536 ->
  lens_ok (attach (chain_len lt) t l ++ lt) /\ chain_len (attach (chain_len lt) t l ++ lt) = chain_len l + chain_len lt.
Proof.
  induction l as [|[p c] l IH]; [done|]. intros (Hge & Ht & Hl) Hlt Hs. pose proof (chain_len_nonneg _ Hl).
  pose proof (chain_len_nonneg _ Hlt). simpl chain_len in Hs. destruct (IH Hl Hlt ltac:(lia)) as [IH1 IH2].
  cbn [attach app lens_ok chain_len foldr snd set_pnext set_tot_len p_len p_tot_len].
  change (foldr (fun pc n => p_len pc.2 + n) 0) with chain_len. rewrite IH2, Ht, u16_id by lia.
  split; [|lia]. split_and!; [done|lia|done].
Qed.

(** What pbuf_cat does behind its loop. *)
Definition cat_last s (p t : ptr) : res (pstate (H:=H) (M:=M)) :=
  let! c := cell s p in
  assert! p_tot_len c =? p_len c in
  let! tc := cell s t in
  Ok (put s p (set_pnext (Some t) (set_tot_len (u16 (p_tot_len c + p_tot_len tc)) c))).

Lemma cat_spec l : forall fuel s h t tc lt, l <> [] -> chain (cells s) (Some h) l -> lens_ok l -> (length l <= fuel)%nat ->
  chain (cells s) (Some t) ((t, tc) :: lt) -> (forall p, p ∈ l.*1 -> p ∉ ((t, tc) :: lt).*1) ->
  exists m, (let! (p, s) := cat_walk fuel s h t in cat_last s p t) = Ok (set_cells m s) /\
    chain m (Some h) (attach (p_tot_len tc) t l ++ (t, tc) :: lt) /\
    forall p, p ∉ l.*1 -> m !! p = cells s !! p.
Proof.
  induction l as [|[p c] l IH]; intros fuel s h t tc lt Hne Hc Hl Hf Ht Hdis; [done|].
  pose proof Hc as ([= <-] & Hp & Hc'). destruct fuel as [|fuel]; simpl in Hf; [lia|].
  pose proof Ht as (_ & Htc & _). cbn [cat_walk]. rewrite (cell_ok _ _ _ Hp). cbn [res_bind].
  assert (Hpt : h ∉ ((t, tc) :: lt).*1) by (apply Hdis; by left).
  destruct l as [|[q cq] l].
  - simpl in Hc'. rewrite Hc'. cbn [res_bind]. unfold cat_last. rewrite (cell_ok _ _ _ Hp), (cell_ok _ _ _ Htc).
    cbn [res_bind]. destruct Hl as (_ & Htot & _). simpl in Htot. replace (p_tot_len c =? p_len c) with true by lia.
    eexists. split; [done|]. split; [|intros p [Hn _]%not_elem_of_cons; by rewrite lookup_insert_ne].
    split_and!; [done|apply lookup_insert_eq|]. by apply chain_put.
  - pose proof Hc' as (Hn & Hq & _). rewrite Hn, (cell_ok _ _ _ Htc). cbn [res_bind].
    set (c1 := set_tot_len _ c). pose proof (chain_NoDup _ _ _ Hc) as Hnd. cbn [fmap list_fmap fst] in Hnd.
    apply NoDup_cons in Hnd as [Hnin _].
    destruct (IH fuel (put s h c1) q t tc lt) as (m & Hm & Hch & Hout); try done.
    + apply chain_put; [done|]. by rewrite <- Hn.
    + apply Hl.
    + simpl in *; lia.
    + by apply chain_put.
    + intros x Hx. apply Hdis. by right.
    + exists m. rewrite Hm. split; [done|]. split.
      * split_and!; [done| |].
        -- rewrite Hout by done. apply lookup_insert_eq.
        -- cbn [c1 set_tot_len p_next]. by rewrite Hn.
      * intros x [Hx1 Hx2]%not_elem_of_cons. rewrite Hout by done. by apply lookup_insert_ne.
Qed.

Lemma pbuf_cat_spec s h l bs1 t tc lt bs2 : is_packet s h l bs1 -> is_packet s t ((t, tc) :: lt) bs2 -> l <> [] ->
  (forall p, p ∈ l.*1 -> p ∉ ((t, tc) :: lt).*1) -> zlen bs1 + zlen bs2 < 65536 ->
  exists m, pbuf_cat s h t = Ok (set_cells m s) /\
    packet m (data s) h (attach (zlen bs2) t l ++ (t, tc) :: lt) (bs1 ++ bs2) /\
    forall p, p ∉ l.*1 -> m !! p = cells s !! p.
Proof.
  intros Hpk (Hct & Hlt & Htlt & Hbt) Hne Hdis Hsum. pose proof (packet_walk _ _ _ _ Hpk) as Hw.
  destruct Hpk as (Hc & Hl & Hlt1 & Hb). destruct (cat_spec l (walk s) s h t tc lt Hne Hc Hl Hw Hct Hdis) as (m & Hm & Hch & Hout).
  pose proof (content_len _ _ _ Hl Hb) as H1. pose proof (content_len _ _ _ Hlt Hbt) as H2.
  assert (Htot : p_tot_len tc = zlen bs2) by (rewrite H2; destruct Hlt as (_ & -> & _); done).
  rewrite Htot in Hch. exists m. split; [exact Hm|]. split; [|done].
  destruct (attach_lens t l ((t, tc) :: lt) Hl Hlt ltac:(lia)) as [H3 H4]. rewrite <- H2 in H3, H4.
  split_and!; [done|done|lia|]. rewrite attach_content, content_app, Hb, Hbt. done.
Qed.

(** The pbuf after pbuf_header moved its payload. *)
Definition moved (p : ptr) (o inc : Z) (c : pbuf) : pbuf :=
  set_payload (Some (Own p, o - inc)) (set_len (p_len c + inc) (set_tot_len (p_tot_len c + inc) c)).

Lemma pbuf_header_ok s p c o inc : cells s !! p = Some c -> p_payload c = Some (Own p, o) -> 0 <= o ->
  p_type c = PBUF_RAM \/ p_type c = PBUF_POOL -> -32768 <= inc < 32768 ->
  0 <= p_len c + inc -> p_len c <= p_tot_len c -> p_tot_len c < 65536 -> p_tot_len c + inc < 65536 ->
  pbuf_header s p inc = if inc <=? o then Ok (false, put s p (moved p o inc c)) else Ok (true, s).
Proof.
  intros Hp Hpay Ho Hty Hinc H1 H2 H3 H4. unfold pbuf_header. destruct (Z.eqb_spec inc 0) as [->|Hne].
  - replace (0 <=? o) with true by lia. f_equal. f_equal. unfold put, moved, set_cells.
    rewrite Z.sub_0_r, !Z.add_0_r, <- Hpay. destruct s as [m st d h pl]. simpl in *. f_equal.
    rewrite insert_id; [done|]. by destruct c.
  - rewrite (cell_ok _ _ _ Hp). cbn [res_bind]. rewrite (u16_id (Z.abs inc)) by lia.
    replace ((inc >=? 0) || (Z.abs inc <=? p_len c)) with true by lia. cbn [lwip_assert res_bind].
    unfold payload_off. rewrite Hpay, decide_True by done. rewrite !u16_id by lia.
    cbn [res_bind]. unfold SIZEOF_STRUCT_PBUF. destruct Hty as [-> | ->];
    (destruct (Z.ltb_spec (24 + o - inc) 24); [replace (inc <=? o) with false by lia; done|];
     replace (inc <=? o) with true by lia; do 4 f_equal; unfold moved; do 3 f_equal; lia).
Qed.
End Joining.

Section Header.
Context {H M : Type} `{RA : !RamAlloc H} `{PA : !PoolAlloc M}.
Implicit Types s : pstate (H:=H) (M:=M).

Lemma moved_back p o inc c : p_payload c = Some (Own p, o) -> moved p (o - inc) (- inc) (moved p o inc c) = c.
Proof.
  destruct c as [nx pay tl ln ty fl rf og]. cbn. intros ->. unfold moved, set_payload, set_len, set_tot_len. cbn.
  f_equal; [|lia..]. do 2 f_equal. lia.
Qed.

Lemma put_twice s p c c' : put (put s p c') p c = put s p c.
Proof. unfold put, set_cells. cbn. by rewrite insert_insert_eq. Qed.
Lemma put_same s p c : cells s !! p = Some c -> put s p c = s.
Proof. intros Hp. destruct s. unfold put, set_cells. cbn in *. by rewrite insert_id. Qed.

Lemma read_window d p o n mem : d !! Own p = Some mem -> 0 <= o -> 0 <= n -> o + n <= zlen mem ->
  read_bytes d (Some (Own p, o)) 0 n = Ok (slice o n mem).
Proof.
  intros Hd H1 H2 H3. unfold read_bytes. destruct (Z.eqb_spec n 0) as [->|]; [done|]. cbn. rewrite Hd. cbn.
  rewrite Z.add_0_r. by replace ((0 <=? o) && (0 <=? n) && (o + n <=? zlen mem)) with true by lia.
Qed.

(** A packet whose first pbuf is moved. *)
Lemma moved_packet s p c l bs o inc mem : is_packet s p ((p, c) :: l) bs ->
  p_payload c = Some (Own p, o) -> data s !! Own p = Some mem -> 0 <= o - inc -> 0 <= o -> o + p_len c <= zlen mem ->
  0 <= p_len c + inc -> zlen bs + inc < 65536 ->
  is_packet (put s p (moved p o inc c)) p ((p, moved p o inc c) :: l)
    (slice (o - inc) (p_len c + inc) mem ++ drop (Z.to_nat (p_len c)) bs).
Proof.
  intros (Hc & Hl & Hlt & Hb) Hpay Hmem Hi Ho Hfit H1 H2. rewrite (content_len _ _ _ Hl Hb) in H2.
  pose proof (chain_NoDup _ _ _ Hc) as [Hnin _]%NoDup_cons. pose proof Hc as (_ & Hp & Hc').
  apply content_cons_inv in Hb as (b1 & b2 & -> & Hb1 & Hb2). destruct Hl as (Hge & Ht & Hl).
  pose proof (read_bytes_len _ _ _ _ Hge Hb1) as Hlb. simpl in H2, Hlt. split_and!.
  - split_and!; [done|apply lookup_insert_eq|]. by apply chain_put.
  - split_and!; [cbn; lia|cbn; lia|done].
  - cbn. change (foldr _ 0 l) with (chain_len l). lia.
  - cbn [content moved set_payload set_len p_payload p_len data put set_cells].
    rewrite (read_window _ _ _ _ mem) by (done || lia). rewrite Hb2. cbn [res_bind].
    rewrite drop_app_ge by (unfold zlen in *; lia). replace (Z.to_nat (p_len c) - length b1)%nat with O by (unfold zlen in *; lia).
    done.
Qed.

Lemma hidden_bytes s p c l bs o inc mem : is_packet s p ((p, c) :: l) bs ->
  p_payload c = Some (Own p, o) -> data s !! Own p = Some mem -> 0 <= o -> o + p_len c <= zlen mem ->
  - inc <= p_len c -> inc <= 0 ->
  slice (o - inc) (p_len c + inc) mem ++ drop (Z.to_nat (p_len c)) bs = drop (Z.to_nat (- inc)) bs.
Proof.
  intros (Hc & Hl & Hlt & Hb) Hpay Hmem Ho Hfit H1 H2. destruct Hl as (Hge & _ & _).
  apply content_cons_inv in Hb as (b1 & b2 & -> & Hb1 & Hb2). pose proof (read_bytes_len _ _ _ _ Hge Hb1) as Hlb.
  rewrite Hpay, (read_window _ _ _ _ mem) in Hb1 by (done || lia). injection Hb1 as <-.
  rewrite drop_app_ge, drop_app_le by (unfold zlen in *; lia).
  replace (Z.to_nat (p_len c) - length (slice o (p_len c) mem))%nat with O by (unfold zlen in *; lia). f_equal.
  unfold slice. rewrite skipn_firstn_comm, drop_drop. f_equal; [lia|f_equal; lia].
Qed.
End Header.

(** ** A concrete store for the witnesses *)

(** Two packets: 1, 2 | 3, 4, 5 and a single pbuf of four bytes with room of
    two bytes in front. *)
Definition demo_state : pstate (H:=Mem.heap) (M:=memp_state) :=
  mk_ps (<[MempPtr 13 1 := mk_pbuf (Some (MempPtr 13 2)) (Some (Ext 1, 0)) 5 2 PBUF_REF 0 1 None]>
          (<[MempPtr 13 2 := mk_pbuf None (Some (Ext 2, 1)) 3 3 PBUF_REF 0 1 None]>
            (<[RamPtr 6 := mk_pbuf None (Some (Own (RamPtr 6), 2)) 6 6 PBUF_RAM 0 1 None]> ∅))) ∅
    (<[Ext 1 := [1; 2]]> (<[Ext 2 := [0; 3; 4; 5]]> (<[Own (RamPtr 6) := [0; 0; 9; 9; 9; 9; 9; 9]]> ∅)))
    mem_init (mk_memp ∅ []).

#[local] Instance demo_pools : PoolAlloc memp_state := memp_pool_alloc [] 0 (List.Forall_nil _).

Definition demo_l : list (ptr * pbuf) :=
  [(MempPtr 13 1, mk_pbuf (Some (MempPtr 13 2)) (Some (Ext 1, 0)) 5 2 PBUF_REF 0 1 None);
   (MempPtr 13 2, mk_pbuf None (Some (Ext 2, 1)) 3 3 PBUF_REF 0 1 None)].
Definition demo_r : list (ptr * pbuf) := [(RamPtr 6, mk_pbuf None (Some (Own (RamPtr 6), 2)) 6 6 PBUF_RAM 0 1 None)].

Lemma demo_packet : is_packet demo_state (MempPtr 13 1) demo_l [1; 2; 3; 4; 5].
Proof. repeat split; try reflexivity; vm_compute; discriminate. Qed.
Lemma demo_packet_ram : is_packet demo_state (RamPtr 6) demo_r [9; 9; 9; 9; 9; 9].
Proof. repeat split; try reflexivity; vm_compute; discriminate. Qed.

(** ** Properties *)
Section Properties.
Context {H M : Type} `{RA : !RamAlloc H} `{PA : !PoolAlloc M}.
Implicit Types s : pstate (H:=H) (M:=M).

(** Reading a packet does not depend on the cut into pbufs: pbuf_copy_partial
    writes exactly the bytes from [offset] on, as many as asked for or as there
    are, and pbuf_get_at is the byte at an offset, 0 behind the end. Neither
    touches memory outside the pbufs, and their loops end. *)
Theorem pbuf_read_correct s p l bs len offset : is_packet s p l bs -> 0 <= len -> 0 <= offset ->
  pbuf_copy_partial s p len offset = Ok (slice offset len bs) /\
  pbuf_get_at s p offset = Ok (byte_at bs offset).
Proof.
  intros Hpk Hlen Hoff. pose proof (packet_walk _ _ _ _ Hpk). split; [|by eapply pbuf_get_at_spec].
  destruct Hpk as (Hc & Hl & Hlt & Hb). by eapply copy_partial_loop_spec.
Qed.

(** pbuf_memfind of a non-empty buffer ends and is sound: a result other
    than 0xFFFF is an offset from [start_offset] on at which the packet holds
    the buffer. For a buffer of one byte it is the first such offset, and
    0xFFFF means that there is none. *)
Theorem pbuf_memfind_correct s p l bs mem start_offset : is_packet s p l bs -> 0 < zlen mem < 65536 ->
  is_u16 start_offset ->
  exists r, pbuf_memfind s p mem start_offset = Ok r /\
    (r = 0xFFFF \/ start_offset <= r /\ r + zlen mem <= zlen bs /\ slice r (zlen mem) bs = mem) /\
    (zlen mem = 1 -> forall j, start_offset <= j -> (j < r \/ r = 0xFFFF) -> j + 1 <= zlen bs -> slice j 1 bs <> mem).
Proof.
  intros Hpk Hm Hs. unfold pbuf_memfind. pose proof Hpk as (Hc & Hl & Hlt & Hb).
  pose proof (content_len _ _ _ Hl Hb) as Hlen. destruct l as [|[p' c] l]; [done|].
  pose proof Hc as ([= <-] & Hp & _). pose proof Hl as (_ & Ht & _).
  rewrite (cell_ok _ _ _ Hp). cbn [res_bind]. change (p_len c + chain_len l) with (chain_len ((p, c) :: l)) in Ht.
  rewrite Ht, <- Hlen in *. pose proof (zlen_nonneg bs). unfold is_u16 in Hs.
  destruct (Z.geb_spec (zlen bs) (zlen mem + start_offset)).
  - rewrite u16_id by lia. destruct (memfind_loop_spec s p _ bs mem (zlen bs - zlen mem) Hpk) with
      (fuel := memfind_fuel) (i := start_offset) as (r & -> & Hr & Hcmp); [lia..|unfold memfind_fuel; lia|].
    exists r. split; [done|]. split; [destruct Hr as [?|[? ?]]; [by left|right; split_and!; [lia|lia|done]]|].
    intros Hone j Hj1 Hj2 Hj3. apply Hcmp; lia.
  - exists 0xFFFF. split; [done|]. split; [by left|]. intros. lia.
Qed.

(** pbuf_take overwrites the first bytes of the packet with the buffer and
    leaves the rest of the packet, and all memory outside its pbufs, as it was;
    a buffer that is longer than the packet is refused and nothing changes. *)
Theorem pbuf_take_correct s p l bs w : is_packet s p l bs -> NoDup (blocks l) ->
  if zlen bs <? zlen w then pbuf_take s p w = Ok (ERR_ARG, s)
  else exists d, pbuf_take s p w = Ok (ERR_OK, set_data d s) /\
       is_packet (set_data d s) p l (w ++ drop (length w) bs) /\ same_but (blocks l) (data s) d.
Proof.
  intros Hpk Hnd. pose proof (packet_walk _ _ _ _ Hpk) as Hw. destruct Hpk as (Hc & Hl & Hlt & Hb).
  pose proof (content_len _ _ _ Hl Hb) as Hlen. unfold pbuf_take. destruct l as [|[p' c] l]; [done|].
  pose proof Hc as ([= <-] & Hp & _). pose proof Hl as (_ & Ht & _).
  rewrite (cell_ok _ _ _ Hp). cbn [res_bind]. change (p_len c + chain_len l) with (chain_len ((p, c) :: l)) in Ht.
  rewrite Ht, <- Hlen. destruct (Z.ltb_spec (zlen bs) (zlen w)); [done|].
  destruct (take_loop_spec _ (walk s) s (Some p) bs w Hc Hl Hb Hnd ltac:(lia) Hw) as (d & -> & Hd & Hs).
  exists d. cbn [res_bind]. rewrite splice_0 in Hd. unfold is_packet, packet. by split_and!.
Qed.

(** pbuf_copy makes the first bytes of the target those of the source,
    however the two are cut into pbufs, leaves the rest of the target, the
    source and all other memory as they were, and ends; none of its assertions
    fails when the target is long enough, the packets share no memory and no
    pbuf but the first is empty. *)
Theorem pbuf_copy_correct s pt ct lt bt pf cf lf bf :
  is_packet s pt ((pt, ct) :: lt) bt -> is_packet s pf ((pf, cf) :: lf) bf ->
  NoDup (blocks ((pt, ct) :: lt)) -> (forall b, b ∈ blocks ((pt, ct) :: lt) -> b ∉ blocks ((pf, cf) :: lf)) ->
  Forall (fun pc => 0 < p_len pc.2) lt -> Forall (fun pc => 0 < p_len pc.2) lf -> zlen bf <= zlen bt ->
  exists d, pbuf_copy s pt pf = Ok (ERR_OK, set_data d s) /\
    is_packet (set_data d s) pt ((pt, ct) :: lt) (bf ++ drop (length bf) bt) /\
    is_packet (set_data d s) pf ((pf, cf) :: lf) bf /\ same_but (blocks ((pt, ct) :: lt)) (data s) d.
Proof.
  intros Ht Hf Hnd Hdis Hpt Hpf Hle. pose proof (packet_walk _ _ _ _ Ht) as Hwt. pose proof (packet_walk _ _ _ _ Hf) as Hwf.
  pose proof Ht as (Hct & Hlt & Hlent & Hbt). pose proof Hf as (Hcf & Hlf & Hlenf & Hbf).
  pose proof (content_len _ _ _ Hlt Hbt) as H1. pose proof (content_len _ _ _ Hlf Hbf) as H2.
  pose proof Hlt as (Hgt & Htt & _). pose proof Hlf as (Hgf & Htf & _).
  unfold pbuf_copy. pose proof Hct as (_ & Hp & _). rewrite (cell_ok _ _ _ Hp).
  pose proof Hcf as (_ & Hq & _). rewrite (cell_ok _ _ _ Hq). cbn [res_bind].
  simpl chain_len in H1, H2. replace (p_tot_len ct >=? p_tot_len cf) with true by lia. cbn [lwip_assert res_bind].
  destruct (copy_loop_spec (2 * walk s) s pt ct lt pf cf lf 0 0 bt bf) as (d & -> & Hd & Hs); try done; try lia.
  { simpl in Hwt, Hwf. unfold walk in *. lia. }
  exists d. rewrite splice_0 in Hd. unfold is_packet, packet. split_and!; try done.
  rewrite <- Hbf. cbn [data set_data]. apply content_ext. intros b Hb. apply Hs.
  intros Hin. by apply (Hdis b).
Qed.

(** pbuf_cat joins two packets: the result is one packet with the bytes of
    the head followed by those of the tail, its total lengths are consistent
    again in every pbuf, and no other pbuf and no byte is touched. *)
Theorem pbuf_cat_correct s h l bs1 t tc lt bs2 : is_packet s h l bs1 -> is_packet s t ((t, tc) :: lt) bs2 -> l <> [] ->
  (forall p, p ∈ l.*1 -> p ∉ ((t, tc) :: lt).*1) -> zlen bs1 + zlen bs2 < 65536 ->
  exists m l', pbuf_cat s h t = Ok (set_cells m s) /\ l'.*1 = l.*1 /\
    is_packet (set_cells m s) h (l' ++ (t, tc) :: lt) (bs1 ++ bs2) /\
    forall p, p ∉ l.*1 -> m !! p = cells s !! p.
Proof.
  intros Hh Ht Hne Hdis Hsum. destruct (pbuf_cat_spec s h l bs1 t tc lt bs2) as (m & Hm & Hpk & Hout); try done.
  exists m, (attach (zlen bs2) t l). by rewrite attach_ptrs.
Qed.

(** pbuf_header on a RAM or POOL pbuf: a header grows by [inc] bytes
    exactly when that much room is in front of the payload (otherwise nothing
    changes and failure is reported), a negative [inc] hides [-inc] bytes; the
    lengths follow, and moving back restores the state exactly. The payload
    never leaves the pbuf's own memory. *)
Theorem pbuf_header_correct s p c l bs o inc mem : is_packet s p ((p, c) :: l) bs ->
  p_payload c = Some (Own p, o) -> data s !! Own p = Some mem -> 0 <= o -> o + p_len c <= zlen mem ->
  p_type c = PBUF_RAM \/ p_type c = PBUF_POOL ->
  -32768 < inc < 32768 -> - inc <= p_len c -> zlen bs + inc < 65536 ->
  if inc <=? o then
    exists s', pbuf_header s p inc = Ok (false, s') /\
      is_packet s' p ((p, moved p o inc c) :: l) (slice (o - inc) (p_len c + inc) mem ++ drop (Z.to_nat (p_len c)) bs) /\
      (inc <= 0 -> is_packet s' p ((p, moved p o inc c) :: l) (drop (Z.to_nat (- inc)) bs)) /\
      pbuf_header s' p (- inc) = Ok (false, s)
  else pbuf_header s p inc = Ok (true, s).
Proof.
  intros Hpk Hpay Hmem Ho Hfit Hty Hinc Hle Hsum. pose proof Hpk as ((_ & Hp & _) & Hl & Hlt & Hb).
  pose proof (content_len _ _ _ Hl Hb) as Hlen. pose proof Hl as (Hge & Ht & Hl2). pose proof (chain_len_nonneg _ Hl2).
  simpl chain_len in *. rewrite (pbuf_header_ok s p c o inc) by (done || lia).
  destruct (Z.leb_spec inc o); [|done]. eexists. split; [done|].
  pose proof (moved_packet s p c l bs o inc mem Hpk Hpay Hmem ltac:(lia) Ho Hfit ltac:(lia) ltac:(lia)) as Hm.
  split_and!; [done| |].
  - intros Hneg. by rewrite <- (hidden_bytes s p c l bs o inc mem Hpk).
  - rewrite (pbuf_header_ok _ p (moved p o inc c) (o - inc) (- inc));
      [|apply lookup_insert_eq|done|lia|done|lia|cbn; lia|cbn; lia|cbn; lia|cbn; lia].
    replace (- inc <=? o - inc) with true by lia. rewrite put_twice, moved_back by done. by rewrite put_same.
Qed.
End Properties.

Lemma pbuf_read_correct_witness : pbuf_copy_partial demo_state (MempPtr 13 1) 3 1 = Ok [2; 3; 4] /\
  pbuf_get_at demo_state (MempPtr 13 1) 7 = Ok 0.
Proof.
  split; [apply (pbuf_read_correct demo_state _ _ _ 3 1 demo_packet); lia|].
  apply (pbuf_read_correct demo_state _ _ _ 3 7 demo_packet); lia.
Defined.

Lemma pbuf_memfind_correct_witness : exists r, pbuf_memfind demo_state (MempPtr 13 1) [4] 0 = Ok r /\ r = 3.
Proof.
  destruct (pbuf_memfind_correct demo_state _ _ _ [4] 0 demo_packet) as (r & Hr & _);
    [vm_compute; by split|vm_compute; by split|].
  exists r. split; [exact Hr|]. vm_compute in Hr. congruence.
Defined.

Lemma pbuf_take_correct_witness : exists d, pbuf_take demo_state (MempPtr 13 1) [7; 8; 9] = Ok (ERR_OK, set_data d demo_state) /\
  content d demo_l = Ok [7; 8; 9; 4; 5].
Proof.
  assert (Hnd : NoDup (blocks demo_l)) by (apply (bool_decide_unpack _); vm_compute; exact I).
  destruct (pbuf_take_correct demo_state _ _ _ [7; 8; 9] demo_packet Hnd) as (d & Ht & (_ & _ & _ & Hd) & _).
  exists d. split; [exact Ht|exact Hd].
Defined.

Lemma pbuf_copy_correct_witness : exists d, pbuf_copy demo_state (RamPtr 6) (MempPtr 13 1) = Ok (ERR_OK, set_data d demo_state) /\
  content d demo_r = Ok [1; 2; 3; 4; 5; 9].
Proof.
  destruct (pbuf_copy_correct demo_state _ _ _ _ _ _ _ _ demo_packet_ram demo_packet) as (d & Ht & (_ & _ & _ & Hd) & _ & _).
  - apply (bool_decide_unpack _). vm_compute. exact I.
  - apply list_apart. vm_compute. reflexivity.
  - constructor.
  - repeat constructor.
  - vm_compute. discriminate.
  - exists d. split; [exact Ht|exact Hd].
Defined.

Lemma pbuf_cat_correct_witness : exists m, pbuf_cat demo_state (RamPtr 6) (MempPtr 13 1) = Ok (set_cells m demo_state) /\
  exists l, packet m (data demo_state) (RamPtr 6) l [9; 9; 9; 9; 9; 9; 1; 2; 3; 4; 5].
Proof.
  destruct (pbuf_cat_correct demo_state (RamPtr 6) demo_r _ (MempPtr 13 1) _ _ _ demo_packet_ram demo_packet)
    as (m & l' & Hm & _ & Hpk & _).
  - discriminate.
  - apply list_apart. vm_compute. reflexivity.
  - vm_compute. done.
  - exists m. split; [exact Hm|]. eexists. exact Hpk.
Defined.

Lemma pbuf_header_correct_witness : exists s', pbuf_header demo_state (RamPtr 6) (-4) = Ok (false, s') /\
  pbuf_header s' (RamPtr 6) 4 = Ok (false, demo_state).
Proof.
  assert (Hm : data demo_state !! Own (RamPtr 6) = Some [0; 0; 9; 9; 9; 9; 9; 9]) by (vm_compute; reflexivity).
  pose proof (pbuf_header_correct demo_state (RamPtr 6) _ _ _ 2 (-4) _ demo_packet_ram eq_refl Hm
    ltac:(lia) ltac:(vm_compute; discriminate) (or_introl eq_refl) ltac:(lia) ltac:(vm_compute; discriminate)
    ltac:(vm_compute; reflexivity)) as (s' & Hs & _ & _ & Hb).
  exists s'. split; [exact Hs|exact Hb].
Defined.

(** pbuf_memfind moves on behind the first difference, although the match may
    begin at a byte that was compared: it does not find 1, 2 in 1, 1, 2. *)
Example pbuf_memfind_misses :
  let s := set_data (<[Ext 1 := [1; 1]]> (<[Ext 2 := [0; 2; 4; 5]]> ∅)) demo_state in
  is_packet s (MempPtr 13 1) demo_l [1; 1; 2; 4; 5] /\ pbuf_memfind s (MempPtr 13 1) [1; 2] 0 = Ok 0xFFFF.
Proof. split; [repeat split; try reflexivity; vm_compute; discriminate|vm_compute; reflexivity]. Qed.

(** pbuf_memcmp of a buffer that runs over the end of the packet compares with
    zero bytes; its comment promises 0xffff. *)
Example pbuf_memcmp_past_end : pbuf_memcmp demo_state (MempPtr 13 1) 4 [5; 0; 0] = Ok 0.
Proof. reflexivity. Qed.
