(* ===== verification/PbufAlloc.v ===== *)
(** * Allocating and releasing packets

    The consistency of the pbufs with the heap and the pools they are allocated
    from, and that pbuf_alloc and pbuf_free keep it: no pbuf is handed out
    twice, a pbuf is released exactly when its last reference goes, and the
    memory of the others is not touched. Proved against the interfaces of Mem.v
    and Memp.v. *)
From S2P Require Import Prelude Mem Memp Pbuf PbufChain.

Section Alloc.
Context {H M : Type} `{RA : !RamAlloc H} `{PA : !PoolAlloc M}.
Context (junk : Z -> Z).
Implicit Types s : pstate (H:=H) (M:=M).

Definition is_custom (c : pbuf) : bool := has_flag (p_flags c) PBUF_FLAG_IS_CUSTOM.

(** Where a pbuf of each kind lives. *)
Definition cell_home (p : ptr) (c : pbuf) : Prop :=
  match p with
  | RamPtr _ => p_type c = PBUF_RAM /\ is_custom c = false
  | MempPtr t _ =>
      (t = MEMP_PBUF_POOL /\ p_type c = PBUF_POOL /\ is_custom c = false) \/
      (t = MEMP_PBUF /\ (p_type c = PBUF_ROM \/ p_type c = PBUF_REF) /\ is_custom c = false) \/
      (t = MEMP_FRAG_PBUF /\ p_type c = PBUF_REF /\ is_custom c = true)
  end.

(** [L]: the areas of the heap in use; [F]: the free elements of each pool. *)
Record store_ok s (L : gmap Z Z) (F : nat -> list Z) : Prop := {
  so_ram : ra_ok (heap s) L;
  so_pools : pa_free_list (pools s) F;
  so_home p c : cells s !! p = Some c -> cell_home p c;
  so_area a c : cells s !! RamPtr a = Some c ->
    exists n mem, L !! a = Some n /\ data s !! Own (RamPtr a) = Some mem /\
      SIZEOF_STRUCT_PBUF + zlen mem <= n /\ SIZEOF_STRUCT_PBUF + zlen mem < 65536;
  so_elem t e c : cells s !! MempPtr t e = Some c -> pa_elem t e /\ e ∉ F t;
  so_bufs e : pa_elem MEMP_PBUF_POOL e ->
    exists mem, data s !! Own (MempPtr MEMP_PBUF_POOL e) = Some mem /\ zlen mem = PBUF_POOL_BUFSIZE;
  so_stale e c : stale s !! MempPtr MEMP_PBUF_POOL e = Some c -> is_custom c = false;
}.

(** The pools of memp_std.h are there. *)
Context (pools_ok : (MEMP_PBUF_POOL < pa_pools)%nat).

Lemma home_pool t e c : cell_home (MempPtr t e) c ->
  t = MEMP_PBUF_POOL \/ t = MEMP_PBUF \/ t = MEMP_FRAG_PBUF.
Proof. intros [(-> & _)|[(-> & _)|(-> & _)]]; auto. Qed.

Lemma home_lt t e c : cell_home (MempPtr t e) c -> (t < pa_pools)%nat.
Proof. unfold MEMP_PBUF_POOL in pools_ok. intros [->|[->| ->]]%home_pool; unfold MEMP_PBUF_POOL, MEMP_PBUF, MEMP_FRAG_PBUF; lia. Qed.

(** Changing the fields of a pbuf that do not concern its allocation. *)
Lemma store_ok_put s L F p c c' : store_ok s L F -> cells s !! p = Some c ->
  cell_home p c' -> store_ok (put s p c') L F.
Proof.
  intros [H1 H2 H3 H4 H5 H6 H7] Hp Hh. split; cbn; try done.
  - intros q cq [[<- <-]|[_ Hq]]%lookup_insert_Some; [done|by apply H3].
  - intros a ca [[-> _]|[_ Hq]]%lookup_insert_Some; by eapply H4.
  - intros t e ce [[-> _]|[_ Hq]]%lookup_insert_Some; by eapply H5.
Qed.

(** ** Releasing *)

(** The pbufs that go, and the first one that stays with one reference less. *)
Fixpoint freed (l : list (ptr * pbuf)) : list (ptr * pbuf) * option (ptr * pbuf) :=
  match l with
  | [] => ([], None)
  | (p, c) :: l => if p_ref c =? 1 then let '(d, k) := freed l in ((p, c) :: d, k) else ([], Some (p, c))
  end.

(** The store after the pbufs [d] are gone and [k] lost a reference. *)
Definition after_free s s' (d : list (ptr * pbuf)) (k : option (ptr * pbuf)) : Prop :=
  (forall q, q ∈ d.*1 -> cells s' !! q = None) /\
  (forall q, q ∉ d.*1 -> cells s' !! q = match k with
     | Some (p, c) => if decide (q = p) then Some (set_ref (p_ref c - 1) c) else cells s !! q
     | None => cells s !! q end) /\
  (forall b, (forall q, q ∈ d.*1 -> b <> Own q) -> data s' !! b = data s !! b).

(** Releasing one pbuf that is not custom. *)
Definition release s p c : res (pstate (H:=H) (M:=M)) :=
  match p_type c with
  | PBUF_POOL => memp_free_pbuf s MEMP_PBUF_POOL p
  | PBUF_ROM | PBUF_REF => memp_free_pbuf s MEMP_PBUF p
  | PBUF_RAM => mem_free_pbuf s p
  end.

Lemma memp_free_pbuf_ok s L F t e c : store_ok s L F -> cells s !! MempPtr t e = Some c -> is_custom c = false ->
  exists s' F', memp_free_pbuf s t (MempPtr t e) = Ok s' /\ store_ok s' L F' /\
    cells s' = delete (MempPtr t e) (cells s) /\ data s' = data s.
Proof.
  intros Hok Hp Hcu. pose proof Hok as [H1 H2 H3 H4 H5 H6 H7].
  destruct (H5 _ _ _ Hp) as [He Hn]. pose proof (home_lt _ _ _ (H3 _ _ Hp)) as Hlt.
  destruct (pa_free_spec _ _ _ _ H2 Hlt He Hn) as (m & Hm & Hm').
  unfold memp_free_pbuf. rewrite decide_True by done. rewrite (cell_ok _ _ _ Hp). cbn [res_bind]. rewrite Hm.
  eexists _, _. split; [done|]. split; [|done]. split; cbn; try done.
  - intros q cq [_ Hq]%lookup_delete_Some. by apply H3.
  - intros a ca [_ Hq]%lookup_delete_Some. by eapply H4.
  - intros u x cx [Hne Hq]%lookup_delete_Some. destruct (H5 _ _ _ Hq) as [Hx Hxn]. split; [done|].
    unfold upd. case_decide; [subst u|done]. intros [->|?]%elem_of_cons; [by apply Hne|done].
  - intros x cx [[_ <-]|[_ Hx]]%lookup_insert_Some; [done|by eapply H7].
Qed.

Lemma mem_free_pbuf_ok s L F a c : store_ok s L F -> cells s !! RamPtr a = Some c ->
  exists s' L', mem_free_pbuf s (RamPtr a) = Ok s' /\ store_ok s' L' F /\
    cells s' = delete (RamPtr a) (cells s) /\ data s' = delete (Own (RamPtr a)) (data s).
Proof.
  intros [H1 H2 H3 H4 H5 H6 H7] Hp. destruct (H4 _ _ Hp) as (n & mem & Hn & _).
  destruct (ra_free_spec _ _ _ _ H1 Hn) as (h & Hh & Hh'). unfold mem_free_pbuf. rewrite Hh. cbn [res_bind].
  eexists _, _. split; [done|]. split; [|done]. split; cbn; try done.
  - intros q cq [_ Hq]%lookup_delete_Some. by apply H3.
  - intros b cb [Hne Hq]%lookup_delete_Some. assert (a <> b) by congruence.
    destruct (H4 _ _ Hq) as (n' & mem' & Hn' & Hmem' & Hle & Hle'). exists n', mem'.
    rewrite !lookup_delete_ne by congruence. done.
  - intros t e ce [_ Hq]%lookup_delete_Some. by eapply H5.
  - intros e He. rewrite lookup_delete_ne by congruence. by apply H6.
Qed.

Lemma release_ok s L F p c : store_ok s L F -> cells s !! p = Some c -> is_custom c = false ->
  exists s' L' F', release s p c = Ok s' /\ store_ok s' L' F' /\ cells s' = delete p (cells s) /\
    forall b, b <> Own p -> data s' !! b = data s !! b.
Proof.
  intros Hok Hp Hcu. pose proof (so_home _ _ _ Hok _ _ Hp) as Hh. destruct p as [a|t e].
  - destruct Hh as [Hty _]. destruct (mem_free_pbuf_ok s L F a c Hok Hp) as (s' & L' & Hf & Hok' & Hc & Hd).
    exists s', L', F. unfold release. rewrite Hty. split_and!; try done. intros b Hb. rewrite Hd. by rewrite lookup_delete_ne.
  - destruct (memp_free_pbuf_ok s L F t e c Hok Hp Hcu) as (s' & F' & Hf & Hok' & Hc & Hd).
    exists s', L, F'. rewrite <- Hf, Hd. split_and!; try done. unfold release.
    destruct Hh as [(-> & -> & _)|[(-> & [-> | ->] & _)|(_ & _ & Hx)]]; [done..|congruence].
Qed.

Lemma freed_split l : let '(d, k) := freed l in
  Forall (fun pc => p_ref pc.2 = 1) d /\
  match k with Some (p, c) => p_ref c <> 1 /\ exists r, l = d ++ (p, c) :: r | None => l = d end.
Proof.
  induction l as [|[p c] l IH]; simpl; [by split; [constructor|]|].
  destruct (Z.eqb_spec (p_ref c) 1) as [He|Hne]; [|split; [constructor|split; [done|by exists l]]].
  destruct (freed l) as [d k]. destruct IH as [IH1 IH2]. split; [by constructor|].
  destruct k as [[q cq]|]; [|by f_equal]. destruct IH2 as [Hq [r ->]]. split; [done|]. by exists r.
Qed.

Lemma freed_plain l : Forall (fun pc : ptr * pbuf => 0 < p_ref pc.2 /\ is_custom pc.2 = false) l ->
  Forall (fun pc => 0 < p_ref pc.2) l /\ Forall (fun pc => is_custom pc.2 = false) (freed l).1.
Proof.
  intros [H1 H2]%Forall_and. split; [done|]. pose proof (freed_split l) as Hs. destruct (freed l) as [d [[q c]|]]; cbn [fst snd] in *.
  - destruct Hs as (_ & _ & r & ->). by apply Forall_app in H2 as [? _].
  - destruct Hs as [_ ->]. done.
Qed.
Lemma pbuf_free_loop_spec l : forall fuel s L F o count, store_ok s L F -> chain (cells s) o l ->
  Forall (fun pc => 0 < p_ref pc.2) l -> Forall (fun pc => is_custom pc.2 = false) (freed l).1 -> (length l <= fuel)%nat -> is_u8 count ->
  exists s' L' F', pbuf_free_loop fuel s o count = Ok (u8 (count + zlen (freed l).1), s') /\
    store_ok s' L' F' /\ after_free s s' (freed l).1 (freed l).2.
Proof.
  induction l as [|[p c] l IH]; intros fuel s L F o count Hok Hc Hl Hpl Hf Hcnt.
  - simpl in Hc. subst o. exists s, L, F. simpl. change (zlen []) with 0. rewrite Z.add_0_r, u8_id by done.
    split_and!; [destruct fuel; done|done|]. split_and!; [by intros q Hq%not_elem_of_nil|done|done].
  - pose proof Hc as (-> & Hp & Hc'). apply Forall_cons in Hl as [Href Hl]. cbn [snd] in *.
    destruct fuel as [|fuel]; simpl in Hf; [lia|]. cbn [pbuf_free_loop freed]. rewrite (cell_ok _ _ _ Hp). cbn [res_bind].
    replace (p_ref c >? 0) with true by lia. cbn [lwip_assert res_bind].
    set (s1 := put s p (set_ref (p_ref c - 1) c)).
    assert (Hp1 : cells s1 !! p = Some (set_ref (p_ref c - 1) c)) by apply lookup_insert_eq.
    assert (Hok1 : store_ok s1 L F).
    { eapply store_ok_put; [done|done|]. pose proof (so_home _ _ _ Hok _ _ Hp) as Hh. by destruct p. }
    destruct (Z.eqb_spec (p_ref c) 1) as [He|Hne].
    + assert (is_custom c = false /\ Forall (fun pc => is_custom pc.2 = false) (freed l).1) as [Hcu Hpl'].
      { cbn [freed] in Hpl. rewrite He in Hpl. cbn in Hpl. destruct (freed l). by apply Forall_cons in Hpl. }
      replace (p_ref c - 1 =? 0) with true by lia. unfold is_custom in Hcu. rewrite Hcu.
      destruct (release_ok s1 L F p _ Hok1 Hp1 Hcu) as (s2 & L2 & F2 & Hr & Hok2 & Hc2 & Hd2).
      change (match p_type c with PBUF_RAM => mem_free_pbuf s1 p | PBUF_POOL => memp_free_pbuf s1 MEMP_PBUF_POOL p
              | _ => memp_free_pbuf s1 MEMP_PBUF p end) with (release s1 p (set_ref (p_ref c - 1) c)).
      rewrite Hr. cbn [res_bind]. pose proof (chain_nin _ _ _ _ _ Hc) as Hnin.
      assert (Hdel : cells s2 = delete p (cells s)) by (rewrite Hc2; unfold s1; cbn; apply delete_insert_eq).
      destruct (IH fuel s2 L2 F2 (p_next c) (u8 (count + 1)) Hok2) as (s' & L' & F' & Hl' & Hok' & Ha1 & Ha2 & Ha3);
        [|done|done|lia|apply is_u8_u8|].
      { rewrite Hdel. eapply chain_ext; [|done]. intros q Hq. rewrite lookup_delete_ne; [done|]. by intros <-. }
      pose proof (freed_split l) as Hsp. destruct (freed l) as [d k] eqn:Hfr. cbn [fst snd] in *.
      assert (Hnd : p ∉ d.*1).
      { intros Hin. apply Hnin. destruct Hsp as [_ Hsp]. destruct k as [[q cq]|]; [|by subst l].
        destruct Hsp as [_ [r ->]]. rewrite fmap_app. apply elem_of_app. by left. }
      exists s', L', F'. rewrite Hl'. split_and!; [|done|].
      { do 2 f_equal. rewrite zlen_cons. unfold u8. rewrite Zplus_mod_idemp_l. f_equal. lia. }
      split_and!.
      * intros q [Hqp|Hq]%elem_of_cons; [simpl in Hqp; subst q|by apply Ha1]. rewrite (Ha2 p) by done.
        destruct k as [[q cq]|]; [|rewrite Hdel; apply lookup_delete_eq].
        destruct Hsp as (_ & _ & r & Hl2). rewrite decide_False; [rewrite Hdel; apply lookup_delete_eq|].
        intros <-. apply Hnin. rewrite Hl2, fmap_app. apply elem_of_app. right. by left.
      * intros q [Hne Hq]%not_elem_of_cons. rewrite (Ha2 q) by done. rewrite Hdel, lookup_delete_ne by done. done.
      * intros b Hb. rewrite Ha3 by (intros q Hq; apply Hb; by right). rewrite Hd2; [done|]. apply Hb. by left.
    + replace (p_ref c - 1 =? 0) with false by lia. exists s1, L, F. cbn. change (zlen []) with 0.
      rewrite Z.add_0_r, u8_id by done. split_and!; [done|done|]. split_and!.
      * by intros q Hq%not_elem_of_nil.
      * intros q _. unfold s1. cbn. case_decide as Hd; [subst q; apply lookup_insert_eq|by rewrite lookup_insert_ne].
      * done.
Qed.

(** ** Allocating *)

(** memp_malloc of a pbuf returns an element that no pbuf in use occupies. *)
Lemma memp_malloc_pbuf_ok s L F t : store_ok s L F -> (t < pa_pools)%nat ->
  memp_malloc_pbuf s t = Ok (None, s) \/
  exists e old s1 F1, memp_malloc_pbuf s t = Ok (Some (MempPtr t e, old), s1) /\
    cells s1 = cells s /\ data s1 = data s /\ stale s1 = stale s /\ cells s !! MempPtr t e = None /\ pa_elem t e /\
    (t = MEMP_PBUF_POOL -> is_custom old = false) /\
    forall c, cell_home (MempPtr t e) c -> store_ok (put s1 (MempPtr t e) c) L F1.
Proof.
  intros Hok Ht. pose proof Hok as [H1 H2 H3 H4 H5 H6 H7]. unfold memp_malloc_pbuf.
  pose proof (pa_malloc_spec _ _ _ H2 Ht) as Hm. destruct (F t) as [|e l] eqn:HF; [left; by rewrite Hm|].
  destruct Hm as (m & Hm & Hm'). rewrite Hm. cbn [res_bind]. right.
  assert (Hel : pa_elem t e) by (eapply pa_free_elem; [exact H2|rewrite HF; by left]).
  eexists e, _, _, (upd t l F). split; [done|]. split_and!; try done; cbn.
  - destruct (cells s !! MempPtr t e) as [c|] eqn:E; [|done]. destruct (H5 _ _ _ E) as [_ Hn].
    exfalso. apply Hn. rewrite HF. by left.
  - intros ->. destruct (stale s !! _) as [c|] eqn:E; [by eapply H7|done].
  - intros c Hh. split; cbn; try done.
    + intros q cq [[<- <-]|[_ Hq]]%lookup_insert_Some; [done|by apply H3].
    + intros a ca [[? _]|[_ Hq]]%lookup_insert_Some; [done|by eapply H4].
    + intros u x cx [[[= <- <-] _]|[Hne Hq]]%lookup_insert_Some.
      * split; [done|]. unfold upd. rewrite decide_True by done.
        pose proof (pa_free_NoDup _ _ t H2) as Hnd. rewrite HF in Hnd. by apply NoDup_cons in Hnd as [? _].
      * destruct (H5 _ _ _ Hq) as [Hx Hxn]. split; [done|]. unfold upd. case_decide; [subst u|done].
        rewrite HF in Hxn. by apply not_elem_of_cons in Hxn as [_ ?].
Qed.

(** The pbufs of a pool chain under construction. *)
Definition pool_cell (pc : ptr * pbuf) : Prop :=
  p_ref pc.2 = 1 /\ is_custom pc.2 = false /\ p_type pc.2 = PBUF_POOL /\
  exists e o, pc.1 = MempPtr MEMP_PBUF_POOL e /\ pa_elem MEMP_PBUF_POOL e /\ p_payload pc.2 = Some (Own pc.1, o) /\
    0 <= o /\ 0 <= p_len pc.2 /\ o + p_len pc.2 <= PBUF_POOL_BUFSIZE.

(** The total lengths of a chain that still lacks [n] bytes. *)
Fixpoint lens_rem (n : Z) (l : list (ptr * pbuf)) : Prop :=
  match l with
  | [] => True
  | (_, c) :: l => p_tot_len c = p_len c + chain_len l + n /\ lens_rem n l
  end.

Lemma lens_rem_snoc n l q c : lens_rem n l -> p_tot_len c = n -> lens_rem (n - p_len c) (l ++ [(q, c)]).
Proof.
  intros Hl Hc. induction l as [|[p cp] l IH]; simpl in *; [split; [lia|done]|].
  destruct Hl as [Hp Hl]. split; [|by apply IH]. change (foldr _ 0 ?l) with (chain_len l). rewrite chain_len_app.
  simpl. lia.
Qed.

Lemma lens_rem_next n l r cr nx : lens_rem n (l ++ [(r, cr)]) -> lens_rem n (l ++ [(r, set_pnext nx cr)]).
Proof.
  induction l as [|[p cp] l IH]; simpl; [done|]. intros [Hp Hl]. split; [|by apply IH].
  change (foldr _ 0 ?l) with (chain_len l) in *. rewrite chain_len_app in *. done.
Qed.

Lemma lens_rem_0 l : Forall pool_cell l -> lens_rem 0 l -> lens_ok l.
Proof.
  induction l as [|[p c] l IH]; [done|]. intros [Hp Hl]%Forall_cons [Hc Hr].
  destruct Hp as (_ & _ & _ & e & o & _ & _ & _ & _ & Hge & _). split_and!; [done|lia|by apply IH].
Qed.

Lemma chain_snoc m p l r cr q cq : chain m (Some p) (l ++ [(r, cr)]) -> q ∉ (l ++ [(r, cr)]).*1 -> p_next cq = None ->
  chain (<[q := cq]> (<[r := set_pnext (Some q) cr]> m)) (Some p) (l ++ [(r, set_pnext (Some q) cr); (q, cq)]).
Proof.
  revert p. induction l as [|[a ca] l IH]; intros p Hc Hq Hcq.
  - destruct Hc as ([= <-] & Hr & Hn). simpl in Hq. apply not_elem_of_cons in Hq as [Hq _].
    split_and!; [done|by rewrite lookup_insert_ne, lookup_insert_eq|]. cbn. split_and!; [done|apply lookup_insert_eq|done].
  - pose proof (chain_nin _ _ _ _ (l ++ [(r, cr)]) Hc) as Hn. destruct Hc as ([= <-] & Ha & Hc). simpl in Hq.
    apply not_elem_of_cons in Hq as [Hqa Hq]. rewrite fmap_app in Hn. apply not_elem_of_app in Hn as [_ Hn].
    simpl in Hn. apply not_elem_of_cons in Hn as [Hn _].
    split_and!; [done|by rewrite !lookup_insert_ne|]. destruct (p_next ca) as [b|] eqn:E.
    + by apply IH.
    + by destruct l as [|[x cx] l]; destruct Hc as [? _].
Qed.

(** The store after the pbufs of [l] were added; no byte changed. *)
Definition grown s s' (l : list (ptr * pbuf)) : Prop :=
  (forall q, q ∉ l.*1 -> cells s' !! q = cells s !! q) /\ data s' = data s.

Lemma pool_cell_home pc : pool_cell pc -> cell_home pc.1 pc.2.
Proof. destruct pc as [p c]. intros (_ & Hcu & Hty & e & o & -> & _). left. done. Qed.

Lemma pool_cell_next r c nx : pool_cell (r, c) -> pool_cell (r, set_pnext nx c).
Proof. done. Qed.

Lemma freed_all l : Forall (fun pc => p_ref pc.2 = 1) l -> freed l = (l, None).
Proof. induction 1 as [|[p c] l Hp Hl IH]; [done|]. simpl in *. by rewrite Hp, IH. Qed.

(** The element handed out is none of the chain's. *)
Lemma fresh_not_in s p l q : chain (cells s) (Some p) l -> cells s !! q = None -> q ∉ l.*1.
Proof.
  intros Hc Hq ([q' c] & -> & Hin)%list_elem_of_fmap. pose proof (chain_elem _ _ _ _ _ Hc Hin) as He. simpl in Hq. congruence.
Qed.

(** What pool_tail asserts of the first pbuf in every round. *)
Lemma head_fits m p l r cr : chain m (Some p) (l ++ [(r, cr)]) -> Forall pool_cell (l ++ [(r, cr)]) ->
  exists c o, m !! p = Some c /\ p_payload c = Some (Own p, o) /\ o + p_len c <= PBUF_POOL_BUFSIZE.
Proof.
  destruct l as [|[a ca] l]; simpl; intros ([= <-] & Ha & _) [Hp _]%Forall_cons;
    destruct Hp as (_ & _ & _ & e & o & _ & _ & Hpay & _ & _ & Hle); eauto.
Qed.

(** Adding one more pool pbuf behind the chain. *)
Lemma pool_add s L F p l r cr rem e old s1 F1 : let q := MempPtr MEMP_PBUF_POOL e in
  let len := Z.min rem PBUF_POOL_BUFSIZE in
  let cq := mk_pbuf None (Some (Own q, 0)) rem len PBUF_POOL 0 1 None in
  store_ok s L F -> chain (cells s) (Some p) (l ++ [(r, cr)]) -> lens_rem rem (l ++ [(r, cr)]) ->
  Forall pool_cell (l ++ [(r, cr)]) -> 0 < rem ->
  memp_malloc_pbuf s MEMP_PBUF_POOL = Ok (Some (q, old), s1) -> cells s1 = cells s -> cells s !! q = None ->
  pa_elem MEMP_PBUF_POOL e -> (forall c, cell_home q c -> store_ok (put s1 q c) L F1) ->
  let s2 := put (put s1 r (set_pnext (Some q) cr)) q cq in
  let l2 := l ++ [(r, set_pnext (Some q) cr)] in
  store_ok s2 L F1 /\ chain (cells s2) (Some p) (l2 ++ [(q, cq)]) /\ lens_rem (rem - len) (l2 ++ [(q, cq)]) /\
  Forall pool_cell (l2 ++ [(q, cq)]) /\ q ∉ (l ++ [(r, cr)]).*1.
Proof.
  intros q len cq Hok Hc Hlens Hcells Hrem Hm Hcs Hfresh Hel Hput s2 l2.
  pose proof (fresh_not_in _ _ _ _ Hc Hfresh) as Hq. pose proof Hcells as [Hl Hr]%Forall_app.
  apply Forall_cons in Hr as [Hr _].
  assert (Hpq : pool_cell (q, cq)).
  { split_and!; try done. exists e, 0. unfold cq, len. cbn. split_and!; try done; unfold PBUF_POOL_BUFSIZE; lia. }
  assert (Hrin : cells s !! r = Some cr) by (eapply chain_elem; [exact Hc|apply elem_of_app; right; by left]).
  assert (Hqr : q <> r) by congruence. split_and!.
  - assert (s2 = put (put s1 q cq) r (set_pnext (Some q) cr)) as ->.
    { unfold s2, put, set_cells. cbn. by rewrite insert_insert_ne. }
    eapply store_ok_put; [apply Hput, (pool_cell_home _ Hpq)| |apply (pool_cell_home _ (pool_cell_next _ _ (Some q) Hr))].
    cbn. rewrite Hcs, lookup_insert_ne by done. exact Hrin.
  - unfold l2, s2. rewrite <- app_assoc. cbn. rewrite Hcs. by apply chain_snoc.
  - apply (lens_rem_snoc rem l2 q cq); [|done]. by apply lens_rem_next.
  - unfold l2. rewrite !Forall_app, !Forall_singleton. split; [split; [done|by apply pool_cell_next]|done].
  - done.
Qed.

Definition tail_result s p l r cr rem (o : option ptr) s' : Prop :=
  match o with
  | None => (forall q, q ∈ (l ++ [(r, cr)]).*1 -> cells s' !! q = None) /\
      (forall q, q ∉ (l ++ [(r, cr)]).*1 -> cells s' !! q = cells s !! q) /\
      (forall b, (forall e, b <> Own (MempPtr MEMP_PBUF_POOL e)) -> data s' !! b = data s !! b)
  | Some p' => p' = p /\ exists nx k, let l' := l ++ (r, set_pnext nx cr) :: k in
      chain (cells s') (Some p) l' /\ lens_ok l' /\ Forall pool_cell l' /\
      chain_len l' = chain_len (l ++ [(r, cr)]) + rem /\ Forall (fun pc => p_flags pc.2 = 0 /\ cells s !! pc.1 = None) k /\
      grown s s' l'
  end.

Lemma tail_done s p l r cr : chain (cells s) (Some p) (l ++ [(r, cr)]) -> lens_rem 0 (l ++ [(r, cr)]) ->
  Forall pool_cell (l ++ [(r, cr)]) -> tail_result s p l r cr 0 (Some p) s.
Proof.
  intros Hc Hl Hcells. split; [done|]. exists (p_next cr), []. cbn.
  replace (set_pnext (p_next cr) cr) with cr by (by destruct cr).
  split; [done|]. split; [by apply lens_rem_0|]. split; [done|]. split; [lia|]. split; [constructor|by split].
Qed.

Lemma pool_cells_free l : Forall pool_cell l -> Forall (fun pc => 0 < p_ref pc.2 /\ is_custom pc.2 = false) l /\
  freed l = (l, None) /\ forall q, q ∈ l.*1 -> exists e, q = MempPtr MEMP_PBUF_POOL e.
Proof.
  intros Hl. split_and!.
  - eapply Forall_impl; [exact Hl|]. intros [p c] (Hr & Hcu & _). cbn in *. split; [lia|done].
  - apply freed_all. eapply Forall_impl; [exact Hl|]. by intros [p c] (Hr & _).
  - intros q ([p c] & -> & Hin)%list_elem_of_fmap. rewrite Forall_forall in Hl.
    destruct (Hl _ Hin) as (_ & _ & _ & e & o & Hp & _). by exists e.
Qed.

(** The pool is empty: the chain so far is freed. *)
Lemma tail_empty s L F p l r cr rem : store_ok s L F -> chain (cells s) (Some p) (l ++ [(r, cr)]) ->
  Forall pool_cell (l ++ [(r, cr)]) ->
  exists n s' L' F', pbuf_free s (Some p) = Ok (n, s') /\ store_ok s' L' F' /\ tail_result s p l r cr rem None s'.
Proof.
  intros Hok Hc Hcells. pose proof (chain_length _ _ _ Hc) as Hw.
  destruct (pool_cells_free _ Hcells) as (Hf1 & Hf2 & Hf3).
  destruct (pbuf_free_loop_spec (l ++ [(r, cr)]) (walk s) s L F (Some p) 0 Hok Hc (proj1 (freed_plain _ Hf1)) (proj2 (freed_plain _ Hf1))) as (s' & L' & F' & Hf & Hok' & Ha);
    [unfold walk; lia|done|].
  rewrite Hf2 in *. cbn [fst snd] in *. destruct Ha as (Ha1 & Ha2 & Ha3).
  eexists _, s', L', F'. split; [exact Hf|]. split; [done|]. split_and!; [done|done|].
  intros b Hb. apply Ha3. intros q [e ->]%Hf3. apply Hb.
Qed.

(** One more pbuf and then the rest. *)
Lemma tail_step s s2 s' p l r cr rem q cq o : let l2 := l ++ [(r, set_pnext (Some q) cr)] in
  cells s2 = <[q := cq]> (<[r := set_pnext (Some q) cr]> (cells s)) -> data s2 = data s ->
  q ∉ (l ++ [(r, cr)]).*1 -> cells s !! q = None -> p_flags cq = 0 ->
  tail_result s2 p l2 q cq (rem - p_len cq) o s' -> tail_result s p l r cr rem o s'.
Proof.
  intros l2 Hs2 Hd2 Hq Hfresh Hfl Ht.
  assert (Hptrs : l2.*1 = (l ++ [(r, cr)]).*1) by (unfold l2; by rewrite !fmap_app).
  assert (Hrin : r ∈ (l ++ [(r, cr)]).*1) by (rewrite fmap_app; apply elem_of_app; right; by left).
  assert (Hsame : forall x, x <> q -> x ∉ (l ++ [(r, cr)]).*1 -> cells s2 !! x = cells s !! x).
  { intros x Hx Hxn. rewrite Hs2, !lookup_insert_ne; [done| |done]. by intros <-. }
  destruct o as [p'|].
  - destruct Ht as (-> & nx & k & Hc & Hl & Hcells & Hlen & Hk & Hg1 & Hg2). split; [done|].
    exists (Some q), ((q, set_pnext nx cq) :: k). unfold l2 in *. rewrite <- app_assoc in Hc, Hl, Hcells, Hlen, Hg1.
    split_and!; try done.
    + cbn [app] in Hlen. rewrite Hlen. rewrite !chain_len_app. simpl. lia.
    + constructor; [by split|]. eapply Forall_impl; [exact Hk|]. intros pc [H1 H2]. split; [done|].
      rewrite Hs2 in H2. apply lookup_insert_None in H2 as [H2 _]. by apply lookup_insert_None in H2 as [H2 _].
    + split; [|by rewrite Hg2]. intros x Hx. rewrite Hg1 by done. cbn [app] in Hx. rewrite fmap_app in Hx. apply not_elem_of_app in Hx as [Hx1 Hx2].
      cbn [fmap list_fmap fst] in Hx2. apply not_elem_of_cons in Hx2 as [Hx2 Hx3]. apply not_elem_of_cons in Hx3 as [Hx3 _].
      apply Hsame; [done|]. rewrite fmap_app. apply not_elem_of_app. split; [done|]. by intros ?%list_elem_of_singleton.
  - destruct Ht as (H1 & H2 & H3). rewrite fmap_app, Hptrs in H1, H2. split_and!.
    + intros x Hx. apply H1, elem_of_app. by left.
    + intros x Hx. destruct (decide (x = q)) as [->|Hne].
      * rewrite Hfresh. apply H1, elem_of_app. right. by left.
      * rewrite H2; [by apply Hsame|]. apply not_elem_of_app. split; [done|]. by intros ?%list_elem_of_singleton.
    + intros b Hb. by rewrite H3, Hd2.
Qed.

Lemma pool_tail_spec : forall fuel s L F p l r cr rem, store_ok s L F ->
  chain (cells s) (Some p) (l ++ [(r, cr)]) -> lens_rem rem (l ++ [(r, cr)]) -> Forall pool_cell (l ++ [(r, cr)]) ->
  0 <= rem < 65535 -> rem <= Z.of_nat fuel * PBUF_POOL_BUFSIZE ->
  exists o s' L' F', pool_tail fuel s p r rem = Ok (o, s') /\ store_ok s' L' F' /\ tail_result s p l r cr rem o s'.
Proof.
  induction fuel as [|fuel IH]; intros s L F p l r cr rem Hok Hc Hlens Hcells Hrem Hfuel.
  - assert (rem = 0) as -> by lia. exists (Some p), s, L, F. split_and!; [done|done|by apply tail_done].
  - cbn [pool_tail]. destruct (Z.gtb_spec rem 0) as [Hpos|];
      [|assert (rem = 0) as -> by lia; exists (Some p), s, L, F; split_and!; [done|done|by apply tail_done]].
    destruct (memp_malloc_pbuf_ok s L F MEMP_PBUF_POOL Hok pools_ok) as [Hm|(e & old & s1 & F1 & Hm & Hcs & Hds & _ & Hfresh & Hel & _ & Hput)].
    + rewrite Hm. cbn [res_bind]. destruct (tail_empty s L F p l r cr rem Hok Hc Hcells) as (n & s' & L' & F' & -> & Hok' & Ht).
      cbn [res_bind]. by exists None, s', L', F'.
    + rewrite Hm. cbn [res_bind]. set (q := MempPtr MEMP_PBUF_POOL e) in *.
      pose proof (pool_add s L F p l r cr rem e old s1 F1 Hok Hc Hlens Hcells Hpos Hm Hcs Hfresh Hel Hput)
        as (Hok2 & Hc2 & Hl2 & Hcells2 & Hq). fold q in Hok2, Hc2, Hl2, Hcells2, Hq.
      assert (Hrin : cells s !! r = Some cr) by (eapply chain_elem; [exact Hc|apply elem_of_app; right; by left]).
      rewrite (cell_ok _ _ cr) by (by rewrite Hcs). cbn [res_bind].
      replace (rem <? 65535) with true by lia. cbn [lwip_assert res_bind]. rewrite u16_id by lia.
      destruct (head_fits _ _ _ _ _ Hc2 Hcells2) as (c & o & Hp & Hpay & Hle).
      rewrite (cell_ok _ _ _ Hp). cbn [res_bind]. rewrite Hpay. cbn [of_option res_bind].
      replace (o + p_len c <=? PBUF_POOL_BUFSIZE) with true by lia. cbn [lwip_assert res_bind].
      destruct (IH _ _ _ _ _ _ _ _ Hok2 Hc2 Hl2 Hcells2) as (o' & s' & L' & F' & -> & Hok' & Ht);
        [unfold PBUF_POOL_BUFSIZE; lia|unfold PBUF_POOL_BUFSIZE in *; lia|].
      exists o', s', L', F'. split_and!; [done|done|].
      eapply tail_step; [| |exact Hq|exact Hfresh| |exact Ht]; [cbn; by rewrite Hcs|exact Hds|done].
Qed.

(** What a successful pbuf_alloc promises. *)
Definition allocated s s' (layer : pbuf_layer) (length : Z) (type : pbuf_type) (p : ptr) : Prop :=
  exists l, chain (cells s') (Some p) l /\ lens_ok l /\ chain_len l = length /\
    Forall (fun pc => cells s !! pc.1 = None /\ p_ref pc.2 = 1 /\ p_flags pc.2 = 0 /\ p_type pc.2 = type) l /\
    (forall q, q ∉ l.*1 -> cells s' !! q = cells s !! q) /\
    (forall b, (forall q, q ∈ l.*1 -> b <> Own q) -> data s' !! b = data s !! b) /\
    (type = PBUF_RAM \/ type = PBUF_POOL ->
      (exists bs, content (data s') l = Ok bs) /\ NoDup (blocks l) /\
      exists c, cells s' !! p = Some c /\ p_payload c = Some (Own p, layer_offset layer)).

Lemma pool_cells_content s L F l : store_ok s L F -> Forall pool_cell l -> exists bs, content (data s) l = Ok bs.
Proof.
  intros Hok. induction 1 as [|[p c] l Hp _ [bs IH]]; [by exists []|].
  destruct Hp as (_ & _ & _ & e & o & -> & He & Hpay & H1 & H2 & H3). cbn in *.
  destruct (so_bufs _ _ _ Hok e He) as (mem & Hmem & Hlen). rewrite Hpay, (read_window _ _ _ _ mem), IH by (done || lia).
  by eexists.
Qed.

Lemma pool_cells_blocks l : Forall pool_cell l -> blocks l = Own <$> l.*1.
Proof.
  induction 1 as [|[p c] l Hp _ IH]; [done|]. rewrite blocks_cons.
  destruct Hp as (_ & _ & _ & e & o & _ & _ & Hpay & _). cbn in *. by rewrite Hpay, IH.
Qed.

Lemma layer_offset_range layer : 0 <= layer_offset layer <= 54.
Proof. destruct layer; cbn; unfold PBUF_LINK_HLEN, PBUF_IP_HLEN, PBUF_TRANSPORT_HLEN; lia. Qed.

(** The last step of a pool allocation: the head's flags and reference count. *)
Lemma pool_alloc_finish s s1 s' L F p c0 layer length nx k : let c := set_pnext nx c0 in
  store_ok s' L F -> (forall q, q <> p -> cells s1 !! q = cells s !! q) -> data s1 = data s -> cells s !! p = None ->
  chain (cells s') (Some p) ((p, c) :: k) -> lens_ok ((p, c) :: k) -> Forall pool_cell ((p, c) :: k) ->
  chain_len ((p, c) :: k) = length -> Forall (fun pc => p_flags pc.2 = 0 /\ cells s1 !! pc.1 = None) k ->
  grown s1 s' ((p, c) :: k) -> p_payload c0 = Some (Own p, layer_offset layer) ->
  let s2 := put s' p (set_flags 0 (set_ref 1 c)) in
  store_ok s2 L F /\ allocated s s2 layer length PBUF_POOL p.
Proof.
  intros c Hok Hs1 Hd1 Hfresh Hc Hl Hcells Hlen Hk [Hg1 Hg2] Hpay s2.
  pose proof (chain_nin _ _ _ _ _ Hc) as Hnin. pose proof (chain_NoDup _ _ _ Hc) as Hnd.
  pose proof Hc as (_ & Hp & Hck). apply Forall_cons in Hcells as [Hpc Hkc].
  assert (Hpc' : pool_cell (p, set_flags 0 (set_ref 1 c))).
  { destruct Hpc as (_ & _ & Hty & Hex). by split_and!. }
  assert (Hok2 : store_ok s2 L F) by (eapply store_ok_put; [done|exact Hp|apply (pool_cell_home _ Hpc')]).
  split; [done|]. exists ((p, set_flags 0 (set_ref 1 c)) :: k).
  assert (Hall : Forall pool_cell ((p, set_flags 0 (set_ref 1 c)) :: k)) by (by constructor).
  split; [split_and!; [done|apply lookup_insert_eq|by apply chain_put]|]. split; [exact Hl|]. split; [exact Hlen|].
  split; [|split; [|split]].
  - constructor; [split_and!; [done|done|done|apply Hpc']|]. rewrite Forall_forall in Hk, Hkc |- *. intros pc Hin. destruct (Hk _ Hin) as [H1 H2].
    destruct (Hkc _ Hin) as (H3 & _ & H4 & _). split_and!; try done. rewrite <- Hs1; [done|].
    intros He. apply Hnin, list_elem_of_fmap. by exists pc.
  - intros q Hq. apply not_elem_of_cons in Hq as [Hqp Hq]. cbn [fst] in Hqp. cbn. rewrite lookup_insert_ne by done.
    rewrite Hg1 by (by apply not_elem_of_cons). by apply Hs1.
  - intros b _. cbn. by rewrite Hg2, Hd1.
  - intros _. split; [by eapply pool_cells_content|]. split.
    + rewrite pool_cells_blocks by done. apply NoDup_fmap; [by intros ? ? [= ->]|exact Hnd].
    + eexists. split; [apply lookup_insert_eq|done].
Qed.

Lemma pbuf_alloc_pool s L F layer length : store_ok s L F -> is_u16 length ->
  exists o s' L' F', pbuf_alloc junk s layer length PBUF_POOL = Ok (o, s') /\ store_ok s' L' F' /\
  match o with
  | None => cells s' = cells s /\ forall b, (forall e, b <> Own (MempPtr MEMP_PBUF_POOL e)) -> data s' !! b = data s !! b
  | Some p => allocated s s' layer length PBUF_POOL p
  end.
Proof.
  intros Hok Hlen. unfold is_u16 in Hlen. unfold pbuf_alloc. pose proof (layer_offset_range layer) as Hoff.
  destruct (memp_malloc_pbuf_ok s L F MEMP_PBUF_POOL Hok pools_ok) as [Hm|(e & old & s1 & F1 & Hm & Hcs & Hds & _ & Hfresh & Hel & Hold & Hput)];
    rewrite Hm; cbn [res_bind]; [by exists None, s, L, F|]. specialize (Hold eq_refl).
  set (off := layer_offset layer) in *. set (p := MempPtr MEMP_PBUF_POOL e) in *.
  set (len := Z.min length (PBUF_POOL_BUFSIZE - off)). set (c0 := mk_pbuf None _ length len _ _ _ _).
  assert (Hb : 0 <= len /\ off + len <= PBUF_POOL_BUFSIZE /\ 0 <= length - len < 64512) by
    (unfold len, PBUF_POOL_BUFSIZE; lia).
  replace (off + len <=? PBUF_POOL_BUFSIZE) with true by lia.
  replace (PBUF_POOL_BUFSIZE - off >? 0) with true by (unfold PBUF_POOL_BUFSIZE; lia). cbn [lwip_assert res_bind].
  assert (Hpc : pool_cell (p, c0)) by (split_and!; [done|exact Hold|done|exists e, off; split_and!; try done; cbn; lia]).
  set (s2 := put s1 p c0).
  assert (Hp2 : cells s2 !! p = Some c0) by apply lookup_insert_eq.
  destruct (pool_tail_spec pool_fuel s2 L F1 p [] p c0 (length - len)) as (o & s' & L' & F' & Ht & Hok' & Hres).
  { apply Hput, (pool_cell_home _ Hpc). }
  { by split_and!. }
  { cbn. lia. }
  { by apply Forall_singleton. }
  { lia. }
  { unfold pool_fuel, PBUF_POOL_BUFSIZE. lia. }
  rewrite Ht. cbn [res_bind].
  assert (Hs2 : forall q, q <> p -> cells s2 !! q = cells s !! q).
  { intros q Hq. cbn. rewrite lookup_insert_ne by done. by rewrite Hcs. }
  destruct o as [p'|].
  - destruct Hres as (-> & nx & k & Hc & Hl & Hcells & Hclen & Hk & Hg). cbn [app] in *.
    pose proof Hc as (_ & Hp' & _). rewrite (cell_ok _ _ _ Hp'). cbn [res_bind].
    destruct (pool_alloc_finish s s2 s' L' F' p c0 layer length nx k) as [H1 H2]; try done.
    { rewrite Hclen. cbn. lia. }
    by eexists (Some p), _, L', F'.
  - destruct Hres as (H1 & H2 & H3). exists None, s', L', F'. split_and!; [done|done| |intros b Hb'; rewrite H3 by done; cbn; by rewrite Hds].
    apply map_eq. intros q. destruct (decide (q = p)) as [->|Hne].
    + rewrite Hfresh. apply H1. by left.
    + rewrite H2; [by apply Hs2|]. by intros ?%list_elem_of_singleton.
Qed.

Lemma pbuf_alloc_ram s L F layer length : store_ok s L F -> 0 <= length ->
  SIZEOF_STRUCT_PBUF + layer_offset layer + length < 65536 ->
  exists o s' L' F', pbuf_alloc junk s layer length PBUF_RAM = Ok (o, s') /\ store_ok s' L' F' /\
  match o with None => s' = s | Some p => allocated s s' layer length PBUF_RAM p end.
Proof.
  intros Hok H0 Hlen. pose proof Hok as [H1 H2 H3 H4 H5 H6 H7]. pose proof (layer_offset_range layer) as Hoff.
  set (off := layer_offset layer) in *. unfold pbuf_alloc. fold off. unfold SIZEOF_STRUCT_PBUF in *. rewrite u16_id by lia.
  destruct (ra_malloc_spec (heap s) L (24 + off + length) H1) as (o & h & Hm & Ho); [unfold is_u16; lia|].
  rewrite Hm. cbn [res_bind]. destruct o as [a|]; [|subst h; exists None, s, L, F; by destruct s].
  destruct Ho as (n & Hn & Hfresh & Hok'). destruct (Z.ltb_spec (24 + off + length) 24); [lia|].
  set (mem := map _ _). assert (Hmem : zlen mem = off + length).
  { unfold mem, zlen. rewrite length_map, length_seq. lia. }
  assert (Hnone : cells s !! RamPtr a = None).
  { destruct (cells s !! RamPtr a) as [c|] eqn:E; [|done]. destruct (H4 _ _ E) as (? & ? & ? & _). congruence. }
  eexists (Some (RamPtr a)), _, (<[a:=n]> L), F. split; [done|]. split.
  - split; cbn; try done.
    + intros q cq [[<- <-]|[_ Hq]]%lookup_insert_Some; [done|by apply H3].
    + intros b cb [[[= <-] <-]|[Hne Hq]]%lookup_insert_Some.
      * exists n, mem. rewrite !lookup_insert_eq. unfold SIZEOF_STRUCT_PBUF. split_and!; [done|done|lia|lia].
      * destruct (H4 _ _ Hq) as (n' & mem' & ? & ? & ? & ?). exists n', mem'. by rewrite !lookup_insert_ne by congruence.
    + intros t e ce [[? _]|[_ Hq]]%lookup_insert_Some; [done|by eapply H5].
    + intros e He. rewrite lookup_insert_ne by done. by apply H6.
  - eexists [(RamPtr a, _)]. split; [split_and!; [done|apply lookup_insert_eq|done]|]. cbn.
    split_and!; try lia.
    + by repeat constructor.
    + intros q Hq. rewrite lookup_insert_ne; [done|]. intros <-. apply Hq. by left.
    + intros b Hb. rewrite lookup_insert_ne; [done|]. intros <-. eapply Hb; [by left|done].
    + intros _. rewrite (read_window _ _ _ _ mem) by (rewrite ?lookup_insert_eq; done || lia). cbn.
      split_and!; [by eexists|apply NoDup_singleton|]. eexists. by rewrite lookup_insert_eq.
Qed.

Lemma pbuf_alloc_ref s L F layer length type : store_ok s L F -> is_u16 length -> type = PBUF_ROM \/ type = PBUF_REF ->
  exists o s' L' F', pbuf_alloc junk s layer length type = Ok (o, s') /\ store_ok s' L' F' /\
  match o with None => s' = s | Some p => allocated s s' layer length type p end.
Proof.
  intros Hok Hlen Hty. unfold is_u16 in Hlen.
  assert (Hlt : (MEMP_PBUF < pa_pools)%nat) by (unfold MEMP_PBUF_POOL, MEMP_PBUF in *; lia).
  assert (Heq : pbuf_alloc junk s layer length type =
    let! (o, s) := memp_malloc_pbuf s MEMP_PBUF in
    match o with
    | None => Ok (None, s)
    | Some (p, old) => Ok (Some p, put s p (mk_pbuf None None length length type 0 1 (p_orig old)))
    end) by (by destruct Hty as [-> | ->]).
  rewrite Heq. destruct (memp_malloc_pbuf_ok s L F MEMP_PBUF Hok Hlt) as [Hm|(e & old & s1 & F1 & Hm & Hcs & Hds & _ & Hfresh & Hel & _ & Hput)];
    rewrite Hm; cbn [res_bind]; [by exists None, s, L, F|].
  eexists (Some _), _, L, F1. split; [done|]. split; [apply Hput; right; left; by split_and!|].
  eexists [(_, _)]. split; [split_and!; [done|apply lookup_insert_eq|done]|]. cbn. split_and!; try lia.
  - by repeat constructor.
  - intros q Hq. rewrite lookup_insert_ne; [by rewrite Hcs|]. intros <-. apply Hq. by left.
  - intros b _. by rewrite Hds.
  - by destruct Hty as [-> | ->]; intros [?|?].
Qed.

(** The pbufs of a chain up to [q], whatever [q] points to. *)
Fixpoint chain_to (m : gmap ptr pbuf) (o : option ptr) (l : list (ptr * pbuf)) : Prop :=
  match l with
  | [] => True
  | (p, c) :: l => o = Some p /\ m !! p = Some c /\ chain_to m (p_next c) l
  end.

Lemma chain_prefix m l1 l2 : forall o, chain m o (l1 ++ l2) -> chain_to m o l1.
Proof. induction l1 as [|[p c] l1 IH]; [done|]. intros o (-> & Hp & Hc). split_and!; [done|done|by apply IH]. Qed.

Lemma chain_to_ext m m' l : forall o, (forall x, x ∈ l.*1 -> m' !! x = m !! x) -> chain_to m o l -> chain_to m' o l.
Proof.
  induction l as [|[p c] l IH]; [done|]. intros o He (-> & Hp & Hc).
  split_and!; [done|rewrite He; [done|by left]|]. apply IH; [|done]. intros x Hx. apply He. by right.
Qed.

Lemma chain_to_cut m l q c : forall o, q ∉ l.*1 -> chain_to m o (l ++ [(q, c)]) ->
  chain (<[q := set_pnext None c]> m) o (l ++ [(q, set_pnext None c)]).
Proof.
  induction l as [|[p cp] l IH]; intros o Hq.
  - intros (-> & _ & _). split_and!; [done|apply lookup_insert_eq|done].
  - intros (-> & Hp & Hc). apply not_elem_of_cons in Hq as [Hne Hq].
    split_and!; [done|by rewrite lookup_insert_ne|by apply IH].
Qed.
(** ** Shrinking *)

(** The pbufs before the new last one, with the shorter total length. *)
Definition shrink (grow : Z) (l : list (ptr * pbuf)) : list (ptr * pbuf) :=
  map (fun pc => (pc.1, set_tot_len (p_tot_len pc.2 + grow) pc.2)) l.

Lemma shrink_ptrs g l : (shrink g l).*1 = l.*1.
Proof. induction l as [|pc l IH]; [done|]. cbn. by f_equal. Qed.
Lemma shrink_content g l d : content d (shrink g l) = content d l.
Proof. induction l as [|[p c] l IH]; [done|]. cbn. fold (shrink g l). by rewrite IH. Qed.
Lemma shrink_len g l : chain_len (shrink g l) = chain_len l.
Proof. induction l as [|[p c] l IH]; [done|]. simpl. by rewrite IH. Qed.

Lemma realloc_walk_spec l : forall fuel s p rem grow, chain (cells s) (Some p) l -> lens_ok l ->
  (length l <= fuel)%nat -> chain_len l + grow = rem -> 0 <= rem -> grow < 0 -> chain_len l < 65536 ->
  exists l1 q c l2 m, l = l1 ++ (q, c) :: l2 /\
    realloc_walk fuel s p rem grow = Ok (q, rem - chain_len l1, set_cells m s) /\
    0 <= rem - chain_len l1 <= p_len c /\ chain m (Some p) (shrink grow l1 ++ (q, c) :: l2) /\
    forall x, x ∉ l1.*1 -> m !! x = cells s !! x.
Proof.
  induction l as [|[p' c] l IH]; intros fuel s p rem grow Hc Hl Hf Hrem H0 Hg Hlt; [done|].
  pose proof (chain_nin _ _ _ _ _ Hc) as Hnin. pose proof Hc as ([= <-] & Hp & Hc'). pose proof Hl as (Hge & Ht & Hl').
  pose proof (chain_len_nonneg _ Hl'). simpl in Hrem, Hlt, Hf. destruct fuel as [|fuel]; [lia|].
  cbn [realloc_walk]. rewrite (cell_ok _ _ _ Hp). cbn [res_bind]. destruct (Z.gtb_spec rem (p_len c)) as [Hgt|Hle].
  - replace (grow <? 65535) with true by lia. cbn [lwip_assert res_bind].
    destruct l as [|[q cq] l]; [simpl in Hrem; lia|]. pose proof Hc' as (Hn & _ & _). rewrite Hn. cbn [of_option res_bind].
    assert (u16 (p_tot_len c + u16 grow) = p_tot_len c + grow) as ->.
    { unfold u16. rewrite Zplus_mod_idemp_r. apply Z.mod_small. lia. }
    set (c1 := set_tot_len (p_tot_len c + grow) c).
    destruct (IH fuel (put s p c1) q (rem - p_len c) grow) as (l1 & r & cr & l2 & m & He & Hw & Hr & Hch & Hout);
      [apply chain_put; [done|by rewrite <- Hn]|done|lia|lia|lia|lia|lia|].
    exists ((p, c) :: l1), r, cr, l2, m. rewrite He, Hw. simpl. split_and!; try done; try lia.
    + f_equal. f_equal. f_equal. lia.
    + rewrite Hout; [apply lookup_insert_eq|]. intros Hin. apply Hnin. rewrite He, fmap_app. apply elem_of_app. by left.
    + by rewrite Hn.
    + intros x [Hx1 Hx2]%not_elem_of_cons. rewrite Hout by done. by apply lookup_insert_ne.
  - exists [], p, c, l, (cells s). simpl. rewrite Z.sub_0_r. split_and!; try done; try lia. by destruct s.
Qed.

Lemma store_ok_cells s L F m : store_ok s L F ->
  (forall x c, m !! x = Some c -> exists c0, cells s !! x = Some c0 /\ cell_home x c) -> store_ok (set_cells m s) L F.
Proof.
  intros [H1 H2 H3 H4 H5 H6 H7] Hm. split; cbn; try done.
  - intros x c (c0 & _ & Hh)%Hm. done.
  - intros a c (c0 & Hc & _)%Hm. by eapply H4.
  - intros t e c (c0 & Hc & _)%Hm. by eapply H5.
Qed.

(** A pbuf points into its own memory or into a buffer that is no pbuf's. *)
Definition well_placed (l : list (ptr * pbuf)) : Prop :=
  forall x c, (x, c) ∈ l -> (forall y o, p_payload c = Some (Own y, o) -> y = x /\ 0 <= o) /\
    (p_type c = PBUF_RAM -> exists o, p_payload c = Some (Own x, o)).

(** Cutting the memory behind a PBUF_RAM pbuf. *)
Lemma trim_ok s L F q c o rem b : store_ok s L F -> cells s !! q = Some c -> p_type c = PBUF_RAM ->
  p_payload c = Some (Own q, o) -> 0 <= o -> 0 <= rem < p_len c ->
  (exists a, q = RamPtr a) -> read_bytes (data s) (p_payload c) 0 (p_len c) = Ok b ->
  exists s' L', mem_trim_pbuf s q (u16 (u16 (SIZEOF_STRUCT_PBUF + o) + rem)) = Ok s' /\ store_ok s' L' F /\
    cells s' = cells s /\ (forall x, x <> Own q -> data s' !! x = data s !! x) /\
    read_bytes (data s') (p_payload c) 0 rem = Ok (take (Z.to_nat rem) b).
Proof.
  intros Hok Hq Hty Hpay Ho Hrem [a ->] Hb. pose proof Hok as [H1 H2 H3 H4 H5 H6 H7].
  destruct (H4 _ _ Hq) as (n & mem & Hn & Hmem & Hle & Hlt). unfold SIZEOF_STRUCT_PBUF in *.
  rewrite Hpay in *. unfold read_bytes in Hb. destruct (Z.eqb_spec (p_len c) 0); [lia|]. cbn in Hb. rewrite Hmem in Hb. cbn in Hb.
  destruct (_ && _) eqn:E; [|done]. injection Hb as <-.
  rewrite !u16_id by (rewrite ?u16_id; lia).
  destruct (ra_trim_spec _ _ a n (24 + o + rem) H1 Hn ltac:(lia)) as (h & n' & Ht & Hn' & Hok').
  unfold mem_trim_pbuf. rewrite Ht. cbn [res_bind of_option]. rewrite Hmem. cbn [res_bind of_option].
  rewrite decide_True by done. set (mem' := take (Z.to_nat (24 + o + rem - SIZEOF_STRUCT_PBUF)) mem).
  assert (Hl : zlen mem' = o + rem) by (unfold mem', zlen, SIZEOF_STRUCT_PBUF in *; rewrite length_take; lia).
  eexists _, (<[a:=n']> L). split; [done|]. split_and!; cbn.
  - split; cbn; try done.
    + intros x cx Hx. destruct (H4 _ _ Hx) as (k & mk & ? & ? & ? & ?). destruct (decide (x = a)) as [->|Hne].
      * exists n', mem'. rewrite !lookup_insert_eq. unfold SIZEOF_STRUCT_PBUF. split_and!; [done|done|lia|lia].
      * exists k, mk. by rewrite !lookup_insert_ne by congruence.
    + intros e He. rewrite lookup_insert_ne by done. by apply H6.
  - done.
  - intros x Hx. by rewrite lookup_insert_ne.
  - rewrite (read_window _ _ _ _ mem') by (rewrite ?lookup_insert_eq; done || lia). f_equal.
    unfold slice, mem', SIZEOF_STRUCT_PBUF. rewrite skipn_firstn_comm, !take_take. f_equal; [lia|f_equal; lia].
Qed.

Lemma shrink_lens grow l1 q c l2 c' : lens_ok (l1 ++ (q, c) :: l2) -> p_tot_len c' = p_len c' -> 0 <= p_len c' ->
  p_len c' = p_len c + chain_len l2 + grow -> lens_ok (shrink grow l1 ++ [(q, c')]).
Proof.
  intros Hl Ht Hge Hlen. induction l1 as [|[p cp] l1 IH]; simpl in *; [lia|].
  destruct Hl as (Hg & Htot & Hl). split_and!; [done| |by apply IH]. fold (shrink grow l1).
  change (foldr _ 0 ?l) with (chain_len l) in *. rewrite chain_len_app in *. rewrite shrink_len. simpl in *.
  change (foldr _ 0 ?l) with (chain_len l) in *. lia.
Qed.

(** The second half of pbuf_realloc: the pbufs behind [q] are freed. *)
Definition realloc_tail s q : res (pstate (H:=H) (M:=M)) :=
  let! c := cell s q in
  let! s := (match p_next c with
             | Some _ => let! (_, s) := pbuf_free s (p_next c) in Ok s
             | None => Ok s
             end) in
  let! c := cell s q in
  Ok (put s q (set_pnext None c)).

Lemma realloc_tail_ok s L F p l q c l2 : store_ok s L F -> chain (cells s) (Some p) (l ++ (q, c) :: l2) ->
  Forall (fun pc => 0 < p_ref pc.2 /\ is_custom pc.2 = false) l2 ->
  exists s' L' F', realloc_tail s q = Ok s' /\ store_ok s' L' F' /\
    chain (cells s') (Some p) (l ++ [(q, set_pnext None c)]) /\
    forall b, (forall x, x ∈ l2.*1 -> b <> Own x) -> data s' !! b = data s !! b.
Proof.
  intros Hok Hc Hl2. pose proof (chain_suffix _ _ _ _ _ _ Hc) as Hcq. pose proof (chain_nin _ _ _ _ _ Hcq) as Hqn.
  pose proof Hcq as (_ & Hq & Hc2). unfold realloc_tail. rewrite (cell_ok _ _ _ Hq). cbn [res_bind].
  pose proof (chain_NoDup _ _ _ Hc) as Hnd. rewrite fmap_app in Hnd. apply NoDup_app in Hnd as (_ & Hdis & Hnd2).
  assert (exists s2 L2 F2, (match p_next c with Some _ => let! (_, s) := pbuf_free s (p_next c) in Ok s | None => Ok s end) = Ok s2 /\
    store_ok s2 L2 F2 /\ (forall x, x ∉ l2.*1 -> cells s2 !! x = cells s !! x) /\
    forall b, (forall x, x ∈ l2.*1 -> b <> Own x) -> data s2 !! b = data s !! b) as (s2 & L2 & F2 & -> & Hok2 & Hout & Hdat).
  { destruct l2 as [|[r cr] l2]; [simpl in Hc2; rewrite Hc2; by exists s, L, F|].
    pose proof Hc2 as (Hn & _). rewrite Hn in *. pose proof (chain_length _ _ _ Hc2) as Hw.
    destruct (pbuf_free_loop_spec ((r, cr) :: l2) (walk s) s L F (Some r) 0 Hok Hc2 (proj1 (freed_plain _ Hl2)) (proj2 (freed_plain _ Hl2))) as (s2 & L2 & F2 & Hf & Hok2 & Ha1 & Ha2 & Ha3);
      [unfold walk; lia|done|].
    cbn [pbuf_free]. rewrite Hf. cbn [res_bind]. exists s2, L2, F2. pose proof (freed_split ((r, cr) :: l2)) as Hsp.
    destruct (freed ((r, cr) :: l2)) as [d k]. cbn [fst snd] in *. destruct Hsp as [_ Hsp].
    assert (Hsub : forall x, x ∈ d.*1 -> x ∈ ((r, cr) :: l2).*1).
    { intros x Hx. destruct k as [[k ck]|]; [destruct Hsp as (_ & z & ->); rewrite fmap_app; apply elem_of_app; by left|by subst d]. }
    split_and!; [done|done| |intros b Hb; apply Ha3; intros x Hx; by apply Hb, Hsub].
    intros x Hx. rewrite Ha2 by (intros Hin; by apply Hx, Hsub). destruct k as [[k ck]|]; [|done].
    rewrite decide_False; [done|]. intros ->. apply Hx. destruct Hsp as (_ & z & ->). rewrite fmap_app.
    apply elem_of_app. right. by left. }
  cbn [res_bind]. assert (Hq2 : cells s2 !! q = Some c) by (by rewrite Hout). rewrite (cell_ok _ _ _ Hq2). cbn [res_bind].
  eexists _, L2, F2. split; [done|]. split; [|split].
  - eapply store_ok_put; [done|exact Hq2|]. pose proof (so_home _ _ _ Hok2 _ _ Hq2) as Hh. by destruct q.
  - cbn. apply chain_to_cut; [intros Hin; apply (Hdis q Hin); by left|].
    replace (l ++ (q, c) :: l2) with ((l ++ [(q, c)]) ++ l2) in Hc by (by rewrite <- app_assoc).
    eapply chain_to_ext; [|exact (chain_prefix _ _ _ _ Hc)]. intros x Hx.
    apply Hout. intros Hin. rewrite fmap_app in Hx. apply elem_of_app in Hx as [Hx|Hx%list_elem_of_singleton].
    + apply (Hdis x Hx). by right.
    + by subst x.
  - intros b Hb. cbn. by apply Hdat.
Qed.

(** The middle part of pbuf_realloc, at the new last pbuf. *)
Lemma realloc_trim_ok s L F p l q c l2 rem b : store_ok s L F -> chain (cells s) (Some p) (l ++ (q, c) :: l2) ->
  well_placed [(q, c)] -> 0 <= rem <= p_len c -> read_bytes (data s) (p_payload c) 0 (p_len c) = Ok b ->
  exists s' L', (if bool_decide (p_type c = PBUF_RAM) && negb (rem =? p_len c) then
               let! off := payload_off q c in mem_trim_pbuf s q (u16 (u16 off + rem)) else Ok s) = Ok s' /\
    store_ok s' L' F /\ cells s' = cells s /\ (forall x, x <> Own q -> data s' !! x = data s !! x) /\
    read_bytes (data s') (p_payload c) 0 rem = Ok (take (Z.to_nat rem) b).
Proof.
  intros Hok Hc Hwp Hrem Hb. pose proof (chain_suffix _ _ _ _ _ _ Hc) as (_ & Hq & _).
  destruct (Hwp q c ltac:(by left)) as [Hown Hram]. case_bool_decide as Hty; [destruct (Z.eqb_spec rem (p_len c))|]; cbn [andb negb].
  1, 3: exists s, L; split_and!; try done; rewrite (read_bytes_sub _ _ (p_len c) b) by (done || lia); by rewrite slice_0.
  destruct (Hram Hty) as [o Hpay]. destruct (Hown q o Hpay) as [_ Ho]. unfold payload_off. rewrite Hpay, decide_True by done.
  cbn [res_bind]. pose proof (so_home _ _ _ Hok _ _ Hq) as Hh.
  assert (exists a, q = RamPtr a) as Ha.
  { destruct q as [a|t e]; [by exists a|]. exfalso.
    destruct Hh as [(_ & ? & _)|[(_ & [?|?] & _)|(_ & ? & _)]]; congruence. }
  destruct (trim_ok s L F q c o rem b Hok Hq Hty Hpay Ho ltac:(lia) Ha Hb) as (s' & L' & -> & Hok' & Hcs & Hd & Hr).
  rewrite Hpay in Hr. by exists s', L'.
Qed.

Lemma chain_update m q c c' l2 l : forall o, chain m o (l ++ (q, c) :: l2) -> p_next c' = p_next c ->
  chain (<[q := c']> m) o (l ++ (q, c') :: l2).
Proof.
  induction l as [|[p cp] l IH]; intros o Hc Hn.
  - pose proof (chain_nin _ _ _ _ _ Hc) as Hq. destruct Hc as (-> & _ & Hc).
    split_and!; [done|apply lookup_insert_eq|]. rewrite Hn. by apply chain_put.
  - pose proof (chain_nin _ _ _ _ (l ++ (q, c) :: l2) Hc) as Hq. destruct Hc as (-> & Hp & Hc).
    split_and!; [done| |by apply IH]. rewrite lookup_insert_ne; [done|]. intros ->. apply Hq.
    rewrite fmap_app. apply elem_of_app. right. by left.
Qed.

(** The walk only changes total lengths, so the store stays consistent. *)
Lemma shrunk_ok s L F p l1 q c l2 m grow : store_ok s L F -> chain (cells s) (Some p) (l1 ++ (q, c) :: l2) ->
  chain m (Some p) (shrink grow l1 ++ (q, c) :: l2) -> (forall x, x ∉ l1.*1 -> m !! x = cells s !! x) ->
  store_ok (set_cells m s) L F.
Proof.
  intros Hok Hc Hm Hout. apply store_ok_cells; [done|]. intros x cx Hx. destruct (decide (x ∈ l1.*1)) as [Hin|Hn].
  - apply list_elem_of_fmap in Hin as ([x' c0] & -> & Hin). cbn [fst] in *.
    assert (Hc0 : cells s !! x' = Some c0) by (eapply chain_elem; [exact Hc|apply elem_of_app; by left]).
    assert (Hcx : m !! x' = Some (set_tot_len (p_tot_len c0 + grow) c0)).
    { eapply chain_elem; [exact Hm|]. apply elem_of_app. left. unfold shrink. apply list_elem_of_fmap. by exists (x', c0). }
    rewrite Hx in Hcx. injection Hcx as ->. exists c0. split; [done|].
    pose proof (so_home _ _ _ Hok _ _ Hc0) as Hh. by destruct x'.
  - rewrite Hout in Hx by done. exists cx. split; [done|]. by eapply so_home.
Qed.

Lemma blocks_well_placed l b : well_placed l -> b ∈ blocks l -> forall x, b = Own x -> x ∈ l.*1.
Proof.
  intros Hwp Hb x ->. apply list_elem_of_omap in Hb as ([y c] & Hin & Hc). cbn in Hc.
  destruct (p_payload c) as [[b' o]|] eqn:E; [|done]. injection Hc as ->.
  destruct (Hwp y c Hin) as [Hy _]. destruct (Hy x o E) as [-> _]. apply list_elem_of_fmap. by exists (y, c).
Qed.

(** The shortened packet has the first bytes of the old one. *)
Lemma shrunk_packet s d p l1 q c l2 b1 bq b3 rem grow : let c' := set_pnext None (set_tot_len rem (set_len rem c)) in
  lens_ok (l1 ++ (q, c) :: l2) -> chain_len (l1 ++ (q, c) :: l2) < 65536 -> well_placed l1 ->
  (forall x, x ∈ l1.*1 -> x ∉ q :: l2.*1) -> content d l1 = Ok b1 ->
  read_bytes d (p_payload c) 0 (p_len c) = Ok bq -> 0 <= rem <= p_len c ->
  chain_len (l1 ++ (q, c) :: l2) + grow = chain_len l1 + rem ->
  chain (cells s) (Some p) (shrink grow l1 ++ [(q, c')]) ->
  (forall b, (forall x, x ∈ q :: l2.*1 -> b <> Own x) -> data s !! b = d !! b) ->
  read_bytes (data s) (p_payload c) 0 rem = Ok (take (Z.to_nat rem) bq) ->
  is_packet s p (shrink grow l1 ++ [(q, c')]) (take (Z.to_nat (chain_len l1 + rem)) (b1 ++ bq ++ b3)).
Proof.
  intros c' Hl Hlt Hwp Hdis Hb1 Hbq Hrem Hgrow Hc Hd Hr.
  assert (Hl1 : 0 <= chain_len l1 /\ zlen b1 = chain_len l1).
  { clear -Hl Hb1. revert b1 Hb1. induction l1 as [|[x cx] l1 IH]; simpl; intros b1 Hb1; [by injection Hb1 as <-|].
    destruct Hl as (Hg & _ & Hl). apply (content_cons_inv d x) in Hb1 as (y & z & -> & Hy & Hz).
    destruct (IH Hl z Hz) as [H1 H2]. rewrite zlen_app, H2, (read_bytes_len _ _ _ _ Hg Hy). simpl. lia. }
  destruct Hl1 as [Hge Hlen1]. rewrite chain_len_app in *. simpl in Hgrow, Hlt.
  pose proof (chain_len_nonneg _ (proj2 (proj2 (lens_ok_app_r _ _ Hl)))) as Hl2.
  pose proof (read_bytes_len _ _ _ _ (proj1 (lens_ok_app_r _ _ Hl)) Hbq) as Hlq.
  split_and!; [done|by eapply (shrink_lens _ _ _ c l2); cbn; try done; lia|rewrite chain_len_app, shrink_len; simpl; lia|].
  rewrite content_app, shrink_content.
  rewrite (content_ext d), Hb1.
  - cbn [res_bind content set_pnext set_tot_len set_len p_payload p_len c']. rewrite Hr. cbn [res_bind].
    f_equal. rewrite app_nil_r. unfold zlen in *. rewrite take_app_ge by lia. f_equal.
    rewrite take_app_le by lia. f_equal. lia.
  - intros b Hb. apply Hd. intros x Hx ->. eapply Hdis; [|exact Hx]. by eapply blocks_well_placed.
Qed.

Lemma pbuf_realloc_spec s L F p l bs new_len : store_ok s L F -> is_packet s p l bs -> well_placed l ->
  Forall (fun pc => 0 < p_ref pc.2 /\ is_custom pc.2 = false) l -> 0 <= new_len < zlen bs ->
  exists s' L' F' l', pbuf_realloc s p new_len = Ok s' /\ store_ok s' L' F' /\
    is_packet s' p l' (take (Z.to_nat new_len) bs).
Proof.
  intros Hok Hpk Hwp Hrefs Hnew. pose proof (packet_walk _ _ _ _ Hpk) as Hw. destruct Hpk as (Hc & Hl & Hlt & Hb).
  pose proof (content_len _ _ _ Hl Hb) as Hlen.
  destruct (realloc_walk_spec l (walk s) s p new_len (new_len - zlen bs)) as (l1 & q & c & l2 & m & -> & Hwalk & Hrem & Hm & Hout);
    try done; try lia.
  assert (Hhead : exists c0, cells s !! p = Some c0 /\ p_tot_len c0 = zlen bs).
  { destruct l1 as [|[a ca] l1]; cbn in Hc, Hl, Hlen; [exists c|exists ca]; destruct Hc as ([= <-] & Hp & _);
      (split; [done|]); destruct Hl as (_ & -> & _); by rewrite Hlen. }
  destruct Hhead as (c0 & Hp0 & Ht0). unfold pbuf_realloc. rewrite (cell_ok _ _ _ Hp0). cbn [res_bind]. rewrite Ht0.
  replace (new_len >=? zlen bs) with false by lia. rewrite Hwalk. cbn [res_bind].
  set (grow := new_len - zlen bs) in *. set (rem := new_len - chain_len l1) in *. set (s1 := set_cells m s) in *.
  pose proof (shrunk_ok _ _ _ _ _ _ _ _ _ _ Hok Hc Hm Hout) as Hok1. fold s1 in Hok1.
  rewrite content_app in Hb. destruct (content (data s) l1) as [b1|] eqn:Hb1; [|done]. cbn [res_bind] in Hb.
  destruct (content (data s) ((q, c) :: l2)) as [b2|] eqn:Hb2; [|done]. cbn [res_bind] in Hb. injection Hb as <-.
  apply content_cons_inv in Hb2 as (bq & b3 & -> & Hbq & _).
  pose proof (chain_NoDup _ _ _ Hc) as Hnd. rewrite fmap_app in Hnd. apply NoDup_app in Hnd as (_ & Hdis & Hnd2).
  cbn [fmap list_fmap fst] in Hdis, Hnd2. apply NoDup_cons in Hnd2 as [Hqn _].
  assert (Hwq : well_placed [(q, c)]).
  { intros x cx Hx%list_elem_of_singleton. apply Hwp, elem_of_app. right. rewrite Hx. by left. }
  destruct (chain_suffix _ _ _ _ _ _ Hm) as (_ & Hq & _).
  rewrite (cell_ok s1 q c) by done. cbn [res_bind].
  destruct (realloc_trim_ok s1 L F p (shrink grow l1) q c l2 rem bq Hok1 Hm Hwq Hrem Hbq) as (s2 & L2 & Htr & Hok2 & Hcs2 & Hd2 & Hr2).
  rewrite Htr. cbn [res_bind].
  set (c' := set_tot_len rem (set_len rem c)). set (s3 := put s2 q c').
  assert (Hm3 : chain (cells s3) (Some p) (shrink grow l1 ++ (q, c') :: l2)).
  { cbn. rewrite Hcs2. by apply (chain_update m q c). }
  assert (Hok3 : store_ok s3 L2 F).
  { eapply store_ok_put; [done|by rewrite Hcs2|]. pose proof (so_home _ _ _ Hok1 _ _ Hq) as Hh. by destruct q. }
  assert (Hrefs2 : Forall (fun pc => 0 < p_ref pc.2 /\ is_custom pc.2 = false) l2).
  { apply Forall_app in Hrefs as [_ Hrefs]. by apply Forall_cons in Hrefs as [_ ?]. }
  destruct (realloc_tail_ok s3 L2 F p (shrink grow l1) q c' l2 Hok3 Hm3 Hrefs2) as (s4 & L4 & F4 & Ht4 & Hok4 & Hc4 & Hd4).
  unfold realloc_tail in Ht4. rewrite (cell_ok s3 q c') in Ht4 by apply lookup_insert_eq. cbn [res_bind] in Ht4.
  exists s4, L4, F4, (shrink grow l1 ++ [(q, set_pnext None c')]). split; [exact Ht4|]. split; [done|].
  replace new_len with (chain_len l1 + rem) by lia.
  apply (shrunk_packet s4 (data s) p l1 q c l2 b1 bq b3 rem grow); try done.
  - intros x cx Hx. apply Hwp, elem_of_app. by left.
  - rewrite <- Hlen. lia.
  - intros b Hb. rewrite Hd4 by (intros x Hx; apply Hb; by right). cbn. apply Hd2. apply Hb. by left.
  - rewrite <- Hr2. apply read_bytes_ext. intros b o Ho. rewrite Hd4; [done|]. intros x Hx ->.
    destruct (Hwq q c ltac:(by left)) as [Hown _]. destruct (Hown x o Ho) as [-> _]. done.
Qed.
End Alloc.

(** ** The initial store *)
Section Init.
Context (pools : list pool_desc) (base : Z).
Context (sizes_ok : Forall (fun d => 0 <= memp_num d /\ 8 <= memp_size d) pools).

#[local] Instance init_pools : PoolAlloc memp_state := memp_pool_alloc pools base sizes_ok.

(** Static memory: the buffers of all elements of the pbuf pool, all zero. *)
Definition init_data : gmap blk (list Z) :=
  list_to_map (map (fun e => (Own (MempPtr MEMP_PBUF_POOL e), repeat 0 (Z.to_nat PBUF_POOL_BUFSIZE)))
    (init_lists pools base MEMP_PBUF_POOL)).

Definition init_state : pstate (H:=Mem.heap) (M:=memp_state) :=
  mk_ps ∅ ∅ init_data mem_init (memp_init pools base).

Lemma init_store_ok : store_ok init_state ∅ (init_lists pools base).
Proof.
  split; cbn; try by intros.
  - apply heap_ok_init.
  - by apply memp_init_rep.
  - intros e He. unfold init_data. exists (repeat 0 (Z.to_nat PBUF_POOL_BUFSIZE)).
    split; [|unfold zlen; rewrite repeat_length; done].
    assert (Hin : e ∈ init_lists pools base MEMP_PBUF_POOL).
    { pose proof He as (d & j & Hd & _). unfold init_lists. rewrite Hd. by apply elem_of_carved_pool. }
    revert Hin. generalize (init_lists pools base MEMP_PBUF_POOL). intros l.
    induction l as [|x l IH]; [by intros ?%not_elem_of_nil|]. intros [->|Hin]%elem_of_cons; cbn.
    + by rewrite lookup_insert_eq.
    + destruct (decide (x = e)) as [->|]; [by rewrite lookup_insert_eq|]. rewrite lookup_insert_ne by congruence. by apply IH.
Qed.
End Init.

(** ** Properties *)
Section Properties.
Context {H M : Type} `{RA : !RamAlloc H} `{PA : !PoolAlloc M} (junk : Z -> Z).
Implicit Types s : pstate (H:=H) (M:=M).

(** C33. pbuf_alloc, for every type and layer: it trips no assertion, its loop
    ends, and the store stays consistent with the heap and the pools. When it
    succeeds, the new chain consists of pbufs nobody else uses, each with one
    reference and no flags, its total lengths are consistent and add up to the
    requested length, a RAM or POOL pbuf has memory for all of these bytes and
    room for the layer's headers in front, and nothing else changed. When it
    fails, no pbuf is lost and none is added. For PBUF_RAM the sum of struct, headers and length
    must fit the u16_t of mem_malloc; when it wraps around the pbuf is too small ([pbuf_alloc_overflow]). *)
Theorem pbuf_alloc_correct s L F layer length type : (MEMP_PBUF_POOL < pa_pools)%nat ->
  store_ok s L F -> is_u16 length ->
  (type = PBUF_RAM -> SIZEOF_STRUCT_PBUF + layer_offset layer + length < 65536) ->
  exists o s' L' F', pbuf_alloc junk s layer length type = Ok (o, s') /\ store_ok s' L' F' /\
  match o with
  | None => cells s' = cells s /\ forall b, (forall e, b <> Own (MempPtr MEMP_PBUF_POOL e)) -> data s' !! b = data s !! b
  | Some p => allocated s s' layer length type p
  end.
Proof.
  intros Hpools Hok Hlen Hram. destruct type.
  - destruct (pbuf_alloc_ram junk Hpools s L F layer length Hok) as (o & s' & L' & F' & Ha & Hok' & Ho);
      [by destruct Hlen|by apply Hram|].
    exists o, s', L', F'. split_and!; [done|done|]. destruct o; [done|by subst s'].
  - destruct (pbuf_alloc_ref junk Hpools s L F layer length PBUF_ROM Hok Hlen) as (o & s' & L' & F' & Ha & Hok' & Ho); [by left|].
    exists o, s', L', F'. split_and!; [done|done|]. destruct o; [done|by subst s'].
  - destruct (pbuf_alloc_ref junk Hpools s L F layer length PBUF_REF Hok Hlen) as (o & s' & L' & F' & Ha & Hok' & Ho); [by right|].
    exists o, s', L', F'. split_and!; [done|done|]. destruct o; [done|by subst s'].
  - by eapply pbuf_alloc_pool.
Qed.

(** C34. pbuf_free drops one reference of the first pbuf, and goes on to the
    next one exactly while a pbuf loses its last reference: the leading pbufs
    with one reference go back to where they came from, the first other pbuf
    keeps one reference less, and every other pbuf and all other memory stay
    as they are. None of the released pbufs is a custom one, which is given to the
    function its owner chose (for ip_frag that frees the original packet as well); those
    behind may be. It returns the number of released pbufs (as a u8_t). *)
Theorem pbuf_free_correct s L F p l : (MEMP_PBUF_POOL < pa_pools)%nat -> store_ok s L F -> chain (cells s) (Some p) l ->
  Forall (fun pc => 0 < p_ref pc.2) l -> Forall (fun pc => is_custom pc.2 = false) (freed l).1 ->
  exists s' L' F', pbuf_free s (Some p) = Ok (u8 (zlen (freed l).1), s') /\ store_ok s' L' F' /\
    after_free s s' (freed l).1 (freed l).2.
Proof.
  intros Hpools Hok Hc Hl Hpl. pose proof (chain_length _ _ _ Hc).
  apply (pbuf_free_loop_spec Hpools l (walk s) s L F (Some p) 0 Hok Hc Hl Hpl); [unfold walk; lia|done].
Qed.

(** pbuf_realloc to a smaller size: the packet then holds exactly the first
    [new_len] of its bytes, with consistent total lengths; the memory of the
    new last pbuf is cut (mem_trim) and the pbufs behind it are freed; the store
    stays consistent and no assertion fails. *)
Theorem pbuf_realloc_correct s L F p l bs new_len : (MEMP_PBUF_POOL < pa_pools)%nat -> store_ok s L F ->
  is_packet s p l bs -> well_placed l -> Forall (fun pc => 0 < p_ref pc.2 /\ is_custom pc.2 = false) l ->
  0 <= new_len < zlen bs ->
  exists s' L' F' l', pbuf_realloc s p new_len = Ok s' /\ store_ok s' L' F' /\
    is_packet s' p l' (take (Z.to_nat new_len) bs).
Proof. intros Hpools. by eapply pbuf_realloc_spec. Qed.
End Properties.

(** ** Witnesses *)
Definition demo_descs : list pool_desc := repeat (mk_pool 0 16) 12 ++ [mk_pool 1 24; mk_pool 2 1102].
Lemma demo_sizes : Forall (fun d => 0 <= memp_num d /\ 8 <= memp_size d) demo_descs.
Proof. repeat constructor; cbn; lia. Qed.
#[local] Instance demo_descs_alloc : PoolAlloc memp_state := memp_pool_alloc demo_descs 0 demo_sizes.
Definition demo_init := init_state demo_descs 0.
Lemma demo_pools_ok : (MEMP_PBUF_POOL < pa_pools (M:=memp_state))%nat.
Proof. apply Nat.ltb_lt. reflexivity. Qed.

Lemma pbuf_alloc_correct_witness : exists p s' L F, pbuf_alloc (fun _ => 0) demo_init PBUF_IP 2000 PBUF_POOL = Ok (Some p, s') /\
  allocated demo_init s' PBUF_IP 2000 PBUF_POOL p /\ store_ok s' L F.
Proof.
  destruct (pbuf_alloc_correct (fun _ => 0) demo_init ∅ (init_lists demo_descs 0) PBUF_IP 2000 PBUF_POOL
    demo_pools_ok (init_store_ok _ _ _) ltac:(vm_compute; by split) ltac:(discriminate))
    as (o & s' & L' & F' & Ha & Hok & Ho).
  destruct o as [p|]; [exists p, s', L', F'; split; [exact Ha|split; [exact Ho|exact Hok]]|].
  exfalso. vm_compute in Ha. discriminate Ha.
Defined.

Lemma pbuf_free_correct_witness : exists p s s', pbuf_alloc (fun _ => 0) demo_init PBUF_RAW 2000 PBUF_POOL = Ok (Some p, s) /\
  pbuf_free s (Some p) = Ok (2, s') /\ cells s' !! p = None.
Proof.
  destruct (pbuf_alloc_pool (fun _ => 0) demo_pools_ok demo_init ∅ (init_lists demo_descs 0) PBUF_RAW 2000 (init_store_ok _ _ _)
    ltac:(vm_compute; by split)) as (o & s & L & F & Ha & Hok & Ho).
  destruct o as [p|]; [|exfalso; vm_compute in Ha; discriminate Ha]. exists p, s.
  destruct Ho as (l & Hc & Hl & _ & Hnew & _).
  assert (Hrefs : Forall (fun pc => 0 < p_ref pc.2 /\ is_custom pc.2 = false) l).
  { eapply Forall_impl; [exact Hnew|]. intros pc (_ & Hr & Hf & _). unfold is_custom. rewrite Hr, Hf. by split. }
  destruct (pbuf_free_correct s L F p l demo_pools_ok Hok Hc (proj1 (freed_plain _ Hrefs)) (proj2 (freed_plain _ Hrefs))) as (s' & L' & F' & Hf & _ & Hgone & _).
  exists s'. split; [exact Ha|].
  assert (Hall : freed l = (l, None)) by (apply freed_all; eapply Forall_impl; [exact Hnew|]; by intros pc (_ & ? & _)).
  rewrite Hall in Hf, Hgone. split.
  - vm_compute in Ha. injection Ha as <- <-. rewrite Hf. f_equal. f_equal. vm_compute in Hf. by injection Hf.
  - apply Hgone. destruct l as [|[q c] l]; [discriminate Hc|]. destruct Hc as ([= <-] & _). by left.
Defined.

(** A store without pool pbufs. *)
Definition demo_heap_descs : list pool_desc := repeat (mk_pool 0 16) 14.
Lemma demo_heap_sizes : Forall (fun d => 0 <= memp_num d /\ 8 <= memp_size d) demo_heap_descs.
Proof. repeat constructor; cbn; lia. Qed.
Section HeapWitness.
#[local] Instance demo_heap_alloc : PoolAlloc memp_state := memp_pool_alloc demo_heap_descs 0 demo_heap_sizes.
Definition demo_heap := init_state demo_heap_descs 0.
Lemma demo_heap_pools_ok : (MEMP_PBUF_POOL < pa_pools (M:=memp_state))%nat.
Proof. apply Nat.ltb_lt. reflexivity. Qed.

Lemma pbuf_realloc_correct_witness : exists p s s', pbuf_alloc (fun _ => 7) demo_heap PBUF_IP 40 PBUF_RAM = Ok (Some p, s) /\
  pbuf_realloc s p 10 = Ok s' /\ exists l bs, is_packet s' p l bs /\ zlen bs = 10.
Proof.
  destruct (pbuf_alloc_ram (fun _ => 7) demo_heap_pools_ok demo_heap ∅ (init_lists demo_heap_descs 0) PBUF_IP 40 (init_store_ok _ _ _))
    as (o & s & L & F & Ha & Hok & Ho); [lia|vm_compute; done|].
  destruct o as [p|]; [|exfalso; vm_compute in Ha; discriminate Ha]. exists p, s.
  destruct Ho as (l & Hc & Hl & Hlen & Hnew & _ & _ & Hmem).
  destruct (Hmem (or_introl eq_refl)) as ((bs & Hbs) & _ & _). clear Hmem.
  assert (Hpk : is_packet s p l bs) by (split_and!; [done|done|lia|done]).
  assert (Hrefs : Forall (fun pc => 0 < p_ref pc.2 /\ is_custom pc.2 = false) l).
  { eapply Forall_impl; [exact Hnew|]. intros pc (_ & Hr & Hf & _). unfold is_custom. rewrite Hr, Hf. by split. }
  pose proof (content_len _ _ _ Hl Hbs) as Hz.
  assert (Hwp : well_placed l).
  { vm_compute in Ha. injection Ha as <- <-. destruct l as [|[q c] l]; [done|].
    destruct Hc as ([= <-] & Hq & Hc). vm_compute in Hq. injection Hq as <-. cbn in Hc.
    destruct l as [|[q cq] l]; [|by destruct Hc as [? _]].
    intros x cx Hx%list_elem_of_singleton. injection Hx as -> ->. cbn. split; [intros y o [= <- <-]; done|]. by eexists. }
  destruct (pbuf_realloc_correct s L F p l bs 10 demo_heap_pools_ok Hok Hpk Hwp Hrefs ltac:(lia)) as (s' & L' & F' & l' & Hr & _ & Hpk').
  exists s'. split; [exact Ha|]. split; [exact Hr|]. exists l', (take (Z.to_nat 10) bs). split; [exact Hpk'|].
  unfold zlen in *. rewrite length_take. lia.
Defined.

(** The size handed to mem_malloc is a u16_t. For a length near 65535 the sum
    of struct, headers and length wraps around: pbuf_alloc reports a packet of
    65500 bytes and allocates 42. *)
Example pbuf_alloc_overflow : exists p s c mem,
  pbuf_alloc (fun _ => 0) demo_heap PBUF_TRANSPORT 65500 PBUF_RAM = Ok (Some p, s) /\
  cells s !! p = Some c /\ p_len c = 65500 /\ data s !! Own p = Some mem /\ zlen mem = 18.
Proof. eexists _, _, _, _. split; [vm_compute; reflexivity|]. by vm_compute. Qed.
End HeapWitness.
