(* ===== verification/Ip.v ===== *)
(** * IP routing (src/src/lwip/core/ipv4/ip.c)

    [ip_route] picks the interface for a destination. *)
From S2P Require Import Prelude ByteOrder IpAddr.

(** The loop of [ip_route] over the interface list; [same_addr] is the last
    interface whose own address is the destination. [nif] gives the struct of
    an interface of type [X]. *)
Fixpoint route_loop {X} (nif : X -> netif) (l : list X) (dest : Z) (same_addr : option X) : option X * bool :=
  match l with
  | [] => (same_addr, false)
  | x :: l' =>
      if netif_is_up (nif x) then
        if dest =? nif_ip_addr (nif x) then route_loop nif l' dest (Some x)
        else if ip_addr_netcmp dest (nif_ip_addr (nif x)) (nif_netmask (nif x)) then (Some x, true)
        else route_loop nif l' dest same_addr
      else route_loop nif l' dest same_addr
  end.

Definition ip_route_of {X} (nif : X -> netif) (netif_list : list X) (netif_default : option X) (dest : Z) : option X :=
  match route_loop nif netif_list dest None with
  | (Some n, _) => Some n
  | (None, _) =>
      match netif_default with
      | None => None
      | Some n => if netif_is_up (nif n) then Some n else None
      end
  end.
Definition ip_route (netif_list : list netif) (netif_default : option netif) (dest : Z) : option netif :=
  ip_route_of (fun n => n) netif_list netif_default dest.
