(* ===== verification/Tcp.v ===== *)
(** * TCP: sequence numbers, control blocks and the shared state
    (src/include/lwip/lwip/tcp.h, tcp_impl.h, src/src/lwip/core/tcp.c)

    A TCP segment of a queue is its header fields and the bytes of its data;
    the pbufs under it are in Pbuf.v, and PbufChain.v shows that what the code
    reads and writes of a chain does not depend on its cut into pbufs. A
    control block is a record with the fields of struct tcp_pcb.

    What the stack outside TCP decides is in the environment [tcp_env]: the
    clock, the interfaces, the outcome of each allocation (a stream of
    booleans, one per call of memp_malloc or pbuf_alloc; the theorems hold for
    every stream) and whether [tcp_input_pcb] is the control block at hand.
    The packets given to ip_output are collected in order. *)
From S2P Require Import Prelude ByteOrder IpAddr Ip.

(** ** Configuration (opt.h, tcp_impl.h) *)
Definition TCP_MSS : Z := 1024.
Definition TCP_WND : Z := 4 * TCP_MSS.
Definition TCP_SND_BUF : Z := 2 * TCP_MSS.
Definition TCP_SND_QUEUELEN : Z := (4 * TCP_SND_BUF + (TCP_MSS - 1)) / TCP_MSS.
Definition TCP_SNDQUEUELEN_OVERFLOW : Z := 0xffff - 3.
Definition TCP_WND_UPDATE_THRESHOLD : Z := TCP_WND / 4.
Definition TCP_MAXRTX : Z := 12.
Definition TCP_SYNMAXRTX : Z := 6.
Definition TCP_OVERSIZE : Z := TCP_MSS.
Definition TCP_TTL : Z := 255.
Definition TCP_HLEN : Z := 20.
Definition IP_HLEN : Z := 20.
Definition TCP_SLOW_INTERVAL : Z := 500.
Definition TCP_FIN_WAIT_TIMEOUT : Z := 20000.
Definition TCP_SYN_RCVD_TIMEOUT : Z := 20000.
Definition TCP_OOSEQ_TIMEOUT : Z := 6.
Definition TCP_MSL : Z := 60000.
Definition TCP_KEEPIDLE_DEFAULT : Z := 7200000.
Definition TCP_KEEPINTVL_DEFAULT : Z := 75000.
Definition TCP_KEEPCNT_DEFAULT : Z := 9.
Definition TCP_MAXIDLE : Z := TCP_KEEPCNT_DEFAULT * TCP_KEEPINTVL_DEFAULT.

Definition SOF_ACCEPTCONN : Z := 0x02.
Definition SOF_REUSEADDR : Z := 0x04.
Definition SOF_KEEPALIVE : Z := 0x08.
Definition SOF_LINGER : Z := 0x80.
Definition SOF_INHERITED : Z := Z.lor SOF_REUSEADDR (Z.lor SOF_KEEPALIVE SOF_LINGER).

(** ** Sequence numbers *)
Definition TCP_SEQ_LT (a b : Z) : bool := s32 (u32 a - u32 b) <? 0.
Definition TCP_SEQ_LEQ (a b : Z) : bool := s32 (u32 a - u32 b) <=? 0.
Definition TCP_SEQ_GT (a b : Z) : bool := 0 <? s32 (u32 a - u32 b).
Definition TCP_SEQ_GEQ (a b : Z) : bool := 0 <=? s32 (u32 a - u32 b).
Definition TCP_SEQ_BETWEEN (a b c : Z) : bool := TCP_SEQ_GEQ a b && TCP_SEQ_LEQ a c.

(** ** Header flags *)
Definition TCP_FIN : Z := 0x01.
Definition TCP_SYN : Z := 0x02.
Definition TCP_RST : Z := 0x04.
Definition TCP_PSH : Z := 0x08.
Definition TCP_ACK : Z := 0x10.
Definition TCP_URG : Z := 0x20.
Definition TCP_FLAGS : Z := 0x3f.

(** Flags of a control block *)
Definition TF_ACK_DELAY : Z := 0x01.
Definition TF_ACK_NOW : Z := 0x02.
Definition TF_INFR : Z := 0x04.
Definition TF_TIMESTAMP : Z := 0x08.
Definition TF_RXCLOSED : Z := 0x10.
Definition TF_FIN : Z := 0x20.
Definition TF_NODELAY : Z := 0x40.
Definition TF_NAGLEMEMERR : Z := 0x80.
(** Flags of the input processing *)
Definition TF_RESET : Z := 0x08.
Definition TF_CLOSED : Z := 0x10.
Definition TF_GOT_FIN : Z := 0x20.

(** [flags &= ~f] on a u8_t. *)
Definition clear_flag (flags f : Z) : Z := Z.land flags (255 - f).

(** ** States *)
Inductive tcp_state :=
  | CLOSED | LISTEN | SYN_SENT | SYN_RCVD | ESTABLISHED | FIN_WAIT_1
  | FIN_WAIT_2 | CLOSE_WAIT | CLOSING | LAST_ACK | TIME_WAIT.
#[export] Instance tcp_state_eq_dec : EqDecision tcp_state.
Proof. solve_decision. Defined.
(** The values of the C enum, for the comparisons of the code. *)
Definition state_num (s : tcp_state) : Z :=
  match s with
  | CLOSED => 0 | LISTEN => 1 | SYN_SENT => 2 | SYN_RCVD => 3 | ESTABLISHED => 4
  | FIN_WAIT_1 => 5 | FIN_WAIT_2 => 6 | CLOSE_WAIT => 7 | CLOSING => 8
  | LAST_ACK => 9 | TIME_WAIT => 10
  end.
Definition state_is (s t : tcp_state) : bool := bool_decide (s = t).

(** ** Segments *)
Record tcp_seg := mk_seg {
  seg_seqno : Z;      (** tcphdr->seqno in host order *)
  seg_hflags : Z;     (** TCPH_FLAGS of the header *)
  seg_len : Z;        (** seg->len *)
  seg_opts : Z;       (** seg->flags: the options to include *)
  seg_data : list Z;  (** the data bytes of the pbuf chain *)
  seg_clen : Z        (** pbuf_clen(seg->p) *)
}.
#[export] Instance seg_eta : Eta tcp_seg :=
  {| eta s := mk_seg (seg_seqno s) (seg_hflags s) (seg_len s) (seg_opts s) (seg_data s) (seg_clen s) |}.
#[export] Instance set_seg_seqno : Setter seg_seqno := ltac:(setter).
#[export] Instance set_seg_hflags : Setter seg_hflags := ltac:(setter).
#[export] Instance set_seg_len : Setter seg_len := ltac:(setter).
#[export] Instance set_seg_opts : Setter seg_opts := ltac:(setter).
#[export] Instance set_seg_data : Setter seg_data := ltac:(setter).
#[export] Instance set_seg_clen : Setter seg_clen := ltac:(setter).
#[export] Instance seg_eq_dec : EqDecision tcp_seg.
Proof. solve_decision. Defined.

Definition TF_SEG_OPTS_MSS : Z := 0x01.
Definition TF_SEG_OPTS_TS : Z := 0x02.
Definition LWIP_TCP_OPT_LENGTH (flags : Z) : Z :=
  (if has_flag flags TF_SEG_OPTS_MSS then 4 else 0) +
  (if has_flag flags TF_SEG_OPTS_TS then 12 else 0).

Definition TCP_TCPLEN (s : tcp_seg) : Z :=
  seg_len s + (if has_flag (seg_hflags s) (Z.lor TCP_FIN TCP_SYN) then 1 else 0).

(** ** Control blocks

    struct tcp_pcb. [next] is the lists of the world below; the callbacks and
    their argument are parameters of the functions that call them.
    [refused_data] is the bytes of the refused pbuf and its
    PBUF_FLAG_TCP_FIN. *)
Record tcp_pcb := mk_pcb {
  local_ip : Z;
  remote_ip : Z;
  so_options : Z;
  tos : Z;
  ttl : Z;
  state : tcp_state;
  prio : Z;
  local_port : Z;
  remote_port : Z;
  flags : Z;
  polltmr : Z;
  pollinterval : Z;
  last_timer : Z;
  tmr : Z;
  rcv_nxt : Z;
  rcv_wnd : Z;
  rcv_ann_wnd : Z;
  rcv_ann_right_edge : Z;
  rtime : Z;
  mss : Z;
  rttest : Z;
  rtseq : Z;
  sa : Z;
  sv : Z;
  rto : Z;
  nrtx : Z;
  dupacks : Z;
  lastack : Z;
  cwnd : Z;
  ssthresh : Z;
  snd_nxt : Z;
  snd_wl1 : Z;
  snd_wl2 : Z;
  snd_lbb : Z;
  snd_wnd : Z;
  snd_wnd_max : Z;
  acked : Z;
  snd_buf : Z;
  snd_queuelen : Z;
  unsent_oversize : Z;
  unsent : list tcp_seg;
  unacked : list tcp_seg;
  ooseq : list tcp_seg;
  refused_data : option (list Z * bool);
  keep_idle : Z;
  persist_cnt : Z;
  persist_backoff : Z;
  keep_cnt_sent : Z
}.
#[export] Instance pcb_eta : Eta tcp_pcb :=
  {| eta p := mk_pcb
      (local_ip p) (remote_ip p) (so_options p) (tos p) (ttl p) (state p) (prio p)
      (local_port p) (remote_port p) (flags p) (polltmr p) (pollinterval p) (last_timer
      p) (tmr p) (rcv_nxt p) (rcv_wnd p) (rcv_ann_wnd p) (rcv_ann_right_edge p) (rtime
      p) (mss p) (rttest p) (rtseq p) (sa p) (sv p) (rto p) (nrtx p) (dupacks p)
      (lastack p) (cwnd p) (ssthresh p) (snd_nxt p) (snd_wl1 p) (snd_wl2 p) (snd_lbb p)
      (snd_wnd p) (snd_wnd_max p) (acked p) (snd_buf p) (snd_queuelen p)
      (unsent_oversize p) (unsent p) (unacked p) (ooseq p) (refused_data p) (keep_idle
      p) (persist_cnt p) (persist_backoff p) (keep_cnt_sent p) |}.
#[export] Instance set_local_ip : Setter local_ip := ltac:(setter).
#[export] Instance set_remote_ip : Setter remote_ip := ltac:(setter).
#[export] Instance set_so_options : Setter so_options := ltac:(setter).
#[export] Instance set_tos : Setter tos := ltac:(setter).
#[export] Instance set_ttl : Setter ttl := ltac:(setter).
#[export] Instance set_state : Setter state := ltac:(setter).
#[export] Instance set_prio : Setter prio := ltac:(setter).
#[export] Instance set_local_port : Setter local_port := ltac:(setter).
#[export] Instance set_remote_port : Setter remote_port := ltac:(setter).
#[export] Instance set_flags : Setter flags := ltac:(setter).
#[export] Instance set_polltmr : Setter polltmr := ltac:(setter).
#[export] Instance set_pollinterval : Setter pollinterval := ltac:(setter).
#[export] Instance set_last_timer : Setter last_timer := ltac:(setter).
#[export] Instance set_tmr : Setter tmr := ltac:(setter).
#[export] Instance set_rcv_nxt : Setter rcv_nxt := ltac:(setter).
#[export] Instance set_rcv_wnd : Setter rcv_wnd := ltac:(setter).
#[export] Instance set_rcv_ann_wnd : Setter rcv_ann_wnd := ltac:(setter).
#[export] Instance set_rcv_ann_right_edge : Setter rcv_ann_right_edge := ltac:(setter).
#[export] Instance set_rtime : Setter rtime := ltac:(setter).
#[export] Instance set_mss : Setter mss := ltac:(setter).
#[export] Instance set_rttest : Setter rttest := ltac:(setter).
#[export] Instance set_rtseq : Setter rtseq := ltac:(setter).
#[export] Instance set_sa : Setter sa := ltac:(setter).
#[export] Instance set_sv : Setter sv := ltac:(setter).
#[export] Instance set_rto : Setter rto := ltac:(setter).
#[export] Instance set_nrtx : Setter nrtx := ltac:(setter).
#[export] Instance set_dupacks : Setter dupacks := ltac:(setter).
#[export] Instance set_lastack : Setter lastack := ltac:(setter).
#[export] Instance set_cwnd : Setter cwnd := ltac:(setter).
#[export] Instance set_ssthresh : Setter ssthresh := ltac:(setter).
#[export] Instance set_snd_nxt : Setter snd_nxt := ltac:(setter).
#[export] Instance set_snd_wl1 : Setter snd_wl1 := ltac:(setter).
#[export] Instance set_snd_wl2 : Setter snd_wl2 := ltac:(setter).
#[export] Instance set_snd_lbb : Setter snd_lbb := ltac:(setter).
#[export] Instance set_snd_wnd : Setter snd_wnd := ltac:(setter).
#[export] Instance set_snd_wnd_max : Setter snd_wnd_max := ltac:(setter).
#[export] Instance set_acked : Setter acked := ltac:(setter).
#[export] Instance set_snd_buf : Setter snd_buf := ltac:(setter).
#[export] Instance set_snd_queuelen : Setter snd_queuelen := ltac:(setter).
#[export] Instance set_unsent_oversize : Setter unsent_oversize := ltac:(setter).
#[export] Instance set_unsent : Setter unsent := ltac:(setter).
#[export] Instance set_unacked : Setter unacked := ltac:(setter).
#[export] Instance set_ooseq : Setter ooseq := ltac:(setter).
#[export] Instance set_refused_data : Setter refused_data := ltac:(setter).
#[export] Instance set_keep_idle : Setter keep_idle := ltac:(setter).
#[export] Instance set_persist_cnt : Setter persist_cnt := ltac:(setter).
#[export] Instance set_persist_backoff : Setter persist_backoff := ltac:(setter).
#[export] Instance set_keep_cnt_sent : Setter keep_cnt_sent := ltac:(setter).

(** The zeroed structure of [tcp_alloc]. *)
Definition zero_pcb : tcp_pcb :=
  mk_pcb 0 0 0 0 0 CLOSED 0 0 0 0 0 0 0 0 0 0 0 0 0 0 0 0 0 0 0 0 0 0 0 0 0 0 0 0 0 0 0 0
    0 0 [] [] [] None 0 0 0 0.

(** ** Packets and environment *)

(** A TCP packet given to ip_output; its checksum field is
    [inet_chksum_pseudo] of Checksum.v over the bytes of the packet. *)
Record tcp_packet := mk_packet {
  pk_src_ip : Z; pk_dst_ip : Z; pk_src : Z; pk_dest : Z;
  pk_seqno : Z; pk_ackno : Z; pk_hdrlen : Z; pk_flags : Z; pk_wnd : Z;
  pk_mss_opt : option Z;
  pk_data : list Z; pk_ttl : Z; pk_tos : Z
}.

Record tcp_env := mk_env {
  tcp_ticks : Z;
  netifs : list netif;
  netif_default : option netif;
  is_input_pcb : bool;      (** tcp_input_pcb == pcb *)
  allocs : list bool;       (** outcomes of the allocations to come *)
  outs : list tcp_packet    (** packets given to ip_output *)
}.
#[export] Instance env_eta : Eta tcp_env :=
  {| eta e := mk_env (tcp_ticks e) (netifs e) (netif_default e) (is_input_pcb e) (allocs e) (outs e) |}.
#[export] Instance set_tcp_ticks : Setter tcp_ticks := ltac:(setter).
#[export] Instance set_is_input_pcb : Setter is_input_pcb := ltac:(setter).
#[export] Instance set_allocs : Setter allocs := ltac:(setter).
#[export] Instance set_outs : Setter outs := ltac:(setter).

(** The next allocation; an exhausted stream means success from then on. *)
Definition alloc (e : tcp_env) : bool * tcp_env :=
  match allocs e with
  | [] => (true, e)
  | b :: l => (b, e <| allocs := l |>)
  end.
Definition emit (k : tcp_packet) (e : tcp_env) : tcp_env := e <| outs := outs e ++ [k] |>.
Definition env_route (e : tcp_env) (dest : Z) : option netif :=
  ip_route (netifs e) (netif_default e) dest.

(** ** Operations of a control block *)
Definition tcp_ack_now (p : tcp_pcb) : tcp_pcb := p <| flags := Z.lor (flags p) TF_ACK_NOW |>.
Definition tcp_ack (p : tcp_pcb) : tcp_pcb :=
  if has_flag (flags p) TF_ACK_DELAY then
    p <| flags := Z.lor (clear_flag (flags p) TF_ACK_DELAY) TF_ACK_NOW |>
  else p <| flags := Z.lor (flags p) TF_ACK_DELAY |>.

(** [tcp_eff_send_mss]; the subtraction is cut to a u16_t. *)
Definition tcp_eff_send_mss (e : tcp_env) (sendmss addr : Z) : Z :=
  match env_route e addr with
  | Some outif =>
      if nif_mtu outif =? 0 then sendmss
      else Z.min sendmss (u16 (nif_mtu outif - IP_HLEN - TCP_HLEN))
  | None => sendmss
  end.

(** [tcp_update_rcv_ann_wnd]: the window to announce; returns how much the
    right edge would move. *)
Definition tcp_update_rcv_ann_wnd (p : tcp_pcb) : res (Z * tcp_pcb) :=
  let new_right_edge := u32 (rcv_nxt p + rcv_wnd p) in
  if TCP_SEQ_GEQ new_right_edge (rcv_ann_right_edge p + Z.min (TCP_WND / 2) (mss p)) then
    Ok (u32 (new_right_edge - rcv_ann_right_edge p), p <| rcv_ann_wnd := rcv_wnd p |>)
  else if TCP_SEQ_GT (rcv_nxt p) (rcv_ann_right_edge p) then
    Ok (0, p <| rcv_ann_wnd := 0 |>)
  else
    let new_rcv_ann_wnd := u32 (rcv_ann_right_edge p - rcv_nxt p) in
    assert! new_rcv_ann_wnd <=? 0xffff in
    Ok (0, p <| rcv_ann_wnd := u16 new_rcv_ann_wnd |>).

(** [tcp_pcb_purge]: drops all queued data. *)
Definition tcp_pcb_purge (p : tcp_pcb) : tcp_pcb :=
  match state p with
  | CLOSED | TIME_WAIT | LISTEN => p
  | _ => p <| refused_data := None |> <| ooseq := [] |> <| rtime := -1 |>
           <| unsent := [] |> <| unacked := [] |> <| unsent_oversize := 0 |>
  end.

(** ** Lemmas: sequence numbers stand for positions of a stream

    A sequence number is the position of a byte modulo 2^32. [eq32 a b] says
    that two numbers are the same sequence number; the comparisons of the code
    respect it, and on positions less than 2^31 apart they are the order of
    the positions. *)
Definition eq32 (a b : Z) : Prop := u32 a = u32 b.

#[export] Instance eq32_equiv : Equivalence eq32.
Proof. split; red; unfold eq32; congruence. Qed.
#[export] Instance eq32_add : Proper (eq32 ==> eq32 ==> eq32) Z.add.
Proof.
  intros a a' Ha b b' Hb. unfold eq32, u32 in *.
  by rewrite Zplus_mod, Ha, Hb, <- Zplus_mod.
Qed.
#[export] Instance eq32_sub : Proper (eq32 ==> eq32 ==> eq32) Z.sub.
Proof.
  intros a a' Ha b b' Hb. unfold eq32, u32 in *.
  by rewrite Zminus_mod, Ha, Hb, <- Zminus_mod.
Qed.
#[export] Instance eq32_u32 : Proper (eq32 ==> eq) u32.
Proof. by intros a b H. Qed.
Lemma u32_eq32 a : eq32 (u32 a) a.
Proof. unfold eq32, u32. by rewrite Zmod_mod. Qed.

Lemma seq_diff a b A B : eq32 a A -> eq32 b B -> -2147483648 <= A - B < 2147483648 ->
  s32 (u32 a - u32 b) = A - B.
Proof. unfold eq32. intros -> -> H. mlia. Qed.
Lemma TCP_SEQ_LT_pos a b A B : eq32 a A -> eq32 b B -> -2147483648 <= A - B < 2147483648 ->
  TCP_SEQ_LT a b = (A <? B).
Proof. intros. unfold TCP_SEQ_LT. erewrite seq_diff by eassumption. apply eq_bool_prop_intro. rewrite !Is_true_true, !Z.ltb_lt. lia. Qed.
Lemma TCP_SEQ_LEQ_pos a b A B : eq32 a A -> eq32 b B -> -2147483648 <= A - B < 2147483648 ->
  TCP_SEQ_LEQ a b = (A <=? B).
Proof. intros. unfold TCP_SEQ_LEQ. erewrite seq_diff by eassumption. apply eq_bool_prop_intro. rewrite !Is_true_true, !Z.leb_le. lia. Qed.
Lemma TCP_SEQ_GT_pos a b A B : eq32 a A -> eq32 b B -> -2147483648 <= A - B < 2147483648 ->
  TCP_SEQ_GT a b = (B <? A).
Proof. intros. unfold TCP_SEQ_GT. erewrite seq_diff by eassumption. apply eq_bool_prop_intro. rewrite !Is_true_true, !Z.ltb_lt. lia. Qed.
Lemma TCP_SEQ_GEQ_pos a b A B : eq32 a A -> eq32 b B -> -2147483648 <= A - B < 2147483648 ->
  TCP_SEQ_GEQ a b = (B <=? A).
Proof. intros. unfold TCP_SEQ_GEQ. erewrite seq_diff by eassumption. apply eq_bool_prop_intro. rewrite !Is_true_true, !Z.leb_le. lia. Qed.
Lemma TCP_SEQ_BETWEEN_pos a b c A B C : eq32 a A -> eq32 b B -> eq32 c C ->
  -2147483648 <= A - B < 2147483648 -> -2147483648 <= A - C < 2147483648 ->
  TCP_SEQ_BETWEEN a b c = (B <=? A) && (A <=? C).
Proof. intros. unfold TCP_SEQ_BETWEEN. by erewrite TCP_SEQ_GEQ_pos, TCP_SEQ_LEQ_pos by eassumption. Qed.

(** Solve a goal [eq32 e E] where [e] is an expression of the code over
    sequence numbers of known positions. *)
Ltac eq32_solve := unfold eq32; mlia.

(** The window update on positions. *)
Lemma rcv_ann_wnd_spec (p : tcp_pcb) (R E : Z) :
  rcv_nxt p = u32 R -> rcv_ann_right_edge p = u32 E ->
  0 <= rcv_wnd p <= TCP_WND -> 0 <= mss p <= 65535 ->
  R - 65535 <= E <= R + rcv_wnd p ->
  exists d w, tcp_update_rcv_ann_wnd p = Ok (d, p <| rcv_ann_wnd := w |>) /\
    0 <= w <= rcv_wnd p /\ (R <= E -> R + w = E + d) /\ 0 <= d /\
    if decide (E + Z.min (TCP_WND / 2) (mss p) <= R + rcv_wnd p)
    then w = rcv_wnd p /\ d = R + w - E else d = 0 /\ w = Z.max 0 (E - R).
Proof.
  intros HR HE Hw Hm He. unfold tcp_update_rcv_ann_wnd. rewrite HR, HE.
  unfold TCP_WND, TCP_MSS in *. change (4 * 1024 / 2) with 2048.
  rewrite (TCP_SEQ_GEQ_pos _ _ (R + rcv_wnd p) (E + Z.min 2048 (mss p))) by (eq32_solve || lia).
  rewrite (TCP_SEQ_GT_pos _ _ R E) by (eq32_solve || lia).
  destruct (Z.leb_spec (E + Z.min 2048 (mss p)) (R + rcv_wnd p)) as [Hle|Hgt].
  - exists (u32 (u32 (u32 R + rcv_wnd p) - u32 E)), (rcv_wnd p).
    assert (u32 (u32 (u32 R + rcv_wnd p) - u32 E) = R + rcv_wnd p - E) as -> by mlia.
    rewrite decide_True by done. split_and!; try done; try lia.
  - destruct (Z.ltb_spec E R).
    + exists 0, 0. rewrite decide_False by lia. split_and!; try done; lia.
    + assert (u32 (u32 E - u32 R) = E - R) as -> by mlia.
      destruct (Z.leb_spec (E - R) 65535); [|lia]. simpl.
      rewrite u16_id by lia. exists 0, (E - R).
      rewrite decide_False by lia. split_and!; try done; lia.
Qed.

(** The comparisons of sequence numbers order positions of the stream that
    are less than 2^31 apart, whatever the wrap-around; [TCP_SEQ_BETWEEN] is
    membership in a window. *)
Theorem tcp_seq_order (a b c : Z) :
  -2147483648 < a - b < 2147483648 -> -2147483648 < a - c < 2147483648 ->
  TCP_SEQ_LT (u32 a) (u32 b) = (a <? b) /\ TCP_SEQ_LEQ (u32 a) (u32 b) = (a <=? b) /\
  TCP_SEQ_GT (u32 a) (u32 b) = (b <? a) /\ TCP_SEQ_GEQ (u32 a) (u32 b) = (b <=? a) /\
  TCP_SEQ_BETWEEN (u32 a) (u32 b) (u32 c) = (b <=? a) && (a <=? c) /\
  TCP_SEQ_LT (u32 a) (u32 b) = TCP_SEQ_GT (u32 b) (u32 a) /\
  (u32 a = u32 b <-> a = b).
Proof.
  intros H1 H2.
  rewrite (TCP_SEQ_LT_pos _ _ a b), (TCP_SEQ_LEQ_pos _ _ a b), (TCP_SEQ_GT_pos _ _ a b),
    (TCP_SEQ_GT_pos _ _ b a), (TCP_SEQ_GEQ_pos _ _ a b), (TCP_SEQ_BETWEEN_pos _ _ _ a b c);
    rewrite ?u32_eq32; try done; try lia.
  split_and!; try done. mlia.
Qed.

Lemma tcp_seq_order_witness :
  TCP_SEQ_LT (u32 4294967290) (u32 4294967300) = (4294967290 <? 4294967300).
Proof. apply (tcp_seq_order 4294967290 4294967300 4294967300); lia. Defined.

(** With [R] the position of the next byte expected and [E] the right edge
    announced so far, [tcp_update_rcv_ann_wnd] announces the whole receive
    window when that moves the edge by half the window or a segment, and
    otherwise keeps the edge. So the announced window is never larger than the
    receive window, its right edge never moves left over bytes that were
    announced, the return value is the distance, and no assertion fails. *)
Theorem tcp_update_rcv_ann_wnd_correct (p : tcp_pcb) (R E : Z) :
  rcv_nxt p = u32 R -> rcv_ann_right_edge p = u32 E ->
  0 <= rcv_wnd p <= TCP_WND -> 0 <= mss p <= 65535 ->
  R - 65535 <= E <= R + rcv_wnd p ->
  exists d w, tcp_update_rcv_ann_wnd p = Ok (d, p <| rcv_ann_wnd := w |>) /\
    0 <= w <= rcv_wnd p /\ (R <= E -> R + w = E + d) /\ 0 <= d /\
    if decide (E + Z.min (TCP_WND / 2) (mss p) <= R + rcv_wnd p)
    then w = rcv_wnd p /\ d = R + w - E else d = 0 /\ w = Z.max 0 (E - R).
Proof. apply rcv_ann_wnd_spec. Qed.

Lemma tcp_update_rcv_ann_wnd_witness :
  let p := zero_pcb <| rcv_nxt := u32 4294967290 |> <| rcv_wnd := 3000 |>
    <| rcv_ann_right_edge := u32 4294967300 |> <| mss := 536 |> in
  exists d w, tcp_update_rcv_ann_wnd p = Ok (d, p <| rcv_ann_wnd := w |>) /\ 0 <= w <= rcv_wnd p.
Proof.
  intros p.
  destruct (tcp_update_rcv_ann_wnd_correct p 4294967290 4294967300) as (d & w & H & Hw & _);
    [reflexivity|reflexivity|vm_compute; split; discriminate..|].
  by exists d, w.
Defined.
