(* ===== verification/TcpOut.v ===== *)
(** * TCP output (src/src/lwip/core/tcp_out.c)

    Enqueueing of data and of SYN and FIN, [tcp_output] and the
    retransmissions, on one control block and the environment of Tcp.v. The
    checksum and the byte layout of the header are not part of a
    [tcp_packet]; timestamps and checksum-on-copy are compiled out. *)
From S2P Require Import Prelude ByteOrder IpAddr Ip Tcp.

Definition TCP_WRITE_FLAG_COPY : Z := 0x01.
Definition TCP_WRITE_FLAG_MORE : Z := 0x02.

(** ** Headers *)

(** [tcp_output_alloc_header]: a header-only pbuf with room for [datalen]
    bytes; sending it announces the window. *)
Definition tcp_output_alloc_header (p : tcp_pcb) (e : tcp_env) (optlen datalen seqno : Z)
  : option tcp_packet * tcp_pcb * tcp_env :=
  let '(ok, e) := alloc e in
  if ok then
    (Some (mk_packet (local_ip p) (remote_ip p) (local_port p) (remote_port p)
             seqno (rcv_nxt p) (5 + optlen / 4) TCP_ACK (rcv_ann_wnd p) None
             (repeat 0 (Z.to_nat datalen)) (ttl p) 0),
     p <| rcv_ann_right_edge := u32 (rcv_nxt p + rcv_ann_wnd p) |>, e)
  else (None, p, e).

(** [tcp_create_segment] for a pbuf with [data] behind [optflags]' options; the
    pbufs given to it were allocated with room for the headers. *)
Definition tcp_create_segment (e : tcp_env) (data : list Z) (clen hflags seqno optflags : Z)
  : option tcp_seg * tcp_env :=
  let '(ok, e) := alloc e in
  (if ok then Some (mk_seg seqno hflags (zlen data) optflags data clen) else None, e).

(** Replace the last element of a queue. *)
Fixpoint alter_last (f : tcp_seg -> tcp_seg) (l : list tcp_seg) : list tcp_seg :=
  match l with
  | [] => []
  | [s] => [f s]
  | s :: l' => s :: alter_last f l'
  end.

Definition set_hflag (f : Z) (s : tcp_seg) : tcp_seg :=
  s <| seg_hflags := Z.lor (seg_hflags s) f |>.

(** ** tcp_write *)

Definition tcp_write_checks (p : tcp_pcb) (len : Z) : res (err_t * tcp_pcb) :=
  let queues_empty := bool_decide (unacked p = [] /\ unsent p = []) in
  if negb (state_is (state p) ESTABLISHED) && negb (state_is (state p) CLOSE_WAIT)
     && negb (state_is (state p) SYN_SENT) && negb (state_is (state p) SYN_RCVD)
  then Ok (ERR_CONN, p)
  else if len =? 0 then Ok (ERR_OK, p)
  else if snd_buf p <? len then
    Ok (ERR_MEM, p <| flags := Z.lor (flags p) TF_NAGLEMEMERR |>)
  else if (TCP_SND_QUEUELEN <=? snd_queuelen p) || (TCP_SNDQUEUELEN_OVERFLOW <? snd_queuelen p)
  then Ok (ERR_MEM, p <| flags := Z.lor (flags p) TF_NAGLEMEMERR |>)
  else if negb (snd_queuelen p =? 0) then
    assert! negb queues_empty in Ok (ERR_OK, p)
  else
    assert! queues_empty in Ok (ERR_OK, p).

(** [tcp_pbuf_prealloc]: the spare bytes of the pbuf, or [None] when there is
    no memory. *)
Definition tcp_pbuf_prealloc (p : tcp_pcb) (e : tcp_env)
    (length max_length apiflags : Z) (first_seg : bool) : option Z * tcp_env :=
  let size :=
    if (length <? max_length)
       && (has_flag apiflags TCP_WRITE_FLAG_MORE
           || (negb (has_flag (flags p) TF_NODELAY)
               && (negb first_seg || negb (bool_decide (unsent p = []))
                   || negb (bool_decide (unacked p = [])))))
    then Z.min max_length (length + TCP_OVERSIZE) else length in
  let '(ok, e) := alloc e in
  (if ok then Some (size - length) else None, e).

(** Outcome of a phase: [None] is the jump to memerr. *)
Definition memerr (p : tcp_pcb) (e : tcp_env) : res (err_t * tcp_pcb * tcp_env) :=
  assert! (snd_queuelen p =? 0) || negb (bool_decide (unacked p = [] /\ unsent p = [])) in
  Ok (ERR_MEM, p <| flags := Z.lor (flags p) TF_NAGLEMEMERR |>, e).

(** One pbuf (chain) with a copy or a reference to the data: the number of
    pbufs and the spare bytes at its end. *)
Definition write_pbuf (p : tcp_pcb) (e : tcp_env) (apiflags seglen max oversize : Z)
    (first_seg with_header : bool) : res (option (Z * Z) * tcp_env) :=
  if has_flag apiflags TCP_WRITE_FLAG_COPY then
    let '(o, e) := tcp_pbuf_prealloc p e seglen max apiflags first_seg in
    Ok (match o with Some spare => Some (1, spare) | None => None end, e)
  else if with_header then
    assert! oversize =? 0 in
    let '(ok, e) := alloc e in
    if ok then
      let '(ok2, e) := alloc e in
      Ok (if ok2 then Some (2, oversize) else None, e)
    else Ok (None, e)
  else
    let '(ok, e) := alloc e in
    Ok (if ok then Some (1, oversize) else None, e).

(** Phase 1 and 2: how many bytes go into the spare room of the last unsent
    segment ([oversize_used]) and into a pbuf chained to it ([seglen], 0 when
    there is none). *)
Record tail_fill := mk_fill {
  oversize_used : Z; concat_len : Z; fill_pos : Z; fill_oversize : Z;
  fill_queuelen : Z; tampered : bool
}.

Definition write_tail (p : tcp_pcb) (e : tcp_env) (len mss_local apiflags : Z)
  : res (option tail_fill * tcp_env) :=
  match last (unsent p) with
  | None =>
      assert! unsent_oversize p =? 0 in
      Ok (Some (mk_fill 0 0 0 0 (snd_queuelen p) false), e)
  | Some last_unsent =>
      let unsent_optlen := LWIP_TCP_OPT_LENGTH (seg_opts last_unsent) in
      let space := u16 (mss_local - (seg_len last_unsent + unsent_optlen)) in
      let oversize := unsent_oversize p in
      let used := if 0 <? oversize then Z.min oversize len else 0 in
      let oversize := oversize - used in
      let space := u16 (space - used) in
      assert! (oversize =? 0) || (used =? len) in
      if (used <? len) && (0 <? space) && (0 <? seg_len last_unsent) then
        let seglen := Z.min space (len - used) in
        let! (o, e) := write_pbuf p e apiflags seglen space oversize true false in
        match o with
        | None => Ok (None, e)
        | Some (clen, oversize) =>
            Ok (Some (mk_fill used seglen (used + seglen) oversize
                        (u16 (snd_queuelen p + clen)) true), e)
        end
      else Ok (Some (mk_fill used 0 used oversize (snd_queuelen p) (0 <? unsent_oversize p)), e)
  end.

(** Phase 3: the new segments for the data from [pos] on. *)
Fixpoint write_segs (fuel : nat) (p : tcp_pcb) (e : tcp_env) (arg : list Z)
    (mss_local apiflags pos oversize queuelen : Z) (queue : list tcp_seg)
  : res (option (list tcp_seg * Z * Z) * tcp_env) :=
  if pos <? zlen arg then
    match fuel with
    | O => Err OutOfFuel
    | S fuel =>
        let left := u16 (zlen arg - pos) in
        let seglen := if mss_local <? left then mss_local else left in
        let! (o, e) := write_pbuf p e apiflags seglen mss_local oversize
                         (bool_decide (queue = [])) true in
        match o with
        | None => Ok (None, e)
        | Some (clen, oversize) =>
            let queuelen := u16 (queuelen + clen) in
            if (TCP_SND_QUEUELEN <? queuelen) || (TCP_SNDQUEUELEN_OVERFLOW <? queuelen)
            then Ok (None, e)
            else
              let data := take (Z.to_nat seglen) (drop (Z.to_nat pos) arg) in
              let '(s, e) := tcp_create_segment e data clen 0 (u32 (snd_lbb p + pos)) 0 in
              match s with
              | None => Ok (None, e)
              | Some s => write_segs fuel p e arg mss_local apiflags (u16 (pos + seglen))
                            oversize queuelen (queue ++ [s])
              end
        end
    end
  else Ok (Some (queue, queuelen, oversize), e).

(** The update of the last unsent segment at the end of phases 1 and 2. *)
Definition fill_seg (arg : list Z) (f : tail_fill) (s : tcp_seg) : tcp_seg :=
  s <| seg_len := u16 (seg_len s + oversize_used f + concat_len f) |>
    <| seg_data := seg_data s ++ take (Z.to_nat (fill_pos f)) arg |>
    <| seg_clen := seg_clen s + (if concat_len f =? 0 then 0 else 1) |>.

Definition tcp_write (p : tcp_pcb) (e : tcp_env) (arg : list Z) (apiflags : Z)
  : res (err_t * tcp_pcb * tcp_env) :=
  let len := zlen arg in
  let mss_local := Z.min (mss p) (snd_wnd_max p / 2) in
  let! (err, p) := tcp_write_checks p len in
  if negb (err =? ERR_OK) then Ok (err, p, e)
  else
    let! (fill, e) := write_tail p e len mss_local apiflags in
    match fill with
    | None => memerr p e
    | Some f =>
        let! (q, e) := write_segs (Z.to_nat (TCP_SND_QUEUELEN + 2)) p e arg mss_local apiflags
                         (fill_pos f) (fill_oversize f) (fill_queuelen f) [] in
        match q with
        | None => memerr p e
        | Some (queue, queuelen, oversize) =>
            let unsent' :=
              match unsent p with
              | [] => queue
              | _ => alter_last (fill_seg arg f) (unsent p) ++ queue
              end in
            assert! (queuelen =? 0) || negb (bool_decide (unacked p = [] /\ unsent' = [])) in
            let psh := negb (has_flag apiflags TCP_WRITE_FLAG_MORE)
                       && (tampered f || negb (bool_decide (queue = []))) in
            let unsent' := if psh then alter_last (set_hflag TCP_PSH) unsent' else unsent' in
            Ok (ERR_OK,
                p <| unsent_oversize := oversize |>
                  <| unsent := unsent' |>
                  <| snd_lbb := u32 (snd_lbb p + len) |>
                  <| snd_buf := u16 (snd_buf p - len) |>
                  <| snd_queuelen := queuelen |>, e)
        end
    end.

(** ** SYN and FIN *)

Definition tcp_enqueue_flags (p : tcp_pcb) (e : tcp_env) (fl : Z)
  : res (err_t * tcp_pcb * tcp_env) :=
  let nomem e := Ok (ERR_MEM, p <| flags := Z.lor (flags p) TF_NAGLEMEMERR |>, e) in
  assert! has_flag fl (Z.lor TCP_SYN TCP_FIN) in
  if (TCP_SND_QUEUELEN <=? snd_queuelen p) || (TCP_SNDQUEUELEN_OVERFLOW <? snd_queuelen p)
  then nomem e
  else
    let optflags := if has_flag fl TCP_SYN then TF_SEG_OPTS_MSS else 0 in
    if snd_buf p =? 0 then Ok (ERR_MEM, p, e)
    else
      let '(ok, e) := alloc e in
      if negb ok then nomem e
      else
        let '(o, e) := tcp_create_segment e [] 1 fl (snd_lbb p) optflags in
        match o with
        | None => nomem e
        | Some s =>
            Ok (ERR_OK,
                p <| unsent := unsent p ++ [s] |>
                  <| unsent_oversize := 0 |>
                  <| snd_lbb := u32 (snd_lbb p + 1) |>
                  <| snd_buf := u16 (snd_buf p - 1) |>
                  <| flags := if has_flag fl TCP_FIN then Z.lor (flags p) TF_FIN else flags p |>
                  <| snd_queuelen := u16 (snd_queuelen p + 1) |>, e)
        end.

Definition tcp_send_fin (p : tcp_pcb) (e : tcp_env) : res (err_t * tcp_pcb * tcp_env) :=
  match last (unsent p) with
  | Some last_unsent =>
      if has_flag (seg_hflags last_unsent) (Z.lor TCP_SYN (Z.lor TCP_FIN TCP_RST)) then
        tcp_enqueue_flags p e TCP_FIN
      else
        Ok (ERR_OK,
            p <| unsent := alter_last (set_hflag TCP_FIN) (unsent p) |>
              <| flags := Z.lor (flags p) TF_FIN |>, e)
  | None => tcp_enqueue_flags p e TCP_FIN
  end.

(** ** Sending *)

Definition tcp_send_empty_ack (p : tcp_pcb) (e : tcp_env) : err_t * tcp_pcb * tcp_env :=
  match tcp_output_alloc_header p e 0 0 (snd_nxt p) with
  | (None, p, e) => (ERR_BUF, p, e)
  | (Some k, p, e) =>
      (ERR_OK, p <| flags := clear_flag (flags p) (Z.lor TF_ACK_DELAY TF_ACK_NOW) |>, emit k e)
  end.

(** [tcp_do_output_nagle] of tcp_impl.h. *)
Definition tcp_do_output_nagle (p : tcp_pcb) : bool :=
  bool_decide (unacked p = []) || has_flag (flags p) (Z.lor TF_NODELAY TF_INFR) ||
  match unsent p with
  | [] => false
  | [s] => mss p <=? seg_len s
  | _ => true
  end ||
  ((snd_buf p =? 0) || (TCP_SND_QUEUELEN <=? snd_queuelen p)).

(** [tcp_output_segment]: nothing is sent when there is no route, but the
    window and the timers are updated before that is known. *)
Definition tcp_output_segment (s : tcp_seg) (p : tcp_pcb) (e : tcp_env) : tcp_pcb * tcp_env :=
  let p := p <| rcv_ann_right_edge := u32 (rcv_nxt p + rcv_ann_wnd p) |>
             <| rtime := if rtime p =? -1 then 0 else rtime p |> in
  let send (p : tcp_pcb) :=
    let p := if rttest p =? 0 then p <| rttest := tcp_ticks e |> <| rtseq := seg_seqno s |> else p in
    (p, emit (mk_packet (local_ip p) (remote_ip p) (local_port p) (remote_port p)
                (seg_seqno s) (rcv_nxt p) (5 + LWIP_TCP_OPT_LENGTH (seg_opts s) / 4)
                (seg_hflags s) (rcv_ann_wnd p)
                (if has_flag (seg_opts s) TF_SEG_OPTS_MSS
                 then Some (tcp_eff_send_mss e TCP_MSS (remote_ip p)) else None)
                (seg_data s) (ttl p) (tos p)) e) in
  if local_ip p =? IPADDR_ANY then
    match env_route e (remote_ip p) with
    | None => (p, e)
    | Some n => send (p <| local_ip := nif_ip_addr n |>)
    end
  else send p.

(** Insert before the first segment that does not precede [s]. *)
Fixpoint insert_sorted (s : tcp_seg) (l : list tcp_seg) : list tcp_seg :=
  match l with
  | [] => [s]
  | c :: l' => if TCP_SEQ_LT (seg_seqno c) (seg_seqno s) then c :: insert_sorted s l' else s :: l
  end.

(** The segment on the unacked queue ([useg] is the last one there). *)
Definition put_unacked (s : tcp_seg) (l : list tcp_seg) : list tcp_seg :=
  match last l with
  | None => [s]
  | Some useg =>
      if TCP_SEQ_LT (seg_seqno s) (seg_seqno useg) then insert_sorted s l else l ++ [s]
  end.

(** One round of the loop of [tcp_output] for the first unsent segment. *)
Definition output_one (s : tcp_seg) (rest : list tcp_seg) (p : tcp_pcb) (e : tcp_env)
  : tcp_pcb * tcp_env :=
  let p := p <| unsent := rest |> in
  let '(s, p) :=
    if state_is (state p) SYN_SENT then (s, p)
    else (set_hflag TCP_ACK s,
          p <| flags := clear_flag (flags p) (Z.lor TF_ACK_DELAY TF_ACK_NOW) |>) in
  let '(p, e) := tcp_output_segment s p e in
  let nxt := u32 (seg_seqno s + TCP_TCPLEN s) in
  let p := if TCP_SEQ_LT (snd_nxt p) nxt then p <| snd_nxt := nxt |> else p in
  (if 0 <? TCP_TCPLEN s then p <| unacked := put_unacked s (unacked p) |> else p, e).

(** The segment at the head of the unsent queue ends within [wnd] of the last
    acknowledgement. *)
Definition in_snd_wnd (p : tcp_pcb) (wnd : Z) (s : tcp_seg) : bool :=
  u32 (seg_seqno s - lastack p + seg_len s) <=? wnd.

Fixpoint output_loop (l : list tcp_seg) (wnd : Z) (p : tcp_pcb) (e : tcp_env)
  : res (tcp_pcb * tcp_env) :=
  match l with
  | [] => Ok (p, e)
  | s :: rest =>
      if in_snd_wnd p wnd s then
        assert! negb (has_flag (seg_hflags s) TCP_RST) in
        if negb (tcp_do_output_nagle p) && negb (has_flag (flags p) (Z.lor TF_NAGLEMEMERR TF_FIN))
        then Ok (p, e)
        else
          let '(p, e) := output_one s rest p e in
          output_loop rest wnd p e
      else Ok (p, e)
  end.

Definition tcp_output (p : tcp_pcb) (e : tcp_env) : res (err_t * tcp_pcb * tcp_env) :=
  assert! negb (state_is (state p) LISTEN) in
  if is_input_pcb e then Ok (ERR_OK, p, e)
  else
    let wnd := Z.min (snd_wnd p) (cwnd p) in
    if has_flag (flags p) TF_ACK_NOW
       && match unsent p with [] => true | s :: _ => negb (in_snd_wnd p wnd s) end
    then Ok (tcp_send_empty_ack p e)
    else
      let! (p, e) := output_loop (unsent p) wnd p e in
      let p := match unsent p with [] => p <| unsent_oversize := 0 |> | _ => p end in
      Ok (ERR_OK, p <| flags := clear_flag (flags p) TF_NAGLEMEMERR |>, e).

(** [tcp_rst]: a reset that belongs to no control block. *)
Definition tcp_rst (e : tcp_env) (seqno ackno lip rip lport rport : Z) : tcp_env :=
  let '(ok, e) := alloc e in
  if ok then
    emit (mk_packet lip rip lport rport seqno ackno (TCP_HLEN / 4) (Z.lor TCP_RST TCP_ACK)
            TCP_WND None [] TCP_TTL 0) e
  else e.

(** ** Retransmission *)

Definition tcp_rexmit_rto (p : tcp_pcb) (e : tcp_env) : res (tcp_pcb * tcp_env) :=
  match unacked p with
  | [] => Ok (p, e)
  | _ =>
      let! (_, p, e) := tcp_output
        (p <| unsent := unacked p ++ unsent p |> <| unacked := [] |>
           <| nrtx := u8 (nrtx p + 1) |> <| rttest := 0 |>) e in
      Ok (p, e)
  end.

Definition tcp_rexmit (p : tcp_pcb) : tcp_pcb :=
  match unacked p with
  | [] => p
  | s :: rest =>
      let unsent' := insert_sorted s (unsent p) in
      p <| unacked := rest |> <| unsent := unsent' |>
        <| unsent_oversize := if forallb (fun c => TCP_SEQ_LT (seg_seqno c) (seg_seqno s)) (unsent p)
                            then 0 else unsent_oversize p |>
        <| nrtx := u8 (nrtx p + 1) |> <| rttest := 0 |>
  end.

Definition tcp_rexmit_fast (p : tcp_pcb) : tcp_pcb :=
  if negb (bool_decide (unacked p = [])) && negb (has_flag (flags p) TF_INFR) then
    let p := tcp_rexmit p in
    let half := if snd_wnd p <? cwnd p then snd_wnd p / 2 else cwnd p / 2 in
    let ss := if half <? 2 * mss p then u16 (2 * mss p) else half in
    p <| ssthresh := ss |> <| cwnd := u16 (ss + 3 * mss p) |>
      <| flags := Z.lor (flags p) TF_INFR |>
  else p.

(** ** Probes *)

Definition tcp_keepalive (p : tcp_pcb) (e : tcp_env) : tcp_pcb * tcp_env :=
  match tcp_output_alloc_header p e 0 0 (u32 (snd_nxt p - 1)) with
  | (None, p, e) => (p, e)
  | (Some k, p, e) => (p, emit k e)
  end.

(** A probe carries the FIN or the first byte of the first segment in flight
    (of the first unsent one when none is); with neither the byte of the pbuf
    is not written, 0 here. *)
Definition tcp_zero_window_probe (p : tcp_pcb) (e : tcp_env) : tcp_pcb * tcp_env :=
  match unacked p ++ unsent p with
  | [] => (p, e)
  | s :: _ =>
      let is_fin := has_flag (seg_hflags s) TCP_FIN && (seg_len s =? 0) in
      match tcp_output_alloc_header p e 0 (if is_fin then 0 else 1) (seg_seqno s) with
      | (None, p, e) => (p, e)
      | (Some k, p, e) =>
          (p, emit (mk_packet (pk_src_ip k) (pk_dst_ip k) (pk_src k) (pk_dest k) (pk_seqno k)
                      (pk_ackno k) (pk_hdrlen k)
                      (if is_fin then Z.lor TCP_ACK TCP_FIN else pk_flags k) (pk_wnd k) None
                      (if is_fin then [] else [List.hd 0 (seg_data s)]) (pk_ttl k) (pk_tos k)) e)
      end
  end.

(** ** tcp_recved (tcp.c) *)
Definition tcp_recved (p : tcp_pcb) (e : tcp_env) (len : Z) : res (tcp_pcb * tcp_env) :=
  assert! negb (state_is (state p) LISTEN) in
  assert! len <=? 0xffff - rcv_wnd p in
  let p := p <| rcv_wnd := Z.min (u16 (rcv_wnd p + len)) TCP_WND |> in
  let! (infl, p) := tcp_update_rcv_ann_wnd p in
  if TCP_WND_UPDATE_THRESHOLD <=? s32 infl then
    let! (_, p, e) := tcp_output (tcp_ack_now p) e in Ok (p, e)
  else Ok (p, e).
