(* ===== verification/TcpIn.v ===== *)
(** * TCP input: options, acknowledgements and data
    (src/src/lwip/core/tcp_in.c: tcp_parseopt, tcp_receive)

    The globals of tcp_in.c that describe the segment at hand are a record
    [tcp_in]. [tcp_receive] works on one control block; it is cut into the
    parts the C function has one after the other. *)
From S2P Require Import Prelude ByteOrder IpAddr Ip Tcp TcpOut.

(** ** The segment at hand

    [in_flags], [in_seqno] and [in_tcplen] are the globals flags, seqno and
    tcplen; [inseg] the segment with its header ([seg_seqno], [seg_hflags]);
    [inseg_p] is false once inseg.p is NULL; [in_opts] the bytes behind the
    fixed header, as far as they can be read. *)
Record tcp_in := mk_in {
  in_src_ip : Z; in_dst_ip : Z; in_src : Z; in_dest : Z;
  in_wnd : Z; in_hdrlen : Z; in_opts : list Z;
  in_flags : Z; in_seqno : Z; in_ackno : Z; in_tcplen : Z;
  inseg : tcp_seg; inseg_p : bool;
  recv_data : option (list Z); recv_flags : Z
}.
#[export] Instance in_eta : Eta tcp_in :=
  {| eta i := mk_in (in_src_ip i) (in_dst_ip i) (in_src i) (in_dest i) (in_wnd i) (in_hdrlen i)
       (in_opts i) (in_flags i) (in_seqno i) (in_ackno i) (in_tcplen i) (inseg i) (inseg_p i)
       (recv_data i) (recv_flags i) |}.
#[export] Instance set_in_seqno : Setter in_seqno := ltac:(setter).
#[export] Instance set_in_tcplen : Setter in_tcplen := ltac:(setter).
#[export] Instance set_inseg : Setter inseg := ltac:(setter).
#[export] Instance set_inseg_p : Setter inseg_p := ltac:(setter).
#[export] Instance set_recv_data : Setter recv_data := ltac:(setter).
#[export] Instance set_recv_flags : Setter recv_flags := ltac:(setter).

(** pbuf_realloc to [n] bytes, which never grows (PbufAlloc.v). *)
Definition realloc_seg (n : Z) (s : tcp_seg) : tcp_seg :=
  s <| seg_data := take (Z.to_nat n) (seg_data s) |>.

(** ** Options *)

(** The loop of [tcp_parseopt] from offset [c]; returns the new pcb->mss. A
    read behind the readable bytes is an error. *)
Fixpoint parseopt_loop (fuel : nat) (opts : list Z) (max_c c m : Z) : res Z :=
  if c <? max_c then
    match fuel with
    | O => Err OutOfFuel
    | S fuel =>
        let byte j := of_option BadAccess (opts !! Z.to_nat j) in
        let! opt := byte c in
        if opt =? 0x00 then Ok m
        else if opt =? 0x01 then parseopt_loop fuel opts max_c (u16 (c + 1)) m
        else if opt =? 0x02 then
          let! l := byte (c + 1) in
          if negb (l =? 0x04) || (max_c <? c + 0x04) then Ok m
          else
            let! hi := byte (c + 2) in
            let! lo := byte (c + 3) in
            let v := Z.lor (Z.shiftl hi 8) lo in
            parseopt_loop fuel opts max_c (u16 (c + 0x04))
              (if (TCP_MSS <? v) || (v =? 0) then TCP_MSS else v)
        else
          let! l := byte (c + 1) in
          if l =? 0 then Ok m else parseopt_loop fuel opts max_c (u16 (c + l)) m
    end
  else Ok m.

Definition tcp_parseopt (p : tcp_pcb) (i : tcp_in) : res tcp_pcb :=
  if 5 <? in_hdrlen i then
    let max_c := Z.shiftl (in_hdrlen i - 5) 2 in
    let! m := parseopt_loop (Z.to_nat max_c) (in_opts i) max_c 0 (mss p) in
    Ok (p <| mss := m |>)
  else Ok p.

(** ** Acknowledgements *)

(** The window update. *)
Definition update_snd_wnd (p : tcp_pcb) (i : tcp_in) : tcp_pcb :=
  if TCP_SEQ_LT (snd_wl1 p) (in_seqno i)
     || ((snd_wl1 p =? in_seqno i) && TCP_SEQ_LT (snd_wl2 p) (in_ackno i))
     || ((snd_wl2 p =? in_ackno i) && (snd_wnd p <? in_wnd i))
  then
    let p := p <| snd_wnd := in_wnd i |> <| snd_wnd_max := Z.max (snd_wnd_max p) (in_wnd i) |>
               <| snd_wl1 := in_seqno i |> <| snd_wl2 := in_ackno i |> in
    if snd_wnd p =? 0 then
      if persist_backoff p =? 0 then p <| persist_cnt := 0 |> <| persist_backoff := 1 |> else p
    else if 0 <? persist_backoff p then p <| persist_backoff := 0 |>
    else p
  else p.

(** An acknowledgement of nothing new. *)
Definition recv_dupack (p : tcp_pcb) (i : tcp_in) (right_wnd_edge : Z) : tcp_pcb :=
  let p := p <| acked := 0 |> in
  if (in_tcplen i =? 0) && (u32 (snd_wl2 p + snd_wnd p) =? right_wnd_edge)
     && (0 <=? rtime p) && (lastack p =? in_ackno i)
  then
    let p := if dupacks p <? u8 (dupacks p + 1) then p <| dupacks := u8 (dupacks p + 1) |> else p in
    if 3 <? dupacks p then
      if cwnd p <? u16 (cwnd p + mss p) then p <| cwnd := u16 (cwnd p + mss p) |> else p
    else if dupacks p =? 3 then tcp_rexmit_fast p
    else p
  else p <| dupacks := 0 |>.

(** The FIN's sequence number is not reported to the sent callback; the
    segment leaves the queue length. *)
Definition free_acked (s : tcp_seg) (p : tcp_pcb) : res tcp_pcb :=
  assert! seg_clen s <=? snd_queuelen p in
  let p := if negb (acked p =? 0) && has_flag (seg_hflags s) TCP_FIN
           then p <| acked := acked p - 1 |> else p in
  let p := p <| snd_queuelen := snd_queuelen p - seg_clen s |> in
  assert! (snd_queuelen p =? 0) || negb (bool_decide (unacked p = [] /\ unsent p = [])) in
  Ok p.

(** Remove the acknowledged segments from the unacked queue. *)
Fixpoint ack_unacked (l : list tcp_seg) (ackno : Z) (p : tcp_pcb) : res tcp_pcb :=
  match l with
  | [] => Ok p
  | s :: rest =>
      if TCP_SEQ_LEQ (seg_seqno s + TCP_TCPLEN s) ackno then
        let! p := free_acked s (p <| unacked := rest |>) in
        ack_unacked rest ackno p
      else Ok p
  end.

(** After a retransmission acknowledged segments can be on the unsent queue. *)
Fixpoint ack_unsent (l : list tcp_seg) (ackno : Z) (p : tcp_pcb) : res tcp_pcb :=
  match l with
  | [] => Ok p
  | s :: rest =>
      if TCP_SEQ_BETWEEN ackno (seg_seqno s + TCP_TCPLEN s) (snd_nxt p) then
        let p := p <| unsent := rest |> in
        let p := if bool_decide (rest = []) then p <| unsent_oversize := 0 |> else p in
        let! p := free_acked s p in
        ack_unsent rest ackno p
      else Ok p
  end.

(** Slow start and congestion avoidance; [mss * mss / cwnd] is a division by
    zero when cwnd is 0. *)
Definition grow_cwnd (p : tcp_pcb) : res tcp_pcb :=
  if 4 <=? state_num (state p) then
    if cwnd p <? ssthresh p then
      Ok (if cwnd p <? u16 (cwnd p + mss p) then p <| cwnd := u16 (cwnd p + mss p) |> else p)
    else if cwnd p =? 0 then Err BadAccess
    else
      let new_cwnd := u16 (cwnd p + mss p * mss p / cwnd p) in
      Ok (if cwnd p <? new_cwnd then p <| cwnd := new_cwnd |> else p)
  else Ok p.

(** An acknowledgement of new data. *)
Definition recv_newack (p : tcp_pcb) (i : tcp_in) : res tcp_pcb :=
  let p := if has_flag (flags p) TF_INFR
           then p <| flags := clear_flag (flags p) TF_INFR |> <| cwnd := ssthresh p |> else p in
  let p := p <| nrtx := 0 |> <| rto := s16 (Z.shiftr (sa p) 3 + sv p) |> in
  let p := p <| acked := u16 (in_ackno i - lastack p) |> in
  let p := p <| snd_buf := u16 (snd_buf p + acked p) |> <| dupacks := 0 |>
             <| lastack := in_ackno i |> in
  let! p := grow_cwnd p in
  let! p := ack_unacked (unacked p) (in_ackno i) p in
  let p := p <| rtime := if bool_decide (unacked p = []) then -1 else 0 |> in
  Ok (p <| polltmr := 0 |>).

(** Round trip time estimation (Van Jacobson's code). *)
Definition estimate_rtt (p : tcp_pcb) (e : tcp_env) (i : tcp_in) : tcp_pcb :=
  if negb (rttest p =? 0) && TCP_SEQ_LT (rtseq p) (in_ackno i) then
    let m := s16 (tcp_ticks e - rttest p) in
    let m := s16 (m - Z.shiftr (sa p) 3) in
    let p := p <| sa := s16 (sa p + m) |> in
    let m := if m <? 0 then s16 (- m) else m in
    let m := s16 (m - Z.shiftr (sv p) 2) in
    let p := p <| sv := s16 (sv p + m) |> in
    p <| rto := s16 (Z.shiftr (sa p) 3 + sv p) |> <| rttest := 0 |>
  else p.

(** The part of [tcp_receive] for the ACK flag. *)
Definition recv_ack (p : tcp_pcb) (e : tcp_env) (i : tcp_in) : res tcp_pcb :=
  let right_wnd_edge := u32 (snd_wnd p + snd_wl2 p) in
  let p := update_snd_wnd p i in
  let! p :=
    if TCP_SEQ_LEQ (in_ackno i) (lastack p) then Ok (recv_dupack p i right_wnd_edge)
    else if TCP_SEQ_BETWEEN (in_ackno i) (lastack p + 1) (snd_nxt p) then recv_newack p i
    else Ok (p <| acked := 0 |>) in
  let! p := ack_unsent (unsent p) (in_ackno i) p in
  Ok (estimate_rtt p e i).

(** ** Data *)

Definition SYN_FIN : Z := Z.lor TCP_FIN TCP_SYN.
Definition set_in_flags (fl : Z) (i : tcp_in) : tcp_in :=
  i <| inseg := (inseg i) <| seg_hflags := fl |> |>.

(** Cut off the bytes before rcv_nxt. *)
Definition trim_left (p : tcp_pcb) (i : tcp_in) : res tcp_in :=
  let off := s32 (rcv_nxt p - in_seqno i) in
  assert! inseg_p i in
  assert! off <? 0x7fff in
  assert! off <=? zlen (seg_data (inseg i)) in
  Ok (i <| inseg := (inseg i)
               <| seg_data := drop (Z.to_nat off) (seg_data (inseg i)) |>
               <| seg_len := u16 (seg_len (inseg i) - u16 (rcv_nxt p - in_seqno i)) |>
               <| seg_seqno := rcv_nxt p |> |>
        <| in_seqno := rcv_nxt p |>).

(** Cut off what is behind the receive window; a FIN there is removed. *)
Definition trim_right (p : tcp_pcb) (i : tcp_in) : res tcp_in :=
  let i := i <| in_tcplen := TCP_TCPLEN (inseg i) |> in
  if rcv_wnd p <? in_tcplen i then
    let s := inseg i in
    let s := if has_flag (seg_hflags s) TCP_FIN
             then s <| seg_hflags := clear_flag (seg_hflags s) TCP_FIN |> else s in
    let s := s <| seg_len := rcv_wnd p |> in
    let s := if has_flag (seg_hflags s) TCP_SYN then s <| seg_len := u16 (seg_len s - 1) |> else s in
    let s := realloc_seg (seg_len s) s in
    let i := i <| inseg := s |> <| in_tcplen := TCP_TCPLEN s |> in
    assert! u32 (in_seqno i + in_tcplen i) =? u32 (rcv_nxt p + rcv_wnd p) in
    Ok i
  else Ok i.

(** Drop the queued segments the segment at hand covers; a FIN among them
    becomes the segment's. *)
Fixpoint drop_covered (l : list tcp_seg) (i : tcp_in) : list tcp_seg * tcp_in :=
  match l with
  | [] => ([], i)
  | next :: l' =>
      if TCP_SEQ_GEQ (in_seqno i + in_tcplen i) (seg_seqno next + seg_len next) then
        let i :=
          if has_flag (seg_hflags next) TCP_FIN && negb (has_flag (seg_hflags (inseg i)) TCP_SYN)
          then
            let i := set_in_flags (Z.lor (seg_hflags (inseg i)) TCP_FIN) i in
            i <| in_tcplen := TCP_TCPLEN (inseg i) |>
          else i in
        drop_covered l' i
      else (l, i)
  end.

(** In-sequence data against the out-of-sequence queue. *)
Definition adjust_ooseq (p : tcp_pcb) (i : tcp_in) : res (tcp_pcb * tcp_in) :=
  match ooseq p with
  | [] => Ok (p, i)
  | _ =>
      if has_flag (seg_hflags (inseg i)) TCP_FIN then Ok (p <| ooseq := [] |>, i)
      else
        let '(next, i) := drop_covered (ooseq p) i in
        let! i :=
          match next with
          | n :: _ =>
              if TCP_SEQ_GT (in_seqno i + in_tcplen i) (seg_seqno n) then
                let s := (inseg i) <| seg_len := u16 (seg_seqno n - in_seqno i) |> in
                let s := if has_flag (seg_hflags s) TCP_SYN
                         then s <| seg_len := u16 (seg_len s - 1) |> else s in
                let s := realloc_seg (seg_len s) s in
                let i := i <| inseg := s |> <| in_tcplen := TCP_TCPLEN s |> in
                assert! u32 (in_seqno i + in_tcplen i) =? seg_seqno n in
                Ok i
              else Ok i
          | [] => Ok i
          end in
        Ok (p <| ooseq := next |>, i)
  end.

(** Chain received bytes onto recv_data. *)
Definition deliver (bytes : list Z) (i : tcp_in) : tcp_in :=
  i <| recv_data := Some (match recv_data i with Some d => d ++ bytes | None => bytes end) |>.
Definition got_fin (i : tcp_in) : tcp_in := i <| recv_flags := Z.lor (recv_flags i) TF_GOT_FIN |>.

(** Take the queued segments that are now in sequence. *)
Fixpoint dequeue_ooseq (l : list tcp_seg) (p : tcp_pcb) (i : tcp_in) : res (tcp_pcb * tcp_in) :=
  match l with
  | [] => Ok (p, i)
  | cseg :: l' =>
      if seg_seqno cseg =? rcv_nxt p then
        let i := i <| in_seqno := seg_seqno cseg |> in
        let p := p <| rcv_nxt := u32 (rcv_nxt p + TCP_TCPLEN cseg) |> in
        assert! TCP_TCPLEN cseg <=? rcv_wnd p in
        let p := p <| rcv_wnd := rcv_wnd p - TCP_TCPLEN cseg |> in
        let! (_, p) := tcp_update_rcv_ann_wnd p in
        let i := if 0 <? zlen (seg_data cseg) then deliver (seg_data cseg) i else i in
        let '(p, i) :=
          if has_flag (seg_hflags cseg) TCP_FIN then
            (if state_is (state p) ESTABLISHED then p <| state := CLOSE_WAIT |> else p, got_fin i)
          else (p, i) in
        dequeue_ooseq l' (p <| ooseq := l' |>) i
      else Ok (p, i)
  end.

(** The segment is the next in sequence. *)
Definition recv_inorder (p : tcp_pcb) (i : tcp_in) : res (tcp_pcb * tcp_in) :=
  let! i := trim_right p i in
  let! (p, i) := adjust_ooseq p i in
  let p := p <| rcv_nxt := u32 (in_seqno i + in_tcplen i) |> in
  assert! in_tcplen i <=? rcv_wnd p in
  let p := p <| rcv_wnd := rcv_wnd p - in_tcplen i |> in
  let! (_, p) := tcp_update_rcv_ann_wnd p in
  let i := if 0 <? zlen (seg_data (inseg i))
           then i <| recv_data := Some (seg_data (inseg i)) |> <| inseg_p := false |> else i in
  let i := if has_flag (seg_hflags (inseg i)) TCP_FIN then got_fin i else i in
  let! (p, i) := dequeue_ooseq (ooseq p) p i in
  Ok (tcp_ack p, i).

(** [tcp_oos_insert_segment]: [cseg], whose sequence number is the global
    seqno, in front of the queue [next]. *)
Fixpoint oos_cover (cseg : tcp_seg) (seqno : Z) (next : list tcp_seg) : tcp_seg * list tcp_seg :=
  match next with
  | n :: next' =>
      if TCP_SEQ_GEQ (seqno + seg_len cseg) (seg_seqno n + seg_len n) then
        oos_cover (if has_flag (seg_hflags n) TCP_FIN then set_hflag TCP_FIN cseg else cseg)
          seqno next'
      else (cseg, next)
  | [] => (cseg, [])
  end.

Definition tcp_oos_insert_segment (cseg : tcp_seg) (seqno : Z) (next : list tcp_seg) : list tcp_seg :=
  if has_flag (seg_hflags cseg) TCP_FIN then [cseg]
  else
    let '(cseg, next) := oos_cover cseg seqno next in
    match next with
    | n :: _ =>
        if TCP_SEQ_GT (seqno + seg_len cseg) (seg_seqno n) then
          let len := u16 (seg_seqno n - seqno) in
          realloc_seg len (cseg <| seg_len := len |>) :: next
        else cseg :: next
    | [] => [cseg]
    end.

(** Cut a queued segment at [seqno] when it reaches over it. *)
Definition trim_prev (prev : tcp_seg) (seqno : Z) : tcp_seg :=
  if TCP_SEQ_GT (seg_seqno prev + seg_len prev) seqno then
    let len := u16 (seqno - seg_seqno prev) in
    realloc_seg len (prev <| seg_len := len |>)
  else prev.

(** The check for an overrun of the window behind the last queued segment.
    The two right edges are compared as u32_t, without regard to wrap-around. *)
Definition trim_overrun (p : tcp_pcb) (cseg : tcp_seg) (i : tcp_in) : res (tcp_seg * tcp_in) :=
  if u32 (rcv_nxt p + rcv_wnd p) <? u32 (in_tcplen i + in_seqno i) then
    let s := if has_flag (seg_hflags cseg) TCP_FIN
             then cseg <| seg_hflags := clear_flag (seg_hflags cseg) TCP_FIN |> else cseg in
    let len := u16 (rcv_nxt p + rcv_wnd p - in_seqno i) in
    let s := realloc_seg len (s <| seg_len := len |>) in
    let i := i <| in_tcplen := TCP_TCPLEN s |> in
    assert! u32 (in_seqno i + in_tcplen i) =? u32 (rcv_nxt p + rcv_wnd p) in
    Ok (s, i)
  else Ok (cseg, i).

(** The walk over the queue; [prev] is the segment before [l] and the result
    is the queue from [prev] on. *)
Fixpoint oos_walk (p : tcp_pcb) (prev : option tcp_seg) (l : list tcp_seg)
    (e : tcp_env) (i : tcp_in) : res (list tcp_seg * tcp_env * tcp_in) :=
  let pre := match prev with Some s => [s] | None => [] end in
  let seqno := in_seqno i in
  match l with
  | [] => Ok (pre, e, i)
  | next :: l' =>
      if seqno =? seg_seqno next then
        if seg_len next <? seg_len (inseg i) then
          let '(ok, e) := alloc e in
          Ok (if ok then pre ++ tcp_oos_insert_segment (inseg i) seqno l else pre ++ l, e, i)
        else Ok (pre ++ l, e, i)
      else
        let here :=
          match prev with
          | None => TCP_SEQ_LT seqno (seg_seqno next)
          | Some pv => TCP_SEQ_BETWEEN seqno (seg_seqno pv + 1) (seg_seqno next - 1)
          end in
        if here then
          let '(ok, e) := alloc e in
          let pre' := match prev with Some pv => [trim_prev pv seqno] | None => [] end in
          Ok (if ok then pre' ++ tcp_oos_insert_segment (inseg i) seqno l else pre ++ l, e, i)
        else if bool_decide (l' = []) && TCP_SEQ_GT seqno (seg_seqno next) then
          if has_flag (seg_hflags next) TCP_FIN then Ok (pre ++ l, e, i)
          else
            let '(ok, e) := alloc e in
            if ok then
              let next := trim_prev next seqno in
              let! (cseg, i) := trim_overrun p (inseg i) i in
              Ok (pre ++ [next; cseg], e, i)
            else Ok (pre ++ l, e, i)
        else
          let! (l'', e, i) := oos_walk p (Some next) l' e i in
          Ok (pre ++ l'', e, i)
  end.

(** The segment is out of sequence: an immediate ACK, and it is queued. *)
Definition recv_ooseq (p : tcp_pcb) (e : tcp_env) (i : tcp_in)
  : res (tcp_pcb * tcp_env * tcp_in) :=
  let '(_, p, e) := tcp_send_empty_ack p e in
  match ooseq p with
  | [] =>
      let '(ok, e) := alloc e in
      Ok (p <| ooseq := if ok then [inseg i] else [] |>, e, i)
  | l =>
      let! (l', e, i) := oos_walk p None l e i in
      Ok (p <| ooseq := l' |>, e, i)
  end.

(** A segment whose left edge has been trimmed, against the window. *)
Definition recv_in_window (p : tcp_pcb) (e : tcp_env) (i : tcp_in)
  : res (tcp_pcb * tcp_env * tcp_in) :=
  if TCP_SEQ_BETWEEN (in_seqno i) (rcv_nxt p) (rcv_nxt p + rcv_wnd p - 1) then
    if rcv_nxt p =? in_seqno i then
      let! (p, i) := recv_inorder p i in Ok (p, e, i)
    else recv_ooseq p e i
  else
    let '(_, p, e) := tcp_send_empty_ack p e in Ok (p, e, i).

(** The part of [tcp_receive] for the data of the segment. *)
Definition recv_text (p : tcp_pcb) (e : tcp_env) (i : tcp_in) : res (tcp_pcb * tcp_env * tcp_in) :=
  if (0 <? in_tcplen i) && (state_num (state p) <? 7) then
    let! (p, i) :=
      if TCP_SEQ_BETWEEN (rcv_nxt p) (in_seqno i + 1) (in_seqno i + in_tcplen i - 1) then
        let! i := trim_left p i in Ok (p, i)
      else if TCP_SEQ_LT (in_seqno i) (rcv_nxt p) then Ok (tcp_ack_now p, i)
      else Ok (p, i) in
    recv_in_window p e i
  else if negb (TCP_SEQ_BETWEEN (in_seqno i) (rcv_nxt p) (rcv_nxt p + rcv_wnd p - 1)) then
    Ok (tcp_ack_now p, e, i)
  else Ok (p, e, i).

Definition tcp_receive (p : tcp_pcb) (e : tcp_env) (i : tcp_in)
  : res (tcp_pcb * tcp_env * tcp_in) :=
  assert! 4 <=? state_num (state p) in
  let! p := if has_flag (in_flags i) TCP_ACK then recv_ack p e i else Ok p in
  recv_text p e i.
