(* ===== verification/TcpOpt.v ===== *)
(** * TCP options

    [tcp_parseopt] on any bytes: it ends, reads at most one byte behind the
    options, and leaves an MSS between 1 and TCP_MSS. On the encoding of a
    list of options it takes the last MSS option. *)
From S2P Require Import Prelude ByteOrder IpAddr Ip Tcp TcpOut TcpIn.

(** ** Options and their encoding *)
Inductive tcp_opt := ONop | OMss (v : Z) | OOther (kind : Z) (data : list Z).
Definition opt_ok (o : tcp_opt) : Prop :=
  match o with
  | ONop => True
  | OMss v => is_u16 v
  | OOther k data => 2 < k <= 255 /\ zlen data <= 253
  end.
Definition opt_bytes (o : tcp_opt) : list Z :=
  match o with
  | ONop => [1]
  | OMss v => [2; 4; v / 256; v mod 256]
  | OOther k data => k :: (2 + zlen data) :: data
  end.
(** What an option does to the MSS. *)
Definition opt_mss (m : Z) (o : tcp_opt) : Z :=
  match o with
  | OMss v => if (TCP_MSS <? v) || (v =? 0) then TCP_MSS else v
  | _ => m
  end.

(** The options fill the area up to [max_c] or are ended by a zero byte. *)
Definition opts_encode (os : list tcp_opt) (pad : list Z) : list Z := concat (map opt_bytes os) ++ pad.
Definition pad_ok (pad : list Z) : Prop := pad = [] \/ head pad = Some 0.

(** ** Any bytes *)
Lemma parseopt_safe opts max_c : max_c + 1 <= zlen opts -> 0 <= max_c <= 40 -> bytes_ok opts ->
  forall fuel c m, 0 <= c -> max_c - c <= Z.of_nat fuel ->
  exists m', parseopt_loop fuel opts max_c c m = Ok m' /\ (m' = m \/ 1 <= m' <= TCP_MSS).
Proof.
  intros Hlen Hmax Hb. assert (forall j, 0 <= j < zlen opts -> exists x, opts !! Z.to_nat j = Some x /\ is_u8 x) as Hread.
  { intros j Hj. destruct (lookup_lt_is_Some_2 opts (Z.to_nat j)) as [x Hx]; [unfold zlen in *; lia|].
    exists x. split; [done|]. by eapply Forall_lookup_1. }
  induction fuel as [|fuel IH]; intros c m Hc Hf; cbn [parseopt_loop].
  { destruct (Z.ltb_spec c max_c); [lia|]. exists m. split; [done|by left]. }
  destruct (Z.ltb_spec c max_c); [|exists m; split; [done|by left]]. cbv zeta.
  destruct (Hread c) as (x & -> & Hx); [lia|]. cbn [of_option res_bind].
  destruct (x =? 0); [exists m; split; [done|by left]|].
  destruct (x =? 1); [rewrite u16_id by lia; apply IH; lia|].
  destruct (Hread (c + 1)) as (l & Hl & Hlb); [lia|].
  destruct (x =? 2).
  - rewrite Hl. cbn [of_option res_bind]. destruct (negb (l =? 4) || (max_c <? c + 4)) eqn:E; [exists m; split; [done|by left]|].
    apply orb_false_iff in E as [_ E%Z.ltb_ge].
    destruct (Hread (c + 2)) as (hi & -> & Hhi); [lia|]. destruct (Hread (c + 3)) as (lo & -> & Hlo); [lia|].
    cbn [of_option res_bind]. rewrite u16_id by lia. set (v := Z.lor _ lo).
    assert (0 <= v) by (unfold v; rewrite Z.lor_nonneg, Z.shiftl_nonneg; unfold is_u8 in *; lia).
    set (m1 := if (TCP_MSS <? v) || (v =? 0) then TCP_MSS else v).
    assert (1 <= m1 <= TCP_MSS) as Hm1.
    { unfold m1, TCP_MSS. destruct (Z.ltb_spec 1024 v), (Z.eqb_spec v 0); cbn; lia. }
    destruct (IH (c + 4) m1) as (m' & -> & Hm'); [lia|lia|]. exists m'. split; [done|]. right. destruct Hm' as [->|?]; lia.
  - rewrite Hl. cbn [of_option res_bind]. destruct (Z.eqb_spec l 0); [exists m; split; [done|by left]|].
    unfold is_u8 in *. rewrite u16_id by lia. apply IH; lia.
Qed.

(** ** Encoded options *)
Lemma lookup_at (pre post : list Z) j x : post !! Z.to_nat j = Some x -> 0 <= j ->
  (pre ++ post) !! Z.to_nat (zlen pre + j) = Some x.
Proof.
  intros H Hj. rewrite Z2Nat.inj_add by (try done; apply zlen_nonneg). unfold zlen. rewrite Nat2Z.id.
  by rewrite lookup_app_r, Nat.add_comm, Nat.add_sub by lia.
Qed.

Lemma opt_bytes_len o : opt_ok o -> 1 <= zlen (opt_bytes o) <= 255.
Proof.
  destruct o as [|v|k d]; cbn [opt_bytes opt_ok]; intros H; [done|done|].
  rewrite !zlen_cons. pose proof (zlen_nonneg d). lia.
Qed.

Lemma parseopt_encoded os : forall pre rest pad m fuel max_c,
  Forall opt_ok os -> pad_ok pad -> max_c = zlen pre + zlen (opts_encode os pad) -> max_c <= 40 ->
  zlen (opts_encode os pad) <= Z.of_nat fuel ->
  parseopt_loop fuel (pre ++ opts_encode os pad ++ rest) max_c (zlen pre) m = Ok (foldl opt_mss m os).
Proof.
  induction os as [|o os IH]; intros pre rest pad m fuel max_c Hos Hpad Hmax H40 Hfuel.
  - unfold opts_encode in *. cbn [map concat app] in *. cbn [foldl].
    destruct Hpad as [->|Hpad].
    + change (zlen []) with 0 in *. assert (max_c = zlen pre) as -> by lia.
      destruct fuel; cbn [parseopt_loop]; by rewrite Z.ltb_irrefl.
    + destruct pad as [|z pad]; [done|]. injection Hpad as ->. rewrite zlen_cons in *. pose proof (zlen_nonneg pad).
      destruct fuel as [|fuel]; [lia|]. cbn [parseopt_loop]. destruct (Z.ltb_spec (zlen pre) max_c); [|lia]. cbv zeta.
      rewrite <- (Z.add_0_r (zlen pre)), (lookup_at pre _ 0 0) by done. done.
  - apply Forall_cons in Hos as [Ho Hos]. pose proof (opt_bytes_len o Ho) as Hol.
    unfold opts_encode in *. cbn [map concat] in *.
    rewrite <- (app_assoc (opt_bytes o)) in Hmax, Hfuel |- *.
    set (tl := concat (map opt_bytes os) ++ pad) in *. rewrite zlen_app in Hmax, Hfuel.
    pose proof (zlen_nonneg tl). pose proof (zlen_nonneg pre). rewrite <- (app_assoc (opt_bytes o)).
    assert (forall m1 f1, zlen tl <= Z.of_nat f1 ->
      parseopt_loop f1 (pre ++ opt_bytes o ++ tl ++ rest) max_c (zlen pre + zlen (opt_bytes o)) m1 =
        Ok (foldl opt_mss m1 os)) as Hnext.
    { intros m1 f1 Hf1. rewrite app_assoc, <- zlen_app. apply IH; try done. rewrite zlen_app. fold tl. lia. }
    destruct fuel as [|fuel]; [lia|]. cbn [parseopt_loop foldl]. destruct (Z.ltb_spec (zlen pre) max_c); [|lia]. cbv zeta.
    assert (forall j x, opt_bytes o !! Z.to_nat j = Some x -> 0 <= j ->
      (pre ++ opt_bytes o ++ tl ++ rest) !! Z.to_nat (zlen pre + j) = Some x) as Hrd.
    { intros j x Hx Hj. apply lookup_at; [|done]. by apply lookup_app_l_Some. }
    destruct o as [|v|k d]; cbn [opt_bytes opt_ok opt_mss] in *.
    + rewrite <- (Z.add_0_r (zlen pre)) at 1. rewrite (Hrd 0 1) by done. cbn [of_option res_bind Z.eqb Pos.eqb].
      rewrite u16_id by (change (zlen [1]) with 1 in *; lia). apply Hnext. change (zlen [1]) with 1 in *. lia.
    + change (zlen [2; 4; v / 256; v mod 256]) with 4 in *.
      rewrite <- (Z.add_0_r (zlen pre)) at 1. rewrite (Hrd 0 2) by done. cbn [of_option res_bind Z.eqb Pos.eqb].
      rewrite (Hrd 1 4), (Hrd 2 (v / 256)), (Hrd 3 (v mod 256)) by done. cbn [of_option res_bind].
      destruct (Z.ltb_spec max_c (zlen pre + 4)); [lia|]. cbn [negb orb Z.eqb Pos.eqb].
      assert (Z.lor (Z.shiftl (v / 256) 8) (v mod 256) = v) as ->.
      { rewrite shl8, (lor_add 8) by mlia. mlia. }
      rewrite u16_id by lia. apply Hnext. lia.
    + destruct Ho as [Hk Hd]. pose proof (zlen_nonneg d). rewrite !zlen_cons in *.
      rewrite <- (Z.add_0_r (zlen pre)) at 1. rewrite (Hrd 0 k) by done. cbn [of_option res_bind].
      destruct (Z.eqb_spec k 0), (Z.eqb_spec k 1), (Z.eqb_spec k 2); try lia.
      rewrite (Hrd 1 (2 + zlen d)) by done. cbn [of_option res_bind].
      destruct (Z.eqb_spec (2 + zlen d) 0); [lia|]. rewrite u16_id by lia.
      replace (zlen pre + (2 + zlen d)) with (zlen pre + (1 + (1 + zlen d))) by lia. apply Hnext. lia.
Qed.

(** C38. [tcp_parseopt] ends on any bytes of options, provided one byte behind
    them can be read (the length of an option whose kind is the last byte is
    read there), and the MSS is unchanged or between 1 and TCP_MSS. When the
    bytes are the encoding of a list of options, padded behind a zero byte,
    nothing behind them is needed and the MSS is that of the last MSS option,
    TCP_MSS for one that is zero or too large. *)
Theorem tcp_parseopt_correct (p : tcp_pcb) (i : tcp_in) (os : list tcp_opt) (pad rest : list Z) :
  5 <= in_hdrlen i <= 15 -> bytes_ok (in_opts i) ->
  (4 * (in_hdrlen i - 5) + 1 <= zlen (in_opts i) ->
   exists m, tcp_parseopt p i = Ok (p <| mss := m |>) /\ (m = mss p \/ 1 <= m <= TCP_MSS)) /\
  (in_opts i = opts_encode os pad ++ rest -> Forall opt_ok os -> pad_ok pad ->
   zlen (opts_encode os pad) = 4 * (in_hdrlen i - 5) ->
   tcp_parseopt p i = Ok (p <| mss := foldl opt_mss (mss p) os |>)).
Proof.
  intros Hh Hb. assert (p = p <| mss := mss p |>) as Hp by (by destruct p).
  unfold tcp_parseopt. rewrite Z.shiftl_mul_pow2 by lia. change (2 ^ 2) with 4.
  split.
  - intros Hlen. destruct (Z.ltb_spec 5 (in_hdrlen i)); [|exists (mss p); split; [by rewrite <- Hp|by left]].
    destruct (parseopt_safe (in_opts i) ((in_hdrlen i - 5) * 4)) with (fuel := Z.to_nat ((in_hdrlen i - 5) * 4))
      (c := 0) (m := mss p) as (m' & -> & Hm'); try done; try lia. by exists m'.
  - intros -> Hos Hpad Hlen. destruct (Z.ltb_spec 5 (in_hdrlen i)).
    + pose proof (parseopt_encoded os [] rest pad (mss p) (Z.to_nat ((in_hdrlen i - 5) * 4)) ((in_hdrlen i - 5) * 4)) as H1.
      change (zlen []) with 0 in H1. cbn [app] in H1. rewrite H1; [done|done|done|lia|lia|lia].
    + assert (os = []) as ->; [|cbn [foldl]; by rewrite <- Hp].
      destruct os as [|o os]; [done|]. exfalso. apply Forall_cons in Hos as [Ho _]. pose proof (opt_bytes_len o Ho).
      unfold opts_encode in Hlen. cbn [map concat] in Hlen. rewrite !zlen_app in Hlen.
      pose proof (zlen_nonneg (concat (map opt_bytes os))). pose proof (zlen_nonneg pad). lia.
Qed.

Definition demo_syn : tcp_in :=
  mk_in 1 2 80 4000 4096 7 [1; 2; 4; 3; 232; 0; 9; 9] TCP_SYN 100 0 1 (mk_seg 100 TCP_SYN 0 0 [] 1) true None 0.
Lemma tcp_parseopt_correct_witness : tcp_parseopt zero_pcb demo_syn = Ok (zero_pcb <| mss := 1000 |>).
Proof.
  apply (tcp_parseopt_correct zero_pcb demo_syn [ONop; OMss 1000] [0; 9; 9] []).
  - split; vm_compute; discriminate.
  - repeat (constructor; [split; vm_compute; [discriminate|reflexivity]|]). constructor.
  - reflexivity.
  - constructor; [exact I|]. constructor; [split; vm_compute; [discriminate|reflexivity]|constructor].
  - by right.
  - reflexivity.
Defined.

(** The length byte of an option whose kind is the last byte of the header is
    read behind the options; when nothing is there the read is out of bounds. *)
Example parseopt_overread :
  tcp_parseopt zero_pcb (mk_in 1 2 80 4000 4096 6 [1; 1; 1; 8] TCP_SYN 100 0 1 (mk_seg 100 TCP_SYN 0 0 [] 1) true None 0)
  = Err BadAccess.
Proof. reflexivity. Qed.
