(* ===== verification/TcpStream.v ===== *)
(** * TCP input delivers the stream

    The peer sends the bytes [bs] followed by a FIN; byte [k] has the sequence
    number [base + k] modulo 2^32. Whatever cut into segments, order, overlap
    and repetition the network makes of them, what [tcp_receive] hands to the
    application is the next bytes of [bs], once and in order. *)
From S2P Require Import Prelude ByteOrder IpAddr Ip Tcp TcpOut TcpIn.

Section Stream.
Context (bs : list Z) (base : Z).
Implicit Types s : tcp_seg.

(** A segment that carries the bytes from position [k] on. *)
Definition seg_at (k : Z) (s : tcp_seg) : Prop :=
  0 <= k /\ seg_seqno s = u32 (base + k) /\ 0 <= seg_len s <= 65535 /\ k + seg_len s <= zlen bs /\
  seg_data s = slice k (seg_len s) bs /\ has_flag (seg_hflags s) TCP_SYN = false /\
  (has_flag (seg_hflags s) TCP_FIN = true -> k + seg_len s = zlen bs) /\ 0 < TCP_TCPLEN s.

Definition is_fin (s : tcp_seg) : bool := has_flag (seg_hflags s) TCP_FIN.

(** The out-of-sequence queue: segments of the stream in order, without
    overlap, from position [lo] up to [hi]; a FIN is the last. *)
Fixpoint oos_ok (lo hi : Z) (l : list tcp_seg) : Prop :=
  match l with
  | [] => True
  | s :: l' => exists k, lo <= k /\ seg_at k s /\ k + TCP_TCPLEN s <= hi /\
      (is_fin s = true -> l' = []) /\ oos_ok (k + seg_len s) hi l'
  end.

(** The receive variables after [n] bytes (the FIN counts as one), with a
    window up to [hi]. *)
Record rcv_at (n hi E : Z) (p : tcp_pcb) : Prop := {
  at_nxt : rcv_nxt p = u32 (base + n);
  at_wnd : rcv_wnd p = hi - n;
  at_hi : n <= hi <= n + TCP_WND;
  at_ann : 0 <= rcv_ann_wnd p <= hi - n;
  at_edge : rcv_ann_right_edge p = u32 (base + E);
  at_E : hi - 65535 <= E <= hi;
  at_mss : 0 <= mss p <= 65535
}.

Definition rcv_ok (n hi E : Z) (p : tcp_pcb) : Prop :=
  rcv_at n hi E p /\ 0 <= n <= zlen bs /\ oos_ok (n + 1) hi (ooseq p).

(** What the input has collected for the application: the bytes from [n] on
    up to [n'], and the FIN when it has been reached. *)
Definition collected (n n' : Z) (i : tcp_in) : Prop :=
  recv_data i = (if decide (n < Z.min n' (zlen bs))
                 then Some (slice n (Z.min n' (zlen bs) - n) bs) else None) /\
  has_flag (recv_flags i) TF_GOT_FIN = bool_decide (n' = zlen bs + 1).

(** ** Segments *)
Lemma tcplen_eq s : has_flag (seg_hflags s) TCP_SYN = false ->
  TCP_TCPLEN s = seg_len s + if is_fin s then 1 else 0.
Proof. intros H. unfold TCP_TCPLEN, is_fin. by rewrite has_flag_lor, H, orb_false_r. Qed.

Lemma seg_at_tcplen k s : seg_at k s -> TCP_TCPLEN s = seg_len s + if is_fin s then 1 else 0.
Proof. intros (_&_&_&_&_&H&_). by apply tcplen_eq. Qed.

(** Close arithmetic goals about segments. *)
Ltac seg_lia :=
  repeat match goal with
  | H : seg_at ?k ?s |- _ =>
      let Ht := fresh "Ht" in
      pose proof (seg_at_tcplen k s H) as Ht;
      let H0 := fresh "Hk" in let H1 := fresh "Hs" in let H2 := fresh "Hl" in
      let H3 := fresh "He" in let H4 := fresh "Hd" in let H5 := fresh "Hsyn" in
      let H6 := fresh "Hfin" in let H7 := fresh "Hp" in
      destruct H as (H0 & H1 & H2 & H3 & H4 & H5 & H6 & H7);
      fold (is_fin s) in H6; try specialize (H6 ltac:(assumption))
  end; repeat match goal with
  | H : is_fin ?s = ?b, H' : context [is_fin ?s] |- _ =>
      match H with H' => fail 1 | _ => rewrite H in H' end end;
  repeat match goal with H : context [if is_fin ?s then _ else _] |- _ =>
    destruct (is_fin s) eqn:? end; lia.

(** A prefix of a segment that is not a FIN. *)
Lemma seg_at_take k s m : seg_at k s -> 0 < m <= seg_len s -> is_fin s = false ->
  seg_at k (realloc_seg m (s <| seg_len := m |>)).
Proof.
  intros (H0 & H1 & H2 & H3 & H4 & H5 & H6 & H7) Hm Hf.
  unfold seg_at, realloc_seg, is_fin in *. simpl. rewrite H4, take_slice by lia.
  split_and!; try done; try lia; [congruence|].
  rewrite tcplen_eq by done. simpl. unfold is_fin. simpl. rewrite Hf. lia.
Qed.
Lemma seg_at_fin k s : seg_at k s -> k + seg_len s = zlen bs -> seg_at k (set_hflag TCP_FIN s).
Proof.
  intros (H0 & H1 & H2 & H3 & H4 & H5 & H6 & H7) Hl.
  unfold seg_at, set_hflag. simpl. rewrite has_flag_lor_l, H5. split_and!; try done; try lia.
  unfold TCP_TCPLEN. simpl. rewrite has_flag_lor_l. change (has_flag TCP_FIN (Z.lor TCP_FIN TCP_SYN)) with true.
  rewrite orb_true_r. lia.
Qed.
Lemma is_fin_set s : is_fin (set_hflag TCP_FIN s) = true.
Proof. unfold is_fin, set_hflag. simpl. rewrite has_flag_lor_l. apply orb_true_r. Qed.

Lemma oos_ok_weaken lo lo' hi l : oos_ok lo hi l -> lo' <= lo -> oos_ok lo' hi l.
Proof. destruct l as [|s l]; [done|]. intros (k & H & Hr) ?. exists k. split; [lia|done]. Qed.

(** ** Dropping what a segment covers *)
Lemma oos_cover_spec cseg a hi l lo :
  seg_at a cseg -> is_fin cseg = false -> oos_ok lo hi l -> a <= lo -> hi <= a + 65535 ->
  a + TCP_TCPLEN cseg <= hi ->
  exists c' l', oos_cover cseg (u32 (base + a)) l = (c', l') /\
    seg_at a c' /\ seg_len c' = seg_len cseg /\ a + TCP_TCPLEN c' <= hi /\
    (is_fin c' = true -> l' = []) /\
    match l' with
    | [] => True
    | n :: l'' => exists k, lo <= k /\ a + seg_len cseg < k + seg_len n /\ seg_at k n /\
        k + TCP_TCPLEN n <= hi /\ (is_fin n = true -> l'' = []) /\ oos_ok (k + seg_len n) hi l''
    end.
Proof.
  revert cseg lo. induction l as [|x l IH]; intros cseg lo Hc Hf Hl Ha Hhi Ht; simpl.
  - exists cseg, []. split_and!; try done.
  - destruct Hl as (k & Hk & Hx & Hkt & Hxf & Hl).
    rewrite (TCP_SEQ_GEQ_pos _ _ (base + (a + seg_len cseg)) (base + (k + seg_len x))).
    2: eq32_solve.
    2: { destruct Hx as (_ & -> & _). eq32_solve. }
    2: seg_lia.
    destruct (Z.leb_spec (base + (k + seg_len x)) (base + (a + seg_len cseg))) as [Hle|Hgt].
    + fold (is_fin x). destruct (is_fin x) eqn:Ef.
      * rewrite Hxf by done. simpl.
        assert (a + seg_len cseg = zlen bs) as Hend by seg_lia.
        exists (set_hflag TCP_FIN cseg), []. split_and!; try done.
        -- by apply seg_at_fin.
        -- rewrite (seg_at_tcplen a) by (by apply seg_at_fin). rewrite is_fin_set.
           simpl. seg_lia.
      * destruct (IH cseg (k + seg_len x)) as (c' & l' & H1 & H2 & H3 & H4 & H5 & H6); try done; try seg_lia.
        exists c', l'. split_and!; try done.
        destruct l' as [|y l']; [done|]. destruct H6 as (k' & H6). exists k'.
        destruct H6 as (? & H6). split; [seg_lia|done].
    + exists cseg, (x :: l). split_and!; try done; [congruence|]. exists k. split_and!; try done. lia.
Qed.

(** The same walk for a segment in sequence. *)
Lemma drop_covered_spec i n hi l lo :
  in_seqno i = u32 (base + n) -> in_tcplen i = TCP_TCPLEN (inseg i) ->
  seg_at n (inseg i) -> is_fin (inseg i) = false -> oos_ok lo hi l -> n < lo -> hi <= n + 65535 ->
  exists fl l', drop_covered l i =
      (l', i <| inseg := (inseg i) <| seg_hflags := fl |> |>
             <| in_tcplen := TCP_TCPLEN ((inseg i) <| seg_hflags := fl |>) |>) /\
    seg_at n ((inseg i) <| seg_hflags := fl |>) /\
    (has_flag fl TCP_FIN = true -> l' = [] /\ n + seg_len (inseg i) + 1 <= hi) /\
    match l' with
    | [] => True
    | x :: l'' => exists k, lo <= k /\ n + seg_len (inseg i) < k + seg_len x /\ seg_at k x /\
        k + TCP_TCPLEN x <= hi /\ (is_fin x = true -> l'' = []) /\ oos_ok (k + seg_len x) hi l''
    end.
Proof.
  intros Hseq Htl Hs Hf Hl Hlo Hhi. revert lo Hl Hlo. induction l as [|x l IH]; intros lo Hl Hlo.
  - exists (seg_hflags (inseg i)), []. simpl. unfold is_fin in Hf. rewrite Hf.
    destruct i as [? ? ? ? ? ? ? ? ? ? ? [] ? ? ?]. simpl in *. subst. by split_and!.
  - destruct Hl as (k & Hk & Hx & Hkt & Hxf & Hl). simpl.
    assert (in_tcplen i = seg_len (inseg i)) as Htl' by (rewrite Htl; seg_lia).
    rewrite (TCP_SEQ_GEQ_pos _ _ (base + (n + seg_len (inseg i))) (base + (k + seg_len x))).
    2: { rewrite Hseq, Htl'. eq32_solve. }
    2: { destruct Hx as (_ & -> & _). eq32_solve. }
    2: seg_lia.
    destruct (Z.leb_spec (base + (k + seg_len x)) (base + (n + seg_len (inseg i)))) as [Hle|Hgt].
    + fold (is_fin x). destruct (is_fin x) eqn:Ef; simpl.
      * assert (has_flag (seg_hflags (inseg i)) TCP_SYN = false) as -> by apply Hs. simpl.
        rewrite Hxf by done. simpl.
        assert (n + seg_len (inseg i) = zlen bs) as Hend by seg_lia.
        exists (Z.lor (seg_hflags (inseg i)) TCP_FIN), []. split_and!; try done.
        -- by apply seg_at_fin.
        -- split; [done|]. seg_lia.
      * destruct (IH (k + seg_len x)) as (fl & l' & H1 & H2 & H3 & H4); try done; try seg_lia.
        exists fl, l'. split_and!; try done.
        destruct l' as [|y l']; [done|]. destruct H4 as (k' & H4). exists k'.
        destruct H4 as (? & H4). split; [seg_lia|done].
    + exists (seg_hflags (inseg i)), (x :: l). unfold is_fin in Hf.
      destruct i as [? ? ? ? ? ? ? ? ? ? ? [] ? ? ?]. simpl in *. subst.
      split_and!; try done; [congruence|]. exists k. split_and!; try done. lia.
Qed.

(** ** In-sequence data *)
Lemma in_inseg_id i t : i <| in_tcplen := t |> = i <| inseg := inseg i |> <| in_tcplen := t |>.
Proof. by destruct i. Qed.

Lemma trim_right_spec p i n hi E :
  rcv_at n hi E p -> n < hi -> in_seqno i = u32 (base + n) -> seg_at n (inseg i) ->
  exists s, trim_right p i = Ok (i <| inseg := s |> <| in_tcplen := TCP_TCPLEN s |>) /\
    seg_at n s /\ n + TCP_TCPLEN s = Z.min (n + TCP_TCPLEN (inseg i)) hi.
Proof.
  intros Hp Hw Hseq Hs. destruct Hp as [Hn HW Hhi Ha HE HE' Hm]. unfold TCP_WND, TCP_MSS in *.
  unfold trim_right. change (in_tcplen (?i <| in_tcplen := ?t |>)) with t.
  change (inseg (i <| in_tcplen := ?t |>)) with (inseg i). rewrite HW.
  destruct (Z.ltb_spec (hi - n) (TCP_TCPLEN (inseg i))) as [Hlt|Hge].
  - set (s1 := if has_flag (seg_hflags (inseg i)) TCP_FIN then _ else _).
    assert (seg_at n (inseg i) /\ has_flag (seg_hflags s1) TCP_SYN = false /\ is_fin s1 = false /\
            seg_seqno s1 = seg_seqno (inseg i) /\ seg_data s1 = seg_data (inseg i)) as (_ & H1 & H2 & H3 & H4).
    { split; [done|]. unfold s1, is_fin. destruct Hs as (_&_&_&_&_&Hsyn&_).
      destruct (has_flag (seg_hflags (inseg i)) TCP_FIN) eqn:Ef; simpl; rewrite ?Ef, ?Hsyn; [|done].
      unfold clear_flag. rewrite !has_flag_land. change (Z.land (255 - TCP_FIN) TCP_SYN) with TCP_SYN. change (Z.land (255 - TCP_FIN) TCP_FIN) with 0.
      split_and!; try done. unfold has_flag. by rewrite Z.land_0_r. }
    clearbody s1. set (s2 := s1 <| seg_len := hi - n |>).
    assert (has_flag (seg_hflags s2) TCP_SYN = false) as -> by exact H1.
    set (s := realloc_seg (seg_len s2) s2).
    assert (seg_at n s) as Has.
    { unfold seg_at, s, s2, realloc_seg. simpl. rewrite H3, H4.
      assert (hi - n <= seg_len (inseg i)).
      { assert (Ht := seg_at_tcplen _ _ Hs). destruct (is_fin (inseg i)); lia. }
      destruct Hs as (Q0 & Q1 & Q2 & Q3 & Q4 & Q5 & Q6 & Q7). rewrite Q4, take_slice by lia.
      unfold is_fin in H2. split_and!; try done; try lia; [congruence|].
      rewrite tcplen_eq by done. simpl. unfold is_fin. simpl. rewrite H2. lia. }
    assert (TCP_TCPLEN s = hi - n) as Hts.
    { rewrite (seg_at_tcplen n) by done. unfold is_fin in *. unfold s, s2, realloc_seg. simpl. rewrite H2. lia. }
    exists s. simpl (in_seqno _). simpl (in_tcplen _). rewrite Hseq, Hn, Hts, Z.eqb_refl.
    split_and!; [done|done|lia].
  - exists (inseg i). split_and!; [f_equal; by destruct i|done|lia].
Qed.

Lemma adjust_ooseq_spec p i n hi E :
  rcv_at n hi E p -> oos_ok (n + 1) hi (ooseq p) ->
  in_seqno i = u32 (base + n) -> in_tcplen i = TCP_TCPLEN (inseg i) -> seg_at n (inseg i) ->
  n + TCP_TCPLEN (inseg i) <= hi ->
  exists s l, adjust_ooseq p i =
      Ok (p <| ooseq := l |>, i <| inseg := s |> <| in_tcplen := TCP_TCPLEN s |>) /\
    seg_at n s /\ n + TCP_TCPLEN s <= hi /\ oos_ok (n + TCP_TCPLEN s) hi l /\
    (l = [] -> TCP_TCPLEN (inseg i) <= TCP_TCPLEN s) /\
    (forall x l', l = x :: l' -> exists k, seg_at k x /\ n + TCP_TCPLEN s <= k /\
       Z.min (n + TCP_TCPLEN (inseg i)) k <= n + TCP_TCPLEN s /\
       n + TCP_TCPLEN (inseg i) <= k + TCP_TCPLEN x) /\
    (is_fin s = true -> l = []).
Proof.
  intros Hp Hl Hseq Htl Hs Hhi. destruct Hp as [Hn HW Hhi' Ha HE HE' Hm]. unfold TCP_WND, TCP_MSS in *.
  assert (forall p' : tcp_pcb, p' = p' <| ooseq := ooseq p' |>) as Hid by (by intros []).
  unfold adjust_ooseq. destruct (ooseq p) as [|x l] eqn:El.
  { exists (inseg i), []. split_and!; try done; try lia. rewrite <- El, <- Hid, <- Htl. do 2 f_equal. by destruct i. }
  rewrite <- El in *. fold (is_fin (inseg i)). destruct (is_fin (inseg i)) eqn:Ef.
  { exists (inseg i), []. split_and!; try done; try lia. rewrite <- Htl. do 2 f_equal. by destruct i. }
  destruct (drop_covered_spec i n hi (ooseq p) (n + 1)) as (fl & l' & H1 & H2 & H3 & H4); try done; try lia.
  rewrite H1. clear H1. set (s := (inseg i) <| seg_hflags := fl |>) in *.
  destruct l' as [|y l'].
  { exists s, []. simpl. split_and!; try done.
    - rewrite (seg_at_tcplen n s) by done. destruct (is_fin s) eqn:Efs; [destruct (H3 Efs) as [_ H3']|];
      rewrite (seg_at_tcplen n) in Hhi by done; rewrite ?Ef in *; unfold s; simpl; lia.
    - intros _. rewrite !(seg_at_tcplen n), Ef by done. change (seg_len s) with (seg_len (inseg i)).
      destruct (is_fin s); lia. }
  destruct H4 as (k & Hk & Hkl & Hy & Hyt & Hyf & Hl').
  assert (is_fin s = false) as Efs.
  { destruct (is_fin s) eqn:E2; [|done]. by destruct (H3 E2). }
  set (i2 := i <| inseg := s |> <| in_tcplen := TCP_TCPLEN s |>).
  change (in_seqno i2) with (in_seqno i). change (in_tcplen i2) with (TCP_TCPLEN s).
  change (inseg i2) with s.
  assert (TCP_TCPLEN s = seg_len (inseg i)) as Hts by (rewrite (seg_at_tcplen n), Efs by done; unfold s; simpl; lia).
  assert (TCP_TCPLEN (inseg i) = seg_len (inseg i)) as Hts' by (rewrite (seg_at_tcplen n), Ef by done; lia).
  assert (seg_seqno y = u32 (base + k)) as Hys by apply Hy.
  rewrite (TCP_SEQ_GT_pos _ _ (base + (n + seg_len (inseg i))) (base + k)).
  2: { rewrite Hseq, Hts. eq32_solve. }
  2: { rewrite Hys. eq32_solve. }
  2: seg_lia.
  destruct (Z.ltb_spec (base + k) (base + (n + seg_len (inseg i)))) as [Hlt|Hge].
  - assert (u16 (seg_seqno y - in_seqno i) = k - n) as -> by (rewrite Hys, Hseq; seg_lia || mlia).
    assert (has_flag (seg_hflags (s <| seg_len := k - n |>)) TCP_SYN = false) as -> by apply H2.
    set (s3 := realloc_seg _ _).
    assert (seg_at n s3) as Hs3 by (apply (seg_at_take n s (k - n)); try done; unfold s; simpl; lia).
    assert (TCP_TCPLEN s3 = k - n) as Ht3.
    { rewrite (seg_at_tcplen n) by done. unfold is_fin in *. unfold s3, realloc_seg. simpl. simpl in Efs. rewrite Efs. lia. }
    exists s3, (y :: l'). rewrite Ht3.
    match goal with |- context [in_seqno ?j + in_tcplen ?j] =>
      change (in_seqno j) with (in_seqno i); change (in_tcplen j) with (k - n) end.
    rewrite Hseq, Hys.
    assert (u32 (u32 (base + n) + (k - n)) = u32 (base + k)) as -> by mlia.
    rewrite Z.eqb_refl. simpl. split_and!; try done; try seg_lia.
    + exists k. split_and!; try done. lia.
    + intros x' l2 [= <- <-]. exists k. split_and!; try done; try lia. seg_lia.
  - exists s, (y :: l'). split_and!; try done; rewrite ?Hts; try seg_lia.
    + exists k. split_and!; try done. seg_lia.
    + intros x' l2 [= <- <-]. exists k. split_and!; try done; try lia. seg_lia.
    + congruence.
Qed.

(** What receiving leaves alone: everything but the receive variables, the
    out-of-sequence queue, the state and the flags. *)
Definition snd_side (p : tcp_pcb) : tcp_pcb :=
  p <| rcv_nxt := 0 |> <| rcv_wnd := 0 |> <| rcv_ann_wnd := 0 |> <| rcv_ann_right_edge := 0 |>
    <| ooseq := [] |> <| state := CLOSED |> <| flags := 0 |>.

Lemma advance p n hi E t : rcv_at n hi E p -> 0 <= t <= hi - n ->
  let p1 := p <| rcv_nxt := u32 (base + (n + t)) |> <| rcv_wnd := hi - (n + t) |> in
  exists d w, tcp_update_rcv_ann_wnd p1 = Ok (d, p1 <| rcv_ann_wnd := w |>) /\
    rcv_at (n + t) hi E (p1 <| rcv_ann_wnd := w |>).
Proof.
  intros [Hn HW Hhi Ha HE HE' Hm] Ht p1. unfold TCP_WND, TCP_MSS in *.
  destruct (rcv_ann_wnd_spec p1 (base + (n + t)) (base + E)) as (d & w & H1 & H2 & _);
    try done; unfold TCP_WND, TCP_MSS; unfold p1; simpl; try lia.
  exists d, w. split; [done|]. simpl in H2. split; simpl; try done; unfold TCP_WND, TCP_MSS; lia.
Qed.

(** Appending the next bytes to what has been collected. *)
Lemma collected_deliver n n1 len (fin : bool) i (i' := (if 0 <? len then deliver (slice n1 len bs) i else i)) :
  collected n n1 i -> 0 <= n <= n1 -> 0 <= len -> n1 + len <= zlen bs ->
  (fin = true -> n1 + len = zlen bs) ->
  collected n (n1 + len + if fin then 1 else 0) (if fin then got_fin i' else i').
Proof.
  intros [Hd Hf] Hn Hlen Hbs Hfin. rewrite Z.min_l in Hd by lia. split.
  - assert (recv_data (if fin then got_fin i' else i') = recv_data i') as -> by (by destruct fin).
    assert (Z.min (n1 + len + (if fin then 1 else 0)) (zlen bs) = n1 + len) as ->
      by (destruct fin; [rewrite Hfin by done|]; lia).
    unfold i'. destruct (Z.ltb_spec 0 len).
    + rewrite decide_True by lia. simpl. rewrite Hd. destruct (decide (n < n1)).
      * f_equal. assert (slice n1 len bs = slice (n + (n1 - n)) len bs) as -> by (f_equal; lia).
        rewrite slice_app by lia. f_equal. lia.
      * assert (n = n1) as -> by lia. do 2 f_equal. lia.
    + assert (len = 0) as -> by lia. rewrite Hd. by rewrite Z.add_0_r.
  - assert (has_flag (recv_flags i') TF_GOT_FIN = false) as Hi'.
    { unfold i'. destruct (0 <? len); simpl; rewrite Hf; apply bool_decide_eq_false; lia. }
    destruct fin; simpl.
    + rewrite has_flag_lor_l, orb_true_r. symmetry. apply bool_decide_eq_true. lia.
    + rewrite Hi'. symmetry. apply bool_decide_eq_false. lia.
Qed.

(** The fields of the input that receiving leaves alone. *)
Definition in_same (i i' : tcp_in) : Prop :=
  in_src_ip i' = in_src_ip i /\ in_dst_ip i' = in_dst_ip i /\ in_src i' = in_src i /\
  in_dest i' = in_dest i /\ in_flags i' = in_flags i /\ in_ackno i' = in_ackno i.

Lemma dequeue_ooseq_spec n hi E l : forall p i n1,
  rcv_at n1 hi E p -> oos_ok n1 hi l -> ooseq p = l -> 0 <= n <= n1 -> collected n n1 i ->
  (n1 <= zlen bs \/ l = []) ->
  exists p' i' n2, dequeue_ooseq l p i = Ok (p', i') /\ n1 <= n2 /\ rcv_at n2 hi E p' /\
    collected n n2 i' /\ in_same i i' /\ snd_side p' = snd_side p /\ flags p' = flags p /\
    (n2 <= zlen bs -> oos_ok (n2 + 1) hi (ooseq p') /\ state p' = state p) /\
    (n2 <= zlen bs \/ n2 = zlen bs + 1 \/ n2 = n1) /\
    (forall x l', l = x :: l' -> seg_at n1 x -> n1 + TCP_TCPLEN x <= n2) /\
    (state p' = state p \/ state p = ESTABLISHED /\ state p' = CLOSE_WAIT).
Proof.
  induction l as [|c l IH]; intros p i n1 Hp Hl Hq Hn Hc Hn1.
  { exists p, i, n1. simpl. rewrite Hq. unfold in_same. split_and!; try done; auto; lia. }
  destruct Hn1 as [Hn1|?]; [|done].
  destruct Hl as (k & Hk & Hcs & Hkt & Hcf & Hl).
  assert (Hkn := Hcs). destruct Hkn as (Hk0 & Hcseq & Hclen & Hcend & Hcd & _ & Hcfin & Hct).
  pose proof Hp as [Hnxt HW Hhi Ha HE HE' Hm]. unfold TCP_WND, TCP_MSS in *.
  cbn [dequeue_ooseq]. rewrite Hcseq, Hnxt.
  destruct (Z.eqb_spec (u32 (base + k)) (u32 (base + n1))) as [Heq|Hne].
  2: { exists p, i, n1. unfold in_same. split_and!; try done; auto; try lia.
       2: { intros x l' [= <- <-] (_ & Hx & _). congruence. }
       intros _. split; [|done]. rewrite Hq. exists k. split_and!; try done.
       destruct (decide (k = n1)) as [->|]; [done|lia]. }
  assert (k = n1) as -> by (pose proof (seg_at_tcplen _ _ Hcs); destruct (is_fin c); mlia).
  match goal with |- context [set_field rcv_nxt ?v p] =>
    assert (v = u32 (base + (n1 + TCP_TCPLEN c))) as -> by mlia end.
  destruct (Z.leb_spec (TCP_TCPLEN c) (rcv_wnd (p <| rcv_nxt := u32 (base + (n1 + TCP_TCPLEN c)) |>)))
    as [_|Hlt]; [|simpl in Hlt; lia].
  cbn [lwip_assert res_bind].
  assert (rcv_wnd (p <| rcv_nxt := u32 (base + (n1 + TCP_TCPLEN c)) |>) - TCP_TCPLEN c
    = hi - (n1 + TCP_TCPLEN c)) as -> by (simpl; lia).
  destruct (advance p n1 hi E (TCP_TCPLEN c) Hp) as (d & w & H1 & H2); [lia|].
  rewrite H1. cbn [res_bind].
  set (p1 := _ <| rcv_ann_wnd := w |>) in *. fold (is_fin c).
  rewrite Hcd, zlen_slice by lia.
  set (i1 := if 0 <? seg_len c then _ else _).
  pose proof (collected_deliver n n1 (seg_len c) (is_fin c) (i <| in_seqno := u32 (base + n1) |>)) as Hcol.
  fold i1 in Hcol.
  assert (collected n (n1 + TCP_TCPLEN c) (if is_fin c then got_fin i1 else i1)) as Hcol1.
  { rewrite (seg_at_tcplen n1), Z.add_assoc by done. apply Hcol; try done; lia. }
  clear Hcol. assert (in_same i (if is_fin c then got_fin i1 else i1)) as Hsame.
  { unfold i1, in_same. destruct (is_fin c), (0 <? seg_len c); done. }
  destruct (is_fin c) eqn:Ef.
  - rewrite Hcf by done. cbn [dequeue_ooseq]. change (state p1) with (state p). set (st := if state_is (state p) ESTABLISHED then _ else _).
    assert (n1 + TCP_TCPLEN c = zlen bs + 1) as Hend
      by (rewrite (seg_at_tcplen n1), Ef by done; specialize (Hcfin Ef); lia).
    rewrite Hend in *.
    exists (st <| ooseq := [] |>), (got_fin i1), (zlen bs + 1).
    assert (snd_side st = snd_side p1 /\ flags st = flags p1) as [Hss Hfl] by (unfold st; by destruct state_is).
    split_and!; try done; try lia.
    2: { intros x l' [= <- <-]. lia. }
    + destruct H2. unfold st. destruct state_is; by split.
    + unfold st, state_is. change (state p1) with (state p). destruct (decide (state p = ESTABLISHED)) as [e|e].
      * rewrite (bool_decide_eq_true_2 _ e). right. by rewrite e.
      * rewrite (bool_decide_eq_false_2 _ e). by left.
  - rewrite (seg_at_tcplen n1) in * by done. rewrite Ef, Z.add_0_r in *.
    destruct (IH (p1 <| ooseq := l |>) i1 (n1 + seg_len c)) as (p' & i' & n2 & J1 & J2 & J3 & J4 & J5 & J6 & J7 & J8 & J9 & J11 & J10);
      try done; try lia; [by destruct H2; split|].
    exists p', i', n2. split_and!; try done; try lia.
    + unfold in_same in *. intuition congruence.
    + intros x l' [= <- <-] _. rewrite (seg_at_tcplen n1), Ef by done. lia.
Qed.

Lemma collected_ext n n' i i' : recv_data i = recv_data i' -> recv_flags i = recv_flags i' ->
  collected n n' i -> collected n n' i'.
Proof. unfold collected. by intros -> ->. Qed.

Lemma recv_inorder_spec p i n hi E :
  rcv_ok n hi E p -> n < hi -> in_seqno i = u32 (base + n) -> seg_at n (inseg i) ->
  collected n n i ->
  exists p' i' n2, recv_inorder p i = Ok (p', i') /\ n < n2 /\ rcv_at n2 hi E p' /\
    collected n n2 i' /\ in_same i i' /\ snd_side p' = snd_side p /\
    (n2 <= zlen bs -> oos_ok (n2 + 1) hi (ooseq p') /\ state p' = state p) /\
    (n2 <= zlen bs \/ n2 = zlen bs + 1) /\
    Z.min (n + TCP_TCPLEN (inseg i)) hi <= n2 /\
    (state p' = state p \/ state p = ESTABLISHED /\ state p' = CLOSE_WAIT).
Proof.
  intros (Hp & Hn & Hq) Hw Hseq Hs Hc. unfold recv_inorder.
  destruct (trim_right_spec p i n hi E) as (s1 & H1 & H2 & H3); try done.
  rewrite H1. cbn [res_bind]. clear H1. set (i1 := i <| inseg := s1 |> <| in_tcplen := _ |>).
  destruct (adjust_ooseq_spec p i1 n hi E) as (s & l & H1 & Hs2 & Ht2 & Hl & Hl1 & Hl2 & Hl3); try done; try (simpl; lia).
  rewrite H1. cbn [res_bind]. clear H1. set (i2 := i1 <| inseg := s |> <| in_tcplen := _ |>).
  assert (in_tcplen i2 = TCP_TCPLEN s) as -> by done. assert (in_seqno i2 = in_seqno i) as -> by done.
  assert (inseg i2 = s) as -> by done. rewrite Hseq.
  assert (u32 (u32 (base + n) + TCP_TCPLEN s) = u32 (base + (n + TCP_TCPLEN s))) as -> by mlia.
  assert (0 < TCP_TCPLEN s) as Hpos by apply Hs2.
  assert (rcv_at n hi E (p <| ooseq := l |>)) as Hpl by (by destruct Hp; split).
  set (pl := p <| ooseq := l |>) in *.
  assert (rcv_wnd (pl <| rcv_nxt := u32 (base + (n + TCP_TCPLEN s)) |>) = hi - n) as -> by apply Hpl.
  destruct (Z.leb_spec (TCP_TCPLEN s) (hi - n)); [|lia]. cbn [lwip_assert res_bind].
  assert (hi - n - TCP_TCPLEN s = hi - (n + TCP_TCPLEN s)) as -> by lia.
  destruct (advance pl n hi E (TCP_TCPLEN s) Hpl) as (d & w & H1 & Hp1); [lia|].
  rewrite H1. cbn [res_bind]. clear H1. set (p1 := _ <| rcv_ann_wnd := w |>) in *.
  assert (Hsd := Hs2). destruct Hsd as (_ & _ & Hslen & Hsend & Hsd & _ & Hsfin & _).
  fold (is_fin s) in *. rewrite Hsd, zlen_slice by lia. rewrite <- Hsd.
  set (i3 := if 0 <? seg_len s then _ else _).
  assert (collected n (n + TCP_TCPLEN s) (if is_fin s then got_fin i3 else i3)) as Hcol.
  { rewrite (seg_at_tcplen n), Z.add_assoc by done.
    assert (collected n n i2) as Hc2 by (by apply (collected_ext _ _ i)).
    destruct Hc as [Hrd _]. rewrite decide_False in Hrd by lia.
    eapply collected_ext; [| |apply (collected_deliver n n (seg_len s) (is_fin s) i2); try done; lia];
    unfold i3, got_fin, deliver; rewrite Hsd;
    destruct (0 <? seg_len s), (is_fin s); simpl; rewrite ?Hrd; done. }
  assert (inseg i3 = s) as Hins by (unfold i3; by destruct (0 <? seg_len s)). rewrite Hins.
  assert (in_same i (if is_fin s then got_fin i3 else i3)) as Hsame1.
  { unfold i3. unfold in_same. by destruct (is_fin s), (0 <? seg_len s). }
  destruct (dequeue_ooseq_spec n hi E l p1 (if is_fin s then got_fin i3 else i3) (n + TCP_TCPLEN s))
    as (p' & i' & n2 & J1 & J2 & J3 & J4 & J5 & J6 & J7 & J8 & J9 & J11 & J10); try done; try lia.
  { destruct (is_fin s) eqn:Ef; [right; by apply Hl3|].
    left. rewrite (seg_at_tcplen n), Ef by done. lia. }
  assert (ooseq p1 = l) as -> by done.
  fold (is_fin s). rewrite J1. cbn [res_bind]. exists (tcp_ack p'), i', n2.
  assert (snd_side (tcp_ack p') = snd_side p') as Hack by (unfold tcp_ack; by destruct has_flag).
  assert (state (tcp_ack p') = state p' /\ ooseq (tcp_ack p') = ooseq p') as [-> ->]
    by (unfold tcp_ack; by destruct has_flag).
  split_and!; try done; try lia.
  - destruct J3. unfold tcp_ack. by destruct has_flag; split.
  - unfold in_same in *. intuition congruence.
  - by rewrite Hack, J6.
  - destruct J9 as [?|[?| ->]]; [by left|by right|]. rewrite (seg_at_tcplen n) by done.
    destruct (is_fin s) eqn:Ef; [specialize (Hsfin eq_refl)|]; lia.
  - destruct l as [|x l']; [specialize (Hl1 eq_refl); simpl in Hl1; lia|].
    destruct (Hl2 x l' eq_refl) as (k & Hx & Hxk & Hmin & Hcov). simpl in Hmin, Hcov.
    destruct (decide (k = n + TCP_TCPLEN s)) as [->|]; [|lia].
    specialize (J11 x l' eq_refl Hx). lia.
Qed.

(** ** Out-of-sequence data *)

(** The queue behind the covered segments, put behind the segment. *)
Lemma oos_insert_tail cseg a hi l' lo :
  seg_at a cseg -> a + TCP_TCPLEN cseg <= hi -> hi <= a + 65535 -> a < lo ->
  (is_fin cseg = true -> l' = []) ->
  match l' with
  | [] => True
  | n :: l'' => exists k, lo <= k /\ seg_at k n /\
      k + TCP_TCPLEN n <= hi /\ (is_fin n = true -> l'' = []) /\ oos_ok (k + seg_len n) hi l''
  end ->
  oos_ok a hi
    match l' with
    | n :: _ =>
        if TCP_SEQ_GT (u32 (base + a) + seg_len cseg) (seg_seqno n) then
          let len := u16 (seg_seqno n - u32 (base + a)) in
          realloc_seg len (cseg <| seg_len := len |>) :: l'
        else cseg :: l'
    | [] => [cseg]
    end.
Proof.
  intros Hc Ht Hhi Ha Hf Hl. destruct l' as [|n l''].
  { exists a. split_and!; try done. }
  destruct Hl as (k & Hk & Hn & Hnt & Hnf & Hl).
  assert (is_fin cseg = false) as Ef by (destruct (is_fin cseg); [by specialize (Hf eq_refl)|done]).
  assert (seg_seqno n = u32 (base + k)) as Hns by apply Hn.
  rewrite (TCP_SEQ_GT_pos _ _ (base + (a + seg_len cseg)) (base + k)).
  2: eq32_solve.
  2: { rewrite Hns. eq32_solve. }
  2: seg_lia.
  destruct (Z.ltb_spec (base + k) (base + (a + seg_len cseg))) as [Hlt|Hge].
  - assert (u16 (seg_seqno n - u32 (base + a)) = k - a) as Hlen.
    { rewrite Hns. assert (0 <= k - a < 65536) by seg_lia. mlia. }
    cbv zeta. rewrite Hlen. assert (seg_at a (realloc_seg (k - a) (cseg <| seg_len := k - a |>))) as Hs
      by (apply seg_at_take; [done|lia|done]).
    exists a. split_and!; try done.
    + rewrite (seg_at_tcplen a) by done. unfold is_fin, realloc_seg in *. simpl. rewrite Ef. seg_lia.
    + exists k. split_and!; try done. unfold realloc_seg. simpl. lia.
  - exists a. split_and!; try done. exists k. split_and!; try done. lia.
Qed.

Lemma oos_insert_spec cseg a hi l lo :
  seg_at a cseg -> oos_ok lo hi l -> a < lo -> hi <= a + 65535 -> a + TCP_TCPLEN cseg <= hi ->
  oos_ok a hi (tcp_oos_insert_segment cseg (u32 (base + a)) l).
Proof.
  intros Hc Hl Ha Hhi Ht. unfold tcp_oos_insert_segment. fold (is_fin cseg).
  destruct (is_fin cseg) eqn:Ef.
  { exists a. split_and!; try done. }
  destruct (oos_cover_spec cseg a hi l lo) as (c' & l' & H1 & H2 & H3 & H4 & H5 & H6); try done; try lia.
  rewrite H1. apply (oos_insert_tail _ _ _ _ lo); try done.
  destruct l' as [|n l'']; [done|]. destruct H6 as (k & ? & ? & H6). by exists k.
Qed.

(** A longer segment replaces the one at the same position. *)
Lemma oos_insert_same cseg a hi n l :
  seg_at a cseg -> oos_ok a hi (n :: l) -> seg_seqno n = u32 (base + a) -> seg_len n < seg_len cseg ->
  hi <= a + 65535 -> a + TCP_TCPLEN cseg <= hi ->
  oos_ok a hi (tcp_oos_insert_segment cseg (u32 (base + a)) (n :: l)).
Proof.
  intros Hc (k & Hk & Hn & Hnt & Hnf & Hl) Hseq Hlen Hhi Ht.
  assert (k = a) as ->.
  { assert (seg_seqno n = u32 (base + k)) as Hk' by apply Hn. rewrite Hk' in Hseq.
    assert (0 <= k - a <= 65535) by seg_lia. mlia. }
  unfold tcp_oos_insert_segment. fold (is_fin cseg). destruct (is_fin cseg) eqn:Ef.
  { exists a. split_and!; try done. }
  cbn [oos_cover]. rewrite (TCP_SEQ_GEQ_pos _ _ (base + (a + seg_len cseg)) (base + (a + seg_len n))).
  2: eq32_solve.
  2: { rewrite Hseq. eq32_solve. }
  2: seg_lia.
  destruct (Z.leb_spec (base + (a + seg_len n)) (base + (a + seg_len cseg))) as [_|]; [|lia].
  fold (is_fin n). destruct (is_fin n) eqn:En.
  { exfalso. seg_lia. }
  destruct (oos_cover_spec cseg a hi l (a + seg_len n)) as (c' & l' & H1 & H2 & H3 & H4 & H5 & H6);
    try done; try seg_lia.
  rewrite H1. apply (oos_insert_tail _ _ _ _ (a + seg_len n)); try done; try seg_lia.
  destruct l' as [|n' l'']; [done|]. destruct H6 as (k & ? & ? & H6). by exists k.
Qed.

(** A queued segment that reaches over the new one is cut. *)
Lemma trim_prev_spec s k a hi : seg_at k s -> k < a -> is_fin s = false -> a - k <= 65535 ->
  k + TCP_TCPLEN s <= hi ->
  seg_at k (trim_prev s (u32 (base + a))) /\ k + seg_len (trim_prev s (u32 (base + a))) <= a /\
  is_fin (trim_prev s (u32 (base + a))) = false /\
  k + TCP_TCPLEN (trim_prev s (u32 (base + a))) <= hi.
Proof.
  intros Hs Hka Hf Hd Hhi. unfold trim_prev. assert (seg_seqno s = u32 (base + k)) as Hq by apply Hs.
  rewrite Hq. rewrite (TCP_SEQ_GT_pos _ _ (base + (k + seg_len s)) (base + a)).
  2: eq32_solve.
  2: eq32_solve.
  2: seg_lia.
  destruct (Z.ltb_spec (base + a) (base + (k + seg_len s))).
  - assert (u16 (u32 (base + a) - u32 (base + k)) = a - k) as Hlen by mlia.
    cbv zeta. rewrite Hlen.
    assert (seg_at k (realloc_seg (a - k) (s <| seg_len := a - k |>))) as H' by (apply seg_at_take; [done|lia|done]).
    split_and!; [done|unfold realloc_seg; simpl; lia|done|].
    rewrite (seg_at_tcplen k) by done. unfold is_fin, realloc_seg in *. simpl. rewrite Hf. seg_lia.
  - split_and!; try done; lia.
Qed.

Definition opt_list (prev : option tcp_seg) : list tcp_seg :=
  match prev with Some s => [s] | None => [] end.

(** [prev] in front of a queue that begins at its end. *)
Lemma oos_ok_pre lo hi prev l :
  oos_ok lo hi (opt_list prev ++ l) -> l <> [] ->
  exists lo', lo <= lo' /\ oos_ok lo' hi l /\
    (forall l2, oos_ok lo' hi l2 -> oos_ok lo hi (opt_list prev ++ l2)) /\
    match prev with
    | Some s => exists k, lo <= k /\ seg_at k s /\ k + TCP_TCPLEN s <= hi /\ is_fin s = false /\ lo' = k + seg_len s
    | None => lo' = lo
    end.
Proof.
  intros H Hne. destruct prev as [s|]; simpl in *.
  - destruct H as (k & Hk & Hs & Ht & Hf & Hl). exists (k + seg_len s).
    assert (is_fin s = false) as Ef by (destruct (is_fin s); [by specialize (Hf eq_refl)|done]).
    assert (0 <= seg_len s) by apply Hs. split_and!; try done; [lia|..].
    + intros l2 H2. exists k. split_and!; try done. congruence.
    + exists k. by split_and!.
  - exists lo. by split_and!.
Qed.

Lemma alloc_outs e b e' : alloc e = (b, e') -> outs e' = outs e /\ tcp_ticks e' = tcp_ticks e.
Proof. unfold alloc. by destruct (allocs e); intros [= <- <-]. Qed.

Lemma seg_at_pos k a s lo hi : seg_at k s -> lo <= k -> k <= hi -> lo <= a -> a <= hi -> hi <= lo + 65535 ->
  (u32 (base + a) =? seg_seqno s) = (a =? k).
Proof.
  intros (_ & -> & _) ? ? ? ? ?. apply eq_bool_prop_intro. rewrite !Is_true_true, !Z.eqb_eq. mlia.
Qed.

(** Put the segment between [prev] and [l]. *)
Lemma oos_here_spec i a hi lo prev next l kn :
  seg_at a (inseg i) -> a + TCP_TCPLEN (inseg i) <= hi -> hi <= lo + 65535 ->
  oos_ok lo hi (opt_list prev ++ next :: l) -> lo <= a ->
  (forall s k, prev = Some s -> lo <= k <= hi -> seg_at k s -> k < a) ->
  seg_at kn next -> a < kn <= hi ->
  oos_ok lo hi (match prev with Some pv => [trim_prev pv (u32 (base + a))] | None => [] end
    ++ tcp_oos_insert_segment (inseg i) (u32 (base + a)) (next :: l)).
Proof.
  intros Hs Ht Hhi Hl Ha Hprev Hn Han.
  destruct (oos_ok_pre lo hi prev (next :: l) Hl) as (lo' & Hlo & Hl' & _ & Hp); [done|].
  assert (oos_ok (a + 1) hi (next :: l)) as Hl1.
  { destruct Hl' as (k & Hk & Hn' & Hr). exists k. split; [|done].
    assert (k = kn) as ->; [|lia].
    assert (0 < TCP_TCPLEN next) by apply Hn.
    destruct Hn' as (_ & Hq & _), Hn as (_ & Hq' & _), Hr as (Hr & _). rewrite Hq' in Hq. mlia. }
  pose proof (oos_insert_spec (inseg i) a hi (next :: l) (a + 1) Hs Hl1 ltac:(lia) ltac:(lia) Ht) as Hins.
  destruct prev as [pv|]; simpl.
  - destruct Hp as (k & Hk & Hpv & Hpt & Hpf & ->).
    assert (k < a) by (apply (Hprev pv); try done; split; [done|seg_lia]).
    destruct (trim_prev_spec pv k a hi) as (T1 & T2 & T3 & T4); try done; try lia.
    exists k. split_and!; try done; [congruence|]. by apply (oos_ok_weaken a).
  - by apply (oos_ok_weaken a).
Qed.

Lemma oos_walk_spec p i a hi l : forall prev lo e,
  in_seqno i = u32 (base + a) -> seg_at a (inseg i) -> a + TCP_TCPLEN (inseg i) <= hi ->
  lo <= a -> hi <= lo + 65535 ->
  (u32 (rcv_nxt p + rcv_wnd p) <? u32 (in_tcplen i + in_seqno i)) = false ->
  oos_ok lo hi (opt_list prev ++ l) ->
  (forall s k, prev = Some s -> lo <= k <= hi -> seg_at k s -> k < a) ->
  exists l' e', oos_walk p prev l e i = Ok (l', e', i) /\ oos_ok lo hi l' /\ outs e' = outs e.
Proof.
  induction l as [|next l IH]; intros prev lo e Hseq Hs Ht Ha Hhi Hov Hl Hprev.
  { exists (opt_list prev), e. rewrite app_nil_r in Hl. by destruct prev. }
  destruct (oos_ok_pre lo hi prev (next :: l) Hl) as (lo' & Hlo & Hl' & Hpre & Hp); [done|].
  assert (Hl2 := Hl'). destruct Hl2 as (kn & Hkn & Hn & Hnt & Hnf & Hll).
  assert (0 < TCP_TCPLEN next) as Hnp by apply Hn.
  assert (0 < TCP_TCPLEN (inseg i)) as Hip by apply Hs.
  cbn [oos_walk]. change (match prev with Some s => [s] | None => [] end) with (opt_list prev).
  rewrite Hseq, (seg_at_pos kn a next lo hi) by (done || lia).
  destruct (Z.eqb_spec a kn) as [<-|Hne].
  - destruct (seg_len next <? seg_len (inseg i)) eqn:Elen; [|by exists (opt_list prev ++ next :: l), e].
    apply Z.ltb_lt in Elen. destruct (alloc e) as [ok e1] eqn:Ea. destruct (alloc_outs _ _ _ Ea) as [Ho _].
    destruct ok; [|by exists (opt_list prev ++ next :: l), e1].
    exists (opt_list prev ++ tcp_oos_insert_segment (inseg i) (u32 (base + a)) (next :: l)), e1.
    split_and!; try done. apply Hpre. apply (oos_ok_weaken a); [|lia].
    apply oos_insert_same; try done; try lia; [|apply Hn]. exists a. split_and!; try done.
  - set (here := match prev with None => _ | Some pv => _ end).
    assert (here = (a <? kn)) as ->.
    { assert (seg_seqno next = u32 (base + kn)) as Hnq by apply Hn. unfold here. destruct prev as [pv|].
      - destruct Hp as (k & Hk & Hpv & Hpt & Hpf & ->). assert (0 < TCP_TCPLEN pv) by apply Hpv.
        assert (k < a) by (apply (Hprev pv); try done; split; [done|lia]).
        assert (seg_seqno pv = u32 (base + k)) as Hpq by apply Hpv.
        rewrite (TCP_SEQ_BETWEEN_pos _ _ _ (base + a) (base + (k + 1)) (base + (kn - 1))).
        2: apply u32_eq32.
        2: { rewrite Hpq. eq32_solve. }
        2: { rewrite Hnq. eq32_solve. }
        2-3: lia.
        apply eq_bool_prop_intro. rewrite !Is_true_true, andb_true_iff, !Z.leb_le, Z.ltb_lt. lia.
      - rewrite (TCP_SEQ_LT_pos _ _ (base + a) (base + kn)).
        2: apply u32_eq32.
        2: { rewrite Hnq. eq32_solve. }
        2: lia.
        apply eq_bool_prop_intro. rewrite !Is_true_true, !Z.ltb_lt. lia. }
    destruct (Z.ltb_spec a kn) as [Hlt|Hge].
    + destruct (alloc e) as [ok e1] eqn:Ea. destruct (alloc_outs _ _ _ Ea) as [Ho _].
      destruct ok; [|by exists (opt_list prev ++ next :: l), e1].
      eexists _, e1. split_and!; [done| |done].
      apply (oos_here_spec i a hi lo prev next l kn); try done; lia.
    + rewrite (TCP_SEQ_GT_pos _ _ (base + a) (base + kn)).
      2: apply u32_eq32.
      2: { destruct Hn as (_ & -> & _). eq32_solve. }
      2: lia.
      destruct (Z.ltb_spec (base + kn) (base + a)); [|lia]. rewrite andb_true_r.
      destruct (bool_decide (l = [])) eqn:El.
      * apply bool_decide_eq_true in El as ->. fold (is_fin next).
        destruct (is_fin next) eqn:Ef; [by exists (opt_list prev ++ [next]), e|].
        destruct (alloc e) as [ok e1] eqn:Ea. destruct (alloc_outs _ _ _ Ea) as [Ho _].
        destruct ok; [|by exists (opt_list prev ++ [next]), e1].
        unfold trim_overrun. rewrite Hov, <- Hseq, Hseq. cbn [res_bind].
        eexists _, e1. split_and!; [done| |done]. apply Hpre.
        destruct (trim_prev_spec next kn a hi) as (T1 & T2 & T3 & T4); try done; try lia.
        exists kn. split_and!; try done; [congruence|]. exists a. by split_and!.
      * apply bool_decide_eq_false in El.
        destruct (IH (Some next) lo' e) as (l2 & e' & H1 & H2 & H3); try done; try lia.
        { intros s k [= <-] Hk Hs'. assert (seg_seqno next = u32 (base + k)) as Hq by apply Hs'.
          destruct Hn as (_ & Hq' & _). rewrite Hq in Hq'. mlia. }
        rewrite H1. cbn [res_bind]. eexists _, e'. split_and!; [done| |done]. by apply Hpre.
Qed.

(** ** A segment arrives *)

(** The segment at hand carries the stream from position [a] on. Three things
    are asked of the peer and the numbers: a segment ahead of what is expected
    ends within the window, segments are shorter than 32767 bytes, and old
    ones are not older than 2^30 bytes. *)
Record arrival (n hi a : Z) (i : tcp_in) : Prop := {
  ar_seqno : in_seqno i = u32 (base + a);
  ar_seg : seg_at a (inseg i);
  ar_tcplen : in_tcplen i = TCP_TCPLEN (inseg i);
  ar_p : inseg_p i = true;
  ar_len : seg_len (inseg i) < 0x7fff;
  ar_near : n - 1073741824 <= a <= n + 1073741824;
  ar_window : n < a -> a + TCP_TCPLEN (inseg i) <= hi
}.

Lemma empty_ack_spec p e n hi E : rcv_at n hi E p -> exists err p' e' E',
  tcp_send_empty_ack p e = (err, p', e') /\ rcv_at n hi E' p' /\ snd_side p' = snd_side p /\
  ooseq p' = ooseq p /\ state p' = state p.
Proof.
  intros H. unfold tcp_send_empty_ack, tcp_output_alloc_header. destruct (alloc e) as [[] e1].
  - eexists _, _, _, (n + rcv_ann_wnd p). split; [reflexivity|]. split; [|done].
    destruct H as [Hn HW Hhi Ha HE HE' Hm]. unfold TCP_WND, TCP_MSS in *.
    split; simpl; try done; unfold TCP_WND, TCP_MSS; try lia. rewrite Hn. mlia.
  - by exists ERR_BUF, p, e1, E.
Qed.

Lemma trim_left_spec p n hi E a i : rcv_at n hi E p -> arrival n hi a i -> 0 <= n ->
  a < n < a + TCP_TCPLEN (inseg i) ->
  exists s, trim_left p i = Ok (i <| inseg := s |> <| in_seqno := u32 (base + n) |>) /\
    seg_at n s /\ TCP_TCPLEN s = TCP_TCPLEN (inseg i) - (n - a).
Proof.
  intros [Hn _ _ _ _ _ _] [Hq Hs Ht Hp Hl Hnear _] H0 Han. unfold trim_left.
  pose proof (seg_at_tcplen _ _ Hs) as Htl.
  assert (n - a <= seg_len (inseg i)) by (destruct (is_fin (inseg i)); lia).
  assert (s32 (rcv_nxt p - in_seqno i) = n - a) as -> by (rewrite Hn, Hq; mlia).
  assert (u16 (rcv_nxt p - in_seqno i) = n - a) as -> by (rewrite Hn, Hq; mlia).
  rewrite Hp. destruct (Z.ltb_spec (n - a) 0x7fff); [|lia].
  destruct Hs as (Q0 & Q1 & Q2 & Q3 & Q4 & Q5 & Q6 & Q7).
  rewrite Q4, zlen_slice by lia.
  destruct (Z.leb_spec (n - a) (seg_len (inseg i))); [|lia]. cbn [lwip_assert res_bind].
  rewrite drop_slice by lia. replace (a + (n - a)) with n by lia.
  rewrite (u16_id (seg_len (inseg i) - (n - a))) by lia. rewrite Hn.
  eexists. split; [reflexivity|].
  set (s := (inseg i) <| seg_data := _ |> <| seg_len := _ |> <| seg_seqno := _ |>).
  assert (TCP_TCPLEN s = TCP_TCPLEN (inseg i) - (n - a)) as Hts.
  { rewrite Htl, tcplen_eq by done. unfold s, is_fin. simpl. lia. }
  split; [|done]. unfold seg_at. rewrite Hts. unfold s. simpl. split_and!; try done; try lia.
  intros Hf. specialize (Q6 Hf). lia.
Qed.

Lemma recv_ooseq_spec p e n hi E a i :
  rcv_ok n hi E p -> arrival n hi a i -> n < a -> rcv_nxt p + rcv_wnd p < 4294967296 ->
  exists p' e' E', recv_ooseq p e i = Ok (p', e', i) /\ rcv_ok n hi E' p' /\
    snd_side p' = snd_side p /\ state p' = state p.
Proof.
  intros (Hp & Hn & Hq) [Aq As At Ap Al Anear Aw] Ha Hwrap.
  destruct (empty_ack_spec p e n hi E Hp) as (err & p1 & e1 & E1 & H1 & H2 & H3 & H4 & H5).
  assert (Hp2 := Hp). destruct Hp2 as [Pn PW Phi _ _ _ _]. unfold TCP_WND, TCP_MSS in *. specialize (Aw Ha).
  unfold recv_ooseq. rewrite H1, H4. destruct (ooseq p) as [|x l] eqn:El.
  - destruct (alloc e1) as [ok e2]. eexists _, e2, E1. split; [reflexivity|]. split_and!; try done.
    split_and!; [by destruct H2; split|lia|lia|].
    destruct ok; simpl; [|done]. exists a. split_and!; try done. lia.
  - destruct (oos_walk_spec p1 i a hi (x :: l) None (n + 1) e1) as (l' & e' & W1 & W2 & W3); try done; try lia.
    { destruct H2 as [R1 R2 _ _ _ _ _]. rewrite R1, R2, At, Aq. apply Z.ltb_ge.
      rewrite Pn, PW in Hwrap. assert (0 < TCP_TCPLEN (inseg i)) by apply As.
      assert (u32 (base + a) = u32 (base + n) + (a - n)) as -> by mlia. mlia. }
    rewrite W1. cbn [res_bind]. eexists _, e', E1. split; [reflexivity|]. split_and!; try done.
    split_and!; [by destruct H2; split|lia|lia|done].
Qed.

(** What one step of the receiver does for a segment from [a] on: [n2] is the
    position reached, [E2] the announced edge. *)
Definition received (n hi a t : Z) (p : tcp_pcb) (i : tcp_in) (n2 : Z) (p' : tcp_pcb) (i' : tcp_in) : Prop :=
  n <= n2 /\ collected n n2 i' /\ in_same i i' /\ snd_side p' = snd_side p /\
  (exists E2, rcv_at n2 hi E2 p' /\ (n2 <= zlen bs -> rcv_ok n2 hi E2 p' /\ state p' = state p)) /\
  (n2 <= zlen bs \/ n2 = zlen bs + 1) /\
  (a <= n -> Z.min (a + t) hi <= n2) /\
  (state p' = state p \/ state p = ESTABLISHED /\ state p' = CLOSE_WAIT).

Lemma rcv_ok_ack_now n hi E p : rcv_ok n hi E p -> rcv_ok n hi E (tcp_ack_now p).
Proof. intros (H & ? & ?). split_and!; try done; [by destruct H; split|lia|lia]. Qed.

Lemma recv_in_window_spec p e n hi E a i :
  rcv_ok n hi E p -> in_seqno i = u32 (base + a) -> collected n n i ->
  n - 1073741824 <= a <= n + 1073741824 ->
  (a < n \/ a = n /\ seg_at n (inseg i) \/
   n < a /\ arrival n hi a i /\ rcv_nxt p + rcv_wnd p < 4294967296) ->
  exists p' e' i' n2, recv_in_window p e i = Ok (p', e', i') /\
    received n hi n (if decide (a = n) then TCP_TCPLEN (inseg i) else 0) p i n2 p' i'.
Proof.
  intros Hok Aq Hc Hnear Hcase. pose proof Hok as (Hp & Hn & Hq).
  pose proof Hp as [Pn PW Phi Pann _ _ _]. unfold TCP_WND, TCP_MSS in *.
  unfold recv_in_window.
  rewrite (TCP_SEQ_BETWEEN_pos _ _ _ (base + a) (base + n) (base + (hi - 1))).
  2: { rewrite Aq. apply u32_eq32. }
  2: { rewrite Pn. apply u32_eq32. }
  2: { rewrite Pn, PW. eq32_solve. }
  2-3: lia.
  destruct ((base + n <=? base + a) && (base + a <=? base + (hi - 1))) eqn:Ein.
  - apply andb_true_iff in Ein as [H1%Z.leb_le H2%Z.leb_le].
    destruct Hcase as [?|[[-> Hs]|(Hlt & Har & Hwrap)]]; [lia|..].
    + rewrite Aq, Pn, Z.eqb_refl, decide_True by done.
      destruct (recv_inorder_spec p i n hi E) as (p' & i' & n2 & J1 & J2 & J3 & J4 & J5 & J6 & J7 & J8 & J9 & J10);
        try done; try lia.
      rewrite J1. cbn [res_bind]. exists p', e, i', n2. split; [done|].
      split_and!; try done; try lia. exists E. split; [done|]. intros Hle. destruct (J7 Hle).
      split; [|done]. split; [done|]. split; [lia|done].
    + rewrite decide_False by lia. destruct (Z.eqb_spec (rcv_nxt p) (in_seqno i)) as [Heq|_].
      { rewrite Pn, Aq in Heq. exfalso. mlia. }
      destruct (recv_ooseq_spec p e n hi E a i) as (p' & e' & E2 & J1 & J2 & J3 & J4); try done.
      rewrite J1. exists p', e', i, n. split; [done|]. unfold in_same.
      split_and!; try done; try lia; [|by left]. exists E2. split; [apply J2|done].
  - apply andb_false_iff in Ein as Hout. rewrite !Z.leb_gt in Hout.
    destruct (empty_ack_spec p e n hi E Hp) as (err & p3 & e3 & E3 & J1 & J2 & J3 & J4 & J5).
    rewrite J1. exists p3, e3, i, n. split; [done|]. unfold in_same.
    split_and!; try done; try lia; [|destruct (decide (a = n)); lia|by left].
    exists E3. split; [done|]. intros _. split; [|done]. split; [done|]. split; [lia|by rewrite J4].
Qed.

(** One step of the receiver. *)
Lemma recv_text_spec p e n hi E a i :
  rcv_ok n hi E p -> arrival n hi a i -> collected n n i ->
  rcv_nxt p + rcv_wnd p < 4294967296 -> 4 <= state_num (state p) < 7 ->
  exists p' e' i' n2, recv_text p e i = Ok (p', e', i') /\
    received n hi a (TCP_TCPLEN (inseg i)) p i n2 p' i'.
Proof.
  intros Hok Har Hc Hwrap Hst. pose proof Hok as (Hp & Hn & Hq). pose proof Har as [Aq As At Ap Al Anear Aw].
  pose proof Hp as [Pn PW Phi Pann _ _ _]. unfold TCP_WND, TCP_MSS in *.
  assert (0 < TCP_TCPLEN (inseg i)) as Htp by apply As.
  assert (TCP_TCPLEN (inseg i) <= 32767) by (rewrite (seg_at_tcplen a) by done; destruct is_fin; lia).
  unfold recv_text. destruct (Z.ltb_spec 0 (in_tcplen i)); [|lia].
  destruct (Z.ltb_spec (state_num (state p)) 7); [|lia]. cbn [andb].
  rewrite (TCP_SEQ_BETWEEN_pos _ _ _ (base + n) (base + (a + 1)) (base + (a + TCP_TCPLEN (inseg i) - 1))).
  2: { rewrite Pn. apply u32_eq32. }
  2: { rewrite Aq. eq32_solve. }
  2: { rewrite Aq, At. eq32_solve. }
  2-3: lia.
  destruct ((base + (a + 1) <=? base + n) && (base + n <=? base + (a + TCP_TCPLEN (inseg i) - 1))) eqn:Etrim.
  - apply andb_true_iff in Etrim as [Et1%Z.leb_le Et2%Z.leb_le].
    destruct (trim_left_spec p n hi E a i) as (s & T1 & T2 & T3); try done; try lia.
    rewrite T1. cbn [res_bind]. set (i1 := i <| inseg := s |> <| in_seqno := _ |>).
    destruct (recv_in_window_spec p e n hi E n i1) as (p' & e' & i' & n2 & J1 & J2); try done; try lia.
    { right. by left. }
    exists p', e', i', n2. split; [done|].
    destruct J2 as (K1 & K2 & K3 & K4 & K5 & K6 & K7 & K8). rewrite decide_True in K7 by done.
    split_and!; try done. intros _. change (inseg i1) with s in K7. specialize (K7 ltac:(lia)). lia.
  - apply andb_false_iff in Etrim. rewrite !Z.leb_gt in Etrim.
    set (p1 := if TCP_SEQ_LT (in_seqno i) (rcv_nxt p) then tcp_ack_now p else p).
    assert ((if TCP_SEQ_LT (in_seqno i) (rcv_nxt p) then Ok (tcp_ack_now p, i) else Ok (p, i)) = Ok (p1, i)) as ->
      by (unfold p1; by destruct TCP_SEQ_LT).
    assert (rcv_ok n hi E p1) as Hok1 by (unfold p1; destruct TCP_SEQ_LT; [by apply rcv_ok_ack_now|done]).
    assert (snd_side p1 = snd_side p /\ state p1 = state p /\ rcv_nxt p1 + rcv_wnd p1 = rcv_nxt p + rcv_wnd p)
      as (S1 & S2 & S3) by (unfold p1; by destruct TCP_SEQ_LT).
    cbn [res_bind].
    destruct (recv_in_window_spec p1 e n hi E a i) as (p' & e' & i' & n2 & J1 & J2); try done; try lia.
    { destruct (decide (a < n)) as [?|?]; [by left|right]. destruct (decide (a = n)) as [->|?]; [by left|right].
      split_and!; [lia|done|lia]. }
    exists p', e', i', n2. split; [done|].
    destruct J2 as (K1 & K2 & K3 & K4 & K5 & K6 & K7 & K8). rewrite S1, S2 in *.
    split_and!; try done. intros Han. destruct (decide (a = n)) as [->|?]; [by apply K7|lia].
Qed.
End Stream.
