(* ===== verification/TcpAck.v ===== *)
(** * TCP acknowledgements

    The send queues against the positions of the bytes sent, and what the ACK
    part of [tcp_receive] does to them. *)
From S2P Require Import Prelude ByteOrder IpAddr Ip Tcp TcpOut TcpIn.

Implicit Types s : tcp_seg.

(** ** The send queues

    A segment of the send side at position [U]; a position is a sequence
    number that is not cut to 32 bits. *)
Definition seg_pos (U : Z) s : Prop :=
  seg_seqno s = u32 U /\ 0 <= seg_len s <= 65535 /\ 0 < TCP_TCPLEN s /\ 1 <= seg_clen s.

(** The segments of the two queues, each in order, make up the sequence space
    from [U] to [V]. After a fast retransmission the first segment is on the
    unsent queue although later ones are unacked, so the queues interleave. *)
Inductive snd_queue : Z -> list tcp_seg -> list tcp_seg -> Z -> Prop :=
  | sq_nil U : snd_queue U [] [] U
  | sq_unacked U s u v V : seg_pos U s -> snd_queue (U + TCP_TCPLEN s) u v V -> snd_queue U (s :: u) v V
  | sq_unsent U s u v V : seg_pos U s -> snd_queue (U + TCP_TCPLEN s) u v V -> snd_queue U u (s :: v) V.

Definition sum_clen (l : list tcp_seg) : Z := fold_right (fun s n => seg_clen s + n) 0 l.

Fixpoint drop_while (f : tcp_seg -> bool) (l : list tcp_seg) : list tcp_seg :=
  match l with
  | [] => []
  | s :: l' => if f s then drop_while f l' else l
  end.

(** Segments that [ackno] acknowledges completely. *)
Definition acked_by (ackno : Z) (s : tcp_seg) : bool :=
  TCP_SEQ_LEQ (seg_seqno s + TCP_TCPLEN s) ackno.

Lemma seg_pos_tcplen U s : seg_pos U s -> 0 < TCP_TCPLEN s <= 65536.
Proof.
  intros (_ & H & Ht & _). split; [done|]. unfold TCP_TCPLEN.
  destruct (has_flag (seg_hflags s) (Z.lor TCP_FIN TCP_SYN)); lia.
Qed.

Lemma snd_queue_le U u v V : snd_queue U u v V -> U <= V.
Proof. induction 1 as [|? ? ? ? ? (_&_&?&_)|? ? ? ? ? (_&_&?&_)]; lia. Qed.
Lemma sum_clen_app l k : sum_clen (l ++ k) = sum_clen l + sum_clen k.
Proof. unfold sum_clen. induction l; simpl; lia. Qed.
Lemma sum_clen_cons s l : sum_clen (s :: l) = seg_clen s + sum_clen l.
Proof. done. Qed.
Lemma snd_queue_clen U u v V : snd_queue U u v V ->
  Forall (fun s => 1 <= seg_clen s) u /\ Forall (fun s => 1 <= seg_clen s) v.
Proof.
  induction 1 as [|? ? ? ? ? (_&_&_&?) ? []|? ? ? ? ? (_&_&_&?) ? []]; split; try done; by constructor.
Qed.
Lemma sum_clen_nonneg l : Forall (fun s => 1 <= seg_clen s) l -> 0 <= sum_clen l.
Proof. unfold sum_clen. induction 1; simpl; lia. Qed.

Lemma acked_by_pos K U s : seg_pos U s -> -1073741824 <= U - K <= 1073741824 ->
  acked_by (u32 K) s = (U + TCP_TCPLEN s <=? K).
Proof.
  intros Hs HK. unfold acked_by. pose proof (seg_pos_tcplen _ _ Hs). destruct Hs as (H1 & _).
  rewrite (TCP_SEQ_LEQ_pos _ _ (U + TCP_TCPLEN s) K); try done; try lia.
  - rewrite H1. eq32_solve.
  - apply u32_eq32.
Qed.

(** Nothing from a position behind [K] is acknowledged. *)
Lemma drop_while_beyond K U u v V : snd_queue U u v V -> K <= U -> V - K <= 1073741824 ->
  drop_while (acked_by (u32 K)) u = u /\ drop_while (acked_by (u32 K)) v = v.
Proof.
  intros H. induction H as [|U s u v V Hs Hq IH|U s u v V Hs Hq IH]; intros HK HV; [done|..];
    pose proof (snd_queue_le _ _ _ _ Hq); assert (0 < TCP_TCPLEN s) by apply Hs;
    destruct IH as [IH1 IH2]; try lia; split; try done; cbn [drop_while];
    rewrite (acked_by_pos K U) by (done || lia);
    by destruct (Z.leb_spec (U + TCP_TCPLEN s) K); [lia|].
Qed.

(** Every segment of the queues has its position. *)
Lemma snd_queue_mem U u v V s : snd_queue U u v V -> (s ∈ u \/ s ∈ v) ->
  exists X, U <= X < V /\ seg_pos X s.
Proof.
  induction 1 as [|U x u v V Hs Hq IH|U x u v V Hs Hq IH]; intros Hin.
  - destruct Hin as [H|H]; by apply elem_of_nil in H.
  - pose proof (snd_queue_le _ _ _ _ Hq). assert (0 < TCP_TCPLEN x) by apply Hs.
    rewrite elem_of_cons in Hin. destruct Hin as [[->|Hin]|Hin]; [exists U; split; [lia|done]|..];
      (destruct IH as (X & ? & ?); [by (left + right)|]; exists X; split; [lia|done]).
  - pose proof (snd_queue_le _ _ _ _ Hq). assert (0 < TCP_TCPLEN x) by apply Hs.
    rewrite elem_of_cons in Hin. destruct Hin as [Hin|[->|Hin]]; [|exists U; split; [lia|done]|];
      (destruct IH as (X & ? & ?); [by (left + right)|]; exists X; split; [lia|done]).
Qed.

(** The segments reach beyond [A]. *)
Definition beyond (A U V : Z) (u v : list tcp_seg) : Prop :=
  forall s, (s ∈ u \/ s ∈ v) -> exists X, U <= X < V /\ seg_pos X s /\ A < X + TCP_TCPLEN s.

Lemma beyond_cons K U s u v V : seg_pos U s -> snd_queue (U + TCP_TCPLEN s) u v V ->
  K < U + TCP_TCPLEN s -> beyond K U V (s :: u) v /\ beyond K U V u (s :: v).
Proof.
  intros Hs Hq HK. assert (0 < TCP_TCPLEN s) by apply Hs. pose proof (snd_queue_le _ _ _ _ Hq).
  assert (forall x, (x = s \/ x ∈ u \/ x ∈ v) -> exists X, U <= X < V /\ seg_pos X x /\ K < X + TCP_TCPLEN x) as H1.
  { intros x [->|Hx]; [exists U; split_and!; try done; lia|].
    destruct (snd_queue_mem _ _ _ _ _ Hq Hx) as (X & HX & HXp). exists X.
    assert (0 < TCP_TCPLEN x) by apply HXp. split_and!; try done; lia. }
  split; intros x Hx; apply H1; rewrite elem_of_cons in Hx; tauto.
Qed.

(** Dropping what [K] acknowledges from both queues leaves the sequence space
    from the first segment that reaches beyond [K] on. *)
Lemma snd_queue_ack K U u v V : snd_queue U u v V ->
  U <= K <= V -> V - U <= 1073741824 ->
  let u' := drop_while (acked_by (u32 K)) u in let v' := drop_while (acked_by (u32 K)) v in
  exists U', U <= U' <= K /\ snd_queue U' u' v' V /\ beyond K U' V u' v'.
Proof.
  intros H. cbv zeta. induction H as [U|U s u v V Hs Hq IH|U s u v V Hs Hq IH]; intros HK HV.
  { exists U. split; [lia|]. split; [constructor|]. intros s [Hs|Hs]; by apply elem_of_nil in Hs. }
  all: pose proof (snd_queue_le _ _ _ _ Hq); assert (0 < TCP_TCPLEN s) by apply Hs;
    cbn [drop_while]; rewrite (acked_by_pos K U) by (done || lia);
    destruct (Z.leb_spec (U + TCP_TCPLEN s) K);
    [destruct IH as (U' & ? & ? & ?); [lia|lia|]; exists U'; split_and!; try done; lia|];
    exists U; destruct (drop_while_beyond K _ _ _ _ Hq) as [Hu Hv]; [lia|lia|]; rewrite ?Hu, ?Hv;
    (split; [lia|]); (split; [by constructor|]); eapply beyond_cons; done || lia.
Qed.

(** ** What the acknowledgement leaves alone *)
Definition rcv_side (p : tcp_pcb) :=
  (rcv_nxt p, rcv_wnd p, rcv_ann_wnd p, rcv_ann_right_edge p, mss p, ooseq p, state p,
   refused_data p, local_ip p, remote_ip p, local_port p, remote_port p).

(** Equalities of projections of updated records, case by case. *)
Ltac upd_cases :=
  repeat match goal with
  | |- context [if ?b then _ else _] => destruct b
  | |- context [match ?x with _ => _ end] => destruct x
  end; try reflexivity.

Lemma rcv_side_wnd p i : rcv_side (update_snd_wnd p i) = rcv_side p.
Proof. unfold update_snd_wnd. upd_cases. Qed.
Lemma rcv_side_fast p : rcv_side (tcp_rexmit_fast p) = rcv_side p.
Proof. unfold tcp_rexmit_fast, tcp_rexmit. upd_cases. Qed.
Lemma rcv_side_dupack p i r : rcv_side (recv_dupack p i r) = rcv_side p.
Proof.
  unfold recv_dupack. destruct (_ && _ && _ && _); [|done]. cbv zeta.
  set (q := if _ <? u8 _ then _ else _).
  assert (rcv_side q = rcv_side p) as <- by (unfold q; upd_cases).
  destruct (3 <? dupacks q); [upd_cases|]. destruct (_ =? 3); [apply rcv_side_fast|done].
Qed.
Lemma rcv_side_rtt p e i : rcv_side (estimate_rtt p e i) = rcv_side p.
Proof. unfold estimate_rtt. by destruct (_ && _). Qed.
Lemma rcv_side_free s p p' : free_acked s p = Ok p' -> rcv_side p' = rcv_side p.
Proof. unfold free_acked. intros H. inv_res. by destruct (_ && _). Qed.
Lemma rcv_side_unacked l : forall k p p', ack_unacked l k p = Ok p' -> rcv_side p' = rcv_side p.
Proof.
  induction l as [|s l IH]; intros k p p' H; simpl in H; [by inv_res|].
  destruct TCP_SEQ_LEQ; [|by inv_res]. apply res_bind_ok in H as (q & H1 & H2).
  rewrite (IH _ _ _ H2). by rewrite (rcv_side_free _ _ _ H1).
Qed.
Lemma rcv_side_unsent l : forall k p p', ack_unsent l k p = Ok p' -> rcv_side p' = rcv_side p.
Proof.
  induction l as [|s l IH]; intros k p p' H; cbn [ack_unsent] in H; [by inv_res|].
  destruct TCP_SEQ_BETWEEN; [|by inv_res]. apply res_bind_ok in H as (q & H1 & H2).
  rewrite (IH _ _ _ H2), (rcv_side_free _ _ _ H1). by destruct bool_decide.
Qed.
Lemma rcv_side_cwnd p p' : grow_cwnd p = Ok p' -> rcv_side p' = rcv_side p.
Proof. unfold grow_cwnd. intros H. repeat case_match; by inv_res. Qed.
Lemma rcv_side_newack p i p' : recv_newack p i = Ok p' -> rcv_side p' = rcv_side p.
Proof.
  unfold recv_newack. intros H. apply res_bind_ok in H as (q1 & H1 & H).
  apply res_bind_ok in H as (q2 & H2 & H). injection H as <-.
  transitivity (rcv_side q2); [done|]. rewrite (rcv_side_unacked _ _ _ _ H2), (rcv_side_cwnd _ _ H1).
  by destruct has_flag.
Qed.
Lemma recv_ack_rcv_side p e i p' : recv_ack p e i = Ok p' -> rcv_side p' = rcv_side p.
Proof.
  unfold recv_ack. intros H. apply res_bind_ok in H as (q1 & H1 & H).
  apply res_bind_ok in H as (q2 & H2 & H). injection H as <-.
  rewrite rcv_side_rtt, (rcv_side_unsent _ _ _ _ H2), <- (rcv_side_wnd p i).
  destruct TCP_SEQ_LEQ; [injection H1 as <-; apply rcv_side_dupack|].
  destruct TCP_SEQ_BETWEEN; [by apply rcv_side_newack in H1|by injection H1 as <-].
Qed.

(** ** Invariant of the send side

    [U]: the first byte of the queues; [A]: acknowledged up to; [N]: sent up
    to; [V]: queued up to. *)
Record snd_ok (U A N V : Z) (p : tcp_pcb) : Prop := {
  so_queue : snd_queue U (unacked p) (unsent p) V;
  so_lastack : lastack p = u32 A;
  so_nxt : snd_nxt p = u32 N;
  so_order : U <= A <= N /\ N <= V;
  so_bound : V - U <= 65535;
  so_clen : snd_queuelen p = sum_clen (unacked p) + sum_clen (unsent p);
  so_mss : 1 <= mss p <= TCP_MSS;
  so_cwnd : 1 <= cwnd p <= 65535;
  so_ssthresh : has_flag (flags p) TF_INFR = true -> 1 <= ssthresh p <= 65535;
  so_first : beyond A U V (unacked p) (unsent p)
}.

(** What removing segments from the queues leaves alone. *)
Definition queue_frame (p : tcp_pcb) : tcp_pcb :=
  p <| unacked := [] |> <| unsent := [] |> <| snd_queuelen := 0 |> <| acked := 0 |> <| unsent_oversize := 0 |>.

Lemma free_acked_spec s p :
  1 <= seg_clen s ->
  snd_queuelen p = seg_clen s + sum_clen (unacked p) + sum_clen (unsent p) ->
  Forall (fun s => 1 <= seg_clen s) (unacked p) -> Forall (fun s => 1 <= seg_clen s) (unsent p) ->
  0 <= acked p ->
  exists p', free_acked s p = Ok p' /\ queue_frame p' = queue_frame p /\ unacked p' = unacked p /\
    unsent p' = unsent p /\ snd_queuelen p' = sum_clen (unacked p) + sum_clen (unsent p) /\
    0 <= acked p' <= acked p.
Proof.
  intros Hc Hq Hu Hv Ha. unfold free_acked.
  pose proof (sum_clen_nonneg _ Hu). pose proof (sum_clen_nonneg _ Hv).
  destruct (Z.leb_spec (seg_clen s) (snd_queuelen p)); [|lia]. cbn [lwip_assert res_bind].
  set (q := if negb (acked p =? 0) && _ then _ else _).
  assert (queue_frame q = queue_frame p /\ unacked q = unacked p /\ unsent q = unsent p /\
    snd_queuelen q = snd_queuelen p /\ 0 <= acked q <= acked p) as (Q1 & Q2 & Q3 & Q4 & Q5).
  { unfold q. destruct (Z.eqb_spec (acked p) 0); simpl; [split_and!; done || lia|].
    destruct (has_flag _ TCP_FIN); simpl; split_and!; done || lia. }
  cbv zeta. rewrite Q4, Hq. replace (seg_clen s + sum_clen (unacked p) + sum_clen (unsent p) - seg_clen s)
    with (sum_clen (unacked p) + sum_clen (unsent p)) by lia.
  set (r := q <| snd_queuelen := _ |>).
  assert ((snd_queuelen r =? 0) || negb (bool_decide (unacked r = [] /\ unsent r = [])) = true) as ->.
  { change (snd_queuelen r) with (sum_clen (unacked p) + sum_clen (unsent p)).
    change (unacked r) with (unacked q). change (unsent r) with (unsent q). rewrite Q2, Q3.
    case_bool_decide as Hb; [destruct Hb as [-> ->]; done|by rewrite orb_true_r]. }
  exists r. change (acked r) with (acked q). split_and!; done || lia.
Qed.

Lemma ack_unacked_spec k l : forall p,
  unacked p = l -> snd_queuelen p = sum_clen l + sum_clen (unsent p) ->
  Forall (fun s => 1 <= seg_clen s) l -> Forall (fun s => 1 <= seg_clen s) (unsent p) -> 0 <= acked p ->
  exists p', ack_unacked l k p = Ok p' /\ queue_frame p' = queue_frame p /\
    unacked p' = drop_while (acked_by k) l /\ unsent p' = unsent p /\
    snd_queuelen p' = sum_clen (unacked p') + sum_clen (unsent p') /\ 0 <= acked p' <= acked p.
Proof.
  induction l as [|s l IH]; intros p Hl Hq Hu Hv Ha; cbn [ack_unacked drop_while].
  { exists p. split_and!; try done; try lia. by rewrite Hl. }
  change (TCP_SEQ_LEQ (seg_seqno s + TCP_TCPLEN s) k) with (acked_by k s).
  destruct (acked_by k s).
  - apply Forall_cons in Hu as [Hs Hu].
    destruct (free_acked_spec s (p <| unacked := l |>)) as (q & F1 & F2 & F3 & F4 & F5 & F6);
      [done| |exact Hu|exact Hv|exact Ha|].
    { change (snd_queuelen p = seg_clen s + sum_clen l + sum_clen (unsent p)). rewrite Hq, sum_clen_cons. lia. }
    rewrite F1. cbn [res_bind]. change (unacked q = l) in F3. change (unsent q = unsent p) in F4.
    change (snd_queuelen q = sum_clen l + sum_clen (unsent p)) in F5. change (0 <= acked q <= acked p) in F6.
    destruct (IH q) as (p' & I1 & I2 & I3 & I4 & I5 & I6); try done; try lia; try congruence.
    exists p'. split_and!; try done; try lia; try congruence.
    rewrite I2, F2. done.
  - exists p. split_and!; try done; try lia. by rewrite Hl.
Qed.

(** The unsent queue loses what is acknowledged when something that was sent
    is. *)
Lemma ack_unsent_spec k K N l : forall p,
  unsent p = l -> k = u32 K -> snd_nxt p = u32 N -> -1073741824 <= K - N <= 1073741824 ->
  snd_queuelen p = sum_clen (unacked p) + sum_clen l ->
  Forall (fun s => 1 <= seg_clen s) l -> Forall (fun s => 1 <= seg_clen s) (unacked p) -> 0 <= acked p ->
  (forall s, s ∈ l -> exists X, seg_pos X s /\ -1073741824 <= X - K <= 1073741824) ->
  exists p', ack_unsent l k p = Ok p' /\ queue_frame p' = queue_frame p /\
    unsent p' = (if K <=? N then drop_while (acked_by k) l else l) /\ unacked p' = unacked p /\
    snd_queuelen p' = sum_clen (unacked p') + sum_clen (unsent p') /\ 0 <= acked p' <= acked p.
Proof.
  induction l as [|s l IH]; intros p Hl Hk HN HKN Hq Hv Hu Ha Hpos; cbn [ack_unsent drop_while].
  { exists p. rewrite Hl. split_and!; try done; try lia. by destruct (K <=? N). }
  destruct (Hpos s) as (X & HX & HXK); [by left|].
  pose proof (seg_pos_tcplen _ _ HX) as Hs1.
  assert (TCP_SEQ_BETWEEN k (seg_seqno s + TCP_TCPLEN s) (snd_nxt p) = acked_by k s && (K <=? N)) as ->.
  { rewrite Hk at 2. rewrite (acked_by_pos K X) by (done || lia).
    rewrite (TCP_SEQ_BETWEEN_pos _ _ _ K (X + TCP_TCPLEN s) N); try done; try lia.
    - rewrite Hk. apply u32_eq32.
    - destruct HX as (-> & _). eq32_solve.
    - rewrite HN. apply u32_eq32. }
  destruct (Z.leb_spec K N) as [HKN'|HKN'].
  2: { rewrite andb_false_r. exists p. rewrite Hl. split_and!; done || lia. }
  rewrite andb_true_r. destruct (acked_by k s).
  - apply Forall_cons in Hv as [Hs Hv].
    set (p1 := if bool_decide (l = []) then _ else _).
    assert (queue_frame p1 = queue_frame p /\ unacked p1 = unacked p /\ unsent p1 = l /\
      snd_queuelen p1 = snd_queuelen p /\ acked p1 = acked p) as (Q1 & Q2 & Q3 & Q4 & Q5)
      by (unfold p1; by destruct bool_decide).
    destruct (free_acked_spec s p1) as (q & F1 & F2 & F3 & F4 & F5 & F6);
      [done| |by rewrite Q2|by rewrite Q3|by rewrite Q5|].
    { rewrite Q2, Q3, Q4, Hq, sum_clen_cons. lia. }
    rewrite F1. cbn [res_bind]. rewrite Q2 in F3, F5. rewrite Q3 in F4, F5. rewrite Q5 in F6.
    destruct (IH q) as (p' & I1 & I2 & I3 & I4 & I5 & I6); try done; try lia; try congruence.
    { assert (snd_nxt (queue_frame q) = snd_nxt (queue_frame p)) as Hn by (by rewrite F2, Q1). by rewrite <- HN. }
    { intros s' Hs'. apply Hpos. by right. }
    exists p'. split_and!; try done; try lia; try congruence.
  - exists p. rewrite Hl. split_and!; done || lia.
Qed.

(** ** Fast retransmission *)
(** Moving the first unacked segment to its place among the unsent ones keeps
    the sequence space covered. *)
Lemma snd_queue_rexmit U s u v V : snd_queue U (s :: u) v V -> V - U <= 1073741823 ->
  snd_queue U u (insert_sorted s v) V.
Proof.
  intros H. remember (s :: u) as w eqn:Ew. revert Ew.
  induction H as [|U x w v V Hs Hq IH|U x w v V Hs Hq IH]; intros Ew HV; [done|..].
  - injection Ew as -> ->. destruct v as [|y v]; cbn [insert_sorted]; [by constructor|].
    destruct (snd_queue_mem _ _ _ _ y Hq) as (Y & HY & HYp); [right; by left|].
    assert (0 < TCP_TCPLEN s) by apply Hs.
    rewrite (TCP_SEQ_LT_pos _ _ Y U).
    2: { destruct HYp as (-> & _). apply u32_eq32. }
    2: { destruct Hs as (-> & _). apply u32_eq32. }
    2: lia.
    destruct (Z.ltb_spec Y U); [lia|]. by constructor.
  - assert (0 < TCP_TCPLEN x) by apply Hs. rewrite Ew in Hq.
    destruct (snd_queue_mem _ _ _ _ s Hq) as (X & HX & HXp); [left; by left|]. cbn [insert_sorted].
    rewrite (TCP_SEQ_LT_pos _ _ U X).
    2: { destruct Hs as (-> & _). apply u32_eq32. }
    2: { destruct HXp as (-> & _). apply u32_eq32. }
    2: lia.
    destruct (Z.ltb_spec U X); [|lia]. constructor; [done|]. apply IH; [done|lia].
Qed.

Lemma sum_clen_insert s l : sum_clen (insert_sorted s l) = seg_clen s + sum_clen l.
Proof.
  induction l as [|x l IH]; cbn [insert_sorted]; [done|]. destruct TCP_SEQ_LT; [|done].
  rewrite !sum_clen_cons, IH. lia.
Qed.

Lemma insert_sorted_mem s x l : x ∈ insert_sorted s l <-> x = s \/ x ∈ l.
Proof.
  induction l as [|y l IH]; cbn [insert_sorted].
  - rewrite !elem_of_cons, elem_of_nil. tauto.
  - destruct TCP_SEQ_LT; rewrite !elem_of_cons; rewrite ?IH; tauto.
Qed.

Lemma rexmit_fast_ok U A N V p : snd_ok U A N V p -> 0 <= ssthresh p -> 0 <= snd_wnd p <= 65535 ->
  snd_ok U A N V (tcp_rexmit_fast p) /\ snd_buf (tcp_rexmit_fast p) = snd_buf p /\
  acked (tcp_rexmit_fast p) = acked p /\ rtime (tcp_rexmit_fast p) = rtime p.
Proof.
  intros H Hss Hw. pose proof H as [Hq Hl Hn Ho Hb Hc Hm Hcw Hs Hf]. unfold TCP_MSS in *.
  unfold tcp_rexmit_fast. destruct (negb _ && _) eqn:E; [|done].
  apply andb_true_iff in E as [E1 _]. apply negb_true_iff, bool_decide_eq_false in E1.
  unfold tcp_rexmit. destruct (unacked p) as [|s u] eqn:Eu; [done|]. cbv zeta.
  set (os := if forallb _ _ then _ else _). cbn [mss snd_wnd cwnd set_field].
  set (half := if snd_wnd p <? cwnd p then snd_wnd p / 2 else cwnd p / 2).
  assert (0 <= half <= 32767) as Hhalf.
  { unfold half. destruct (_ <? _); mlia. }
  split; [|done].
  set (ss := if half <? 2 * mss p then u16 (2 * mss p) else half).
  assert (1 <= ss <= 32767) as Hss'.
  { unfold ss. destruct (Z.ltb_spec half (2 * mss p)); [rewrite u16_id|]; lia. }
  split; simpl; try done.
  - apply snd_queue_rexmit; [done|lia].
  - rewrite Hc, sum_clen_insert, !sum_clen_cons. lia.
  - fold half. fold ss. rewrite u16_id; lia.
  - fold half. fold ss. lia.
  - intros x Hx. apply Hf. rewrite elem_of_cons. rewrite insert_sorted_mem in Hx. tauto.
Qed.

(** ** The window update and duplicate acknowledgements *)
Lemma update_snd_wnd_ok U A N V p i : snd_ok U A N V p -> 0 <= snd_wnd p <= 65535 -> 0 <= in_wnd i <= 65535 ->
  snd_ok U A N V (update_snd_wnd p i) /\ 0 <= snd_wnd (update_snd_wnd p i) <= 65535 /\
  snd_buf (update_snd_wnd p i) = snd_buf p /\ ssthresh (update_snd_wnd p i) = ssthresh p.
Proof.
  intros H Hw Hi. unfold update_snd_wnd. destruct (_ || _ || _); [|done]. cbv zeta.
  set (q := _ <| snd_wl2 := in_ackno i |>).
  assert (snd_ok U A N V q /\ 0 <= snd_wnd q <= 65535 /\ snd_buf q = snd_buf p /\ ssthresh q = ssthresh p)
    as (Hq & Hq1 & Hq2 & Hq3) by (split; [by destruct H; split|done]).
  clearbody q.
  destruct (snd_wnd q =? 0), (persist_backoff q =? 0), (0 <? persist_backoff q);
    (split; [by destruct Hq; split|done]).
Qed.

Lemma recv_dupack_ok U A N V p i r : snd_ok U A N V p -> 0 <= ssthresh p -> 0 <= snd_wnd p <= 65535 ->
  snd_ok U A N V (recv_dupack p i r) /\ snd_buf (recv_dupack p i r) = snd_buf p /\
  acked (recv_dupack p i r) = 0.
Proof.
  intros H Hss Hw. unfold recv_dupack. cbv zeta. set (p0 := p <| acked := 0 |>).
  assert (snd_ok U A N V p0) as H0 by (by destruct H; split).
  destruct (_ && _ && _ && _); [|split; [by destruct H0; split|done]].
  set (q := if _ <? u8 _ then _ else _).
  assert (snd_ok U A N V q /\ 0 <= ssthresh q /\ 0 <= snd_wnd q <= 65535 /\ snd_buf q = snd_buf p /\ acked q = 0)
    as (Hq & Hq1 & Hq2 & Hq3 & Hq4)
    by (unfold q; destruct (dupacks p0 <? _); (split; [by destruct H0; split|done])).
  clearbody q. destruct (3 <? dupacks q).
  - destruct (Z.ltb_spec (cwnd q) (u16 (cwnd q + mss q))); [|done]. split_and!; try done.
    destruct Hq as [? ? ? ? ? ? ? Hcw ? ?]. split; simpl; try done. pose proof (u16_range (cwnd q + mss q)). lia.
  - destruct (dupacks q =? 3); [|done].
    destruct (rexmit_fast_ok _ _ _ _ _ Hq) as (? & ? & ? & ?); try done. split_and!; try done; congruence.
Qed.

(** ** Acknowledgements of new data *)
Lemma grow_cwnd_ok p : 1 <= cwnd p <= 65535 -> exists w, grow_cwnd p = Ok (p <| cwnd := w |>) /\
  cwnd p <= w <= 65535.
Proof.
  intros H. unfold grow_cwnd. assert (p = p <| cwnd := cwnd p |>) as Hp by (by destruct p).
  destruct (4 <=? _); [|exists (cwnd p); split; [by rewrite <- Hp|lia]].
  destruct (cwnd p <? ssthresh p).
  - destruct (Z.ltb_spec (cwnd p) (u16 (cwnd p + mss p))); [|exists (cwnd p); split; [by rewrite <- Hp|lia]].
    eexists. split; [done|]. pose proof (u16_range (cwnd p + mss p)). lia.
  - destruct (Z.eqb_spec (cwnd p) 0); [lia|].
    set (w := u16 _). destruct (Z.ltb_spec (cwnd p) w); [|exists (cwnd p); split; [by rewrite <- Hp|lia]].
    exists w. split; [done|]. pose proof (u16_range (cwnd p + mss p * mss p / cwnd p)). lia.
Qed.

(** The state of the sender after an acknowledgement up to [K]. *)
Definition acked_to (K U : Z) (p p' : tcp_pcb) : Prop :=
  lastack p' = u32 K /\ snd_buf p' = u16 (snd_buf p + (K - U)) /\ nrtx p' = 0 /\ dupacks p' = 0 /\
  unacked p' = drop_while (acked_by (u32 K)) (unacked p) /\
  (rtime p' = -1 <-> unacked p' = []).

Lemma recv_newack_ok U A N V p i K : snd_ok U A N V p -> in_ackno i = u32 K -> A < K <= N ->
  0 <= ssthresh p <= 65535 -> K - A < 65536 ->
  exists p', recv_newack p i = Ok p' /\ acked_to K A p p' /\ unsent p' = unsent p /\
    snd_nxt p' = snd_nxt p /\ mss p' = mss p /\
    snd_queuelen p' = sum_clen (unacked p') + sum_clen (unsent p') /\ 0 <= acked p' <= K - A /\
    1 <= cwnd p' <= 65535 /\ has_flag (flags p') TF_INFR = false.
Proof.
  intros H HK HAK Hss H64. pose proof H as [Hq Hl Hn Ho Hb Hc Hm Hcw Hs Hf].
  destruct (snd_queue_clen _ _ _ _ Hq) as [Hcu Hcv].
  unfold recv_newack. set (p1 := if has_flag (flags p) TF_INFR then _ else _).
  assert (1 <= cwnd p1 <= 65535 /\ has_flag (flags p1) TF_INFR = false /\ snd_buf p1 = snd_buf p /\
    lastack p1 = lastack p /\ snd_nxt p1 = snd_nxt p /\ mss p1 = mss p /\ snd_queuelen p1 = snd_queuelen p /\
    unacked p1 = unacked p /\ unsent p1 = unsent p) as (C1 & C2 & C3 & C4 & C5 & C6 & C7 & C8 & C9).
  { unfold p1. destruct (has_flag (flags p) TF_INFR) eqn:E; simpl; split_and!; try done; try (by apply Hs); try lia.
    unfold clear_flag. rewrite has_flag_land. unfold has_flag. by rewrite Z.land_0_r. }
  clearbody p1. cbv zeta.
  set (p2 := _ <| lastack := in_ackno i |>).
  destruct (grow_cwnd_ok p2) as (w & G1 & G2); [exact C1|]. rewrite G1. cbn [res_bind].
  assert (u16 (in_ackno i - lastack p1) = K - A) as HKA by (rewrite HK, C4, Hl; mlia).
  destruct (ack_unacked_spec (in_ackno i) (unacked p) (p2 <| cwnd := w |>)) as (q & Q1 & Q2 & Q3 & Q4 & Q5 & Q6).
  { exact C8. }
  { change (snd_queuelen p1 = sum_clen (unacked p) + sum_clen (unsent p1)). by rewrite C7, C9. }
  { done. }
  { change (Forall (fun s => 1 <= seg_clen s) (unsent p1)). by rewrite C9. }
  { change (0 <= u16 (in_ackno i - lastack p1)). lia. }
  change (unacked (p2 <| cwnd := w |>)) with (unacked p1). rewrite C8, Q1. cbn [res_bind].
  change (unsent q = unsent p1) in Q4. change (0 <= acked q <= u16 (in_ackno i - lastack p1)) in Q6.
  eexists. split; [reflexivity|].
  assert (forall {B} (f : tcp_pcb -> B), f (queue_frame q) = f (queue_frame (p2 <| cwnd := w |>))) as Qf
    by (intros; by rewrite Q2).
  pose proof (Qf _ lastack) as F1. pose proof (Qf _ snd_buf) as F2. pose proof (Qf _ nrtx) as F3.
  pose proof (Qf _ dupacks) as F4. pose proof (Qf _ snd_nxt) as F5. pose proof (Qf _ mss) as F6.
  pose proof (Qf _ cwnd) as F7. pose proof (Qf _ flags) as F8. simpl in F1, F2, F3, F4, F5, F6, F7, F8.
  rewrite HKA in *. simpl in G2.
  split_and!; try (simpl; congruence); try (simpl; lia).
  - unfold acked_to. simpl. split_and!; try congruence.
    case_bool_decide as Hb'; split; done.
Qed.

Lemma rtt_ok U A N V p e i : snd_ok U A N V p -> snd_ok U A N V (estimate_rtt p e i) /\
  lastack (estimate_rtt p e i) = lastack p /\ snd_buf (estimate_rtt p e i) = snd_buf p /\
  nrtx (estimate_rtt p e i) = nrtx p /\ dupacks (estimate_rtt p e i) = dupacks p /\
  unacked (estimate_rtt p e i) = unacked p /\ unsent (estimate_rtt p e i) = unsent p /\
  rtime (estimate_rtt p e i) = rtime p /\ acked (estimate_rtt p e i) = acked p.
Proof. intros H. unfold estimate_rtt. destruct (_ && _); [split; [by destruct H; split|done]|done]. Qed.

(** Removing nothing: the queues begin beyond [K] or [K] has not been sent. *)
Lemma ack_unsent_none U A N V p K : snd_ok U A N V p -> -1073741824 <= K - A <= 1073741824 ->
  (K <= A \/ N < K) -> ack_unsent (unsent p) (u32 K) p = Ok p.
Proof.
  intros H HK Hcase. pose proof H as [Hq Hl Hn Ho Hb Hc Hm Hcw Hs Hf].
  destruct (unsent p) as [|s v] eqn:Ev; [done|]. cbn [ack_unsent].
  destruct (Hf s) as (X & HX & HXp & HXA); [right; by left|].
  pose proof (seg_pos_tcplen _ _ HXp) as Hts.
  rewrite (TCP_SEQ_BETWEEN_pos _ _ _ K (X + TCP_TCPLEN s) N).
  2: apply u32_eq32.
  2: { destruct HXp as (-> & _). eq32_solve. }
  2: { rewrite Hn. apply u32_eq32. }
  2-3: lia.
  destruct (Z.leb_spec (X + TCP_TCPLEN s) K), (Z.leb_spec K N); done || lia.
Qed.

(** [K] acknowledges new data. *)
Lemma recv_ack_new U A N V p e i K : snd_ok U A N V p -> in_ackno i = u32 K -> A < K <= N ->
  0 <= ssthresh p <= 65535 -> 0 <= snd_wnd p <= 65535 -> 0 <= in_wnd i <= 65535 ->
  exists p' U', recv_ack p e i = Ok p' /\ U <= U' <= K /\ snd_ok U' K N V p' /\ acked_to K A p p' /\
    unsent p' = drop_while (acked_by (u32 K)) (unsent p) /\ 0 <= acked p' <= K - A.
Proof.
  intros H HK HAK Hss Hw Hi.
  destruct (update_snd_wnd_ok U A N V p i H Hw Hi) as (H1 & Hw1 & Hb1 & Hs1). unfold recv_ack. cbv zeta.
  assert (unacked (update_snd_wnd p i) = unacked p /\ unsent (update_snd_wnd p i) = unsent p) as [Hun1 Hun2]
    by (unfold update_snd_wnd; split; upd_cases).
  set (p1 := update_snd_wnd p i) in *. clearbody p1.
  pose proof H1 as [Hq Hl Hn Ho Hb Hc Hm Hcw Hs Hf].
  rewrite (TCP_SEQ_LEQ_pos _ _ K A); [|rewrite HK; apply u32_eq32|rewrite Hl; apply u32_eq32|lia].
  destruct (Z.leb_spec K A); [lia|].
  rewrite (TCP_SEQ_BETWEEN_pos _ _ _ K (A + 1) N);
    [|rewrite HK; apply u32_eq32|rewrite Hl; eq32_solve|rewrite Hn; apply u32_eq32|lia|lia].
  destruct (Z.leb_spec (A + 1) K), (Z.leb_spec K N); try lia. cbn [andb].
  destruct (recv_newack_ok U A N V p1 i K) as (p2 & E2 & Hto & T1 & T2 & T3 & T4 & T5 & T6 & T7); try done; try lia.
  rewrite E2. cbn [res_bind]. destruct Hto as (A1 & A2 & A3 & A4 & A5 & A6).
  destruct (snd_queue_clen _ _ _ _ Hq) as [Hcu Hcv].
  destruct (snd_queue_ack K U _ _ V Hq) as (U' & HU' & Hq' & Hbey); [lia|lia|].
  destruct (ack_unsent_spec (u32 K) K N (unsent p2) p2) as (p3 & E3 & F1 & F2 & F3 & F4 & F5); try done; try lia.
  { congruence. }
  { rewrite A5. apply (snd_queue_clen _ _ _ _ Hq'). }
  { rewrite T1. intros s Hin. destruct (snd_queue_mem _ _ _ _ s Hq) as (X & HX & HXp); [by right|].
    exists X. split; [done|lia]. }
  rewrite HK, E3. cbn [res_bind].
  destruct (Z.leb_spec K N); [|lia]. rewrite T1 in F2. rewrite A5 in F3.
  assert (forall {B} (f : tcp_pcb -> B), f (queue_frame p3) = f (queue_frame p2)) as Qf
    by (intros; by rewrite F1).
  pose proof (Qf _ lastack) as G1. pose proof (Qf _ snd_buf) as G2. pose proof (Qf _ nrtx) as G3.
  pose proof (Qf _ dupacks) as G4. pose proof (Qf _ snd_nxt) as G5. pose proof (Qf _ mss) as G6.
  pose proof (Qf _ cwnd) as G7. pose proof (Qf _ flags) as G8. pose proof (Qf _ rtime) as G9.
  simpl in G1, G2, G3, G4, G5, G6, G7, G8, G9.
  assert (snd_ok U' K N V p3) as Hok.
  { split; try congruence; try lia.
    - by rewrite F2, F3.
  }
  destruct (rtt_ok U' K N V p3 e i Hok) as (R0 & R1 & R2 & R3 & R4 & R5 & R6 & R7 & R8).
  exists (estimate_rtt p3 e i), U'. split; [done|]. split; [lia|]. split; [done|].
  unfold acked_to. rewrite R1, R2, R3, R4, R5, R6, R7, R8, G1, G2, G3, G4, G9, F2, F3, A1, A2, A3, A4, Hb1, Hun1, Hun2.
  split_and!; try done; try lia. rewrite A5, Hun1 in A6. done.
Qed.

(** [K] acknowledges nothing new, or what was not sent. *)
Lemma recv_ack_old U A N V p e i K : snd_ok U A N V p -> in_ackno i = u32 K ->
  -1073741824 <= K - A <= 1073741824 -> (K <= A \/ N < K) ->
  0 <= ssthresh p <= 65535 -> 0 <= snd_wnd p <= 65535 -> 0 <= in_wnd i <= 65535 ->
  exists p', recv_ack p e i = Ok p' /\ snd_ok U A N V p' /\ snd_buf p' = snd_buf p /\
    lastack p' = lastack p /\ acked p' = 0.
Proof.
  intros H HK HKA Hcase Hss Hw Hi.
  destruct (update_snd_wnd_ok U A N V p i H Hw Hi) as (H1 & Hw1 & Hb1 & Hs1). unfold recv_ack. cbv zeta.
  assert (lastack p = u32 A) as Hla by apply H.
  set (p1 := update_snd_wnd p i) in *. clearbody p1.
  pose proof H1 as [_ Hl Hn Ho Hb _ _ _ _ _].
  rewrite (TCP_SEQ_LEQ_pos _ _ K A); [|rewrite HK; apply u32_eq32|rewrite Hl; apply u32_eq32|lia].
  rewrite (TCP_SEQ_BETWEEN_pos _ _ _ K (A + 1) N);
    [|rewrite HK; apply u32_eq32|rewrite Hl; eq32_solve|rewrite Hn; apply u32_eq32|lia|lia].
  set (p2 := if K <=? A then _ else _).
  assert (exists q, p2 = Ok q /\ snd_ok U A N V q /\ snd_buf q = snd_buf p1 /\ acked q = 0) as (q & -> & Hq & Hqb & Hqa).
  { unfold p2. destruct (Z.leb_spec K A).
    - eexists. split; [done|]. apply recv_dupack_ok; done || lia.
    - destruct (Z.leb_spec (A + 1) K), (Z.leb_spec K N); try lia; cbn [andb]; eexists; (split; [done|]);
        (split; [by destruct H1; split|done]). }
  cbn [res_bind]. rewrite HK, (ack_unsent_none U A N V q K) by done. cbn [res_bind].
  destruct (rtt_ok U A N V q e i Hq) as (R0 & R1 & R2 & R3 & R4 & R5 & R6 & R7 & R8).
  exists (estimate_rtt q e i). rewrite R1, R2, R8. split_and!; try done; [congruence|]. rewrite Hla. apply Hq.
Qed.

(** C5. The ACK part of [tcp_receive] on send queues that cover the sequence
    space [U, V), acknowledged to [A] and sent up to [N]: an acknowledgement
    [K] of new data ([A < K <= N]) removes from both queues exactly the leading
    segments that end at or before [K], gives the send buffer the [K - A]
    bytes back, resets the retransmission counts, and stops the timer exactly
    when nothing is left in flight; any other acknowledgement removes nothing
    and moves neither [lastack] nor the send buffer. In all cases no assertion
    fails, nothing on the receive side changes, and the invariant of the queues
    (also after a fast retransmission, which moves a segment between them)
    holds again. *)
Theorem recv_ack_correct (U A N V K : Z) (p : tcp_pcb) (e : tcp_env) (i : tcp_in) :
  snd_ok U A N V p -> in_ackno i = u32 K -> -1073741824 <= K - A <= 1073741824 ->
  0 <= ssthresh p <= 65535 -> 0 <= snd_wnd p <= 65535 -> 0 <= in_wnd i <= 65535 ->
  exists p', recv_ack p e i = Ok p' /\ rcv_side p' = rcv_side p /\
    if decide (A < K <= N) then
      exists U', U <= U' <= K /\ snd_ok U' K N V p' /\ acked_to K A p p' /\
        unsent p' = drop_while (acked_by (u32 K)) (unsent p) /\ 0 <= acked p' <= K - A
    else snd_ok U A N V p' /\ snd_buf p' = snd_buf p /\ lastack p' = lastack p /\ acked p' = 0.
Proof.
  intros H HK HKA Hss Hw Hi. destruct (decide (A < K <= N)) as [Hn|Hn].
  - destruct (recv_ack_new U A N V p e i K) as (p' & U' & E & Hr); try done.
    exists p'. split; [done|]. split; [by eapply recv_ack_rcv_side|by exists U'].
  - destruct (recv_ack_old U A N V p e i K) as (p' & E & Hr); try done; [lia|].
    exists p'. split; [done|]. split; [by eapply recv_ack_rcv_side|done].
Qed.

(** A sender with one full segment unacked and one unsent. *)
Definition demo_seg (seqno : Z) (n : nat) : tcp_seg := mk_seg (u32 seqno) TCP_ACK (Z.of_nat n) 0 (repeat 7 n) 1.
Definition demo_sender : tcp_pcb :=
  zero_pcb <| state := ESTABLISHED |> <| unacked := [demo_seg 4294967290 100] |>
    <| unsent := [demo_seg 4294967390 50] |> <| lastack := u32 4294967290 |> <| snd_nxt := u32 4294967390 |>
    <| snd_queuelen := 2 |> <| mss := 536 |> <| cwnd := 1072 |> <| ssthresh := 4096 |> <| snd_wnd := 4096 |>
    <| snd_buf := 1898 |>.
Definition demo_env : tcp_env := mk_env 10 [] None true [] [].
Definition demo_in (seqno ackno flags : Z) (data : list Z) : tcp_in :=
  mk_in 1 2 80 4000 4096 5 [] flags (u32 seqno) (u32 ackno)
    (zlen data + if has_flag flags SYN_FIN then 1 else 0)
    (mk_seg (u32 seqno) flags (zlen data) 0 data 1) true None 0.

Lemma demo_sender_ok : snd_ok 4294967290 4294967290 4294967390 4294967440 demo_sender.
Proof.
  assert (seg_pos 4294967290 (demo_seg 4294967290 100)) as H1 by (split_and!; vm_compute; done).
  assert (seg_pos 4294967390 (demo_seg 4294967390 50)) as H2 by (split_and!; vm_compute; done).
  assert (snd_queue 4294967290 (unacked demo_sender) (unsent demo_sender) 4294967440) as Hq.
  { apply sq_unacked; [done|]. apply sq_unsent; [done|]. apply (sq_nil 4294967440). }
  split; [done|reflexivity|reflexivity|lia|lia|reflexivity|by split|by split|done|].
  eapply (beyond_cons 4294967290 4294967290 (demo_seg 4294967290 100)); [done| |vm_compute; reflexivity].
  apply sq_unsent; [done|apply sq_nil].
Qed.

Lemma recv_ack_correct_witness :
  exists p', recv_ack demo_sender demo_env (demo_in 5000 4294967390 TCP_ACK []) = Ok p' /\
    unacked p' = [] /\ snd_buf p' = 1998.
Proof.
  destruct (recv_ack_correct 4294967290 4294967290 4294967390 4294967440 4294967390 demo_sender demo_env
    (demo_in 5000 4294967390 TCP_ACK []) demo_sender_ok eq_refl) as (p' & E & _ & H);
    try (vm_compute; split; discriminate).
  exists p'. split; [done|]. rewrite decide_True in H by lia.
  destruct H as (U' & _ & _ & (_ & Hb & _ & _ & Hu & _) & _). split; [by rewrite Hu|by rewrite Hb].
Defined.
