(* ===== verification/TcpSend.v ===== *)
(** * TCP sends its queue

    [tcp_output] sends a prefix of the unsent queue, in order and within the
    window, and moves it to the unacked queue; [tcp_write] appends the bytes of
    the application to the unsent queue, or nothing. Both keep the invariant
    [snd_ok] of TcpAck.v. *)
From S2P Require Import Prelude ByteOrder IpAddr Ip Tcp TcpOut TcpIn TcpStream TcpAck.

(** Take apart equal results without unfolding what they hold. *)
Lemma Ok2_inj {A B} (a a' : A) (b b' : B) : Ok (a, b) = Ok (a', b') -> a = a' /\ b = b'.
Proof. by intros [=]. Qed.
Lemma Ok3_inj {A B C} (a a' : A) (b b' : B) (c c' : C) :
  Ok (a, b, c) = Ok (a', b', c') -> a = a' /\ b = b' /\ c = c'.
Proof. by intros [=]. Qed.

(** ** What sending leaves alone *)
Definition output_frame (p : tcp_pcb) : tcp_pcb :=
  p <| unsent := [] |> <| unacked := [] |> <| flags := 0 |> <| rtime := 0 |> <| rttest := 0 |>
    <| rtseq := 0 |> <| snd_nxt := 0 |> <| local_ip := 0 |> <| rcv_ann_right_edge := 0 |>
    <| unsent_oversize := 0 |>.

(** A field of two control blocks with the same frame. *)
Ltac frame_eq H f :=
  let E := fresh "E" f in
  lazymatch type of H with output_frame ?a = output_frame ?b => assert (f a = f b) as E by exact (f_equal f H) end.

(** The right edge announced to the peer: what it was, or the current one. *)
Definition edge_moved (p p' : tcp_pcb) : Prop :=
  rcv_ann_right_edge p' = rcv_ann_right_edge p \/
  rcv_ann_right_edge p' = u32 (rcv_nxt p + rcv_ann_wnd p).

(** The flags sending keeps. *)
Definition kept_flags : list Z := [TF_INFR; TF_RXCLOSED; TF_FIN; TF_NODELAY].
Definition same_flags (p p' : tcp_pcb) : Prop :=
  forall f, f ∈ kept_flags -> has_flag (flags p') f = has_flag (flags p) f.

Record out_frame (p p' : tcp_pcb) : Prop := {
  of_frame : output_frame p' = output_frame p;
  of_edge : edge_moved p p';
  of_flags : same_flags p p'
}.

#[export] Instance out_frame_preorder : PreOrder out_frame.
Proof.
  split.
  - intros p. split; [done|by left|by intros f].
  - intros p q r [F1 G1 H1] [F2 G2 H2]. split; [congruence| |intros f Hf; by rewrite H2, H1].
    unfold edge_moved in *. frame_eq F1 rcv_nxt. frame_eq F1 rcv_ann_wnd.
    destruct G2 as [->| ->]; [done|]. rewrite Ercv_nxt, Ercv_ann_wnd. by right.
Qed.

Lemma kept_clear x m f : f ∈ kept_flags -> m ∈ [Z.lor TF_ACK_DELAY TF_ACK_NOW; TF_NAGLEMEMERR] ->
  has_flag (clear_flag x m) f = has_flag x f.
Proof.
  unfold kept_flags. rewrite !elem_of_cons, !elem_of_nil. intros Hf Hm.
  unfold clear_flag. rewrite has_flag_land. f_equal.
  destruct Hf as [->|[->|[->|[->|[]]]]], Hm as [->|[->|[]]]; reflexivity.
Qed.

Lemma kept_nagle x m : m ∈ [Z.lor TF_ACK_DELAY TF_ACK_NOW; TF_NAGLEMEMERR] ->
  has_flag (clear_flag x m) (Z.lor TF_NODELAY TF_INFR) = has_flag x (Z.lor TF_NODELAY TF_INFR).
Proof.
  intros Hm. rewrite !has_flag_lor, !(kept_clear x m) by (done || (unfold kept_flags; rewrite !elem_of_cons; tauto)). done.
Qed.

Lemma of_state p p' : out_frame p p' -> state p' = state p.
Proof. intros [H _ _]. frame_eq H state. exact Estate. Qed.

(** ** Packets of segments *)

(** The packet [k] carries the segment [s] of the connection [p]. *)
Definition carries (p : tcp_pcb) (s : tcp_seg) (k : tcp_packet) : Prop :=
  pk_seqno k = seg_seqno s /\ pk_data k = seg_data s /\ pk_flags k = seg_hflags s /\
  pk_ackno k = rcv_nxt p /\ pk_wnd k = rcv_ann_wnd p /\
  pk_dst_ip k = remote_ip p /\ pk_src k = local_port p /\ pk_dest k = remote_port p.

(** The segment as it is sent. *)
Definition as_sent (p : tcp_pcb) (s : tcp_seg) : tcp_seg :=
  if state_is (state p) SYN_SENT then s else set_hflag TCP_ACK s.

(** There is an address to send from. *)
Definition can_route (p : tcp_pcb) (e : tcp_env) : bool :=
  negb (local_ip p =? IPADDR_ANY) || bool_decide (is_Some (env_route e (remote_ip p))).

Lemma can_route_some p e n : env_route e (remote_ip p) = Some n -> can_route p e = true.
Proof. intros H. unfold can_route. rewrite H, (bool_decide_true (is_Some (Some n))) by done. apply orb_true_r. Qed.
Lemma can_route_none p e : local_ip p = IPADDR_ANY -> env_route e (remote_ip p) = None -> can_route p e = false.
Proof. intros H1 H2. unfold can_route. by rewrite H1, H2, (bool_decide_false (is_Some None)) by (by intros [? ?]). Qed.
Lemma can_route_addr p e : local_ip p <> IPADDR_ANY -> can_route p e = true.
Proof. intros H. unfold can_route. by rewrite (proj2 (Z.eqb_neq _ _) H). Qed.

Lemma output_segment_spec s p e : exists p' e', tcp_output_segment s p e = (p', e') /\
  output_frame p' = output_frame p /\ flags p' = flags p /\ unsent p' = unsent p /\
  unacked p' = unacked p /\ snd_nxt p' = snd_nxt p /\ unsent_oversize p' = unsent_oversize p /\
  rcv_ann_right_edge p' = u32 (rcv_nxt p + rcv_ann_wnd p) /\
  rtime p' = (if rtime p =? -1 then 0 else rtime p) /\ can_route p' e' = can_route p e /\
  exists ks, e' = e <| outs := outs e ++ ks |> /\
    if can_route p e then exists k, ks = [k] /\ carries p s k else ks = [].
Proof.
  unfold tcp_output_segment. cbv zeta. change (local_ip (_ <| rtime := _ |>)) with (local_ip p).
  change (remote_ip (_ <| rtime := _ |>)) with (remote_ip p).
  assert (e = e <| outs := outs e ++ [] |>) as He by (destruct e; cbn; by rewrite app_nil_r).
  destruct (Z.eqb_spec (local_ip p) IPADDR_ANY) as [Ha|Ha].
  - destruct (env_route e (remote_ip p)) as [n|] eqn:Er.
    + rewrite (can_route_some p e n Er).
      destruct (rttest _ =? 0); (eexists _, _; split; [reflexivity|]); split_and!; try done;
        try (eapply can_route_some; exact Er); (eexists; split; [reflexivity|]); by eexists.
    + eexists _, _. split; [reflexivity|]. rewrite (can_route_none p e) by done.
      split_and!; try done; [|by exists []]. by apply can_route_none.
  - rewrite (can_route_addr p e Ha).
    destruct (rttest _ =? 0); (eexists _, _; split; [reflexivity|]); split_and!; try done;
      try (by apply can_route_addr); (eexists; split; [reflexivity|]); by eexists.
Qed.

(** ** Moving a segment to the unacked queue *)
Lemma insert_sorted_last s l : (forall c, c ∈ l -> TCP_SEQ_LT (seg_seqno c) (seg_seqno s) = true) ->
  insert_sorted s l = l ++ [s].
Proof.
  induction l as [|c l IH]; intros H; [done|]. cbn [insert_sorted]. rewrite (H c) by (by left).
  cbn [app]. f_equal. apply IH. intros x Hx. apply H. by right.
Qed.

(** Two segments that differ only in flags that do not count. *)
Definition same_place (s s' : tcp_seg) : Prop :=
  seg_seqno s' = seg_seqno s /\ seg_len s' = seg_len s /\ TCP_TCPLEN s' = TCP_TCPLEN s /\
  seg_clen s' = seg_clen s.
Lemma same_place_pos s s' U : same_place s s' -> seg_pos U s -> seg_pos U s'.
Proof. intros (H1 & H2 & H3 & H4) (G1 & G2 & G3 & G4). unfold seg_pos. by rewrite H1, H2, H3, H4. Qed.

Lemma as_sent_place p s : same_place s (as_sent p s).
Proof.
  unfold as_sent. destruct state_is; [done|]. split_and!; try done.
  unfold TCP_TCPLEN, set_hflag. cbn. rewrite has_flag_lor_l.
  by destruct (has_flag (seg_hflags s) _).
Qed.

(** Positions decide the comparisons of queued segments. *)
Lemma seg_lt X Y x y : seg_pos X x -> seg_pos Y y -> -1073741824 <= X - Y <= 1073741824 ->
  TCP_SEQ_LT (seg_seqno x) (seg_seqno y) = (X <? Y).
Proof.
  intros (Hx & _) (Hy & _) H. apply TCP_SEQ_LT_pos; [rewrite Hx|rewrite Hy|lia]; apply u32_eq32.
Qed.

Lemma snd_queue_put U u s s' v V : snd_queue U u (s :: v) V -> V - U <= 1073741823 -> same_place s s' ->
  snd_queue U (insert_sorted s' u) v V.
Proof.
  intros H. remember (s :: v) as w eqn:Ew. revert Ew.
  induction H as [|U x u w V Hs Hq IH|U x u w V Hs Hq IH]; intros Ew HV Hss; [done|..].
  - assert (0 < TCP_TCPLEN x) by apply Hs. rewrite Ew in Hq.
    destruct (snd_queue_mem _ _ _ _ s Hq) as (X & HX & HXp); [right; by left|].
    cbn [insert_sorted]. rewrite (seg_lt U X) by (try done; try (by eapply same_place_pos); lia).
    destruct (Z.ltb_spec U X); [|lia]. constructor; [done|]. apply IH; [done|lia|done].
  - injection Ew as -> ->. assert (seg_pos U s') as Hs' by (by eapply same_place_pos).
    assert (TCP_TCPLEN s' = TCP_TCPLEN s) as Ht by apply Hss.
    destruct u as [|y u]; cbn [insert_sorted]; [constructor; [done|by rewrite Ht]|].
    destruct (snd_queue_mem _ _ _ _ y Hq) as (Y & HY & HYp); [left; by left|].
    assert (0 < TCP_TCPLEN s) by apply Hs. rewrite (seg_lt Y U) by (done || lia).
    destruct (Z.ltb_spec Y U); [lia|]. constructor; [done|by rewrite Ht].
Qed.

(** In a queue the last unacked segment has the highest position. *)
Lemma snd_queue_last U u v V z : snd_queue U u v V -> last u = Some z ->
  exists Z0, U <= Z0 < V /\ seg_pos Z0 z /\
    forall c, c ∈ u -> exists X, U <= X <= Z0 /\ seg_pos X c.
Proof.
  induction 1 as [|U x u v V Hs Hq IH|U x u v V Hs Hq IH]; intros Hl; [done|..];
    assert (0 < TCP_TCPLEN x) by apply Hs; pose proof (snd_queue_le _ _ _ _ Hq).
  - destruct u as [|y u].
    + injection Hl as <-. exists U. split_and!; [lia|lia|done|]. intros c Hc. apply list_elem_of_singleton in Hc as ->.
      exists U. split; [lia|done].
    + destruct IH as (Z0 & H1 & H2 & H3); [done|]. exists Z0. split_and!; [lia|lia|done|].
      intros c Hc. apply elem_of_cons in Hc as [->|Hc]; [exists U; split; [lia|done]|].
      destruct (H3 c Hc) as (X & ? & ?). exists X. split; [lia|done].
  - destruct IH as (Z0 & H1 & H2 & H3); [done|]. exists Z0. split_and!; [lia|lia|done|].
    intros c Hc. destruct (H3 c Hc) as (X & ? & ?). exists X. split; [lia|done].
Qed.

Lemma seg_pos_inj X Y s : seg_pos X s -> seg_pos Y s -> -4294967296 < X - Y < 4294967296 -> X = Y.
Proof. intros (H1 & _) (H2 & _) H. rewrite H1 in H2. mlia. Qed.

Lemma snd_queue_apart U u s v V c : snd_queue U u (s :: v) V -> c ∈ u ->
  exists X Y, U <= X < V /\ U <= Y < V /\ seg_pos X c /\ seg_pos Y s /\ X <> Y.
Proof.
  intros H. remember (s :: v) as w eqn:Ew. revert Ew.
  induction H as [|U x u w V Hs Hq IH|U x u w V Hs Hq IH]; intros Ew Hc; [done|..];
    assert (0 < TCP_TCPLEN x) by apply Hs; pose proof (snd_queue_le _ _ _ _ Hq).
  - apply elem_of_cons in Hc as [->|Hc].
    + rewrite Ew in Hq. destruct (snd_queue_mem _ _ _ _ s Hq) as (Y & HY & HYp); [right; by left|].
      exists U, Y. split_and!; done || lia.
    + destruct (IH Ew Hc) as (X & Y & ? & ? & ? & ? & ?). exists X, Y. split_and!; done || lia.
  - injection Ew as -> ->. destruct (snd_queue_mem _ _ _ _ c Hq) as (X & HX & HXp); [by left|].
    exists X, U. split_and!; done || lia.
Qed.

(** The short cut of [tcp_output] for the common case is the sorted insertion. *)
Lemma put_unacked_sorted U u s s' v V : snd_queue U u (s :: v) V -> V - U <= 1073741823 -> same_place s s' ->
  put_unacked s' u = insert_sorted s' u.
Proof.
  intros Hq HV Hss. unfold put_unacked. destruct (last u) as [z|] eqn:El.
  - destruct (snd_queue_last _ _ _ _ _ Hq El) as (Z0 & HZ & Hz & Hall).
    destruct (snd_queue_mem _ _ _ _ s Hq) as (X & HX & HXp); [right; by left|].
    assert (seg_pos X s') as HX' by (by eapply same_place_pos).
    rewrite (seg_lt X Z0) by (done || lia). destruct (Z.ltb_spec X Z0); [done|].
    rewrite insert_sorted_last; [done|]. intros c Hc. destruct (Hall c Hc) as (Y & HY & HYp).
    rewrite (seg_lt Y X) by (done || lia). apply Z.ltb_lt.
    destruct (snd_queue_apart _ _ _ _ _ c Hq Hc) as (Y' & X2 & ? & ? & HY' & HX2 & Hne).
    assert (Y' = Y) as -> by (eapply seg_pos_inj; done || lia).
    assert (X2 = X) as -> by (eapply seg_pos_inj; done || lia). lia.
  - apply last_None in El as ->. done.
Qed.

(** Every segment of the queues ends within them. *)
Lemma snd_queue_end U u v V s X : snd_queue U u v V -> (s ∈ u \/ s ∈ v) -> seg_pos X s ->
  U <= X < V -> V - U < 4294967296 -> X + TCP_TCPLEN s <= V.
Proof.
  induction 1 as [|U x u v V Hs Hq IH|U x u v V Hs Hq IH]; intros Hin HX HXV HV;
    [destruct Hin as [H|H]; by apply elem_of_nil in H|..];
    assert (0 < TCP_TCPLEN x) by apply Hs; pose proof (snd_queue_le _ _ _ _ Hq); rewrite elem_of_cons in Hin;
    (assert (s = x \/ (s ∈ u \/ s ∈ v)) as [->|Hin'] by tauto;
     [assert (X = U) as -> by (eapply seg_pos_inj; [done..|lia]); lia|]);
    (destruct (snd_queue_mem _ _ _ _ s Hq Hin') as (Y & HY & HYp);
     assert (Y = X) as -> by (eapply seg_pos_inj; [done..|lia]); apply IH; done || lia).
Qed.

(** ** tcp_output *)

(** The packets of the sent segments, in order; none when there is no route. *)
Definition packets_of (p : tcp_pcb) (e : tcp_env) (sent : list tcp_seg) (ks : list tcp_packet) : Prop :=
  if can_route p e then Forall2 (fun s k => carries p (as_sent p s) k) sent ks else ks = [].

Lemma carries_frame p p' s k : output_frame p' = output_frame p -> carries p' s k -> carries p s k.
Proof.
  intros H (H1 & H2 & H3 & H4 & H5 & H6 & H7 & H8).
  frame_eq H rcv_nxt. frame_eq H rcv_ann_wnd. frame_eq H remote_ip. frame_eq H local_port. frame_eq H remote_port.
 change (rcv_nxt p' = rcv_nxt p) in Ercv_nxt.
  change (rcv_ann_wnd p' = rcv_ann_wnd p) in Ercv_ann_wnd. change (remote_ip p' = remote_ip p) in Eremote_ip.
  change (local_port p' = local_port p) in Elocal_port. change (remote_port p' = remote_port p) in Eremote_port.
  unfold carries. by rewrite <- Ercv_nxt, <- Ercv_ann_wnd, <- Eremote_ip, <- Elocal_port, <- Eremote_port.
Qed.
Lemma as_sent_frame p p' s : output_frame p' = output_frame p -> as_sent p' s = as_sent p s.
Proof. intros H. frame_eq H state. change (state p' = state p) in Estate. unfold as_sent. by rewrite Estate. Qed.

Lemma output_one_ok U A N V p e s rest X :
  snd_ok U A N V p -> unsent p = s :: rest -> seg_pos X s -> U <= X < V ->
  exists p' e' ks, output_one s rest p e = (p', e') /\ out_frame p p' /\
    snd_ok U A (Z.max N (X + TCP_TCPLEN s)) V p' /\ unsent p' = rest /\
    unacked p' = insert_sorted (as_sent p s) (unacked p) /\
    e' = e <| outs := outs e ++ ks |> /\ packets_of p e [s] ks /\ can_route p' e' = can_route p e.
Proof.
  intros H Hun HX HXV. pose proof H as [Hq Hl Hn Ho Hb Hc Hm Hcw Hs Hf]. rewrite Hun in *.
  pose proof (seg_pos_tcplen _ _ HX) as Htl. unfold output_one.
  set (p1 := p <| unsent := rest |>).
  set (p2 := p1 <| flags := clear_flag (flags p1) (Z.lor TF_ACK_DELAY TF_ACK_NOW) |>).
  assert ((if state_is (state p1) SYN_SENT then (s, p1) else (set_hflag TCP_ACK s, p2)) =
    (as_sent p s, if state_is (state p) SYN_SENT then p1 else p2)) as ->
    by (unfold as_sent; change (state p1) with (state p); by destruct state_is).
  set (q := if state_is (state p) SYN_SENT then p1 else p2).
  assert (output_frame q = output_frame p /\ same_flags p q /\ unsent q = rest /\ unacked q = unacked p /\
    snd_nxt q = snd_nxt p /\ rcv_ann_right_edge q = rcv_ann_right_edge p /\ can_route q e = can_route p e)
    as (Q1 & Q2 & Q3 & Q4 & Q5 & Q6 & Q7).
  { unfold q. destruct state_is; split_and!; try done.
    intros f Hf'. apply kept_clear; [done|by left]. }
  clearbody q. clear p1 p2. pose proof (as_sent_place p s) as Hpl. set (s' := as_sent p s) in *.
  destruct (output_segment_spec s' q e) as (q2 & e2 & -> & S1 & S2 & S3 & S4 & S5 & S6 & S7 & S8 & S9 & ks & S10 & S11).
  assert (TCP_TCPLEN s' = TCP_TCPLEN s) as Ht by apply Hpl. assert (seg_seqno s' = seg_seqno s) as Hsq by apply Hpl.
  rewrite Ht, Hsq. destruct (Z.ltb_spec 0 (TCP_TCPLEN s)); [|lia].
  set (q3 := if TCP_SEQ_LT (snd_nxt q2) _ then _ else _).
  assert (output_frame q3 = output_frame p /\ flags q3 = flags q /\ unsent q3 = rest /\ unacked q3 = unacked p /\
    rcv_ann_right_edge q3 = u32 (rcv_nxt q + rcv_ann_wnd q) /\ snd_nxt q3 = u32 (Z.max N (X + TCP_TCPLEN s)) /\
    can_route q3 e2 = can_route q2 e2) as (R1 & R2 & R3 & R4 & R5 & R6 & R7).
  { destruct HX as (HXs & _). assert (u32 (seg_seqno s + TCP_TCPLEN s) = u32 (X + TCP_TCPLEN s)) as Hnx
      by (rewrite HXs; apply u32_add_l).
    unfold q3. rewrite Hnx. rewrite (TCP_SEQ_LT_pos _ _ N (X + TCP_TCPLEN s));
      [|rewrite S5, Q5, Hn; apply u32_eq32|apply u32_eq32|lia].
    set (r := q2 <| snd_nxt := u32 (X + TCP_TCPLEN s) |>).
    assert (output_frame r = output_frame q2 /\ flags r = flags q2 /\ unsent r = unsent q2 /\ unacked r = unacked q2 /\
      rcv_ann_right_edge r = rcv_ann_right_edge q2 /\ snd_nxt r = u32 (X + TCP_TCPLEN s) /\
      can_route r e2 = can_route q2 e2) as (W1 & W2 & W3 & W4 & W5 & W6 & W7) by done.
    clearbody r.
    destruct (Z.ltb_spec N (X + TCP_TCPLEN s)); [rewrite Z.max_r by lia|rewrite Z.max_l by lia];
      split_and!; try done; congruence. }
  clearbody q3. exists (q3 <| unacked := put_unacked s' (unacked q3) |>), e2, ks.
  assert (put_unacked s' (unacked q3) = insert_sorted s' (unacked p)) as Hput.
  { rewrite R4. eapply put_unacked_sorted; [exact Hq|lia|done]. }
  rewrite Hput. split; [done|].
  assert (snd_queue U (insert_sorted s' (unacked p)) rest V) as Hq' by (eapply snd_queue_put; [exact Hq|lia|done]).
  frame_eq R1 lastack. frame_eq R1 snd_queuelen. frame_eq R1 mss. frame_eq R1 cwnd. frame_eq R1 ssthresh.
  split_and!; try done; try congruence.
  - split; [exact R1| |].
    + right. change (rcv_ann_right_edge q3 = u32 (rcv_nxt p + rcv_ann_wnd p)). rewrite R5.
      frame_eq Q1 rcv_nxt. frame_eq Q1 rcv_ann_wnd. congruence.
    + intros f Hf'. change (flags (q3 <| unacked := insert_sorted s' (unacked p) |>)) with (flags q3).
      rewrite R2. by apply Q2.
  - split.
    + change (unsent (q3 <| unacked := insert_sorted s' (unacked p) |>)) with (unsent q3).
      rewrite R3. exact Hq'.
    + change (lastack q3 = u32 A). congruence.
    + exact R6.
    + split; [lia|]. enough (X + TCP_TCPLEN s <= V) by lia. eapply snd_queue_end; [exact Hq|by right; left|done|lia|lia].
    + done.
    + change (snd_queuelen q3 = sum_clen (insert_sorted s' (unacked p)) + sum_clen (unsent q3)).
      rewrite sum_clen_insert, R3, Esnd_queuelen, Hc, sum_clen_cons. assert (seg_clen s' = seg_clen s) by apply Hpl. lia.
    + change (1 <= mss q3 <= TCP_MSS). congruence.
    + change (1 <= cwnd q3 <= 65535). congruence.
    + change (has_flag (flags q3) TF_INFR = true -> 1 <= ssthresh q3 <= 65535). rewrite R2, Q2, Essthresh; [done|by left].
    + intros x Hx. change (unsent (q3 <| unacked := insert_sorted s' (unacked p) |>)) with (unsent q3) in Hx.
      rewrite R3 in Hx. change (unacked (q3 <| unacked := insert_sorted s' (unacked p) |>)) with (insert_sorted s' (unacked p)) in Hx.
      rewrite insert_sorted_mem in Hx. destruct Hx as [[->|Hx]|Hx].
      * destruct (Hf s) as (Y & H1 & H2 & H3); [right; by left|]. exists Y. rewrite Ht.
        split_and!; try done; try lia. by eapply same_place_pos.
      * apply Hf. by left.
      * apply Hf. right. by right.
  - unfold packets_of. rewrite Q7 in S11. destruct (can_route p e); [|done].
    destruct S11 as (k & -> & Hk). constructor; [|constructor]. eapply carries_frame; [exact Q1|done].
  - change (can_route q3 e2 = can_route p e). congruence.
Qed.

(** A segment of the queue is in the window exactly when it ends at most [wnd]
    bytes behind the last acknowledgement. *)
Lemma in_snd_wnd_pos U A N V p wnd s X : snd_ok U A N V p -> s ∈ unsent p -> seg_pos X s -> U <= X < V ->
  in_snd_wnd p wnd s = (X + seg_len s - A <=? wnd).
Proof.
  intros [_ Hl _ Ho Hb _ _ _ _ Hf] Hin HX HXV. unfold in_snd_wnd. f_equal.
  destruct (Hf s) as (Y & HY & HYp & HYA); [by right|].
  assert (Y = X) as -> by (eapply seg_pos_inj; [done..|lia]).
  destruct HX as (HXs & HXl & _ & _). rewrite Hl, HXs.
  assert (A <= X + seg_len s).
  { revert HYA. unfold TCP_TCPLEN. destruct has_flag; lia. }
  unfold u32. rewrite Zplus_mod, Zminus_mod, !Zmod_mod, <- Zminus_mod, <- Zplus_mod.
  rewrite Z.mod_small; lia.
Qed.

(** Why the loop stops before the segment [s]. *)
Definition stops (wnd : Z) (p : tcp_pcb) (s : tcp_seg) : Prop :=
  in_snd_wnd p wnd s = false \/
  tcp_do_output_nagle p = false /\ has_flag (flags p) (Z.lor TF_NAGLEMEMERR TF_FIN) = false.

Definition no_rst (s : tcp_seg) : Prop := has_flag (seg_hflags s) TCP_RST = false.

(** The sent segments were in the window. *)
Definition within (A wnd U V : Z) (sent : list tcp_seg) : Prop :=
  forall s, s ∈ sent -> exists X, U <= X < V /\ seg_pos X s /\ X + seg_len s - A <= wnd.

Lemma packets_app p e p' e' s sent ks ks' : out_frame p p' -> can_route p' e' = can_route p e ->
  packets_of p e [s] ks -> packets_of p' e' sent ks' -> packets_of p e (s :: sent) (ks ++ ks').
Proof.
  intros [Hf _ _] Hr. unfold packets_of. rewrite Hr. destruct (can_route p e); [|by intros -> ->].
  intros H1 H2. change (s :: sent) with ([s] ++ sent). apply Forall2_app; [done|].
  eapply Forall2_impl; [exact H2|]. intros x k Hk. cbv beta in Hk. rewrite (as_sent_frame _ _ _ Hf) in Hk.
  by eapply carries_frame.
Qed.

Lemma output_loop_ok A V wnd U l : forall N p e,
  snd_ok U A N V p -> unsent p = l -> Forall no_rst l ->
  exists p' e' N' sent ks, output_loop l wnd p e = Ok (p', e') /\ out_frame p p' /\
    snd_ok U A N' V p' /\ N <= N' /\ l = sent ++ unsent p' /\
    unacked p' = foldl (fun u s => insert_sorted (as_sent p s) u) (unacked p) sent /\
    e' = e <| outs := outs e ++ ks |> /\ packets_of p e sent ks /\ within A wnd U V sent /\
    (forall s l', unsent p' = s :: l' -> stops wnd p' s) /\ (sent = [] -> p' = p).
Proof.
  induction l as [|s rest IH]; intros N p e H Hun Hrst; cbn [output_loop];
    assert (e = e <| outs := outs e ++ [] |>) as He by (rewrite app_nil_r; by destruct e).
  { exists p, e, N, [], []. rewrite Hun. split_and!; try done; try lia.
    - unfold packets_of. by destruct can_route.
    - intros s Hs. by apply elem_of_nil in Hs. }
  assert (stops wnd p s -> exists p' e' N' sent ks, Ok (p, e) = Ok (p', e') /\ out_frame p p' /\
    snd_ok U A N' V p' /\ N <= N' /\ s :: rest = sent ++ unsent p' /\
    unacked p' = foldl (fun u s => insert_sorted (as_sent p s) u) (unacked p) sent /\
    e' = e <| outs := outs e ++ ks |> /\ packets_of p e sent ks /\ within A wnd U V sent /\
    (forall s l', unsent p' = s :: l' -> stops wnd p' s) /\ (sent = [] -> p' = p)) as Hstop.
  { intros Hst. exists p, e, N, [], []. rewrite Hun. split_and!; try done; try lia.
    - unfold packets_of. by destruct can_route.
    - intros x Hx. by apply elem_of_nil in Hx.
    - by intros x l' [= <- <-]. }
  destruct (in_snd_wnd p wnd s) eqn:Ew; [|by apply Hstop; left].
  apply Forall_cons in Hrst as [Hr Hrst]. rewrite Hr. cbn [negb lwip_assert res_bind].
  destruct (negb (tcp_do_output_nagle p) && _) eqn:En.
  { apply Hstop. right. apply andb_true_iff in En as [E1%negb_true_iff E2%negb_true_iff]. done. }
  assert (s ∈ unsent p) as Hin by (rewrite Hun; left).
  destruct (so_first _ _ _ _ _ H s) as (X & HX & HXp & HXA); [by right|].
  rewrite (in_snd_wnd_pos _ _ _ _ _ _ _ X H Hin HXp HX), Z.leb_le in Ew.
  destruct (output_one_ok U A N V p e s rest X H Hun HXp HX) as (p1 & e1 & ks1 & -> & F1 & H1 & U1 & K1 & O1 & P1 & C1).
  destruct (IH _ p1 e1 H1 U1 Hrst) as (p' & e' & N' & sent & ks & -> & F2 & H2 & HN & L2 & K2 & O2 & P2 & W2 & S2 & _).
  exists p', e', N', (s :: sent), (ks1 ++ ks). split_and!; try done; try lia.
  - by etransitivity.
  - by rewrite L2.
  - rewrite K2, K1. cbn [foldl]. assert (forall x, as_sent p1 x = as_sent p x) as Ha
      by (intros x; apply as_sent_frame; apply F1).
    clear -Ha. generalize (insert_sorted (as_sent p s) (unacked p)). induction sent as [|y l IH]; intros u; [done|].
    cbn [foldl]. by rewrite Ha, IH.
  - rewrite O2, O1. destruct e. cbn. by rewrite app_assoc.
  - by eapply packets_app.
  - intros x Hx. apply elem_of_cons in Hx as [->|Hx]; [|by apply W2]. by exists X.
Qed.

(** A packet that only acknowledges. *)
Definition pure_ack (p : tcp_pcb) (k : tcp_packet) : Prop :=
  pk_data k = [] /\ pk_flags k = TCP_ACK /\ pk_seqno k = snd_nxt p /\ pk_ackno k = rcv_nxt p /\
  pk_wnd k = rcv_ann_wnd p /\ pk_dst_ip k = remote_ip p /\ pk_dest k = remote_port p.

Lemma snd_ok_same U A N V p q : snd_ok U A N V p ->
  (unacked q, unsent q, lastack q, snd_nxt q, snd_queuelen q, mss q, cwnd q, ssthresh q) =
  (unacked p, unsent p, lastack p, snd_nxt p, snd_queuelen p, mss p, cwnd p, ssthresh p) ->
  has_flag (flags q) TF_INFR = has_flag (flags p) TF_INFR -> snd_ok U A N V q.
Proof.
  intros [] [= E1 E2 E3 E4 E5 E6 E7 E8] Hf. split; try congruence; by rewrite ?E1, ?E2, ?E6, ?E7, ?E8, ?Hf.
Qed.

Lemma send_empty_ack_out p e : exists err p' e' ks, tcp_send_empty_ack p e = (err, p', e') /\
  out_frame p p' /\ outs e' = outs e ++ ks /\ (ks = [] \/ exists k, ks = [k] /\ pure_ack p k) /\
  unsent p' = unsent p /\ unacked p' = unacked p /\ snd_nxt p' = snd_nxt p /\
  tcp_do_output_nagle p' = tcp_do_output_nagle p /\
  (has_flag (flags p) (Z.lor TF_NAGLEMEMERR TF_FIN) = false -> has_flag (flags p') (Z.lor TF_NAGLEMEMERR TF_FIN) = false).
Proof.
  unfold tcp_send_empty_ack, tcp_output_alloc_header.
  assert (outs (alloc e).2 = outs e) as Ho by (unfold alloc; by destruct (allocs e)).
  destruct (alloc e) as [[] e1]; cbn [snd] in Ho.
  - eexists _, _, _, [_]. split; [reflexivity|]. split_and!; try done.
    + split; [done|by right|]. intros f Hf. apply kept_clear; [done|by left].
    + cbn. by rewrite Ho.
    + right. by eexists.
    + unfold tcp_do_output_nagle. cbn. do 3 f_equal. apply kept_nagle. by left.
    + cbn. unfold clear_flag. rewrite has_flag_land. by intros H.
  - exists ERR_BUF, p, e1, []. rewrite Ho, app_nil_r. split_and!; try done. by left.
Qed.

Lemma packets_nil p e : packets_of p e [] [].
Proof. unfold packets_of. by destruct can_route. Qed.
Lemma within_nil A wnd U V : within A wnd U V [].
Proof. intros s Hs. by apply elem_of_nil in Hs. Qed.

(** The end of [tcp_output] after the loop. *)
Lemma output_end p wnd : exists q,
  (match unsent p with [] => p <| unsent_oversize := 0 |> | _ => p end)
    <| flags := clear_flag (flags (match unsent p with [] => p <| unsent_oversize := 0 |> | _ => p end)) TF_NAGLEMEMERR |>
    = q /\ out_frame p q /\ unsent q = unsent p /\ unacked q = unacked p /\ snd_nxt q = snd_nxt p /\
  (forall s, stops wnd p s -> stops wnd q s).
Proof.
  eexists. split; [reflexivity|].
  set (r := match unsent p with [] => _ | _ => p end).
  assert (output_frame r = output_frame p /\ flags r = flags p /\ rcv_ann_right_edge r = rcv_ann_right_edge p /\
    unsent r = unsent p /\ unacked r = unacked p /\ snd_nxt r = snd_nxt p) as (R1 & R2 & R3 & R4 & R5 & R6).
  { unfold r. destruct (unsent p) eqn:E; split_and!; try done. }
  clearbody r. set (q := r <| flags := _ |>).
  assert (forall f, f ∈ kept_flags -> has_flag (flags q) f = has_flag (flags p) f) as Hq.
  { intros f Hf. change (flags q) with (clear_flag (flags r) TF_NAGLEMEMERR). rewrite R2.
    apply kept_clear; [done|right; by left]. }
  split_and!; try done.
  - split; [exact R1|left; exact R3|exact Hq].
  - frame_eq R1 lastack. frame_eq R1 mss. frame_eq R1 snd_buf. frame_eq R1 snd_queuelen.
    intros s [Hs|[Hs1 Hs2]]; [left|right].
    + unfold in_snd_wnd in *. change (lastack q) with (lastack r). by rewrite Elastack.
    + split.
      * unfold tcp_do_output_nagle in *. change (unsent q) with (unsent r). change (unacked q) with (unacked r).
        change (mss q) with (mss r). change (snd_buf q) with (snd_buf r). change (snd_queuelen q) with (snd_queuelen r).
        change (flags q) with (clear_flag (flags r) TF_NAGLEMEMERR).
        rewrite kept_nagle by (right; by left). by rewrite R2, R4, R5, Emss, Esnd_buf, Esnd_queuelen.
      * change (flags q) with (clear_flag (flags r) TF_NAGLEMEMERR). rewrite R2.
        rewrite has_flag_lor in *. apply orb_false_iff in Hs2 as [_ Hs2].
        rewrite (kept_clear (flags p) TF_NAGLEMEMERR TF_FIN); [|do 2 right; by left|right; by left].
        rewrite Hs2, orb_false_r. unfold clear_flag. rewrite has_flag_land. unfold has_flag. by rewrite Z.land_0_r.
Qed.

Lemma output_spec (U A N V : Z) (p : tcp_pcb) (e : tcp_env) :
  snd_ok U A N V p -> state p <> LISTEN -> Forall no_rst (unsent p) -> is_input_pcb e = false ->
  exists err p' e' N' sent ks, tcp_output p e = Ok (err, p', e') /\ out_frame p p' /\
    snd_ok U A N' V p' /\ N <= N' /\ unsent p = sent ++ unsent p' /\
    unacked p' = foldl (fun u s => insert_sorted (as_sent p s) u) (unacked p) sent /\
    within A (Z.min (snd_wnd p) (cwnd p)) U V sent /\
    (forall s l', unsent p' = s :: l' -> stops (Z.min (snd_wnd p) (cwnd p)) p' s) /\
    outs e' = outs e ++ ks /\
    (packets_of p e sent ks \/
     sent = [] /\ has_flag (flags p) TF_ACK_NOW = true /\ exists k, ks = [k] /\ pure_ack p k).
Proof.
  intros H Hst Hrst Hin. unfold tcp_output, state_is. rewrite bool_decide_false, Hin by done.
  cbn [negb lwip_assert res_bind]. cbv zeta. set (wnd := Z.min (snd_wnd p) (cwnd p)).
  destruct (has_flag (flags p) TF_ACK_NOW && _) eqn:Eack.
  - apply andb_true_iff in Eack as [E1 E2].
    destruct (send_empty_ack_out p e) as (err & p' & e' & ks & -> & F & Ho & Hks & Hu & Hv & Hn & Hng & Hfl).
    assert (snd_ok U A N V p') as H'.
    { eapply snd_ok_same; [exact H| |apply F; by left]. destruct F as [F _ _].
      frame_eq F lastack. frame_eq F snd_queuelen. frame_eq F mss. frame_eq F cwnd. frame_eq F ssthresh. congruence. }
    exists err, p', e', N, [], ks. split_and!; try done; try lia; try apply within_nil.
    + intros s l' Hs. rewrite Hs in Hu. rewrite <- Hu in E2. apply negb_true_iff in E2.
      left. unfold in_snd_wnd in *. destruct F as [F _ _]. frame_eq F lastack. by rewrite Elastack.
    + destruct Hks as [->|Hk]; [left; apply packets_nil|by right].
  - destruct (output_loop_ok A V wnd U (unsent p) N p e H eq_refl Hrst)
      as (p1 & e1 & N' & sent & ks & -> & F1 & H1 & HN & L1 & K1 & O1 & P1 & W1 & S1 & _).
    cbn [res_bind]. destruct (output_end p1 wnd) as (q & -> & F2 & Q1 & Q2 & Q3 & Q4).
    exists ERR_OK, q, e1, N', sent, ks. split_and!; try done; try congruence.
    + by etransitivity.
    + eapply snd_ok_same; [exact H1| |apply F2; by left]. destruct F2 as [F _ _].
      frame_eq F lastack. frame_eq F snd_queuelen. frame_eq F mss. frame_eq F cwnd. frame_eq F ssthresh. congruence.
    + intros s l' Hs. apply Q4. eapply S1. rewrite <- Q1. exact Hs.
    + by rewrite O1.
    + by left.
Qed.

(** C6. [tcp_output] on queues that satisfy the invariant sends a prefix
    [sent] of the unsent queue: every segment of it ends within the smaller of
    the peer's window and the congestion window, each goes into one packet
    with its bytes, its sequence number and the current acknowledgement and
    window (into none when there is no route), in the order of the queue, and
    is inserted by position into the unacked queue. It stops only at the end of
    the queue, at a segment outside the window, or for the Nagle algorithm.
    When nothing can be sent and an acknowledgement is due, a bare one goes
    out. No assertion fails; the invariant is kept; nothing but the queues,
    [snd_nxt], the flags and timers of sending and the announced edge change. *)
Theorem tcp_output_correct (U A N V : Z) (p : tcp_pcb) (e : tcp_env) :
  snd_ok U A N V p -> state p <> LISTEN -> Forall no_rst (unsent p) -> is_input_pcb e = false ->
  exists err p' e' N' sent ks, tcp_output p e = Ok (err, p', e') /\ out_frame p p' /\
    snd_ok U A N' V p' /\ N <= N' /\ unsent p = sent ++ unsent p' /\
    unacked p' = foldl (fun u s => insert_sorted (as_sent p s) u) (unacked p) sent /\
    within A (Z.min (snd_wnd p) (cwnd p)) U V sent /\
    (forall s l', unsent p' = s :: l' -> stops (Z.min (snd_wnd p) (cwnd p)) p' s) /\
    outs e' = outs e ++ ks /\
    (packets_of p e sent ks \/
     sent = [] /\ has_flag (flags p) TF_ACK_NOW = true /\ exists k, ks = [k] /\ pure_ack p k).
Proof. apply output_spec. Qed.

(** With Nagle's algorithm off the demo sender sends its unsent segment. *)
Definition demo_nodelay : tcp_pcb := demo_sender <| flags := TF_NODELAY |> <| local_ip := 17 |>.
Lemma demo_nodelay_ok : snd_ok 4294967290 4294967290 4294967390 4294967440 demo_nodelay.
Proof.
  apply (snd_ok_same _ _ _ _ demo_sender); [exact demo_sender_ok|vm_compute; reflexivity|vm_compute; reflexivity].
Qed.

Definition demo_idle : tcp_env := demo_env <| is_input_pcb := false |>.
Lemma tcp_output_correct_witness :
  exists err p' e' k, tcp_output demo_nodelay demo_idle = Ok (err, p', e') /\ outs e' = [k] /\
    pk_data k = repeat 7 50 /\ unsent p' = [] /\ snd_nxt p' = u32 4294967440.
Proof.
  destruct (tcp_output_correct 4294967290 4294967290 4294967390 4294967440 demo_nodelay demo_idle demo_nodelay_ok)
    as (err & p' & e' & N' & sent & ks & E & _ & H1 & _); [discriminate|by apply Forall_singleton|reflexivity|].
  exists err, p', e'. revert E. vm_compute. intros [= <- <- <-]. eexists. split_and!; reflexivity.
Defined.
