(* ===== verification/TcpWrite.v ===== *)
(** * TCP queues what the application writes

    [tcp_write] appends the bytes to the unsent queue and to nothing else, or
    it changes no queue. Part of the bytes may fill the spare room of the last
    unsent segment, part may be chained to it, the rest goes into new segments
    of at most the effective MSS. *)
From S2P Require Import Prelude ByteOrder IpAddr Ip Tcp TcpOut TcpIn TcpStream TcpAck TcpSend.

(** The bytes of a queue. *)
Definition stream (l : list tcp_seg) : list Z := concat (map seg_data l).
Lemma stream_app l k : stream (l ++ k) = stream l ++ stream k.
Proof. unfold stream. by rewrite map_app, concat_app. Qed.

(** ** Contiguous queues *)
Lemma snd_queue_app U u v X q Y : snd_queue U u v X -> snd_queue X [] q Y -> snd_queue U u (v ++ q) Y.
Proof. intros H1 H2. induction H1; [done|by constructor; auto..]. Qed.
Lemma snd_queue_single X s : seg_pos X s -> snd_queue X [] [s] (X + TCP_TCPLEN s).
Proof. intros H. constructor; [done|constructor]. Qed.

Lemma snd_queue_unacked_single X s : seg_pos X s -> snd_queue X [s] [] (X + TCP_TCPLEN s).
Proof. intros H. constructor; [done|constructor]. Qed.

(** Queues that are not interleaved: all unacked segments precede all unsent
    ones. Only a fast retransmission interleaves them, until its segment has
    been sent. *)
Definition snd_split (U W V : Z) (p : tcp_pcb) : Prop :=
  snd_queue U (unacked p) [] W /\ snd_queue W [] (unsent p) V.

Lemma snd_queue_join U u W v V : snd_queue U u [] W -> snd_queue W [] v V -> snd_queue U u v V.
Proof.
  intros H. remember [] as w eqn:Ew. induction H as [|U s u w V' Hs Hq IH|]; intros H2; [done| |done].
  constructor; [done|]. by apply IH.
Qed.

(** The last segment of a contiguous queue ends where the queue does; extending
    it extends the queue. *)
Lemma snd_queue_alter_last f W v V s d : snd_queue W [] v V -> last v = Some s -> 0 <= d ->
  (forall X, seg_pos X s -> seg_pos X (f s)) -> TCP_TCPLEN (f s) = TCP_TCPLEN s + d ->
  snd_queue W [] (alter_last f v) (V + d).
Proof.
  intros H Hl Hd Hf Ht. remember [] as u eqn:Eu. revert Hl.
  induction H as [|U x u v V Hs Hq IH|U x u v V Hs Hq IH]; intros Hl; [done|done|].
  destruct v as [|y v].
  - injection Hl as ->. inversion Hq; subst; try done. cbn [alter_last].
    replace (U + TCP_TCPLEN s + d) with (U + TCP_TCPLEN (f s)) by lia.
    constructor; [by apply Hf|constructor].
  - change (alter_last f (x :: y :: v)) with (x :: alter_last f (y :: v)). constructor; [done|]. by apply IH.
Qed.

Lemma last_alter f l : last (alter_last f l) = f <$> last l.
Proof.
  induction l as [|x [|y l] IH]; [done|done|].
  change (alter_last f (x :: y :: l)) with (x :: alter_last f (y :: l)).
  change (last (x :: y :: l)) with (last (y :: l)). rewrite <- IH.
  destruct (alter_last f (y :: l)) eqn:E; [|done]. by destruct l.
Qed.
Lemma stream_alter f l s data : last l = Some s -> seg_data (f s) = seg_data s ++ data ->
  stream (alter_last f l) = stream l ++ data.
Proof.
  intros Hl Hf. induction l as [|x [|y l] IH]; [done| |].
  - injection Hl as ->. unfold stream. cbn. by rewrite Hf, !app_nil_r.
  - change (alter_last f (x :: y :: l)) with (x :: alter_last f (y :: l)).
    change (stream (?a :: ?b)) with (seg_data a ++ stream b). rewrite IH by done. by rewrite app_assoc.
Qed.
Lemma sum_clen_alter f l s d : last l = Some s -> seg_clen (f s) = seg_clen s + d ->
  sum_clen (alter_last f l) = sum_clen l + d.
Proof.
  intros Hl Hf. induction l as [|x [|y l] IH]; [done| |].
  - injection Hl as ->. cbn [alter_last]. rewrite !sum_clen_cons, Hf. unfold sum_clen. cbn. lia.
  - change (alter_last f (x :: y :: l)) with (x :: alter_last f (y :: l)).
    rewrite !(sum_clen_cons x), IH by done. lia.
Qed.

(** ** Allocation *)

(** Only the stream of allocation outcomes has moved on. *)
Definition env_alloc (e e' : tcp_env) : Prop := exists l, e' = e <| allocs := l |>.
#[export] Instance env_alloc_preorder : PreOrder env_alloc.
Proof.
  split.
  - intros e. exists (allocs e). by destruct e.
  - intros e f g [l ->] [k ->]. by exists k.
Qed.
Lemma alloc_env e : env_alloc e (alloc e).2.
Proof. unfold alloc. destruct (allocs e) as [|b l]; [reflexivity|]. by exists l. Qed.

(** One allocation in a proof. *)
Ltac step_alloc e :=
  let H := fresh "Ha" in pose proof (alloc_env e) as H;
  let b := fresh "b" in let e' := fresh "e" in destruct (alloc e) as [b e']; cbn [snd] in H.

Lemma prealloc_spec p e seglen max apiflags first : 0 <= seglen <= max ->
  exists o e', tcp_pbuf_prealloc p e seglen max apiflags first = (o, e') /\ env_alloc e e' /\
    (forall spare, o = Some spare -> 0 <= spare <= max - seglen).
Proof.
  intros H. unfold tcp_pbuf_prealloc. cbv zeta.
  match goal with |- context [if ?b then Z.min _ _ else _] => generalize b; intros big end.
  set (size := if big then Z.min max (seglen + TCP_OVERSIZE) else seglen).
  assert (seglen <= size <= max) as Hs by (unfold size, TCP_OVERSIZE, TCP_MSS; destruct big; lia).
  clearbody size. step_alloc e. eexists _, e0. split; [reflexivity|]. split; [done|].
  destruct b; [|done]. intros spare [= <-]. lia.
Qed.

Lemma write_pbuf_spec p e apiflags seglen max oversize first hdr : 0 <= seglen <= max ->
  (has_flag apiflags TCP_WRITE_FLAG_COPY = false -> oversize = 0) ->
  exists o e', write_pbuf p e apiflags seglen max oversize first hdr = Ok (o, e') /\ env_alloc e e' /\
    (forall c spare, o = Some (c, spare) -> 1 <= c <= 2 /\ (hdr = false -> c = 1) /\ 0 <= spare <= max - seglen /\
       (has_flag apiflags TCP_WRITE_FLAG_COPY = false -> spare = 0)).
Proof.
  intros H Hov. unfold write_pbuf. destruct (has_flag apiflags TCP_WRITE_FLAG_COPY).
  - destruct (prealloc_spec p e seglen max apiflags first H) as (o & e' & -> & He & Ho).
    eexists _, e'. split; [reflexivity|]. split; [done|].
    destruct o as [sp|]; [|done]. intros c spare [= <- <-]. specialize (Ho sp eq_refl). split_and!; done || lia.
  - specialize (Hov eq_refl) as ->. destruct hdr; cbn [lwip_assert res_bind Z.eqb].
    + step_alloc e. destruct b.
      * step_alloc e0. eexists _, _. split; [reflexivity|]. split; [by etransitivity|].
        destruct b; [|done]. intros c spare [= <- <-]. split_and!; done || lia.
      * eexists _, _. split; [reflexivity|]. split; [done|]. by intros ? ?.
    + step_alloc e. eexists _, _. split; [reflexivity|]. split; [done|].
      destruct b; [|done]. intros c spare [= <- <-]. split_and!; done || lia.
Qed.

(** ** Phase 3: new segments *)

(** A segment of data only. *)
Definition data_seg (m : Z) (s : tcp_seg) : Prop :=
  0 < seg_len s <= m /\ seg_hflags s = 0 /\ seg_opts s = 0 /\ zlen (seg_data s) = seg_len s.
Lemma data_seg_tcplen m s : data_seg m s -> TCP_TCPLEN s = seg_len s.
Proof. intros (_ & Hf & _). unfold TCP_TCPLEN. rewrite Hf. apply Z.add_0_r. Qed.

(** The room behind the last of some segments. *)
Definition room (m : Z) (l : list tcp_seg) (oversize : Z) : Prop :=
  forall s, last l = Some s -> seg_len s + LWIP_TCP_OPT_LENGTH (seg_opts s) + oversize <= m.

Lemma write_segs_done e arg m V pos oversize queuelen queue :
  0 <= pos <= zlen arg -> zlen arg <= pos -> 0 <= oversize ->
  exists o e', Ok (Some (queue, queuelen, oversize), e) = Ok (o, e') /\ env_alloc e e' /\
    forall q ql ov, o = Some (q, ql, ov) -> exists news, q = queue ++ news /\
      snd_queue (V + pos) [] news (V + zlen arg) /\ stream news = drop (Z.to_nat pos) arg /\
      ql = queuelen + sum_clen news /\ (news <> [] -> ql <= TCP_SND_QUEUELEN) /\ Forall (data_seg m) news /\
      0 <= ov /\ (news = [] -> ov = oversize /\ pos = zlen arg) /\ room m news ov.
Proof.
  intros Hpos Hge Hov. eexists _, e. split; [reflexivity|]. split; [reflexivity|]. intros q ql ov [= <- <- <-]. exists [].
  assert (pos = zlen arg) as -> by lia. rewrite app_nil_r. split_and!; try done; try lia.
  - constructor.
  - rewrite drop_ge; [done|]. unfold zlen. lia.
  - unfold sum_clen. cbn. lia.
Qed.

Lemma write_segs_spec p arg m apiflags V : snd_lbb p = u32 V -> 0 <= m <= 65535 -> zlen arg <= 65535 ->
  forall fuel e pos oversize queuelen queue,
  0 <= pos <= zlen arg -> 0 <= queuelen -> 0 <= oversize ->
  (pos < zlen arg -> 0 < m /\ queuelen <= TCP_SND_QUEUELEN + 1 /\ TCP_SND_QUEUELEN + 2 - queuelen <= Z.of_nat fuel) ->
  (has_flag apiflags TCP_WRITE_FLAG_COPY = false -> pos < zlen arg -> oversize = 0) ->
  exists o e', write_segs fuel p e arg m apiflags pos oversize queuelen queue = Ok (o, e') /\ env_alloc e e' /\
    forall q ql ov, o = Some (q, ql, ov) -> exists news, q = queue ++ news /\
      snd_queue (V + pos) [] news (V + zlen arg) /\ stream news = drop (Z.to_nat pos) arg /\
      ql = queuelen + sum_clen news /\ (news <> [] -> ql <= TCP_SND_QUEUELEN) /\ Forall (data_seg m) news /\
      0 <= ov /\ (news = [] -> ov = oversize /\ pos = zlen arg) /\ room m news ov.
Proof.
  intros Hlbb Hm Hlen. change TCP_SND_QUEUELEN with 8. change TCP_SNDQUEUELEN_OVERFLOW with 65532.
  induction fuel as [|fuel IH]; intros e pos oversize queuelen queue Hpos Hql Hov Hfuel Hcopy;
    cbn [write_segs]; (destruct (Z.ltb_spec pos (zlen arg)) as [Hlt|Hge]; [destruct (Hfuel Hlt) as (Hm0 & Hql2 & Hfl)|]).
  all: try lia.
  1,3: by apply write_segs_done.
  rewrite (u16_id (zlen arg - pos)) by lia.
  set (seglen := if m <? zlen arg - pos then m else zlen arg - pos).
  assert (0 < seglen <= m /\ pos + seglen <= zlen arg) as (Hs1 & Hs2)
    by (unfold seglen; destruct (Z.ltb_spec m (zlen arg - pos)); lia).
  clearbody seglen.
  destruct (write_pbuf_spec p e apiflags seglen m oversize (bool_decide (queue = [])) true)
    as (o & e1 & -> & He1 & Ho); [lia|by auto|]. cbn [res_bind].
  destruct o as [[c spare]|]; [|exists None, e1; split_and!; done].
  destruct (Ho c spare eq_refl) as (Hc & _ & Hsp & Hsp0).
  rewrite (u16_id (queuelen + c)) by lia.
  destruct (_ || _) eqn:Eq; [exists None, e1; split_and!; done|].
  apply orb_false_iff in Eq as [Eq%Z.ltb_ge _]. change TCP_SND_QUEUELEN with 8 in Eq.
  unfold tcp_create_segment. step_alloc e1. destruct b; [|exists None, e0; split_and!; try done; by etransitivity].
  fold (slice pos seglen arg). set (s := mk_seg _ 0 _ 0 _ c).
  assert (zlen (slice pos seglen arg) = seglen) as Hz by (apply zlen_slice; lia).
  assert (data_seg m s) as Hd by (unfold data_seg, s; cbn; rewrite Hz; split_and!; done || lia).
  assert (seg_pos (V + pos) s) as Hp.
  { split_and!; try (by rewrite (data_seg_tcplen m); [apply Hd|]); try (unfold s; cbn; lia).
    unfold s. cbn. rewrite Hlbb. apply u32_add_l. }
  rewrite (u16_id (pos + seglen)) by lia.
  destruct (IH e0 (pos + seglen) spare (queuelen + c) (queue ++ [s])) as (o & e2 & -> & He2 & Hr); [lia|lia|lia|lia|auto|].
  exists o, e2. split; [done|]. split; [etransitivity; [exact He1|]; by etransitivity|].
  intros q ql ov Hq. destruct (Hr q ql ov Hq) as (news & H1 & H2 & H3 & H4 & H5 & H6 & H7 & H8 & H9).
  assert (TCP_TCPLEN s = seglen) as Ht by (by rewrite (data_seg_tcplen m)).
  exists (s :: news). split_and!; try done.
  - by rewrite H1, <- app_assoc.
  - constructor; [done|]. rewrite Ht. by replace (V + pos + seglen) with (V + (pos + seglen)) by lia.
  - change (stream (s :: news)) with (slice pos seglen arg ++ stream news). rewrite H3.
    unfold slice. rewrite Z2Nat.inj_add by lia. rewrite <- drop_drop. apply take_drop.
  - rewrite H4, sum_clen_cons. unfold s. cbn. lia.
  - intros _. destruct news; [|by apply H5]. rewrite H4. unfold sum_clen. cbn. lia.
  - by constructor.
  - intros x Hx. destruct news as [|y news]; [|by apply H9].
    injection Hx as <-. destruct (H8 eq_refl) as [-> _].
    change (zlen (slice pos seglen arg) + 0 + spare <= m). lia.
Qed.

(** ** Phases 1 and 2: the tail of the queue *)
Lemma write_tail_spec p e len m apiflags :
  (unsent p = [] -> unsent_oversize p = 0) -> 0 <= unsent_oversize p -> room m (unsent p) (unsent_oversize p) ->
  (forall s, last (unsent p) = Some s -> 0 <= seg_len s <= 65535) ->
  0 <= len <= 65535 -> 0 <= m <= 65535 -> (0 < len -> 0 <= snd_queuelen p < 65535) ->
  exists o e', write_tail p e len m apiflags = Ok (o, e') /\ env_alloc e e' /\
    forall f, o = Some f ->
      oversize_used f + concat_len f = fill_pos f /\ 0 <= oversize_used f /\ 0 <= concat_len f /\
      fill_pos f <= len /\ 0 <= fill_oversize f /\
      fill_queuelen f = snd_queuelen p + (if concat_len f =? 0 then 0 else 1) /\
      (unsent p = [] -> fill_pos f = 0 /\ fill_oversize f = 0) /\
      (has_flag apiflags TCP_WRITE_FLAG_COPY = false -> fill_pos f < len -> fill_oversize f = 0) /\
      room m (unsent p) (fill_pos f + fill_oversize f).
Proof.
  intros Hov0 Hov Hroom Hlens Hlen Hm Hql. unfold write_tail. destruct (last (unsent p)) as [s|] eqn:El.
  2: { apply last_None in El. rewrite (Hov0 El). cbn [Z.eqb lwip_assert res_bind]. rewrite El.
       eexists _, e. split; [reflexivity|]. split; [reflexivity|]. intros f [= <-]. cbn. by split_and!; try lia. }
  specialize (Hroom s El). specialize (Hlens s eq_refl).
  assert (0 <= LWIP_TCP_OPT_LENGTH (seg_opts s)) as Hopt by (unfold LWIP_TCP_OPT_LENGTH; repeat case_match; lia).
  assert (unsent p = [] -> False) as Hne by (intros E; by rewrite E in El).
  cbv zeta. rewrite (u16_id (m - _)) by lia.
  set (used := if 0 <? unsent_oversize p then Z.min (unsent_oversize p) len else 0).
  assert (0 <= used <= len /\ used <= unsent_oversize p /\ (unsent_oversize p = used \/ used = len)) as (Hu1 & Hu2 & Hu3)
    by (unfold used; destruct (Z.ltb_spec 0 (unsent_oversize p)); lia).
  clearbody used. rewrite u16_id by lia.
  assert ((unsent_oversize p - used =? 0) || (used =? len) = true) as ->.
  { apply orb_true_iff. rewrite !Z.eqb_eq. lia. }
  cbn [lwip_assert res_bind]. set (space := m - _ - used).
  assert (forall o, room m (unsent p) o <-> seg_len s + LWIP_TCP_OPT_LENGTH (seg_opts s) + o <= m) as Hr.
  { intros o. unfold room. rewrite El. split; [by intros H; apply H|by intros ? ? [= <-]]. }
  destruct ((used <? len) && (0 <? space) && _) eqn:Ec.
  - apply andb_true_iff in Ec as [[Ec1%Z.ltb_lt Ec2%Z.ltb_lt]%andb_true_iff Ec3%Z.ltb_lt].
    destruct (write_pbuf_spec p e apiflags (Z.min space (len - used)) space (unsent_oversize p - used) true false)
      as (o & e' & -> & He & Ho); [lia|lia|]. cbn [res_bind].
    destruct o as [[c spare]|]; [|exists None, e'; by split_and!].
    destruct (Ho c spare eq_refl) as (Hc & Hc1 & Hsp & Hsp0). rewrite (Hc1 eq_refl).
    eexists _, e'. split; [reflexivity|]. split; [done|]. intros f [= <-]. cbn. rewrite Hr, u16_id by lia.
    destruct (Z.eqb_spec (Z.min space (len - used)) 0); [lia|].
    unfold space in *. split_and!; try done; lia.
  - eexists _, e. split; [reflexivity|]. split; [reflexivity|]. intros f [= <-]. cbn. rewrite Hr.
    split_and!; try done; lia.
Qed.

(** ** The new queue *)
Lemma Forall_alter_last P f l : Forall P l -> (forall s, last l = Some s -> P (f s)) -> Forall P (alter_last f l).
Proof.
  induction 1 as [|x l Hx Hl IH]; intros Hf; [constructor|]. destruct l as [|y l].
  - repeat constructor. by apply Hf.
  - change (alter_last f (x :: y :: l)) with (x :: alter_last f (y :: l)). constructor; [done|]. by apply IH.
Qed.

Definition small (m : Z) (s : tcp_seg) : Prop := seg_len s + LWIP_TCP_OPT_LENGTH (seg_opts s) <= m.

(** The PSH flag changes nothing that counts. *)
Lemma psh_queue (b : bool) l (l' := if b then alter_last (set_hflag TCP_PSH) l else l) :
  (forall W V, snd_queue W [] l V -> snd_queue W [] l' V) /\ stream l' = stream l /\
  sum_clen l' = sum_clen l /\ (forall m o, room m l o -> room m l' o) /\
  (forall P : tcp_seg -> Prop, (forall s s', same_place s s' -> P s -> P s') -> Forall P l -> Forall P l') /\
  (forall m, Forall (small m) l -> Forall (small m) l') /\ (l' = [] <-> l = []).
Proof.
  destruct b; [|done]. subst l'. destruct (last l) as [s|] eqn:El.
  2: { apply last_None in El as ->. done. }
  assert (forall s, TCP_TCPLEN (set_hflag TCP_PSH s) = TCP_TCPLEN s) as Ht.
  { intros x. unfold TCP_TCPLEN, set_hflag. cbn. rewrite has_flag_lor_l. by rewrite orb_false_r. }
  split_and!.
  - intros W V H. rewrite <- (Z.add_0_r V). eapply snd_queue_alter_last; [done..|lia| |].
    + intros X. apply same_place_pos. split_and!; done || apply Ht.
    + rewrite Ht. lia.
  - rewrite (stream_alter _ _ s []); [by rewrite app_nil_r|done|by rewrite app_nil_r].
  - rewrite (sum_clen_alter _ _ s 0); [lia|done|cbn; lia].
  - intros m o H x. rewrite last_alter, El. intros [= <-]. exact (H s El).
  - intros P HP H. apply Forall_alter_last; [done|]. intros x Hx. apply (HP x); [split_and!; done || apply Ht|].
    exact (proj1 (Forall_forall _ _) H x (last_Some_elem_of _ _ Hx)).
  - intros m H. apply Forall_alter_last; [done|]. intros x Hx.
    exact (proj1 (Forall_forall _ _) H x (last_Some_elem_of _ _ Hx)).
  - destruct l as [|x [|y l]]; done.
Qed.

(** The tail filled up and the new segments appended. *)
Definition new_unsent (arg : list Z) (f : tail_fill) (l queue : list tcp_seg) : list tcp_seg :=
  match l with [] => queue | _ => alter_last (fill_seg arg f) l ++ queue end.

(** A segment that reaches beyond [A], at a position in [U, V). *)
Definition reaches (U A V : Z) (s : tcp_seg) : Prop :=
  exists X, U <= X < V /\ seg_pos X s /\ A < X + TCP_TCPLEN s.
Lemma beyond_reaches A U V u v : beyond A U V u v <-> Forall (reaches U A V) u /\ Forall (reaches U A V) v.
Proof.
  rewrite !Forall_forall. split.
  - intros H. split; intros s Hs; apply H; auto.
  - intros [Hu Hv] s [Hs|Hs]; [by apply Hu|by apply Hv].
Qed.
Lemma reaches_weaken U A V V' s : reaches U A V s -> V <= V' -> reaches U A V' s.
Proof. intros (X & ? & ? & ?) ?. exists X. split_and!; try done; lia. Qed.
Lemma reaches_place U A V s s' : same_place s s' -> reaches U A V s -> reaches U A V s'.
Proof.
  intros Hs (X & HX & HXp & HA). exists X. split; [done|]. split; [by eapply same_place_pos|].
  destruct Hs as (_ & _ & -> & _). done.
Qed.
Lemma reaches_queue U A X v V : snd_queue X [] v V -> U <= X -> A <= X -> Forall (reaches U A V) v.
Proof.
  intros H HU HA. apply Forall_forall. intros s Hs.
  destruct (snd_queue_mem _ _ _ _ s H) as (Y & HY & HYp); [by right|].
  assert (0 < TCP_TCPLEN s) by apply HYp. exists Y. split_and!; try done; lia.
Qed.

Lemma fill_seg_spec arg f s m X : seg_pos X s -> 0 <= oversize_used f -> 0 <= concat_len f ->
  oversize_used f + concat_len f = fill_pos f -> 0 <= fill_oversize f -> m <= 65535 ->
  seg_len s + LWIP_TCP_OPT_LENGTH (seg_opts s) + (fill_pos f + fill_oversize f) <= m ->
  seg_len (fill_seg arg f s) = seg_len s + fill_pos f /\
  TCP_TCPLEN (fill_seg arg f s) = TCP_TCPLEN s + fill_pos f /\
  (forall Y, seg_pos Y s -> seg_pos Y (fill_seg arg f s)).
Proof.
  intros (_ & Hl & _) Hu Hc Hpos Hov Hm Hroom.
  assert (0 <= LWIP_TCP_OPT_LENGTH (seg_opts s)) as Hopt by (unfold LWIP_TCP_OPT_LENGTH; repeat case_match; lia).
  assert (seg_len (fill_seg arg f s) = seg_len s + fill_pos f) as Hfl.
  { unfold fill_seg. cbn. rewrite u16_id by lia. lia. }
  assert (TCP_TCPLEN (fill_seg arg f s) = TCP_TCPLEN s + fill_pos f) as Hft.
  { unfold TCP_TCPLEN. rewrite Hfl. change (seg_hflags (fill_seg arg f s)) with (seg_hflags s). lia. }
  split_and!; try done. intros Y (H1 & H2 & H3 & H4). unfold seg_pos. rewrite Hfl, Hft.
  split_and!; [exact H1|lia|lia|lia|]. cbn. destruct (concat_len f =? 0); lia.
Qed.

Lemma new_unsent_spec W V l arg f m news ov :
  snd_queue W [] l V -> 0 <= oversize_used f -> 0 <= concat_len f -> oversize_used f + concat_len f = fill_pos f ->
  0 <= fill_oversize f -> (l = [] -> fill_pos f = 0) -> room m l (fill_pos f + fill_oversize f) -> 0 <= m <= 65535 ->
  snd_queue (V + fill_pos f) [] news (V + zlen arg) -> stream news = drop (Z.to_nat (fill_pos f)) arg ->
  Forall (data_seg m) news -> (news = [] -> ov = fill_oversize f /\ fill_pos f = zlen arg) -> room m news ov ->
  let l' := new_unsent arg f l news in
  snd_queue W [] l' (V + zlen arg) /\ stream l' = stream l ++ arg /\
  sum_clen l' = sum_clen l + (if bool_decide (l = []) || (concat_len f =? 0) then 0 else 1) + sum_clen news /\
  room m l' ov /\ (Forall (small m) l -> Forall (small m) l') /\ (l' = [] -> l = [] /\ news = []) /\
  (forall U A, Forall (reaches U A V) l -> U <= V -> A <= V -> Forall (reaches U A (V + zlen arg)) l').
Proof.
  intros Hq Hu Hc Hpos Hov H0 Hroom Hm Hnews Hs Hd Hnil Hroom'. cbv zeta. unfold new_unsent.
  assert (Forall (small m) news) as Hsmall.
  { eapply Forall_impl; [exact Hd|]. intros s ((_ & H) & _ & Ho & _). unfold small. rewrite Ho.
    change (LWIP_TCP_OPT_LENGTH 0) with 0. lia. }
  destruct (last l) as [s|] eqn:El.
  2: { apply last_None in El as ->. specialize (H0 eq_refl). inversion Hq; subst. rewrite H0 in *.
       rewrite Z.add_0_r in Hnews.
       split_and!; try done. intros. by eapply reaches_queue. }
  assert (match l with [] => news | _ => alter_last (fill_seg arg f) l ++ news end =
    alter_last (fill_seg arg f) l ++ news) as -> by (by destruct l).
  assert (bool_decide (l = []) = false) as -> by (apply bool_decide_eq_false; by intros ->).
  specialize (Hroom s El).
  assert (exists X, seg_pos X s) as (X & Hps).
  { destruct (snd_queue_mem _ _ _ _ s Hq) as (X & _ & HX); [right; by apply last_Some_elem_of|by exists X]. }
  destruct (fill_seg_spec arg f s m X) as (Hfl & Hft & Hfp); try done; [lia|].
  split_and!.
  - eapply snd_queue_app; [|exact Hnews]. eapply snd_queue_alter_last; [done..|lia| |done].
    exact Hfp.
  - rewrite stream_app, (stream_alter _ _ s (take (Z.to_nat (fill_pos f)) arg)), Hs by done.
    by rewrite <- app_assoc, take_drop.
  - rewrite sum_clen_app, (sum_clen_alter _ _ s (if concat_len f =? 0 then 0 else 1)) by done. cbn. lia.
  - intros x Hx. destruct news as [|n news].
    + rewrite app_nil_r, last_alter, El in Hx. injection Hx as <-. rewrite Hfl. destruct (Hnil eq_refl) as [-> _].
      change (seg_opts (fill_seg arg f s)) with (seg_opts s). lia.
    + rewrite last_app_cons in Hx. by apply Hroom'.
  - intros H1. apply Forall_app. split; [|done]. apply Forall_alter_last; [done|].
    intros x. rewrite El. intros [= <-]. unfold small. rewrite Hfl. change (seg_opts (fill_seg arg f s)) with (seg_opts s). lia.
  - intros [H1 ->]%app_eq_nil. split; [|done]. by destruct l as [|x [|y l]].
  - intros U A HA HU HAV. pose proof (snd_queue_le _ _ _ _ Hnews). apply Forall_app. split.
    + apply Forall_alter_last; [by eapply Forall_impl; [exact HA|]; intros x Hx; eapply reaches_weaken; [done|lia]|].
      intros x. rewrite El. intros [= <-].
      destruct (proj1 (Forall_forall _ _) HA s (last_Some_elem_of _ _ El)) as (Y & HY & HYp & HYA).
      exists Y. rewrite Hft. split_and!; [lia|lia|by apply Hfp|lia].
    + eapply reaches_queue; [exact Hnews|lia|lia].
Qed.

(** ** tcp_write *)

(** What a successful write leaves alone. *)
Definition write_frame (p : tcp_pcb) : tcp_pcb :=
  p <| unsent_oversize := 0 |> <| unsent := [] |> <| snd_lbb := 0 |> <| snd_buf := 0 |> <| snd_queuelen := 0 |>.

(** The MSS a write uses. *)
Definition mss_local (p : tcp_pcb) : Z := Z.min (mss p) (snd_wnd_max p / 2).

(** A control block ready for a write: contiguous queues up to [V], and the
    spare room behind the last segment is within the MSS. *)
Record write_ok (U A N W V : Z) (p : tcp_pcb) : Prop := {
  wo_snd : snd_ok U A N V p;
  wo_split : snd_split U W V p;
  wo_lbb : snd_lbb p = u32 V;
  wo_buf : 0 <= snd_buf p /\ V - U + snd_buf p <= 65535;
  wo_oversize : 0 <= unsent_oversize p;
  wo_empty : unsent p = [] -> unsent_oversize p = 0;
  wo_room : room (mss_local p) (unsent p) (unsent_oversize p)
}.

(** The bytes [arg] have been appended. *)
Record wrote (arg : list Z) (U A N W V : Z) (p p' : tcp_pcb) : Prop := {
  wr_ok : write_ok U A N W (V + zlen arg) p';
  wr_stream : stream (unsent p') = stream (unsent p) ++ arg;
  wr_unacked : unacked p' = unacked p;
  wr_buf : snd_buf p' = snd_buf p - zlen arg;
  wr_small : Forall (small (mss_local p)) (unsent p) -> Forall (small (mss_local p)) (unsent p');
  wr_queuelen : snd_queuelen p' <= Z.max TCP_SND_QUEUELEN (snd_queuelen p);
  wr_frame : write_frame p' = write_frame p
}.

Lemma queues_empty U W V p : snd_split U W V p -> snd_queuelen p = sum_clen (unacked p) + sum_clen (unsent p) ->
  bool_decide (unacked p = [] /\ unsent p = []) = (snd_queuelen p =? 0) /\ 0 <= snd_queuelen p.
Proof.
  intros [Hu Hv] ->. destruct (snd_queue_clen _ _ _ _ (snd_queue_join _ _ _ _ _ Hu Hv)) as [Cu Cv].
  pose proof (sum_clen_nonneg _ Cu). pose proof (sum_clen_nonneg _ Cv).
  split; [|lia]. apply eq_bool_prop_intro. rewrite bool_decide_spec, Is_true_true, Z.eqb_eq. split.
  - by intros [-> ->].
  - intros H1. destruct (unacked p) as [|x l]; [destruct (unsent p) as [|y l]; [done|]|].
    + apply Forall_cons in Cv as [Hy Cl]. pose proof (sum_clen_nonneg _ Cl). rewrite (sum_clen_cons y) in *. lia.
    + apply Forall_cons in Cu as [Hy Cl]. pose proof (sum_clen_nonneg _ Cl). rewrite (sum_clen_cons x) in *. lia.
Qed.

(** A refused write leaves the queues and only notes the failure. *)
Definition refused (p p' : tcp_pcb) : Prop :=
  p' = p \/ p' = p <| flags := Z.lor (flags p) TF_NAGLEMEMERR |>.

Definition may_write (p : tcp_pcb) : Prop :=
  state p = ESTABLISHED \/ state p = CLOSE_WAIT \/ state p = SYN_SENT \/ state p = SYN_RCVD.
#[export] Instance may_write_dec p : Decision (may_write p).
Proof. unfold may_write. apply _. Defined.

Lemma write_checks_spec U A N W V p len : write_ok U A N W V p -> 0 <= len ->
  exists err p', tcp_write_checks p len = Ok (err, p') /\
    ((err = ERR_MEM \/ err = ERR_CONN) /\ refused p p' \/
     err = ERR_OK /\ p' = p /\ may_write p /\ (len = 0 \/ snd_queuelen p < TCP_SND_QUEUELEN) /\ len <= snd_buf p).
Proof.
  intros [Hs Hsp _ [Hb _] _ _ _] Hlen. unfold tcp_write_checks. cbv zeta.
  destruct (queues_empty _ _ _ _ Hsp (so_clen _ _ _ _ _ Hs)) as [He Hq0]. rewrite He.
  destruct (negb (state_is (state p) ESTABLISHED) && _ && _ && _) eqn:Est.
  { exists ERR_CONN, p. split; [done|]. left. split; [by right|by left]. }
  assert (may_write p) as Hmay.
  { unfold may_write, state_is in *. rewrite !andb_false_iff, !negb_false_iff, !bool_decide_eq_true in Est. tauto. }
  destruct (Z.eqb_spec len 0); [exists ERR_OK, p; split; [done|]; right; split_and!; try done; [by left|lia]|].
  destruct (Z.ltb_spec (snd_buf p) len).
  { eexists ERR_MEM, _. split; [done|]. left. split; [by left|by right]. }
  destruct ((TCP_SND_QUEUELEN <=? snd_queuelen p) || _) eqn:Eq.
  { eexists ERR_MEM, _. split; [done|]. left. split; [by left|by right]. }
  apply orb_false_iff in Eq as [Eq%Z.leb_gt _].
  exists ERR_OK, p. destruct (snd_queuelen p =? 0); cbn [negb lwip_assert res_bind];
    (split; [done|]); right; split_and!; try done; lia || (right; lia).
Qed.

Lemma memerr_spec U W V p e : snd_split U W V p -> snd_queuelen p = sum_clen (unacked p) + sum_clen (unsent p) ->
  memerr p e = Ok (ERR_MEM, p <| flags := Z.lor (flags p) TF_NAGLEMEMERR |>, e).
Proof.
  intros H1 H2. unfold memerr. destruct (queues_empty _ _ _ _ H1 H2) as [-> _].
  by destruct (snd_queuelen p =? 0).
Qed.

(** With an effective MSS of 0 a write of something ends without memory. *)
Lemma write_segs_zero p arg apiflags pos : zlen arg <= 65535 -> 0 <= pos < zlen arg ->
  forall fuel e oversize queuelen queue,
  0 <= queuelen -> queuelen <= TCP_SND_QUEUELEN + 1 -> TCP_SND_QUEUELEN + 2 - queuelen <= Z.of_nat fuel ->
  (has_flag apiflags TCP_WRITE_FLAG_COPY = false -> oversize = 0) ->
  exists e', write_segs fuel p e arg 0 apiflags pos oversize queuelen queue = Ok (None, e') /\ env_alloc e e'.
Proof.
  intros Hlen Hpos. change TCP_SND_QUEUELEN with 8. change TCP_SNDQUEUELEN_OVERFLOW with 65532.
  induction fuel as [|fuel IH]; intros e oversize queuelen queue Hql Hql2 Hfuel Hov; [lia|].
  cbn [write_segs]. destruct (Z.ltb_spec pos (zlen arg)); [|lia]. rewrite (u16_id (zlen arg - pos)) by lia.
  destruct (Z.ltb_spec 0 (zlen arg - pos)); [|lia].
  destruct (write_pbuf_spec p e apiflags 0 0 oversize (bool_decide (queue = [])) true)
    as (o & e1 & -> & He1 & Ho); [lia|by auto|]. cbn [res_bind].
  destruct o as [[c spare]|]; [|by exists e1]. destruct (Ho c spare eq_refl) as (Hc & _ & Hsp & Hsp0).
  rewrite (u16_id (queuelen + c)) by lia. destruct (_ || _) eqn:Eq; [by exists e1|].
  apply orb_false_iff in Eq as [Eq%Z.ltb_ge _]. change TCP_SND_QUEUELEN with 8 in Eq.
  unfold tcp_create_segment. step_alloc e1. destruct b; [|exists e0; split; [done|by etransitivity]].
  rewrite Z.add_0_r, (u16_id pos) by lia.
  destruct (IH e0 spare (queuelen + c) (queue ++ [mk_seg (u32 (snd_lbb p + pos)) 0 (zlen (take (Z.to_nat 0) (drop (Z.to_nat pos) arg))) 0
    (take (Z.to_nat 0) (drop (Z.to_nat pos) arg)) c])) as (e2 & -> & He2); [lia|lia|lia|auto|].
  exists e2. split; [done|]. etransitivity; [exact He1|]. by etransitivity.
Qed.

(** The state after a successful write of [arg]. *)
Lemma write_done U A N W V p arg l ov ql (p' := p <| unsent_oversize := ov |> <| unsent := l |>
    <| snd_lbb := u32 (snd_lbb p + zlen arg) |> <| snd_buf := u16 (snd_buf p - zlen arg) |> <| snd_queuelen := ql |>) :
  write_ok U A N W V p -> zlen arg <= snd_buf p -> snd_queue W [] l (V + zlen arg) ->
  stream l = stream (unsent p) ++ arg -> sum_clen (unacked p) + sum_clen l = ql -> room (mss_local p) l ov ->
  0 <= ov -> (l = [] -> ov = 0) -> (Forall (small (mss_local p)) (unsent p) -> Forall (small (mss_local p)) l) ->
  ql <= Z.max TCP_SND_QUEUELEN (snd_queuelen p) -> Forall (reaches U A (V + zlen arg)) l ->
  wrote arg U A N W V p p'.
Proof.
  intros [Hs [Hsu Hsv] Hlbb Hb Hov Hov0 Hroom] Hbuf Hl Hst Hql Hr Hov' Hl0 Hsm Hmax Hreach.
  pose proof (zlen_nonneg arg). pose proof Hs as [_ HA HN Ho Hbd _ Hm Hcw Hss Hbey].
  assert (snd_buf p' = snd_buf p - zlen arg) as Hb' by (unfold p'; cbn; apply u16_id; lia).
  split; try done.
  split; [|by split| |lia|done|done|done].
  - assert (snd_queue U (unacked p) l (V + zlen arg)) as Hj by (by eapply snd_queue_join).
    split; try done; [lia|lia|]. apply beyond_reaches. split; [|exact Hreach].
    apply beyond_reaches in Hbey as [Hbey _]. eapply Forall_impl; [exact Hbey|].
    intros s Hs'. eapply reaches_weaken; [done|lia].
  - change (u32 (snd_lbb p + zlen arg) = u32 (V + zlen arg)). rewrite Hlbb. apply u32_add_l.
Qed.

Lemma write_spec (U A N W V : Z) (p : tcp_pcb) (e : tcp_env) (arg : list Z) (apiflags : Z) :
  write_ok U A N W V p -> zlen arg <= 65535 -> 0 <= snd_wnd_max p <= 65535 ->
  exists err p' e', tcp_write p e arg apiflags = Ok (err, p', e') /\ outs e' = outs e /\
    ((err = ERR_MEM \/ err = ERR_CONN) /\ refused p p' \/
     err = ERR_OK /\ may_write p /\ wrote arg U A N W V p p').
Proof.
  intros H Hlen Hmax. pose proof (zlen_nonneg arg) as H0. unfold tcp_write. cbv zeta.
  change (Z.min (mss p) (snd_wnd_max p / 2)) with (mss_local p).
  destruct (write_checks_spec U A N W V p (zlen arg) H H0) as (err & p1 & -> & Hchk). cbn [res_bind].
  destruct Hchk as [[Herr Hp1]|(-> & -> & Hmay & Hql & Hbuf)].
  { exists err, p1, e. assert ((err =? ERR_OK) = false) as -> by (by destruct Herr as [->| ->]).
    split_and!; try done. by left. }
  cbn [negb Z.eqb]. destruct H as [Hs Hsp Hlbb Hb Hov Hov0 Hroom].
  pose proof (so_mss _ _ _ _ _ Hs) as Hm. pose proof (so_clen _ _ _ _ _ Hs) as Hcl.
  pose proof (so_first _ _ _ _ _ Hs) as Hbey. pose proof (so_order _ _ _ _ _ Hs) as Hord.
  assert (0 <= mss_local p <= 65535) as Hml by (unfold mss_local, TCP_MSS in *; mlia).
  destruct (queues_empty _ _ _ _ Hsp Hcl) as [Hqe Hq0]. destruct Hsp as [Hsu Hsv].
  assert (forall s, last (unsent p) = Some s -> 0 <= seg_len s <= 65535) as Hlens.
  { intros s Hl. destruct (snd_queue_mem _ _ _ _ s Hsv) as (X & _ & HX); [right; by apply last_Some_elem_of|apply HX]. }
  change TCP_SND_QUEUELEN with 8 in *.
  destruct (write_tail_spec p e (zlen arg) (mss_local p) apiflags Hov0 Hov Hroom Hlens) as (o & e1 & -> & He1 & Ho); [lia|lia|lia|].
  cbn [res_bind].
  assert (forall e', env_alloc e e' -> outs e' = outs e) as Houts by (by intros e' [l ->]).
  assert (forall e', outs e' = outs e -> exists err p' e'', memerr p e' = Ok (err, p', e'') /\ outs e'' = outs e /\
     ((err = ERR_MEM \/ err = ERR_CONN) /\ refused p p' \/
      err = ERR_OK /\ may_write p /\ wrote arg U A N W V p p')) as Hmemerr.
  { intros e' He'. rewrite (memerr_spec U W V) by done. eexists _, _, e'. split; [done|]. split; [done|].
    left. split; [by left|by right]. }
  destruct o as [f|]; [|by apply Hmemerr, Houts].
  destruct (Ho f eq_refl) as (F1 & F2 & F3 & F4 & F5 & F6 & F7 & F8 & F9).
  assert (0 <= fill_queuelen f /\ (fill_pos f < zlen arg -> fill_queuelen f <= 8)) as [Hfq1 Hfq2]
    by (rewrite F6; destruct (concat_len f =? 0); lia).
  destruct (decide (mss_local p = 0 /\ fill_pos f < zlen arg)) as [[Hz Hlt]|Hnz].
  { rewrite Hz.
    destruct (write_segs_zero p arg apiflags (fill_pos f) Hlen ltac:(lia) (Z.to_nat (8 + 2)) e1
      (fill_oversize f) (fill_queuelen f) []) as (e2 & -> & He2); [lia|change TCP_SND_QUEUELEN with 8; lia..|auto|].
    cbn [res_bind]. apply Hmemerr, Houts. by etransitivity. }
  destruct (write_segs_spec p arg (mss_local p) apiflags V Hlbb Hml Hlen (Z.to_nat (8 + 2)) e1 (fill_pos f)
    (fill_oversize f) (fill_queuelen f) []) as (o & e2 & -> & He2 & Hr); [lia|lia|lia| |by auto|].
  { change TCP_SND_QUEUELEN with 8. lia. }
  cbn [res_bind]. assert (outs e2 = outs e) as Ho2 by (apply Houts; by etransitivity).
  destruct o as [[[queue ql] ov]|]; [|by apply Hmemerr].
  destruct (Hr queue ql ov eq_refl) as (news & -> & R2 & R3 & R4 & R5 & R6 & R7 & R8 & R9). cbn [app].
  fold (new_unsent arg f (unsent p) news).
  destruct (new_unsent_spec W V (unsent p) arg f (mss_local p) news ov) as (N1 & N2 & N3 & N4 & N5 & N6 & N7); try done.
  { intros E. by destruct (F7 E). }
  assert (sum_clen (unacked p) + sum_clen (new_unsent arg f (unsent p) news) = ql) as Hql'.
  { rewrite N3, R4, F6, Hcl. case_bool_decide as Eu; [|cbn; lia].
    destruct (F7 Eu) as [Hp0 _]. rewrite Eu. assert (concat_len f = 0) as -> by lia. cbn. lia. }
  assert (bool_decide (unacked p = [] /\ new_unsent arg f (unsent p) news = []) = true -> ql = 0) as Hemp.
  { intros [E1 E2]%bool_decide_eq_true. rewrite <- Hql', E1, E2. reflexivity. }
  assert ((ql =? 0) || negb (bool_decide (unacked p = [] /\ new_unsent arg f (unsent p) news = [])) = true) as ->.
  { destruct (Z.eqb_spec ql 0) as [|Hne]; [done|]. cbn. apply negb_true_iff, not_true_iff_false.
    intros Hd. by apply Hne, Hemp. }
  cbn [lwip_assert res_bind]. set (psh := negb (has_flag apiflags TCP_WRITE_FLAG_MORE) && _). clearbody psh.
  destruct (psh_queue psh (new_unsent arg f (unsent p) news)) as (P1 & P2 & P3 & P4 & P5 & P6 & P7).
  set (l := if psh then alter_last (set_hflag TCP_PSH) _ else _) in *.
  eexists _, _, e2. split; [reflexivity|]. split; [done|]. right. split_and!; try done.
  eapply write_done; try done.
  - by apply P1.
  - by rewrite P2.
  - by rewrite P3.
  - by apply P4.
  - intros El. apply P7, N6 in El as [E1 E2]. destruct (F7 E1) as [_ E3]. destruct (R8 E2) as [-> _]. exact E3.
  - intros Hsm. by apply P6, N5.
  - change TCP_SND_QUEUELEN with 8. destruct (decide (news = [])) as [->|Hne]; [|specialize (R5 Hne); change TCP_SND_QUEUELEN with 8 in R5; lia].
    rewrite R4, F6. change (sum_clen []) with 0. destruct (Z.eqb_spec (concat_len f) 0); lia.
  - apply P5; [apply reaches_place|]. apply N7; [|lia..].
    by apply beyond_reaches in Hbey as [_ Hbey].
Qed.

(** C7. [tcp_write] on a control block that is ready for a write ([write_ok]:
    the queues cover the sequence space up to [V] without interleaving, and the
    last unsent segment with its spare room is within the MSS). Whatever
    allocation fails, it either refuses, with ERR_CONN or ERR_MEM, and then
    changes nothing but the flag that notes the failure; or it succeeds in a
    state that may send, and then the bytes are appended to the stream of the
    unsent queue, which covers [V, V + len) with segments no longer than the
    MSS in use, the send buffer shrinks by [len], the queue stays within
    TCP_SND_QUEUELEN pbufs, and the block is ready for the next write. No
    assertion fails and the segmentation loop ends (fuel TCP_SND_QUEUELEN + 2:
    each round adds a pbuf). *)
Theorem tcp_write_correct (U A N W V : Z) (p : tcp_pcb) (e : tcp_env) (arg : list Z) (apiflags : Z) :
  write_ok U A N W V p -> zlen arg <= 65535 -> 0 <= snd_wnd_max p <= 65535 ->
  exists err p' e', tcp_write p e arg apiflags = Ok (err, p', e') /\ outs e' = outs e /\
    ((err = ERR_MEM \/ err = ERR_CONN) /\ refused p p' \/
     err = ERR_OK /\ may_write p /\ wrote arg U A N W V p p').
Proof. apply write_spec. Qed.

(** The demo sender with 20 spare bytes behind its last segment and a peer
    that has announced 4096 bytes. *)
Definition demo_writer : tcp_pcb := demo_sender <| unsent_oversize := 20 |> <| snd_wnd_max := 4096 |>
  <| snd_lbb := u32 4294967440 |>.
Lemma demo_writer_ok : write_ok 4294967290 4294967290 4294967390 4294967390 4294967440 demo_writer.
Proof.
  split.
  - apply (snd_ok_same _ _ _ _ demo_sender); [exact demo_sender_ok|vm_compute; reflexivity|vm_compute; reflexivity].
  - assert (seg_pos 4294967290 (demo_seg 4294967290 100)) as H1 by (split_and!; vm_compute; done).
    assert (seg_pos 4294967390 (demo_seg 4294967390 50)) as H2 by (split_and!; vm_compute; done).
    split; [exact (snd_queue_unacked_single _ _ H1)|exact (snd_queue_single _ _ H2)].
  - reflexivity.
  - change (snd_buf demo_writer) with 1898. lia.
  - change (unsent_oversize demo_writer) with 20. lia.
  - discriminate.
  - intros s [= <-]. vm_compute. discriminate.
Qed.

Lemma tcp_write_correct_witness :
  exists p' e', tcp_write demo_writer demo_idle (repeat 9 600) TCP_WRITE_FLAG_COPY = Ok (ERR_OK, p', e') /\
    stream (unsent p') = repeat 7 50 ++ repeat 9 600 /\ map seg_len (unsent p') = [536; 114] /\ snd_buf p' = 1298.
Proof.
  destruct (tcp_write_correct 4294967290 4294967290 4294967390 4294967390 4294967440 demo_writer demo_idle
    (repeat 9 600) TCP_WRITE_FLAG_COPY demo_writer_ok) as (err & p' & e' & E & _);
    [vm_compute; discriminate|split; vm_compute; discriminate|].
  exists p', e'. revert E. vm_compute. intros [= <- <- <-]. split_and!; reflexivity.
Defined.

(** In SYN_SENT no window has been announced yet ([tcp_connect] leaves
    [snd_wnd_max] at 0), so every write is refused for want of memory, although
    the checks of [tcp_write] admit the state. *)
Example tcp_write_syn_sent :
  let p := zero_pcb <| state := SYN_SENT |> <| mss := 536 |> <| cwnd := 1 |> <| snd_wnd := TCP_WND |>
    <| snd_buf := TCP_SND_BUF |> in
  exists p' e', tcp_write p demo_idle [1; 2; 3] TCP_WRITE_FLAG_COPY = Ok (ERR_MEM, p', e').
Proof. vm_compute. by eexists _, _. Qed.

(** The queues must not be interleaved: with the first segment back on the
    unsent queue after a fast retransmission, and the window of the peer too
    small to send it again, new bytes are put behind it, where the second
    segment's bytes belong. *)
Example tcp_write_interleaved :
  let p := zero_pcb <| state := ESTABLISHED |> <| unsent := [demo_seg 1000 100] |> <| unacked := [demo_seg 1100 100] |>
    <| lastack := 1000 |> <| snd_nxt := 1200 |> <| snd_lbb := 1200 |> <| snd_queuelen := 2 |> <| mss := 536 |>
    <| cwnd := 536 |> <| snd_wnd := 50 |> <| snd_wnd_max := 4096 |> <| snd_buf := 1848 |> in
  exists p' e' s, tcp_write p demo_idle [9] TCP_WRITE_FLAG_COPY = Ok (ERR_OK, p', e') /\ unsent p' = [s] /\
    seg_seqno s = 1000 /\ seg_data s = repeat 7 100 ++ [9] /\ seg_data <$> unacked p' = [repeat 7 100].
Proof. vm_compute. by eexists _, _, _. Qed.
