(* ===== verification/TcpRecv.v ===== *)
(** * TCP receives the stream

    [tcp_receive] as a whole, and every sequence of segment arrivals, calls of
    [tcp_recved], writes and transmissions: what the application is given is a
    prefix of what the peer sent, and the end of the stream is reported only
    behind all of it. *)
From S2P Require Import Prelude ByteOrder IpAddr Ip Tcp TcpOut TcpIn TcpStream TcpAck TcpSend TcpWrite.

(** ** Sending leaves the receive side alone *)
Lemma output_one_frame s rest p e : out_frame p (output_one s rest p e).1.
Proof.
  unfold output_one. set (p1 := p <| unsent := rest |>).
  set (sp := if state_is (state p1) SYN_SENT then _ else _).
  assert (out_frame p sp.2) as H1.
  { unfold sp. destruct state_is; (split; [done|by left|]); intros f Hf; [done|]. apply kept_clear; [done|by left]. }
  destruct sp as [s' q]. cbn [snd] in H1.
  destruct (output_segment_spec s' q e) as (q2 & e2 & -> & S1 & S2 & _ & _ & _ & _ & S7 & _).
  assert (out_frame q q2) as H2 by (split; [done|by right|intros f _; by rewrite S2]).
  set (q3 := if TCP_SEQ_LT _ _ then _ else q2).
  assert (out_frame q2 q3) as H3 by (unfold q3; destruct TCP_SEQ_LT; (split; [done|by left|by intros f])).
  cbn [fst]. etransitivity; [exact H1|]. etransitivity; [exact H2|]. etransitivity; [exact H3|].
  destruct (0 <? TCP_TCPLEN s'); [|reflexivity]. split; [done|by left|by intros f].
Qed.

Lemma output_loop_frame wnd l : forall p e p' e', output_loop l wnd p e = Ok (p', e') -> out_frame p p'.
Proof.
  induction l as [|s rest IH]; intros p e p' e' H; cbn [output_loop] in H; [by injection H as <- _|].
  destruct (in_snd_wnd p wnd s); [|by injection H as <- _].
  apply res_bind_ok in H as (u & _ & H). destruct (_ && _); [by injection H as <- _|].
  pose proof (output_one_frame s rest p e) as H1. destruct (output_one s rest p e) as [q e1].
  etransitivity; [exact H1|]. by eapply IH.
Qed.

Lemma output_frame_ok p e err p' e' : tcp_output p e = Ok (err, p', e') -> out_frame p p'.
Proof.
  unfold tcp_output. intros H. apply res_bind_ok in H as (u & _ & H).
  destruct (is_input_pcb e); [by injection H as _ <- _|]. cbv zeta in H.
  destruct (has_flag (flags p) TF_ACK_NOW && _).
  - injection H as H. destruct (send_empty_ack_out p e) as (? & q & ? & ? & E & F & _). congruence.
  - apply res_bind_ok in H as ([q e1] & H1 & H). apply output_loop_frame in H1.
    apply Ok3_inj in H as (_ & <- & _).
    destruct (output_end q 0) as (r & -> & F & _). by etransitivity.
Qed.

(** Writing and retransmitting leave it alone, too. *)
Lemma write_checks_side p len err p' : tcp_write_checks p len = Ok (err, p') -> rcv_side p' = rcv_side p.
Proof.
  unfold tcp_write_checks. cbv zeta. intros H. repeat case_match; try (apply Ok2_inj in H as [_ <-]; done);
    apply res_bind_ok in H as (u & _ & H); by apply Ok2_inj in H as [_ <-].
Qed.
Lemma write_side p e arg fl err p' e' : tcp_write p e arg fl = Ok (err, p', e') -> rcv_side p' = rcv_side p.
Proof.
  unfold tcp_write. cbv zeta. intros H. apply res_bind_ok in H as ([err1 p1] & H1 & H).
  apply write_checks_side in H1. rewrite <- H1. destruct (negb _); [by apply Ok3_inj in H as (_ & <- & _)|].
  apply res_bind_ok in H as ([o e1] & _ & H).
  assert (forall e0, memerr p1 e0 = Ok (err, p', e') -> rcv_side p' = rcv_side p1) as Hm.
  { intros e0 Hm. unfold memerr in Hm. apply res_bind_ok in Hm as (u & _ & Hm). by apply Ok3_inj in Hm as (_ & <- & _). }
  destruct o as [f|]; [|by eapply Hm].
  apply res_bind_ok in H as ([o e2] & _ & H). destruct o as [[[q ql] ov]|]; [|by eapply Hm].
  apply res_bind_ok in H as (u & _ & H). by apply Ok3_inj in H as (_ & <- & _).
Qed.
Lemma rexmit_rto_frame p e p' e' : tcp_rexmit_rto p e = Ok (p', e') ->
  exists q, rcv_side q = rcv_side p /\ out_frame q p'.
Proof.
  unfold tcp_rexmit_rto. destruct (unacked p) as [|s l] eqn:Eu; intros H.
  - apply Ok2_inj in H as [<- _]. by exists p.
  - apply res_bind_ok in H as ([[err q] e1] & H1 & H). apply Ok2_inj in H as [<- _].
    apply output_frame_ok in H1. eexists. split; [|exact H1]. done.
Qed.

Section Receive.
Context (bs : list Z) (base : Z).
Abbreviation rcv_at := (rcv_at base).
Abbreviation rcv_ok := (rcv_ok bs base).

Lemma rcv_ok_out n hi E p p' : rcv_ok n hi E p -> out_frame p p' -> exists E', rcv_ok n hi E' p'.
Proof.
  intros ([Hn HW Hhi Ha HE HE' Hm] & Hb & Hq) [F G _].
  frame_eq F rcv_nxt. frame_eq F rcv_wnd. frame_eq F rcv_ann_wnd. frame_eq F mss. frame_eq F ooseq.
  unfold TCP_WND, TCP_MSS in *.
  assert (exists E', rcv_ann_right_edge p' = u32 (base + E') /\ hi - 65535 <= E' <= hi) as (E' & HE1 & HE2).
  { destruct G as [G|G]; [exists E; split; [congruence|done]|].
    exists (n + rcv_ann_wnd p). split; [|lia]. rewrite G, Hn, u32_add_l. f_equal. lia. }
  exists E'. split; [|by rewrite Eooseq].
  split; unfold TCP_WND, TCP_MSS; try done; congruence.
Qed.

(** A block with the same receive side. *)
Lemma rcv_ok_side n hi E p p' : rcv_ok n hi E p -> rcv_side p' = rcv_side p -> rcv_ok n hi E p'.
Proof.
  intros ([Hn HW Hhi Ha HE HE' Hm] & Hb & Hq) [= E1 E2 E3 E4 E5 E6 _ _ _ _ _ _].
  split; [split; congruence|]. split; [done|congruence].
Qed.

Lemma oos_ok_hi lo hi hi' l : oos_ok bs base lo hi l -> hi <= hi' -> oos_ok bs base lo hi' l.
Proof.
  revert lo. induction l as [|s l IH]; intros lo H Hhi; [done|]. destruct H as (k & H1 & H2 & H3 & H4 & H5).
  exists k. split_and!; try done; [lia|]. by apply IH.
Qed.

(** [tcp_recved] reopens the window, as long as the edge that was announced is
    not far behind what has been received. *)
Lemma recved_spec n hi E p e len : rcv_ok n hi E p -> 0 <= len <= 65535 ->
  s32 (rcv_nxt p - rcv_ann_right_edge p) <= 32768 ->
  forall p' e', tcp_recved p e len = Ok (p', e') ->
  exists hi' E', hi <= hi' /\ rcv_ok n hi' E' p' /\ state p' = state p.
Proof.
  intros ([Hn HW Hhi Ha HE HE' Hm] & Hb & Hq) Hlen Hedge p' e' H. unfold TCP_WND, TCP_MSS in *.
  assert (n - 32768 <= E) as HnE by (rewrite Hn, HE in Hedge; mlia).
  unfold tcp_recved in H. apply res_bind_ok in H as (u & _ & H). apply res_bind_ok in H as (u' & H1 & H).
  unfold lwip_assert in H1. destruct (Z.leb_spec len (65535 - rcv_wnd p)) as [Hle|]; [|discriminate]. clear H1.
  set (w := Z.min (u16 (rcv_wnd p + len)) _) in H.
  assert (rcv_wnd p <= w <= 4 * 1024) as Hw by (unfold w, TCP_WND, TCP_MSS; rewrite u16_id; lia).
  clearbody w. set (p1 := p <| rcv_wnd := w |>) in *.
  destruct (rcv_ann_wnd_spec p1 (base + n) (base + E)) as (d & w' & E1 & Hw' & _);
    try done; try (unfold TCP_WND, TCP_MSS; change (rcv_wnd p1) with w; lia).
  rewrite E1 in H. cbn [res_bind] in H. change (rcv_wnd p1) with w in Hw'.
  set (p2 := p1 <| rcv_ann_wnd := w' |>) in *.
  assert (rcv_ok n (n + w) E p2) as Hok.
  { split; [|split; [done|apply (oos_ok_hi _ hi); [done|lia]]].
    split; try done; unfold TCP_WND, TCP_MSS; change (rcv_ann_wnd p2) with w'; try lia.
    change (w = n + w - n). lia. }
  destruct (TCP_WND_UPDATE_THRESHOLD <=? s32 d).
  - apply res_bind_ok in H as ([[err q] e1] & H1 & H). injection H as <- <-.
    apply output_frame_ok in H1. destruct (rcv_ok_out n (n + w) E (tcp_ack_now p2) q) as (E' & Hq'); [|done|].
    { by apply rcv_ok_ack_now. }
    exists (n + w), E'. split; [lia|]. split; [done|]. by rewrite (of_state _ _ H1).
  - injection H as <- _. exists (n + w), E. split; [lia|done].
Qed.

(** ** A segment through tcp_receive *)
Lemma received_side p p1 n hi a t i n2 p' i' : rcv_side p1 = rcv_side p ->
  received bs base n hi a t p1 i n2 p' i' ->
  n <= n2 /\ collected bs n n2 i' /\ in_same i i' /\ snd_side p' = snd_side p1 /\
  (n2 <= zlen bs -> (exists E2, rcv_ok n2 hi E2 p') /\ state p' = state p) /\
  (n2 <= zlen bs \/ n2 = zlen bs + 1) /\ (a <= n -> Z.min (a + t) hi <= n2).
Proof.
  intros Hs (H1 & H2 & H3 & H4 & (E2 & H5 & H6) & H7 & H8 & H9).
  assert (state p1 = state p) as Hst by (by injection Hs).
  split_and!; try done. intros Hle. destruct (H6 Hle) as [H10 H11]. split; [by exists E2|congruence].
Qed.

Lemma receive_spec p e n hi E a i p' e' i' :
  rcv_ok n hi E p -> arrival bs base n hi a i -> collected bs n n i ->
  rcv_nxt p + rcv_wnd p < 4294967296 -> 4 <= state_num (state p) < 7 ->
  tcp_receive p e i = Ok (p', e', i') -> exists n2, n <= n2 /\ collected bs n n2 i' /\
  (n2 <= zlen bs -> (exists E2, rcv_ok n2 hi E2 p') /\ state p' = state p) /\
  (n2 <= zlen bs \/ n2 = zlen bs + 1) /\ (a <= n -> Z.min (a + TCP_TCPLEN (inseg i)) hi <= n2).
Proof.
  intros Hok Har Hc Hwrap Hst H. unfold tcp_receive in H. apply res_bind_ok in H as (u & _ & H).
  apply res_bind_ok in H as (p1 & H1 & H).
  assert (rcv_side p1 = rcv_side p) as Hs.
  { destruct (has_flag _ _); [by eapply recv_ack_rcv_side|by injection H1 as <-]. }
  assert (Hs' := Hs). injection Hs' as S1 S2 _ _ _ _ S3 _ _ _ _ _.
  destruct (recv_text_spec bs base p1 e n hi E a i) as (q & e1 & i1 & n2 & E1 & R);
    [by eapply rcv_ok_side|done|done|lia|by rewrite S3|].
  rewrite E1 in H. apply Ok3_inj in H as (<- & _ & <-). exists n2.
  destruct (received_side _ _ _ _ _ _ _ _ _ _ Hs R) as (R1 & R2 & _ & _ & R5 & R6 & R7). done.
Qed.

(** ** The receiver as a state machine

    A configuration is the control block, the bytes given to the application
    so far and whether the end of the stream has been reported. *)
Record rconf := mk_rconf { rc_pcb : tcp_pcb; rc_got : list Z; rc_eof : bool }.

(** The steps. A segment arrives while the stream is open; it meets [arrival]
    for the bytes received so far and the window, and the window does not wrap
    around 2^32 (see [trim_overrun]). Between segments the application opens
    the window, writes, and the stack sends and retransmits. *)
Inductive rstep : rconf -> rconf -> Prop :=
  | rs_segment p got e i a p' e' i' :
      4 <= state_num (state p) < 7 -> rcv_nxt p + rcv_wnd p < 4294967296 ->
      arrival bs base (zlen got) (zlen got + rcv_wnd p) a i ->
      recv_data i = None -> has_flag (recv_flags i) TF_GOT_FIN = false ->
      tcp_receive p e i = Ok (p', e', i') ->
      rstep (mk_rconf p got false)
        (mk_rconf p' (got ++ default [] (recv_data i')) (has_flag (recv_flags i') TF_GOT_FIN))
  | rs_recved p got eof e len p' e' :
      0 <= len <= 65535 -> s32 (rcv_nxt p - rcv_ann_right_edge p) <= 32768 ->
      tcp_recved p e len = Ok (p', e') -> rstep (mk_rconf p got eof) (mk_rconf p' got eof)
  | rs_write p got eof e arg fl err p' e' :
      tcp_write p e arg fl = Ok (err, p', e') -> rstep (mk_rconf p got eof) (mk_rconf p' got eof)
  | rs_output p got eof e err p' e' :
      tcp_output p e = Ok (err, p', e') -> rstep (mk_rconf p got eof) (mk_rconf p' got eof)
  | rs_rexmit p got eof e p' e' :
      tcp_rexmit_rto p e = Ok (p', e') -> rstep (mk_rconf p got eof) (mk_rconf p' got eof).

Definition rinv (c : rconf) : Prop :=
  if rc_eof c then rc_got c = bs
  else rc_got c = slice 0 (zlen (rc_got c)) bs /\
    exists E, rcv_ok (zlen (rc_got c)) (zlen (rc_got c) + rcv_wnd (rc_pcb c)) E (rc_pcb c).

Lemma rcv_ok_wnd n hi E p : rcv_ok n hi E p -> hi = n + rcv_wnd p.
Proof. intros ([_ HW _ _ _ _ _] & _). lia. Qed.

Lemma rinv_send p p' got eof : (forall n hi E, rcv_ok n hi E p -> exists hi' E', rcv_ok n hi' E' p') ->
  rinv (mk_rconf p got eof) -> rinv (mk_rconf p' got eof).
Proof.
  intros H. unfold rinv. cbn [rc_eof rc_got rc_pcb]. destruct eof; [done|]. intros [Hg (E & Hok)]. split; [done|].
  destruct (H _ _ _ Hok) as (hi' & E' & Hok'). exists E'. by rewrite <- (rcv_ok_wnd _ _ _ _ Hok').
Qed.

Lemma rinv_step c c' : rstep c c' -> rinv c -> rinv c'.
Proof.
  intros [p got e i a p' e' i' Hst Hwrap Har Hd Hf H|p got eof e len p' e' Hlen Hedge H|
    p got eof e arg fl err p' e' H|p got eof e err p' e' H|p got eof e p' e' H]; [|apply rinv_send; intros n hi E Hok..].
  - unfold rinv at 1. cbn [rc_eof rc_got rc_pcb]. intros [Hg (E & Hok)].
    pose proof Hok as (_ & Hn & _).
    assert (collected bs (zlen got) (zlen got) i) as Hc.
    { split; [rewrite decide_False by lia; done|]. rewrite Hf. symmetry. apply bool_decide_eq_false. lia. }
    destruct (receive_spec p e _ _ E a i p' e' i' Hok Har Hc Hwrap Hst H) as (n2 & H1 & [H2 H2'] & H3 & H4 & _).
    set (got' := got ++ default [] (recv_data i')).
    assert (got' = slice 0 (Z.min n2 (zlen bs)) bs) as Hg'.
    { unfold got'. rewrite H2. destruct (decide (zlen got < Z.min n2 (zlen bs))); cbn [default from_option id].
      - rewrite Hg at 1. pose proof (zlen_nonneg got).
        assert (slice (zlen got) = slice (0 + zlen got)) as -> by done. rewrite slice_app by lia. f_equal. lia.
      - rewrite app_nil_r. rewrite Hg at 1. f_equal. lia. }
    unfold rinv. cbn [rc_eof rc_got rc_pcb]. rewrite H2'. case_bool_decide as En.
    + fold got'. rewrite Hg', Z.min_r by lia. apply slice_all.
    + assert (n2 <= zlen bs) as Hle by lia. destruct (H3 Hle) as [(E2 & Hok') _]. fold got'.
      rewrite Z.min_l in Hg' by lia. assert (zlen got' = n2) as Hz by (rewrite Hg'; apply zlen_slice; lia).
      rewrite Hz. split; [done|]. exists E2. by rewrite <- (rcv_ok_wnd _ _ _ _ Hok').
  - destruct (recved_spec _ _ _ _ _ _ Hok Hlen Hedge _ _ H) as (hi' & E' & _ & Hok' & _). by exists hi', E'.
  - apply write_side in H. exists hi, E. by eapply rcv_ok_side.
  - apply output_frame_ok in H. destruct (rcv_ok_out _ _ _ _ _ Hok H) as (E' & Hok'). by exists hi, E'.
  - apply rexmit_rto_frame in H as (q & H1 & H2).
    destruct (rcv_ok_out n hi E q p') as (E' & Hok'); [by eapply rcv_ok_side|done|]. by exists hi, E'.
Qed.

Lemma rinv_reach c c' : rtc rstep c c' -> rinv c -> rinv c'.
Proof. induction 1 as [|c c1 c2 H _ IH]; [done|]. intros Hc. apply IH. by eapply rinv_step. Qed.
End Receive.

(** C1. Whatever segments arrive, in whatever order, overlap and repetition,
    and whatever the application and the sender of this side do in between:
    the bytes given to the application are at all times a prefix of the bytes
    [bs] the peer sent, and when the end of the stream has been reported they
    are all of them. The segments are pieces of the stream ([arrival]), the
    peer keeps to the receive window, and the window does not wrap around 2^32
    (the code's check of it does not allow for that: [overrun_wrap]). *)
Theorem tcp_stream_prefix (bs : list Z) (base E : Z) (p : tcp_pcb) (c : rconf) :
  rcv_ok bs base 0 (rcv_wnd p) E p -> rtc (rstep bs base) (mk_rconf p [] false) c ->
  rc_got c `prefix_of` bs /\ (rc_eof c = true -> rc_got c = bs).
Proof.
  intros Hok Hr. assert (rinv bs base c) as Hc.
  { eapply rinv_reach; [exact Hr|]. split; [done|]. exists E. exact Hok. }
  unfold rinv in Hc. destruct (rc_eof c); [by rewrite Hc|]. split; [|done].
  destruct Hc as [-> _]. rewrite slice_0. exists (drop (Z.to_nat (zlen (rc_got c))) bs).
  by rewrite take_drop.
Qed.

(** C4. One segment through [tcp_receive], on a control block whose two sides
    satisfy their invariants: no assertion fails (so no segment that keeps to
    the window can stop the stack), the acknowledgement is processed as
    [recv_ack] does, the application gets exactly the next bytes and the end
    of the stream when it is reached, a segment that begins at or before the
    next byte is consumed up to its end or the end of the window, with all
    queued segments that follow on it, and the invariant of the receive side
    holds again. *)
Theorem tcp_receive_correct (bs : list Z) (base U A N V K n hi E a : Z) (p : tcp_pcb) (e : tcp_env) (i : tcp_in) :
  snd_ok U A N V p -> in_ackno i = u32 K -> -1073741824 <= K - A <= 1073741824 ->
  0 <= ssthresh p <= 65535 -> 0 <= snd_wnd p <= 65535 -> 0 <= in_wnd i <= 65535 ->
  rcv_ok bs base n hi E p -> arrival bs base n hi a i -> collected bs n n i ->
  rcv_nxt p + rcv_wnd p < 4294967296 -> 4 <= state_num (state p) < 7 ->
  exists p1 p' e' i' n2, (if has_flag (in_flags i) TCP_ACK then recv_ack p e i else Ok p) = Ok p1 /\
    tcp_receive p e i = Ok (p', e', i') /\ snd_side p' = snd_side p1 /\
    n <= n2 /\ collected bs n n2 i' /\ (a <= n -> Z.min (a + TCP_TCPLEN (inseg i)) hi <= n2) /\
    (n2 <= zlen bs -> exists E2, rcv_ok bs base n2 hi E2 p').
Proof.
  intros Hs HK HKA Hss Hw Hi Hok Har Hc Hwrap Hst. unfold tcp_receive.
  destruct (Z.leb_spec 4 (state_num (state p))); [|lia]. cbn [lwip_assert res_bind].
  assert (exists p1, (if has_flag (in_flags i) TCP_ACK then recv_ack p e i else Ok p) = Ok p1 /\
    rcv_side p1 = rcv_side p) as (p1 & -> & Hr).
  { destruct (has_flag _ _); [|by exists p].
    destruct (decide (A < K <= N)) as [Hn|Hn].
    - destruct (recv_ack_new U A N V p e i K) as (p' & U' & E1 & _); try done.
      exists p'. split; [done|by eapply recv_ack_rcv_side].
    - destruct (recv_ack_old U A N V p e i K) as (p' & E1 & _); try done; [lia|].
      exists p'. split; [done|by eapply recv_ack_rcv_side]. }
  cbn [res_bind]. assert (Hr' := Hr). injection Hr' as S1 S2 _ _ _ _ S3 _ _ _ _ _.
  destruct (recv_text_spec bs base p1 e n hi E a i) as (q & e1 & i1 & n2 & E1 & R);
    [by eapply rcv_ok_side|done|done|lia|by rewrite S3|].
  exists p1, q, e1, i1, n2. destruct (received_side _ _ _ _ _ _ _ _ _ _ _ _ Hr R) as (R1 & R2 & _ & R4 & R5 & _ & R7).
  split_and!; try done. intros Hle. by destruct (R5 Hle).
Qed.

(** ** A run *)

(** A receiver expecting byte 0 of the stream 11 12 13 14 15 at sequence number
    5000, with the send side of the demo sender. *)
Definition demo_bs : list Z := [11; 12; 13; 14; 15].
Definition demo_rcv : tcp_pcb := demo_sender <| rcv_nxt := 5000 |> <| rcv_wnd := TCP_WND |>
  <| rcv_ann_wnd := TCP_WND |> <| rcv_ann_right_edge := 5000 + TCP_WND |>.
Lemma demo_rcv_ok : rcv_ok demo_bs 5000 0 TCP_WND TCP_WND demo_rcv.
Proof. split; [split|]; try reflexivity; try (vm_compute; split; discriminate). split; [vm_compute; split; discriminate|exact I]. Qed.

(** The arrival of the bytes [k, k + len). *)
Definition demo_arrival (k len flags : Z) : tcp_in :=
  demo_in (5000 + k) 4294967290 flags (slice k len demo_bs).

Lemma demo_piece n k len fl : 0 <= k -> 0 < len -> k + len <= 5 -> 0 <= n <= 5 -> fl = TCP_ACK ->
  arrival demo_bs 5000 n (n + TCP_WND) k (demo_arrival k len fl).
Proof.
  intros Hk Hl Hkl Hn ->. unfold demo_arrival, demo_in.
  assert (zlen (slice k len demo_bs) = len) as Hz by (apply zlen_slice; [lia..|exact Hkl]).
  change (has_flag TCP_ACK SYN_FIN) with false. rewrite Hz, Z.add_0_r.
  assert (TCP_TCPLEN (mk_seg (u32 (5000 + k)) TCP_ACK len 0 (slice k len demo_bs) 1) = len) as Ht by (apply Z.add_0_r).
  split; try done; cbn [in_seqno inseg in_tcplen]; rewrite ?Ht; try (cbn; lia); [|unfold TCP_WND, TCP_MSS; lia].
  unfold seg_at. rewrite Ht. cbn [seg_seqno seg_len seg_data seg_hflags].
  change (zlen demo_bs) with 5. split_and!; done || lia.
Qed.

(** The bytes 2, 3, 4 arrive before the bytes 0, 1, 2. *)
Lemma tcp_stream_prefix_witness :
  exists c, rtc (rstep demo_bs 5000) (mk_rconf demo_rcv [] false) c /\ rc_got c = demo_bs /\
    rc_got c `prefix_of` demo_bs.
Proof.
  assert (exists c, rtc (rstep demo_bs 5000) (mk_rconf demo_rcv [] false) c /\ rc_got c = demo_bs) as (c & Hr & Hg).
  { eexists. split.
    - eapply rtc_l.
      { eapply (rs_segment _ _ _ _ demo_idle (demo_arrival 2 3 TCP_ACK) 2);
          [split; vm_compute; [discriminate|reflexivity]|reflexivity|apply (demo_piece 0); lia || reflexivity|
           reflexivity|reflexivity|vm_compute; reflexivity]. }
      eapply rtc_l; [|apply rtc_refl].
      eapply (rs_segment _ _ _ _ demo_idle (demo_arrival 0 3 TCP_ACK) 0);
        [split; vm_compute; [discriminate|reflexivity]|reflexivity|apply (demo_piece 0); lia || reflexivity|
         reflexivity|reflexivity|vm_compute; reflexivity].
    - vm_compute. reflexivity. }
  exists c. split; [done|]. split; [done|].
  apply (tcp_stream_prefix demo_bs 5000 TCP_WND demo_rcv c); [exact demo_rcv_ok|exact Hr].
Defined.

Lemma tcp_receive_correct_witness :
  exists p' e' i', tcp_receive demo_rcv demo_idle (demo_arrival 0 3 TCP_ACK) = Ok (p', e', i') /\
    recv_data i' = Some [11; 12; 13] /\ rcv_nxt p' = 5003.
Proof.
  destruct (tcp_receive_correct demo_bs 5000 4294967290 4294967290 4294967390 4294967440 4294967290 0 TCP_WND TCP_WND 0
    demo_rcv demo_idle (demo_arrival 0 3 TCP_ACK)) as (p1 & p' & e' & i' & n2 & _ & E1 & _).
  - apply (snd_ok_same _ _ _ _ demo_sender); [exact demo_sender_ok|vm_compute; reflexivity|vm_compute; reflexivity].
  - reflexivity.
  - lia.
  - split; vm_compute; discriminate.
  - split; vm_compute; discriminate.
  - split; vm_compute; discriminate.
  - exact demo_rcv_ok.
  - apply (demo_piece 0); lia || reflexivity.
  - split; reflexivity.
  - reflexivity.
  - split; vm_compute; [discriminate|reflexivity].
  - exists p', e', i'. split; [exact E1|]. revert E1. vm_compute. intros [= <- _ <-]. done.
Defined.

(** ** Outside the assumptions *)

(** The check for an overrun of the window compares the two right edges as
    unsigned numbers. When the window reaches over 2^32 a segment that is well
    inside it, queued behind another one, is taken to overrun it; its length
    is then extended up to the right edge of the window although it has no
    more data, so that sequence numbers of bytes that were never received
    count as received. Here one byte at position 8 becomes 4088. *)
Example overrun_wrap :
  let p := demo_rcv <| rcv_nxt := 4294967200 |> <| rcv_ann_right_edge := u32 (4294967200 + TCP_WND) |>
    <| ooseq := [mk_seg 4294967204 TCP_ACK 1 0 [14] 1] |> in
  exists p' e' i', tcp_receive p demo_idle (demo_in 4294967208 4294967290 TCP_ACK [18]) = Ok (p', e', i') /\
    map (fun s => (seg_seqno s, seg_len s, seg_data s)) (ooseq p') =
      [(4294967204, 1, [14]); (4294967208, 4088, [18])].
Proof. vm_compute. by eexists _, _, _. Qed.

(** A segment that begins inside the window and ends behind it is queued
    untrimmed when the queue is empty; when the gap before it is filled the
    assertion that it fits in the window fails and aborts the process. Any
    peer can do this with two segments. *)
Example overrun_abort :
  let p := demo_rcv <| rcv_wnd := 5 |> <| rcv_ann_wnd := 5 |> <| rcv_ann_right_edge := 5005 |> in
  match tcp_receive p demo_idle (demo_in 5001 4294967290 TCP_ACK (repeat 9 10)) with
  | Ok (p', _, _) => tcp_receive p' demo_idle (demo_in 5000 4294967290 TCP_ACK [8]) = Err AssertFailed
  | Err _ => False
  end.
Proof. vm_compute. reflexivity. Qed.
