(* ===== verification/TcpWorld.v ===== *)
(** * TCP: the lists of control blocks and the raw API (src/src/lwip/core/tcp.c)

    The globals of tcp.c are a record [tcp_world]: the control blocks by
    address, the four lists as lists of addresses, the counters, and the
    environment of Tcp.v. A pointer that does not point to a control block
    makes an access fail with [BadAccess], so use after free is visible.
    [w_app] is the state of the application. *)
From S2P Require Import Prelude ByteOrder IpAddr Ip Tcp TcpOut TcpIn.

(** ** Control blocks in LISTEN, lists *)
Record tcp_pcb_listen := mk_listen {
  ls_local_ip : Z; ls_so_options : Z; ls_tos : Z; ls_ttl : Z; ls_prio : Z; ls_local_port : Z
}.

Abbreviation addr := positive (only parsing).

Record tcp_world (A : Type) := mk_world {
  w_pcbs : gmap addr tcp_pcb;
  w_listen : gmap addr tcp_pcb_listen;
  tcp_active_pcbs : list addr;
  tcp_tw_pcbs : list addr;
  tcp_bound_pcbs : list addr;
  tcp_listen_pcbs : list addr;
  tcp_active_pcbs_changed : bool;
  tcp_timer : Z;
  tcp_timer_ctr : Z;
  tcp_port : Z;
  tcp_iss : Z;
  tcp_input_pcb : option addr;
  w_env : tcp_env;
  w_app : A
}.
Arguments mk_world {A}. Arguments w_pcbs {A}. Arguments w_listen {A}. Arguments tcp_active_pcbs {A}.
Arguments tcp_tw_pcbs {A}. Arguments tcp_bound_pcbs {A}. Arguments tcp_listen_pcbs {A}.
Arguments tcp_active_pcbs_changed {A}. Arguments tcp_timer {A}. Arguments tcp_timer_ctr {A}. Arguments tcp_port {A}.
Arguments tcp_iss {A}. Arguments tcp_input_pcb {A}. Arguments w_env {A}. Arguments w_app {A}.
#[export] Instance world_eta {A} : Eta (tcp_world A) :=
  {| eta w := mk_world (w_pcbs w) (w_listen w) (tcp_active_pcbs w) (tcp_tw_pcbs w) (tcp_bound_pcbs w)
       (tcp_listen_pcbs w) (tcp_active_pcbs_changed w) (tcp_timer w) (tcp_timer_ctr w) (tcp_port w) (tcp_iss w)
       (tcp_input_pcb w) (w_env w) (w_app w) |}.
#[export] Instance set_w_pcbs {A} : Setter (@w_pcbs A) := ltac:(setter).
#[export] Instance set_w_listen {A} : Setter (@w_listen A) := ltac:(setter).
#[export] Instance set_tcp_active_pcbs {A} : Setter (@tcp_active_pcbs A) := ltac:(setter).
#[export] Instance set_tcp_tw_pcbs {A} : Setter (@tcp_tw_pcbs A) := ltac:(setter).
#[export] Instance set_tcp_bound_pcbs {A} : Setter (@tcp_bound_pcbs A) := ltac:(setter).
#[export] Instance set_tcp_listen_pcbs {A} : Setter (@tcp_listen_pcbs A) := ltac:(setter).
#[export] Instance set_tcp_active_pcbs_changed {A} : Setter (@tcp_active_pcbs_changed A) := ltac:(setter).
#[export] Instance set_tcp_timer {A} : Setter (@tcp_timer A) := ltac:(setter).
#[export] Instance set_tcp_timer_ctr {A} : Setter (@tcp_timer_ctr A) := ltac:(setter).
#[export] Instance set_tcp_port {A} : Setter (@tcp_port A) := ltac:(setter).
#[export] Instance set_tcp_iss {A} : Setter (@tcp_iss A) := ltac:(setter).
#[export] Instance set_tcp_input_pcb {A} : Setter (@tcp_input_pcb A) := ltac:(setter).
#[export] Instance set_w_env {A} : Setter (@w_env A) := ltac:(setter).
#[export] Instance set_w_app {A} : Setter (@w_app A) := ltac:(setter).

Definition TCP_PRIO_NORMAL : Z := 64.
Definition TCP_PRIO_MAX : Z := 127.
Definition TCP_LOCAL_PORT_RANGE_START : Z := 0xc000.
Definition TCP_LOCAL_PORT_RANGE_END : Z := 0xffff.

(** The application's callbacks: what the macros TCP_EVENT_* do for a control
    block, the default callbacks included. [ev_recv] with [None] is the end of
    the stream. [ev_passive] is what the block of a passive open inherits of the
    listening one: the callback argument and the accept function. *)
Record tcp_callbacks (A : Type) := mk_callbacks {
  ev_accept : addr -> err_t -> tcp_world A -> res (err_t * tcp_world A);
  ev_sent : addr -> Z -> tcp_world A -> res (err_t * tcp_world A);
  ev_recv : addr -> option (list Z) -> err_t -> tcp_world A -> res (err_t * tcp_world A);
  ev_connected : addr -> err_t -> tcp_world A -> res (err_t * tcp_world A);
  ev_poll : addr -> tcp_world A -> res (err_t * tcp_world A);
  ev_err : addr -> err_t -> tcp_world A -> res (tcp_world A);
  ev_passive : addr -> addr -> A -> A
}.
Arguments ev_accept {A}. Arguments ev_sent {A}. Arguments ev_recv {A}. Arguments ev_connected {A}.
Arguments ev_poll {A}. Arguments ev_err {A}. Arguments ev_passive {A}.

(** The first occurrence of an address is unlinked. *)
Fixpoint unlink (x : addr) (l : list addr) : list addr :=
  match l with
  | [] => []
  | y :: l' => if bool_decide (x = y) then l' else y :: unlink x l'
  end.

Section World.
Context {A : Type}.
Abbreviation world := (tcp_world A).
Implicit Types (w : world) (id : addr).

(** ** Access *)
Definition get_pcb (w : world) (id : addr) : res tcp_pcb := of_option BadAccess (w_pcbs w !! id).
Definition put_pcb (id : addr) (p : tcp_pcb) (w : world) : world := w <| w_pcbs := <[id := p]> (w_pcbs w) |>.
Definition free_pcb (id : addr) (w : world) : world := w <| w_pcbs := delete id (w_pcbs w) |>.
Definition upd_pcb (id : addr) (f : tcp_pcb -> tcp_pcb) (w : world) : res world :=
  let! p := get_pcb w id in Ok (put_pcb id (f p) w).

(** The environment for operations on one control block. *)
Definition env_for (w : world) (id : addr) : tcp_env :=
  (w_env w) <| is_input_pcb := bool_decide (tcp_input_pcb w = Some id) |>.

(** Run an operation of a control block. *)
Definition run_pcb {R} (id : addr) (f : tcp_pcb -> tcp_env -> res (R * tcp_pcb * tcp_env)) (w : world)
  : res (R * world) :=
  let! p := get_pcb w id in
  let! (r, p, e) := f p (env_for w id) in
  Ok (r, put_pcb id p (w <| w_env := e |>)).
Definition w_output (id : addr) (w : world) : res (err_t * world) := run_pcb id tcp_output w.
Definition w_send_fin (id : addr) (w : world) : res (err_t * world) := run_pcb id tcp_send_fin w.
Definition w_rst (seqno ackno lip rip lport rport : Z) (w : world) : world :=
  w <| w_env := tcp_rst (w_env w) seqno ackno lip rip lport rport |>.
Definition w_alloc (w : world) : bool * world :=
  let '(ok, e) := alloc (w_env w) in (ok, w <| w_env := e |>).

(** An address no control block has. *)
Definition fresh_addr (w : world) : addr :=
  Pos.succ (Pos.max (map_fold (fun k _ m => Pos.max k m) 1%positive (w_pcbs w))
                    (map_fold (fun k _ m => Pos.max k m) 1%positive (w_listen w))).

(** ** Lists (TCP_REG, TCP_RMV of tcp_impl.h) *)
Definition reg_active (id : addr) (w : world) : world :=
  w <| tcp_active_pcbs := id :: tcp_active_pcbs w |> <| tcp_active_pcbs_changed := true |>.
Definition rmv_active (id : addr) (w : world) : world :=
  w <| tcp_active_pcbs := unlink id (tcp_active_pcbs w) |> <| tcp_active_pcbs_changed := true |>.
Definition reg_tw (id : addr) (w : world) : world := w <| tcp_tw_pcbs := id :: tcp_tw_pcbs w |>.
Definition reg_bound (id : addr) (w : world) : world := w <| tcp_bound_pcbs := id :: tcp_bound_pcbs w |>.
Definition rmv_bound (id : addr) (w : world) : world := w <| tcp_bound_pcbs := unlink id (tcp_bound_pcbs w) |>.
Definition reg_listen (id : addr) (w : world) : world := w <| tcp_listen_pcbs := id :: tcp_listen_pcbs w |>.
Definition rmv_listen (id : addr) (w : world) : world := w <| tcp_listen_pcbs := unlink id (tcp_listen_pcbs w) |>.

(** [tcp_pcb_remove] behind TCP_RMV. *)
Definition pcb_remove (id : addr) (w : world) : res world :=
  let! w := upd_pcb id tcp_pcb_purge w in
  let! p := get_pcb w id in
  let! w :=
    if negb (state_is (state p) TIME_WAIT) && negb (state_is (state p) LISTEN) && has_flag (flags p) TF_ACK_DELAY then
      let! (_, w) := w_output id (put_pcb id (tcp_ack_now p) w) in Ok w
    else Ok w in
  let! p := get_pcb w id in
  assert! state_is (state p) LISTEN || bool_decide (unsent p = []) in
  assert! state_is (state p) LISTEN || bool_decide (unacked p = []) in
  assert! state_is (state p) LISTEN || bool_decide (ooseq p = []) in
  Ok (put_pcb id (p <| state := CLOSED |>) w).
Definition tcp_pcb_remove_active (id : addr) (w : world) : res world :=
  pcb_remove id (w <| tcp_active_pcbs := unlink id (tcp_active_pcbs w) |>).
(** TCP_PCB_REMOVE_ACTIVE *)
Definition remove_active_changed (id : addr) (w : world) : res world :=
  let! w := tcp_pcb_remove_active id w in Ok (w <| tcp_active_pcbs_changed := true |>).
Definition tcp_pcb_remove_tw (id : addr) (w : world) : res world :=
  pcb_remove id (w <| tcp_tw_pcbs := unlink id (tcp_tw_pcbs w) |>).

(** ** Initial sequence numbers and ports *)
Definition tcp_next_iss (w : world) : Z * world :=
  let iss := u32 (tcp_iss w + tcp_ticks (w_env w)) in (iss, w <| tcp_iss := iss |>).

(** Local address, port and options of every control block of a list. *)
Definition pcb_binding (w : world) (id : addr) : res (Z * Z * Z) :=
  let! p := get_pcb w id in Ok (local_ip p, local_port p, so_options p).
Definition listen_binding (w : world) (id : addr) : res (Z * Z * Z) :=
  let! l := of_option BadAccess (w_listen w !! id) in Ok (ls_local_ip l, ls_local_port l, ls_so_options l).
Fixpoint collect {B} (f : addr -> res B) (l : list addr) : res (list B) :=
  match l with
  | [] => Ok []
  | x :: l' => let! b := f x in let! bs := collect f l' in Ok (b :: bs)
  end.
(** All lists, in the order of [tcp_pcb_lists]; [tw] says whether the
    TIME-WAIT list counts. *)
Definition bindings (w : world) (tw : bool) : res (list (Z * Z * Z)) :=
  let! l1 := collect (listen_binding w) (tcp_listen_pcbs w) in
  let! l2 := collect (pcb_binding w) (tcp_bound_pcbs w) in
  let! l3 := collect (pcb_binding w) (tcp_active_pcbs w) in
  let! l4 := if tw then collect (pcb_binding w) (tcp_tw_pcbs w) else Ok [] in
  Ok (l1 ++ l2 ++ l3 ++ l4).

(** The loop of [tcp_new_port]; [n] counts the ports found in use. *)
Fixpoint new_port_loop (fuel : nat) (used : list Z) (port n : Z) : res (Z * Z) :=
  match fuel with
  | O => Err OutOfFuel
  | S fuel =>
      let port := if port =? TCP_LOCAL_PORT_RANGE_END then TCP_LOCAL_PORT_RANGE_START else u16 (port + 1) in
      if bool_decide (port ∈ used) then
        let n := u16 (n + 1) in
        if TCP_LOCAL_PORT_RANGE_END - TCP_LOCAL_PORT_RANGE_START <? n then Ok (0, port)
        else new_port_loop fuel used port n
      else Ok (port, port)
  end.
Definition tcp_new_port (w : world) : res (Z * world) :=
  let! bs := bindings w true in
  let! (r, port) := new_port_loop (Z.to_nat 0x4001) (map (fun '(_, port, _) => port) bs) (tcp_port w) 0 in
  Ok (r, w <| tcp_port := port |>).

Context (cb : tcp_callbacks A).

(** ** Aborting and closing *)
Definition tcp_abandon (id : addr) (reset : bool) (w : world) : res world :=
  let! p := get_pcb w id in
  assert! negb (state_is (state p) LISTEN) in
  if state_is (state p) TIME_WAIT then
    let! w := tcp_pcb_remove_tw id w in Ok (free_pcb id w)
  else
    let! w := remove_active_changed id w in
    let! q := get_pcb w id in
    let w := if reset then w_rst (snd_nxt p) (rcv_nxt p) (local_ip q) (remote_ip q) (local_port q) (remote_port q) w else w in
    ev_err cb id ERR_ABRT (free_pcb id w).
Definition tcp_abort (id : addr) (w : world) : res world := tcp_abandon id true w.

(** [tcp_close_shutdown] of a control block that is not listening. *)
Definition close_state (id : addr) (p : tcp_pcb) (w : world) : res (err_t * world) :=
  let fin (next : tcp_state) :=
    let! (err, w) := w_send_fin id w in
    if err =? ERR_OK then
      let! w := upd_pcb id (fun p => p <| state := next |>) w in
      let! (_, w) := w_output id w in Ok (err, w)
    else Ok (err, w) in
  match state p with
  | CLOSED =>
      let w := if local_port p =? 0 then w else rmv_bound id w in
      Ok (ERR_OK, free_pcb id w)
  | SYN_SENT => let! w := remove_active_changed id w in Ok (ERR_OK, free_pcb id w)
  | SYN_RCVD => fin FIN_WAIT_1
  | ESTABLISHED => fin FIN_WAIT_1
  | CLOSE_WAIT => fin LAST_ACK
  | _ => Ok (ERR_OK, w)
  end.
Definition tcp_close_shutdown (id : addr) (rst_on_unacked_data : bool) (w : world) : res (err_t * world) :=
  let! p := get_pcb w id in
  if rst_on_unacked_data && (state_is (state p) ESTABLISHED || state_is (state p) CLOSE_WAIT)
     && (negb (bool_decide (refused_data p = None)) || negb (rcv_wnd p =? TCP_WND)) then
    assert! has_flag (flags p) TF_RXCLOSED in
    let w := w_rst (snd_nxt p) (rcv_nxt p) (local_ip p) (remote_ip p) (local_port p) (remote_port p) w in
    let! w := upd_pcb id tcp_pcb_purge w in
    let w := rmv_active id w in
    if state_is (state p) ESTABLISHED then
      let! w := upd_pcb id (fun p => p <| state := TIME_WAIT |>) w in Ok (ERR_OK, reg_tw id w)
    else Ok (ERR_OK, free_pcb id w)
  else close_state id p w.

Definition set_rxclosed (p : tcp_pcb) : tcp_pcb := p <| flags := Z.lor (flags p) TF_RXCLOSED |>.

(** A listening block is unlinked and freed, any other is closed. *)
Definition tcp_close (id : addr) (w : world) : res (err_t * world) :=
  match w_listen w !! id with
  | Some _ => Ok (ERR_OK, (rmv_listen id w) <| w_listen := delete id (w_listen w) |>)
  | None =>
      let! w := upd_pcb id set_rxclosed w in
      tcp_close_shutdown id true w
  end.

Definition tcp_shutdown (id : addr) (shut_rx shut_tx : bool) (w : world) : res (err_t * world) :=
  match w_listen w !! id with
  | Some _ => Ok (ERR_CONN, w)
  | None =>
      let! w := if shut_rx then upd_pcb id set_rxclosed w else Ok w in
      if shut_rx && shut_tx then tcp_close_shutdown id true w
      else
        let! w := if shut_rx then upd_pcb id (fun p => p <| refused_data := None |>) w else Ok w in
        if shut_tx then
          let! p := get_pcb w id in
          match state p with
          | SYN_RCVD | ESTABLISHED | CLOSE_WAIT => tcp_close_shutdown id shut_rx w
          | _ => Ok (ERR_CONN, w)
          end
        else Ok (ERR_OK, w)
  end.

(** ** Binding, listening, connecting *)
Definition bind_conflict (opts ipaddr port : Z) (b : Z * Z * Z) : bool :=
  let '(lip, lport, lopts) := b in
  (lport =? port)
  && (negb (has_flag opts SOF_REUSEADDR) || negb (has_flag lopts SOF_REUSEADDR))
  && ((lip =? IPADDR_ANY) || (ipaddr =? IPADDR_ANY) || (lip =? ipaddr)).

Definition tcp_bind (id : addr) (ipaddr port : Z) (w : world) : res (err_t * world) :=
  let! p := get_pcb w id in
  assert! state_is (state p) CLOSED in
  let! (port, w) := if port =? 0 then tcp_new_port w else Ok (port, w) in
  if port =? 0 then Ok (ERR_BUF, w)
  else
    let! bs := bindings w (negb (has_flag (so_options p) SOF_REUSEADDR)) in
    if existsb (bind_conflict (so_options p) ipaddr port) bs then Ok (ERR_USE, w)
    else
      let p := if ipaddr =? IPADDR_ANY then p else p <| local_ip := ipaddr |> in
      Ok (ERR_OK, reg_bound id (put_pcb id (p <| local_port := port |>) w)).

(** The address of the listening block, [None] for NULL. *)
Definition tcp_listen_with_backlog (id : addr) (w : world) : res (option addr * world) :=
  let! p := get_pcb w id in
  assert! state_is (state p) CLOSED in
  let! ls := collect (listen_binding w) (tcp_listen_pcbs w) in
  if has_flag (so_options p) SOF_REUSEADDR
     && existsb (fun '(lip, lport, _) => (lport =? local_port p) && (lip =? local_ip p)) ls
  then Ok (None, w)
  else
    let '(ok, w) := w_alloc w in
    if ok then
      let lid := fresh_addr w in
      let l := mk_listen (local_ip p) (Z.lor (so_options p) SOF_ACCEPTCONN) (tos p) (ttl p) (prio p) (local_port p) in
      let w := if local_port p =? 0 then w else rmv_bound id w in
      let w := free_pcb id w in
      Ok (Some lid, reg_listen lid (w <| w_listen := <[lid := l]> (w_listen w) |>))
    else Ok (None, w).

(** Is the connection (local, remote) of [p] that of another block? *)
Definition same_conn (p : tcp_pcb) (ipaddr port : Z) (c : tcp_pcb) : bool :=
  (local_port c =? local_port p) && (remote_port c =? port) && (local_ip c =? local_ip p) && (remote_ip c =? ipaddr).

(** The block as [tcp_connect] sets it up before the SYN is queued. *)
Definition connect_pcb (e : tcp_env) (iss ipaddr : Z) (p : tcp_pcb) : tcp_pcb :=
  let m := tcp_eff_send_mss e (if 536 <? TCP_MSS then 536 else TCP_MSS) ipaddr in
  p <| rcv_nxt := 0 |> <| snd_nxt := iss |> <| lastack := u32 (iss - 1) |> <| snd_lbb := u32 (iss - 1) |>
    <| rcv_wnd := TCP_WND |> <| rcv_ann_wnd := TCP_WND |> <| rcv_ann_right_edge := 0 |> <| snd_wnd := TCP_WND |>
    <| mss := m |> <| cwnd := 1 |> <| ssthresh := u16 (m * 10) |>.

Definition w_enqueue_flags (id : addr) (fl : Z) (w : world) : res (err_t * world) :=
  run_pcb id (fun p e => tcp_enqueue_flags p e fl) w.

(** The parts of [tcp_connect]: the local address, the local port, the check
    for a block with the same connection, the SYN. The fields written stay
    written when a later part fails. *)
Definition connect_addr (id : addr) (ipaddr port : Z) (w : world) : res (bool * world) :=
  let! p := get_pcb w id in
  let p := p <| remote_ip := ipaddr |> <| remote_port := port |> in
  if local_ip p =? IPADDR_ANY then
    match env_route (w_env w) ipaddr with
    | None => Ok (false, put_pcb id p w)
    | Some n => Ok (true, put_pcb id (p <| local_ip := nif_ip_addr n |>) w)
    end
  else Ok (true, put_pcb id p w).

Definition connect_syn (id : addr) (old_local_port ipaddr : Z) (w : world) : res (err_t * world) :=
  let '(iss, w) := tcp_next_iss w in
  let! w := upd_pcb id (connect_pcb (w_env w) iss ipaddr) w in
  let! (ret, w) := w_enqueue_flags id TCP_SYN w in
  if ret =? ERR_OK then
    let! w := upd_pcb id (fun p => p <| state := SYN_SENT |>) w in
    let w := if old_local_port =? 0 then w else rmv_bound id w in
    let! (_, w) := w_output id (reg_active id w) in
    Ok (ret, w)
  else Ok (ret, w).

Definition tcp_connect (id : addr) (ipaddr port : Z) (w : world) : res (err_t * world) :=
  let! p := get_pcb w id in
  assert! state_is (state p) CLOSED in
  let! (routed, w) := connect_addr id ipaddr port w in
  if negb routed then Ok (ERR_RTE, w)
  else
    let! (lport, w) := if local_port p =? 0 then tcp_new_port w else Ok (local_port p, w) in
    let! w := upd_pcb id (fun p => p <| local_port := lport |>) w in
    if lport =? 0 then Ok (ERR_BUF, w)
    else
      let! q := get_pcb w id in
      let! act := collect (get_pcb w) (tcp_active_pcbs w) in
      let! tws := collect (get_pcb w) (tcp_tw_pcbs w) in
      if has_flag (so_options q) SOF_REUSEADDR && existsb (same_conn q ipaddr port) (act ++ tws) then Ok (ERR_USE, w)
      else connect_syn id (local_port p) ipaddr w.

(** ** Allocation *)

(** How long a block has been inactive. *)
Definition inactivity (w : world) (p : tcp_pcb) : Z := u32 (tcp_ticks (w_env w) - tmr p).

(** The block [tcp_kill_prio] picks: the longest inactive one among those of
    the lowest priority seen, none above [prio]. *)
Fixpoint kill_prio_loop (w : world) (l : list addr) (prio0 mprio inact : Z) (best : option addr) : res (option addr) :=
  match l with
  | [] => Ok best
  | id :: l' =>
      let! p := get_pcb w id in
      if (prio p <=? prio0) && (prio p <=? mprio) && (inact <=? inactivity w p)
      then kill_prio_loop w l' prio0 (prio p) (inactivity w p) (Some id)
      else kill_prio_loop w l' prio0 mprio inact best
  end.
Definition tcp_kill_prio (prio0 : Z) (w : world) : res world :=
  let! best := kill_prio_loop w (tcp_active_pcbs w) prio0 TCP_PRIO_MAX 0 None in
  match best with Some id => tcp_abort id w | None => Ok w end.

Fixpoint kill_timewait_loop (w : world) (l : list addr) (inact : Z) (best : option addr) : res (option addr) :=
  match l with
  | [] => Ok best
  | id :: l' =>
      let! p := get_pcb w id in
      if inact <=? inactivity w p then kill_timewait_loop w l' (inactivity w p) (Some id)
      else kill_timewait_loop w l' inact best
  end.
Definition tcp_kill_timewait (w : world) : res world :=
  let! best := kill_timewait_loop w (tcp_tw_pcbs w) 0 None in
  match best with Some id => tcp_abort id w | None => Ok w end.

(** The block [tcp_alloc] returns. *)
Definition new_pcb (prio0 iss ticks ctr : Z) : tcp_pcb :=
  zero_pcb <| prio := prio0 |> <| snd_buf := TCP_SND_BUF |> <| rcv_wnd := TCP_WND |> <| rcv_ann_wnd := TCP_WND |>
    <| ttl := TCP_TTL |> <| mss := if 536 <? TCP_MSS then 536 else TCP_MSS |> <| rto := 3000 / TCP_SLOW_INTERVAL |>
    <| sv := 3000 / TCP_SLOW_INTERVAL |> <| rtime := -1 |> <| cwnd := 1 |> <| snd_wl2 := iss |> <| snd_nxt := iss |>
    <| lastack := iss |> <| snd_lbb := iss |> <| tmr := ticks |> <| last_timer := ctr |>
    <| keep_idle := TCP_KEEPIDLE_DEFAULT |>.

Definition tcp_alloc (prio0 : Z) (w : world) : res (option addr * world) :=
  let '(ok, w) := w_alloc w in
  let! (ok, w) :=
    if ok then Ok (true, w)
    else
      let! w := tcp_kill_timewait w in
      let '(ok, w) := w_alloc w in
      if ok then Ok (true, w)
      else let! w := tcp_kill_prio prio0 w in Ok (w_alloc w) in
  if ok then
    let id := fresh_addr w in
    let '(iss, w) := tcp_next_iss w in
    Ok (Some id, put_pcb id (new_pcb prio0 iss (tcp_ticks (w_env w)) (tcp_timer_ctr w)) w)
  else Ok (None, w).
Definition tcp_new (w : world) : res (option addr * world) := tcp_alloc TCP_PRIO_NORMAL w.

(** ** Data kept back for the application *)
Definition tcp_process_refused_data (id : addr) (w : world) : res (err_t * world) :=
  let! p := get_pcb w id in
  let! (data, fin) := of_option BadAccess (refused_data p) in
  let w := put_pcb id (p <| refused_data := None |>) w in
  let! (err, w) := ev_recv cb id (Some data) ERR_OK w in
  if err =? ERR_OK then
    if fin : bool then
      let! w := upd_pcb id (fun p => if rcv_wnd p =? TCP_WND then p else p <| rcv_wnd := u16 (rcv_wnd p + 1) |>) w in
      let! (err, w) := ev_recv cb id None ERR_OK w in
      if err =? ERR_ABRT then Ok (ERR_ABRT, w) else Ok (ERR_OK, w)
    else Ok (ERR_OK, w)
  else if err =? ERR_ABRT then Ok (ERR_ABRT, w)
  else
    let! w := upd_pcb id (fun p => p <| refused_data := Some (data, fin) |>) w in
    Ok (ERR_OK, w).
End World.
