(* ===== verification/TcpProcess.v ===== *)
(** * TCP: the state machine and the demultiplexer
    (src/src/lwip/core/tcp_in.c: tcp_process, tcp_listen_input,
    tcp_timewait_input, tcp_input)

    The segment at hand is a [tcp_in]; [tcp_input] is modelled from the point
    where the header has been checked and converted to host order. *)
From S2P Require Import Prelude ByteOrder IpAddr Ip Tcp TcpOut TcpIn TcpWorld.

(** A reset that answers the segment at hand. *)
Definition rst_reply {A} (i : tcp_in) (w : tcp_world A) : tcp_world A :=
  w_rst (in_ackno i) (u32 (in_seqno i + in_tcplen i)) (in_dst_ip i) (in_src_ip i) (in_dest i) (in_src i) w.

(** ** Transitions of one control block without callbacks *)

(** The RST part of [tcp_process]. *)
Definition rst_acceptable (p : tcp_pcb) (i : tcp_in) : bool :=
  if state_is (state p) SYN_SENT then in_ackno i =? snd_nxt p
  else TCP_SEQ_BETWEEN (in_seqno i) (rcv_nxt p) (rcv_nxt p + rcv_wnd p).

(** The activity timer and the options. *)
Definition note_activity (ticks : Z) (p : tcp_pcb) : tcp_pcb :=
  (if has_flag (flags p) TF_RXCLOSED then p else p <| tmr := ticks |>) <| keep_cnt_sent := 0 |>.

(** SYN_SENT: the SYN and ACK that complete the handshake. *)
Definition syn_sent_ok (p : tcp_pcb) (i : tcp_in) : res bool :=
  if has_flag (in_flags i) TCP_ACK && has_flag (in_flags i) TCP_SYN then
    match unacked p with
    | [] => Err BadAccess
    | s :: _ => Ok (in_ackno i =? u32 (seg_seqno s + 1))
    end
  else Ok false.
Definition syn_sent_establish (e : tcp_env) (i : tcp_in) (p : tcp_pcb) : res tcp_pcb :=
  let m := tcp_eff_send_mss e (mss p) (remote_ip p) in
  let p := p <| snd_buf := u16 (snd_buf p + 1) |> <| rcv_nxt := u32 (in_seqno i + 1) |>
             <| rcv_ann_right_edge := u32 (in_seqno i + 1) |> <| lastack := in_ackno i |>
             <| snd_wnd := in_wnd i |> <| snd_wnd_max := in_wnd i |> <| snd_wl1 := u32 (in_seqno i - 1) |>
             <| state := ESTABLISHED |> <| mss := m |> <| ssthresh := u16 (m * 10) |>
             <| cwnd := if cwnd p =? 1 then u16 (m * 2) else m |> in
  assert! 0 <? snd_queuelen p in
  match unacked p with
  | [] => Err BadAccess
  | _ :: rest =>
      let p := p <| snd_queuelen := snd_queuelen p - 1 |> <| unacked := rest |> in
      Ok (match rest with [] => p <| rtime := -1 |> | _ => p <| rtime := 0 |> <| nrtx := 0 |> end)
  end.

Section Process.
Context {A : Type} (cb : tcp_callbacks A).
Abbreviation world := (tcp_world A).
Implicit Types (w : world) (id : addr).

Definition w_receive (id : addr) (i : tcp_in) (w : world) : res (tcp_in * world) :=
  run_pcb id (fun p e => let! (p, e, i) := tcp_receive p e i in Ok (i, p, e)) w.
Definition set_state (id : addr) (s : tcp_state) (w : world) : res world :=
  upd_pcb id (fun p => p <| state := s |>) w.

(** Both ends have sent their FIN: the block moves to the TIME-WAIT list. *)
Definition enter_timewait (id : addr) (w : world) : res world :=
  let! w := upd_pcb id tcp_pcb_purge w in
  let! w := set_state id TIME_WAIT (rmv_active id w) in
  Ok (reg_tw id w).

(** ** The states of tcp_process *)
Definition process_syn_sent (id : addr) (i : tcp_in) (w : world) : res (err_t * world * tcp_in) :=
  let! p := get_pcb w id in
  let! ok := syn_sent_ok p i in
  if ok : bool then
    let! p := syn_sent_establish (w_env w) i p in
    let! (err, w) := ev_connected cb id ERR_OK (put_pcb id p w) in
    if err =? ERR_ABRT then Ok (ERR_ABRT, w, i)
    else let! w := upd_pcb id tcp_ack_now w in Ok (ERR_OK, w, i)
  else if has_flag (in_flags i) TCP_ACK then Ok (ERR_OK, rst_reply i w, i)
  else Ok (ERR_OK, w, i).

Definition process_syn_rcvd (id : addr) (i : tcp_in) (w : world) : res (err_t * world * tcp_in) :=
  let! p := get_pcb w id in
  if has_flag (in_flags i) TCP_ACK then
    if TCP_SEQ_BETWEEN (in_ackno i) (lastack p + 1) (snd_nxt p) then
      let! w := set_state id ESTABLISHED w in
      let! (err, w) := ev_accept cb id ERR_OK w in
      if negb (err =? ERR_OK) then
        let! w := if err =? ERR_ABRT then Ok w else tcp_abort cb id w in
        Ok (ERR_ABRT, w, i)
      else
        let! p := get_pcb w id in
        let old_cwnd := cwnd p in
        let! (i, w) := w_receive id i w in
        let! w := upd_pcb id (fun p =>
          p <| acked := if acked p =? 0 then 0 else acked p - 1 |>
            <| cwnd := if old_cwnd =? 1 then u16 (mss p * 2) else mss p |>) w in
        let! w :=
          if has_flag (recv_flags i) TF_GOT_FIN then
            let! w := upd_pcb id tcp_ack_now w in set_state id CLOSE_WAIT w
          else Ok w in
        Ok (ERR_OK, w, i)
    else Ok (ERR_OK, rst_reply i w, i)
  else if has_flag (in_flags i) TCP_SYN && (in_seqno i =? u32 (rcv_nxt p - 1)) then
    let! w := upd_pcb id tcp_rexmit w in Ok (ERR_OK, w, i)
  else Ok (ERR_OK, w, i).

(** The segment acknowledges everything that was sent (our FIN included). *)
Definition acks_all (i : tcp_in) (p : tcp_pcb) : bool :=
  has_flag (in_flags i) TCP_ACK && (in_ackno i =? snd_nxt p).

Definition process_open (id : addr) (i : tcp_in) (w : world) : res (err_t * world * tcp_in) :=
  let! (i, w) := w_receive id i w in
  let! w :=
    if has_flag (recv_flags i) TF_GOT_FIN then
      let! w := upd_pcb id tcp_ack_now w in set_state id CLOSE_WAIT w
    else Ok w in
  Ok (ERR_OK, w, i).
Definition process_fin_wait_1 (id : addr) (i : tcp_in) (w : world) : res (err_t * world * tcp_in) :=
  let! (i, w) := w_receive id i w in
  let! p := get_pcb w id in
  let! w :=
    if has_flag (recv_flags i) TF_GOT_FIN then
      let! w := upd_pcb id tcp_ack_now w in
      if acks_all i p then enter_timewait id w else set_state id CLOSING w
    else if acks_all i p then set_state id FIN_WAIT_2 w
    else Ok w in
  Ok (ERR_OK, w, i).
Definition process_fin_wait_2 (id : addr) (i : tcp_in) (w : world) : res (err_t * world * tcp_in) :=
  let! (i, w) := w_receive id i w in
  let! w :=
    if has_flag (recv_flags i) TF_GOT_FIN then
      let! w := upd_pcb id tcp_ack_now w in enter_timewait id w
    else Ok w in
  Ok (ERR_OK, w, i).
Definition process_closing (id : addr) (i : tcp_in) (w : world) : res (err_t * world * tcp_in) :=
  let! (i, w) := w_receive id i w in
  let! p := get_pcb w id in
  let! w := if acks_all i p then enter_timewait id w else Ok w in
  Ok (ERR_OK, w, i).
Definition process_last_ack (id : addr) (i : tcp_in) (w : world) : res (err_t * world * tcp_in) :=
  let! (i, w) := w_receive id i w in
  let! p := get_pcb w id in
  Ok (ERR_OK, w, if acks_all i p then i <| recv_flags := Z.lor (recv_flags i) TF_CLOSED |> else i).

Definition process_state (s : tcp_state) (id : addr) (i : tcp_in) (w : world) : res (err_t * world * tcp_in) :=
  match s with
  | SYN_SENT => process_syn_sent id i w
  | SYN_RCVD => process_syn_rcvd id i w
  | CLOSE_WAIT | ESTABLISHED => process_open id i w
  | FIN_WAIT_1 => process_fin_wait_1 id i w
  | FIN_WAIT_2 => process_fin_wait_2 id i w
  | CLOSING => process_closing id i w
  | LAST_ACK => process_last_ack id i w
  | _ => Ok (ERR_OK, w, i)
  end.

Definition tcp_process (id : addr) (i : tcp_in) (w : world) : res (err_t * world * tcp_in) :=
  let! p := get_pcb w id in
  if has_flag (in_flags i) TCP_RST then
    if rst_acceptable p i then
      assert! negb (state_is (state p) CLOSED) in
      Ok (ERR_RST, put_pcb id (p <| flags := clear_flag (flags p) TF_ACK_DELAY |>) w,
          i <| recv_flags := Z.lor (recv_flags i) TF_RESET |>)
    else Ok (ERR_OK, w, i)
  else if has_flag (in_flags i) TCP_SYN && negb (state_is (state p) SYN_SENT) && negb (state_is (state p) SYN_RCVD) then
    Ok (ERR_OK, put_pcb id (tcp_ack_now p) w, i)
  else
    let! p := tcp_parseopt (note_activity (tcp_ticks (w_env w)) p) i in
    process_state (state p) id i (put_pcb id p w).

(** ** Listening and TIME-WAIT *)
Definition accept_pcb (i : tcp_in) (l : tcp_pcb_listen) (p : tcp_pcb) : tcp_pcb :=
  p <| local_ip := in_dst_ip i |> <| local_port := ls_local_port l |> <| remote_ip := in_src_ip i |>
    <| remote_port := in_src i |> <| state := SYN_RCVD |> <| rcv_nxt := u32 (in_seqno i + 1) |>
    <| rcv_ann_right_edge := u32 (in_seqno i + 1) |> <| snd_wnd := in_wnd i |> <| snd_wnd_max := in_wnd i |>
    <| ssthresh := in_wnd i |> <| snd_wl1 := u32 (in_seqno i - 1) |>
    <| so_options := Z.land (ls_so_options l) SOF_INHERITED |>.

Definition tcp_listen_input (lid : addr) (i : tcp_in) (w : world) : res (err_t * world) :=
  let! l := of_option BadAccess (w_listen w !! lid) in
  if has_flag (in_flags i) TCP_RST then Ok (ERR_OK, w)
  else if has_flag (in_flags i) TCP_ACK then Ok (ERR_OK, rst_reply i w)
  else if has_flag (in_flags i) TCP_SYN then
    let! (o, w) := tcp_alloc cb (ls_prio l) w in
    match o with
    | None => Ok (ERR_MEM, w)
    | Some id =>
        let! w := upd_pcb id (accept_pcb i l) w in
        let w := (reg_active id w) <| w_app := ev_passive cb lid id (w_app w) |> in
        let! p := get_pcb w id in
        let! p := tcp_parseopt p i in
        let w := put_pcb id (p <| mss := tcp_eff_send_mss (w_env w) (mss p) (remote_ip p) |>) w in
        let! (rc, w) := w_enqueue_flags id (Z.lor TCP_SYN TCP_ACK) w in
        if negb (rc =? ERR_OK) then
          let! w := tcp_abandon cb id false w in Ok (rc, w)
        else w_output id w
    end
  else Ok (ERR_OK, w).

Definition tcp_timewait_input (id : addr) (i : tcp_in) (w : world) : res (err_t * world) :=
  let! p := get_pcb w id in
  let ack (p : tcp_pcb) (w : world) :=
    if 0 <? in_tcplen i then w_output id (put_pcb id (tcp_ack_now p) w) else Ok (ERR_OK, put_pcb id p w) in
  if has_flag (in_flags i) TCP_RST then Ok (ERR_OK, w)
  else if has_flag (in_flags i) TCP_SYN then
    if TCP_SEQ_BETWEEN (in_seqno i) (rcv_nxt p) (rcv_nxt p + rcv_wnd p) then Ok (ERR_OK, rst_reply i w)
    else ack p w
  else if has_flag (in_flags i) TCP_FIN then ack (p <| tmr := tcp_ticks (w_env w) |>) w
  else ack p w.

(** ** Demultiplexing *)
Definition pcb_matches (i : tcp_in) (p : tcp_pcb) : bool :=
  (remote_port p =? in_src i) && (local_port p =? in_dest i) &&
  (remote_ip p =? in_src_ip i) && (local_ip p =? in_dst_ip i).

(** The first active block of the connection; the assertions are those of the
    loop. *)
Fixpoint find_active (w : world) (i : tcp_in) (l : list addr) : res (option addr) :=
  match l with
  | [] => Ok None
  | id :: l' =>
      let! p := get_pcb w id in
      assert! negb (state_is (state p) CLOSED) in
      assert! negb (state_is (state p) TIME_WAIT) in
      assert! negb (state_is (state p) LISTEN) in
      if pcb_matches i p then Ok (Some id) else find_active w i l'
  end.
Fixpoint find_tw (w : world) (i : tcp_in) (l : list addr) : res (option addr) :=
  match l with
  | [] => Ok None
  | id :: l' =>
      let! p := get_pcb w id in
      assert! state_is (state p) TIME_WAIT in
      if pcb_matches i p then Ok (Some id) else find_tw w i l'
  end.
(** The listening block for the port: the first with the very address, else
    the last one for any address. *)
Fixpoint find_listen (w : world) (i : tcp_in) (l : list addr) (any : option addr) : res (option addr) :=
  match l with
  | [] => Ok any
  | id :: l' =>
      let! p := of_option BadAccess (w_listen w !! id) in
      if ls_local_port p =? in_dest i then
        if ls_local_ip p =? in_dst_ip i then Ok (Some id)
        else find_listen w i l' (if ls_local_ip p =? IPADDR_ANY then Some id else any)
      else find_listen w i l' any
  end.
(** The block found moves to the front of its list. *)
Definition to_front (id : addr) (l : list addr) : list addr := id :: unlink id l.

(** ** tcp_input *)

(** The jump to "aborted". *)
Definition input_end (w : world) : world := w <| tcp_input_pcb := None |>.

(** The callbacks after [tcp_process] for a connection that lives on. *)
Definition input_sent (id : addr) (w : world) : res (err_t * world) :=
  let! p := get_pcb w id in
  if 0 <? acked p then ev_sent cb id (acked p) w else Ok (ERR_OK, w).
Definition input_data (id : addr) (i : tcp_in) (w : world) : res (err_t * world) :=
  match recv_data i with
  | None => Ok (ERR_OK, w)
  | Some data =>
      let! p := get_pcb w id in
      assert! bool_decide (refused_data p = None) in
      if has_flag (flags p) TF_RXCLOSED then
        let! w := tcp_abort cb id w in Ok (ERR_ABRT, w)
      else
        let! (err, w) := ev_recv cb id (Some data) ERR_OK w in
        if (err =? ERR_ABRT) || (err =? ERR_OK) then Ok (err, w)
        else let! w := upd_pcb id (fun p => p <| refused_data := Some (data, false) |>) w in Ok (err, w)
  end.
Definition input_fin (id : addr) (i : tcp_in) (w : world) : res (err_t * world) :=
  if has_flag (recv_flags i) TF_GOT_FIN then
    let! p := get_pcb w id in
    match refused_data p with
    | Some (data, _) => Ok (ERR_OK, put_pcb id (p <| refused_data := Some (data, true) |>) w)
    | None =>
        let p := if rcv_wnd p =? TCP_WND then p else p <| rcv_wnd := u16 (rcv_wnd p + 1) |> in
        ev_recv cb id None ERR_OK (put_pcb id p w)
    end
  else Ok (ERR_OK, w).
Definition input_callbacks (id : addr) (i : tcp_in) (w : world) : res world :=
  let! (err, w) := input_sent id w in
  if err =? ERR_ABRT then Ok (input_end w)
  else
    let! (err, w) := input_data id i w in
    if err =? ERR_ABRT then Ok (input_end w)
    else
      let! (err, w) := input_fin id i w in
      if err =? ERR_ABRT then Ok (input_end w)
      else
        let! (_, w) := w_output id (w <| tcp_input_pcb := None |>) in
        Ok (input_end w).

(** A segment for an active connection. *)
Definition input_active (id : addr) (i : tcp_in) (w : world) : res world :=
  let i := i <| recv_data := None |> <| recv_flags := 0 |> in
  let! p := get_pcb w id in
  let! (go, w) :=
    match refused_data p with
    | None => Ok (true, w)
    | Some _ =>
        let! (err, w) := tcp_process_refused_data cb id w in
        if err =? ERR_ABRT then Ok (false, w)
        else
          let! p := get_pcb w id in
          Ok (bool_decide (refused_data p = None) || negb (0 <? in_tcplen i), w)
    end in
  if negb go then Ok (input_end w)
  else
    let! (err, w, i) := tcp_process id i (w <| tcp_input_pcb := Some id |>) in
    if err =? ERR_ABRT then Ok (input_end w)
    else if has_flag (recv_flags i) TF_RESET then
      let! w := ev_err cb id ERR_RST w in
      let! w := tcp_pcb_remove_active id w in
      Ok (input_end (free_pcb id w))
    else if has_flag (recv_flags i) TF_CLOSED then
      let! p := get_pcb w id in
      let! w := if has_flag (flags p) TF_RXCLOSED then Ok w else ev_err cb id ERR_CLSD w in
      let! w := tcp_pcb_remove_active id w in
      Ok (input_end (free_pcb id w))
    else input_callbacks id i w.

Definition tcp_input (i : tcp_in) (w : world) : res world :=
  let! o := find_active w i (tcp_active_pcbs w) in
  match o with
  | Some id => input_active id i (w <| tcp_active_pcbs := to_front id (tcp_active_pcbs w) |>)
  | None =>
      let! o := find_tw w i (tcp_tw_pcbs w) in
      match o with
      | Some id => let! (_, w) := tcp_timewait_input id i w in Ok w
      | None =>
          let! o := find_listen w i (tcp_listen_pcbs w) None in
          match o with
          | Some id =>
              let! (_, w) := tcp_listen_input id i (w <| tcp_listen_pcbs := to_front id (tcp_listen_pcbs w) |>) in Ok w
          | None => Ok (if has_flag (in_flags i) TCP_RST then w else rst_reply i w)
          end
      end
  end.
End Process.
