(* ===== verification/TcpTimer.v ===== *)
(** * TCP: the timers (src/src/lwip/core/tcp.c: tcp_slowtmr, tcp_fasttmr,
    tcp_tmr)

    The loops of the timers follow the [next] pointers of a list that the
    callbacks may change: the rest of the list is read before a callback runs,
    and tcp_active_pcbs_changed makes the loop start again from the head. *)
From S2P Require Import Prelude ByteOrder IpAddr Ip Tcp TcpOut TcpIn TcpWorld.

Definition tcp_backoff : list Z := [1; 2; 3; 4; 5; 6; 7; 7; 7; 7; 7; 7; 7].
Definition tcp_persist_backoff : list Z := [3; 6; 12; 24; 48; 96; 120].
Definition TCP_KEEP_DUR : Z := TCP_MAXIDLE.
Definition TCP_KEEP_INTVL : Z := TCP_KEEPINTVL_DEFAULT.

(** An element of a constant table; an index behind its end is a bad access. *)
Definition table_get (t : list Z) (i : Z) : res Z := of_option BadAccess (t !! Z.to_nat i).

(** ** One active control block, without the callbacks *)

(** The persist timer. *)
Definition slow_persist (p : tcp_pcb) (e : tcp_env) : res (tcp_pcb * tcp_env) :=
  let p := p <| persist_cnt := u8 (persist_cnt p + 1) |> in
  let! b := table_get tcp_persist_backoff (persist_backoff p - 1) in
  if b <=? persist_cnt p then
    let p := p <| persist_cnt := 0 |> in
    let p := if persist_backoff p <? zlen tcp_persist_backoff
             then p <| persist_backoff := persist_backoff p + 1 |> else p in
    Ok (tcp_zero_window_probe p e)
  else Ok (p, e).

(** The retransmission timer. *)
Definition slow_rto (p : tcp_pcb) : res tcp_pcb :=
  if state_is (state p) SYN_SENT then Ok p
  else
    let! b := table_get tcp_backoff (nrtx p) in
    Ok (p <| rto := s16 (Z.shiftl (Z.shiftr (sa p) 3 + sv p) b) |>).
Definition slow_cwnd (p : tcp_pcb) : tcp_pcb :=
  let eff_wnd := Z.min (cwnd p) (snd_wnd p) in
  let ss := Z.shiftr eff_wnd 1 in
  p <| rtime := 0 |> <| ssthresh := if ss <? Z.shiftl (mss p) 1 then u16 (Z.shiftl (mss p) 1) else ss |>
    <| cwnd := mss p |>.
Definition slow_rexmit (p : tcp_pcb) (e : tcp_env) : res (tcp_pcb * tcp_env) :=
  let p := if 0 <=? rtime p then p <| rtime := s16 (rtime p + 1) |> else p in
  if negb (bool_decide (unacked p = [])) && (rto p <=? rtime p) then
    let! p := slow_rto p in
    tcp_rexmit_rto (slow_cwnd p) e
  else Ok (p, e).

(** The retransmissions are used up. *)
Definition rexmit_exhausted (p : tcp_pcb) : bool :=
  (state_is (state p) SYN_SENT && (nrtx p =? TCP_SYNMAXRTX)) || (nrtx p =? TCP_MAXRTX).
Definition slow_send (p : tcp_pcb) (e : tcp_env) : res (tcp_pcb * tcp_env) :=
  if rexmit_exhausted p then Ok (p, e)
  else if 0 <? persist_backoff p then slow_persist p e
  else slow_rexmit p e.

Definition idle_ticks (e : tcp_env) (p : tcp_pcb) : Z := u32 (tcp_ticks e - tmr p).

(** Keepalive: [true] when the connection is given up. *)
Definition slow_keepalive (p : tcp_pcb) (e : tcp_env) : bool * tcp_pcb * tcp_env :=
  if has_flag (so_options p) SOF_KEEPALIVE && (state_is (state p) ESTABLISHED || state_is (state p) CLOSE_WAIT) then
    if (keep_idle p + TCP_KEEP_DUR) / TCP_SLOW_INTERVAL <? idle_ticks e p then (true, p, e)
    else if (keep_idle p + keep_cnt_sent p * TCP_KEEP_INTVL) / TCP_SLOW_INTERVAL <? idle_ticks e p then
      let '(p, e) := tcp_keepalive p e in (false, p <| keep_cnt_sent := u8 (keep_cnt_sent p + 1) |>, e)
    else (false, p, e)
  else (false, p, e).

(** Old out-of-sequence data is dropped. *)
Definition slow_ooseq (p : tcp_pcb) (e : tcp_env) : tcp_pcb :=
  if negb (bool_decide (ooseq p = [])) && (u32 (rto p * TCP_OOSEQ_TIMEOUT) <=? idle_ticks e p)
  then p <| ooseq := [] |> else p.

(** The states that must not last. *)
Definition stuck_fin_wait_2 (p : tcp_pcb) (e : tcp_env) : bool :=
  state_is (state p) FIN_WAIT_2 && has_flag (flags p) TF_RXCLOSED
  && (TCP_FIN_WAIT_TIMEOUT / TCP_SLOW_INTERVAL <? idle_ticks e p).
Definition stuck_syn_rcvd (p : tcp_pcb) (e : tcp_env) : bool :=
  state_is (state p) SYN_RCVD && (TCP_SYN_RCVD_TIMEOUT / TCP_SLOW_INTERVAL <? idle_ticks e p).
Definition stuck_last_ack (p : tcp_pcb) (e : tcp_env) : bool :=
  state_is (state p) LAST_ACK && (2 * TCP_MSL / TCP_SLOW_INTERVAL <? idle_ticks e p).

(** All of it: should the block be removed, and with a reset? *)
Definition slow_pcb (p : tcp_pcb) (e : tcp_env) : res (bool * bool * tcp_pcb * tcp_env) :=
  let exhausted := rexmit_exhausted p in
  let! (p, e) := slow_send p e in
  let fw2 := stuck_fin_wait_2 p e in
  let '(reset, p, e) := slow_keepalive p e in
  let p := slow_ooseq p e in
  Ok (exhausted || fw2 || reset || stuck_syn_rcvd p e || stuck_last_ack p e, reset, p, e).

(** [prev->next = rest]: the blocks between [prev] and [rest] leave the list. *)
Fixpoint link_after (prev : addr) (rest l : list addr) : list addr :=
  match l with
  | [] => []
  | x :: l' => if bool_decide (x = prev) then x :: rest else x :: link_after prev rest l'
  end.

Section Timer.
Context {A : Type} (cb : tcp_callbacks A).
Abbreviation world := (tcp_world A).
Implicit Types (w : world) (id : addr).

(** The unlinking of [id], which [prev] precedes and [rest] follows, as the two
    loops do it. *)
Definition unlink_at (id : addr) (prev : option addr) (rest l : list addr) : res (list addr) :=
  match prev with
  | Some q => assert! negb (bool_decide (hd_error l = Some id)) in Ok (link_after q rest l)
  | None => assert! bool_decide (hd_error l = Some id) in Ok rest
  end.

(** Removal of an active block: is a restart needed? *)
Definition slow_remove (id : addr) (prev : option addr) (rest : list addr) (reset : bool) (w : world)
  : res (bool * world) :=
  let! w := upd_pcb id tcp_pcb_purge w in
  let! l := unlink_at id prev rest (tcp_active_pcbs w) in
  let w := w <| tcp_active_pcbs := l |> in
  let! p := get_pcb w id in
  let w := if reset then w_rst (snd_nxt p) (rcv_nxt p) (local_ip p) (remote_ip p) (local_port p) (remote_port p) w else w in
  let! w := ev_err cb id ERR_ABRT ((free_pcb id w) <| tcp_active_pcbs_changed := false |>) in
  Ok (tcp_active_pcbs_changed w, w).

(** The poll callback: is a restart needed? *)
Definition slow_poll (id : addr) (w : world) : res (bool * world) :=
  let! p := get_pcb w id in
  let n := u8 (polltmr p + 1) in
  if pollinterval p <=? n then
    let w := (put_pcb id (p <| polltmr := 0 |>) w) <| tcp_active_pcbs_changed := false |> in
    let! (err, w) := ev_poll cb id w in
    if tcp_active_pcbs_changed w then Ok (true, w)
    else if err =? ERR_OK then let! (_, w) := w_output id w in Ok (false, w)
    else Ok (false, w)
  else Ok (false, put_pcb id (p <| polltmr := n |>) w).

(** One pass over the active list from the head; [true] is the jump to
    tcp_slowtmr_start. A block that was processed before is skipped, and [prev]
    stays what it was. *)
Fixpoint slow_pass (prev : option addr) (l : list addr) (w : world) : res (bool * world) :=
  match l with
  | [] => Ok (false, w)
  | id :: rest =>
      let! p := get_pcb w id in
      assert! negb (state_is (state p) CLOSED) in
      assert! negb (state_is (state p) LISTEN) in
      assert! negb (state_is (state p) TIME_WAIT) in
      if last_timer p =? tcp_timer_ctr w then slow_pass prev rest w
      else
        let! (remove, reset, p, e) := slow_pcb (p <| last_timer := tcp_timer_ctr w |>) (env_for w id) in
        let w := put_pcb id p (w <| w_env := e |>) in
        if remove : bool then
          let! (again, w) := slow_remove id prev rest reset w in
          if again : bool then Ok (true, w) else slow_pass prev rest w
        else
          let! (again, w) := slow_poll id w in
          if again : bool then Ok (true, w) else slow_pass (Some id) rest w
  end.
Fixpoint slow_active (fuel : nat) (w : world) : res world :=
  match fuel with
  | O => Err OutOfFuel
  | S fuel =>
      let! (again, w) := slow_pass None (tcp_active_pcbs w) w in
      if again : bool then slow_active fuel w else Ok w
  end.

(** The blocks in TIME-WAIT. *)
Fixpoint slow_tw (prev : option addr) (l : list addr) (w : world) : res world :=
  match l with
  | [] => Ok w
  | id :: rest =>
      let! p := get_pcb w id in
      assert! state_is (state p) TIME_WAIT in
      if 2 * TCP_MSL / TCP_SLOW_INTERVAL <? idle_ticks (w_env w) p then
        let! w := upd_pcb id tcp_pcb_purge w in
        let! l := unlink_at id prev rest (tcp_tw_pcbs w) in
        slow_tw prev rest (free_pcb id (w <| tcp_tw_pcbs := l |>))
      else slow_tw (Some id) rest w
  end.

Definition slow_tick (w : world) : world :=
  w <| w_env := (w_env w) <| tcp_ticks := u32 (tcp_ticks (w_env w) + 1) |> |>
    <| tcp_timer_ctr := u8 (tcp_timer_ctr w + 1) |>.
Definition tcp_slowtmr (fuel : nat) (w : world) : res world :=
  let! w := slow_active fuel (slow_tick w) in
  slow_tw None (tcp_tw_pcbs w) w.

(** [tcp_fasttmr]. The loop does not step over a block that was processed
    before, so it stays there. *)
Definition fast_ack (id : addr) (w : world) : res world :=
  let! p := get_pcb w id in
  if has_flag (flags p) TF_ACK_DELAY then
    let! (_, w) := w_output id (put_pcb id (tcp_ack_now p) w) in
    upd_pcb id (fun p => p <| flags := clear_flag (flags p) (Z.lor TF_ACK_DELAY TF_ACK_NOW) |>) w
  else Ok w.
(** Is a restart needed? *)
Definition fast_refused (id : addr) (w : world) : res (bool * world) :=
  let! p := get_pcb w id in
  match refused_data p with
  | None => Ok (false, w)
  | Some _ =>
      let! (_, w) := tcp_process_refused_data cb id (w <| tcp_active_pcbs_changed := false |>) in
      Ok (tcp_active_pcbs_changed w, w)
  end.
Fixpoint fast_loop (fuel : nat) (l : list addr) (w : world) : res world :=
  match l with
  | [] => Ok w
  | id :: rest =>
      match fuel with
      | O => Err OutOfFuel
      | S fuel =>
          let! p := get_pcb w id in
          if last_timer p =? tcp_timer_ctr w then fast_loop fuel l w
          else
            let! w := fast_ack id (put_pcb id (p <| last_timer := tcp_timer_ctr w |>) w) in
            let! (again, w) := fast_refused id w in
            fast_loop fuel (if again : bool then tcp_active_pcbs w else rest) w
      end
  end.
Definition tcp_fasttmr (fuel : nat) (w : world) : res world :=
  let w := w <| tcp_timer_ctr := u8 (tcp_timer_ctr w + 1) |> in
  fast_loop fuel (tcp_active_pcbs w) w.

Definition tcp_tmr (fuel : nat) (w : world) : res world :=
  let! w := tcp_fasttmr fuel w in
  let w := w <| tcp_timer := u8 (tcp_timer w + 1) |> in
  if has_flag (tcp_timer w) 1 then tcp_slowtmr fuel w else Ok w.
End Timer.
