(* ===== verification/TcpShape.v ===== *)
(** * TCP: the abstract machine of connections

    What the lists of control blocks say, without the contents of the blocks:
    a [shape] has the state and the local port of every block and the four
    lists. [sstep] is a step the standard allows: a block is created, bound,
    connected, moves along an edge of the state diagram of RFC 793, enters
    TIME-WAIT, is freed. [lists_ok] is the comment "Axioms about the above
    lists" of tcp_impl.h. TcpLists.v proves that the operations of the code
    are such steps. *)
From S2P Require Import Prelude Tcp TcpWorld.

(** ** Unlinking *)
Lemma unlink_sublist x l : unlink x l `sublist_of` l.
Proof.
  induction l as [|y l IH]; simpl; [done|]. case_bool_decide; [by apply sublist_cons|by apply sublist_skip].
Qed.
Lemma unlink_notin x l : x ∉ l -> unlink x l = l.
Proof.
  induction l as [|y l IH]; simpl; [done|]. rewrite not_elem_of_cons. intros [? ?].
  rewrite bool_decide_false by done. by rewrite IH.
Qed.
Lemma unlink_Permutation x l : x ∈ l -> l ≡ₚ x :: unlink x l.
Proof.
  induction l as [|y l IH]; simpl; [by rewrite elem_of_nil|].
  case_bool_decide; [by subst|]. rewrite elem_of_cons. intros [?|Hx]; [done|].
  rewrite (IH Hx) at 1. apply Permutation_swap.
Qed.
Lemma elem_of_unlink_ne x y l : y <> x -> y ∈ unlink x l <-> y ∈ l.
Proof.
  intros Hne. destruct (decide (x ∈ l)) as [H|H]; [|by rewrite unlink_notin].
  rewrite (unlink_Permutation x l H) at 2. rewrite elem_of_cons. naive_solver.
Qed.
Lemma unlink_gone x l : NoDup l -> x ∉ unlink x l.
Proof.
  intros Hl. destruct (decide (x ∈ l)) as [H|H]; [|by rewrite unlink_notin].
  rewrite (unlink_Permutation x l H) in Hl. by apply NoDup_cons in Hl as [? _].
Qed.
Lemma elem_of_unlink x y l : NoDup l -> y ∈ unlink x l <-> y <> x /\ y ∈ l.
Proof.
  intros Hl. destruct (decide (y = x)) as [->|H].
  - pose proof (unlink_gone x l Hl). naive_solver.
  - rewrite elem_of_unlink_ne by done. naive_solver.
Qed.
Lemma unlink_app_l x l k : x ∉ k -> unlink x l ++ k = unlink x (l ++ k).
Proof.
  intros Hk. induction l as [|y l IH]; simpl; [by rewrite unlink_notin|].
  case_bool_decide; [done|]. by rewrite <- IH.
Qed.

(** ** Shapes *)
Definition live (s : tcp_state) : Prop := s <> CLOSED /\ s <> LISTEN /\ s <> TIME_WAIT.
#[export] Instance live_dec s : Decision (live s).
Proof. unfold live. apply _. Defined.

Record shape := mk_shape {
  sh_st : gmap addr (tcp_state * Z);
  sh_ls : gset addr;
  sh_act : list addr;
  sh_tw : list addr;
  sh_bnd : list addr;
  sh_lst : list addr
}.

(** Edges between states of a block that stays on the list of active blocks. *)
Inductive edge : tcp_state -> tcp_state -> Prop :=
  | edge_connected : edge SYN_SENT ESTABLISHED
  | edge_accepted : edge SYN_RCVD ESTABLISHED
  | edge_close_rcvd : edge SYN_RCVD FIN_WAIT_1
  | edge_close : edge ESTABLISHED FIN_WAIT_1
  | edge_fin : edge ESTABLISHED CLOSE_WAIT
  | edge_last : edge CLOSE_WAIT LAST_ACK
  | edge_acked : edge FIN_WAIT_1 FIN_WAIT_2
  | edge_both : edge FIN_WAIT_1 CLOSING.
(** States from which a block enters TIME-WAIT; an established connection does
    when it is closed before all data is read. *)
Inductive edge_tw : tcp_state -> Prop :=
  | tw_fin_wait_1 : edge_tw FIN_WAIT_1
  | tw_fin_wait_2 : edge_tw FIN_WAIT_2
  | tw_closing : edge_tw CLOSING
  | tw_reset : edge_tw ESTABLISHED.

(** [forget]: the slow timer may also drop blocks from the active list. *)
Inductive sstep (forget : bool) (s : shape) : shape -> Prop :=
  | st_new id : sh_st s !! id = None -> id ∉ sh_ls s ->
      sstep forget s (mk_shape (<[id := (CLOSED, 0)]> (sh_st s)) (sh_ls s) (sh_act s) (sh_tw s) (sh_bnd s) (sh_lst s))
  | st_port id port : sh_st s !! id = Some (CLOSED, 0) ->
      sstep forget s (mk_shape (<[id := (CLOSED, port)]> (sh_st s)) (sh_ls s) (sh_act s) (sh_tw s) (sh_bnd s) (sh_lst s))
  | st_bind id port0 port : sh_st s !! id = Some (CLOSED, port0) -> id ∉ sh_bnd s -> port <> 0 ->
      sstep forget s (mk_shape (<[id := (CLOSED, port)]> (sh_st s)) (sh_ls s) (sh_act s) (sh_tw s) (id :: sh_bnd s) (sh_lst s))
  | st_connect id port : sh_st s !! id = Some (CLOSED, port) -> port <> 0 ->
      sstep forget s (mk_shape (<[id := (SYN_SENT, port)]> (sh_st s)) (sh_ls s) (id :: sh_act s) (sh_tw s)
                        (unlink id (sh_bnd s)) (sh_lst s))
  | st_accept id port : sh_st s !! id = Some (CLOSED, 0) ->
      sstep forget s (mk_shape (<[id := (SYN_RCVD, port)]> (sh_st s)) (sh_ls s) (id :: sh_act s) (sh_tw s) (sh_bnd s) (sh_lst s))
  | st_edge id a b port : sh_st s !! id = Some (a, port) -> edge a b ->
      sstep forget s (mk_shape (<[id := (b, port)]> (sh_st s)) (sh_ls s) (sh_act s) (sh_tw s) (sh_bnd s) (sh_lst s))
  | st_timewait id a port : sh_st s !! id = Some (a, port) -> edge_tw a ->
      sstep forget s (mk_shape (<[id := (TIME_WAIT, port)]> (sh_st s)) (sh_ls s) (unlink id (sh_act s)) (id :: sh_tw s)
                        (sh_bnd s) (sh_lst s))
  | st_free id : is_Some (sh_st s !! id) ->
      sstep forget s (mk_shape (delete id (sh_st s)) (sh_ls s) (unlink id (sh_act s)) (unlink id (sh_tw s))
                        (unlink id (sh_bnd s)) (sh_lst s))
  | st_listen id lid port : sh_st s !! id = Some (CLOSED, port) -> sh_st s !! lid = None -> lid ∉ sh_ls s ->
      sstep forget s (mk_shape (delete id (sh_st s)) ({[lid]} ∪ sh_ls s) (sh_act s) (sh_tw s)
                        (unlink id (sh_bnd s)) (lid :: sh_lst s))
  | st_unlisten lid : lid ∈ sh_ls s ->
      sstep forget s (mk_shape (sh_st s) (sh_ls s ∖ {[lid]}) (sh_act s) (sh_tw s) (sh_bnd s) (unlink lid (sh_lst s)))
  | st_front id : id ∈ sh_act s ->
      sstep forget s (mk_shape (sh_st s) (sh_ls s) (id :: unlink id (sh_act s)) (sh_tw s) (sh_bnd s) (sh_lst s))
  | st_front_listen lid : lid ∈ sh_lst s ->
      sstep forget s (mk_shape (sh_st s) (sh_ls s) (sh_act s) (sh_tw s) (sh_bnd s) (lid :: unlink lid (sh_lst s)))
  | st_forget act : forget = true -> act `sublist_of` sh_act s ->
      sstep forget s (mk_shape (sh_st s) (sh_ls s) act (sh_tw s) (sh_bnd s) (sh_lst s)).

(** ** The axioms about the lists *)
Record lists_ok (s : shape) : Prop := {
  lo_nodup : NoDup (sh_act s ++ sh_tw s ++ sh_bnd s);
  lo_act : forall id, id ∈ sh_act s -> exists a port, sh_st s !! id = Some (a, port) /\ live a;
  lo_tw : forall id, id ∈ sh_tw s -> exists port, sh_st s !! id = Some (TIME_WAIT, port);
  lo_bnd : forall id, id ∈ sh_bnd s -> exists port, sh_st s !! id = Some (CLOSED, port) /\ port <> 0;
  lo_lst : NoDup (sh_lst s) /\ forall lid, lid ∈ sh_lst s <-> lid ∈ sh_ls s;
  lo_sep : forall lid, lid ∈ sh_ls s -> sh_st s !! lid = None
}.
(** Every block that is not CLOSED is on a list. *)
Definition accounted (s : shape) : Prop :=
  forall id a port, sh_st s !! id = Some (a, port) -> a <> CLOSED -> id ∈ sh_act s ++ sh_tw s.

Section Invariant.
Implicit Types (s : shape) (id : addr).

Lemma lo_not_act s id a port : lists_ok s -> sh_st s !! id = Some (a, port) -> ~ live a -> id ∉ sh_act s.
Proof. intros H E Ha Hin. destruct (lo_act s H id Hin) as (b & q & E' & Hb). naive_solver. Qed.
Lemma lo_not_tw s id a port : lists_ok s -> sh_st s !! id = Some (a, port) -> a <> TIME_WAIT -> id ∉ sh_tw s.
Proof. intros H E Ha Hin. destruct (lo_tw s H id Hin) as (q & E'). naive_solver. Qed.
Lemma lo_not_bnd s id a port : lists_ok s -> sh_st s !! id = Some (a, port) -> a <> CLOSED -> id ∉ sh_bnd s.
Proof. intros H E Ha Hin. destruct (lo_bnd s H id Hin) as (q & E' & _). naive_solver. Qed.
Lemma lo_not_any s id : lists_ok s -> sh_st s !! id = None -> id ∉ sh_act s ++ sh_tw s ++ sh_bnd s.
Proof.
  intros H E. rewrite !elem_of_app. intros [Hi|[Hi|Hi]].
  - destruct (lo_act s H id Hi) as (? & ? & ? & _). congruence.
  - destruct (lo_tw s H id Hi) as (? & ?). congruence.
  - destruct (lo_bnd s H id Hi) as (? & ? & _). congruence.
Qed.

(** The lists are disjoint because of the states. *)
Lemma lists_ok_intro s : NoDup (sh_act s) -> NoDup (sh_tw s) -> NoDup (sh_bnd s) ->
  (forall id, id ∈ sh_act s -> exists a port, sh_st s !! id = Some (a, port) /\ live a) ->
  (forall id, id ∈ sh_tw s -> exists port, sh_st s !! id = Some (TIME_WAIT, port)) ->
  (forall id, id ∈ sh_bnd s -> exists port, sh_st s !! id = Some (CLOSED, port) /\ port <> 0) ->
  (NoDup (sh_lst s) /\ forall lid, lid ∈ sh_lst s <-> lid ∈ sh_ls s) ->
  (forall lid, lid ∈ sh_ls s -> sh_st s !! lid = None) -> lists_ok s.
Proof.
  intros Ha Ht Hb La Lt Lb Ll Ls. split; try done.
  apply NoDup_app. split_and!; [done| |].
  - intros id Hi. destruct (La id Hi) as (a & q & E & (L1 & L2 & L3)). rewrite elem_of_app.
    intros [Hx|Hx]; [destruct (Lt id Hx)|destruct (Lb id Hx) as (? & ? & _)]; congruence.
  - apply NoDup_app. split_and!; try done. intros id Hi Hx.
    destruct (Lt id Hi), (Lb id Hx) as (? & ? & _). congruence.
Qed.
Lemma lo_nodups s : lists_ok s -> NoDup (sh_act s) /\ NoDup (sh_tw s) /\ NoDup (sh_bnd s).
Proof. intros [H _ _ _ _ _]. apply NoDup_app in H as (? & _ & (? & _ & ?)%NoDup_app). done. Qed.

Lemma live_edge a b : edge a b -> live a /\ live b.
Proof. by destruct 1. Qed.
Lemma live_edge_tw a : edge_tw a -> live a.
Proof. by destruct 1. Qed.

(** A step that concerns one block. *)
Lemma lists_ok_update s s' id : lists_ok s ->
  (forall y, y <> id -> sh_st s' !! y = sh_st s !! y /\ (y ∈ sh_act s' -> y ∈ sh_act s) /\
    (y ∈ sh_tw s' -> y ∈ sh_tw s) /\ (y ∈ sh_bnd s' -> y ∈ sh_bnd s)) ->
  NoDup (sh_act s') -> NoDup (sh_tw s') -> NoDup (sh_bnd s') ->
  (id ∈ sh_act s' -> exists a port, sh_st s' !! id = Some (a, port) /\ live a) ->
  (id ∈ sh_tw s' -> exists port, sh_st s' !! id = Some (TIME_WAIT, port)) ->
  (id ∈ sh_bnd s' -> exists port, sh_st s' !! id = Some (CLOSED, port) /\ port <> 0) ->
  sh_lst s' = sh_lst s -> sh_ls s' = sh_ls s -> (id ∈ sh_ls s -> sh_st s' !! id = None) -> lists_ok s'.
Proof.
  intros [_ La Lt Lb Ll Ls] Ho N1 N2 N3 Ia It Ib E1 E2 Hs. apply lists_ok_intro; try done.
  - intros y Hy. destruct (decide (y = id)) as [->|Hn]; [auto|].
    destruct (Ho y Hn) as (-> & ? & ? & ?). auto.
  - intros y Hy. destruct (decide (y = id)) as [->|Hn]; [auto|].
    destruct (Ho y Hn) as (-> & ? & ? & ?). auto.
  - intros y Hy. destruct (decide (y = id)) as [->|Hn]; [auto|].
    destruct (Ho y Hn) as (-> & ? & ? & ?). auto.
  - by rewrite E1, E2.
  - intros y. rewrite E2. intros Hy. destruct (decide (y = id)) as [->|Hn]; [auto|].
    destruct (Ho y Hn) as (-> & _). auto.
Qed.

(** The lists of a shape keep no duplicates. *)
Lemma unlink_NoDup id l : NoDup l -> NoDup (unlink id l).
Proof. intros. by eapply sublist_NoDup; [|apply unlink_sublist]. Qed.
Hint Resolve unlink_NoDup : core.

(** The entry of the block of the step. *)
Ltac one_entry :=
  let Hi := fresh in intros Hi; try (exfalso; rewrite ?elem_of_cons in Hi; tauto); try done; eauto 8.
(** Apply [lists_ok_update] to a step for block [id]. *)
Ltac one_block s id H :=
  let N1 := fresh "N" in let N2 := fresh "N" in let N3 := fresh "N" in
  destruct (lo_nodups s H) as (N1 & N2 & N3);
  apply (lists_ok_update s _ id H); simpl; rewrite ?lookup_insert_eq, ?lookup_delete_eq;
  [ let y := fresh "y" in let Hy := fresh in
    intros y Hy; rewrite ?lookup_insert_ne, ?lookup_delete_ne, ?elem_of_cons, ?elem_of_unlink_ne by done;
    split_and!; try done; tauto
  | rewrite ?NoDup_cons; auto | rewrite ?NoDup_cons; auto | rewrite ?NoDup_cons; auto
  | one_entry | one_entry | one_entry | try done | try done | try done ].

Lemma ls_free s id e : lists_ok s -> sh_st s !! id = Some e -> id ∉ sh_ls s.
Proof. intros H E Hi. rewrite (lo_sep s H id Hi) in E. done. Qed.

Lemma step_new s id : lists_ok s -> sh_st s !! id = None -> id ∉ sh_ls s ->
  lists_ok (mk_shape (<[id := (CLOSED, 0)]> (sh_st s)) (sh_ls s) (sh_act s) (sh_tw s) (sh_bnd s) (sh_lst s)).
Proof.
  intros H E Hl. pose proof (lo_not_any s id H E) as Hn. rewrite !not_elem_of_app in Hn. destruct Hn as (M1 & M2 & M3).
  one_block s id H.
Qed.
Lemma step_closed s id port0 port : lists_ok s -> sh_st s !! id = Some (CLOSED, port0) -> (id ∈ sh_bnd s -> port <> 0) ->
  lists_ok (mk_shape (<[id := (CLOSED, port)]> (sh_st s)) (sh_ls s) (sh_act s) (sh_tw s) (sh_bnd s) (sh_lst s)).
Proof.
  intros H E Hp. pose proof (ls_free s id _ H E). pose proof (lo_not_act s id _ _ H E ltac:(by intros (? & ?))).
  pose proof (lo_not_tw s id _ _ H E ltac:(done)). one_block s id H.
Qed.
Lemma step_bind s id port0 port : lists_ok s -> sh_st s !! id = Some (CLOSED, port0) -> id ∉ sh_bnd s -> port <> 0 ->
  lists_ok (mk_shape (<[id := (CLOSED, port)]> (sh_st s)) (sh_ls s) (sh_act s) (sh_tw s) (id :: sh_bnd s) (sh_lst s)).
Proof.
  intros H E Hb Hp. pose proof (ls_free s id _ H E). pose proof (lo_not_act s id _ _ H E ltac:(by intros (? & ?))).
  pose proof (lo_not_tw s id _ _ H E ltac:(done)). one_block s id H.
Qed.
Lemma step_activate s id port0 port a : lists_ok s -> sh_st s !! id = Some (CLOSED, port0) -> live a ->
  lists_ok (mk_shape (<[id := (a, port)]> (sh_st s)) (sh_ls s) (id :: sh_act s) (sh_tw s) (unlink id (sh_bnd s)) (sh_lst s)).
Proof.
  intros H E Ha. pose proof (ls_free s id _ H E). pose proof (lo_not_act s id _ _ H E ltac:(by intros (? & ?))).
  pose proof (lo_not_tw s id _ _ H E ltac:(done)). pose proof (unlink_gone id _ (proj2 (proj2 (lo_nodups s H)))).
  one_block s id H.
Qed.
Lemma step_edge s id a b port : lists_ok s -> sh_st s !! id = Some (a, port) -> live a -> live b ->
  lists_ok (mk_shape (<[id := (b, port)]> (sh_st s)) (sh_ls s) (sh_act s) (sh_tw s) (sh_bnd s) (sh_lst s)).
Proof.
  intros H E (A1 & A2 & A3) Hb. pose proof (ls_free s id _ H E). pose proof (lo_not_tw s id _ _ H E A3).
  pose proof (lo_not_bnd s id _ _ H E A1). one_block s id H.
Qed.
Lemma step_timewait s id a port : lists_ok s -> sh_st s !! id = Some (a, port) -> live a ->
  lists_ok (mk_shape (<[id := (TIME_WAIT, port)]> (sh_st s)) (sh_ls s) (unlink id (sh_act s)) (id :: sh_tw s)
              (sh_bnd s) (sh_lst s)).
Proof.
  intros H E (A1 & A2 & A3). pose proof (ls_free s id _ H E). pose proof (lo_not_tw s id _ _ H E A3).
  pose proof (lo_not_bnd s id _ _ H E A1). pose proof (unlink_gone id _ (proj1 (lo_nodups s H))). one_block s id H.
Qed.
Lemma step_free s id : lists_ok s ->
  lists_ok (mk_shape (delete id (sh_st s)) (sh_ls s) (unlink id (sh_act s)) (unlink id (sh_tw s)) (unlink id (sh_bnd s)) (sh_lst s)).
Proof.
  intros H. destruct (lo_nodups s H) as (D1 & D2 & D3).
  pose proof (unlink_gone id _ D1). pose proof (unlink_gone id _ D2). pose proof (unlink_gone id _ D3).
  one_block s id H.
Qed.
Lemma step_front s id : lists_ok s -> id ∈ sh_act s ->
  lists_ok (mk_shape (sh_st s) (sh_ls s) (id :: unlink id (sh_act s)) (sh_tw s) (sh_bnd s) (sh_lst s)).
Proof.
  intros H Hi. pose proof (unlink_gone id _ (proj1 (lo_nodups s H))). destruct (lo_act s H id Hi) as (a & port & E & A).
  pose proof (ls_free s id _ H E). destruct A as (A1 & A2 & A3). pose proof (lo_not_tw s id _ _ H E A3).
  pose proof (lo_not_bnd s id _ _ H E A1). one_block s id H. by exists a, port.
Qed.
Lemma step_forget s act : lists_ok s -> act `sublist_of` sh_act s ->
  lists_ok (mk_shape (sh_st s) (sh_ls s) act (sh_tw s) (sh_bnd s) (sh_lst s)).
Proof.
  intros H Hs. destruct (lo_nodups s H) as (? & ? & ?), H. apply lists_ok_intro; try done; simpl.
  - by apply (sublist_NoDup _ (sh_act s)).
  - intros x Hx. eauto using elem_of_sublist.
Qed.

(** Steps of listening blocks. *)
Lemma step_listen s id lid port : lists_ok s -> sh_st s !! id = Some (CLOSED, port) -> sh_st s !! lid = None ->
  lid ∉ sh_ls s ->
  lists_ok (mk_shape (delete id (sh_st s)) ({[lid]} ∪ sh_ls s) (sh_act s) (sh_tw s) (unlink id (sh_bnd s)) (lid :: sh_lst s)).
Proof.
  intros H E El Hl. pose proof (step_free s id H) as H'.
  rewrite (unlink_notin id (sh_act s)) in H' by (eapply lo_not_act; [done|done|by intros (? & ?)]).
  rewrite (unlink_notin id (sh_tw s)) in H' by (by eapply lo_not_tw).
  destruct H' as [N La Lt Lb [Ll1 Ll2] Ls]. simpl in *.
  split; simpl; try done.
  - split; [apply NoDup_cons; by rewrite Ll2|]. intros y. rewrite elem_of_cons, Ll2. set_solver.
  - intros y. rewrite elem_of_union, elem_of_singleton. intros [->|Hy]; [|by apply Ls].
    rewrite lookup_delete_ne; [done|congruence].
Qed.
Lemma step_unlisten s lid : lists_ok s ->
  lists_ok (mk_shape (sh_st s) (sh_ls s ∖ {[lid]}) (sh_act s) (sh_tw s) (sh_bnd s) (unlink lid (sh_lst s))).
Proof.
  intros [N La Lt Lb [Ll1 Ll2] Ls]. split; simpl; try done.
  - split; [by apply unlink_NoDup|]. intros y. rewrite elem_of_unlink, Ll2 by done. set_solver.
  - intros y Hy. apply Ls. set_solver.
Qed.
Lemma step_front_listen s lid : lists_ok s -> lid ∈ sh_lst s ->
  lists_ok (mk_shape (sh_st s) (sh_ls s) (sh_act s) (sh_tw s) (sh_bnd s) (lid :: unlink lid (sh_lst s))).
Proof.
  intros [N La Lt Lb [Ll1 Ll2] Ls] Hl. split; simpl; try done. split.
  - apply NoDup_cons. auto using unlink_gone.
  - intros y. rewrite <- Ll2. by rewrite (unlink_Permutation lid (sh_lst s)) at 2.
Qed.

Lemma lists_ok_step forget s s' : sstep forget s s' -> lists_ok s -> lists_ok s'.
Proof.
  intros [] Hok.
  - by apply step_new.
  - eapply step_closed; [done..|]. intros Hb. destruct (lo_bnd s Hok id Hb) as (q & E & Hq). naive_solver.
  - by eapply step_bind.
  - by eapply step_activate.
  - rewrite <- (unlink_notin id (sh_bnd s)); [by eapply step_activate|].
    intros Hb. destruct (lo_bnd s Hok id Hb) as (q & E & Hq). naive_solver.
  - destruct (live_edge a b) as [? ?]; [done|]. by eapply step_edge.
  - eapply step_timewait; [done| |]; [eassumption|by apply live_edge_tw].
  - by apply step_free.
  - by eapply step_listen.
  - by apply step_unlisten.
  - by apply step_front.
  - by apply step_front_listen.
  - by apply step_forget.
Qed.
Lemma lists_ok_steps forget s s' : rtc (sstep forget) s s' -> lists_ok s -> lists_ok s'.
Proof. induction 1; eauto using lists_ok_step. Qed.

(** Nothing is lost but by [st_forget]. *)
Lemma accounted_step s s' : sstep false s s' -> lists_ok s -> accounted s -> accounted s'.
Proof.
  intros Hs Hok Ha id a port E Hc.
  assert (forall x, id ∈ unlink x (sh_act s) <-> id <> x /\ id ∈ sh_act s) as Ua
    by (intros; apply elem_of_unlink, lo_nodups, Hok).
  assert (forall x, id ∈ unlink x (sh_tw s) <-> id <> x /\ id ∈ sh_tw s) as Ut
    by (intros; apply elem_of_unlink, lo_nodups, Hok).
  assert (forall a port, sh_st s !! id = Some (a, port) -> a <> CLOSED -> id ∈ sh_act s \/ id ∈ sh_tw s) as Hb
    by (intros; rewrite <- elem_of_app; eauto).
  destruct Hs; simpl in *; try done; repeat first [rewrite elem_of_app | rewrite elem_of_cons]; rewrite ?Ua, ?Ut;
    match type of E with
    | <[?x := _]> _ !! id = _ =>
        destruct (decide (x = id)) as [->|?]; [rewrite lookup_insert_eq in E; injection E as <- <-; try done|
          rewrite lookup_insert_ne in E by done]
    | delete ?x _ !! id = _ =>
        destruct (decide (x = id)) as [->|?]; [by rewrite lookup_delete_eq in E|rewrite lookup_delete_ne in E by done]
    | _ => idtac
    end; try (assert (id <> id0) by congruence); try (specialize (Hb _ _ E Hc); tauto); try tauto.
  - destruct (live_edge a0 b) as [(A & _) _]; [done|]. eauto.
  - specialize (Hb _ _ E Hc). destruct (decide (id = id0)); tauto.
Qed.
End Invariant.
