(* ===== verification/TcpKeeps.v ===== *)
(** * TCP: what the operations of a control block leave alone

    Apart from tcp_receive, which may see the peer's FIN, no operation of
    TcpOut.v and TcpIn.v changes the state or the local port of a block. *)
From S2P Require Import Prelude ByteOrder IpAddr Ip Tcp TcpOut TcpIn TcpStream TcpAck TcpSend TcpWrite TcpRecv TcpWorld TcpProcess TcpTimer.

(** Equal results, without unfolding what they hold. *)
Lemma Ok_inj {A} (a b : A) : Ok a = Ok b -> a = b.
Proof. by intros [=]. Qed.

Definition ident (p : tcp_pcb) : tcp_state * Z := (state p, local_port p).
Definition keeps (p p' : tcp_pcb) : Prop := ident p' = ident p.
#[export] Instance keeps_equiv : Equivalence keeps.
Proof. split; red; unfold keeps; congruence. Qed.

Lemma out_frame_keeps p p' : out_frame p p' -> keeps p p'.
Proof. intros [F _ _]. frame_eq F state. frame_eq F local_port. unfold keeps, ident. congruence. Qed.
Lemma rcv_side_keeps p p' : rcv_side p' = rcv_side p -> keeps p p'.
Proof. unfold rcv_side, keeps, ident. congruence. Qed.

Lemma output_keeps p e err p' e' : tcp_output p e = Ok (err, p', e') -> keeps p p'.
Proof. intros H%output_frame_ok. by apply out_frame_keeps. Qed.
Lemma write_keeps p e arg fl err p' e' : tcp_write p e arg fl = Ok (err, p', e') -> keeps p p'.
Proof. intros H%write_side. by apply rcv_side_keeps. Qed.
Lemma enqueue_keeps p e fl err p' e' : tcp_enqueue_flags p e fl = Ok (err, p', e') -> keeps p p'.
Proof.
  unfold tcp_enqueue_flags. intros H. apply res_bind_ok in H as (? & _ & H).
  repeat case_match; apply Ok3_inj in H as (_ & <- & _); done.
Qed.
Lemma send_fin_keeps p e err p' e' : tcp_send_fin p e = Ok (err, p', e') -> keeps p p'.
Proof.
  unfold tcp_send_fin. destruct (last (unsent p)); [destruct has_flag|];
    try apply enqueue_keeps. intros H. by apply Ok3_inj in H as (_ & <- & _).
Qed.
Lemma empty_ack_keeps p e : keeps p (tcp_send_empty_ack p e).1.2.
Proof. unfold tcp_send_empty_ack, tcp_output_alloc_header. by destruct (alloc e) as [[] ?]. Qed.
Lemma ann_wnd_keeps p d p' : tcp_update_rcv_ann_wnd p = Ok (d, p') -> keeps p p'.
Proof.
  unfold tcp_update_rcv_ann_wnd. cbv zeta. intros H. repeat case_match; try (apply Ok2_inj in H as [_ <-]; done).
  apply res_bind_ok in H as (? & _ & H). by apply Ok2_inj in H as [_ <-].
Qed.
Lemma recved_keeps p e len p' e' : tcp_recved p e len = Ok (p', e') -> keeps p p'.
Proof.
  unfold tcp_recved. intros H. apply res_bind_ok in H as (? & _ & H). apply res_bind_ok in H as (? & _ & H).
  apply res_bind_ok in H as ([infl q] & H1 & H). apply ann_wnd_keeps in H1.
  destruct (_ <=? _).
  - apply res_bind_ok in H as ([[er q2] e2] & H2 & H). apply output_keeps in H2. apply Ok2_inj in H as [<- _].
    transitivity q; [exact H1|exact H2].
  - apply Ok2_inj in H as [<- _]. exact H1.
Qed.
Lemma rexmit_keeps p : keeps p (tcp_rexmit p).
Proof. unfold tcp_rexmit. by destruct (unacked p). Qed.
Lemma purge_keeps p : keeps p (tcp_pcb_purge p).
Proof. unfold tcp_pcb_purge, keeps, ident. by destruct (state p) eqn:E; rewrite <- ?E. Qed.
Lemma ack_now_keeps p : keeps p (tcp_ack_now p).
Proof. done. Qed.
Lemma ack_keeps p : keeps p (tcp_ack p).
Proof. unfold tcp_ack. by destruct has_flag. Qed.
Lemma parseopt_keeps p i p' : tcp_parseopt p i = Ok p' -> keeps p p'.
Proof.
  unfold tcp_parseopt. destruct (5 <? in_hdrlen i); intros H; [|by injection H as <-].
  apply res_bind_ok in H as (m & _ & H). by injection H as <-.
Qed.
Lemma activity_keeps t p : keeps p (note_activity t p).
Proof. unfold note_activity. by destruct has_flag. Qed.
Lemma rexmit_rto_keeps p e p' e' : tcp_rexmit_rto p e = Ok (p', e') -> keeps p p'.
Proof.
  intros (q & H1 & H2)%rexmit_rto_frame. apply out_frame_keeps in H2. apply rcv_side_keeps in H1. by rewrite H1.
Qed.

(** ** Receiving *)

(** The FIN moves an established connection to CLOSE_WAIT, and only its flag is
    added to the receive flags. *)
Definition received (p p' : tcp_pcb) (i i' : tcp_in) : Prop :=
  local_port p' = local_port p /\
  (state p' = state p \/ state p = ESTABLISHED /\ state p' = CLOSE_WAIT /\ has_flag (recv_flags i') TF_GOT_FIN = true) /\
  (recv_flags i' = recv_flags i \/ recv_flags i' = Z.lor (recv_flags i) TF_GOT_FIN) /\
  in_flags i' = in_flags i /\ in_ackno i' = in_ackno i.

Lemma received_refl p i : received p p i i.
Proof. split_and!; auto. Qed.
Lemma got_fin_flag i : has_flag (recv_flags (got_fin i)) TF_GOT_FIN = true.
Proof. change (recv_flags (got_fin i)) with (Z.lor (recv_flags i) TF_GOT_FIN). by rewrite has_flag_lor_l, orb_true_r. Qed.
Lemma lor_idem_r a b : Z.lor (Z.lor a b) b = Z.lor a b.
Proof. by rewrite <- Z.lor_assoc, Z.lor_diag. Qed.
Lemma fin_kept i i' : recv_flags i' = recv_flags i \/ recv_flags i' = Z.lor (recv_flags i) TF_GOT_FIN ->
  has_flag (recv_flags i) TF_GOT_FIN = true -> has_flag (recv_flags i') TF_GOT_FIN = true.
Proof. intros [->| ->]; [done|]. intros H. by rewrite has_flag_lor_l, H. Qed.
Lemma received_trans p q r i j k : received p q i j -> received q r j k -> received p r i k.
Proof.
  intros (P1 & S1 & F1 & G1 & K1) (P2 & S2 & F2 & G2 & K2). pose proof (fin_kept j k F2) as Hk.
  split_and!; try congruence.
  - destruct S1 as [S1|(S1 & S1' & F)], S2 as [S2|(S2 & S2' & F')]; try (left; congruence); right; rewrite ?S2, ?S1';
      split_and!; try congruence; auto.
  - destruct F1 as [F1|F1], F2 as [F2|F2]; rewrite F2, F1; rewrite ?lor_idem_r; auto.
Qed.
Lemma received_keeps p q i : keeps p q -> received p q i i.
Proof. intros [=]. split_and!; auto. Qed.
Lemma received_in p i j : recv_flags j = recv_flags i -> in_flags j = in_flags i -> in_ackno j = in_ackno i -> received p p i j.
Proof. intros. split_and!; auto. Qed.
Lemma received_fin p i : received p p i (got_fin i).
Proof. split_and!; auto. Qed.

Lemma trim_left_in p i j : trim_left p i = Ok j -> received p p i j.
Proof.
  unfold trim_left. intros H. apply res_bind_ok in H as (? & _ & H). apply res_bind_ok in H as (? & _ & H).
  apply res_bind_ok in H as (? & _ & H). injection H as <-. by apply received_in.
Qed.
Lemma trim_right_in p i j : trim_right p i = Ok j -> received p p i j.
Proof.
  unfold trim_right. cbv zeta. intros H. destruct (_ <? _).
  - apply res_bind_ok in H as (? & _ & H). injection H as <-. by apply received_in.
  - injection H as <-. by apply received_in.
Qed.
Lemma drop_covered_in p l : forall i, received p p i (drop_covered l i).2.
Proof.
  induction l as [|s l IH]; intros i; simpl; [apply received_refl|].
  destruct TCP_SEQ_GEQ; [|apply received_refl].
  eapply received_trans; [|apply IH]. destruct (_ && _); by apply received_in.
Qed.
Lemma adjust_ooseq_in p i q j : adjust_ooseq p i = Ok (q, j) -> received p q i j.
Proof.
  unfold adjust_ooseq. destruct (ooseq p) as [|s l] eqn:El; intros H.
  { apply Ok2_inj in H as [<- <-]. apply received_refl. }
  destruct has_flag. { apply Ok2_inj in H as [<- <-]. by apply received_keeps. }
  pose proof (drop_covered_in p (s :: l) i) as Hd. destruct (drop_covered (s :: l) i) as [next k]. cbn [snd] in Hd.
  apply res_bind_ok in H as (k2 & H1 & H). apply Ok2_inj in H as [<- <-].
  eapply received_trans; [exact Hd|]. apply (received_trans _ p _ _ k2); [|by apply received_keeps].
  destruct next as [|n next]; [by injection H1 as <-; apply received_refl|].
  destruct TCP_SEQ_GT; [|by injection H1 as <-; apply received_refl].
  apply res_bind_ok in H1 as (? & _ & H1). injection H1 as <-. by apply received_in.
Qed.
Lemma dequeue_ooseq_in l : forall p i q j, dequeue_ooseq l p i = Ok (q, j) -> received p q i j.
Proof.
  induction l as [|s l IH]; intros p i q j H; cbn [dequeue_ooseq] in H.
  { apply Ok2_inj in H as [<- <-]. apply received_refl. }
  destruct (_ =? _); [|apply Ok2_inj in H as [<- <-]; apply received_refl].
  apply res_bind_ok in H as (? & _ & H). apply res_bind_ok in H as ([d p1] & H1 & H).
  apply ann_wnd_keeps in H1. set (i1 := if 0 <? _ then _ else _) in H.
  assert (received p p1 i i1) as R1.
  { eapply received_trans; [apply (received_keeps _ p1); exact H1|]. unfold i1.
    destruct (0 <? _); by apply received_in. }
  eapply received_trans; [exact R1|].
  destruct (has_flag (seg_hflags s) TCP_FIN); apply IH in H; (eapply received_trans; [|exact H]);
    [|by apply received_keeps].
  destruct (state_is (state p1) ESTABLISHED) eqn:Es.
  - apply bool_decide_eq_true in Es. split_and!; auto. right. split_and!; try done. apply got_fin_flag.
  - eapply received_trans; [apply received_fin|by apply received_keeps].
Qed.
Lemma recv_inorder_in p i q j : recv_inorder p i = Ok (q, j) -> received p q i j.
Proof.
  unfold recv_inorder. intros H. apply res_bind_ok in H as (i1 & H1 & H). apply trim_right_in in H1.
  apply res_bind_ok in H as ([p1 i2] & H2 & H). apply adjust_ooseq_in in H2.
  apply res_bind_ok in H as (? & _ & H). apply res_bind_ok in H as ([d p2] & H3 & H). apply ann_wnd_keeps in H3.
  apply res_bind_ok in H as ([p3 i3] & H4 & H). apply dequeue_ooseq_in in H4. apply Ok2_inj in H as [<- <-].
  eapply received_trans; [exact H1|]. eapply received_trans; [exact H2|].
  eapply received_trans; [apply (received_keeps _ p2); exact H3|].
  eapply received_trans; [|eapply received_trans; [exact H4|apply received_keeps, ack_keeps]].
  set (i4 := if 0 <? _ then _ else i2). assert (received p2 p2 i2 i4) as R4
    by (unfold i4; destruct (0 <? _); by apply received_in).
  eapply received_trans; [exact R4|]. destruct has_flag; [apply received_fin|apply received_refl].
Qed.
Lemma trim_overrun_in p s i s' j : trim_overrun p s i = Ok (s', j) -> received p p i j.
Proof.
  unfold trim_overrun. destruct (_ <? _); intros H.
  - apply res_bind_ok in H as (? & _ & H). apply Ok2_inj in H as [_ <-]. by apply received_in.
  - apply Ok2_inj in H as [_ <-]. apply received_refl.
Qed.
Lemma oos_walk_in p l : forall prev e i l' e' j, oos_walk p prev l e i = Ok (l', e', j) -> received p p i j.
Proof.
  induction l as [|s l IH]; intros prev e i l' e' j H; cbn [oos_walk] in H.
  { apply Ok3_inj in H as (_ & _ & <-). apply received_refl. }
  destruct (_ =? _).
  { destruct (_ <? _); [destruct (alloc e)|]; apply Ok3_inj in H as (_ & _ & <-); apply received_refl. }
  destruct (match prev with None => _ | Some _ => _ end).
  { destruct (alloc e). apply Ok3_inj in H as (_ & _ & <-). apply received_refl. }
  destruct (_ && _).
  - destruct has_flag; [apply Ok3_inj in H as (_ & _ & <-); apply received_refl|].
    destruct (alloc e) as [[] e1]; [|apply Ok3_inj in H as (_ & _ & <-); apply received_refl].
    apply res_bind_ok in H as ([c k] & H1 & H). apply trim_overrun_in in H1. by apply Ok3_inj in H as (_ & _ & <-).
  - apply res_bind_ok in H as ([[l2 e1] k] & H1 & H). apply IH in H1. by apply Ok3_inj in H as (_ & _ & <-).
Qed.
Lemma recv_ooseq_in p e i q e' j : recv_ooseq p e i = Ok (q, e', j) -> received p q i j.
Proof.
  unfold recv_ooseq. pose proof (empty_ack_keeps p e) as Hk. destruct (tcp_send_empty_ack p e) as [[er p1] e1].
  cbn [fst snd] in Hk. intros H. eapply received_trans; [apply (received_keeps _ p1), Hk|].
  destruct (ooseq p1) as [|s l].
  - destruct (alloc e1). apply Ok3_inj in H as (<- & _ & <-). by apply received_keeps.
  - apply res_bind_ok in H as ([[l2 e2] k] & H1 & H). apply (oos_walk_in p1) in H1 as R.
    apply Ok3_inj in H as (<- & _ & <-). eapply received_trans; [exact R|]. by apply received_keeps.
Qed.
Lemma recv_in_window_in p e i q e' j : recv_in_window p e i = Ok (q, e', j) -> received p q i j.
Proof.
  unfold recv_in_window. destruct TCP_SEQ_BETWEEN.
  - destruct (_ =? _); [|apply recv_ooseq_in]. intros H.
    apply res_bind_ok in H as ([p1 i1] & H1 & H). apply recv_inorder_in in H1. by apply Ok3_inj in H as (<- & _ & <-).
  - pose proof (empty_ack_keeps p e) as Hk. destruct (tcp_send_empty_ack p e) as [[er p1] e1]. cbn [fst snd] in Hk.
    intros H. apply Ok3_inj in H as (<- & _ & <-). by apply received_keeps.
Qed.
Lemma recv_text_in p e i q e' j : recv_text p e i = Ok (q, e', j) -> received p q i j.
Proof.
  unfold recv_text. destruct (_ && _); intros H.
  - apply res_bind_ok in H as ([p1 i1] & H1 & H). apply recv_in_window_in in H. eapply received_trans; [|exact H].
    destruct TCP_SEQ_BETWEEN.
    + apply res_bind_ok in H1 as (k & H1 & H2). apply trim_left_in in H1. by apply Ok2_inj in H2 as [<- <-].
    + destruct TCP_SEQ_LT; apply Ok2_inj in H1 as [<- <-]; [by apply received_keeps|apply received_refl].
  - destruct (negb _); apply Ok3_inj in H as (<- & _ & <-); by apply received_keeps.
Qed.
Lemma tcp_receive_in p e i q e' j : tcp_receive p e i = Ok (q, e', j) -> received p q i j.
Proof.
  unfold tcp_receive. intros H. apply res_bind_ok in H as (? & _ & H). apply res_bind_ok in H as (p1 & H1 & H).
  apply recv_text_in in H. eapply received_trans; [|exact H]. apply received_keeps.
  destruct has_flag; [apply rcv_side_keeps; by eapply recv_ack_rcv_side|by injection H1 as <-].
Qed.

(** ** The slow timer on one block *)
Lemma alloc_header_keeps p e a b c : keeps p (tcp_output_alloc_header p e a b c).1.2.
Proof. unfold tcp_output_alloc_header. by destruct (alloc e) as [[] ?]. Qed.
Lemma keepalive_keeps p e : keeps p (tcp_keepalive p e).1.
Proof.
  unfold tcp_keepalive. pose proof (alloc_header_keeps p e 0 0 (u32 (snd_nxt p - 1))) as H.
  by destruct (tcp_output_alloc_header _ _ _ _ _) as [[[k|] q] e'].
Qed.
Lemma probe_keeps p e : keeps p (tcp_zero_window_probe p e).1.
Proof.
  unfold tcp_zero_window_probe. destruct (unacked p ++ unsent p) as [|s l]; [done|]. cbv zeta.
  pose proof (alloc_header_keeps p e 0 (if has_flag (seg_hflags s) TCP_FIN && (seg_len s =? 0) then 0 else 1)
    (seg_seqno s)) as H.
  by destruct (tcp_output_alloc_header _ _ _ _ _) as [[[k|] q] e'].
Qed.
Lemma slow_persist_keeps p e p' e' : slow_persist p e = Ok (p', e') -> keeps p p'.
Proof.
  unfold slow_persist. intros H. apply res_bind_ok in H as (b & _ & H).
  destruct (b <=? _); [|by apply Ok2_inj in H as [<- _]]. injection H as H.
  set (q := if _ <? zlen _ then _ else _) in H. pose proof (probe_keeps q e) as Hk. rewrite H in Hk.
  etransitivity; [|exact Hk]. unfold q. by destruct (_ <? _).
Qed.
Lemma slow_rexmit_keeps p e p' e' : slow_rexmit p e = Ok (p', e') -> keeps p p'.
Proof.
  unfold slow_rexmit. set (q := if 0 <=? rtime p then _ else p). assert (keeps p q) as Hq by (unfold q; by destruct (_ <=? _)).
  intros H. destruct (_ && _); [|by apply Ok2_inj in H as [<- _]].
  apply res_bind_ok in H as (q1 & H1 & H). apply rexmit_rto_keeps in H. etransitivity; [exact Hq|].
  transitivity q1; [|exact H]. unfold slow_rto in H1. destruct state_is; [by injection H1 as <-|].
  apply res_bind_ok in H1 as (b & _ & H1). by injection H1 as <-.
Qed.
Lemma slow_send_keeps p e p' e' : slow_send p e = Ok (p', e') -> keeps p p'.
Proof.
  unfold slow_send. destruct (rexmit_exhausted p); [intros H; by apply Ok2_inj in H as [<- _]|].
  destruct (0 <? _); [apply slow_persist_keeps|apply slow_rexmit_keeps].
Qed.
Lemma slow_keepalive_keeps p e b p' e' : slow_keepalive p e = (b, p', e') -> keeps p p'.
Proof.
  unfold slow_keepalive. pose proof (keepalive_keeps p e) as H. destruct (tcp_keepalive p e) as [q e1].
  repeat case_match; by intros [= <- <- <-].
Qed.
Lemma slow_pcb_keeps p e r s p' e' : slow_pcb p e = Ok (r, s, p', e') -> keeps p p'.
Proof.
  unfold slow_pcb. cbv zeta. intros H. apply res_bind_ok in H as ([q e1] & H1 & H). apply slow_send_keeps in H1.
  destruct (slow_keepalive q e1) as [[b q2] e2] eqn:H2. apply slow_keepalive_keeps in H2.
  injection H as _ _ <- _. etransitivity; [exact H1|]. etransitivity; [exact H2|].
  unfold slow_ooseq. by destruct (_ && _).
Qed.
