(* ===== verification/TcpLists.v ===== *)
(** * TCP: the operations are steps of the abstract machine

    [shape_of] abstracts a world to its shape. Every operation of TcpWorld.v,
    TcpProcess.v and TcpTimer.v that returns is a sequence of steps of
    TcpShape.v, for an application whose callbacks keep to the rules of the raw
    API ([callbacks_ok]). *)
From S2P Require Import Prelude ByteOrder IpAddr Ip Tcp TcpOut TcpIn TcpSend TcpWorld TcpProcess TcpTimer TcpShape TcpKeeps.

Section Shape.
Context {A : Type}.
Abbreviation world := (tcp_world A).
Implicit Types (w : world) (id : addr).

Definition shape_of (w : world) : shape :=
  mk_shape (ident <$> w_pcbs w) (dom (w_listen w)) (tcp_active_pcbs w) (tcp_tw_pcbs w) (tcp_bound_pcbs w)
    (tcp_listen_pcbs w).
Definition steps (forget : bool) (w w' : world) : Prop := rtc (sstep forget) (shape_of w) (shape_of w').
#[local] Instance steps_preorder forget : PreOrder (steps forget).
Proof. split; red; unfold steps; [reflexivity|etransitivity; eassumption]. Qed.

Definition st_of (w : world) (id : addr) : option (tcp_state * Z) := sh_st (shape_of w) !! id.
(** The block exists and is not CLOSED. *)
Definition alive (w : world) (id : addr) : Prop := exists a port, st_of w id = Some (a, port) /\ a <> CLOSED.

Lemma steps_eq f w w' : shape_of w' = shape_of w -> steps f w w'.
Proof. unfold steps. by intros ->. Qed.
Lemma steps_one f w w' : sstep f (shape_of w) (shape_of w') -> steps f w w'.
Proof. apply rtc_once. Qed.
Lemma sstep_forget s s' f : sstep false s s' -> sstep f s s'.
Proof. by destruct 1; econstructor. Qed.
Lemma steps_weaken f w w' : steps false w w' -> steps f w w'.
Proof. unfold steps. apply rtc_subrel. intros ? ?. apply sstep_forget. Qed.
Lemma steps_ok f w w' : steps f w w' -> lists_ok (shape_of w) -> lists_ok (shape_of w').
Proof. apply lists_ok_steps. Qed.

Lemma get_pcb_st w id p : get_pcb w id = Ok p -> st_of w id = Some (ident p).
Proof.
  unfold get_pcb, of_option. intros H. destruct (w_pcbs w !! id) eqn:E; [|done]. injection H as ->.
  unfold st_of. simpl. by rewrite lookup_fmap, E.
Qed.
Lemma st_get w id a port : st_of w id = Some (a, port) -> exists p, get_pcb w id = Ok p /\ state p = a /\ local_port p = port.
Proof.
  unfold st_of, get_pcb. simpl. rewrite lookup_fmap. destruct (w_pcbs w !! id) as [p|]; [|done].
  intros [=]. by exists p.
Qed.
Lemma shape_put w id p : shape_of (put_pcb id p w) =
  mk_shape (<[id := ident p]> (sh_st (shape_of w))) (sh_ls (shape_of w)) (sh_act (shape_of w)) (sh_tw (shape_of w))
    (sh_bnd (shape_of w)) (sh_lst (shape_of w)).
Proof. unfold shape_of. simpl. by rewrite fmap_insert. Qed.
Lemma shape_free w id : shape_of (free_pcb id w) =
  mk_shape (delete id (sh_st (shape_of w))) (sh_ls (shape_of w)) (sh_act (shape_of w)) (sh_tw (shape_of w))
    (sh_bnd (shape_of w)) (sh_lst (shape_of w)).
Proof. unfold shape_of. simpl. by rewrite fmap_delete. Qed.
Lemma shape_eta s : mk_shape (sh_st s) (sh_ls s) (sh_act s) (sh_tw s) (sh_bnd s) (sh_lst s) = s.
Proof. by destruct s. Qed.

Lemma shape_put_keeps w id p p' : get_pcb w id = Ok p -> keeps p p' -> shape_of (put_pcb id p' w) = shape_of w.
Proof.
  intros H%get_pcb_st Hk. rewrite shape_put, Hk. unfold st_of in H. by rewrite insert_id, shape_eta.
Qed.
Lemma upd_shape w id f w' : upd_pcb id f w = Ok w' -> (forall p, keeps p (f p)) -> shape_of w' = shape_of w.
Proof.
  unfold upd_pcb. intros H Hf. apply res_bind_ok in H as (p & H1 & H). injection H as <-. by eapply shape_put_keeps.
Qed.
(** A run of an operation that keeps state and port. *)
Lemma run_shape {R} w id (f : tcp_pcb -> tcp_env -> res (R * tcp_pcb * tcp_env)) r w' :
  run_pcb id f w = Ok (r, w') -> (forall p e r p' e', f p e = Ok (r, p', e') -> keeps p p') -> shape_of w' = shape_of w.
Proof.
  unfold run_pcb. intros H Hf. apply res_bind_ok in H as (p & H1 & H).
  apply res_bind_ok in H as ([[r1 q] e] & H2 & H). apply Hf in H2. injection H as _ <-.
  change (put_pcb id q (w <| w_env := e |>)) with ((put_pcb id q w) <| w_env := e |>).
  change (shape_of (put_pcb id q w) = shape_of w). by eapply shape_put_keeps.
Qed.
Lemma output_shape w id r w' : w_output id w = Ok (r, w') -> shape_of w' = shape_of w.
Proof. intros H. eapply run_shape; [exact H|]. intros ????? E. exact (output_keeps _ _ _ _ _ E). Qed.
Lemma send_fin_shape w id r w' : w_send_fin id w = Ok (r, w') -> shape_of w' = shape_of w.
Proof. intros H. eapply run_shape; [exact H|]. intros ????? E. exact (send_fin_keeps _ _ _ _ _ E). Qed.
Lemma enqueue_shape w id fl r w' : w_enqueue_flags id fl w = Ok (r, w') -> shape_of w' = shape_of w.
Proof. intros H. eapply run_shape; [exact H|]. intros ????? E. exact (enqueue_keeps _ _ _ _ _ _ E). Qed.

(** The end of TCP_RMV and tcp_pcb_remove: the block is CLOSED. *)
Lemma pcb_remove_shape w id w' : pcb_remove id w = Ok w' -> exists port, st_of w id <> None /\
  shape_of w' = mk_shape (<[id := (CLOSED, port)]> (sh_st (shape_of w))) (sh_ls (shape_of w)) (sh_act (shape_of w))
    (sh_tw (shape_of w)) (sh_bnd (shape_of w)) (sh_lst (shape_of w)).
Proof.
  unfold pcb_remove. intros H. apply res_bind_ok in H as (w1 & H1 & H).
  assert (st_of w id <> None) as Hs.
  { unfold upd_pcb in H1. apply res_bind_ok in H1 as (q & Hq%get_pcb_st & _). congruence. }
  apply upd_shape in H1; [|apply purge_keeps].
  apply res_bind_ok in H as (p & H2 & H). apply res_bind_ok in H as (w2 & H3 & H).
  assert (shape_of w2 = shape_of w) as Hw.
  { destruct (_ && _); [|by injection H3 as <-]. apply res_bind_ok in H3 as ([er w3] & H3 & H4). injection H4 as <-.
    apply output_shape in H3. rewrite H3, <- H1. by eapply shape_put_keeps. }
  apply res_bind_ok in H as (q & H5 & H). do 3 apply res_bind_ok in H as (? & _ & H). injection H as <-.
  exists (local_port q). split; [done|]. rewrite shape_put, Hw. done.
Qed.
(** A block that is removed and freed. *)
Lemma removed_shape w id w' : pcb_remove id w = Ok w' -> shape_of (free_pcb id w') =
  mk_shape (delete id (sh_st (shape_of w))) (sh_ls (shape_of w)) (sh_act (shape_of w)) (sh_tw (shape_of w))
    (sh_bnd (shape_of w)) (sh_lst (shape_of w)).
Proof.
  intros H. apply pcb_remove_shape in H as (port & _ & H). rewrite shape_free, H. simpl. by rewrite delete_insert_eq.
Qed.
End Shape.
#[export] Existing Instance steps_preorder.

(** ** Single moves *)
Section Moves.
Context {A : Type}.
Abbreviation world := (tcp_world A).
Implicit Types (w : world) (id : addr).

Lemma st_of_shape w w' id : shape_of w' = shape_of w -> st_of w' id = st_of w id.
Proof. unfold st_of. by intros ->. Qed.
Lemma alive_shape w w' id : shape_of w' = shape_of w -> alive w id -> alive w' id.
Proof. unfold alive, st_of. by intros ->. Qed.
Lemma act_shape w w' : shape_of w' = shape_of w -> tcp_active_pcbs w' = tcp_active_pcbs w.
Proof. intros H. exact (f_equal sh_act H). Qed.

Lemma set_state_shape w id a port b w' : st_of w id = Some (a, port) -> set_state id b w = Ok w' ->
  shape_of w' = mk_shape (<[id := (b, port)]> (sh_st (shape_of w))) (sh_ls (shape_of w)) (sh_act (shape_of w))
    (sh_tw (shape_of w)) (sh_bnd (shape_of w)) (sh_lst (shape_of w)).
Proof.
  unfold set_state, upd_pcb. intros E H. apply res_bind_ok in H as (p & H1 & H). injection H as <-.
  apply get_pcb_st in H1. rewrite E in H1. injection H1 as _ ->. by rewrite shape_put.
Qed.
Lemma set_state_st w id a port b w' : st_of w id = Some (a, port) -> set_state id b w = Ok w' ->
  st_of w' id = Some (b, port).
Proof. intros E H. unfold st_of. rewrite (set_state_shape w id a port b w') by done. simpl. by rewrite lookup_insert_eq. Qed.
Lemma set_state_same w id a port w' : st_of w id = Some (a, port) -> set_state id a w = Ok w' -> shape_of w' = shape_of w.
Proof.
  intros E H. rewrite (set_state_shape w id a port a w') by done. unfold st_of in E. by rewrite insert_id, shape_eta.
Qed.
Lemma set_state_edge w id a port b w' : st_of w id = Some (a, port) -> edge a b -> set_state id b w = Ok w' ->
  steps false w w'.
Proof. intros E He H. apply steps_one. rewrite (set_state_shape w id a port b w') by done. by eapply st_edge. Qed.
Lemma enter_timewait_steps w id a port w' : st_of w id = Some (a, port) -> edge_tw a -> enter_timewait id w = Ok w' ->
  steps false w w' /\ st_of w' id = Some (TIME_WAIT, port).
Proof.
  unfold enter_timewait. intros E He H. apply res_bind_ok in H as (w1 & H1 & H). apply upd_shape in H1; [|apply purge_keeps].
  apply res_bind_ok in H as (w2 & H2 & H). injection H as <-.
  assert (st_of (rmv_active id w1) id = Some (a, port)) as E' by (rewrite <- E; exact (st_of_shape _ _ id H1)).
  pose proof (set_state_shape _ _ _ _ _ _ E' H2) as Hs.
  assert (shape_of (reg_tw id w2) = mk_shape (<[id := (TIME_WAIT, port)]> (sh_st (shape_of w))) (sh_ls (shape_of w))
    (unlink id (sh_act (shape_of w))) (id :: sh_tw (shape_of w)) (sh_bnd (shape_of w)) (sh_lst (shape_of w))) as Hr.
  { rewrite <- H1. change (shape_of (reg_tw id w2)) with (mk_shape (sh_st (shape_of w2)) (sh_ls (shape_of w2))
      (sh_act (shape_of w2)) (id :: sh_tw (shape_of w2)) (sh_bnd (shape_of w2)) (sh_lst (shape_of w2))).
    by rewrite Hs. }
  split; [apply steps_one; rewrite Hr; by eapply st_timewait|].
  unfold st_of. rewrite Hr. simpl. by rewrite lookup_insert_eq.
Qed.

(** Freeing a block that was taken off the list it is on. *)
Lemma free_steps w w' id f : st_of w id <> None ->
  shape_of w' = mk_shape (delete id (sh_st (shape_of w))) (sh_ls (shape_of w)) (unlink id (sh_act (shape_of w)))
    (unlink id (sh_tw (shape_of w))) (unlink id (sh_bnd (shape_of w))) (sh_lst (shape_of w)) -> steps f w w'.
Proof.
  intros E H. apply steps_one. rewrite H. apply st_free. unfold st_of in E. by destruct (sh_st (shape_of w) !! id).
Qed.
Lemma free_active_steps w w' id f a port : lists_ok (shape_of w) -> st_of w id = Some (a, port) -> live a ->
  shape_of w' = mk_shape (delete id (sh_st (shape_of w))) (sh_ls (shape_of w)) (unlink id (sh_act (shape_of w)))
    (sh_tw (shape_of w)) (sh_bnd (shape_of w)) (sh_lst (shape_of w)) -> steps f w w'.
Proof.
  intros Hok E (A1 & A2 & A3) H. apply (free_steps _ _ id); [congruence|].
  rewrite (unlink_notin id (sh_tw _)) by (by eapply lo_not_tw).
  by rewrite (unlink_notin id (sh_bnd _)) by (by eapply lo_not_bnd).
Qed.
Lemma tcp_pcb_remove_active_shape w id w' : tcp_pcb_remove_active id w = Ok w' ->
  shape_of (free_pcb id w') = mk_shape (delete id (sh_st (shape_of w))) (sh_ls (shape_of w)) (unlink id (sh_act (shape_of w)))
    (sh_tw (shape_of w)) (sh_bnd (shape_of w)) (sh_lst (shape_of w)).
Proof. unfold tcp_pcb_remove_active. intros H. by rewrite (removed_shape _ _ _ H). Qed.
Lemma tcp_pcb_remove_tw_shape w id w' : tcp_pcb_remove_tw id w = Ok w' ->
  shape_of (free_pcb id w') = mk_shape (delete id (sh_st (shape_of w))) (sh_ls (shape_of w)) (sh_act (shape_of w))
    (unlink id (sh_tw (shape_of w))) (sh_bnd (shape_of w)) (sh_lst (shape_of w)).
Proof. unfold tcp_pcb_remove_tw. intros H. by rewrite (removed_shape _ _ _ H). Qed.
Lemma remove_active_changed_shape w id w' : remove_active_changed id w = Ok w' ->
  shape_of (free_pcb id w') = mk_shape (delete id (sh_st (shape_of w))) (sh_ls (shape_of w)) (unlink id (sh_act (shape_of w)))
    (sh_tw (shape_of w)) (sh_bnd (shape_of w)) (sh_lst (shape_of w)).
Proof.
  unfold remove_active_changed. intros H. apply res_bind_ok in H as (w1 & H1 & H). injection H as <-.
  exact (tcp_pcb_remove_active_shape _ _ _ H1).
Qed.

(** Receiving on a block. *)
Lemma w_receive_spec w id i i' w' a port : st_of w id = Some (a, port) -> w_receive id i w = Ok (i', w') ->
  (shape_of w' = shape_of w \/ a = ESTABLISHED /\ has_flag (recv_flags i') TF_GOT_FIN = true /\
     shape_of w' = mk_shape (<[id := (CLOSE_WAIT, port)]> (sh_st (shape_of w))) (sh_ls (shape_of w)) (sh_act (shape_of w))
       (sh_tw (shape_of w)) (sh_bnd (shape_of w)) (sh_lst (shape_of w))) /\
  (recv_flags i' = recv_flags i \/ recv_flags i' = Z.lor (recv_flags i) TF_GOT_FIN).
Proof.
  unfold w_receive, run_pcb. intros E H. apply res_bind_ok in H as (p & H1 & H).
  pose proof (get_pcb_st _ _ _ H1) as E1. rewrite E in E1. injection E1 as Ea Ep.
  apply res_bind_ok in H as ([[j q] e] & H2 & H). apply res_bind_ok in H2 as ([[q1 e1] j1] & H3 & H4).
  injection H4 as -> -> ->. apply tcp_receive_in in H3 as (P & S & F & _ & _).
  apply Ok2_inj in H as [<- <-]. split; [|done].
  change (put_pcb id q (w <| w_env := e |>)) with ((put_pcb id q w) <| w_env := e |>).
  change (shape_of ((put_pcb id q w) <| w_env := e |>)) with (shape_of (put_pcb id q w)).
  destruct S as [S|(S1 & S2 & S3)].
  - left. eapply shape_put_keeps; [exact H1|]. unfold keeps, ident. congruence.
  - right. split; [congruence|]. split; [done|]. rewrite shape_put. unfold ident. by rewrite S2, P, Ep.
Qed.
End Moves.

(** ** The rules for callbacks *)
Section Calls.
Context {A : Type} (cb : tcp_callbacks A).
Abbreviation world := (tcp_world A).
Implicit Types (w : world) (id : addr).

Inductive callback_run : addr -> world -> err_t -> world -> Prop :=
  | run_accept id e w r w' : ev_accept cb id e w = Ok (r, w') -> callback_run id w r w'
  | run_sent id n w r w' : ev_sent cb id n w = Ok (r, w') -> callback_run id w r w'
  | run_recv id d e w r w' : ev_recv cb id d e w = Ok (r, w') -> callback_run id w r w'
  | run_connected id e w r w' : ev_connected cb id e w = Ok (r, w') -> callback_run id w r w'
  | run_poll id w r w' : ev_poll cb id w = Ok (r, w') -> callback_run id w r w'.

(** A callback changes the blocks by the operations of the API only, and says
    so in tcp_active_pcbs_changed; it returns ERR_ABRT when its connection does
    not exist any more, and otherwise leaves it active (so it does not call
    tcp_close while data is unread, which takes the connection off the list:
    see TcpScenarios.v). An accept callback does not close the connection. The
    error callback leaves the connection to its caller. *)
Class callbacks_ok : Prop := {
  cb_steps id w r w' : callback_run id w r w' -> lists_ok (shape_of w) -> steps false w w';
  cb_alive id w r w' : callback_run id w r w' -> r <> ERR_ABRT -> alive w id -> alive w' id;
  cb_kept id w r w' : callback_run id w r w' -> r <> ERR_ABRT -> id ∈ tcp_active_pcbs w -> id ∈ tcp_active_pcbs w';
  cb_listed id w r w' : callback_run id w r w' -> tcp_active_pcbs_changed w' = false ->
    tcp_active_pcbs w' = tcp_active_pcbs w;
  cb_accept id e w r w' port : ev_accept cb id e w = Ok (r, w') -> r <> ERR_ABRT ->
    st_of w id = Some (ESTABLISHED, port) -> st_of w' id = Some (ESTABLISHED, port);
  cb_err_steps id e w w' : ev_err cb id e w = Ok w' -> lists_ok (shape_of w) -> steps false w w';
  cb_err_listed id e w w' : ev_err cb id e w = Ok w' -> tcp_active_pcbs_changed w' = false ->
    tcp_active_pcbs w' = tcp_active_pcbs w;
  cb_err_kept id e w w' : ev_err cb id e w = Ok w' -> id ∈ tcp_active_pcbs w -> id ∈ tcp_active_pcbs w'
}.
Context `{Hcb : callbacks_ok}.

(** ** Aborting *)
Lemma tcp_abandon_steps id reset w w' : lists_ok (shape_of w) -> alive w id -> tcp_abandon cb id reset w = Ok w' ->
  steps false w w'.
Proof.
  intros Hok (a & port & E & Ha) H. unfold tcp_abandon in H. apply res_bind_ok in H as (p & Hp & H).
  pose proof (get_pcb_st _ _ _ Hp) as Ep. rewrite E in Ep. injection Ep as -> ->.
  unfold lwip_assert in H. destruct (state_is (state p) LISTEN) eqn:El; [done|]. apply bool_decide_eq_false in El.
  cbn [negb res_bind] in H.
  destruct (state_is (state p) TIME_WAIT) eqn:Et.
  - apply bool_decide_eq_true in Et. apply res_bind_ok in H as (w1 & H1 & H). injection H as <-.
    apply (free_steps _ _ id); [congruence|]. rewrite (tcp_pcb_remove_tw_shape _ _ _ H1).
    rewrite (unlink_notin id (sh_act _)) by (eapply lo_not_act; [done|exact E|by intros (? & ? & ?)]).
    by rewrite (unlink_notin id (sh_bnd _)) by (by eapply lo_not_bnd).
  - apply bool_decide_eq_false in Et. apply res_bind_ok in H as (w1 & H1 & H). apply res_bind_ok in H as (q & Hq & H).
    set (w2 := if reset then _ else w1) in H.
    assert (steps false w (free_pcb id w2)) as S1.
    { eapply free_active_steps; [done|exact E|done|]. rewrite <- (remove_active_changed_shape _ _ _ H1).
      unfold w2. by destruct reset. }
    etransitivity; [exact S1|]. eapply cb_err_steps; [exact H|]. by eapply steps_ok.
Qed.

Lemma tcp_abort_steps id w w' : lists_ok (shape_of w) -> alive w id -> tcp_abort cb id w = Ok w' -> steps false w w'.
Proof. apply tcp_abandon_steps. Qed.

(** ** Closing *)
Lemma fin_steps w id a b port : st_of w id = Some (a, port) -> edge a b -> forall r w',
  (let! (err, w) := w_send_fin id w in
   if err =? ERR_OK then
     let! w := upd_pcb id (fun p => p <| state := b |>) w in
     let! (_, w) := w_output id w in Ok (err, w)
   else Ok (err, w)) = Ok (r, w') -> steps false w w'.
Proof.
  intros E He r w' H. apply res_bind_ok in H as ([er w1] & H1 & H). apply send_fin_shape in H1.
  destruct (er =? ERR_OK); [|injection H as _ <-; by apply steps_eq].
  apply res_bind_ok in H as (w2 & H2 & H). apply res_bind_ok in H as ([e2 w3] & H3 & H). injection H as _ <-.
  apply output_shape in H3. rewrite <- (st_of_shape _ _ id H1) in E.
  etransitivity; [by apply steps_eq, H1|]. etransitivity; [by eapply set_state_edge|]. by apply steps_eq.
Qed.

Lemma close_state_steps id p w r w' : lists_ok (shape_of w) -> get_pcb w id = Ok p ->
  close_state id p w = Ok (r, w') -> steps false w w'.
Proof.
  intros Hok Hp H. pose proof (get_pcb_st _ _ _ Hp) as E. unfold ident in E. unfold close_state in H.
  destruct (state p) eqn:Es; cbn beta match in H.
  all: try (injection H as _ <-; reflexivity).
  - injection H as _ <-.
    apply (free_steps _ _ id); [congruence|].
    rewrite (unlink_notin id (sh_act _)) by (eapply lo_not_act; [done|exact E|by intros (? & ?)]).
    rewrite (unlink_notin id (sh_tw _)) by (by eapply lo_not_tw).
    rewrite shape_free. destruct (local_port p =? 0) eqn:Ez; [|done]. apply Z.eqb_eq in Ez.
    rewrite unlink_notin; [done|]. intros Hb. destruct (lo_bnd _ Hok id Hb) as (q & E' & Hq).
    unfold st_of in E. congruence.
  - apply res_bind_ok in H as (w1 & H1 & H). injection H as _ <-.
    eapply free_active_steps; [done|exact E|done|]. by apply remove_active_changed_shape.
  - eapply fin_steps; [exact E| |exact H]. constructor.
  - eapply fin_steps; [exact E| |exact H]. constructor.
  - eapply fin_steps; [exact E| |exact H]. constructor.
Qed.

Lemma tcp_close_shutdown_steps id b w r w' : lists_ok (shape_of w) -> tcp_close_shutdown id b w = Ok (r, w') ->
  steps false w w'.
Proof.
  intros Hok H. unfold tcp_close_shutdown in H. apply res_bind_ok in H as (p & Hp & H).
  destruct (_ && _ && _) eqn:Hc; [|by eapply close_state_steps].
  pose proof (get_pcb_st _ _ _ Hp) as E. unfold ident in E. unfold lwip_assert in H.
  destruct (has_flag _ _); [|done]. cbn [res_bind] in H. apply res_bind_ok in H as (w1 & H1 & H).
  apply upd_shape in H1; [|apply purge_keeps]. change (shape_of w1 = shape_of w) in H1.
  pose proof (st_of_shape _ _ id H1) as E1. rewrite E in E1.
  destruct (state_is (state p) ESTABLISHED) eqn:Es.
  - apply bool_decide_eq_true in Es. rewrite Es in *. apply res_bind_ok in H as (w2 & H2 & H). injection H as _ <-.
    etransitivity; [by apply steps_eq, H1|]. apply steps_one.
    assert (st_of (rmv_active id w1) id = Some (ESTABLISHED, local_port p)) as E2 by done.
    pose proof (set_state_shape _ _ _ _ _ _ E2 H2) as Hs.
    change (shape_of (reg_tw id w2)) with (mk_shape (sh_st (shape_of w2)) (sh_ls (shape_of w2))
      (sh_act (shape_of w2)) (id :: sh_tw (shape_of w2)) (sh_bnd (shape_of w2)) (sh_lst (shape_of w2))).
    rewrite Hs. exact (st_timewait false (shape_of w1) id _ _ E1 tw_reset).
  - apply bool_decide_eq_false in Es. injection H as _ <-.
    assert (state p = CLOSE_WAIT) as Ew.
    { apply andb_prop in Hc as [Hc _]. apply andb_prop in Hc as [_ Hc].
      by apply bool_decide_eq_true in Hc. }
    eapply (free_active_steps _ _ id); [done|exact E|by rewrite Ew|].
    rewrite shape_free. change (shape_of (rmv_active id w1)) with (mk_shape (sh_st (shape_of w1)) (sh_ls (shape_of w1))
      (unlink id (sh_act (shape_of w1))) (sh_tw (shape_of w1)) (sh_bnd (shape_of w1)) (sh_lst (shape_of w1))).
    by rewrite H1.
Qed.
Lemma set_rxclosed_keeps p : keeps p (set_rxclosed p).
Proof. done. Qed.

Lemma tcp_close_steps id w r w' : lists_ok (shape_of w) -> tcp_close id w = Ok (r, w') -> steps false w w'.
Proof.
  intros Hok H. unfold tcp_close in H. destruct (w_listen w !! id) eqn:El.
  - injection H as _ <-. apply steps_one.
    assert (id ∈ dom (w_listen w)) as Hi by (apply elem_of_dom; eauto).
    pose proof (st_unlisten false (shape_of w) id Hi) as Hs. unfold shape_of at 2. simpl. rewrite dom_delete_L. exact Hs.
  - apply res_bind_ok in H as (w1 & H1 & H). apply upd_shape in H1; [|apply set_rxclosed_keeps].
    etransitivity; [by apply steps_eq, H1|]. eapply tcp_close_shutdown_steps; [by rewrite H1|exact H].
Qed.
Lemma tcp_shutdown_steps id rx tx w r w' : lists_ok (shape_of w) -> tcp_shutdown id rx tx w = Ok (r, w') -> steps false w w'.
Proof.
  intros Hok H. unfold tcp_shutdown in H. destruct (w_listen w !! id); [by injection H as _ <-|].
  apply res_bind_ok in H as (w1 & H1 & H).
  assert (shape_of w1 = shape_of w) as E1.
  { destruct rx; [|by injection H1 as <-]. apply upd_shape in H1; [done|apply set_rxclosed_keeps]. }
  etransitivity; [by apply steps_eq, E1|]. rewrite <- E1 in Hok.
  destruct (rx && tx); [by eapply tcp_close_shutdown_steps|].
  apply res_bind_ok in H as (w2 & H2 & H).
  assert (shape_of w2 = shape_of w1) as E2.
  { destruct rx; [|by injection H2 as <-]. apply upd_shape in H2; [done|]. done. }
  etransitivity; [by apply steps_eq, E2|]. rewrite <- E2 in Hok.
  destruct tx; [|by injection H as _ <-]. apply res_bind_ok in H as (p & Hp & H).
  destruct (state p); try (injection H as _ <-; reflexivity); by eapply tcp_close_shutdown_steps.
Qed.
End Calls.
