(* ===== verification/TcpCalls.v ===== *)
(** * TCP: calls of the application and segments are steps of the abstract
    machine

    The rest of TcpWorld.v, and TcpProcess.v. *)
From S2P Require Import Prelude ByteOrder IpAddr Ip Tcp TcpOut TcpIn TcpSend TcpWorld TcpProcess TcpTimer TcpShape TcpKeeps TcpLists.

(** ** Addresses *)
Lemma map_max_ge {B} (m : gmap addr B) k : is_Some (m !! k) -> (k <= map_fold (fun k _ n => Pos.max k n) 1 m)%positive.
Proof.
  revert k. refine (map_fold_weak_ind (fun n m => forall k, is_Some (m !! k) -> (k <= n)%positive) _ _ _ _ m).
  - intros k [? H]. by rewrite lookup_empty in H.
  - intros i x m' n _ IH k Hk. destruct (decide (i = k)) as [->|Hne]; [lia|].
    rewrite lookup_insert_ne in Hk by done. specialize (IH k Hk). lia.
Qed.

Section Fresh.
Context {A : Type}.
Abbreviation world := (tcp_world A).
Implicit Types (w : world).
Lemma fresh_pcb w : w_pcbs w !! fresh_addr w = None.
Proof.
  destruct (w_pcbs w !! fresh_addr w) eqn:E; [|done]. exfalso.
  assert (is_Some (w_pcbs w !! fresh_addr w)) as H by eauto. apply map_max_ge in H. unfold fresh_addr in H. lia.
Qed.
Lemma fresh_listen w : w_listen w !! fresh_addr w = None.
Proof.
  destruct (w_listen w !! fresh_addr w) eqn:E; [|done]. exfalso.
  assert (is_Some (w_listen w !! fresh_addr w)) as H by eauto. apply map_max_ge in H. unfold fresh_addr in H. lia.
Qed.
Lemma fresh_st w : st_of w (fresh_addr w) = None.
Proof. unfold st_of. simpl. by rewrite lookup_fmap, fresh_pcb. Qed.
Lemma fresh_ls w : fresh_addr w ∉ sh_ls (shape_of w).
Proof. simpl. rewrite not_elem_of_dom. apply fresh_listen. Qed.
Lemma alloc_shape w : shape_of (w_alloc w).2 = shape_of w.
Proof. unfold w_alloc. by destruct (alloc (w_env w)). Qed.

(** ** Ports *)
Lemma new_port_loop_range fuel used port n r q : new_port_loop fuel used port n = Ok (r, q) ->
  (r = 0 \/ r = q /\ q ∉ used).
Proof.
  revert port n. induction fuel as [|fuel IH]; intros port n H; cbn [new_port_loop] in H; [done|].
  cbv zeta in H. set (port' := if port =? _ then _ else _) in H.
  case_bool_decide; [|injection H as <- <-; by right].
  destruct (_ <? _); [injection H as <- <-; by left|by eapply IH].
Qed.
Lemma new_port_shape w r w' : tcp_new_port w = Ok (r, w') -> shape_of w' = shape_of w.
Proof.
  unfold tcp_new_port. intros H. apply res_bind_ok in H as (bs & _ & H). apply res_bind_ok in H as ([q port] & _ & H).
  by apply Ok2_inj in H as [_ <-].
Qed.

(** ** Binding and listening *)
Lemma tcp_bind_steps id ip port w r w' : id ∉ tcp_bound_pcbs w -> tcp_bind id ip port w = Ok (r, w') ->
  steps false w w'.
Proof.
  unfold tcp_bind. intros Hb H. apply res_bind_ok in H as (p & Hp & H). unfold lwip_assert in H.
  destruct (state_is (state p) CLOSED) eqn:Es; [|done]. apply bool_decide_eq_true in Es. cbn [res_bind] in H.
  apply get_pcb_st in Hp as E. unfold ident in E. rewrite Es in E.
  apply res_bind_ok in H as ([q w1] & H1 & H).
  assert (shape_of w1 = shape_of w) as E1.
  { destruct (port =? 0); [by eapply new_port_shape|]. by apply Ok2_inj in H1 as [_ <-]. }
  destruct (Z.eqb_spec q 0) as [|Hq]; [apply Ok2_inj in H as [_ <-]; by apply steps_eq|].
  apply res_bind_ok in H as (bs & _ & H).
  destruct (existsb _ bs); apply Ok2_inj in H as [_ <-]; [by apply steps_eq|].
  apply steps_one. set (p' := (if ip =? _ then _ else _) <| local_port := q |>).
  assert (ident p' = (CLOSED, q)) as Ei by (unfold p', ident; destruct (ip =? _); by rewrite <- Es).
  change (shape_of (reg_bound id (put_pcb id p' w1))) with (mk_shape (sh_st (shape_of (put_pcb id p' w1)))
    (sh_ls (shape_of w1)) (sh_act (shape_of w1)) (sh_tw (shape_of w1)) (id :: sh_bnd (shape_of w1)) (sh_lst (shape_of w1))).
  rewrite shape_put, Ei, E1. eapply st_bind; done.
Qed.

Lemma tcp_listen_steps id w r w' : lists_ok (shape_of w) -> tcp_listen_with_backlog id w = Ok (r, w') -> steps false w w'.
Proof.
  intros Hok H. unfold tcp_listen_with_backlog in H. apply res_bind_ok in H as (p & Hp & H). unfold lwip_assert in H.
  destruct (state_is (state p) CLOSED) eqn:Es; [|done]. apply bool_decide_eq_true in Es. cbn [res_bind] in H.
  apply get_pcb_st in Hp as E. unfold ident in E. rewrite Es in E.
  apply res_bind_ok in H as (ls & _ & H). destruct (_ && _); [by apply Ok2_inj in H as [_ <-]|].
  pose proof (alloc_shape w) as Ea. destruct (w_alloc w) as [ok w1]. cbn [snd] in Ea.
  destruct ok; [|apply Ok2_inj in H as [_ <-]; by apply steps_eq]. cbv zeta in H. apply Ok2_inj in H as [_ <-].
  apply steps_one. set (lid := fresh_addr w1). set (l := mk_listen _ _ _ _ _ _).
  set (w2 := if local_port p =? 0 then w1 else rmv_bound id w1).
  assert (shape_of (reg_listen lid ((free_pcb id w2) <| w_listen := <[lid := l]> (w_listen (free_pcb id w2)) |>)) =
    mk_shape (delete id (sh_st (shape_of w))) ({[lid]} ∪ sh_ls (shape_of w)) (sh_act (shape_of w)) (sh_tw (shape_of w))
      (unlink id (sh_bnd (shape_of w))) (lid :: sh_lst (shape_of w))) as ->.
  { assert (shape_of w2 = mk_shape (sh_st (shape_of w)) (sh_ls (shape_of w)) (sh_act (shape_of w)) (sh_tw (shape_of w))
      (unlink id (sh_bnd (shape_of w))) (sh_lst (shape_of w))) as E2.
    { unfold w2. destruct (Z.eqb_spec (local_port p) 0) as [Hz|Hz].
      - rewrite unlink_notin, shape_eta; [done|]. intros Hb.
        destruct (lo_bnd _ Hok id Hb) as (q & Eq & Hq). unfold st_of in E. congruence.
      - rewrite <- Ea. done. }
    change (shape_of (reg_listen lid ((free_pcb id w2) <| w_listen := <[lid := l]> (w_listen (free_pcb id w2)) |>))) with
      (mk_shape (sh_st (shape_of (free_pcb id w2))) (dom (<[lid := l]> (w_listen w2))) (sh_act (shape_of w2))
        (sh_tw (shape_of w2)) (sh_bnd (shape_of w2)) (lid :: sh_lst (shape_of w2))).
    rewrite dom_insert_L. change (dom (w_listen w2)) with (sh_ls (shape_of w2)). by rewrite shape_free, E2. }
  apply (st_listen _ _ id lid (local_port p)); [done| |]; rewrite <- Ea; [apply fresh_st|apply fresh_ls].
Qed.

(** ** Connecting *)
Lemma connect_addr_shape id ip port w b w' : connect_addr id ip port w = Ok (b, w') -> shape_of w' = shape_of w.
Proof.
  unfold connect_addr. intros H. apply res_bind_ok in H as (p & Hp & H).
  destruct (_ =? _); [destruct env_route|]; apply Ok2_inj in H as [_ <-]; by eapply shape_put_keeps.
Qed.
Lemma connect_syn_steps id old ip w r w' port : st_of w id = Some (CLOSED, port) -> port <> 0 ->
  (old = 0 -> id ∉ tcp_bound_pcbs w) -> connect_syn id old ip w = Ok (r, w') -> steps false w w'.
Proof.
  unfold connect_syn. intros E Hp Hold H. destruct (tcp_next_iss w) as [iss w1] eqn:Hi.
  assert (shape_of w1 = shape_of w) as E1 by (injection Hi as _ <-; done).
  apply res_bind_ok in H as (w2 & H2 & H). apply upd_shape in H2; [|done].
  apply res_bind_ok in H as ([er w3] & H3 & H). apply enqueue_shape in H3.
  assert (shape_of w3 = shape_of w) as E3 by congruence.
  destruct (er =? ERR_OK); [|apply Ok2_inj in H as [_ <-]; by apply steps_eq].
  apply res_bind_ok in H as (w4 & H4 & H). apply res_bind_ok in H as ([e5 w5] & H5 & H). apply Ok2_inj in H as [_ <-].
  apply output_shape in H5. apply steps_one. rewrite H5.
  rewrite <- (st_of_shape _ _ id E3) in E. apply (set_state_shape _ _ _ _ SYN_SENT _ E) in H4.
  set (w4' := if old =? 0 then w4 else rmv_bound id w4).
  change (shape_of (reg_active id w4')) with (mk_shape (sh_st (shape_of w4')) (sh_ls (shape_of w4')) (id :: sh_act (shape_of w4'))
    (sh_tw (shape_of w4')) (sh_bnd (shape_of w4')) (sh_lst (shape_of w4'))).
  assert (shape_of w4' = mk_shape (sh_st (shape_of w4)) (sh_ls (shape_of w4)) (sh_act (shape_of w4)) (sh_tw (shape_of w4))
    (unlink id (sh_bnd (shape_of w4))) (sh_lst (shape_of w4))) as ->.
  { unfold w4'. destruct (Z.eqb_spec old 0) as [Hz|]; [|done]. rewrite unlink_notin, shape_eta; [done|].
    rewrite H4, E3. by apply Hold. }
  rewrite H4, E3. unfold st_of in E. rewrite E3 in E.
  exact (st_connect false (shape_of w) id port E Hp).
Qed.
Lemma tcp_connect_steps id ip port w r w' : lists_ok (shape_of w) -> tcp_connect id ip port w = Ok (r, w') -> steps false w w'.
Proof.
  intros Hok H. unfold tcp_connect in H. apply res_bind_ok in H as (p & Hp & H). unfold lwip_assert in H.
  destruct (state_is (state p) CLOSED) eqn:Es; [|done]. apply bool_decide_eq_true in Es. cbn [res_bind] in H.
  apply get_pcb_st in Hp as E. unfold ident in E. rewrite Es in E.
  apply res_bind_ok in H as ([b w1] & H1 & H). apply connect_addr_shape in H1.
  destruct (negb b); [apply Ok2_inj in H as [_ <-]; by apply steps_eq|].
  apply res_bind_ok in H as ([lport w2] & H2 & H).
  assert (shape_of w2 = shape_of w) as E2.
  { destruct (_ =? 0); [apply new_port_shape in H2; congruence|]. apply Ok2_inj in H2 as [_ <-]. done. }
  apply res_bind_ok in H as (w3 & H3 & H).
  assert (steps false w w3 /\ st_of w3 id = Some (CLOSED, lport) /\ tcp_bound_pcbs w3 = tcp_bound_pcbs w) as (S3 & E3 & B3).
  { unfold upd_pcb in H3. apply res_bind_ok in H3 as (q & Hq & H3). apply Ok_inj in H3 as <-.
    apply get_pcb_st in Hq. rewrite (st_of_shape _ _ id E2), E in Hq. injection Hq as Hq1 Hq2.
    assert (shape_of (put_pcb id (q <| local_port := lport |>) w2) = mk_shape (<[id := (CLOSED, lport)]> (sh_st (shape_of w)))
      (sh_ls (shape_of w)) (sh_act (shape_of w)) (sh_tw (shape_of w)) (sh_bnd (shape_of w)) (sh_lst (shape_of w))) as Es3.
    { rewrite shape_put, E2. change (ident (q <| local_port := lport |>)) with (state q, lport). by rewrite <- Hq1. }
    split; [|split; [unfold st_of; rewrite Es3; simpl; by rewrite lookup_insert_eq|exact (f_equal sh_bnd E2)]].
    destruct (Z.eqb_spec (local_port p) 0) as [Hz|Hz].
    - apply steps_one. rewrite Es3. apply st_port. unfold st_of in E. by rewrite E, Hz.
    - apply Ok2_inj in H2 as [<- _]. apply steps_eq. rewrite Es3. unfold st_of in E. by rewrite insert_id, shape_eta. }
  destruct (Z.eqb_spec lport 0) as [Hz|Hz]; [by apply Ok2_inj in H as [_ <-]|].
  apply res_bind_ok in H as (q & Hq & H). apply res_bind_ok in H as (act & _ & H). apply res_bind_ok in H as (tws & _ & H).
  destruct (_ && _); [by apply Ok2_inj in H as [_ <-]|].
  etransitivity; [exact S3|]. eapply connect_syn_steps; [exact E3|done| |exact H].
  rewrite B3. intros Hport Hb. destruct (lo_bnd _ Hok id Hb) as (z & Ez & Hn). unfold st_of in E. congruence.
Qed.
End Fresh.

Section Alloc.
Context {A : Type} (cb : tcp_callbacks A) `{Hcb : !callbacks_ok cb}.
Abbreviation world := (tcp_world A).
Implicit Types (w : world) (id : addr).

(** ** Allocation *)
Lemma act_alive w id : lists_ok (shape_of w) -> id ∈ tcp_active_pcbs w -> alive w id.
Proof. intros Hok Hi. destruct (lo_act _ Hok id Hi) as (a & q & E & (L & _ & _)). by exists a, q. Qed.
Lemma tw_alive w id : lists_ok (shape_of w) -> id ∈ tcp_tw_pcbs w -> alive w id.
Proof. intros Hok Hi. destruct (lo_tw _ Hok id Hi) as (q & E). by exists TIME_WAIT, q. Qed.

Lemma kill_prio_loop_in w l : forall q m n best id, kill_prio_loop w l q m n best = Ok (Some id) ->
  best = Some id \/ id ∈ l.
Proof.
  induction l as [|x l IH]; intros q m n best id H; cbn [kill_prio_loop] in H; [injection H as ->; by left|].
  apply res_bind_ok in H as (p & _ & H). rewrite elem_of_cons. destruct (_ && _); apply IH in H; naive_solver.
Qed.
Lemma kill_timewait_loop_in w l : forall n best id, kill_timewait_loop w l n best = Ok (Some id) -> best = Some id \/ id ∈ l.
Proof.
  induction l as [|x l IH]; intros n best id H; cbn [kill_timewait_loop] in H; [injection H as ->; by left|].
  apply res_bind_ok in H as (p & _ & H). rewrite elem_of_cons. destruct (_ <=? _); apply IH in H; naive_solver.
Qed.
Lemma tcp_kill_prio_steps q w w' : lists_ok (shape_of w) -> tcp_kill_prio cb q w = Ok w' -> steps false w w'.
Proof.
  unfold tcp_kill_prio. intros Hok H. apply res_bind_ok in H as ([id|] & H1 & H); [|by injection H as <-].
  apply kill_prio_loop_in in H1 as [?|H1]; [done|]. eapply (tcp_abort_steps cb); [done| |exact H]. by apply act_alive.
Qed.
Lemma tcp_kill_timewait_steps w w' : lists_ok (shape_of w) -> tcp_kill_timewait cb w = Ok w' -> steps false w w'.
Proof.
  unfold tcp_kill_timewait. intros Hok H. apply res_bind_ok in H as ([id|] & H1 & H); [|by injection H as <-].
  apply kill_timewait_loop_in in H1 as [?|H1]; [done|]. eapply (tcp_abort_steps cb); [done| |exact H]. by apply tw_alive.
Qed.
Lemma tcp_alloc_steps q w o w' : lists_ok (shape_of w) -> tcp_alloc cb q w = Ok (o, w') ->
  steps false w w' /\ (forall id, o = Some id -> st_of w' id = Some (CLOSED, 0)).
Proof.
  intros Hok H. unfold tcp_alloc in H. pose proof (alloc_shape w) as Ea. destruct (w_alloc w) as [ok w1]. cbn [snd] in Ea.
  apply res_bind_ok in H as ([ok2 w2] & H2 & H).
  assert (steps false w w2) as S2.
  { etransitivity; [by apply steps_eq, Ea|]. rewrite <- Ea in Hok.
    destruct ok; [by apply Ok2_inj in H2 as [_ <-]|]. apply res_bind_ok in H2 as (w3 & H3 & H2).
    apply tcp_kill_timewait_steps in H3; [|done]. etransitivity; [exact H3|]. pose proof (steps_ok _ _ _ H3 Hok) as Hok3.
    pose proof (alloc_shape w3) as E3. destruct (w_alloc w3) as [ok3 w4]. cbn [snd] in E3.
    etransitivity; [by apply steps_eq, E3|]. destruct ok3; [by apply Ok2_inj in H2 as [_ <-]|].
    apply res_bind_ok in H2 as (w5 & H5 & H2). injection H2 as H2. apply tcp_kill_prio_steps in H5; [|by rewrite E3].
    etransitivity; [exact H5|]. apply steps_eq. rewrite <- (alloc_shape w5). by rewrite H2. }
  destruct ok2; [|by apply Ok2_inj in H as [<- <-]]. cbv zeta in H. destruct (tcp_next_iss w2) as [iss w3] eqn:Hi.
  assert (shape_of w3 = shape_of w2) as E3 by (injection Hi as _ <-; done). apply Ok2_inj in H as [<- <-].
  set (id := fresh_addr w2). set (p := new_pcb _ _ _ _). split.
  - etransitivity; [exact S2|]. apply steps_one. rewrite shape_put, E3. change (ident p) with (CLOSED, 0).
    apply st_new; [apply fresh_st|apply fresh_ls].
  - intros ? [= <-]. unfold st_of. rewrite shape_put. simpl. by rewrite lookup_insert_eq.
Qed.
Lemma tcp_new_steps w o w' : lists_ok (shape_of w) -> tcp_new cb w = Ok (o, w') -> steps false w w'.
Proof. intros Hok H. by apply tcp_alloc_steps in H as [? _]. Qed.

(** ** Refused data *)
Definition kept (r : err_t) w w' id : Prop :=
  r <> ERR_ABRT -> (alive w id -> alive w' id) /\ (id ∈ tcp_active_pcbs w -> id ∈ tcp_active_pcbs w').
Lemma kept_shape r w w' id : shape_of w' = shape_of w -> kept r w w' id.
Proof. intros E _. rewrite (act_shape _ _ E). split; [by apply alive_shape|done]. Qed.
Lemma kept_trans r r' w1 w2 w3 id : kept r w1 w2 id -> kept r' w2 w3 id -> (r' <> ERR_ABRT -> r <> ERR_ABRT) -> kept r' w1 w3 id.
Proof. intros H1 H2 Hr Hr'. destruct (H1 (Hr Hr')), (H2 Hr'). auto. Qed.
Lemma run_kept id w r w' : callback_run cb id w r w' -> kept r w w' id.
Proof. intros H Hr. split; [by eapply (@cb_alive _ cb Hcb)|by eapply (@cb_kept _ cb Hcb)]. Qed.

Lemma tcp_process_refused_data_steps w id r w' : lists_ok (shape_of w) -> tcp_process_refused_data cb id w = Ok (r, w') ->
  steps false w w' /\ kept r w w' id.
Proof.
  intros Hok H. unfold tcp_process_refused_data in H. apply res_bind_ok in H as (p & Hp & H).
  apply res_bind_ok in H as ([d fin] & _ & H). set (w1 := put_pcb id _ w) in H.
  assert (shape_of w1 = shape_of w) as E1 by (by eapply shape_put_keeps).
  apply res_bind_ok in H as ([er w2] & H2 & H). apply (run_recv cb) in H2.
  assert (steps false w w2) as S2.
  { etransitivity; [by apply steps_eq, E1|]. eapply (@cb_steps _ cb Hcb); [exact H2|by rewrite E1]. }
  assert (kept er w w2 id) as K2 by (eapply kept_trans; [by apply (kept_shape er), E1|by apply run_kept|done]).
  destruct (Z.eqb_spec er ERR_OK) as [->|Hr].
  - destruct fin; [|apply Ok2_inj in H as [<- <-]; auto]. apply res_bind_ok in H as (w3 & H3 & H).
    apply upd_shape in H3; [|intros q; by destruct (_ =? _)].
    apply res_bind_ok in H as ([er4 w4] & H4 & H). apply (run_recv cb) in H4.
    assert (steps false w w4) as S4.
    { etransitivity; [exact S2|]. etransitivity; [by apply steps_eq, H3|]. eapply (@cb_steps _ cb Hcb); [exact H4|].
      rewrite H3. by eapply steps_ok. }
    assert (kept er4 w w4 id) as K4.
    { eapply kept_trans; [exact K2| |done]. eapply kept_trans; [by apply (kept_shape er4), H3|by apply run_kept|done]. }
    destruct (Z.eqb_spec er4 ERR_ABRT); apply Ok2_inj in H as [<- <-]; split; try done. intros _. by apply K4.
  - destruct (Z.eqb_spec er ERR_ABRT); [by apply Ok2_inj in H as [<- <-]|].
    apply res_bind_ok in H as (w3 & H3 & H). apply Ok2_inj in H as [<- <-]. apply upd_shape in H3; [|done]. split.
    + etransitivity; [exact S2|]. by apply steps_eq.
    + eapply kept_trans; [exact K2|by apply kept_shape|done].
Qed.
End Alloc.
