(* ===== verification/TcpSteps.v ===== *)
(** * TCP: the processing of a segment is a sequence of steps

    tcp_process, tcp_listen_input, tcp_timewait_input and tcp_input of
    TcpProcess.v against the abstract machine of TcpShape.v. *)
From S2P Require Import Prelude ByteOrder IpAddr Ip Tcp TcpOut TcpIn TcpSend TcpWorld TcpProcess TcpTimer TcpShape TcpKeeps TcpLists TcpCalls.

Section Steps.
Context {A : Type} (cb : tcp_callbacks A) `{Hcb : !callbacks_ok cb}.
Abbreviation world := (tcp_world A).
Implicit Types (w : world) (id : addr).

(** What [tcp_process] leaves: the block is there unless ERR_ABRT is returned,
    and it is still active when the caller is told to free it. *)
Record processed (id : addr) (w : world) (r : err_t) (w' : world) (i' : tcp_in) : Prop := {
  pr_steps : steps false w w';
  pr_alive : r <> ERR_ABRT -> alive w' id;
  pr_active : has_flag (recv_flags i') (Z.lor TF_RESET TF_CLOSED) = true -> id ∈ tcp_active_pcbs w'
}.

Definition plain (i : tcp_in) : Prop := recv_flags i = 0.
Lemma plain_flags i : plain i \/ recv_flags i = TF_GOT_FIN -> has_flag (recv_flags i) (Z.lor TF_RESET TF_CLOSED) = false.
Proof. by intros [-> | ->]. Qed.
Lemma received_flags i i' : plain i -> (recv_flags i' = recv_flags i \/ recv_flags i' = Z.lor (recv_flags i) TF_GOT_FIN) ->
  plain i' \/ recv_flags i' = TF_GOT_FIN.
Proof. unfold plain. intros ->. auto. Qed.

(** A step that leaves the state of the block and the flags alone. *)
Lemma processed_same id w r w' i a port : st_of w id = Some (a, port) -> a <> CLOSED -> shape_of w' = shape_of w ->
  plain i -> processed id w r w' i.
Proof.
  intros E Ha Hs Hi. split; [by apply steps_eq| |by rewrite plain_flags by auto].
  intros _. exists a, port. by rewrite (st_of_shape _ _ id Hs).
Qed.
Lemma processed_in id w r w' i : steps false w w' -> (r <> ERR_ABRT -> alive w' id) ->
  (plain i \/ recv_flags i = TF_GOT_FIN) -> processed id w r w' i.
Proof. intros. split; [done|done|by rewrite plain_flags]. Qed.
Lemma alive_st w id a port : st_of w id = Some (a, port) -> a <> CLOSED -> alive w id.
Proof. intros. by exists a, port. Qed.

Lemma rst_reply_shape i w : shape_of (rst_reply i w) = shape_of w.
Proof. done. Qed.
Lemma establish_state e i p p' : syn_sent_establish e i p = Ok p' ->
  ident p' = (ESTABLISHED, local_port p).
Proof.
  unfold syn_sent_establish. cbv zeta. intros H. apply res_bind_ok in H as (? & _ & H).
  set (q := p <| snd_buf := _ |> <| rcv_nxt := _ |> <| rcv_ann_right_edge := _ |> <| lastack := _ |> <| snd_wnd := _ |>
    <| snd_wnd_max := _ |> <| snd_wl1 := _ |> <| state := _ |> <| mss := _ |> <| ssthresh := _ |> <| cwnd := _ |>) in H.
  destruct (unacked q) as [|s rest]; [done|]. apply Ok_inj in H as <-. by destruct rest.
Qed.

Lemma process_syn_sent_ok id i w r w' i' port : lists_ok (shape_of w) -> st_of w id = Some (SYN_SENT, port) -> plain i ->
  process_syn_sent cb id i w = Ok (r, w', i') -> processed id w r w' i'.
Proof.
  intros Hok E Hi H. unfold process_syn_sent in H. apply res_bind_ok in H as (p & Hp & H).
  apply res_bind_ok in H as (ok & _ & H). pose proof (get_pcb_st _ _ _ Hp) as Ep. rewrite E in Ep. injection Ep as E1 E2.
  destruct ok.
  - apply res_bind_ok in H as (q & Hq & H). apply establish_state in Hq.
    apply res_bind_ok in H as ([er w1] & H1 & H). apply (run_connected cb) in H1.
    assert (steps false w (put_pcb id q w)) as S1.
    { apply steps_one. rewrite shape_put, Hq, <- E2. eapply st_edge; [exact E|constructor]. }
    pose proof (steps_ok _ _ _ S1 Hok) as Hok1. pose proof (@cb_steps _ cb Hcb _ _ _ _ H1 Hok1) as S2.
    assert (er <> ERR_ABRT -> alive w1 id) as A2.
    { intros Hr. eapply (@cb_alive _ cb Hcb); [exact H1|done|]. eapply alive_st with (a := ESTABLISHED); [|done].
      unfold st_of. rewrite shape_put, Hq. simpl. by rewrite lookup_insert_eq. }
    destruct (Z.eqb_spec er ERR_ABRT).
    + apply Ok3_inj in H as (<- & <- & <-). apply processed_in; [by etransitivity|done|by left].
    + apply res_bind_ok in H as (w2 & H2 & H). apply Ok3_inj in H as (<- & <- & <-).
      apply upd_shape in H2; [|done]. apply processed_in; [|intros _; eapply alive_shape; [exact H2|auto]|by left].
      etransitivity; [exact S1|]. etransitivity; [exact S2|]. by apply steps_eq.
  - destruct has_flag; apply Ok3_inj in H as (<- & <- & <-); by eapply processed_same.
Qed.

(** tcp_receive and the move to CLOSE_WAIT of an open connection. *)
Lemma receive_fin_ok id i w i1 w1 w' a port : a = ESTABLISHED \/ a = CLOSE_WAIT -> st_of w id = Some (a, port) -> plain i ->
  w_receive id i w = Ok (i1, w1) -> forall w2, shape_of w2 = shape_of w1 ->
  (if has_flag (recv_flags i1) TF_GOT_FIN then
     let! w := upd_pcb id tcp_ack_now w2 in set_state id CLOSE_WAIT w
   else Ok w2) = Ok w' -> steps false w w' /\ alive w' id /\ (plain i1 \/ recv_flags i1 = TF_GOT_FIN).
Proof.
  intros Ha E Hi H1 w2 E2 H. destruct (w_receive_spec _ _ _ _ _ _ _ E H1) as [S F].
  apply (received_flags i) in F; [|done].
  assert (steps false w w1 /\ exists b, (b = ESTABLISHED \/ b = CLOSE_WAIT) /\ st_of w1 id = Some (b, port)) as (S1 & b & Hb & E1).
  { destruct S as [S|(-> & _ & S)].
    - split; [by apply steps_eq|]. exists a. by rewrite (st_of_shape _ _ id S).
    - split; [apply steps_one; rewrite S; eapply st_edge; [exact E|constructor]|].
      exists CLOSE_WAIT. unfold st_of. rewrite S. simpl. rewrite lookup_insert_eq. auto. }
  rewrite <- (st_of_shape _ _ id E2) in E1.
  assert (steps false w w2) as S2 by (etransitivity; [exact S1|]; by apply steps_eq).
  destruct has_flag; [|apply Ok_inj in H as <-; split_and!; [done| |done]; by destruct Hb as [-> | ->]; eapply alive_st].
  apply res_bind_ok in H as (w3 & H3 & H). apply upd_shape in H3; [|done].
  rewrite <- (st_of_shape _ _ id H3) in E1.
  assert (st_of w' id = Some (CLOSE_WAIT, port)) as E' by (by eapply set_state_st).
  split_and!; [|by eapply alive_st|done].
  etransitivity; [exact S2|]. etransitivity; [by apply steps_eq, H3|]. destruct Hb as [-> | ->].
  - eapply set_state_edge; [exact E1| |exact H]. constructor.
  - apply steps_eq. by eapply set_state_same.
Qed.

Lemma process_syn_rcvd_ok id i w r w' i' port : lists_ok (shape_of w) -> st_of w id = Some (SYN_RCVD, port) -> plain i ->
  process_syn_rcvd cb id i w = Ok (r, w', i') -> processed id w r w' i'.
Proof.
  intros Hok E Hi H. unfold process_syn_rcvd in H. apply res_bind_ok in H as (p & Hp & H).
  destruct has_flag.
  2:{ destruct (_ && _).
      - apply res_bind_ok in H as (w1 & H1 & H). apply Ok3_inj in H as (<- & <- & <-).
        apply upd_shape in H1; [|apply rexmit_keeps]. by eapply processed_same.
      - apply Ok3_inj in H as (<- & <- & <-). by eapply processed_same. }
  destruct TCP_SEQ_BETWEEN; [|apply Ok3_inj in H as (<- & <- & <-); by eapply processed_same].
  apply res_bind_ok in H as (w1 & H1 & H). pose proof (set_state_st _ _ _ _ _ _ E H1) as E1.
  apply (set_state_edge _ _ _ _ _ _ E) in H1 as S1; [|constructor]. pose proof (steps_ok _ _ _ S1 Hok) as Hok1.
  apply res_bind_ok in H as ([er w2] & H2 & H). pose proof (run_accept cb _ _ _ _ _ H2) as R2.
  pose proof (@cb_steps _ cb Hcb _ _ _ _ R2 Hok1) as S2. pose proof (steps_ok _ _ _ S2 Hok1) as Hok2.
  assert (er <> ERR_ABRT -> st_of w2 id = Some (ESTABLISHED, port)) as E2.
  { intros Hr. by eapply (@cb_accept _ cb Hcb). }
  destruct (Z.eqb_spec er ERR_OK) as [->|Hr]; cbn [negb] in H.
  - apply res_bind_ok in H as (q & _ & H). apply res_bind_ok in H as ([i3 w3] & H3 & H).
    apply res_bind_ok in H as (w4 & H4 & H). apply res_bind_ok in H as (w5 & H5 & H).
    apply Ok3_inj in H as (<- & <- & <-). apply upd_shape in H4; [|done].
    destruct (receive_fin_ok id i w2 i3 w3 w5 ESTABLISHED port (or_introl eq_refl) (E2 ltac:(done)) Hi H3 w4 H4 H5)
      as (S5 & A5 & F5).
    apply processed_in; [|done|done]. etransitivity; [exact S1|]. by etransitivity.
  - apply res_bind_ok in H as (w3 & H3 & H). apply Ok3_inj in H as (<- & <- & <-).
    apply processed_in; [|done|by left]. etransitivity; [exact S1|]. etransitivity; [exact S2|].
    destruct (Z.eqb_spec er ERR_ABRT); [by apply Ok_inj in H3 as <-|].
    eapply (tcp_abort_steps cb); [exact Hok2| |exact H3]. eapply alive_st; [by apply E2|done].
Qed.

(** The closing states. *)
Lemma w_receive_same id i w i1 w1 a port : a <> ESTABLISHED -> st_of w id = Some (a, port) -> plain i ->
  w_receive id i w = Ok (i1, w1) -> shape_of w1 = shape_of w /\ (plain i1 \/ recv_flags i1 = TF_GOT_FIN).
Proof.
  intros Ha E Hi H1. destruct (w_receive_spec _ _ _ _ _ _ _ E H1) as [[S|(S & _)] F]; [|done].
  split; [done|]. by apply (received_flags i).
Qed.
Lemma timewait_ok id w1 w2 w' a port : st_of w1 id = Some (a, port) -> edge_tw a -> shape_of w2 = shape_of w1 ->
  enter_timewait id w2 = Ok w' -> steps false w1 w' /\ alive w' id.
Proof.
  intros E He Es H. rewrite <- (st_of_shape _ _ id Es) in E. destruct (enter_timewait_steps _ _ _ _ _ E He H) as [S E'].
  split; [|by eapply alive_st]. etransitivity; [by apply steps_eq, Es|done].
Qed.
Lemma state_ok id w1 w2 w' a b port : st_of w1 id = Some (a, port) -> edge a b -> b <> CLOSED -> shape_of w2 = shape_of w1 ->
  set_state id b w2 = Ok w' -> steps false w1 w' /\ alive w' id.
Proof.
  intros E He Hb Es H. rewrite <- (st_of_shape _ _ id Es) in E. pose proof (set_state_st _ _ _ _ _ _ E H).
  split; [|by eapply alive_st]. etransitivity; [by apply steps_eq, Es|by eapply set_state_edge].
Qed.

Lemma process_fin_wait_1_ok id i w r w' i' port : st_of w id = Some (FIN_WAIT_1, port) -> plain i ->
  process_fin_wait_1 id i w = Ok (r, w', i') -> processed id w r w' i'.
Proof.
  intros E Hi H. unfold process_fin_wait_1 in H. apply res_bind_ok in H as ([i1 w1] & H1 & H).
  destruct (w_receive_same _ _ _ _ _ FIN_WAIT_1 port ltac:(done) E Hi H1) as [S1 F1].
  apply res_bind_ok in H as (p & _ & H). apply res_bind_ok in H as (w2 & H2 & H). apply Ok3_inj in H as (<- & <- & <-).
  assert (steps false w w2 /\ alive w2 id) as [S2 A2].
  { destruct has_flag.
    - apply res_bind_ok in H2 as (w3 & H3 & H2). apply upd_shape in H3; [|done]. rewrite S1 in H3.
      destruct acks_all; [eapply timewait_ok; [exact E|constructor|exact H3|done]|].
      eapply state_ok; [exact E|apply edge_both|done|exact H3|exact H2].
    - destruct acks_all; [eapply state_ok; [exact E|apply edge_acked|done|exact S1|exact H2]|].
      apply Ok_inj in H2 as <-. split; [by apply steps_eq|]. eapply alive_shape; [exact S1|]. by eapply alive_st. }
  by apply processed_in.
Qed.
Lemma process_fin_wait_2_ok id i w r w' i' port : st_of w id = Some (FIN_WAIT_2, port) -> plain i ->
  process_fin_wait_2 id i w = Ok (r, w', i') -> processed id w r w' i'.
Proof.
  intros E Hi H. unfold process_fin_wait_2 in H. apply res_bind_ok in H as ([i1 w1] & H1 & H).
  destruct (w_receive_same _ _ _ _ _ FIN_WAIT_2 port ltac:(done) E Hi H1) as [S1 F1].
  apply res_bind_ok in H as (w2 & H2 & H). apply Ok3_inj in H as (<- & <- & <-).
  assert (steps false w w2 /\ alive w2 id) as [S2 A2]; [|by apply processed_in].
  destruct has_flag.
  - apply res_bind_ok in H2 as (w3 & H3 & H2). apply upd_shape in H3; [|done]. rewrite S1 in H3.
    eapply timewait_ok; [exact E|constructor|exact H3|done].
  - apply Ok_inj in H2 as <-. split; [by apply steps_eq|]. eapply alive_shape; [exact S1|]. by eapply alive_st.
Qed.
Lemma process_closing_ok id i w r w' i' port : st_of w id = Some (CLOSING, port) -> plain i ->
  process_closing id i w = Ok (r, w', i') -> processed id w r w' i'.
Proof.
  intros E Hi H. unfold process_closing in H. apply res_bind_ok in H as ([i1 w1] & H1 & H).
  destruct (w_receive_same _ _ _ _ _ CLOSING port ltac:(done) E Hi H1) as [S1 F1].
  apply res_bind_ok in H as (p & _ & H). apply res_bind_ok in H as (w2 & H2 & H). apply Ok3_inj in H as (<- & <- & <-).
  assert (steps false w w2 /\ alive w2 id) as [S2 A2]; [|by apply processed_in].
  destruct acks_all; [eapply timewait_ok; [exact E|constructor|exact S1|done]|].
  apply Ok_inj in H2 as <-. split; [by apply steps_eq|]. eapply alive_shape; [exact S1|]. by eapply alive_st.
Qed.
Lemma process_last_ack_ok id i w r w' i' port : st_of w id = Some (LAST_ACK, port) -> id ∈ tcp_active_pcbs w -> plain i ->
  process_last_ack id i w = Ok (r, w', i') -> processed id w r w' i'.
Proof.
  intros E Ha Hi H. unfold process_last_ack in H. apply res_bind_ok in H as ([i1 w1] & H1 & H).
  destruct (w_receive_same _ _ _ _ _ LAST_ACK port ltac:(done) E Hi H1) as [S1 F1].
  apply res_bind_ok in H as (p & _ & H). apply Ok3_inj in H as (<- & <- & _).
  split; [by apply steps_eq| |intros _; by rewrite (act_shape _ _ S1)].
  intros _. eapply alive_shape; [exact S1|]. by eapply alive_st.
Qed.
Lemma process_open_ok id i w r w' i' a port : a = ESTABLISHED \/ a = CLOSE_WAIT -> st_of w id = Some (a, port) -> plain i ->
  process_open id i w = Ok (r, w', i') -> processed id w r w' i'.
Proof.
  intros Ha E Hi H. unfold process_open in H. apply res_bind_ok in H as ([i1 w1] & H1 & H).
  apply res_bind_ok in H as (w2 & H2 & H). apply Ok3_inj in H as (<- & <- & <-).
  destruct (receive_fin_ok id i w i1 w1 w2 a port Ha E Hi H1 w1 eq_refl H2) as (S & Al & F). by apply processed_in.
Qed.

Lemma tcp_process_ok id i w r w' i' : lists_ok (shape_of w) -> id ∈ tcp_active_pcbs w -> plain i ->
  tcp_process cb id i w = Ok (r, w', i') -> processed id w r w' i'.
Proof.
  intros Hok Ha Hi H. destruct (lo_act _ Hok id Ha) as (a & port & E & La).
  change (sh_st (shape_of w) !! id) with (st_of w id) in E.
  unfold tcp_process in H. apply res_bind_ok in H as (p & Hp & H).
  pose proof (get_pcb_st _ _ _ Hp) as Ep. rewrite E in Ep. injection Ep as E1 E2.
  destruct (has_flag _ TCP_RST).
  { destruct rst_acceptable; [|apply Ok3_inj in H as (<- & <- & <-); destruct La; by eapply processed_same].
    apply res_bind_ok in H as (? & _ & H). apply Ok3_inj in H as (<- & <- & <-).
    assert (shape_of (put_pcb id (p <| flags := clear_flag (flags p) TF_ACK_DELAY |>) w) = shape_of w) as Es
      by (by eapply shape_put_keeps).
    split; [by apply steps_eq| |done]. intros _. eapply alive_shape; [exact Es|]. destruct La. by eapply alive_st. }
  destruct (_ && _ && _).
  { apply Ok3_inj in H as (<- & <- & <-). destruct La. eapply processed_same; [exact E|done| |done].
    by eapply shape_put_keeps. }
  apply res_bind_ok in H as (q & Hq & H). apply parseopt_keeps in Hq.
  assert (keeps p q) as Hk by (etransitivity; [apply activity_keeps|exact Hq]).
  assert (shape_of (put_pcb id q w) = shape_of w) as Es by (by eapply shape_put_keeps).
  set (w1 := put_pcb id q w) in *. injection Hk as Hq1 Hq2.
  rewrite <- (st_of_shape _ _ id Es) in E. rewrite <- Es in Hok. rewrite <- (act_shape _ _ Es) in Ha.
  assert (processed id w1 r w' i') as [P1 P2 P3]; [|split; [|done|done]; etransitivity; [by apply steps_eq, Es|done]].
  rewrite Hq1, <- E1 in H. destruct a; cbn [process_state] in H; try (by destruct La as (? & ? & ?)).
  - by eapply process_syn_sent_ok.
  - by eapply process_syn_rcvd_ok.
  - eapply process_open_ok; [left; reflexivity|done..].
  - by eapply process_fin_wait_1_ok.
  - by eapply process_fin_wait_2_ok.
  - eapply process_open_ok; [right; reflexivity|done..].
  - by eapply process_closing_ok.
  - by eapply process_last_ack_ok.
Qed.

(** ** Demultiplexing *)
Lemma find_active_in w i l id : find_active w i l = Ok (Some id) -> id ∈ l.
Proof.
  induction l as [|x l IH]; cbn [find_active]; intros H; [done|]. apply res_bind_ok in H as (p & _ & H).
  do 3 apply res_bind_ok in H as (? & _ & H). rewrite elem_of_cons.
  destruct pcb_matches; [injection H as ->; by left|]. right. by apply IH.
Qed.
Lemma find_listen_in w i l : forall any id, find_listen w i l any = Ok (Some id) -> any = Some id \/ id ∈ l.
Proof.
  induction l as [|x l IH]; intros any id H; cbn [find_listen] in H; [injection H as ->; by left|].
  apply res_bind_ok in H as (p & _ & H). rewrite elem_of_cons.
  destruct (_ =? in_dest i); [destruct (_ =? _); [injection H as ->; auto|]|]; apply IH in H; [|naive_solver].
  destruct (_ =? _); naive_solver.
Qed.

(** ** Listening and TIME-WAIT *)
Lemma accept_ident i l p : ident (accept_pcb i l p) = (SYN_RCVD, ls_local_port l).
Proof. done. Qed.
Lemma tcp_listen_input_steps lid i w r w' : lists_ok (shape_of w) -> tcp_listen_input cb lid i w = Ok (r, w') ->
  steps false w w'.
Proof.
  intros Hok H. unfold tcp_listen_input in H. apply res_bind_ok in H as (l & _ & H).
  destruct has_flag; [by apply Ok2_inj in H as [_ <-]|].
  destruct has_flag; [apply Ok2_inj in H as [_ <-]; by apply steps_eq|].
  destruct has_flag; [|by apply Ok2_inj in H as [_ <-]].
  apply res_bind_ok in H as ([o w1] & H1 & H). apply (tcp_alloc_steps cb) in H1 as [S1 E1]; [|done].
  destruct o as [id|]; [|by apply Ok2_inj in H as [_ <-]]. specialize (E1 id eq_refl).
  pose proof (steps_ok _ _ _ S1 Hok) as Hok1.
  apply res_bind_ok in H as (w2 & H2 & H). apply res_bind_ok in H as (p & Hp & H). apply res_bind_ok in H as (q & Hq & H).
  set (w2' := (reg_active id w2) <| w_app := _ |>) in *. set (w3 := put_pcb id _ w2') in H.
  assert (steps false w1 w3 /\ alive w3 id) as [S3 A3].
  { unfold upd_pcb in H2. apply res_bind_ok in H2 as (p0 & _ & H2). apply Ok_inj in H2 as <-.
    apply parseopt_keeps in Hq. assert (ident q = (SYN_RCVD, ls_local_port l)) as Ei.
    { rewrite Hq. unfold get_pcb in Hp. simpl in Hp. rewrite lookup_insert_eq in Hp. apply Ok_inj in Hp as <-. done. }
    assert (shape_of w3 = mk_shape (<[id := (SYN_RCVD, ls_local_port l)]> (sh_st (shape_of w1))) (sh_ls (shape_of w1))
      (id :: sh_act (shape_of w1)) (sh_tw (shape_of w1)) (sh_bnd (shape_of w1)) (sh_lst (shape_of w1))) as Es.
    { unfold w3. rewrite shape_put. set (q' := q <| mss := _ |>). change (ident q') with (ident q). rewrite Ei.
      change (shape_of w2') with
        (mk_shape (sh_st (shape_of (put_pcb id (accept_pcb i l p0) w1))) (sh_ls (shape_of w1)) (id :: sh_act (shape_of w1))
          (sh_tw (shape_of w1)) (sh_bnd (shape_of w1)) (sh_lst (shape_of w1))).
      rewrite shape_put. simpl. by rewrite insert_insert_eq. }
    split; [apply steps_one; rewrite Es; by apply st_accept|].
    eapply alive_st with (a := SYN_RCVD); [|done]. unfold st_of. rewrite Es. simpl. by rewrite lookup_insert_eq. }
  pose proof (steps_ok _ _ _ S3 Hok1) as Hok3. apply res_bind_ok in H as ([rc w4] & H4 & H). apply enqueue_shape in H4.
  etransitivity; [exact S1|]. etransitivity; [exact S3|]. etransitivity; [by apply steps_eq, H4|].
  destruct (negb _).
  - apply res_bind_ok in H as (w5 & H5 & H). apply Ok2_inj in H as [_ <-].
    eapply (tcp_abandon_steps cb); [by rewrite H4| |exact H5]. by eapply alive_shape.
  - apply output_shape in H. by apply steps_eq.
Qed.
Lemma tcp_timewait_input_shape id i w r w' : tcp_timewait_input id i w = Ok (r, w') -> shape_of w' = shape_of w.
Proof.
  unfold tcp_timewait_input. intros H. apply res_bind_ok in H as (p & Hp & H). cbv zeta in H.
  assert (forall q, keeps p q -> (if 0 <? in_tcplen i then w_output id (put_pcb id (tcp_ack_now q) w)
    else Ok (ERR_OK, put_pcb id q w)) = Ok (r, w') -> shape_of w' = shape_of w) as Ha.
  { intros q Hq Hx. destruct (_ <? _).
    - apply output_shape in Hx. rewrite Hx. eapply shape_put_keeps; [exact Hp|exact Hq].
    - apply Ok2_inj in Hx as [_ <-]. by eapply shape_put_keeps. }
  destruct has_flag; [by apply Ok2_inj in H as [_ <-]|].
  destruct has_flag; [destruct TCP_SEQ_BETWEEN; [by apply Ok2_inj in H as [_ <-]|by apply Ha in H]|].
  destruct has_flag; by apply Ha in H.
Qed.

(** ** The callbacks of tcp_input *)
Lemma input_sent_ok id w r w' : lists_ok (shape_of w) -> alive w id -> input_sent cb id w = Ok (r, w') ->
  steps false w w' /\ (r <> ERR_ABRT -> alive w' id).
Proof.
  unfold input_sent. intros Hok Ha H. apply res_bind_ok in H as (p & _ & H).
  destruct (_ <? _); [|by apply Ok2_inj in H as [_ <-]]. apply (run_sent cb) in H.
  split; [by eapply (@cb_steps _ cb Hcb)|]. intros Hr. by eapply (@cb_alive _ cb Hcb).
Qed.
Lemma input_data_ok id i w r w' : lists_ok (shape_of w) -> alive w id -> input_data cb id i w = Ok (r, w') ->
  steps false w w' /\ (r <> ERR_ABRT -> alive w' id).
Proof.
  unfold input_data. intros Hok Ha H. destruct (recv_data i) as [d|]; [|by apply Ok2_inj in H as [_ <-]].
  apply res_bind_ok in H as (p & _ & H). apply res_bind_ok in H as (? & _ & H). destruct has_flag.
  - apply res_bind_ok in H as (w1 & H1 & H). apply Ok2_inj in H as [<- <-]. split; [|done].
    by eapply (tcp_abort_steps cb).
  - apply res_bind_ok in H as ([er w1] & H1 & H). apply (run_recv cb) in H1.
    pose proof (@cb_steps _ cb Hcb _ _ _ _ H1 Hok) as S1.
    assert (er <> ERR_ABRT -> alive w1 id) as A1 by (intros Hr; by eapply (@cb_alive _ cb Hcb)).
    destruct (_ || _); [by apply Ok2_inj in H as [<- <-]|].
    apply res_bind_ok in H as (w2 & H2 & H). apply Ok2_inj in H as [<- <-]. apply upd_shape in H2; [|done].
    split; [etransitivity; [exact S1|by apply steps_eq]|]. intros Hr. eapply alive_shape; [exact H2|auto].
Qed.
Lemma input_fin_ok id i w r w' : lists_ok (shape_of w) -> alive w id -> input_fin cb id i w = Ok (r, w') ->
  steps false w w' /\ (r <> ERR_ABRT -> alive w' id).
Proof.
  unfold input_fin. intros Hok Ha H. destruct has_flag; [|by apply Ok2_inj in H as [_ <-]].
  apply res_bind_ok in H as (p & Hp & H). destruct (refused_data p) as [[d f]|].
  - apply Ok2_inj in H as [<- <-]. set (w1 := put_pcb id _ w).
    assert (shape_of w1 = shape_of w) as E1 by (by eapply shape_put_keeps).
    split; [by apply steps_eq|]. intros _. by eapply alive_shape.
  - cbv zeta in H. set (w1 := put_pcb id _ w) in H.
    assert (shape_of w1 = shape_of w) as E1 by (eapply shape_put_keeps; [exact Hp|by destruct (_ =? _)]).
    apply (run_recv cb) in H. assert (lists_ok (shape_of w1)) as Hok1 by (by rewrite E1). split.
    + etransitivity; [by apply steps_eq, E1|]. by eapply (@cb_steps _ cb Hcb).
    + intros Hr. eapply (@cb_alive _ cb Hcb); [exact H|done|]. by eapply alive_shape.
Qed.
Lemma input_callbacks_steps id i w w' : lists_ok (shape_of w) -> alive w id -> input_callbacks cb id i w = Ok w' ->
  steps false w w'.
Proof.
  unfold input_callbacks. intros Hok Ha H. apply res_bind_ok in H as ([e1 w1] & H1 & H).
  apply input_sent_ok in H1 as [S1 A1]; [|done..].
  destruct (Z.eqb_spec e1 ERR_ABRT) as [|N1]; [apply Ok_inj in H as <-; exact S1|].
  pose proof (steps_ok _ _ _ S1 Hok) as Hok1. etransitivity; [exact S1|].
  apply res_bind_ok in H as ([e2 w2] & H2 & H). apply input_data_ok in H2 as [S2 A2]; [|by auto..].
  destruct (Z.eqb_spec e2 ERR_ABRT) as [|N2]; [apply Ok_inj in H as <-; exact S2|].
  pose proof (steps_ok _ _ _ S2 Hok1) as Hok2. etransitivity; [exact S2|].
  apply res_bind_ok in H as ([e3 w3] & H3 & H). apply input_fin_ok in H3 as [S3 A3]; [|by auto..].
  etransitivity; [exact S3|]. destruct (Z.eqb_spec e3 ERR_ABRT); [apply Ok_inj in H as <-; by apply steps_eq|].
  apply res_bind_ok in H as ([e4 w4] & H4 & H). apply Ok_inj in H as <-. apply output_shape in H4.
  apply steps_eq. change (shape_of (input_end w4)) with (shape_of w4). by rewrite H4.
Qed.

(** A connection the peer has reset or closed is told so and freed. *)
Lemma input_free_steps id w w1 w' : lists_ok (shape_of w) -> id ∈ tcp_active_pcbs w ->
  (w1 = w \/ exists e, ev_err cb id e w = Ok w1) ->
  (let! w := tcp_pcb_remove_active id w1 in Ok (input_end (free_pcb id w))) = Ok w' -> steps false w w'.
Proof.
  intros Hok Ha H1 H. assert (steps false w w1 /\ id ∈ tcp_active_pcbs w1) as [S1 A1].
  { destruct H1 as [->|[e H1]]; [done|]. split; [by eapply (@cb_err_steps _ cb Hcb)|by eapply (@cb_err_kept _ cb Hcb)]. }
  etransitivity; [exact S1|]. pose proof (steps_ok _ _ _ S1 Hok) as Hok1.
  destruct (lo_act _ Hok1 id A1) as (a & port & E & L).
  apply res_bind_ok in H as (w2 & H2 & H). apply Ok_inj in H as <-.
  eapply free_active_steps; [done|exact E|done|]. exact (tcp_pcb_remove_active_shape _ _ _ H2).
Qed.

Lemma input_active_steps id i w w' : lists_ok (shape_of w) -> id ∈ tcp_active_pcbs w -> input_active cb id i w = Ok w' ->
  steps false w w'.
Proof.
  unfold input_active. cbv zeta. intros Hok Ha H. set (j := i <| recv_data := None |> <| recv_flags := 0 |>) in H.
  apply res_bind_ok in H as (p & _ & H). apply res_bind_ok in H as ([go w1] & H1 & H).
  assert (steps false w w1 /\ (go = true -> id ∈ tcp_active_pcbs w1)) as [S1 A1].
  { destruct (refused_data p) as [d|]; [|by apply Ok2_inj in H1 as [_ <-]].
    apply res_bind_ok in H1 as ([e w2] & H2 & H1). 
    apply (tcp_process_refused_data_steps cb) in H2 as [S2 A2]; [|done].
    destruct (Z.eqb_spec e ERR_ABRT) as [|Hr]; [by apply Ok2_inj in H1 as [<- <-]|].
    apply res_bind_ok in H1 as (q & _ & H1). apply Ok2_inj in H1 as [_ <-]. split; [done|]. intros _. by apply (A2 Hr). }
  etransitivity; [exact S1|]. pose proof (steps_ok _ _ _ S1 Hok) as Hok1.
  destruct go; cbn [negb] in H; [|apply Ok_inj in H as <-; by apply steps_eq].
  apply res_bind_ok in H as ([[err w2] k] & H2 & H).
  apply tcp_process_ok in H2 as [S2 A2 P2]; [|done|by apply A1|done].
  change (steps false w1 w2) in S2. etransitivity; [exact S2|]. pose proof (steps_ok _ _ _ S2 Hok1) as Hok2.
  rewrite has_flag_lor in P2. destruct (Z.eqb_spec err ERR_ABRT); [apply Ok_inj in H as <-; by apply steps_eq|].
  destruct (has_flag (recv_flags k) TF_RESET).
  { apply res_bind_ok in H as (w3 & H3 & H). eapply input_free_steps; [done|by apply P2| |exact H]. eauto. }
  destruct (has_flag (recv_flags k) TF_CLOSED).
  { apply res_bind_ok in H as (q & _ & H). apply res_bind_ok in H as (w3 & H3 & H).
    eapply input_free_steps; [done|by apply P2| |exact H].
    destruct has_flag; [left; by apply Ok_inj in H3|eauto]. }
  eapply input_callbacks_steps; [done|by apply A2|exact H].
Qed.

Lemma tcp_input_steps i w w' : lists_ok (shape_of w) -> tcp_input cb i w = Ok w' -> steps false w w'.
Proof.
  unfold tcp_input. intros Hok H. apply res_bind_ok in H as ([id|] & H1 & H).
  - apply find_active_in in H1. set (w1 := w <| tcp_active_pcbs := _ |>) in H.
    assert (steps false w w1) as S1 by (apply steps_one; by apply st_front).
    etransitivity; [exact S1|]. eapply input_active_steps; [by eapply steps_ok| |exact H]. by left.
  - apply res_bind_ok in H as ([id|] & H2 & H).
    + apply res_bind_ok in H as ([r w1] & H3 & H). apply Ok_inj in H as <-. apply tcp_timewait_input_shape in H3.
      by apply steps_eq.
    + apply res_bind_ok in H as ([lid|] & H3 & H).
      * apply find_listen_in in H3 as [?|H3]; [done|]. apply res_bind_ok in H as ([r w1] & H4 & H). apply Ok_inj in H as <-.
        set (w2 := w <| tcp_listen_pcbs := _ |>) in H4.
        assert (steps false w w2) as S2 by (apply steps_one; by apply st_front_listen).
        etransitivity; [exact S2|]. eapply tcp_listen_input_steps; [by eapply steps_ok|exact H4].
      * apply Ok_inj in H as <-. destruct has_flag; [done|]. by apply steps_eq.
Qed.
End Steps.
