(* ===== verification/TcpScenarios.v ===== *)
(** * TCP: concrete runs

    Whole runs of the model, from [tcp_new] on, on a concrete network
    interface. They show what the code does in corner cases: each is
    evaluated by the kernel. *)
From S2P Require Import Prelude ByteOrder IpAddr Ip Tcp TcpOut TcpIn TcpWorld TcpProcess TcpTimer.

(** The application keeps no state; by default it accepts and acknowledges
    everything. *)
Abbreviation world0 := (tcp_world unit).
Definition quiet_app : tcp_callbacks unit := {|
  ev_accept _ _ w := Ok (ERR_OK, w);
  ev_sent _ _ w := Ok (ERR_OK, w);
  ev_recv _ _ _ w := Ok (ERR_OK, w);
  ev_connected _ _ w := Ok (ERR_OK, w);
  ev_poll _ w := Ok (ERR_OK, w);
  ev_err _ _ w := Ok w;
  ev_passive _ _ a := a |}.

Definition here : Z := 0x0100000a.
Definition peer : Z := 0x0200000a.
Definition lan : netif := mk_netif here 0x00ffffff 0 1500 [0; 1; 2; 3; 4; 5] 0x33 (101, 110) 0.
Definition world_init : world0 :=
  mk_world ∅ ∅ [] [] [] [] false 0 0 TCP_LOCAL_PORT_RANGE_START 6510 None
    (mk_env 1 [lan] (Some lan) false [] []) ().

(** A segment from the peer's port 5000 for the local port 80. *)
Definition arrival (fl seqno ackno : Z) (data : list Z) : tcp_in :=
  let len := zlen data + (if has_flag fl (Z.lor TCP_FIN TCP_SYN) then 1 else 0) in
  mk_in peer here 5000 80 8192 5 [] fl seqno ackno len (mk_seg seqno fl (zlen data) 0 data 1) true None 0.

(** A listening block on port 80 and one connection the peer opens to it. *)
Definition listening : res world0 :=
  let! (o, w) := tcp_new quiet_app world_init in
  let! id := of_option BadAccess o in
  let! (_, w) := tcp_bind id IPADDR_ANY 80 w in
  let! (_, w) := tcp_listen_with_backlog id w in
  Ok w.
Definition half_open : res world0 :=
  let! w := listening in tcp_input quiet_app (arrival TCP_SYN 1000 0 []) w.
Definition iss_of (w : world0) : Z :=
  match tcp_active_pcbs w with
  | id :: _ => match w_pcbs w !! id with Some p => snd_nxt p | None => 0 end
  | [] => 0
  end.
Definition established : res world0 :=
  let! w := half_open in tcp_input quiet_app (arrival TCP_ACK 1001 (iss_of w) []) w.

Definition states (r : res world0) : res (list tcp_state) :=
  let! w := r in
  let! ps := collect (get_pcb w) (tcp_active_pcbs w ++ tcp_tw_pcbs w) in Ok (map state ps).

Example handshake : states half_open = Ok [SYN_RCVD] /\ states established = Ok [ESTABLISHED].
Proof. split; vm_compute; reflexivity. Qed.

Fixpoint repeat_res {A} (n : nat) (f : A -> res A) (a : A) : res A :=
  match n with
  | O => Ok a
  | S n => let! a := f a in repeat_res n f a
  end.

(** Copies of the SYN make SYN_RCVD retransmit, and every retransmission adds
    one to [nrtx]. Past TCP_MAXRTX, which the slow timer tests for equality,
    the timer reads behind the end of [tcp_backoff]. *)
Example backoff_overread :
  (let! w := half_open in
   let! w := repeat_res 14 (tcp_input quiet_app (arrival TCP_SYN 1000 0 [])) w in
   let! w := repeat_res 6 (tcp_slowtmr quiet_app 5%nat) w in Ok tt) = Err BadAccess.
Proof. vm_compute. reflexivity. Qed.

(** An application that closes the connection at the end of the stream, while
    some of the data has not been passed to tcp_recved yet: [tcp_close] frees
    the control block in CLOSE_WAIT and returns ERR_OK, and [tcp_input] goes on
    with it. *)
Definition closing_app : tcp_callbacks unit := {|
  ev_accept _ _ w := Ok (ERR_OK, w);
  ev_sent _ _ w := Ok (ERR_OK, w);
  ev_recv id data _ w := match data with Some _ => Ok (ERR_OK, w) | None => tcp_close id w end;
  ev_connected _ _ w := Ok (ERR_OK, w);
  ev_poll _ w := Ok (ERR_OK, w);
  ev_err _ _ w := Ok w;
  ev_passive _ _ a := a |}.
Example close_in_recv :
  (let! w := established in
   tcp_input closing_app (arrival (Z.lor TCP_ACK TCP_FIN) 1001 (iss_of w) [1; 2; 3]) w) = Err BadAccess.
Proof. vm_compute. reflexivity. Qed.

(** Two connections; the one at the head of the list holds refused data. *)
Definition arrival2 (fl seqno ackno : Z) (data : list Z) : tcp_in :=
  let i := arrival fl seqno ackno data in
  mk_in peer here 5001 80 (in_wnd i) 5 [] fl seqno ackno (in_tcplen i) (inseg i) true None 0.
Definition full_app : tcp_callbacks unit := {|
  ev_accept _ _ w := Ok (ERR_OK, w);
  ev_sent _ _ w := Ok (ERR_OK, w);
  ev_recv _ _ _ w := Ok (ERR_MEM, w);
  ev_connected _ _ w := Ok (ERR_OK, w);
  ev_poll _ w := Ok (ERR_OK, w);
  ev_err _ _ w := Ok w;
  ev_passive _ _ a := a |}.
Definition two_connections : res world0 :=
  let! w := established in
  let! w := tcp_input quiet_app (arrival2 TCP_SYN 2000 0 []) w in
  let! w := tcp_input quiet_app (arrival2 TCP_ACK 2001 (iss_of w) []) w in
  tcp_input full_app (arrival2 TCP_ACK 2001 (iss_of w) [1; 2; 3]) w.
(** When the data is offered again, the application takes it and aborts the
    other connection. *)
Definition abort_other (id : addr) (w : world0) : res world0 :=
  match filter (fun x => x <> id) (tcp_active_pcbs w) with
  | other :: _ => tcp_abort quiet_app other w
  | [] => Ok w
  end.
Definition aborting_app : tcp_callbacks unit := {|
  ev_accept _ _ w := Ok (ERR_OK, w);
  ev_sent _ _ w := Ok (ERR_OK, w);
  ev_recv id _ _ w := let! w := abort_other id w in Ok (ERR_OK, w);
  ev_connected _ _ w := Ok (ERR_OK, w);
  ev_poll _ w := Ok (ERR_OK, w);
  ev_err _ _ w := Ok w;
  ev_passive _ _ a := a |}.
Example aborting_app_fasttmr :
  (let! w := two_connections in tcp_fasttmr aborting_app 1000%nat w) = Err OutOfFuel.
Proof. vm_compute. reflexivity. Qed.

(** A poll callback that opens a connection: after the restart the blocks
    processed before are skipped without becoming [prev], and the removal of a
    later block takes itself for the first of the list. *)
Definition polling_app : tcp_callbacks unit := {|
  ev_accept _ _ w := Ok (ERR_OK, w);
  ev_sent _ _ w := Ok (ERR_OK, w);
  ev_recv _ _ _ w := Ok (ERR_OK, w);
  ev_connected _ _ w := Ok (ERR_OK, w);
  ev_poll id w :=
    let! (o, w) := tcp_new quiet_app w in
    let! id := of_option BadAccess o in
    tcp_connect id peer 80 w;
  ev_err _ _ w := Ok w;
  ev_passive _ _ a := a |}.
Example polling_app_slowtmr :
  (let! w := half_open in
   let! w := tcp_input quiet_app (arrival2 TCP_SYN 2000 0 []) w in
   let! w := tcp_input quiet_app (arrival2 TCP_ACK 2001 (iss_of w) []) w in
   let! w := repeat_res 40 (tcp_slowtmr quiet_app 5%nat) w in
   tcp_slowtmr polling_app 5%nat w) = Err AssertFailed.
Proof. vm_compute. reflexivity. Qed.

(** A bound block that is aborted stays on the list of bound blocks although it
    is freed; its memory is given to the next block. *)
Example abort_bound :
  (let! (o, w) := tcp_new quiet_app world_init in
   let! id := of_option BadAccess o in
   let! (_, w) := tcp_bind id IPADDR_ANY 80 w in
   let! w := tcp_abort quiet_app id w in
   let! (o, w) := tcp_new quiet_app w in
   Ok (tcp_bound_pcbs w, o)) = Ok ([2%positive], Some 2%positive).
Proof. vm_compute. reflexivity. Qed.
