(* ===== verification/TcpTimerSteps.v ===== *)
(** * TCP: the timers and every call of the API are steps

    TcpTimer.v against the abstract machine, and all of it together: whatever
    is called in whatever order, the lists of control blocks keep the axioms of
    tcp_impl.h. *)
From S2P Require Import Prelude ByteOrder IpAddr Ip Tcp TcpOut TcpIn TcpSend TcpWorld TcpProcess TcpTimer TcpShape TcpKeeps TcpLists TcpCalls TcpSteps TcpScenarios.

(** ** The unlinking of the timers *)
Lemma link_after_app q rest l1 l2 : q ∉ l1 -> link_after q rest (l1 ++ q :: l2) = l1 ++ q :: rest.
Proof.
  induction l1 as [|x l1 IH]; simpl; intros Hq; [by rewrite bool_decide_true|].
  apply not_elem_of_cons in Hq as [? ?]. rewrite bool_decide_false by done. by rewrite IH.
Qed.
Lemma unlink_app id l k : id ∉ l -> unlink id (l ++ id :: k) = l ++ k.
Proof.
  induction l as [|x l IH]; simpl; intros Hq; [by rewrite bool_decide_true|].
  apply not_elem_of_cons in Hq as [? ?]. rewrite bool_decide_false by done. by rewrite IH.
Qed.
Definition prev_ok (prev : option addr) (pre : list addr) : Prop :=
  match prev with Some q => q ∈ pre | None => True end.
Lemma unlink_at_spec id prev pre rest l : NoDup (pre ++ id :: rest) -> prev_ok prev pre ->
  unlink_at id prev rest (pre ++ id :: rest) = Ok l ->
  exists pre', l = pre' ++ rest /\ prev_ok prev pre' /\ pre' `sublist_of` pre.
Proof.
  intros Hn Hp H. unfold unlink_at, lwip_assert in H. destruct prev as [q|].
  - destruct (negb _); [|done]. apply Ok_inj in H as <-. simpl in Hp.
    apply list_elem_of_split in Hp as (l1 & l2 & ->).
    assert (q ∉ l1) as Hq.
    { rewrite <- app_assoc in Hn. apply NoDup_app in Hn as (_ & Hd & _). intros Hx. apply (Hd q Hx). simpl. left. }
    exists (l1 ++ [q]). rewrite <- !app_assoc. simpl. rewrite link_after_app by done. split_and!; [done|set_solver|].
    apply sublist_app; [done|]. apply sublist_skip, sublist_nil_l.
  - destruct (bool_decide _) eqn:Hb; [|done]. apply bool_decide_eq_true in Hb. apply Ok_inj in H as <-.
    exists []. split_and!; [done|done|apply sublist_nil_l].
Qed.

(** The unlinking when [prev] is the block before. *)
Lemma unlink_at_last id pre rest l : NoDup (pre ++ id :: rest) ->
  unlink_at id (last pre) rest (pre ++ id :: rest) = Ok l -> l = pre ++ rest.
Proof.
  intros Hn H. unfold unlink_at, lwip_assert in H. destruct (decide (pre = [])) as [->|Hne].
  - simpl in H. destruct (bool_decide _); [|done]. by apply Ok_inj in H.
  - destruct (exists_last Hne) as (l1 & q & ->). rewrite last_snoc in H.
    destruct (negb _); [|done]. apply Ok_inj in H as <-. rewrite <- !app_assoc. apply link_after_app.
    rewrite <- app_assoc in Hn. apply NoDup_app in Hn as (_ & Hd & _). intros Hx. apply (Hd q Hx). left.
Qed.

Section TimerSteps.
Context {A : Type} (cb : tcp_callbacks A) `{Hcb : !callbacks_ok cb}.
Abbreviation world := (tcp_world A).
Implicit Types (w : world) (id : addr).

Lemma slow_remove_steps id prev pre rest reset w again w' : lists_ok (shape_of w) ->
  tcp_active_pcbs w = pre ++ id :: rest -> prev_ok prev pre ->
  slow_remove cb id prev rest reset w = Ok (again, w') ->
  steps true w w' /\ (again = false -> exists pre', tcp_active_pcbs w' = pre' ++ rest /\ prev_ok prev pre').
Proof.
  intros Hok Ha Hp H. unfold slow_remove in H. apply res_bind_ok in H as (w1 & H1 & H).
  apply upd_shape in H1; [|apply purge_keeps]. apply res_bind_ok in H as (l & Hl & H).
  destruct (lo_nodups _ Hok) as (Hn & _). change (sh_act (shape_of w)) with (tcp_active_pcbs w) in Hn.
  rewrite (act_shape _ _ H1), Ha in Hl. rewrite Ha in Hn.
  destruct (unlink_at_spec _ _ _ _ _ Hn Hp Hl) as (pre' & -> & Hp' & Hsub).
  apply res_bind_ok in H as (p & _ & H). set (w2 := if reset then _ else _) in H.
  set (w3 := (free_pcb id w2) <| tcp_active_pcbs_changed := false |>) in H.
  apply res_bind_ok in H as (w4 & H4 & H). apply Ok2_inj in H as [<- <-].
  assert (steps true w w3) as S3.
  { assert (id ∈ tcp_active_pcbs w) as Hi by (rewrite Ha; set_solver).
    destruct (lo_act _ Hok id Hi) as (a & port & E & L). destruct L as (L1 & L2 & L3).
    eapply rtc_l; [apply (st_free _ _ id); by rewrite E|].
    rewrite (unlink_notin id (sh_tw _)) by (by eapply lo_not_tw).
    rewrite (unlink_notin id (sh_bnd _)) by (by eapply lo_not_bnd).
    change (sh_act (shape_of w)) with (tcp_active_pcbs w). rewrite Ha, unlink_app.
    2:{ apply NoDup_app in Hn as (_ & Hd & _). intros Hx. apply (Hd id Hx). left. }
    assert (shape_of w3 = mk_shape (delete id (sh_st (shape_of w))) (sh_ls (shape_of w)) (pre' ++ rest)
      (sh_tw (shape_of w)) (sh_bnd (shape_of w)) (sh_lst (shape_of w))) as ->.
    { rewrite <- H1. change (shape_of w3) with (shape_of (free_pcb id w2)). rewrite shape_free. unfold w2.
      by destruct reset. }
    apply rtc_once. match goal with |- sstep _ ?s _ => apply (st_forget true s (pre' ++ rest) eq_refl) end.
    simpl. by apply sublist_app. }
  split.
  - etransitivity; [exact S3|]. apply steps_weaken. eapply (@cb_err_steps _ cb Hcb); [exact H4|]. by eapply steps_ok.
  - intros Hc. exists pre'. split; [|done]. rewrite (@cb_err_listed _ cb Hcb _ _ _ _ H4 Hc).
    unfold w3, w2. by destruct reset.
Qed.

Lemma slow_poll_steps id w again w' : lists_ok (shape_of w) -> slow_poll cb id w = Ok (again, w') ->
  steps false w w' /\ (again = false -> tcp_active_pcbs w' = tcp_active_pcbs w).
Proof.
  intros Hok H. unfold slow_poll in H. apply res_bind_ok in H as (p & Hp & H). destruct (_ <=? _).
  - cbv zeta in H. set (w1 := (put_pcb id _ w) <| tcp_active_pcbs_changed := false |>) in H.
    assert (shape_of w1 = shape_of w) as E1 by (by apply (shape_put_keeps w id p)).
    apply res_bind_ok in H as ([er w2] & H2 & H). apply (run_poll cb) in H2.
    assert (steps false w w2) as S2.
    { etransitivity; [by apply steps_eq, E1|]. eapply (@cb_steps _ cb Hcb); [exact H2|by rewrite E1]. }
    destruct (tcp_active_pcbs_changed w2) eqn:Ec; [by apply Ok2_inj in H as [<- <-]|].
    pose proof (@cb_listed _ cb Hcb _ _ _ _ H2 Ec) as L2. change (tcp_active_pcbs w1) with (tcp_active_pcbs w) in L2.
    destruct (_ =? _); [|by apply Ok2_inj in H as [<- <-]].
    apply res_bind_ok in H as ([e3 w3] & H3 & H). apply Ok2_inj in H as [<- <-]. apply output_shape in H3.
    split; [etransitivity; [exact S2|by apply steps_eq]|]. intros _. by rewrite (act_shape _ _ H3).
  - apply Ok2_inj in H as [<- <-]. split; [|done]. apply steps_eq. by eapply shape_put_keeps.
Qed.

Lemma slow_pass_steps l : forall prev pre w again w', lists_ok (shape_of w) -> tcp_active_pcbs w = pre ++ l ->
  prev_ok prev pre -> slow_pass cb prev l w = Ok (again, w') -> steps true w w'.
Proof.
  induction l as [|id rest IH]; intros prev pre w again w' Hok Ha Hp H; cbn [slow_pass] in H.
  { by apply Ok2_inj in H as [_ <-]. }
  apply res_bind_ok in H as (p & Hg & H). do 3 apply res_bind_ok in H as (? & _ & H).
  assert (tcp_active_pcbs w = (pre ++ [id]) ++ rest) as Ha' by (by rewrite Ha, <- app_assoc).
  destruct (_ =? _).
  { eapply (IH prev (pre ++ [id])); [done|done| |exact H]. destruct prev; simpl in *; set_solver. }
  apply res_bind_ok in H as ([[[rm rs] q] e] & H1 & H). apply slow_pcb_keeps in H1. cbv zeta in H.
  set (w1 := put_pcb id q _) in H.
  assert (shape_of w1 = shape_of w) as E1 by (apply (shape_put_keeps w id p q); [done|exact H1]).
  pose proof (act_shape _ _ E1) as Ea1. etransitivity; [by apply steps_eq, E1|]. rewrite <- E1 in Hok.
  destruct rm.
  - apply res_bind_ok in H as ([ag w2] & H2 & H).
    apply (slow_remove_steps id prev pre) in H2 as [S2 A2]; [|done|by rewrite Ea1|done].
    etransitivity; [exact S2|]. destruct ag; [by apply Ok2_inj in H as [_ <-]|].
    destruct (A2 eq_refl) as (pre' & Ha2 & Hp2). eapply (IH prev pre'); [by eapply steps_ok|done..].
  - apply res_bind_ok in H as ([ag w2] & H2 & H). apply slow_poll_steps in H2 as [S2 A2]; [|done].
    etransitivity; [by apply steps_weaken, S2|]. destruct ag; [by apply Ok2_inj in H as [_ <-]|].
    eapply (IH (Some id) (pre ++ [id])); [by eapply steps_ok|by rewrite A2, Ea1|simpl; set_solver|exact H].
Qed.
Lemma slow_active_steps fuel : forall w w', lists_ok (shape_of w) -> slow_active cb fuel w = Ok w' -> steps true w w'.
Proof.
  induction fuel as [|fuel IH]; intros w w' Hok H; cbn [slow_active] in H; [done|].
  apply res_bind_ok in H as ([ag w1] & H1 & H). apply (slow_pass_steps _ None []) in H1; [|done..].
  etransitivity; [exact H1|]. destruct ag; [|by apply Ok_inj in H as <-]. apply IH; [by eapply steps_ok|done].
Qed.

Lemma slow_tw_steps l : forall prev pre w w', lists_ok (shape_of w) -> tcp_tw_pcbs w = pre ++ l ->
  (prev = last pre) -> slow_tw prev l w = Ok w' -> steps false w w'.
Proof.
  induction l as [|id rest IH]; intros prev pre w w' Hok Ha Hp H; cbn [slow_tw] in H; [by apply Ok_inj in H as <-|].
  apply res_bind_ok in H as (p & Hg & H). unfold lwip_assert in H. destruct (state_is (state p) TIME_WAIT) eqn:Es; [|done].
  apply bool_decide_eq_true in Es. cbn [res_bind] in H. destruct (_ <? _).
  - apply res_bind_ok in H as (w1 & H1 & H). apply upd_shape in H1; [|apply purge_keeps].
    apply res_bind_ok in H as (l & Hl & H).
    assert (NoDup (pre ++ id :: rest)) as Hn by (rewrite <- Ha; apply (lo_nodups _ Hok)).
    assert (l = pre ++ rest) as ->.
    { rewrite (f_equal sh_tw H1 : tcp_tw_pcbs w1 = tcp_tw_pcbs w), Ha, Hp in Hl. by eapply unlink_at_last. }
    set (w2 := free_pcb id _) in H.
    assert (steps false w w2) as S2.
    { apply (free_steps _ _ id); [rewrite (get_pcb_st _ _ _ Hg); done|].
      pose proof (get_pcb_st _ _ _ Hg) as E. unfold ident in E. rewrite Es in E.
      rewrite (unlink_notin id (sh_act _)) by (eapply lo_not_act; [done|exact E|by intros (? & ? & ?)]).
      rewrite (unlink_notin id (sh_bnd _)) by (by eapply lo_not_bnd).
      change (sh_tw (shape_of w)) with (tcp_tw_pcbs w). rewrite Ha, unlink_app.
      2:{ apply NoDup_app in Hn as (_ & Hd & _). intros Hx. apply (Hd id Hx). left. }
      unfold w2. rewrite shape_free. rewrite <- H1. done. }
    etransitivity; [exact S2|]. eapply (IH prev pre); [by eapply steps_ok|done|done|exact H].
  - eapply (IH (Some id) (pre ++ [id])); [done|by rewrite Ha, <- app_assoc|by rewrite last_snoc|exact H].
Qed.

Lemma tcp_slowtmr_steps fuel w w' : lists_ok (shape_of w) -> tcp_slowtmr cb fuel w = Ok w' -> steps true w w'.
Proof.
  unfold tcp_slowtmr. intros Hok H. apply res_bind_ok in H as (w1 & H1 & H).
  apply slow_active_steps in H1; [|done]. change (steps true w w1) in H1. etransitivity; [exact H1|].
  apply steps_weaken. eapply (slow_tw_steps _ None []); [by eapply steps_ok|done|done|exact H].
Qed.

Lemma fast_ack_shape id w w' : fast_ack id w = Ok w' -> shape_of w' = shape_of w.
Proof.
  unfold fast_ack. intros H. apply res_bind_ok in H as (p & Hp & H). destruct has_flag; [|by apply Ok_inj in H as <-].
  apply res_bind_ok in H as ([er w1] & H1 & H). apply output_shape in H1. apply upd_shape in H; [|done].
  rewrite H, H1. by eapply shape_put_keeps.
Qed.
Lemma fast_refused_steps id w again w' : lists_ok (shape_of w) -> fast_refused cb id w = Ok (again, w') -> steps false w w'.
Proof.
  unfold fast_refused. intros Hok H. apply res_bind_ok in H as (p & Hp & H).
  destruct (refused_data p); [|by apply Ok2_inj in H as [_ <-]].
  apply res_bind_ok in H as ([er w1] & H1 & H). apply Ok2_inj in H as [_ <-].
  by apply (tcp_process_refused_data_steps cb) in H1 as [S1 _].
Qed.
Lemma fast_loop_steps fuel : forall l w w', lists_ok (shape_of w) -> fast_loop cb fuel l w = Ok w' -> steps false w w'.
Proof.
  induction fuel as [|fuel IH]; intros [|id rest] w w' Hok H; cbn [fast_loop] in H; try done; try (by apply Ok_inj in H as <-).
  apply res_bind_ok in H as (p & Hp & H). destruct (_ =? _); [by eapply IH|].
  apply res_bind_ok in H as (w1 & H1 & H). apply fast_ack_shape in H1.
  assert (shape_of w1 = shape_of w) as E1 by (rewrite H1; by eapply shape_put_keeps).
  etransitivity; [by apply steps_eq, E1|]. rewrite <- E1 in Hok.
  apply res_bind_ok in H as ([ag w2] & H2 & H). apply fast_refused_steps in H2; [|done].
  etransitivity; [exact H2|]. eapply IH; [by eapply steps_ok|exact H].
Qed.
Lemma tcp_fasttmr_steps fuel w w' : lists_ok (shape_of w) -> tcp_fasttmr cb fuel w = Ok w' -> steps false w w'.
Proof. unfold tcp_fasttmr. intros Hok H. by apply fast_loop_steps in H. Qed.
End TimerSteps.

(** ** Everything together *)
Section Calls.
Context {A : Type} (cb : tcp_callbacks A).
Abbreviation world := (tcp_world A).
Implicit Types (w : world) (id : addr).

Definition w_recved (id : addr) (len : Z) (w : world) : res (unit * world) :=
  run_pcb id (fun p e => let! (p, e) := tcp_recved p e len in Ok (tt, p, e)) w.
Definition w_write (id : addr) (data : list Z) (apiflags : Z) (w : world) : res (err_t * world) :=
  run_pcb id (fun p e => tcp_write p e data apiflags) w.

(** A call of the raw API, the arrival of a segment or a timer; [slow] says
    whether the slow timer may run. *)
Inductive tcp_call (slow : bool) (w : world) : world -> Prop :=
  | call_new o w' : tcp_new cb w = Ok (o, w') -> tcp_call slow w w'
  | call_bind id ip port r w' : id ∉ tcp_bound_pcbs w -> tcp_bind id ip port w = Ok (r, w') -> tcp_call slow w w'
  | call_listen id o w' : tcp_listen_with_backlog id w = Ok (o, w') -> tcp_call slow w w'
  | call_connect id ip port r w' : tcp_connect id ip port w = Ok (r, w') -> tcp_call slow w w'
  | call_write id data fl r w' : w_write id data fl w = Ok (r, w') -> tcp_call slow w w'
  | call_recved id len r w' : w_recved id len w = Ok (r, w') -> tcp_call slow w w'
  | call_output id r w' : w_output id w = Ok (r, w') -> tcp_call slow w w'
  | call_close id r w' : tcp_close id w = Ok (r, w') -> tcp_call slow w w'
  | call_shutdown id rx tx r w' : tcp_shutdown id rx tx w = Ok (r, w') -> tcp_call slow w w'
  | call_abort id w' : alive w id -> tcp_abort cb id w = Ok w' -> tcp_call slow w w'
  | call_input i w' : tcp_input cb i w = Ok w' -> tcp_call slow w w'
  | call_fasttmr fuel w' : tcp_fasttmr cb fuel w = Ok w' -> tcp_call slow w w'
  | call_slowtmr fuel w' : slow = true -> tcp_slowtmr cb fuel w = Ok w' -> tcp_call slow w w'
  | call_tmr fuel w' : slow = true -> tcp_tmr cb fuel w = Ok w' -> tcp_call slow w w'.

Context `{Hcb : !callbacks_ok cb}.

Lemma tcp_tmr_steps fuel w w' : lists_ok (shape_of w) -> tcp_tmr cb fuel w = Ok w' -> steps true w w'.
Proof.
  unfold tcp_tmr. intros Hok H. apply res_bind_ok in H as (w1 & H1 & H). apply (tcp_fasttmr_steps cb) in H1; [|done].
  cbv zeta in H. set (w2 := w1 <| tcp_timer := _ |>) in H. assert (steps false w w2) as S2 by exact H1.
  etransitivity; [by apply steps_weaken, S2|].
  destruct has_flag; [|by apply Ok_inj in H as <-]. eapply (tcp_slowtmr_steps cb); [|exact H]. by eapply steps_ok.
Qed.
Lemma tcp_call_steps slow w w' : lists_ok (shape_of w) -> tcp_call slow w w' -> steps slow w w'.
Proof.
  intros Hok [o w1 H|id ip port r w1 Hb H|id o w1 H|id ip port r w1 H|id data fl r w1 H|id len r w1 H|id r w1 H|id r w1 H
    |id rx tx r w1 H|id w1 Ha H|i w1 H|fuel w1 H|fuel w1 -> H|fuel w1 -> H].
  13: by eapply (tcp_slowtmr_steps cb). 13: by eapply tcp_tmr_steps.
  all: apply steps_weaken.
  - by eapply (tcp_new_steps cb).
  - by eapply tcp_bind_steps.
  - by eapply tcp_listen_steps.
  - by eapply tcp_connect_steps.
  - apply steps_eq. eapply run_shape; [exact H|]. intros ????? E. exact (write_keeps _ _ _ _ _ _ _ E).
  - apply steps_eq. eapply run_shape; [exact H|]. intros p e ? p' e' E.
    apply res_bind_ok in E as ([q e1] & E1 & E). apply Ok3_inj in E as (_ & <- & _). by eapply recved_keeps.
  - apply steps_eq. by eapply output_shape.
  - by eapply tcp_close_steps.
  - by eapply tcp_shutdown_steps.
  - by eapply (tcp_abort_steps cb).
  - by eapply (tcp_input_steps cb).
  - by eapply (tcp_fasttmr_steps cb).
Qed.
Lemma tcp_calls_steps slow w w' : rtc (tcp_call slow) w w' -> lists_ok (shape_of w) -> steps slow w w'.
Proof.
  induction 1 as [w|w1 w2 w3 H1 _ IH]; intros Hok; [done|]. apply tcp_call_steps in H1; [|done].
  etransitivity; [exact H1|]. apply IH. by eapply steps_ok.
Qed.
Lemma accounted_steps s s' : rtc (sstep false) s s' -> lists_ok s -> accounted s -> accounted s'.
Proof.
  induction 1 as [s|s1 s2 s3 H1 _ IH]; intros Hok Ha; [done|].
  apply IH; [by eapply lists_ok_step|by eapply accounted_step].
Qed.

(** C2. Refinement: whatever sequence of API calls, segments and timers
    ([tcp_call]) runs,
    with an application that keeps to the rules for callbacks, the control
    blocks move by steps of the abstract machine only: blocks are created,
    bound, connected, freed, and change their state along the edges of the
    state diagram of RFC 793. Only the slow timer can lose a block: without it
    every block that is not CLOSED stays on the list of active or of TIME-WAIT
    blocks. The calls are those that return; tcp_bind is not called for a block
    on the list of bound blocks, nor tcp_abort for a block that is CLOSED, which
    would leave a freed block on that list ([abort_bound]). The rules are those of [callbacks_ok]:
    a callback changes the blocks by calls of the API, returns ERR_ABRT
    when its connection is gone and else leaves it active, an accept callback leaves it
    ESTABLISHED. A tcp_close in CLOSE_WAIT with unread data breaks them ([close_in_recv]). *)
Theorem tcp_refines_machine slow w w' : lists_ok (shape_of w) -> rtc (tcp_call slow) w w' ->
  rtc (sstep slow) (shape_of w) (shape_of w') /\
  (slow = false -> accounted (shape_of w) -> accounted (shape_of w')).
Proof.
  intros Hok H. apply tcp_calls_steps in H; [|done]. split; [exact H|]. intros -> Ha. by eapply accounted_steps.
Qed.

(** C3. The "Axioms about the above lists" of tcp_impl.h are an invariant: a
    control block is on one list at most and once; active blocks exist and are
    neither CLOSED nor LISTEN nor TIME_WAIT, the blocks of the TIME-WAIT list
    are in TIME_WAIT, the bound blocks are CLOSED and have a port, and the
    listening blocks are those of the LISTEN list. So no list holds a freed
    block. This is after any sequence of the calls of [tcp_call] that return, with callbacks
    that keep to the rules ([callbacks_ok], see C2); it is not so for tcp_abort of
    a bound block that is not connected, which leaves the freed block on its list ([abort_bound]). *)
Theorem tcp_lists_axioms w w' : lists_ok (shape_of w) -> rtc (tcp_call true) w w' ->
  NoDup (tcp_active_pcbs w' ++ tcp_tw_pcbs w' ++ tcp_bound_pcbs w') /\ NoDup (tcp_listen_pcbs w') /\
  (forall id, id ∈ tcp_active_pcbs w' -> exists p, w_pcbs w' !! id = Some p /\
     state p <> CLOSED /\ state p <> LISTEN /\ state p <> TIME_WAIT) /\
  (forall id, id ∈ tcp_tw_pcbs w' -> exists p, w_pcbs w' !! id = Some p /\ state p = TIME_WAIT) /\
  (forall id, id ∈ tcp_bound_pcbs w' -> exists p, w_pcbs w' !! id = Some p /\ state p = CLOSED /\ local_port p <> 0) /\
  (forall id, id ∈ tcp_listen_pcbs w' <-> is_Some (w_listen w' !! id)).
Proof.
  intros Hok H. apply tcp_calls_steps in H; [|done]. apply steps_ok in H as [Hn La Lt Lb [Ll1 Ll2] _]; [|done].
  assert (forall id a port, sh_st (shape_of w') !! id = Some (a, port) ->
    exists p, w_pcbs w' !! id = Some p /\ state p = a /\ local_port p = port) as Hp.
  { intros id a port E. simpl in E. rewrite lookup_fmap in E. destruct (w_pcbs w' !! id) as [p|]; [|done].
    injection E as E1 E2. by exists p. }
  split_and!; try done.
  - intros id Hi. destruct (La id Hi) as (a & port & E & L). destruct (Hp _ _ _ E) as (p & Ep & <- & _). by exists p.
  - intros id Hi. destruct (Lt id Hi) as (port & E). destruct (Hp _ _ _ E) as (p & Ep & ? & _). by exists p.
  - intros id Hi. destruct (Lb id Hi) as (port & E & Hn0). destruct (Hp _ _ _ E) as (p & Ep & ? & ?). exists p.
    split_and!; congruence.
  - intros id. rewrite Ll2. simpl. apply elem_of_dom.
Qed.
End Calls.

(** ** At a concrete run *)
#[export] Instance quiet_app_ok : callbacks_ok quiet_app.
Proof.
  split; intros.
  1-4: match goal with H : callback_run _ _ _ _ _ |- _ => destruct H as [? ? ? ? ? E|? ? ? ? ? E|? ? ? ? ? ? E|? ? ? ? ? E|? ? ? ? E] end;
    injection E as <- <-; done.
  - match goal with H : _ = Ok _ |- _ => injection H as <- <- end. done.
  - match goal with H : _ = Ok _ |- _ => injection H as <- end. done.
  - match goal with H : _ = Ok _ |- _ => injection H as <- end. done.
  - match goal with H : _ = Ok _ |- _ => injection H as <- end. done.
Qed.
Lemma world_init_ok : lists_ok (shape_of world_init).
Proof.
  split; simpl; try (by intros ? ?%elem_of_nil); try apply NoDup_nil_2.
  - split; [apply NoDup_nil_2|]. intros lid. rewrite dom_empty_L. set_solver.
  - intros lid Hl. rewrite dom_empty_L in Hl. by apply elem_of_empty in Hl.
Qed.

(** From nothing to a connection: a server, a SYN and the ACK of the peer, one
    tick of the slow timer. *)
Definition after_handshake : res world0 :=
  let! w := established in tcp_slowtmr quiet_app 4%nat w.
Lemma established_calls w : established = Ok w -> rtc (tcp_call quiet_app true) world_init w.
Proof.
  intros H. unfold established, half_open, listening in H.
  apply res_bind_ok in H as (w4 & H4 & H). apply res_bind_ok in H4 as (w3 & H3 & H4).
  apply res_bind_ok in H3 as ([o w0] & H0 & H3). apply res_bind_ok in H3 as (id & Ho & H3).
  apply res_bind_ok in H3 as ([r w1] & H1 & H3). apply res_bind_ok in H3 as ([l w2] & H2 & H3). apply Ok_inj in H3 as <-.
  eapply rtc_l; [by eapply call_new|]. eapply rtc_l; [eapply call_bind; [|exact H1]|].
  { assert (tcp_bound_pcbs w0 = []) as ->; [|by intros ?%elem_of_nil].
    revert H0. clear. vm_compute. intros [= _ <-]. reflexivity. }
  eapply rtc_l; [by eapply call_listen|]. eapply rtc_l; [by eapply call_input|].
  eapply rtc_l; [by eapply call_input|]. reflexivity.
Qed.
Lemma handshake_calls w : after_handshake = Ok w -> rtc (tcp_call quiet_app true) world_init w.
Proof.
  intros H. apply res_bind_ok in H as (w1 & H1 & H). etransitivity; [by apply established_calls|].
  apply rtc_once. by eapply call_slowtmr.
Qed.

Lemma tcp_refines_machine_witness :
  match after_handshake with
  | Ok w => rtc (sstep true) (shape_of world_init) (shape_of w) /\ map state (map snd (map_to_list (w_pcbs w))) = [ESTABLISHED]
  | Err _ => False
  end.
Proof.
  destruct after_handshake as [w|] eqn:E; [|vm_compute in E; discriminate E]. split.
  - apply (tcp_refines_machine quiet_app true world_init w world_init_ok). by apply handshake_calls.
  - revert E. vm_compute. intros [= <-]. reflexivity.
Defined.
Lemma tcp_lists_axioms_witness :
  match after_handshake with
  | Ok w => length (tcp_active_pcbs w) = 1%nat /\ forall id, id ∈ tcp_active_pcbs w -> exists p, w_pcbs w !! id = Some p /\ state p <> CLOSED
  | Err _ => False
  end.
Proof.
  destruct after_handshake as [w|] eqn:E; [|vm_compute in E; discriminate E]. split.
  - revert E. vm_compute. intros [= <-]. reflexivity.
  - destruct (tcp_lists_axioms quiet_app world_init w world_init_ok (handshake_calls w E)) as (_ & _ & H & _).
    intros id Hi. destruct (H id Hi) as (p & Ep & Hs & _). exists p. exact (conj Ep Hs).
Defined.
