(* ===== verification/TcpLive.v ===== *)
(** * TCP: the slow timer ends and TIME-WAIT ends

    tcp_slowtmr starts its loop again whenever a callback has changed the list
    of active blocks. Every restart has processed one more block, so it ends;
    and when it has, no block has been in TIME-WAIT for more than 2 MSL. *)
From S2P Require Import Prelude ByteOrder IpAddr Ip Tcp TcpOut TcpIn TcpSend TcpRecv TcpWorld TcpProcess TcpTimer TcpShape TcpKeeps TcpLists TcpCalls TcpSteps TcpScenarios TcpTimerSteps.

(** ** Results that are not for want of fuel *)
Definition nofuel {A} (r : res A) : Prop := r <> Err OutOfFuel.
Lemma nofuel_ok {A} (a : A) : nofuel (Ok a). Proof. done. Qed.
Lemma nofuel_bind {A B} (r : res A) (f : A -> res B) : nofuel r -> (forall a, r = Ok a -> nofuel (f a)) -> nofuel (res_bind r f).
Proof. unfold nofuel. destruct r as [a|e]; simpl; [auto|congruence]. Qed.
Lemma nofuel_assert b : nofuel (lwip_assert b).
Proof. by destruct b. Qed.
Lemma nofuel_option {A} (o : option A) : nofuel (of_option BadAccess o).
Proof. by destruct o. Qed.
Create HintDb nofuel.
#[export] Hint Resolve nofuel_ok nofuel_assert nofuel_option : nofuel.

Lemma output_loop_nofuel l wnd : forall p e, nofuel (output_loop l wnd p e).
Proof.
  induction l as [|s l IH]; intros p e; cbn [output_loop]; [done|]. destruct in_snd_wnd; [|done].
  apply nofuel_bind; [auto with nofuel|]. intros _ _. destruct (_ && _); [done|]. by destruct (output_one _ _ _ _).
Qed.
Lemma tcp_output_nofuel p e : nofuel (tcp_output p e).
Proof.
  unfold tcp_output. apply nofuel_bind; [auto with nofuel|]. intros _ _. destruct (is_input_pcb e); [done|]. cbv zeta.
  destruct (_ && _); [done|]. apply nofuel_bind; [apply output_loop_nofuel|]. by intros [q e1] _.
Qed.
Lemma table_get_nofuel t i : nofuel (table_get t i).
Proof. unfold table_get. auto with nofuel. Qed.
Lemma slow_pcb_nofuel p e : nofuel (slow_pcb p e).
Proof.
  unfold slow_pcb. apply nofuel_bind.
  - unfold slow_send, slow_persist, slow_rexmit, slow_rto, tcp_rexmit_rto. cbv zeta.
    repeat first [ apply nofuel_bind; [first [apply tcp_output_nofuel|apply table_get_nofuel]|intros [] ?] | case_match | done
      | apply nofuel_bind; [|intros ? ?] ].
  - intros [q e1] _. cbv zeta. by destruct (slow_keepalive q e1) as [[? ?] ?].
Qed.

(** ** The processing of a block leaves its mark *)
Lemma output_last p e err p' e' : tcp_output p e = Ok (err, p', e') -> last_timer p' = last_timer p.
Proof. intros [F _ _]%output_frame_ok. frame_eq F last_timer. exact Elast_timer. Qed.
Lemma slow_pcb_last p e rm rs p' e' : slow_pcb p e = Ok (rm, rs, p', e') -> last_timer p' = last_timer p.
Proof.
  unfold slow_pcb. intros H. apply res_bind_ok in H as ([q e1] & H1 & H).
  assert (last_timer q = last_timer p) as <-.
  { unfold slow_send, slow_persist, slow_rexmit, slow_rto in H1. cbv zeta in H1.
    destruct (rexmit_exhausted p); [by apply Ok2_inj in H1 as [<- _]|]. destruct (0 <? persist_backoff p).
    - apply res_bind_ok in H1 as (b & _ & H1). destruct (b <=? _); [|by apply Ok2_inj in H1 as [<- _]].
      apply Ok_inj in H1. revert H1. unfold tcp_zero_window_probe, tcp_output_alloc_header. cbv zeta.
      repeat case_match; intros [= <- _]; simplify_eq; done.
    - set (p1 := if 0 <=? rtime p then _ else _) in H1.
      assert (last_timer p1 = last_timer p) as <- by (unfold p1; by destruct (_ <=? _)).
      destruct (_ && _); [|by apply Ok2_inj in H1 as [<- _]]. apply res_bind_ok in H1 as (p2 & H2 & H1).
      assert (last_timer p2 = last_timer p1) as <-.
      { destruct state_is; [by apply Ok_inj in H2 as <-|]. apply res_bind_ok in H2 as (b & _ & H2). by apply Ok_inj in H2 as <-. }
      unfold tcp_rexmit_rto in H1. destruct (unacked (slow_cwnd p2)); [by apply Ok2_inj in H1 as [<- _]|].
      apply res_bind_ok in H1 as ([[er p3] e3] & H3 & H1). apply Ok2_inj in H1 as [<- _]. apply output_last in H3. exact H3. }
  cbv zeta in H. destruct (slow_keepalive q e1) as [[b q2] e2] eqn:H2. apply Ok_inj in H. injection H as _ _ <- _.
  transitivity (last_timer q2). { unfold slow_ooseq. by destruct (_ && _). }
  unfold slow_keepalive, tcp_keepalive, tcp_output_alloc_header in H2. repeat case_match; simplify_eq; done.
Qed.

(** The blocks the current tick has not processed. *)
Definition stale {A} (w : tcp_world A) : gset addr :=
  dom (filter (fun x : addr * tcp_pcb => last_timer x.2 <> tcp_timer_ctr w) (w_pcbs w)).
Lemma elem_of_stale {A} (w : tcp_world A) id :
  id ∈ stale w <-> exists p, w_pcbs w !! id = Some p /\ last_timer p <> tcp_timer_ctr w.
Proof.
  unfold stale. rewrite elem_of_dom. unfold is_Some. split; intros [p Hp]; exists p; by apply map_lookup_filter_Some in Hp || apply map_lookup_filter_Some.
Qed.

(** Callbacks end, leave the tick alone, and make no block look unprocessed. *)
Class callbacks_end {A} (cb : tcp_callbacks A) : Prop := {
  ce_poll id w : nofuel (ev_poll cb id w);
  ce_err id e w : nofuel (ev_err cb id e w);
  ce_run id w r w' : callback_run cb id w r w' -> stale w' ⊆ stale w;
  ce_run_err id e w w' : ev_err cb id e w = Ok w' -> stale w' ⊆ stale w
}.

Section Live.
Context {A : Type} (cb : tcp_callbacks A) `{He : !callbacks_end cb}.
Abbreviation world := (tcp_world A).
Implicit Types (w : world) (id : addr).

Lemma get_nofuel w id : nofuel (get_pcb w id).
Proof. unfold get_pcb. auto with nofuel. Qed.
Lemma upd_nofuel id f w : nofuel (upd_pcb id f w).
Proof. unfold upd_pcb. apply nofuel_bind; [apply get_nofuel|]. done. Qed.
Lemma w_output_nofuel id w : nofuel (w_output id w).
Proof.
  unfold w_output, run_pcb. apply nofuel_bind; [apply get_nofuel|]. intros p _.
  apply nofuel_bind; [apply tcp_output_nofuel|]. by intros [[? ?] ?] _.
Qed.
Lemma get_lookup w id p : get_pcb w id = Ok p -> w_pcbs w !! id = Some p.
Proof. unfold get_pcb, of_option. destruct (w_pcbs w !! id); [by intros [= ->]|done]. Qed.

(** Writing a block with an up-to-date mark only shrinks the set. *)
Lemma stale_put id p w : (last_timer p <> tcp_timer_ctr w -> id ∈ stale w) -> stale (put_pcb id p w) ⊆ stale w.
Proof.
  intros Hp x. rewrite !elem_of_stale. intros (q & Hq & Hl). simpl in Hq, Hl.
  destruct (decide (x = id)) as [->|Hne].
  - rewrite lookup_insert_eq in Hq. injection Hq as ->. by apply elem_of_stale, Hp.
  - rewrite lookup_insert_ne in Hq by done. by exists q.
Qed.
Lemma stale_put_same id p p' w : get_pcb w id = Ok p -> last_timer p' = last_timer p -> stale (put_pcb id p' w) ⊆ stale w.
Proof. intros H%get_lookup E. apply stale_put. rewrite E. intros Hl. apply elem_of_stale. by exists p. Qed.
Lemma stale_marked id p w : last_timer p = tcp_timer_ctr w -> id ∉ stale (put_pcb id p w).
Proof.
  intros E. rewrite elem_of_stale. intros (q & Hq & Hl). simpl in Hq, Hl. rewrite lookup_insert_eq in Hq. congruence.
Qed.
Lemma stale_upd id f w w' : upd_pcb id f w = Ok w' -> (forall p, last_timer (f p) = last_timer p) -> stale w' ⊆ stale w.
Proof.
  unfold upd_pcb. intros H Hf. apply res_bind_ok in H as (p & Hp & H). apply Ok_inj in H as <-.
  by eapply stale_put_same.
Qed.
Lemma stale_free id w : stale (free_pcb id w) ⊆ stale w.
Proof.
  intros x. rewrite !elem_of_stale. intros (q & Hq & Hl). simpl in Hq, Hl.
  apply lookup_delete_Some in Hq as [_ Hq]. by exists q.
Qed.
Lemma stale_output id w r w' : w_output id w = Ok (r, w') -> stale w' ⊆ stale w.
Proof.
  unfold w_output, run_pcb. intros H. apply res_bind_ok in H as (p & Hp & H).
  apply res_bind_ok in H as ([[r1 q] e] & H1 & H). apply Ok2_inj in H as [_ <-]. apply output_last in H1.
  exact (stale_put_same id p q w Hp H1).
Qed.
Lemma purge_last p : last_timer (tcp_pcb_purge p) = last_timer p.
Proof. unfold tcp_pcb_purge. by destruct (state p). Qed.

Lemma slow_remove_end id prev rest reset w : nofuel (slow_remove cb id prev rest reset w) /\
  forall again w', slow_remove cb id prev rest reset w = Ok (again, w') -> stale w' ⊆ stale w.
Proof.
  unfold slow_remove. split.
  - apply nofuel_bind; [apply upd_nofuel|]. intros w1 _. apply nofuel_bind.
    { unfold unlink_at. destruct prev; (apply nofuel_bind; [auto with nofuel|done]). }
    intros l _. apply nofuel_bind; [apply get_nofuel|]. intros p _. apply nofuel_bind; [apply (ce_err (cb := cb))|done].
  - intros again w' H. apply res_bind_ok in H as (w1 & H1 & H). apply stale_upd in H1; [|apply purge_last].
    apply res_bind_ok in H as (l & _ & H). apply res_bind_ok in H as (p & _ & H). cbv zeta in H.
    apply res_bind_ok in H as (w4 & H4 & H). apply Ok2_inj in H as [_ <-].
    apply (ce_run_err (cb := cb)) in H4. etransitivity; [exact H4|]. etransitivity; [|exact H1].
    set (w2 := if reset then _ else _). transitivity (stale w2); [apply (stale_free id w2)|]. unfold w2. by destruct reset.
Qed.
Lemma slow_poll_end id w : nofuel (slow_poll cb id w) /\
  forall again w', slow_poll cb id w = Ok (again, w') -> stale w' ⊆ stale w.
Proof.
  unfold slow_poll. split.
  - apply nofuel_bind; [apply get_nofuel|]. intros p _. cbv zeta. destruct (_ <=? _); [|done].
    apply nofuel_bind; [apply (ce_poll (cb := cb))|]. intros [er w2] _. destruct tcp_active_pcbs_changed; [done|].
    destruct (_ =? _); [|done]. apply nofuel_bind; [apply w_output_nofuel|]. by intros [? ?] _.
  - intros again w' H. apply res_bind_ok in H as (p & Hp & H). cbv zeta in H. destruct (_ <=? _).
    + set (w1 := (put_pcb id _ w) <| tcp_active_pcbs_changed := false |>) in H.
      assert (stale (put_pcb id (p <| polltmr := 0 |>) w) ⊆ stale w) as S1 by (by apply (stale_put_same id p)).
      change (stale w1 ⊆ stale w) in S1.
      apply res_bind_ok in H as ([er w2] & H2 & H). apply (run_poll cb), (ce_run (cb := cb)) in H2.
      assert (stale w2 ⊆ stale w) as S2 by (by etransitivity).
      destruct tcp_active_pcbs_changed; [by apply Ok2_inj in H as [_ <-]|].
      destruct (_ =? _); [|by apply Ok2_inj in H as [_ <-]].
      apply res_bind_ok in H as ([e3 w3] & H3 & H). apply Ok2_inj in H as [_ <-]. apply stale_output in H3. by etransitivity.
    + apply Ok2_inj in H as [_ <-]. by apply (stale_put_same id p).
Qed.

(** A pass ends; when it asks for a restart it has processed a block. *)
Lemma slow_pass_end l : forall prev w, nofuel (slow_pass cb prev l w) /\
  forall again w', slow_pass cb prev l w = Ok (again, w') -> stale w' ⊆ stale w /\ (again = true -> stale w' ⊂ stale w).
Proof.
  induction l as [|id rest IH]; intros prev w; cbn [slow_pass].
  { split; [done|]. intros again w' H. by apply Ok2_inj in H as [<- <-]. }
  split.
  - apply nofuel_bind; [apply get_nofuel|]. intros p _. do 3 (apply nofuel_bind; [auto with nofuel|intros _ _]).
    destruct (_ =? _); [apply IH|]. apply nofuel_bind; [apply slow_pcb_nofuel|]. intros [[[rm rs] q] e] _. cbv zeta.
    destruct rm.
    + apply nofuel_bind; [apply slow_remove_end|]. intros [[] w2] _; [done|apply IH].
    + apply nofuel_bind; [apply slow_poll_end|]. intros [[] w2] _; [done|apply IH].
  - intros again w' H. apply res_bind_ok in H as (p & Hp & H). do 3 apply res_bind_ok in H as (? & _ & H).
    destruct (Z.eqb_spec (last_timer p) (tcp_timer_ctr w)) as [|Hl]; [by eapply IH|].
    apply res_bind_ok in H as ([[[rm rs] q] e] & H1 & H). apply slow_pcb_last in H1. cbv zeta in H.
    set (w1 := put_pcb id q _) in H.
    assert (stale w1 ⊂ stale w) as S1.
    { split.
      - change (stale (put_pcb id q (w <| w_env := e |>)) ⊆ stale (w <| w_env := e |>)). apply stale_put. intros Hq. apply elem_of_stale. exists p. split; [by apply get_lookup|done].
      - intros Hs. apply (stale_marked id q (w <| w_env := e |>)); [exact H1|]. apply Hs, elem_of_stale.
        exists p. split; [by apply get_lookup|done]. }
    destruct rm; apply res_bind_ok in H as ([ag w2] & H2 & H).
    + apply slow_remove_end in H2. destruct ag; [apply Ok2_inj in H as [<- <-]; split; [|intros _]; set_solver|].
      apply IH in H as [S3 S4]. split; [|intros Ha; specialize (S4 Ha)]; set_solver.
    + apply slow_poll_end in H2. destruct ag; [apply Ok2_inj in H as [<- <-]; split; [|intros _]; set_solver|].
      apply IH in H as [S3 S4]. split; [|intros Ha; specialize (S4 Ha)]; set_solver.
Qed.
Lemma slow_active_end fuel : forall w, (size (stale w) < fuel)%nat -> nofuel (slow_active cb fuel w).
Proof.
  induction fuel as [|fuel IH]; intros w Hf; [lia|]. cbn [slow_active].
  destruct (slow_pass_end (tcp_active_pcbs w) None w) as [Hn Hp]. apply nofuel_bind; [done|].
  intros [[] w1] H1; [|done]. apply Hp in H1 as [_ S1]. specialize (S1 eq_refl). apply IH. apply subset_size in S1. lia.
Qed.
Lemma stale_size w : (size (stale w) <= size (w_pcbs w))%nat.
Proof.
  unfold stale. rewrite size_dom. apply map_size_filter || (rewrite <- !size_dom; apply subseteq_size; apply dom_filter_subseteq).
Qed.

(** ** TIME-WAIT *)
Lemma slow_tw_end l : forall prev w, nofuel (slow_tw prev l w).
Proof.
  induction l as [|id rest IH]; intros prev w; cbn [slow_tw]; [done|].
  apply nofuel_bind; [apply get_nofuel|]. intros p _. apply nofuel_bind; [auto with nofuel|]. intros _ _.
  destruct (_ <? _); [|apply IH]. apply nofuel_bind; [apply upd_nofuel|]. intros w1 _. apply nofuel_bind; [|intros; apply IH].
  unfold unlink_at. destruct prev; (apply nofuel_bind; [auto with nofuel|done]).
Qed.

(** The block has been in TIME-WAIT for more than 2 MSL. *)
Definition expired (w : world) (id : addr) : bool :=
  match w_pcbs w !! id with Some p => 2 * TCP_MSL / TCP_SLOW_INTERVAL <? idle_ticks (w_env w) p | None => false end.
(** Two worlds with the same blocks but those of a list, at the same time. *)
Definition same_but (l : list addr) w w' : Prop :=
  w_env w' = w_env w /\ forall x, x ∉ l -> w_pcbs w' !! x = w_pcbs w !! x.
Lemma expired_same l w w' x : same_but l w w' -> x ∉ l -> expired w' x = expired w x.
Proof. intros [E H] Hx. unfold expired. by rewrite E, H. Qed.

Lemma slow_tw_spec l : forall prev pre w w', NoDup (pre ++ l) -> tcp_tw_pcbs w = pre ++ l -> prev = last pre ->
  slow_tw prev l w = Ok w' ->
  tcp_tw_pcbs w' = pre ++ List.filter (fun x => negb (expired w x)) l /\ same_but l w w' /\
  (forall x, x ∈ l -> w_pcbs w' !! x = if expired w x then None else w_pcbs w !! x).
Proof.
  induction l as [|id rest IH]; intros prev pre w w' Hn Ha Hp H; cbn [slow_tw] in H.
  { apply Ok_inj in H as <-. split_and!; [done|by split|]. by intros x ?%elem_of_nil. }
  assert (id ∉ rest) as Hi by (apply NoDup_app in Hn as (_ & _ & Hn); by apply NoDup_cons in Hn as [? _]).
  assert (NoDup (pre ++ rest)) as Hn'.
  { eapply sublist_NoDup; [exact Hn|]. apply sublist_app; [done|by apply sublist_cons]. }
  apply res_bind_ok in H as (p & Hg & H). apply get_lookup in Hg. apply res_bind_ok in H as (u & _ & H).
  assert (expired w id = (2 * TCP_MSL / TCP_SLOW_INTERVAL <? idle_ticks (w_env w) p)) as Ex by (unfold expired; by rewrite Hg).
  rewrite <- Ex in H. cbn [List.filter]. destruct (expired w id) eqn:Hx.
  - apply res_bind_ok in H as (w1 & H1 & H). apply res_bind_ok in H as (l & Hl & H).
    assert (w1 = put_pcb id (tcp_pcb_purge p) w) as ->.
    { unfold upd_pcb, get_pcb in H1. rewrite Hg in H1. by apply Ok_inj in H1 as <-. }
    assert (l = pre ++ rest) as ->.
    { change (tcp_tw_pcbs (put_pcb id (tcp_pcb_purge p) w)) with (tcp_tw_pcbs w) in Hl. rewrite Ha, Hp in Hl.
      by eapply unlink_at_last. }
    set (w2 := free_pcb id _) in H.
    assert (same_but [id] w w2) as S2.
    { split; [done|]. intros x Hne%not_elem_of_cons. destruct Hne as [Hne _]. unfold w2. simpl.
      by rewrite lookup_delete_ne, lookup_insert_ne. }
    apply (IH prev pre) in H as (T & S & D); [|done..]. cbn [negb].
    assert (forall x, x ∈ rest -> expired w2 x = expired w x /\ w_pcbs w2 !! x = w_pcbs w !! x) as Hs.
    { intros x Hr. assert (x ∉ [id]) as Hne by (rewrite list_elem_of_singleton; congruence).
      split; [by eapply expired_same|by apply S2]. }
    split_and!.
    + rewrite T. f_equal. apply List.filter_ext_in. intros x Hr%list_elem_of_In. by rewrite (proj1 (Hs x Hr)).
    + destruct S as [E S], S2 as [E2 S2]. split; [congruence|]. intros x [Hne Hr]%not_elem_of_cons.
      rewrite S by done. apply S2. by rewrite list_elem_of_singleton.
    + intros x [->|Hr]%elem_of_cons; [|destruct (Hs x Hr) as [<- <-]; auto].
      rewrite Hx. destruct S as [_ S]. rewrite S by done. unfold w2. simpl. apply lookup_delete_eq.
  - apply (IH (Some id) (pre ++ [id])) in H as (T & S & D); [|by rewrite <- app_assoc|by rewrite Ha, <- app_assoc|by rewrite last_snoc].
    cbn [negb]. split_and!.
    + by rewrite T, <- app_assoc.
    + destruct S as [E S]. split; [done|]. intros x [_ Hr]%not_elem_of_cons. auto.
    + intros x [->|Hr]%elem_of_cons; [|auto]. rewrite Hx. by apply S.
Qed.
End Live.

Lemma slow_tick_size {A} (w : tcp_world A) : w_pcbs (slow_tick w) = w_pcbs w.
Proof. done. Qed.

Section SlowTimer.
Context {A : Type} (cb : tcp_callbacks A) `{Hcb : !callbacks_ok cb} `{He : !callbacks_end cb}.

(** C8. Liveness of the slow timer. With fuel for one pass more than there are
    control blocks, tcp_slowtmr ends or fails, but does not run for ever, when its callbacks end, keep to
    the rules of the API ([callbacks_ok]), and neither move the tick nor make blocks look
    unprocessed ([callbacks_end]); they may add, close and abort connections. It can fail: by an assertion when a callback
    made it start again ([polling_app_slowtmr]), by a read behind the table of back-offs
    ([backoff_overread]). When it returns, the pass over the active blocks is followed by one over the
    TIME-WAIT list [tw] it left, which removes and frees exactly the blocks that
    have been there for more than 2 MSL, keeps the others in order, and touches
    nothing else. So no block stays in TIME-WAIT for ever. *)
Theorem tcp_slowtmr_correct (fuel : nat) (w : tcp_world A) : lists_ok (shape_of w) ->
  (size (w_pcbs w) < fuel)%nat ->
  tcp_slowtmr cb fuel w <> Err OutOfFuel /\
  forall w', tcp_slowtmr cb fuel w = Ok w' -> exists w1,
    slow_active cb fuel (slow_tick w) = Ok w1 /\
    tcp_tw_pcbs w' = List.filter (fun x => negb (expired w1 x)) (tcp_tw_pcbs w1) /\
    (forall x, x ∈ tcp_tw_pcbs w1 -> w_pcbs w' !! x = if expired w1 x then None else w_pcbs w1 !! x) /\
    (forall x, x ∉ tcp_tw_pcbs w1 -> w_pcbs w' !! x = w_pcbs w1 !! x) /\
    forall x, x ∈ tcp_tw_pcbs w' -> expired w' x = false.
Proof.
  intros Hok Hf. unfold tcp_slowtmr. split.
  - apply nofuel_bind; [|intros; apply slow_tw_end]. apply (slow_active_end cb).
    pose proof (stale_size (slow_tick w)) as Hs. rewrite slow_tick_size in Hs. lia.
  - intros w' H. apply res_bind_ok in H as (w1 & H1 & H). exists w1. split; [done|].
    assert (lists_ok (shape_of w1)) as Hok1 by (eapply steps_ok; [by eapply (slow_active_steps cb); [|exact H1]|done]).
    assert (NoDup (tcp_tw_pcbs w1)) as Hn by apply (lo_nodups _ Hok1).
    apply (slow_tw_spec _ None []) in H as (T & S & D); [|done..]. simpl in T.
    split_and!; [done|done|by apply S|]. intros x Hx. rewrite T, list_elem_of_In, List.filter_In, <- list_elem_of_In in Hx.
    destruct Hx as [Hx He']. apply negb_true_iff in He'. destruct S as [E _].
    unfold expired in He' |- *. rewrite E, (D x Hx). unfold expired. by destruct (w_pcbs w1 !! x) as [q|]; [rewrite He'|].
Qed.
End SlowTimer.

(** ** At a concrete run: a connection that both sides have closed *)
#[export] Instance quiet_app_end : callbacks_end quiet_app.
Proof.
  split; try done.
  - intros id w r w' H. destruct H as [? ? ? ? ? E|? ? ? ? ? E|? ? ? ? ? ? E|? ? ? ? ? E|? ? ? ? E]; by apply Ok2_inj in E as [_ <-].
  - intros id e w w' H. by apply Ok_inj in H as <-.
Qed.
(** The connection is closed here, then by the peer. *)
Definition closed_both : res world0 :=
  let! w := established in
  let! id := of_option BadAccess (hd_error (tcp_active_pcbs w)) in
  let! (_, w) := tcp_close id w in
  tcp_input quiet_app (arrival (Z.lor TCP_ACK TCP_FIN) 1001 (iss_of w) []) w.
Example closed_both_state : states closed_both = Ok [TIME_WAIT].
Proof. vm_compute. reflexivity. Qed.
Example time_wait_lasts : states (let! w := closed_both in repeat_res 240 (tcp_slowtmr quiet_app 3%nat) w) = Ok [TIME_WAIT].
Proof. vm_compute. reflexivity. Qed.
Example time_wait_ends : states (let! w := closed_both in repeat_res 241 (tcp_slowtmr quiet_app 3%nat) w) = Ok [].
Proof. vm_compute. reflexivity. Qed.

Lemma closed_both_ok w : closed_both = Ok w -> lists_ok (shape_of w).
Proof.
  intros H. apply res_bind_ok in H as (w1 & H1 & H). apply res_bind_ok in H as (id & _ & H).
  apply res_bind_ok in H as ([r w2] & H2 & H). eapply (steps_ok true); [|apply world_init_ok].
  apply (tcp_calls_steps quiet_app true); [|apply world_init_ok].
  etransitivity; [by apply established_calls|]. eapply rtc_l; [by eapply call_close|]. apply rtc_once. by eapply call_input.
Qed.

Lemma tcp_slowtmr_correct_witness :
  match closed_both with
  | Ok w => length (tcp_tw_pcbs w) = 1%nat /\ tcp_slowtmr quiet_app 3 w <> Err OutOfFuel
  | Err _ => False
  end.
Proof.
  destruct closed_both as [w|] eqn:E; [|vm_compute in E; discriminate E].
  pose proof (closed_both_ok w E) as Hok. split.
  - revert E. clear. vm_compute. intros [= <-]. reflexivity.
  - apply (tcp_slowtmr_correct quiet_app 3 w Hok). revert E. clear. vm_compute. intros [= <-]. vm_compute. repeat constructor.
Defined.
