(* ===== verification/IpFrag.v ===== *)
(** * IP fragmentation and reassembly (src/src/lwip/core/ipv4/ip_frag.c)

    A fragment is its header and the bytes behind it; the number of pbufs of
    its chain is kept because the reassembly bounds it. The list of datagrams
    in reassembly holds [ip_reassdata]; the fragments of one are the list that
    the [next_pbuf] fields of the ip_reass_helper structures form. *)
From S2P Require Import Prelude ByteOrder IpAddr.

(** ** Headers *)
Record ip_hdr := mk_iphdr {
  iph_hl : Z;       (** header length in 32-bit words *)
  iph_tos : Z;
  iph_len : Z;      (** host order, as all fields *)
  iph_id : Z;
  iph_off : Z;      (** flags and fragment offset *)
  iph_ttl : Z;
  iph_proto : Z;
  iph_src : Z;
  iph_dest : Z
}.
#[export] Instance iphdr_eta : Eta ip_hdr :=
  {| eta h := mk_iphdr (iph_hl h) (iph_tos h) (iph_len h) (iph_id h) (iph_off h) (iph_ttl h) (iph_proto h)
       (iph_src h) (iph_dest h) |}.
#[export] Instance set_iph_len : Setter iph_len := ltac:(setter).
#[export] Instance set_iph_off : Setter iph_off := ltac:(setter).
#[export] Instance set_iph_ttl : Setter iph_ttl := ltac:(setter).
#[export] Instance iphdr_eq_dec : EqDecision ip_hdr.
Proof. solve_decision. Defined.

Definition IP_HLEN : Z := 20.
Definition IP_RF : Z := 0x8000.
Definition IP_DF : Z := 0x4000.
Definition IP_MF : Z := 0x2000.
Definition IP_OFFMASK : Z := 0x1fff.

(** Configuration *)
Definition IP_REASS_MAXAGE : Z := 3.
Definition IP_REASS_MAX_PBUFS : Z := 10.
Definition MEMP_NUM_REASSDATA : Z := 4.
Definition IP_REASS_FLAG_LASTFRAG : Z := 0x01.

(** ** Reassembly: state *)

(** A queued fragment: struct ip_reass_helper, its bytes and pbufs. *)
Record frag := mk_frag { fg_start : Z; fg_end : Z; fg_data : list Z; fg_clen : Z }.
#[export] Instance frag_eq_dec : EqDecision frag.
Proof. solve_decision. Defined.

Record ip_reassdata := mk_reass {
  rd_p : list frag;
  rd_iphdr : ip_hdr;
  rd_datagram_len : Z;
  rd_flags : Z;
  rd_timer : Z
}.
#[export] Instance reass_eta : Eta ip_reassdata :=
  {| eta r := mk_reass (rd_p r) (rd_iphdr r) (rd_datagram_len r) (rd_flags r) (rd_timer r) |}.
#[export] Instance set_rd_p : Setter rd_p := ltac:(setter).
#[export] Instance set_rd_iphdr : Setter rd_iphdr := ltac:(setter).
#[export] Instance set_rd_datagram_len : Setter rd_datagram_len := ltac:(setter).
#[export] Instance set_rd_flags : Setter rd_flags := ltac:(setter).
#[export] Instance set_rd_timer : Setter rd_timer := ltac:(setter).
#[export] Instance reass_eq_dec : EqDecision ip_reassdata.
Proof. solve_decision. Defined.

(** [te_sent]: the packets given to icmp_time_exceeded, header and data. *)
Record reass_state := mk_rstate {
  reassdatagrams : list ip_reassdata;
  ip_reass_pbufcount : Z;
  te_sent : list (ip_hdr * list Z)
}.
#[export] Instance rstate_eta : Eta reass_state :=
  {| eta s := mk_rstate (reassdatagrams s) (ip_reass_pbufcount s) (te_sent s) |}.
#[export] Instance set_reassdatagrams : Setter reassdatagrams := ltac:(setter).
#[export] Instance set_ip_reass_pbufcount : Setter ip_reass_pbufcount := ltac:(setter).
#[export] Instance set_te_sent : Setter te_sent := ltac:(setter).

Definition IP_ADDRESSES_AND_ID_MATCH (a b : ip_hdr) : bool :=
  (iph_src a =? iph_src b) && (iph_dest a =? iph_dest b) && (iph_id a =? iph_id b).

Definition clens (l : list frag) : Z := fold_right (fun f n => fg_clen f + n) 0 l.

(** ** Freeing datagrams *)

(** [ip_reass_dequeue_datagram]: the entry at index [i], whose predecessor is
    at [prev]. *)
Definition ip_reass_dequeue_datagram (i : nat) (prev : option nat) (s : reass_state) : res reass_state :=
  assert! bool_decide (i = O) || bool_decide (prev <> None) in
  Ok (s <| reassdatagrams := delete i (reassdatagrams s) |>).

(** The count of freed pbufs, with its assertions. *)
Fixpoint count_freed (l : list frag) (n : Z) : res Z :=
  match l with
  | [] => Ok n
  | f :: l' => assert! n + fg_clen f <=? 0xffff in count_freed l' (n + fg_clen f)
  end.

Definition ip_reass_free_complete_datagram (i : nat) (prev : option nat) (s : reass_state) : res (Z * reass_state) :=
  assert! negb (bool_decide (prev = Some i)) in
  assert! match prev with Some q => bool_decide (S q = i) | None => true end in
  let! ipr := of_option BadAccess (reassdatagrams s !! i) in
  match rd_p ipr with
  | [] => Err BadAccess
  | f :: _ =>
      let s := if fg_start f =? 0 then s <| te_sent := te_sent s ++ [(rd_iphdr ipr, fg_data f)] |> else s in
      let! freed := count_freed (rd_p ipr) 0 in
      let! s := ip_reass_dequeue_datagram i prev s in
      assert! freed <=? ip_reass_pbufcount s in
      Ok (freed, s <| ip_reass_pbufcount := ip_reass_pbufcount s - freed |>)
  end.

(** [ip_reass_tmr]: [i] is the index of [r] and [prev] that of the last entry
    kept. *)
Fixpoint reass_tmr_loop (l : list ip_reassdata) (i : nat) (prev : option nat) (s : reass_state) : res reass_state :=
  match l with
  | [] => Ok s
  | r :: l' =>
      if 0 <? rd_timer r then
        reass_tmr_loop l' (S i) (Some i)
          (s <| reassdatagrams := <[i := r <| rd_timer := rd_timer r - 1 |>]> (reassdatagrams s) |>)
      else
        let! (_, s) := ip_reass_free_complete_datagram i prev s in
        reass_tmr_loop l' i prev s
  end.
Definition ip_reass_tmr (s : reass_state) : res reass_state := reass_tmr_loop (reassdatagrams s) O None s.

(** The search for the oldest datagram that is not the fragment's: its index
    and timer, and how many there are. *)
Fixpoint find_oldest (fraghdr : ip_hdr) (l : list ip_reassdata) (i : nat) (oldest : option (nat * Z)) (others : Z)
  : option (nat * Z) * Z :=
  match l with
  | [] => (oldest, others)
  | r :: l' =>
      if IP_ADDRESSES_AND_ID_MATCH (rd_iphdr r) fraghdr then find_oldest fraghdr l' (S i) oldest others
      else
        let older := match oldest with None => true | Some (_, t) => rd_timer r <=? t end in
        find_oldest fraghdr l' (S i) (if older then Some (i, rd_timer r) else oldest) (others + 1)
  end.
(** [prev] in the same loop: the last entry that has a successor. *)
Definition last_with_next (l : list ip_reassdata) : option nat :=
  match length l with S (S n) => Some n | _ => None end.

Fixpoint ip_reass_remove_oldest_datagram (fuel : nat) (fraghdr : ip_hdr) (needed freed : Z) (s : reass_state)
  : res (Z * reass_state) :=
  match fuel with
  | O => Err OutOfFuel
  | S fuel =>
      let '(oldest, others) := find_oldest fraghdr (reassdatagrams s) O None 0 in
      let! (freed, s) :=
        match oldest with
        | Some (i, _) =>
            let! (n, s) := ip_reass_free_complete_datagram i (last_with_next (reassdatagrams s)) s in
            Ok (freed + n, s)
        | None => Ok (freed, s)
        end in
      if (freed <? needed) && (1 <? others) then ip_reass_remove_oldest_datagram fuel fraghdr needed freed s
      else Ok (freed, s)
  end.
Definition remove_oldest (fraghdr : ip_hdr) (needed : Z) (s : reass_state) : res (Z * reass_state) :=
  ip_reass_remove_oldest_datagram (S (length (reassdatagrams s))) fraghdr needed 0 s.

(** ** Queueing a fragment *)

(** [ip_reass_enqueue_new_datagram]: the new entry is the first of the list.
    The pool is empty when MEMP_NUM_REASSDATA entries are in use. *)
Definition memp_reassdata (s : reass_state) : bool := zlen (reassdatagrams s) <? MEMP_NUM_REASSDATA.
Definition ip_reass_enqueue_new_datagram (fraghdr : ip_hdr) (clen : Z) (s : reass_state) : res (bool * reass_state) :=
  let! (ok, s) :=
    if memp_reassdata s then Ok (true, s)
    else
      let! (n, s) := remove_oldest fraghdr clen s in
      Ok ((clen <=? n) && memp_reassdata s, s) in
  if ok : bool then
    Ok (true, s <| reassdatagrams := mk_reass [] fraghdr 0 0 IP_REASS_MAXAGE :: reassdatagrams s |>)
  else Ok (false, s).

(** The loop of [ip_reass_chain_frag_into_datagram_and_validate]: the fragments
    before the new one, those behind it, and [valid]; [None] is the jump to
    freepbuf. *)
Fixpoint chain_loop (new : frag) (l : list frag) (prev : option frag) (valid : bool)
  : res (option (list frag * list frag * bool)) :=
  match l with
  | [] =>
      match prev with
      | Some pv =>
          assert! fg_end pv <=? fg_start new in
          Ok (Some ([], [], valid && (fg_end pv =? fg_start new)))
      | None => Ok (Some ([], [], valid))
      end
  | t :: l' =>
      if fg_start new <? fg_start t then
        match prev with
        | Some pv =>
            if (fg_start new <? fg_end pv) || (fg_start t <? fg_end new) then Ok None
            else Ok (Some ([], l, valid))
        | None => Ok (Some ([], l, valid))
        end
      else if fg_start new =? fg_start t then Ok None
      else if fg_start new <? fg_end t then Ok None
      else
        let valid := match prev with Some pv => valid && (fg_end pv =? fg_start t) | None => valid end in
        let! o := chain_loop new l' (Some t) valid in
        Ok (match o with
            | Some (before, after, valid) => Some (t :: before, after, valid)
            | None => None
            end)
  end.

(** No holes from [prev] on: the last fragment. *)
Fixpoint no_holes (prev : frag) (l : list frag) : option frag :=
  match l with
  | [] => Some prev
  | f :: l' => if fg_end prev =? fg_start f then no_holes f l' else None
  end.

(** The validation: are all fragments there? [new] is the fragment just
    queued. *)
Definition validate (ipr : ip_reassdata) (new : frag) (after : list frag) (valid : bool) : res bool :=
  if has_flag (rd_flags ipr) IP_REASS_FLAG_LASTFRAG && valid then
    match rd_p ipr with
    | [] => Err BadAccess
    | f :: rest =>
        if fg_start f =? 0 then
          match no_holes new after with
          | None => Ok false
          | Some last =>
              assert! negb (bool_decide (rest = [])) in
              assert! fg_end last =? rd_datagram_len ipr in
              Ok true
          end
        else Ok false
    end
  else Ok false.

(** The result: the entry with the fragment, and is it complete; [None] when
    the fragment was dropped. *)
Definition ip_reass_chain_frag_into_datagram_and_validate (ipr : ip_reassdata) (new : frag)
  : res (option (ip_reassdata * bool)) :=
  let! o := chain_loop new (rd_p ipr) None true in
  match o with
  | None => Ok None
  | Some (before, after, valid) =>
      let ipr := ipr <| rd_p := before ++ new :: after |> in
      let! valid := validate ipr new after valid in
      Ok (Some (ipr, valid))
  end.

(** ** ip_reass *)
Fixpoint find_reass (fraghdr : ip_hdr) (l : list ip_reassdata) (i : nat) : option nat :=
  match l with
  | [] => None
  | r :: l' => if IP_ADDRESSES_AND_ID_MATCH (rd_iphdr r) fraghdr then Some i else find_reass fraghdr l' (S i)
  end.

Definition frag_offset (h : ip_hdr) : Z := Z.land (iph_off h) IP_OFFMASK * 8.

(** Room for [clen] pbufs, made by dropping other datagrams if need be. *)
Definition reass_room (fraghdr : ip_hdr) (clen : Z) (s : reass_state) : res (bool * reass_state) :=
  if IP_REASS_MAX_PBUFS <? ip_reass_pbufcount s + clen then
    let! (n, s) := remove_oldest fraghdr clen s in
    Ok (negb ((n =? 0) || (IP_REASS_MAX_PBUFS <? ip_reass_pbufcount s + clen)), s)
  else Ok (true, s).

(** The entry the fragment belongs to: its index and its predecessor. *)
Definition reass_entry (fraghdr : ip_hdr) (clen : Z) (s : reass_state) : res (option nat * reass_state) :=
  match find_reass fraghdr (reassdatagrams s) O with
  | Some i =>
      let! ipr := of_option BadAccess (reassdatagrams s !! i) in
      let ipr := if (Z.land (iph_off fraghdr) IP_OFFMASK =? 0) && negb (Z.land (iph_off (rd_iphdr ipr)) IP_OFFMASK =? 0)
                 then ipr <| rd_iphdr := fraghdr |> else ipr in
      Ok (Some i, s <| reassdatagrams := <[i := ipr]> (reassdatagrams s) |>)
  | None =>
      let! (ok, s) := ip_reass_enqueue_new_datagram fraghdr clen s in
      Ok (if ok : bool then Some O else None, s)
  end.

(** The last fragment says how long the datagram is. *)
Definition note_last (fraghdr : ip_hdr) (ipr : ip_reassdata) : ip_reassdata :=
  if Z.land (iph_off fraghdr) IP_MF =? 0 then
    ipr <| rd_flags := Z.lor (rd_flags ipr) IP_REASS_FLAG_LASTFRAG |>
        <| rd_datagram_len := u16 (frag_offset fraghdr + u16 (iph_len fraghdr - iph_hl fraghdr * 4)) |>
  else ipr.

(** The datagram put together: its header, the bytes behind the header and the
    number of pbufs of the chain. *)
Definition reass_packet (ipr : ip_reassdata) : ip_hdr * list Z * Z :=
  ((rd_iphdr ipr) <| iph_len := u16 (rd_datagram_len ipr + IP_HLEN) |> <| iph_off := 0 |>,
   concat (map fg_data (rd_p ipr)), u8 (clens (rd_p ipr))).

(** [ip_reass] for a fragment with header [fraghdr], [data] behind it and
    [clen] pbufs. *)
Definition ip_reass (fraghdr : ip_hdr) (data : list Z) (clen : Z) (s : reass_state)
  : res (option (ip_hdr * list Z * Z) * reass_state) :=
  if negb (iph_hl fraghdr * 4 =? IP_HLEN) then Ok (None, s)
  else
    let offset := frag_offset fraghdr in
    let len := u16 (iph_len fraghdr - iph_hl fraghdr * 4) in
    let! (room, s) := reass_room fraghdr clen s in
    if negb room then Ok (None, s)
    else
      let! (o, s) := reass_entry fraghdr clen s in
      match o with
      | None => Ok (None, s)
      | Some i =>
          let s := s <| ip_reass_pbufcount := u16 (ip_reass_pbufcount s + clen) |> in
          let! ipr := of_option BadAccess (reassdatagrams s !! i) in
          let ipr := note_last fraghdr ipr in
          let! c := ip_reass_chain_frag_into_datagram_and_validate ipr (mk_frag offset (u16 (offset + len)) data clen) in
          match c with
          | None =>
              Ok (None, s <| reassdatagrams := <[i := ipr]> (reassdatagrams s) |>
                          <| ip_reass_pbufcount := u16 (ip_reass_pbufcount s - clen) |>)
          | Some (ipr, false) => Ok (None, s <| reassdatagrams := <[i := ipr]> (reassdatagrams s) |>)
          | Some (ipr, true) =>
              let! s := ip_reass_dequeue_datagram i (match i with O => None | S q => Some q end) s in
              let k := reass_packet ipr in
              Ok (Some k, s <| ip_reass_pbufcount := u16 (ip_reass_pbufcount s - k.2) |>)
          end
      end.

(** ** ip_frag

    The packet is a pbuf chain: the list of the bytes of its pbufs, the header
    first. [allocs] says which allocations succeed (from its end on, all do);
    the result is the fragments given to netif->output. *)
Definition next_alloc (a : list bool) : bool * list bool :=
  match a with [] => (true, []) | b :: a => (b, a) end.

(** The loop that mirrors [left] bytes of the chain into PBUF_REFs: the bytes,
    the rest of the chain from the pbuf it stopped in, and how much of that
    pbuf was used; or the error. *)
Fixpoint mirror_pbufs (p : list (list Z)) (left : Z) (a : list bool) : (err_t + list Z * list (list Z) * Z) * list bool :=
  match p with
  | [] => (inl ERR_VAL, a)
  | c :: rest =>
      let newpbuflen := if left <? zlen c then left else zlen c in
      if newpbuflen =? 0 then mirror_pbufs rest left a
      else
        let '(ok, a) := next_alloc a in
        if ok then
          let data := take (Z.to_nat newpbuflen) c in
          let left := u16 (left - newpbuflen) in
          if left =? 0 then (inr (data, p, newpbuflen), a)
          else
            let '(r, a) := mirror_pbufs rest left a in
            (match r with inl e => inl e | inr (d, p, n) => inr (data ++ d, p, n) end, a)
        else (inl ERR_MEM, a)
  end.

Fixpoint ip_frag_loop (fuel : nat) (hdr : ip_hdr) (omf mtu : Z) (p : list (list Z)) (left ofo poff : Z)
    (a : list bool) (out : list (ip_hdr * list Z)) : res (err_t * list bool * list (ip_hdr * list Z)) :=
  if left =? 0 then Ok (ERR_OK, a, out)
  else
    match fuel with
    | O => Err OutOfFuel
    | S fuel =>
        let nfb := (mtu - IP_HLEN) / 8 in
        let last := left <=? mtu - IP_HLEN in
        let tmp := Z.lor omf (Z.land IP_OFFMASK ofo) in
        let tmp := if last then tmp else Z.lor tmp IP_MF in
        let cop := if last then left else nfb * 8 in
        let '(ok, a) := next_alloc a in
        if negb ok then Ok (ERR_MEM, a, out)
        else
          match p with
          | [] => Err BadAccess
          | c :: rest =>
              assert! IP_HLEN <=? zlen c in
              match mirror_pbufs (drop (Z.to_nat poff) c :: rest) cop a with
              | (inl e, a) => Ok (e, a, out)
              | (inr (data, p, newpbuflen), a) =>
                  let iphdr := hdr <| iph_off := tmp |> <| iph_len := u16 (cop + IP_HLEN) |> in
                  ip_frag_loop fuel hdr omf mtu p (left - cop) (u16 (ofo + nfb)) newpbuflen a (out ++ [(iphdr, data)])
              end
          end
    end.

Definition ip_frag (hdr : ip_hdr) (p : list (list Z)) (mtu : Z) (a : list bool)
  : res (err_t * list bool * list (ip_hdr * list Z)) :=
  if mtu <? IP_HLEN + 8 then Ok (ERR_VAL, a, [])
  else
    let left := u16 (zlen (concat p) - IP_HLEN) in
    ip_frag_loop (Z.to_nat left) hdr (Z.land (iph_off hdr) IP_MF) mtu p left (Z.land (iph_off hdr) IP_OFFMASK) IP_HLEN a [].

(** ** What the code does in corner cases *)
Definition demo_hdr (id off len : Z) : ip_hdr := mk_iphdr 5 0 (20 + len) id off 64 17 1 2.
Definition no_reass : reass_state := mk_rstate [] 0 [].
(** The results of a sequence of arrivals: header, data and number of pbufs. *)
Fixpoint arrivals (l : list (ip_hdr * list Z * Z)) (s : reass_state) : res (list (option (ip_hdr * list Z * Z)) * reass_state) :=
  match l with
  | [] => Ok ([], s)
  | (h, d, c) :: l' =>
      let! (o, s) := ip_reass h d c s in
      let! (os, s) := arrivals l' s in
      Ok (o :: os, s)
  end.

(** Three fragments of four: the hole before the last one to arrive is not
    seen, and a datagram of 24 bytes is delivered as one of 32. *)
Example hole_delivered :
  arrivals [(demo_hdr 7 IP_MF 8, repeat 1 8, 1); (demo_hdr 7 3 8, repeat 4 8, 1); (demo_hdr 7 (IP_MF + 2) 8, repeat 3 8, 1)] no_reass
  = Ok ([None; None; Some (demo_hdr 7 0 32, repeat 1 8 ++ repeat 3 8 ++ repeat 4 8, 3)], no_reass).
Proof. vm_compute. reflexivity. Qed.

(** A fragment behind the one that was marked as the last fails an assertion. *)
Example behind_last_aborts :
  arrivals [(demo_hdr 7 IP_MF 8, repeat 1 8, 1); (demo_hdr 7 2 8, repeat 3 8, 1); (demo_hdr 7 (IP_MF + 1) 8, repeat 2 8, 1)] no_reass
    <> Err AssertFailed /\
  arrivals [(demo_hdr 7 IP_MF 8, repeat 1 8, 1); (demo_hdr 7 (IP_MF + 2) 8, repeat 3 8, 1); (demo_hdr 7 1 8, repeat 2 8, 1)] no_reass
    = Err AssertFailed.
Proof. split; vm_compute; [discriminate|reflexivity]. Qed.

(** With two datagrams in reassembly and ten pbufs queued, a fragment of the
    older one makes the code drop the newer one, whose predecessor it has not
    kept. *)
Example remove_oldest_aborts :
  arrivals (map (fun k => (demo_hdr 7 (IP_MF + k) 8, repeat 1 8, 1)) [0; 2; 4; 6; 8] ++
            map (fun k => (demo_hdr 8 (IP_MF + k) 8, repeat 1 8, 1)) [0; 2; 4; 6; 8] ++
            [(demo_hdr 7 (IP_MF + 10) 8, repeat 1 8, 1)]) no_reass = Err AssertFailed.
Proof. vm_compute. reflexivity. Qed.

(** A datagram longer than 65535 bytes is put together; its length field has
    wrapped around. *)
Example ping_of_death :
  match arrivals [(demo_hdr 7 IP_MF 65512, repeat 0 (Z.to_nat 65512), 1); (demo_hdr 7 8189 1000, repeat 0 1000%nat, 1)] no_reass with
  | Ok ([None; Some (h, data, _)], _) => iph_len h = 996 /\ zlen data = 66512
  | _ => False
  end.
Proof. vm_compute. split; reflexivity. Qed.

(** A short pbuf at the boundary of two fragments fails the assertion that is
    meant for the first pbuf, which holds the header. *)
Example short_pbuf_aborts :
  ip_frag (demo_hdr 7 0 1500) [repeat 0 1496%nat; repeat 0 10%nat; repeat 0 1000%nat] 1500 [] = Err AssertFailed.
Proof. vm_compute. reflexivity. Qed.
