(* ===== verification/IpReass.v ===== *)
(** * The reassembly queue: invariant, timer and soundness

    [reass_ok] is the invariant of the list of datagrams in reassembly; every
    arrival and every tick keeps it. A tick never fails; an arrival ends with a
    new state or with one of the assertions of the code. *)
From S2P Require Import Prelude ByteOrder IpAddr IpFrag.
From Stdlib Require Import Sorting.Sorted.

(** ** Keys *)
Definition key (h : ip_hdr) : Z * Z * Z := (iph_src h, iph_dest h, iph_id h).
Lemma match_key a b : IP_ADDRESSES_AND_ID_MATCH a b = bool_decide (key a = key b).
Proof.
  unfold IP_ADDRESSES_AND_ID_MATCH, key. destruct (bool_decide _) eqn:E.
  - apply bool_decide_eq_true in E as [= -> -> ->]. by rewrite !Z.eqb_refl.
  - apply bool_decide_eq_false in E. apply not_true_iff_false.
    intros [[-> ->]%andb_prop ->]%andb_prop || (rewrite !andb_true_iff, !Z.eqb_eq; intros [[H1 H2] H3]; congruence).
Qed.

(** ** The invariant *)
Definition starts (l : list frag) : list Z := map fg_start l.
Definition frag_ok (f : frag) : Prop := is_u16 (fg_start f) /\ is_u16 (fg_end f) /\ 1 <= fg_clen f <= 255.
Definition entry_ok (r : ip_reassdata) : Prop :=
  rd_p r <> [] /\ Forall frag_ok (rd_p r) /\ StronglySorted Z.lt (starts (rd_p r)) /\ 0 <= rd_timer r <= IP_REASS_MAXAGE.
Definition queued (l : list ip_reassdata) : Z := fold_right (fun r n => clens (rd_p r) + n) 0 l.
Definition keys (l : list ip_reassdata) : list (Z * Z * Z) := map (fun r => key (rd_iphdr r)) l.
Definition reass_ok (s : reass_state) : Prop :=
  Forall entry_ok (reassdatagrams s) /\ NoDup (keys (reassdatagrams s)) /\
  zlen (reassdatagrams s) <= MEMP_NUM_REASSDATA /\
  ip_reass_pbufcount s = queued (reassdatagrams s) /\ ip_reass_pbufcount s <= IP_REASS_MAX_PBUFS.

Lemma clens_app a b : clens (a ++ b) = clens a + clens b.
Proof. induction a as [|f a IH]; simpl; [done|]. rewrite IH. lia. Qed.
Lemma clens_nonneg l : Forall frag_ok l -> 0 <= clens l.
Proof. induction 1 as [|f l (_ & _ & ?) _ IH]; simpl; lia. Qed.
Lemma queued_app a b : queued (a ++ b) = queued a + queued b.
Proof. induction a as [|f a IH]; simpl; [done|]. rewrite IH. lia. Qed.
Lemma queued_nonneg l : Forall entry_ok l -> 0 <= queued l.
Proof. induction 1 as [|r l (_ & ? & _) _ IH]; simpl; [lia|]. pose proof (clens_nonneg (rd_p r)). naive_solver lia. Qed.
Lemma queued_split l i r : l !! i = Some r -> queued l = clens (rd_p r) + queued (delete i l).
Proof.
  revert i. induction l as [|x l IH]; intros [|i] [=]; simpl; [subst; lia|]. rewrite (IH i) by done. lia.
Qed.
Lemma queued_insert l i r r' : l !! i = Some r ->
  queued (<[i := r']> l) = queued l - clens (rd_p r) + clens (rd_p r').
Proof.
  revert i. induction l as [|x l IH]; intros [|i] [=]; simpl; [subst; lia|]. rewrite (IH i) by done. lia.
Qed.

Lemma Forall_delete {A} (P : A -> Prop) (l : list A) i : Forall P l -> Forall P (delete i l).
Proof. intros Hl. revert i. induction Hl; intros [|i]; simpl; auto. Qed.
Lemma map_delete {A B} (f : A -> B) (l : list A) i : map f (delete i l) = delete i (map f l).
Proof. revert i. induction l as [|x l IH]; intros [|i]; simpl; [done..|]. by rewrite IH. Qed.
Lemma NoDup_delete {A} (l : list A) i : NoDup l -> NoDup (delete i l).
Proof. intros H. eapply sublist_NoDup; [exact H|]. apply sublist_delete. Qed.

(** ** Freeing a datagram *)
Lemma count_freed_ok l n : Forall frag_ok l -> 0 <= n -> n + clens l <= 0xffff -> count_freed l n = Ok (n + clens l).
Proof.
  intros Hl. revert n. induction Hl as [|f l Hf Hl IH]; intros n Hn Hle; simpl in *; [f_equal; lia|].
  pose proof (clens_nonneg l Hl). destruct Hf as (_ & _ & Hc).
  rewrite (proj2 (Z.leb_le _ _)) by lia. simpl. rewrite IH by lia. f_equal. lia.
Qed.

(** The packet returned to the sender when datagram [r] is dropped. *)
Definition te_of (r : ip_reassdata) : list (ip_hdr * list Z) :=
  match rd_p r with f :: _ => if fg_start f =? 0 then [(rd_iphdr r, fg_data f)] else [] | [] => [] end.
Definition freed_at (i : nat) (r : ip_reassdata) (s : reass_state) : reass_state :=
  mk_rstate (delete i (reassdatagrams s)) (ip_reass_pbufcount s - clens (rd_p r)) (te_sent s ++ te_of r).
Definition is_prev (i : nat) (prev : option nat) : bool :=
  match prev with None => bool_decide (i = O) | Some q => bool_decide (S q = i) end.

Lemma freed_at_ok i r s : reass_ok s -> reassdatagrams s !! i = Some r -> reass_ok (freed_at i r s).
Proof.
  intros (He & Hk & Hn & Hc & Hm) Hi. unfold reass_ok, freed_at, keys; simpl.
  rewrite map_delete. pose proof (queued_split _ _ _ Hi). pose proof (length_delete (reassdatagrams s) i (mk_is_Some _ _ Hi)).
  assert (0 <= clens (rd_p r)) by (apply clens_nonneg; eapply Forall_lookup_1 in He; [|exact Hi]; apply He).
  split_and!; [by apply Forall_delete|by apply NoDup_delete|unfold zlen in *; lia|lia|lia].
Qed.

Lemma free_complete_spec i prev s r : reass_ok s -> reassdatagrams s !! i = Some r ->
  ip_reass_free_complete_datagram i prev s =
  if is_prev i prev then Ok (clens (rd_p r), freed_at i r s) else Err AssertFailed.
Proof.
  intros (He & _ & _ & Hc & Hm) Hi. pose proof (queued_split _ _ _ Hi) as Hq.
  pose proof (proj1 (Forall_lookup _ _) He i r Hi) as (Hne & Hf & _).
  pose proof (queued_nonneg _ (Forall_delete _ _ i He)) as Hq0. pose proof (clens_nonneg _ Hf) as Hc0.
  unfold ip_reass_free_complete_datagram. rewrite Hi. simpl.
  assert (Hcf : count_freed (rd_p r) 0 = Ok (clens (rd_p r)))
    by (rewrite count_freed_ok; [done..|unfold IP_REASS_MAX_PBUFS in *; lia]).
  destruct prev as [q|]; simpl.
  - destruct (decide (S q = i)) as [<-|Hqi].
    + rewrite (bool_decide_false (Some q = Some (S q))), bool_decide_true by (done || (intros [=]; lia)). simpl.
      destruct (rd_p r) as [|f l] eqn:Hp; [done|]. rewrite Hcf. simpl res_bind.
      assert (Hle : (clens (f :: l) <=? ip_reass_pbufcount s) = true) by (apply Z.leb_le; lia). simpl in Hle.
      unfold ip_reass_dequeue_datagram, freed_at, te_of. rewrite Hp.
      destruct (fg_start f =? 0); simpl; rewrite Hle; simpl; by rewrite ?app_nil_r.
    + rewrite (bool_decide_false (S q = i)) by done. unfold lwip_assert.
      destruct (negb _); [|done]. done.
  - destruct (rd_p r) as [|f l] eqn:Hp; [done|]. rewrite Hcf. simpl res_bind.
    assert (Hle : (clens (f :: l) <=? ip_reass_pbufcount s) = true) by (apply Z.leb_le; lia). simpl in Hle.
    unfold ip_reass_dequeue_datagram, freed_at, te_of. rewrite Hp.
    destruct (decide (i = O)) as [->|Hi0].
    + destruct (fg_start f =? 0); simpl; rewrite Hle; simpl; by rewrite ?app_nil_r.
    + rewrite (bool_decide_false (i = 0%nat)) by done. destruct (fg_start f =? 0); done.
Qed.

(** ** The timer *)
Definition tick (r : ip_reassdata) : ip_reassdata := r <| rd_timer := rd_timer r - 1 |>.
Definition live (r : ip_reassdata) : bool := 0 <? rd_timer r.
Definition tick_all (s : reass_state) : reass_state :=
  mk_rstate (map tick (filter live (reassdatagrams s))) (queued (filter live (reassdatagrams s)))
    (te_sent s ++ concat (map te_of (filter (fun r => negb (live r)) (reassdatagrams s)))).

Lemma tick_ok r : entry_ok r -> live r = true -> entry_ok (tick r).
Proof. intros (H1 & H2 & H3 & H4) Hl%Z.ltb_lt. unfold entry_ok, tick; simpl. split_and!; try done; lia. Qed.
Lemma queued_tick l : queued (map tick l) = queued l.
Proof. induction l as [|r l IH]; simpl; [done|]. by rewrite IH. Qed.
Lemma keys_tick l : keys (map tick l) = keys l.
Proof. unfold keys. by rewrite map_map. Qed.

Lemma reass_ok_update i r r' cnt te s : reass_ok s -> reassdatagrams s !! i = Some r -> entry_ok r' ->
  key (rd_iphdr r') = key (rd_iphdr r) -> cnt = ip_reass_pbufcount s - clens (rd_p r) + clens (rd_p r') ->
  cnt <= IP_REASS_MAX_PBUFS -> reass_ok (mk_rstate (<[i := r']> (reassdatagrams s)) cnt te).
Proof.
  intros (He & Hk & Hn & Hc & Hm) Hi Hr Hkey Hcnt Hle. unfold reass_ok, keys, zlen; simpl.
  rewrite (queued_insert _ _ _ _ Hi), length_insert. split_and!; [by apply Forall_insert| |done|lia|lia].
  rewrite list_fmap_insert, list_insert_id; [done|]. rewrite list_lookup_fmap, Hi. simpl. by rewrite Hkey.
Qed.

Lemma reass_tmr_loop_spec rest don s : reass_ok s -> reassdatagrams s = don ++ rest ->
  reass_tmr_loop rest (length don) (match length don with O => None | S q => Some q end) s =
  Ok (mk_rstate (don ++ map tick (filter live rest)) (queued (don ++ filter live rest))
        (te_sent s ++ concat (map te_of (filter (fun r => negb (live r)) rest)))).
Proof.
  revert don s. induction rest as [|r rest IH]; intros don s Hok Hs; simpl.
  { pose proof Hok as (_ & _ & _ & Hc & _). rewrite Hs in Hc. rewrite !app_nil_r in *. destruct s; simpl in *; congruence. }
  assert (Hi : reassdatagrams s !! length don = Some r) by (rewrite Hs; by apply list_lookup_middle).
  pose proof Hok as (He & _ & _ & _ & Hm). pose proof (proj1 (Forall_lookup _ _) He _ _ Hi) as Hr.
  rewrite !filter_cons. change (0 <? rd_timer r) with (live r). destruct (live r) eqn:Hl; simpl.
  - specialize (IH (don ++ [tick r])). rewrite length_app, Nat.add_1_r in IH. simpl in IH.
    rewrite IH; simpl.
    + rewrite <- !app_assoc. simpl. do 2 f_equal. by rewrite !queued_app.
    + eapply (reass_ok_update _ r); [done..|by apply tick_ok|done| |done]. simpl. lia.
    + rewrite Hs. rewrite insert_app_r_alt, Nat.sub_diag by done. simpl. by rewrite <- app_assoc.
  - rewrite (free_complete_spec _ _ _ _ Hok Hi).
    replace (is_prev _ _) with true by (destruct don; cbn; symmetry; by apply bool_decide_eq_true). simpl.
    rewrite IH; simpl; [by rewrite <- app_assoc|by apply freed_at_ok|].
    rewrite Hs. by rewrite delete_middle.
Qed.

(** A tick: every datagram in reassembly comes one second closer to its end;
    those whose time is over are dropped, and the sender is told when the
    first fragment is there. *)
Lemma ip_reass_tmr_spec s : reass_ok s -> ip_reass_tmr s = Ok (tick_all s).
Proof. intros Hok. apply (reass_tmr_loop_spec _ [] s Hok eq_refl). Qed.

Lemma queued_filter (P : ip_reassdata -> bool) l : Forall entry_ok l -> queued (filter P l) <= queued l.
Proof.
  induction 1 as [|r l (_ & Hf & _) Hl IH]; [done|]. rewrite filter_cons. pose proof (clens_nonneg _ Hf).
  destruct (P r); simpl; lia.
Qed.
Lemma tick_all_ok s : reass_ok s -> reass_ok (tick_all s).
Proof.
  intros (He & Hk & Hn & Hc & Hm). unfold reass_ok, tick_all; simpl. rewrite queued_tick, keys_tick.
  assert (Hsub : filter live (reassdatagrams s) `sublist_of` reassdatagrams s) by apply sublist_filter.
  split_and!; [| | |done|].
  - rewrite Forall_map. apply Forall_forall. intros r [Hl Hr]%list_elem_of_filter.
    apply tick_ok; [by eapply Forall_forall|by apply Is_true_true].
  - eapply sublist_NoDup; [exact Hk|]. by apply fmap_sublist.
  - unfold zlen in *. rewrite length_map. apply sublist_length in Hsub. lia.
  - pose proof (queued_filter live _ He). lia.
Qed.

(** Seconds of the timer. *)
Fixpoint ticks (n : nat) (s : reass_state) : res reass_state :=
  match n with
  | O => Ok s
  | S n => let! s := ip_reass_tmr s in ticks n s
  end.
Lemma ticks_bound n s : reass_ok s -> Forall (fun r => rd_timer r < Z.of_nat n) (reassdatagrams s) ->
  exists s', ticks n s = Ok s' /\ reassdatagrams s' = [] /\ ip_reass_pbufcount s' = 0.
Proof.
  revert s. induction n as [|n IH]; intros s Hok Ht.
  { exists s. split_and!; [done| |].
    - pose proof Hok as (He & _). destruct (reassdatagrams s) as [|r l]; [done|].
      apply Forall_cons in Ht as [Ht _]. apply Forall_cons in He as [(_ & _ & _ & ?) _]. lia.
    - pose proof Hok as (He & _ & _ & Hc & _). destruct (reassdatagrams s) as [|r l]; [done|].
      apply Forall_cons in Ht as [Ht _]. apply Forall_cons in He as [(_ & _ & _ & ?) _]. lia. }
  simpl. rewrite (ip_reass_tmr_spec _ Hok). simpl. apply IH; [by apply tick_all_ok|]. simpl.
  rewrite Forall_map. apply Forall_forall. intros r [Hl Hr]%list_elem_of_filter. simpl.
  pose proof (proj1 (Forall_forall _ _) Ht r Hr). simpl in *. lia.
Qed.

(** ** Outcomes: a value or a failed assertion *)
Definition ends {A} (P : A -> Prop) (r : res A) : Prop :=
  match r with Ok a => P a | Err e => e = AssertFailed end.
Lemma ends_bind {A B} (P : A -> Prop) (Q : B -> Prop) (r : res A) (f : A -> res B) :
  ends P r -> (forall a, P a -> ends Q (f a)) -> ends Q (res_bind r f).
Proof. destruct r; simpl; [intros H Hf; by apply Hf|done]. Qed.
Lemma ends_weaken {A} (P Q : A -> Prop) r : ends P r -> (forall a, P a -> Q a) -> ends Q r.
Proof. destruct r; simpl; auto. Qed.

(** ** Making room *)
Lemma find_oldest_spec h l i o n :
  match find_oldest h l i o n with
  | (Some (j, t), _) => o = Some (j, t) \/ exists r, (i <= j)%nat /\ l !! (j - i)%nat = Some r /\ key (rd_iphdr r) <> key h
  | (None, n') => o = None /\ n' = n
  end.
Proof.
  revert i o n. induction l as [|r l IH]; intros i o n; simpl; [destruct o as [[]|]; auto|].
  rewrite match_key. case_bool_decide as Hk.
  - specialize (IH (S i) o n). destruct (find_oldest h l (S i) o n) as [[[j t]|] n']; [|done].
    destruct IH as [|(r' & Hle & Hr & Hn)]; [by left|right].
    exists r'. split_and!; [lia| |done]. by replace (j - i)%nat with (S (j - S i)) by lia.
  - set (o' := if match o with None => true | Some (_, t) => _ end then _ else _).
    specialize (IH (S i) o' (n + 1)). destruct (find_oldest h l (S i) o' (n + 1)) as [[[j t]|] n'].
    + destruct IH as [Ho|(r' & Hle & Hr & Hn)].
      * subst o'. destruct (match o with None => true | Some (_, t) => _ end); [|by left].
        injection Ho as <- _. right. exists r. by rewrite Nat.sub_diag.
      * right. exists r'. split_and!; [lia| |done]. by replace (j - i)%nat with (S (j - S i)) by lia.
    + destruct IH as [Ho _]. subst o'. by destruct o as [[? ?]|]; [destruct (_ <=? _)|].
Qed.

(** What dropping other datagrams leaves: the queue minus some entries, none
    of them the fragment's own. *)
Definition dropped (h : ip_hdr) (s s' : reass_state) : Prop :=
  reass_ok s' /\ reassdatagrams s' `sublist_of` reassdatagrams s /\
  (forall r, r ∈ reassdatagrams s -> key (rd_iphdr r) = key h -> r ∈ reassdatagrams s') /\
  ip_reass_pbufcount s' <= ip_reass_pbufcount s.
Lemma dropped_refl h s : reass_ok s -> dropped h s s.
Proof. intros. by split_and!. Qed.
Lemma dropped_trans h s1 s2 s3 : dropped h s1 s2 -> dropped h s2 s3 -> dropped h s1 s3.
Proof. intros (H1 & H2 & H3 & H4) (H5 & H6 & H7 & H8). split_and!; [done|by etrans|auto|lia]. Qed.
Lemma freed_dropped h i r s : reass_ok s -> reassdatagrams s !! i = Some r -> key (rd_iphdr r) <> key h ->
  dropped h s (freed_at i r s).
Proof.
  intros Hok Hi Hk. split_and!; [by apply freed_at_ok|apply sublist_delete| |].
  - intros r' [j Hj]%list_elem_of_lookup Hk'. simpl. destruct (decide (j = i)) as [->|Hji]; [congruence|].
    apply list_elem_of_lookup. destruct (decide (j < i)%nat).
    + exists j. by rewrite list_lookup_delete_lt.
    + exists (pred j). rewrite list_lookup_delete_ge by lia. by replace (S (pred j)) with j by lia.
  - simpl. destruct Hok as (He & _). pose proof (proj1 (Forall_lookup _ _) He _ _ Hi) as (_ & Hf & _).
    pose proof (clens_nonneg _ Hf). lia.
Qed.

Lemma remove_oldest_loop fuel h needed freed s : reass_ok s -> (length (reassdatagrams s) < fuel)%nat ->
  ends (fun '(_, s') => dropped h s s') (ip_reass_remove_oldest_datagram fuel h needed freed s).
Proof.
  revert freed s. induction fuel as [|fuel IH]; intros freed s Hok Hf; simpl; [lia|].
  pose proof (find_oldest_spec h (reassdatagrams s) 0 None 0) as Ho.
  destruct (find_oldest h (reassdatagrams s) 0 None 0) as [[[j t]|] others].
  - destruct Ho as [[=]|(r & _ & Hr & Hk)]. rewrite Nat.sub_0_r in Hr.
    rewrite (free_complete_spec _ _ _ _ Hok Hr). destruct (is_prev _ _); [simpl|done].
    pose proof (freed_dropped h _ _ _ Hok Hr Hk) as Hd. destruct (_ && _); [|exact Hd].
    pose proof (length_delete (reassdatagrams s) j (mk_is_Some _ _ Hr)).
    pose proof (lookup_lt_Some _ _ _ Hr).
    eapply ends_weaken; [apply IH; [apply Hd|simpl; lia]|]. intros [? s'] Hd'. by eapply dropped_trans.
  - destruct Ho as [_ ->]. simpl. rewrite andb_false_r. by apply dropped_refl.
Qed.
Lemma remove_oldest_spec h needed s : reass_ok s -> ends (fun '(_, s') => dropped h s s') (remove_oldest h needed s).
Proof. intros Hok. apply remove_oldest_loop; [done|lia]. Qed.

Lemma reass_room_spec h clen s : reass_ok s ->
  ends (fun '(room, s') => dropped h s s' /\ (room = true -> ip_reass_pbufcount s' + clen <= IP_REASS_MAX_PBUFS))
    (reass_room h clen s).
Proof.
  intros Hok. unfold reass_room. destruct (IP_REASS_MAX_PBUFS <? _) eqn:E.
  - eapply ends_bind; [by apply remove_oldest_spec|]. intros [n s'] Hd. split; [done|].
    rewrite negb_true_iff, orb_false_iff, Z.ltb_ge. tauto.
  - apply Z.ltb_ge in E. split; [by apply dropped_refl|done].
Qed.


(** ** The entry of a fragment

    Between [reass_entry] and the chaining, entry [i] may have no fragments. *)
Definition entry_pre (r : ip_reassdata) : Prop :=
  Forall frag_ok (rd_p r) /\ StronglySorted Z.lt (starts (rd_p r)) /\ 0 <= rd_timer r <= IP_REASS_MAXAGE.
Definition reass_pre (i : nat) (s : reass_state) : Prop :=
  Forall entry_pre (reassdatagrams s) /\
  (forall j r, reassdatagrams s !! j = Some r -> j <> i -> rd_p r <> []) /\
  NoDup (keys (reassdatagrams s)) /\ zlen (reassdatagrams s) <= MEMP_NUM_REASSDATA /\
  ip_reass_pbufcount s = queued (reassdatagrams s).

Lemma entry_ok_pre r : entry_ok r <-> entry_pre r /\ rd_p r <> [].
Proof. unfold entry_ok, entry_pre. tauto. Qed.
Lemma reass_ok_pre i s : reass_ok s -> reass_pre i s.
Proof.
  intros (He & Hk & Hn & Hc & Hm). split_and!; [| |done..].
  - eapply Forall_impl; [exact He|]. intros r Hr. by apply entry_ok_pre in Hr as [? _].
  - intros j r Hj _. by apply (proj1 (Forall_lookup _ _) He _ _ Hj).
Qed.

Lemma reass_pre_insert i r r' cnt te s : reass_pre i s -> reassdatagrams s !! i = Some r -> entry_ok r' ->
  key (rd_iphdr r') = key (rd_iphdr r) -> cnt = ip_reass_pbufcount s - clens (rd_p r) + clens (rd_p r') ->
  cnt <= IP_REASS_MAX_PBUFS -> reass_ok (mk_rstate (<[i := r']> (reassdatagrams s)) cnt te).
Proof.
  intros (He & Hne & Hk & Hn & Hc) Hi Hr Hkey Hcnt Hle. unfold reass_ok, keys, zlen; simpl.
  rewrite (queued_insert _ _ _ _ Hi), length_insert. split_and!; [| |done|lia|done].
  - apply Forall_lookup. intros j x. rewrite list_lookup_insert_Some.
    intros [(-> & <- & _)|[Hji Hj]]; [done|]. apply entry_ok_pre. split; [|by eapply Hne].
    by apply (proj1 (Forall_lookup _ _) He _ _ Hj).
  - rewrite list_fmap_insert, list_insert_id; [done|]. rewrite list_lookup_fmap, Hi. simpl. by rewrite Hkey.
Qed.

Lemma reass_pre_delete i r s te : reass_pre i s -> reassdatagrams s !! i = Some r ->
  ip_reass_pbufcount s - clens (rd_p r) <= IP_REASS_MAX_PBUFS ->
  reass_ok (mk_rstate (delete i (reassdatagrams s)) (ip_reass_pbufcount s - clens (rd_p r)) te).
Proof.
  intros (He & Hne & Hk & Hn & Hc) Hi Hle. unfold reass_ok, keys; simpl.
  rewrite map_delete. pose proof (queued_split _ _ _ Hi).
  pose proof (length_delete (reassdatagrams s) i (mk_is_Some _ _ Hi)).
  split_and!; [|by apply NoDup_delete|unfold zlen in *; lia|lia|done].
  apply Forall_lookup. intros j x Hj. apply entry_ok_pre. destruct (decide (j < i)%nat).
  - rewrite list_lookup_delete_lt in Hj by done. split; [by apply (proj1 (Forall_lookup _ _) He _ _ Hj)|].
    eapply Hne; [done|lia].
  - rewrite list_lookup_delete_ge in Hj by lia. split; [by apply (proj1 (Forall_lookup _ _) He _ _ Hj)|].
    eapply Hne; [done|lia].
Qed.

Lemma find_reass_spec h l i :
  match find_reass h l i with
  | Some j => exists r, (i <= j)%nat /\ l !! (j - i)%nat = Some r /\ key (rd_iphdr r) = key h
  | None => Forall (fun r => key (rd_iphdr r) <> key h) l
  end.
Proof.
  revert i. induction l as [|r l IH]; intros i; simpl; [constructor|].
  rewrite match_key. case_bool_decide as Hk.
  - exists r. by rewrite Nat.sub_diag.
  - specialize (IH (S i)). destruct (find_reass h l (S i)) as [j|]; [|by constructor].
    destruct IH as (r' & Hle & Hr & Hk'). exists r'. split_and!; [lia| |done].
    by replace (j - i)%nat with (S (j - S i)) by lia.
Qed.

(** Where the fragments of the entry come from. *)
Definition entry_from (h : ip_hdr) (s : reass_state) (r : ip_reassdata) : Prop :=
  key (rd_iphdr r) = key h /\
  (rd_p r <> [] -> exists r0, r0 ∈ reassdatagrams s /\ key (rd_iphdr r0) = key h /\ rd_p r0 = rd_p r).

Lemma reass_entry_spec h clen s : reass_ok s ->
  ends (fun '(o, s') =>
          match o with
          | None => reass_ok s'
          | Some i => exists r, reassdatagrams s' !! i = Some r /\ reass_pre i s' /\ entry_from h s r /\
                        ip_reass_pbufcount s' <= ip_reass_pbufcount s
          end) (reass_entry h clen s).
Proof.
  intros Hok. unfold reass_entry. pose proof (find_reass_spec h (reassdatagrams s) 0) as Hf.
  destruct (find_reass h (reassdatagrams s) 0) as [i|].
  - destruct Hf as (r & _ & Hr & Hk). rewrite Nat.sub_0_r in Hr. rewrite Hr. simpl.
    set (r' := if _ && _ then _ else r).
    assert (Hr' : rd_p r' = rd_p r /\ key (rd_iphdr r') = key h /\ rd_timer r' = rd_timer r)
      by (unfold r'; by destruct (_ && _)).
    destruct Hr' as (Hp & Hk' & Ht). exists r'. split_and!.
    + apply list_lookup_insert_eq. by eapply lookup_lt_Some.
    + pose proof Hok as (He & _ & _ & _ & Hm). pose proof (proj1 (Forall_lookup _ _) He _ _ Hr) as Hre.
      apply reass_ok_pre. eapply (reass_ok_update _ r); [done..| |congruence|rewrite Hp; lia|done].
      unfold entry_ok in *. by rewrite Hp, Ht.
    + split; [done|]. intros _. exists r. split_and!; [by eapply list_elem_of_lookup_2|done|done].
    + simpl. lia.
  - unfold ip_reass_enqueue_new_datagram.
    eapply ends_bind.
    { apply (ends_bind (fun '(ok, s') => dropped h s s' /\ (ok = true -> zlen (reassdatagrams s') < MEMP_NUM_REASSDATA))
        (fun '(ok, s') => match ok : bool with
           | true => exists r, reassdatagrams s' !! O = Some r /\ reass_pre O s' /\ entry_from h s r /\
                        ip_reass_pbufcount s' <= ip_reass_pbufcount s
           | false => reass_ok s' end)).
      - unfold memp_reassdata. destruct (zlen _ <? _) eqn:E.
        + apply Z.ltb_lt in E. split; [by apply dropped_refl|done].
        + eapply ends_bind; [by apply remove_oldest_spec|]. intros [n s'] Hd. split; [done|].
          rewrite andb_true_iff, Z.ltb_lt. tauto.
      - intros [[] s'] [Hd Hlt]; [|by apply Hd]. specialize (Hlt eq_refl). simpl.
        eexists. split; [done|]. destruct Hd as (Hok' & Hsub & _ & Hle). split_and!; simpl; [|by split|done].
        pose proof Hok' as (He & Hk & Hn & Hc & Hm). unfold reass_pre; simpl. split_and!.
        + constructor; [split_and!; simpl; [constructor|constructor|unfold IP_REASS_MAXAGE; lia..]|].
          eapply Forall_impl; [exact He|]. intros r Hr. by apply entry_ok_pre in Hr as [? _].
        + intros [|j] r; simpl; [done|]. intros Hj _. by apply (proj1 (Forall_lookup _ _) He _ _ Hj).
        + unfold keys in *. simpl. constructor; [|done]. intros [r [Hkr Hr]]%list_elem_of_fmap.
          eapply Forall_forall in Hf; [|by eapply elem_of_sublist]. by apply Hf.
        + rewrite zlen_cons. lia.
        + lia. }
    intros [[] s'] H; exact H.
Qed.

(** ** Chaining a fragment *)

(** Every fragment starts where the one before it ends. *)
Fixpoint contiguous (l : list frag) : bool :=
  match l with
  | a :: (b :: _) as l' => (fg_end a =? fg_start b) && contiguous l'
  | _ => true
  end.
Definition prev_list (prev : option frag) : list frag := match prev with Some p => [p] | None => [] end.
(** The part of the queue the walk compares: when nothing follows, the new
    fragment too. *)
Definition walked (before after : list frag) (new : frag) : list frag :=
  match after with [] => before ++ [new] | _ => before end.

Lemma starts_sorted_cons f l : StronglySorted Z.lt (starts (f :: l)) <->
  StronglySorted Z.lt (starts l) /\ Forall (fun g => fg_start f < fg_start g) l.
Proof.
  unfold starts. simpl. split.
  - intros [Hs Hf]%StronglySorted_inv. by rewrite Forall_map in Hf.
  - intros [Hs Hf]. constructor; [done|]. by rewrite Forall_map.
Qed.
Lemma contiguous_cons a b l : contiguous (a :: b :: l) = (fg_end a =? fg_start b) && contiguous (b :: l).
Proof. done. Qed.

Lemma chain_loop_spec new l prev valid :
  (forall pv, prev = Some pv -> fg_end pv <= fg_start new) -> StronglySorted Z.lt (starts l) ->
  match chain_loop new l prev valid with
  | Ok (Some (before, after, v)) =>
      l = before ++ after /\ Forall (fun f => fg_start f < fg_start new) before /\
      Forall (fun f => fg_start new < fg_start f) after /\
      v = valid && contiguous (prev_list prev ++ walked before after new)
  | Ok None => True
  | Err _ => False
  end.
Proof.
  revert prev valid. induction l as [|t l IH]; intros prev valid Hp Hs; simpl.
  - destruct prev as [pv|]; simpl.
    + rewrite (proj2 (Z.leb_le _ _)) by (by apply Hp). simpl. by rewrite andb_true_r.
    + by rewrite andb_true_r.
  - apply starts_sorted_cons in Hs as [Hs Ht].
    assert (Hafter : fg_start new < fg_start t -> Forall (fun f => fg_start new < fg_start f) (t :: l)).
    { intros Hlt. constructor; [done|].
      eapply Forall_impl; [exact Ht|]. simpl. lia. }
    destruct (fg_start new <? fg_start t) eqn:E1.
    { apply Z.ltb_lt in E1. destruct prev as [pv|]; [destruct (_ || _); [done|]|]; simpl;
        rewrite andb_true_r; split_and!; auto. }
    destruct (fg_start new =? fg_start t) eqn:E2; [done|].
    destruct (fg_start new <? fg_end t) eqn:E3; [done|].
    apply Z.ltb_ge in E1, E3. apply Z.eqb_neq in E2.
    specialize (IH (Some t) (match prev with Some pv => valid && (fg_end pv =? fg_start t) | None => valid end)).
    destruct (chain_loop new l (Some t) _) as [[[[before after] v]|]|]; simpl.
    + destruct IH as (-> & Hb & Ha & ->); [by intros ? [= <-]|done|].
      split_and!; [done|constructor; [lia|done]|done|].
      assert (Hw : walked (t :: before) after new = t :: walked before after new) by (by destruct after).
      rewrite Hw. destruct prev as [pv|]; simpl prev_list; simpl app; [|done].
      rewrite contiguous_cons, andb_assoc. done.
    + done.
    + apply IH; [by intros ? [= <-]|done].
Qed.

Lemma no_holes_spec f l last : no_holes f l = Some last ->
  contiguous (f :: l) = true /\ exists l', f :: l = l' ++ [last].
Proof.
  revert f. induction l as [|g l IH]; intros f; [intros [= ->]; split; [done|by exists []]|].
  simpl no_holes. destruct (fg_end f =? fg_start g) eqn:E; [|done].
  intros [Hc [l' Hl]]%IH. rewrite contiguous_cons, E, Hc. split; [done|].
  exists (f :: l'). by rewrite Hl.
Qed.

(** What the validation has seen of a queue that it calls complete. *)
Definition complete (before : list frag) (new : frag) (after : list frag) (total : Z) : Prop :=
  (exists f l, before ++ new :: after = f :: l /\ l <> [] /\ fg_start f = 0) /\
  (exists l last, new :: after = l ++ [last] /\ fg_end last = total) /\
  contiguous (new :: after) = true /\ contiguous (walked before after new) = true.

Lemma sorted_middle before new after : StronglySorted Z.lt (starts (before ++ after)) ->
  Forall (fun f => fg_start f < fg_start new) before -> Forall (fun f => fg_start new < fg_start f) after ->
  StronglySorted Z.lt (starts (before ++ new :: after)).
Proof.
  intros Hs Hb Ha. induction before as [|f l IH].
  - by apply starts_sorted_cons.
  - apply starts_sorted_cons in Hs as [Hs Hf]. apply Forall_cons in Hb as [Hlt Hb].
    apply starts_sorted_cons. split; [by apply IH|].
    apply Forall_app in Hf as [Hf1 Hf2]. apply Forall_app. split; [done|]. by constructor.
Qed.

Lemma chain_spec ipr new : frag_ok new -> entry_pre ipr ->
  ends (fun c =>
          match c with
          | None => rd_p ipr <> []
          | Some (ipr', b) => exists before after,
              rd_p ipr = before ++ after /\ ipr' = ipr <| rd_p := before ++ new :: after |> /\ entry_ok ipr' /\
              (b = true -> complete before new after (rd_datagram_len ipr))
          end) (ip_reass_chain_frag_into_datagram_and_validate ipr new).
Proof.
  intros Hn (Hf & Hs & Ht). unfold ip_reass_chain_frag_into_datagram_and_validate.
  pose proof (chain_loop_spec new (rd_p ipr) None true) as Hc.
  destruct (chain_loop new (rd_p ipr) None true) as [[[[before after] v]|]|] eqn:E; simpl.
  3: { exfalso. by apply Hc. }
  2: { intros Hnil. rewrite Hnil in E. done. }
  destruct Hc as (Hl & Hb & Ha & Hv); [done..|]. simpl in Hv.
  assert (Hok : entry_ok (ipr <| rd_p := before ++ new :: after |>)).
  { unfold entry_ok; simpl. split_and!; [by destruct before| | |apply Ht|apply Ht].
    - rewrite Hl in Hf. apply Forall_app in Hf as [? ?]. apply Forall_app; split; [done|by constructor].
    - apply sorted_middle; congruence. }
  eapply (ends_bind (fun b => b = true -> complete before new after (rd_datagram_len ipr))).
  - unfold validate. simpl. destruct (has_flag _ _ && v) eqn:Ev; [|done]. apply andb_prop in Ev as [_ ->].
    destruct (before ++ new :: after) as [|f rest] eqn:Er; [by destruct before|].
    destruct (fg_start f =? 0) eqn:Ef; [|done]. destruct (no_holes new after) as [last|] eqn:El; [|done].
    apply no_holes_spec in El as [Hc [l' Hl']]. unfold lwip_assert. simpl.
    destruct (bool_decide_reflect (rest = [])) as [|Hr]; [done|]. simpl.
    destruct (fg_end last =? rd_datagram_len ipr) eqn:Ee; [simpl|done]. intros _.
    split_and!; [exists f, rest; split_and!; [done|done|by apply Z.eqb_eq]| |done|done].
    exists l', last. split; [done|by apply Z.eqb_eq].
  - intros b Hb'. simpl. exists before, after. by split_and!.
Qed.

(** ** An arrival *)
Definition new_frag (h : ip_hdr) (data : list Z) (clen : Z) : frag :=
  mk_frag (frag_offset h) (u16 (frag_offset h + u16 (iph_len h - iph_hl h * 4))) data clen.

(** A datagram handed up: the fragments of its entry and the one that just
    arrived, complete as far as the validation looks. *)
Definition delivered (h : ip_hdr) (data : list Z) (clen : Z) (s : reass_state) (k : ip_hdr * list Z * Z) : Prop :=
  exists r before after total,
    r ∈ reassdatagrams s /\ key (rd_iphdr r) = key h /\ rd_p r = before ++ after /\
    complete before (new_frag h data clen) after total /\
    key k.1.1 = key h /\ iph_off k.1.1 = 0 /\ iph_len k.1.1 = u16 (total + IP_HLEN) /\
    k.1.2 = concat (map fg_data (before ++ new_frag h data clen :: after)) /\
    k.2 = clens before + clen + clens after.

Lemma new_frag_ok h data clen : 1 <= clen <= 255 -> frag_ok (new_frag h data clen).
Proof.
  intros Hc. unfold frag_ok, new_frag, frag_offset; simpl. split_and!; [|apply is_u16_u16|lia|lia].
  change IP_OFFMASK with (2 ^ 13 - 1). rewrite land_mask by done. mlia.
Qed.
Lemma note_last_spec h r : rd_p (note_last h r) = rd_p r /\ rd_iphdr (note_last h r) = rd_iphdr r /\ rd_timer (note_last h r) = rd_timer r.
Proof. unfold note_last. by destruct (_ =? 0). Qed.

Lemma ip_reass_dequeue_spec i s :
  ip_reass_dequeue_datagram i (match i with O => None | S q => Some q end) s =
  Ok (s <| reassdatagrams := delete i (reassdatagrams s) |>).
Proof. by destruct i. Qed.

Lemma ip_reass_entry_spec h data clen i r s s0 : 1 <= clen <= 255 -> reassdatagrams s !! i = Some r -> reass_pre i s ->
  entry_from h s0 r -> ip_reass_pbufcount s + clen <= IP_REASS_MAX_PBUFS ->
  ends (fun '(o, s') => reass_ok s' /\ forall k, o = Some k -> delivered h data clen s0 k)
    (let s := s <| ip_reass_pbufcount := u16 (ip_reass_pbufcount s + clen) |> in
     let! ipr := of_option BadAccess (reassdatagrams s !! i) in
     let ipr := note_last h ipr in
     let! c := ip_reass_chain_frag_into_datagram_and_validate ipr (new_frag h data clen) in
     match c with
     | None =>
         Ok (None, s <| reassdatagrams := <[i := ipr]> (reassdatagrams s) |>
                     <| ip_reass_pbufcount := u16 (ip_reass_pbufcount s - clen) |>)
     | Some (ipr, false) => Ok (None, s <| reassdatagrams := <[i := ipr]> (reassdatagrams s) |>)
     | Some (ipr, true) =>
         let! s := ip_reass_dequeue_datagram i (match i with O => None | S q => Some q end) s in
         let k := reass_packet ipr in
         Ok (Some k, s <| ip_reass_pbufcount := u16 (ip_reass_pbufcount s - k.2) |>)
     end).
Proof.
  intros Hcl Hi Hpre [Hkey Hfrom] Hroom. cbv zeta. simpl. rewrite Hi. simpl.
  destruct (note_last_spec h r) as (Hp & Hh & Ht).
  pose proof Hpre as (He & Hne & _ & _ & Hc). pose proof (proj1 (Forall_lookup _ _) He _ _ Hi) as Hr.
  assert (Hcnt : clens (rd_p r) <= ip_reass_pbufcount s /\ 0 <= clens (rd_p r)).
  { rewrite Hc, (queued_split _ _ _ Hi). split; [|apply clens_nonneg, Hr].
    enough (0 <= queued (delete i (reassdatagrams s))) by lia.
    assert (Hd : Forall (fun r => Forall frag_ok (rd_p r)) (delete i (reassdatagrams s))).
    { apply Forall_delete. eapply Forall_impl; [exact He|]. intros x Hx. apply Hx. }
    induction Hd as [|x l Hx Hl IH]; simpl; [lia|]. pose proof (clens_nonneg _ Hx). lia. }
  unfold IP_REASS_MAX_PBUFS in *.
  assert (Hu : u16 (ip_reass_pbufcount s + clen) = ip_reass_pbufcount s + clen) by (apply u16_id; lia).
  rewrite Hu. eapply ends_bind.
  { apply chain_spec; [by apply new_frag_ok|]. unfold entry_pre in *. by rewrite Hp, Ht. }
  rewrite Hp. intros [[ipr b]|]; simpl.
  - intros (before & after & Hl & -> & Hok & Hcomp).
    assert (Hnew : clens (before ++ new_frag h data clen :: after) = clens before + clen + clens after)
      by (rewrite clens_app; simpl; lia).
    assert (Hold : clens (rd_p r) = clens before + clens after) by (by rewrite Hl, clens_app).
    destruct b.
    + rewrite ip_reass_dequeue_spec. simpl. rewrite Hnew. unfold u8. rewrite Z.mod_small by lia.
      rewrite u16_id by lia. replace (_ + clen - _) with (ip_reass_pbufcount s - clens (rd_p r)) by lia.
      split; [apply reass_pre_delete; [done..|unfold IP_REASS_MAX_PBUFS; lia]|].
      intros k [= <-]. specialize (Hcomp eq_refl).
      destruct Hfrom as (r0 & Hr0 & Hk0 & Hp0).
      { intros Hnil. rewrite Hl in Hnil. apply app_eq_nil in Hnil as [-> ->].
        destruct Hcomp as ((f & l & Hfl & Hl0 & _) & _). simpl in Hfl. injection Hfl as <- <-. done. }
      exists r0, before, after, (rd_datagram_len (note_last h r)). simpl. rewrite Hh. split_and!; [done|done|congruence|done|exact Hkey|done|done|done|].
      unfold u8. rewrite Hnew. apply Z.mod_small. lia.
    + simpl. split; [|done]. eapply reass_pre_insert; [done..| | |unfold IP_REASS_MAX_PBUFS; lia]; simpl.
      * by rewrite Hh.
      * lia.
  - intros Hnn. split; [|done]. rewrite u16_id by lia.
    eapply reass_pre_insert; [done..| | | |unfold IP_REASS_MAX_PBUFS; lia].
    + apply entry_ok_pre. unfold entry_pre in *. by rewrite Hp, Ht.
    + by rewrite Hh.
    + rewrite Hp. lia.
Qed.

(** C10. Reassembly keeps its queue well-formed, whatever arrives: at most ten
    pbufs and four datagrams are held, the count of pbufs is right, no two
    entries are of the same datagram, and the fragments of an entry are in
    strictly increasing order without duplicates. An arrival never
    dereferences a bad pointer and never runs on: it fails at most by an
    assertion. A datagram that is handed up is made of the fragments of its
    entry and the new one; the first starts at offset 0, the last ends where
    the datagram does, and there is no hole except, at most, directly before
    the fragment that arrived last. *)
Theorem ip_reass_correct h data clen s : reass_ok s -> 1 <= clen <= 255 ->
  match ip_reass h data clen s with
  | Ok (o, s') => reass_ok s' /\ forall k, o = Some k -> delivered h data clen s k
  | Err e => e = AssertFailed
  end.
Proof.
  intros Hok Hcl. change (ends (fun '(o, s') => reass_ok s' /\ forall k, o = Some k -> delivered h data clen s k)
    (ip_reass h data clen s)). unfold ip_reass. destruct (negb _); [done|].
  eapply ends_bind; [by apply reass_room_spec|]. intros [room s1] [(Hok1 & Hsub & _ & Hle1) Hroom].
  destruct room; [|done]. specialize (Hroom eq_refl). simpl negb. cbn iota.
  eapply ends_bind; [by apply reass_entry_spec|]. intros [[i|] s2]; [|done].
  intros (r & Hr & Hpre & [Hk Hfrom] & Hle2). apply (ip_reass_entry_spec h data clen i r s2 s); [done..| |lia].
  split; [done|]. intros Hne. destruct (Hfrom Hne) as (r0 & Hr0 & ?). exists r0. split; [|done].
  by eapply elem_of_sublist.
Qed.

(** A queue with one fragment of each of two datagrams; the second of the
    first comes in. *)
Definition demo_reass : reass_state :=
  mk_rstate [mk_reass [mk_frag 0 8 (repeat 5 8) 1] (demo_hdr 8 IP_MF 8) 0 0 2;
             mk_reass [mk_frag 0 8 (repeat 1 8) 2] (demo_hdr 7 IP_MF 8) 0 0 3] 3 [].
Lemma demo_reass_ok : reass_ok demo_reass.
Proof.
  unfold reass_ok, demo_reass, keys, zlen; simpl. split_and!; [|by apply (bool_decide_unpack _); vm_compute|unfold MEMP_NUM_REASSDATA; lia|done|unfold IP_REASS_MAX_PBUFS; lia].
  repeat constructor; simpl; try done; unfold IP_REASS_MAXAGE; try lia.
Qed.
Lemma ip_reass_correct_witness :
  exists h s', ip_reass (demo_hdr 7 1 5) (repeat 2 5) 1 demo_reass = Ok (Some (h, repeat 1 8 ++ repeat 2 5, 3), s') /\
    reass_ok s' /\ delivered (demo_hdr 7 1 5) (repeat 2 5) 1 demo_reass (h, repeat 1 8 ++ repeat 2 5, 3).
Proof.
  pose proof (ip_reass_correct (demo_hdr 7 1 5) (repeat 2 5) 1 demo_reass demo_reass_ok ltac:(lia)) as H.
  destruct (ip_reass _ _ _ _) as [[o s']|] eqn:E; [|by vm_compute in E].
  vm_compute in E. injection E as <- <-. destruct H as [Hok Hd].
  eexists _, _. split; [reflexivity|]. split; [exact Hok|]. apply Hd. reflexivity.
Defined.

(** C37. The reassembly timer never fails. A tick takes one second from every
    datagram in reassembly, drops exactly those whose time is over (telling
    the sender when the first fragment had come) and keeps the queue
    well-formed; four ticks without arrivals empty it. *)
Theorem ip_reass_tmr_correct s : reass_ok s ->
  ip_reass_tmr s = Ok (tick_all s) /\ reass_ok (tick_all s) /\
  exists s', ticks (Z.to_nat (IP_REASS_MAXAGE + 1)) s = Ok s' /\ reassdatagrams s' = [] /\ ip_reass_pbufcount s' = 0.
Proof.
  intros Hok. split_and!; [by apply ip_reass_tmr_spec|by apply tick_all_ok|].
  apply ticks_bound; [done|]. pose proof Hok as (He & _). eapply Forall_impl; [exact He|].
  intros r (_ & _ & _ & Ht). unfold IP_REASS_MAXAGE in *. lia.
Qed.
Lemma ip_reass_tmr_correct_witness :
  ip_reass_tmr demo_reass = Ok (tick_all demo_reass) /\ exists s', ticks 4 demo_reass = Ok s' /\ zlen (te_sent s') = 2.
Proof.
  destruct (ip_reass_tmr_correct demo_reass demo_reass_ok) as (H & _ & s' & Ht & _). split; [exact H|].
  exists s'. split; [exact Ht|]. vm_compute in Ht. injection Ht as <-. reflexivity.
Defined.
