(* ===== verification/IpFragRound.v ===== *)
(** * Fragments put together again

    What [ip_frag] sends for a packet, and that [ip_reass] makes the packet of
    it again, in whatever order the fragments arrive as long as no arrival
    runs into the unchecked hole before the newest fragment. *)
From S2P Require Import Prelude ByteOrder IpAddr IpFrag IpReass.
From Stdlib Require Import Sorting.Sorted.

(** ** Pieces of a datagram *)

(** A fragment on the wire: header, data, and the pbufs it arrives in. *)
Abbreviation piece := (ip_hdr * list Z * Z)%type.
Definition pf (x : piece) : frag := new_frag x.1.1 x.1.2 x.2.
Definition pstart (x : piece) : Z := fg_start (pf x).
Definition pend (x : piece) : Z := fg_end (pf x).
Definition sum_clen (l : list piece) : Z := clens (map pf l).
Definition more (x : piece) : bool := negb (Z.land (iph_off x.1.1) IP_MF =? 0).

(** The pieces of one datagram of [total] bytes behind its header, in the
    order of their offsets. *)
Record pieces_of (k : Z * Z * Z) (total : Z) (first last : piece) (ps : list piece) : Prop := {
  ps_shape : exists mid, ps = first :: mid ++ [last];
  ps_ok : Forall (fun x => iph_hl x.1.1 = 5 /\ key x.1.1 = k /\ 1 <= x.2 /\ pstart x < pend x) ps;
  ps_cont : contiguous (map pf ps) = true;
  ps_start : pstart first = 0;
  ps_end : pend last = total;
  ps_more : Forall (fun x => more x = true) (removelast ps);
  ps_last : more last = false
}.

(** An order of arrival in which the code does not see a datagram as complete
    before it is: whenever [x] comes and others are still to come, one of
    these is behind [x], or is the first, or leaves a hole among the fragments
    before [x] that the code compares. *)
Definition timely (pre : list piece) (x : piece) (post : list piece) : Prop :=
  post <> [] ->
    (exists g, g ∈ post /\ pstart x < pstart g) \/
    (exists g, g ∈ post /\ pstart g = 0) \/
    (exists g g', g ∈ post /\ g' ∈ pre /\ pstart g < pstart g' /\ pstart g' < pstart x).
Definition no_early (order : list piece) : Prop :=
  forall pre x post, order = pre ++ x :: post -> timely pre x post.

(** ** Contiguous fragments *)
Definition spans (l : list frag) : Prop := Forall (fun f => fg_start f < fg_end f) l.

Lemma contiguous_app a b : contiguous (a ++ b) = true -> contiguous a = true /\ contiguous b = true.
Proof.
  induction a as [|f a IH]; [done|]. destruct a as [|g a]; simpl app.
  - destruct b as [|g b]; [done|]. rewrite contiguous_cons. intros [_ ?]%andb_prop. done.
  - rewrite !contiguous_cons. intros [-> H]%andb_prop. simpl. by apply IH.
Qed.

(** Contiguous fragments start in increasing order and do not overlap. *)
Lemma contiguous_after f l : contiguous (f :: l) = true -> spans (f :: l) -> Forall (fun g => fg_end f <= fg_start g) l.
Proof.
  revert f. induction l as [|g l IH]; intros f; [constructor|]. rewrite contiguous_cons.
  intros [He%Z.eqb_eq Hc]%andb_prop [Hf Hs]%Forall_cons. constructor; [lia|].
  pose proof (IH g Hc Hs) as Hl. apply Forall_cons in Hs as [Hg _].
  eapply Forall_impl; [exact Hl|]. simpl. lia.
Qed.
Lemma contiguous_sorted l : contiguous l = true -> spans l -> StronglySorted Z.lt (starts l).
Proof.
  induction l as [|f l IH]; intros Hc Hs; [constructor|].
  pose proof (contiguous_after _ _ Hc Hs) as Ha. apply Forall_cons in Hs as [Hf Hs].
  apply starts_sorted_cons. split.
  - apply IH; [|done]. by apply (contiguous_app [f] l) in Hc as [_ ?].
  - eapply Forall_impl; [exact Ha|]. simpl. lia.
Qed.
Lemma contiguous_apart l f g : contiguous l = true -> spans l -> f ∈ l -> g ∈ l ->
  fg_start f < fg_start g -> fg_end f <= fg_start g.
Proof.
  induction l as [|x l IH]; intros Hc Hs; [by intros ?%not_elem_of_nil|].
  pose proof (contiguous_after _ _ Hc Hs) as Ha. apply (contiguous_app [x] l) in Hc as [_ Hc].
  apply Forall_cons in Hs as [Hx Hs]. rewrite Forall_forall in Ha.
  intros [->|Hf]%elem_of_cons [->|Hg]%elem_of_cons Hlt; [lia|by apply Ha| |by apply IH].
  apply Ha in Hf. lia.
Qed.
(** A contiguous run covers everything from its start to its end. *)
Lemma contiguous_covers f l z v : contiguous (f :: l) = true -> z ∈ f :: l ->
  fg_start f <= v < fg_end z -> exists g, g ∈ f :: l /\ fg_start g <= v < fg_end g.
Proof.
  revert f. induction l as [|g l IH]; intros f Hc Hz Hv.
  - apply list_elem_of_singleton in Hz as ->. exists f. split; [left|done].
  - destruct (decide (v < fg_end f)); [exists f; split; [left|lia]|].
    rewrite contiguous_cons in Hc. apply andb_prop in Hc as [He%Z.eqb_eq Hc].
    apply elem_of_cons in Hz as [->|Hz]; [lia|].
    destruct (IH g Hc Hz) as (x & Hx & Hxv); [lia|]. exists x. split; [by right|done].
Qed.

Lemma sorted_perm_eq l k : l ≡ₚ k -> StronglySorted Z.lt (starts l) -> StronglySorted Z.lt (starts k) -> l = k.
Proof.
  revert k. induction l as [|f l IH]; intros k Hp Hl Hk; [by apply Permutation_nil_l in Hp|].
  destruct k as [|g k]; [by apply Permutation_nil_r in Hp|].
  apply starts_sorted_cons in Hl as [Hl Hf]. apply starts_sorted_cons in Hk as [Hk Hg].
  assert (f = g) as ->.
  { assert (Hfk : f ∈ g :: k) by (rewrite <- Hp; left). assert (Hgl : g ∈ f :: l) by (rewrite Hp; left).
    rewrite Forall_forall in Hf, Hg.
    apply elem_of_cons in Hfk as [->|Hfk]; [done|]. apply elem_of_cons in Hgl as [->|Hgl]; [done|].
    apply Hg in Hfk. apply Hf in Hgl. lia. }
  f_equal. apply IH; [|done..]. by apply Permutation_cons_inv in Hp.
Qed.

(** A fragment that overlaps no other is not dropped. *)
Definition clear_of (new t : frag) : Prop :=
  fg_start new <> fg_start t /\ (fg_start new < fg_start t -> fg_end new <= fg_start t) /\
  (fg_start t < fg_start new -> fg_end t <= fg_start new).
Lemma chain_loop_some new l prev valid : Forall (clear_of new) l ->
  (forall pv, prev = Some pv -> fg_end pv <= fg_start new) -> chain_loop new l prev valid <> Ok None.
Proof.
  intros Hl. revert prev valid. induction Hl as [|t l (Hne & Hlt & Hgt) Hl IH]; intros prev valid Hp; simpl.
  - destruct prev as [pv|]; [|done]. rewrite (proj2 (Z.leb_le _ _)) by (by apply Hp). done.
  - destruct (Z.ltb_spec (fg_start new) (fg_start t)) as [H1|H1].
    + destruct prev as [pv|]; [|done]. specialize (Hp _ eq_refl). specialize (Hlt H1).
      rewrite (proj2 (Z.ltb_ge (fg_start new) (fg_end pv))), (proj2 (Z.ltb_ge (fg_start t) (fg_end new))) by lia. done.
    + rewrite (proj2 (Z.eqb_neq _ _)) by done. specialize (Hgt ltac:(lia)).
      rewrite (proj2 (Z.ltb_ge _ _)) by lia.
      specialize (IH (Some t) (match prev with Some pv => valid && (fg_end pv =? fg_start t) | None => valid end)
        ltac:(intros ? [= <-]; done)).
      destruct (chain_loop new l (Some t) _) as [[[[? ?] ?]|]|]; done.
Qed.

Lemma chain_new new l : StronglySorted Z.lt (starts l) -> Forall (clear_of new) l ->
  exists before after, chain_loop new l None true = Ok (Some (before, after, contiguous (walked before after new))) /\
    l = before ++ after /\ StronglySorted Z.lt (starts (before ++ new :: after)) /\
    Forall (fun f => fg_start f < fg_start new) before /\ Forall (fun f => fg_start new < fg_start f) after.
Proof.
  intros Hs Hl. pose proof (chain_loop_spec new l None true ltac:(done) Hs) as Hc.
  pose proof (chain_loop_some new l None true Hl ltac:(done)) as Hn.
  destruct (chain_loop new l None true) as [[[[before after] v]|]|]; [|done..].
  destruct Hc as (-> & Hb & Ha & ->). exists before, after. split_and!; try done. by apply sorted_middle.
Qed.

Lemma starts_before_last l z f : StronglySorted Z.lt (starts (l ++ [z])) -> f ∈ l -> fg_start f < fg_start z.
Proof.
  induction l as [|g l IH]; [by intros _ ?%not_elem_of_nil|]. simpl app. rewrite starts_sorted_cons.
  intros [Hs Hg] [->|Hf]%elem_of_cons; [|by apply IH]. apply Forall_app in Hg as [_ Hg]. by apply Forall_cons in Hg as [? _].
Qed.

Lemma no_holes_contiguous f l : contiguous (f :: l) = true -> exists last, no_holes f l = Some last.
Proof.
  revert f. induction l as [|g l IH]; intros f; [by exists f|]. rewrite contiguous_cons. simpl.
  intros [-> Hc]%andb_prop. by apply IH.
Qed.

Lemma map_inj_on {A B} (f : A -> B) (l : list A) x y : NoDup (map f l) -> x ∈ l -> y ∈ l -> f x = f y -> x = y.
Proof.
  induction l as [|a l IH]; [by intros _ ?%not_elem_of_nil|]. simpl. intros [Ha Hn]%NoDup_cons.
  intros [->|Hx]%elem_of_cons [->|Hy]%elem_of_cons He; [done| | |by apply IH].
  - exfalso. apply Ha. rewrite He. by apply list_elem_of_fmap_2.
  - exfalso. apply Ha. rewrite <- He. by apply list_elem_of_fmap_2.
Qed.
Lemma sorted_lt_NoDup l : StronglySorted Z.lt l -> NoDup l.
Proof.
  induction 1 as [|x l Hs IH Hx]; constructor; [|done]. intros Hin. rewrite Forall_forall in Hx. apply Hx in Hin. lia.
Qed.

(** An arrival that finds room and an entry. *)
Lemma ip_reass_steps h d c st s1 i r o : iph_hl h = 5 -> ip_reass_pbufcount st + c <= IP_REASS_MAX_PBUFS ->
  reass_entry h c st = Ok (Some i, s1) -> reassdatagrams s1 !! i = Some r ->
  ip_reass_chain_frag_into_datagram_and_validate (note_last h r) (new_frag h d c) = Ok (Some o) ->
  0 <= ip_reass_pbufcount s1 + c < 65536 ->
  ip_reass h d c st =
  if o.2 then Ok (Some (reass_packet o.1), mk_rstate (delete i (reassdatagrams s1))
                    (u16 (ip_reass_pbufcount s1 + c - (reass_packet o.1).2)) (te_sent s1))
  else Ok (None, mk_rstate (<[i := o.1]> (reassdatagrams s1)) (ip_reass_pbufcount s1 + c) (te_sent s1)).
Proof.
  intros Hh Hroom He Hr Hc Hcnt. unfold ip_reass, reass_room. rewrite Hh, (proj2 (Z.ltb_ge _ _)) by done.
  simpl negb. cbn iota. cbn [res_bind negb]. rewrite He. cbn [res_bind]. rewrite u16_id by done.
  simpl reassdatagrams. rewrite Hr. cbn [of_option res_bind]. unfold new_frag in Hc. rewrite Hh in Hc. rewrite Hc.
  cbn [res_bind]. destruct o as [r' []]; [|done]. rewrite ip_reass_dequeue_spec. done.
Qed.

(** ** One arrival of a piece *)
Section Pieces.
Context (k : Z * Z * Z) (total : Z) (first last : piece) (ps : list piece) (Hps : pieces_of k total first last ps).

Lemma ps_spans : spans (map pf ps).
Proof. unfold spans. rewrite Forall_map. eapply Forall_impl; [apply Hps|]. intros x (_ & _ & _ & H). exact H. Qed.
Lemma pstart_lt x : x ∈ ps -> fg_start (pf x) < fg_end (pf x).
Proof.
  intros Hx. pose proof ps_spans as Hsp. unfold spans in Hsp. rewrite Forall_map, Forall_forall in Hsp. by apply Hsp.
Qed.
Lemma ps_sorted : StronglySorted Z.lt (starts (map pf ps)).
Proof. apply contiguous_sorted; [apply Hps|apply ps_spans]. Qed.
Lemma pstart_inj x y : x ∈ ps -> y ∈ ps -> pstart x = pstart y -> x = y.
Proof.
  apply map_inj_on. pose proof (sorted_lt_NoDup _ ps_sorted) as Hn. unfold starts in Hn. by rewrite map_map in Hn.
Qed.
Lemma first_in : first ∈ ps.
Proof. destruct (ps_shape _ _ _ _ _ Hps) as [mid ->]. left. Qed.
Lemma last_in : last ∈ ps.
Proof.
  destruct (ps_shape _ _ _ _ _ Hps) as [mid ->]. right. apply elem_of_app. right. left.
Qed.
Lemma first_last : first <> last.
Proof.
  destruct (ps_shape _ _ _ _ _ Hps) as [mid He]. pose proof ps_sorted as Hs. rewrite He in Hs. simpl in Hs.
  apply (starts_sorted_cons (pf first)) in Hs as [_ Hs]. rewrite map_app in Hs. apply Forall_app in Hs as [_ Hs].
  apply Forall_cons in Hs as [Hlt _]. intros ->. lia.
Qed.
Lemma last_max x : x ∈ ps -> x <> last -> pstart x < pstart last /\ pend x <= pstart last.
Proof.
  intros Hx Hne. assert (pstart x < pstart last); [|split; [done|]].
  - destruct (ps_shape _ _ _ _ _ Hps) as [mid He]. pose proof ps_sorted as Hs. rewrite He in Hs, Hx.
    change (first :: mid ++ [last]) with ((first :: mid) ++ [last]) in Hs, Hx.
    apply elem_of_app in Hx as [Hx|Hx%list_elem_of_singleton]; [|done].
    revert Hx Hs. generalize (first :: mid). intros l. induction l as [|y l IH]; [by intros ?%not_elem_of_nil|].
    intros Hx Hs. simpl in Hs. apply (starts_sorted_cons (pf y)) in Hs as [Hs Hy].
    apply elem_of_cons in Hx as [->|Hx]; [|by apply IH]. rewrite map_app in Hy. apply Forall_app in Hy as [_ Hy].
    by apply Forall_cons in Hy as [? _].
  - apply (contiguous_apart (map pf ps)); [apply Hps|apply ps_spans|..];
      [apply list_elem_of_fmap_2; done|apply list_elem_of_fmap_2, last_in|done].
Qed.
Lemma more_iff x : x ∈ ps -> more x = negb (bool_decide (x = last)).
Proof.
  intros Hx. case_bool_decide as Hd; [subst; apply Hps|]. simpl. destruct (ps_shape _ _ _ _ _ Hps) as [mid He].
  pose proof (ps_more _ _ _ _ _ Hps) as Hm. rewrite He in Hm, Hx.
  change (first :: mid ++ [last]) with ((first :: mid) ++ [last]) in Hm, Hx. rewrite removelast_last in Hm.
  apply elem_of_app in Hx as [Hx|Hx%list_elem_of_singleton]; [|done]. by eapply Forall_forall in Hm.
Qed.
Lemma pieces_clear x y : x ∈ ps -> y ∈ ps -> x <> y -> clear_of (pf x) (pf y).
Proof.
  intros Hx Hy Hne. split_and!.
  - intros He. apply Hne. by apply pstart_inj.
  - apply (contiguous_apart (map pf ps)); [apply Hps|apply ps_spans|by apply list_elem_of_fmap_2..].
  - apply (contiguous_apart (map pf ps)); [apply Hps|apply ps_spans|by apply list_elem_of_fmap_2..].
Qed.
Lemma ps_NoDup : NoDup ps.
Proof. pose proof (sorted_lt_NoDup _ ps_sorted) as Hn. unfold starts in Hn. rewrite map_map in Hn. by eapply NoDup_fmap_1. Qed.

(** What the arrival of [x] makes of a queue that holds [pre]. *)
Section Arrival.
Context (pre : list piece) (x : piece) (post : list piece) (Hord : pre ++ x :: post ≡ₚ ps).
Context (before after : list frag) (Hl : before ++ pf x :: after ≡ₚ map pf (pre ++ [x]))
  (Hs : StronglySorted Z.lt (starts (before ++ pf x :: after)))
  (Hbefore : Forall (fun f => fg_start f < fg_start (pf x)) before).

Lemma queue_piece f : f ∈ before ++ pf x :: after -> exists y, f = pf y /\ y ∈ ps /\ y ∉ post.
Proof.
  rewrite Hl. intros [y [-> Hy]]%list_elem_of_fmap. exists y. split; [done|].
  rewrite <- Hord. split.
  { apply elem_of_app in Hy as [Hy|Hy%list_elem_of_singleton]; apply elem_of_app; [by left|]. right. rewrite Hy. left. }
  intros Hp. pose proof ps_NoDup as Hn. rewrite <- Hord in Hn. change (x :: post) with ([x] ++ post) in Hn.
  rewrite app_assoc in Hn. apply NoDup_app in Hn as (_ & Hd & _). by apply (Hd y).
Qed.
Lemma post_in g : g ∈ post -> g ∈ ps.
Proof. intros Hg. rewrite <- Hord. apply elem_of_app. right. by right. Qed.
(** No fragment of the queue covers the start of one that is still to come. *)
Lemma post_uncovered f g : f ∈ before ++ pf x :: after -> g ∈ post -> ~ fg_start f <= pstart g < fg_end f.
Proof.
  intros (y & -> & Hy & Hyp)%queue_piece Hg Hc. destruct (decide (y = g)) as [->|Hne]; [done|].
  destruct (pieces_clear y g Hy (post_in g Hg) Hne) as (H1 & H2 & H3). unfold pstart in *.
  destruct (Z.lt_trichotomy (fg_start (pf y)) (fg_start (pf g))) as [Hlt|[He|Hlt]]; [|done|lia].
  apply (contiguous_apart (map pf ps)) in Hlt; [lia|apply Hps|apply ps_spans|apply list_elem_of_fmap_2..]; [done|by apply post_in].
Qed.
Lemma queue_all : post = [] -> before ++ pf x :: after = map pf ps.
Proof.
  intros Hp. apply sorted_perm_eq; [|done|apply ps_sorted]. rewrite Hl. apply Permutation_map. by rewrite <- Hord, Hp.
Qed.

(** Nothing is missing when the compared part and the rest are contiguous, the
    queue starts at 0 and the last piece is there. *)
Lemma seen_complete f rest : timely pre x post -> contiguous (walked before after (pf x)) = true -> before ++ pf x :: after = f :: rest ->
  fg_start f = 0 -> contiguous (pf x :: after) = true -> pf last ∈ pf x :: after -> post = [].
Proof.
  intros Hearly Hw Hf Hf0 Hc Hlast. assert (Hd : post = [] \/ post <> []) by (destruct post; auto).
  destruct Hd as [?|Hne]; [done|exfalso].
  destruct (Hearly Hne) as [(g & Hg & Hlt)|[(g & Hg & H0)|(g & g' & Hg & Hg' & H1 & H2)]].
  - destruct (contiguous_covers (pf x) after (pf last) (pstart g) Hc Hlast) as (h & Hh & Hv).
    + split; [unfold pstart in *; lia|]. change (pstart g < pend last).
      pose proof (pstart_lt _ last_in). destruct (decide (g = last)) as [->|Hgl]; [done|].
      pose proof (last_max g (post_in g Hg) Hgl). unfold pstart, pend in *. lia.
    + apply (post_uncovered h g); [|done|exact Hv]. apply elem_of_app. by right.
  - apply (post_uncovered f g); [rewrite Hf; left|done|]. rewrite Hf0, H0.
    destruct (queue_piece f) as (y & -> & Hy & _); [rewrite Hf; left|].
    pose proof (pstart_lt _ Hy). lia.
  - assert (Hb : pf g' ∈ before).
    { assert (Hin : pf g' ∈ before ++ pf x :: after) by (rewrite Hl; apply list_elem_of_fmap_2, elem_of_app; by left).
      apply elem_of_app in Hin as [?|Hin]; [done|exfalso]. clear -Hin Hs H2. induction before as [|b l IH]; simpl in Hs.
      - apply elem_of_cons in Hin as [He|Hin]; [unfold pstart in H2; rewrite He in H2; lia|].
        apply (starts_sorted_cons (pf x)) in Hs as [_ Hs]. rewrite Forall_forall in Hs. apply Hs in Hin. unfold pstart in H2. lia.
      - apply (starts_sorted_cons b) in Hs as [Hs _]. by apply IH. }
    assert (Hbl : exists l, before = f :: l).
    { destruct before as [|b l]; [by apply not_elem_of_nil in Hb|]. simpl in Hf. injection Hf as -> _. by exists l. }
    destruct Hbl as [l Hbl].
    assert (Hcb : contiguous (f :: l) = true).
    { rewrite <- Hbl. unfold walked in Hw. destruct after; [by apply contiguous_app in Hw as [? _]|done]. }
    rewrite Hbl in Hb.
    destruct (contiguous_covers f l (pf g') (pstart g) Hcb Hb) as (h & Hh & Hv).
    + rewrite Hf0. split; [unfold pstart, pf, new_frag, frag_offset; simpl; pose proof (Z.land_nonneg (iph_off g.1.1) IP_OFFMASK); unfold IP_OFFMASK in *; lia|].
      assert (Hgp : g' ∈ ps) by (rewrite <- Hord; apply elem_of_app; by left). pose proof (pstart_lt _ Hgp).
      unfold pstart in *. lia.
    + apply (post_uncovered h g); [|done|exact Hv]. apply elem_of_app. left. by rewrite Hbl.
Qed.

(** The validation calls the queue complete exactly when nothing is missing. *)
Lemma validate_piece e : timely pre x post -> rd_p e = before ++ pf x :: after ->
  has_flag (rd_flags e) IP_REASS_FLAG_LASTFRAG = bool_decide (last ∈ pre ++ [x]) ->
  (last ∈ pre ++ [x] -> rd_datagram_len e = total) ->
  validate e (pf x) after (contiguous (walked before after (pf x))) = Ok (match post with [] => true | _ => false end).
Proof.
  intros Hearly Hp Hflag Htot. unfold validate.
  assert (Hfr : exists f rest, before ++ pf x :: after = f :: rest) by (destruct before; simpl; eauto).
  destruct Hfr as (f & rest & Hf). rewrite Hflag, Hp, Hf.
  assert (Hnil : post = [] \/ match post with [] => true | _ => false end = false) by (destruct post; auto).
  assert (Hall : post = [] -> last ∈ pre ++ [x]).
  { intros He. pose proof last_in as Hi. rewrite <- Hord, He in Hi. done. }
  case_bool_decide as Hlast; simpl andb.
  2: { destruct Hnil as [Hn| ->]; [|done]. by apply Hall in Hn. }
  destruct (contiguous (walked before after (pf x))) eqn:Hw.
  2: { destruct Hnil as [Hn| ->]; [|done]. exfalso. apply not_true_iff_false in Hw. apply Hw.
       pose proof (ps_cont _ _ _ _ _ Hps) as Hc. rewrite <- (queue_all Hn) in Hc.
       unfold walked. destruct after; [done|]. by apply contiguous_app in Hc as [? _]. }
  destruct (Z.eqb_spec (fg_start f) 0) as [Hf0|Hf0].
  2: { destruct Hnil as [Hn| ->]; [|done]. exfalso. apply Hf0. pose proof (queue_all Hn) as Hq.
       rewrite Hf in Hq. destruct (ps_shape _ _ _ _ _ Hps) as [mid Hm]. rewrite Hm in Hq. simpl in Hq.
       injection Hq as -> _. apply Hps. }
  destruct (no_holes (pf x) after) as [fin|] eqn:Hh.
  2: { destruct Hnil as [Hn| ->]; [|done]. exfalso.
       pose proof (ps_cont _ _ _ _ _ Hps) as Hc. rewrite <- (queue_all Hn) in Hc.
       apply contiguous_app in Hc as [_ Hc]. apply no_holes_contiguous in Hc as [? ?]. congruence. }
  apply no_holes_spec in Hh as [Hc [l' Hl']].
  assert (Hfin : fin = pf last).
  { assert (Hlq : pf last ∈ before ++ pf x :: after) by (rewrite Hl; by apply list_elem_of_fmap_2).
    assert (Hfq : fin ∈ before ++ pf x :: after) by (rewrite Hl', app_assoc; apply elem_of_app; right; left).
    destruct (queue_piece fin Hfq) as (y & -> & Hy & _). destruct (decide (pstart y = pstart last)) as [He|Hne].
    { apply pstart_inj in He; [by rewrite He|done|apply last_in]. }
    exfalso. rewrite Hl', app_assoc in Hlq. apply elem_of_app in Hlq as [Hlq|Hlq%list_elem_of_singleton];
      [|unfold pstart in Hne; by rewrite Hlq in Hne].
    pose proof Hs as Hs'. rewrite Hl', app_assoc in Hs'. apply (starts_before_last _ _ _ Hs') in Hlq.
    destruct (last_max y Hy) as [Hm _]; [by intros ->|]. unfold pstart in Hm. lia. }
  subst fin. assert (Hin : pf last ∈ pf x :: after) by (rewrite Hl'; apply elem_of_app; right; left).
  pose proof (seen_complete f rest Hearly Hw Hf Hf0 Hc Hin) as Hpost. rewrite Hpost.
  assert (Hrest : rest <> []).
  { pose proof (queue_all Hpost) as Hq. rewrite Hf in Hq. destruct (ps_shape _ _ _ _ _ Hps) as [mid Hm].
    rewrite Hm in Hq. intros ->. simpl in Hq. rewrite map_app in Hq. by destruct (map pf mid). }
  assert (Hend : (fg_end (pf last) =? rd_datagram_len e) = true)
    by (rewrite (Htot Hlast); apply Z.eqb_eq, (ps_end _ _ _ _ _ Hps)).
  rewrite (bool_decide_false (rest = [])), Hend by done. done.
Qed.
End Arrival.

(** The entry of the datagram after the pieces [pre] have come. *)
Record entry_inv (pre : list piece) (e : ip_reassdata) : Prop := {
  ei_queue : rd_p e ≡ₚ map pf pre;
  ei_sorted : StronglySorted Z.lt (starts (rd_p e));
  ei_hdr : exists y, y ∈ pre /\ rd_iphdr e = y.1.1;
  ei_first : first ∈ pre -> rd_iphdr e = first.1.1;
  ei_flag : has_flag (rd_flags e) IP_REASS_FLAG_LASTFRAG = bool_decide (last ∈ pre);
  ei_total : last ∈ pre -> rd_datagram_len e = total;
  ei_timer : rd_timer e = IP_REASS_MAXAGE
}.

(** The chaining of [x] to an entry that has its header noted already. *)
Lemma chain_piece pre x post e : pre ++ x :: post ≡ₚ ps -> timely pre x post ->
  rd_p e ≡ₚ map pf pre -> StronglySorted Z.lt (starts (rd_p e)) ->
  has_flag (rd_flags e) IP_REASS_FLAG_LASTFRAG = bool_decide (last ∈ pre ++ [x]) ->
  (last ∈ pre ++ [x] -> rd_datagram_len e = total) ->
  exists l, ip_reass_chain_frag_into_datagram_and_validate e (pf x) =
      Ok (Some (e <| rd_p := l |>, match post with [] => true | _ => false end)) /\
    l ≡ₚ map pf (pre ++ [x]) /\ StronglySorted Z.lt (starts l).
Proof.
  intros Hord Ht Hp Hs Hflag Htot. destruct (chain_new (pf x) (rd_p e) Hs) as (before & after & Hc & Hl & Hsl & Hb & Ha).
  { rewrite Hp. rewrite Forall_map. apply Forall_forall. intros y Hy. pose proof ps_NoDup as Hn. rewrite <- Hord in Hn.
    apply pieces_clear; [rewrite <- Hord; apply elem_of_app; right; left|rewrite <- Hord; apply elem_of_app; by left|].
    intros ->. apply NoDup_app in Hn as (_ & Hd & _). apply (Hd y Hy). left. }
  assert (Hperm : before ++ pf x :: after ≡ₚ map pf (pre ++ [x])).
  { rewrite map_app, <- Hp, Hl. rewrite <- Permutation_middle. apply Permutation_cons_append. }
  exists (before ++ pf x :: after). split_and!; [|done..].
  unfold ip_reass_chain_frag_into_datagram_and_validate. rewrite Hc. cbn [res_bind].
  rewrite (validate_piece pre x post Hord before after Hperm Hsl Hb); [done|done|done|exact Hflag|exact Htot].
Qed.

(** The packet the pieces make. *)
Definition packet : ip_hdr * list Z * Z :=
  (first.1.1 <| iph_len := u16 (total + IP_HLEN) |> <| iph_off := 0 |>, concat (map (fun x => x.1.2) ps), sum_clen ps).

Definition during (s : reass_state) (pre : list piece) (e : ip_reassdata) : reass_state :=
  mk_rstate (e :: reassdatagrams s) (ip_reass_pbufcount s + sum_clen pre) (te_sent s).

(** The entry between its lookup and the chaining of [x]. *)
Definition entry_mid (pre : list piece) (x : piece) (e : ip_reassdata) : Prop :=
  rd_p e ≡ₚ map pf pre /\ StronglySorted Z.lt (starts (rd_p e)) /\
  (exists y, y ∈ pre ++ [x] /\ rd_iphdr e = y.1.1) /\ (first ∈ pre ++ [x] -> rd_iphdr e = first.1.1) /\
  has_flag (rd_flags e) IP_REASS_FLAG_LASTFRAG = bool_decide (last ∈ pre) /\
  (last ∈ pre -> rd_datagram_len e = total) /\ rd_timer e = IP_REASS_MAXAGE.

Lemma note_last_piece pre x e : x ∈ ps -> entry_mid pre x e ->
  let e' := note_last x.1.1 e in
  has_flag (rd_flags e') IP_REASS_FLAG_LASTFRAG = bool_decide (last ∈ pre ++ [x]) /\
  (last ∈ pre ++ [x] -> rd_datagram_len e' = total).
Proof.
  intros Hx (_ & _ & _ & _ & Hf & Ht & _). cbv zeta. unfold note_last.
  pose proof (more_iff x Hx) as Hm. unfold more in Hm. case_bool_decide as Hl; simpl in Hm.
  - apply negb_false_iff in Hm. rewrite Hm. subst x. simpl. rewrite has_flag_lor_l, orb_true_r. split.
    + symmetry. apply bool_decide_eq_true, elem_of_app. right. left.
    + intros _. apply (ps_end _ _ _ _ _ Hps).
  - apply negb_true_iff in Hm. rewrite Hm, Hf. assert (He : last ∈ pre ++ [x] <-> last ∈ pre).
    { rewrite elem_of_app, list_elem_of_singleton. naive_solver. }
    split; [by apply bool_decide_ext|by rewrite He].
Qed.

Lemma entry_mid_inv pre x e l : entry_mid pre x e -> x ∈ ps -> l ≡ₚ map pf (pre ++ [x]) -> StronglySorted Z.lt (starts l) ->
  entry_inv (pre ++ [x]) ((note_last x.1.1 e) <| rd_p := l |>).
Proof.
  intros Hm Hx Hl Hs. destruct (note_last_piece pre x e Hx Hm) as [Hf Ht]. destruct (note_last_spec x.1.1 e) as (_ & Hh & Hti).
  destruct Hm as (_ & _ & Hy & H1 & _ & _ & H3). split; simpl; [done|done|by rewrite Hh|by rewrite Hh|done|done|by rewrite Hti].
Qed.

Lemma clens_perm a b : a ≡ₚ b -> clens a = clens b.
Proof. induction 1; simpl; lia. Qed.
Lemma piece_clens_nonneg l :
  Forall (fun x => iph_hl x.1.1 = 5 /\ key x.1.1 = k /\ 1 <= x.2 /\ pstart x < pend x) l -> 0 <= clens (map pf l).
Proof. induction 1 as [|y l (_ & _ & Hy & _) _ IH]; simpl; lia. Qed.
Lemma sum_clen_order pre x post : pre ++ x :: post ≡ₚ ps ->
  sum_clen ps = sum_clen pre + x.2 + sum_clen post /\ 0 <= sum_clen pre /\ 1 <= x.2 /\ 0 <= sum_clen post.
Proof.
  intros Hord. unfold sum_clen. pose proof (clens_perm _ _ (Permutation_map pf Hord)) as <-.
  rewrite map_app, clens_app. simpl. pose proof (ps_ok _ _ _ _ _ Hps) as Hok. rewrite <- Hord in Hok.
  apply Forall_app in Hok as [H1 [(_ & _ & Hx & _) H2]%Forall_cons].
  split_and!; [lia|by apply piece_clens_nonneg|lia|by apply piece_clens_nonneg].
Qed.
Lemma offset_zero x : (Z.land (iph_off x.1.1) IP_OFFMASK =? 0) = (pstart x =? 0).
Proof. unfold pstart, pf, new_frag, frag_offset; simpl. lia. Qed.

(** ** All arrivals *)
Section Room.
Context (s : reass_state) (Hkey : Forall (fun r => key (rd_iphdr r) <> k) (reassdatagrams s))
  (Hlen : zlen (reassdatagrams s) < MEMP_NUM_REASSDATA) (Hcnt : 0 <= ip_reass_pbufcount s)
  (Hroom : ip_reass_pbufcount s + sum_clen ps <= IP_REASS_MAX_PBUFS).

Lemma find_reass_none h l i : key h = k -> Forall (fun r => key (rd_iphdr r) <> k) l -> find_reass h l i = None.
Proof.
  intros Hk Hl. revert i. induction Hl as [|r l Hr Hl IH]; intros i; simpl; [done|].
  rewrite match_key, bool_decide_false by congruence. apply IH.
Qed.

Lemma during_nil e : during s [] e = mk_rstate (e :: reassdatagrams s) (ip_reass_pbufcount s) (te_sent s).
Proof. unfold during, sum_clen. simpl. by rewrite Z.add_0_r. Qed.

(** The state when [pre] has come: [s] itself, or with the entry. *)
Definition reached (pre : list piece) (st : reass_state) : Prop :=
  match pre with
  | [] => st = s
  | _ => exists e, entry_inv pre e /\ st = during s pre e
  end.

Lemma reached_entry pre x post st : pre ++ x :: post ≡ₚ ps -> reached pre st ->
  ip_reass_pbufcount st = ip_reass_pbufcount s + sum_clen pre /\
  exists e, entry_mid pre x e /\ reass_entry x.1.1 x.2 st = Ok (Some O, during s pre e).
Proof.
  intros Hord Hr. assert (Hx : x ∈ ps) by (rewrite <- Hord; apply elem_of_app; right; left).
  assert (Hkx : forall y, y ∈ ps -> key y.1.1 = k).
  { intros y Hy. pose proof (ps_ok _ _ _ _ _ Hps) as Hok. rewrite Forall_forall in Hok. by destruct (Hok y Hy) as (_ & ? & _). }
  unfold reass_entry. destruct pre as [|p0 pre0] eqn:Hpre.
  - simpl in Hr. subst st. split; [unfold sum_clen; simpl; lia|].
    rewrite find_reass_none; [|by apply Hkx|done].
    unfold ip_reass_enqueue_new_datagram, memp_reassdata. rewrite (proj2 (Z.ltb_lt _ _)) by done. cbn [res_bind].
    exists (mk_reass [] x.1.1 0 0 IP_REASS_MAXAGE). rewrite during_nil. split; [|done].
    split_and!; simpl; [done|constructor|exists x; split; [left|done]| | | |done].
    + intros Hin%list_elem_of_singleton. by rewrite Hin.
    + done.
    + by intros ?%not_elem_of_nil.
  - rewrite <- Hpre in *. assert (Hr' : exists e, entry_inv pre e /\ st = during s pre e) by (by rewrite Hpre in Hr |- *).
    clear Hr. destruct Hr' as (e & Hinv & ->). split; [done|].
    assert (Hin : forall y, y ∈ pre -> y ∈ ps) by (intros y Hy; rewrite <- Hord; apply elem_of_app; by left).
    destruct (ei_hdr _ _ Hinv) as (y & Hy & Hhy). simpl. rewrite match_key, Hhy, bool_decide_true by (rewrite !Hkx; auto).
    simpl. rewrite offset_zero. replace (Z.land (iph_off (rd_iphdr e)) IP_OFFMASK =? 0) with (pstart y =? 0)
      by (by rewrite <- offset_zero, Hhy).
    eexists. split; [|reflexivity].
    assert (H0 : forall z, z ∈ ps -> pstart z = 0 -> z = first).
    { intros z Hz Hz0. apply pstart_inj; [done|apply first_in|]. by rewrite (ps_start _ _ _ _ _ Hps). }
    destruct Hinv as [I1 I2 I3 I4 I5 I6 I7].
    destruct (Z.eqb_spec (pstart x) 0) as [Hx0|Hx0]; destruct (Z.eqb_spec (pstart y) 0) as [Hy0|Hy0]; simpl andb; cbn iota;
      split_and!; simpl; try done; try (exists y; split; [by apply elem_of_app; left|done]);
      try (exists x; split; [by apply elem_of_app; right; left|done]).
    + apply H0 in Hy0; [|by auto]. intros _. apply I4. congruence.
    + intros _. by rewrite (H0 x Hx Hx0).
    + intros [Hf|Hf%list_elem_of_singleton]%elem_of_app; [by apply I4|]. destruct Hx0. rewrite <- Hf. apply Hps.
    + intros [Hf|Hf%list_elem_of_singleton]%elem_of_app; [by apply I4|]. destruct Hx0. rewrite <- Hf. apply Hps.
Qed.

Lemma packet_made pre x e : pre ++ [x] ≡ₚ ps -> entry_inv (pre ++ [x]) e -> reass_packet e = packet.
Proof.
  intros Hord Hi.
  assert (Hq : rd_p e = map pf ps).
  { apply sorted_perm_eq; [|apply Hi|apply ps_sorted]. rewrite (ei_queue _ _ Hi). by apply Permutation_map. }
  unfold reass_packet, packet. rewrite (ei_first _ _ Hi), (ei_total _ _ Hi), Hq by (rewrite Hord; apply first_in || apply last_in).
  rewrite map_map. f_equal. unfold sum_clen, u8. apply Z.mod_small.
  pose proof (sum_clen_order pre x [] Hord) as (Hsum & H1 & H2 & H3). unfold IP_REASS_MAX_PBUFS, sum_clen in *. simpl in *. lia.
Qed.

(** One arrival: another piece is queued, or the packet is made and the queue
    is as it was. *)
Lemma arrive pre x post st : pre ++ x :: post ≡ₚ ps -> timely pre x post -> reached pre st ->
  exists st', ip_reass x.1.1 x.1.2 x.2 st = Ok (match post with [] => Some packet | _ => None end, st') /\
    match post with [] => st' = s | _ => reached (pre ++ [x]) st' end.
Proof.
  intros Hord Ht Hr. assert (Hx : x ∈ ps) by (rewrite <- Hord; apply elem_of_app; right; left).
  destruct (reached_entry pre x post st Hord Hr) as (Hc & e & He & Hentry).
  destruct (sum_clen_order pre x post Hord) as (Hsum & Hpre0 & Hx1 & Hpost0).
  destruct (note_last_piece pre x e Hx He) as [Hflag Htot]. destruct (note_last_spec x.1.1 e) as (Hp & Hh & _).
  pose proof He as (Hq & Hs & _). rewrite <- Hp in Hq, Hs.
  destruct (chain_piece pre x post (note_last x.1.1 e) Hord Ht Hq Hs Hflag Htot) as (l & Hchain & Hl & Hsl).
  assert (Hhl : iph_hl x.1.1 = 5).
  { pose proof (ps_ok _ _ _ _ _ Hps) as Hok. rewrite Forall_forall in Hok. by apply Hok. }
  unfold IP_REASS_MAX_PBUFS in *.
  rewrite (ip_reass_steps x.1.1 x.1.2 x.2 st _ O e _ Hhl ltac:(unfold IP_REASS_MAX_PBUFS; lia) Hentry eq_refl Hchain);
    [|simpl ip_reass_pbufcount; lia].
  pose proof (entry_mid_inv pre x e l He Hx Hl Hsl) as Hinv.
  destruct post as [|g post']; cbn [fst snd].
  - exists s. split; [|done]. rewrite (packet_made pre x _ Hord Hinv). simpl.
    replace (_ + x.2 - _) with (ip_reass_pbufcount s); [rewrite u16_id by lia; by destruct s|].
    rewrite Hsum. unfold sum_clen. simpl. lia.
  - eexists. split; [reflexivity|]. unfold reached.
    destruct (pre ++ [x]) eqn:E; [by destruct pre|]. rewrite <- E in *. exists ((note_last x.1.1 e) <| rd_p := l |>).
    split; [done|]. unfold during, sum_clen. rewrite map_app, clens_app. simpl. f_equal. lia.
Qed.

Lemma arrive_all post pre st : post <> [] -> pre ++ post ≡ₚ ps ->
  (forall pre' x post', pre ++ post = pre' ++ x :: post' -> timely pre' x post') -> reached pre st ->
  arrivals post st = Ok (replicate (pred (length post)) None ++ [Some packet], s).
Proof.
  revert pre st. induction post as [|[[h d] c] post IH]; intros pre st Hne Hord Ht Hr; [done|].
  destruct (arrive pre (h, d, c) post st Hord (Ht _ _ _ eq_refl) Hr) as (st' & Ha & Hr'). simpl in Ha.
  cbn [arrivals]. rewrite Ha. cbn [res_bind]. destruct post as [|y post].
  - simpl in Hr'. by subst st'.
  - rewrite (IH (pre ++ [(h, d, c)])); [done|done|by rewrite <- app_assoc| |done].
    intros pre' z post' He. apply Ht. by rewrite <- He, <- app_assoc.
Qed.
End Room.

(** The order of the offsets is a good one. *)
Lemma in_order : no_early ps.
Proof.
  intros pre x post He Hne. left. destruct post as [|g post]; [done|]. exists g. split; [left|].
  pose proof ps_sorted as Hs. rewrite He in Hs. rewrite map_app in Hs. clear He.
  induction (map pf pre) as [|f l IH]; cbn [map app] in Hs.
  - apply (starts_sorted_cons (pf x)) in Hs as [_ Hs]. by apply Forall_cons in Hs as [? _].
  - apply (starts_sorted_cons f) in Hs as [Hs _]. by apply IH.
Qed.
(** So is the reverse of it. *)
Lemma reverse_order : no_early (rev ps).
Proof.
  intros pre x post He Hne. right. left. exists first. split; [|apply Hps].
  destruct (ps_shape _ _ _ _ _ Hps) as [mid Hm]. rewrite Hm in He. simpl in He.
  destruct (exists_last Hne) as (post' & z & ->). rewrite app_comm_cons, app_assoc in He.
  apply app_inj_tail in He as [_ <-]. apply elem_of_app. right. left.
Qed.
End Pieces.

(** ** ip_frag *)

(** What is sent for the bytes [data] from offset [ofo] (in 8-byte blocks) on. *)
Fixpoint frag_list (fuel : nat) (hdr : ip_hdr) (mtu ofo : Z) (data : list Z) : list (ip_hdr * list Z) :=
  match fuel with
  | O => []
  | S fuel =>
      if zlen data =? 0 then []
      else if zlen data <=? mtu - IP_HLEN then
        [(hdr <| iph_off := Z.land IP_OFFMASK ofo |> <| iph_len := zlen data + IP_HLEN |>, data)]
      else
        let n := (mtu - IP_HLEN) / 8 in
        (hdr <| iph_off := Z.lor (Z.land IP_OFFMASK ofo) IP_MF |> <| iph_len := n * 8 + IP_HLEN |>, take (Z.to_nat (n * 8)) data)
        :: frag_list fuel hdr mtu (ofo + n) (drop (Z.to_nat (n * 8)) data)
  end.

Lemma zlen_take (n : Z) {A} (l : list A) : 0 <= n <= zlen l -> zlen (take (Z.to_nat n) l) = n.
Proof. unfold zlen. rewrite length_take. lia. Qed.
Lemma zlen_drop (n : Z) {A} (l : list A) : 0 <= n <= zlen l -> zlen (drop (Z.to_nat n) l) = zlen l - n.
Proof. unfold zlen. rewrite length_drop. lia. Qed.

(** The loop over the pbufs takes [left] bytes and stops in the pbuf in which
    they end. *)
Lemma mirror_spec p left : 0 < left <= zlen (concat p) -> left < 65536 ->
  exists c rest n, mirror_pbufs p left [] = (inr (take (Z.to_nat left) (concat p), c :: rest, n), []) /\
    0 < n <= zlen c /\ drop (Z.to_nat n) c ++ concat rest = drop (Z.to_nat left) (concat p) /\
    ((n = left /\ p = c :: rest) \/ exists l, tail p = l ++ c :: rest).
Proof.
  revert left. induction p as [|c p IH]; intros left Hl Hu; simpl in *; [unfold zlen in Hl; simpl in Hl; lia|].
  rewrite zlen_app in Hl. pose proof (zlen_nonneg c).
  destruct (Z.ltb_spec left (zlen c)) as [Hlt|Hge].
  - rewrite (proj2 (Z.eqb_neq _ _)) by lia. rewrite Z.sub_diag. change (u16 0 =? 0) with true. cbn iota.
    exists c, p, left. split_and!; [|lia|lia| |by left].
    + rewrite take_app_le by (unfold zlen in *; lia). done.
    + rewrite drop_app_le by (unfold zlen in *; lia). done.
  - destruct (Z.eqb_spec (zlen c) 0) as [Hz|Hz].
    + destruct c; [|by rewrite zlen_cons in Hz; pose proof (zlen_nonneg c); lia].
      destruct (IH left) as (c' & rest & n & He & Hn & Hd & Hw); [simpl in *; lia|done|].
      exists c', rest, n. split_and!; [exact He|lia|lia|exact Hd|].
      right. destruct Hw as [[-> ->]|[l Hl']]; [by exists []|]. exists (match p with [] => [] | x :: _ => [x] end ++ l).
      destruct p; simpl in *; [by destruct l|by rewrite Hl'].
    + rewrite u16_id by lia. destruct (Z.eqb_spec (left - zlen c) 0) as [He|He].
      * exists c, p, (zlen c). assert (left = zlen c) as -> by lia. split_and!; [|lia|lia| |by left].
        -- unfold zlen. by rewrite Nat2Z.id, take_app_length, firstn_all.
        -- unfold zlen. by rewrite Nat2Z.id, drop_app_length, drop_all.
      * destruct (IH (left - zlen c)) as (c' & rest & n & Hm & Hn & Hd & Hw); [lia|lia|]. rewrite Hm.
        assert (Hln : Z.to_nat left = (length c + Z.to_nat (left - zlen c))%nat) by (unfold zlen in *; lia).
        exists c', rest, n. split_and!; [|lia|lia| |].
        -- rewrite Hln, take_app_add'; [|done]. unfold zlen at 1. by rewrite Nat2Z.id, firstn_all.
        -- by rewrite Hln, drop_app_add'.
        -- right. destruct Hw as [[-> ->]|[l Hl']]; [by exists []|]. exists (match p with [] => [] | x :: _ => [x] end ++ l).
           destruct p; simpl in *; [by destruct l|by rewrite Hl'].
Qed.

Lemma ip_frag_loop_spec fuel hdr mtu c rest left ofo poff out :
  44 <= mtu < 65536 -> 0 <= poff <= zlen c -> left = zlen (drop (Z.to_nat poff) c ++ concat rest) ->
  (left <> 0 -> IP_HLEN <= zlen c) -> Forall (fun c => IP_HLEN <= zlen c) rest -> left <= Z.of_nat fuel ->
  0 <= ofo -> ofo * 8 + left < 65536 ->
  ip_frag_loop fuel hdr 0 mtu (c :: rest) left ofo poff [] out =
  Ok (ERR_OK, [], out ++ frag_list fuel hdr mtu ofo (drop (Z.to_nat poff) c ++ concat rest)).
Proof.
  intros Hmtu. revert c rest left ofo poff out.
  induction fuel as [|fuel IH]; intros c rest left ofo poff out Hp Hleft Hc Hrest Hfuel Hofo Hmax.
  { pose proof (zlen_nonneg (drop (Z.to_nat poff) c ++ concat rest)). assert (left = 0) as -> by lia. simpl. by rewrite app_nil_r. }
  cbn [ip_frag_loop frag_list]. rewrite <- Hleft. set (data := drop (Z.to_nat poff) c ++ concat rest) in *.
  destruct (Z.eqb_spec left 0) as [H0|H0]; [by rewrite app_nil_r|]. specialize (Hc H0).
  pose proof (zlen_nonneg data). cbn [next_alloc negb]. cbn iota.
  rewrite (proj2 (Z.leb_le _ _) Hc). cbn [lwip_assert res_bind].
  set (n := (mtu - IP_HLEN) / 8). assert (Hn : 3 <= n /\ n * 8 <= mtu - IP_HLEN) by (unfold n, IP_HLEN; mlia).
  set (cop := if left <=? mtu - IP_HLEN then left else n * 8).
  assert (Hcop : 0 < cop <= left /\ cop <= mtu - IP_HLEN /\ (cop = left \/ left > mtu - IP_HLEN /\ cop = n * 8)).
  { unfold cop. destruct (Z.leb_spec left (mtu - IP_HLEN)); lia. }
  destruct (mirror_spec (drop (Z.to_nat poff) c :: rest) cop) as (c' & rest' & k & Hm & Hk & Hd & Hw);
    [change (concat (_ :: rest)) with data; lia|lia|].
  change (concat (drop (Z.to_nat poff) c :: rest)) with data in *. rewrite Hm.
  assert (Hlen : zlen (drop (Z.to_nat k) c' ++ concat rest') = left - cop) by (rewrite Hd, zlen_drop; lia).
  assert (Hc' : (left - cop <> 0 -> IP_HLEN <= zlen c') /\ Forall (fun c => IP_HLEN <= zlen c) rest').
  { destruct Hw as [[-> [= Hc1 ->]]|[l Hl]].
    - split; [|done]. intros Hne. unfold IP_HLEN. lia.
    - simpl in Hl. rewrite Hl in Hrest. apply Forall_app in Hrest as [_ [H1 H2]%Forall_cons]. by split. }
  unfold IP_HLEN in *. rewrite (u16_id (cop + 20)) by lia.
  destruct (Z.leb_spec left (mtu - 20)) as [Hle|Hgt].
  - assert (cop = left) as Hcl by (unfold cop; by destruct (Z.leb_spec left (mtu - 20)); lia).
    rewrite Hcl, Z.sub_diag. replace (take (Z.to_nat left) data) with data
      by (symmetry; apply take_ge; unfold zlen in *; lia).
    destruct fuel; cbn [ip_frag_loop]; rewrite Z.lor_0_l; done.
  - assert (cop = n * 8) as Hcl by (unfold cop; by destruct (Z.leb_spec left (mtu - 20)); lia).
    rewrite u16_id by lia. rewrite IH; [|lia|done|tauto|tauto|lia|lia|lia].
    rewrite Hd, Hcl, Z.lor_0_l, <- app_assoc. done.
Qed.

(** ** The fragments as pieces *)
Definition offs (ofo : Z) (m : bool) : Z := if m then Z.lor (Z.land IP_OFFMASK ofo) IP_MF else Z.land IP_OFFMASK ofo.
Lemma offs_mask ofo m : 0 <= ofo < 8192 -> Z.land (offs ofo m) IP_OFFMASK = ofo.
Proof.
  intros Ho. assert (Hl : Z.land (Z.land IP_OFFMASK ofo) IP_OFFMASK = ofo).
  { rewrite (Z.land_comm IP_OFFMASK ofo), <- Z.land_assoc, Z.land_diag.
    change IP_OFFMASK with (2 ^ 13 - 1). rewrite land_mask by done. by apply Z.mod_small. }
  destruct m; simpl; [|done]. by rewrite Z.land_lor_distr_l, Hl, Z.lor_0_r.
Qed.
Lemma offs_more ofo m : negb (Z.land (offs ofo m) IP_MF =? 0) = m.
Proof.
  assert (Hl : Z.land (Z.land IP_OFFMASK ofo) IP_MF = 0).
  { by rewrite (Z.land_comm IP_OFFMASK ofo), <- Z.land_assoc, Z.land_0_r. }
  destruct m; simpl; [rewrite Z.land_lor_distr_l, Hl; done|by rewrite Hl].
Qed.

Definition good (k : Z * Z * Z) (x : piece) : Prop :=
  iph_hl x.1.1 = 5 /\ key x.1.1 = k /\ 1 <= x.2 /\ pstart x < pend x.
Fixpoint laid (k : Z * Z * Z) (start total : Z) (ps : list piece) : Prop :=
  match ps with
  | [] => False
  | x :: ps' =>
      good k x /\ pstart x = start /\
      match ps' with
      | [] => pend x = total /\ more x = false
      | _ => more x = true /\ laid k (pend x) total ps'
      end
  end.

Lemma laid_pieces k start total ps : laid k start total ps ->
  Forall (good k) ps /\ contiguous (map pf ps) = true /\ Forall (fun x => more x = true) (removelast ps) /\
  exists init last, ps = init ++ [last] /\ pend last = total /\ more last = false.
Proof.
  revert start. induction ps as [|x ps IH]; intros start; [done|]. intros (Hg & Hs & Hr). destruct ps as [|y ps].
  - split_and!; [by constructor|done|done|]. exists [], x. by destruct Hr.
  - destruct Hr as [Hm Hl]. destruct (IH _ Hl) as (H1 & H2 & H3 & init & last & He & H4).
    destruct Hl as (_ & Hy & _). split_and!; [by constructor| |by constructor|].
    + cbn [map] in *. rewrite contiguous_cons. rewrite H2. unfold pend, pstart in Hy. by rewrite Hy, Z.eqb_refl.
    + exists (x :: init), last. by rewrite He.
Qed.
Lemma laid_pieces_of k total x ps : laid k 0 total (x :: ps) -> ps <> [] -> exists last, pieces_of k total x last (x :: ps).
Proof.
  intros Hl Hne. pose proof Hl as (_ & H0 & _). destruct (laid_pieces _ _ _ _ Hl) as (H1 & H2 & H3 & init & last & He & H4 & H5).
  exists last. split; [|done..]. destruct init as [|y init]; [by destruct ps; simplify_eq/=|].
  exists init. by simplify_eq/=.
Qed.

Definition with_clen (f : ip_hdr * list Z) (c : Z) : piece := (f.1, f.2, c).
Lemma frag_list_laid fuel hdr mtu ofo data cs : 28 <= mtu < 65536 -> iph_hl hdr = 5 -> 0 <= ofo ->
  0 < zlen data <= Z.of_nat fuel -> ofo * 8 + zlen data <= 65515 -> Forall (fun c => 1 <= c) cs ->
  length cs = length (frag_list fuel hdr mtu ofo data) ->
  laid (key hdr) (ofo * 8) (ofo * 8 + zlen data) (zip_with with_clen (frag_list fuel hdr mtu ofo data) cs).
Proof.
  intros Hmtu Hh. revert ofo data cs. induction fuel as [|fuel IH]; intros ofo data cs Ho Hd Hmax Hcs Hlen; [lia|].
  cbn [frag_list] in *. rewrite (proj2 (Z.eqb_neq _ _)) in * by lia.
  set (n := (mtu - IP_HLEN) / 8) in *. assert (Hn : 1 <= n /\ n * 8 <= mtu - IP_HLEN) by (unfold n, IP_HLEN; mlia).
  unfold IP_HLEN in *. destruct (Z.leb_spec (zlen data) (mtu - 20)) as [Hle|Hgt].
  - destruct cs as [|c [|]]; [done| |done]. apply Forall_cons in Hcs as [Hc _]. cbn [zip_with laid].
    pose proof (offs_mask ofo false ltac:(lia)) as Hm. pose proof (offs_more ofo false) as Hmo. simpl in Hm, Hmo.
    unfold good, pstart, pend, more, pf, with_clen, new_frag, frag_offset; simpl. rewrite Hm, Hmo, Hh.
    rewrite !(u16_id (zlen data + 20 - 5 * 4)), !u16_id by lia. split_and!; (done || lia).
  - destruct cs as [|c cs]; [done|]. apply Forall_cons in Hcs as [Hc Hcs]. simpl in Hlen. cbn [zip_with].
    pose proof (offs_mask ofo true ltac:(lia)) as Hm. pose proof (offs_more ofo true) as Hmo. simpl in Hm, Hmo.
    pose proof (zlen_drop (n * 8) data ltac:(lia)) as Hdl.
    specialize (IH (ofo + n) (drop (Z.to_nat (n * 8)) data) cs ltac:(lia) ltac:(lia) ltac:(lia) Hcs ltac:(lia)).
    rewrite Hdl in IH. replace ((ofo + n) * 8 + (zlen data - n * 8)) with (ofo * 8 + zlen data) in IH by lia.
    set (x := with_clen _ c).
    assert (Hx : good (key hdr) x /\ pstart x = ofo * 8 /\ pend x = (ofo + n) * 8 /\ more x = true).
    { unfold good, pstart, pend, more, pf, x, with_clen, new_frag, frag_offset; simpl. rewrite Hm, Hmo, Hh.
      rewrite !(u16_id (n * 8 + 20 - 5 * 4)), !u16_id by lia. split_and!; (done || lia). }
    destruct Hx as (Hg & Hs & He & Hmx). cbn [laid]. split_and!; [done|done|].
    destruct (zip_with with_clen _ cs) as [|y l] eqn:Ez; [by simpl in IH|]. split; [done|]. by rewrite He.
Qed.

Lemma frag_list_fits fuel hdr mtu ofo data : 28 <= mtu ->
  Forall (fun f => iph_len f.1 = zlen f.2 + IP_HLEN /\ iph_len f.1 <= mtu /\ iph_off f.1 < 0x4000)
    (frag_list fuel hdr mtu ofo data).
Proof.
  intros Hmtu. revert ofo data. induction fuel as [|fuel IH]; intros ofo data; cbn [frag_list]; [constructor|].
  destruct (zlen data =? 0); [constructor|]. set (n := (mtu - IP_HLEN) / 8).
  assert (Hn : 1 <= n /\ n * 8 <= mtu - IP_HLEN) by (unfold n, IP_HLEN; mlia).
  assert (Ho : forall o, 0 <= Z.land IP_OFFMASK o < 8192).
  { intros o. rewrite Z.land_comm. change IP_OFFMASK with (2 ^ 13 - 1). rewrite land_mask by done. mlia. }
  unfold IP_HLEN in *. destruct (Z.leb_spec (zlen data) (mtu - 20)) as [Hle|Hgt]; simpl.
  - constructor; [|constructor]. simpl. specialize (Ho ofo). lia.
  - constructor; [simpl|apply IH]. rewrite zlen_take by lia. split_and!; [lia|lia|].
    change IP_MF with (1 * 2 ^ 13). rewrite lor_add_l by (try apply Ho; done). specialize (Ho ofo). lia.
Qed.
Lemma frag_list_data fuel hdr mtu ofo data : 28 <= mtu -> zlen data <= Z.of_nat fuel ->
  concat (map snd (frag_list fuel hdr mtu ofo data)) = data.
Proof.
  intros Hmtu. revert ofo data. induction fuel as [|fuel IH]; intros ofo data Hf; cbn [frag_list].
  { destruct data; [done|]. rewrite zlen_cons in Hf. pose proof (zlen_nonneg data). lia. }
  destruct (Z.eqb_spec (zlen data) 0) as [Hz|Hz].
  { destruct data; [done|]. rewrite zlen_cons in Hz. pose proof (zlen_nonneg data). lia. }
  set (n := (mtu - IP_HLEN) / 8). assert (Hn : 1 <= n /\ n * 8 <= mtu - IP_HLEN) by (unfold n, IP_HLEN; mlia).
  unfold IP_HLEN in *. destruct (Z.leb_spec (zlen data) (mtu - 20)) as [Hle|Hgt]; simpl; [by rewrite app_nil_r|].
  rewrite IH; [by rewrite take_drop|]. rewrite zlen_drop; lia.
Qed.
Lemma zip_with_data fs cs : length cs = length fs -> map (fun x => x.1.2) (zip_with with_clen fs cs) = map snd fs.
Proof. revert cs. induction fs as [|f fs IH]; intros [|c cs] [=]; simpl; [done|]. by rewrite IH. Qed.
Lemma zip_with_clens fs cs : length cs = length fs -> sum_clen (zip_with with_clen fs cs) = fold_right Z.add 0 cs.
Proof.
  unfold sum_clen. revert cs. induction fs as [|f fs IH]; intros [|c cs] [=]; simpl; [done|]. by rewrite IH.
Qed.

Lemma frag_list_two hdr mtu data : 28 <= mtu -> mtu - IP_HLEN < zlen data ->
  exists f1 f2 fs, frag_list (Z.to_nat (zlen data)) hdr mtu 0 data = f1 :: f2 :: fs /\
    f1.1 = hdr <| iph_off := IP_MF |> <| iph_len := (mtu - IP_HLEN) / 8 * 8 + IP_HLEN |>.
Proof.
  intros Hmtu Hlong. set (n := (mtu - IP_HLEN) / 8).
  assert (Hn : 1 <= n /\ n * 8 <= mtu - IP_HLEN) by (unfold n, IP_HLEN; mlia). unfold IP_HLEN in *.
  destruct (Z.to_nat (zlen data)) as [|[|fuel]] eqn:Ef; [lia|lia|]. cbn [frag_list]. unfold IP_HLEN. fold n.
  rewrite (proj2 (Z.eqb_neq _ _)), (proj2 (Z.leb_gt _ _)), zlen_drop, (proj2 (Z.eqb_neq _ _)) by lia.
  destruct (_ <=? _); by eexists _, _, _.
Qed.

(** The queue has room for [n] more pbufs of datagram [k], which is new. *)
Definition has_room (k : Z * Z * Z) (n : Z) (s : reass_state) : Prop :=
  Forall (fun r => key (rd_iphdr r) <> k) (reassdatagrams s) /\ zlen (reassdatagrams s) < MEMP_NUM_REASSDATA /\
  0 <= ip_reass_pbufcount s /\ ip_reass_pbufcount s + n <= IP_REASS_MAX_PBUFS.

(** C9. Fragmentation and reassembly are inverse. A packet that is no fragment
    itself and too long for the MTU (its pbufs hold 20 bytes or more each) is
    sent as fragments that fit the MTU. When they arrive, each in any number
    of pbufs, in any order that does not run into the unchecked hole, and the
    queue has room, then nothing is handed up until the last one, which
    completes the packet as it was; the queue is left as before. The order in
    which they were sent and its reverse are such orders. *)
Theorem ip_frag_roundtrip hdr c rest mtu : iph_hl hdr = 5 -> Z.land (iph_off hdr) (Z.lor IP_MF IP_OFFMASK) = 0 ->
  44 <= mtu < zlen (concat (c :: rest)) -> zlen (concat (c :: rest)) < 65536 ->
  Forall (fun c => IP_HLEN <= zlen c) (c :: rest) ->
  exists fs, ip_frag hdr (c :: rest) mtu [] = Ok (ERR_OK, [], fs) /\
    Forall (fun f => iph_len f.1 = zlen f.2 + IP_HLEN /\ iph_len f.1 <= mtu) fs /\
    forall cs, length cs = length fs -> Forall (fun c => 1 <= c) cs ->
      no_early (zip_with with_clen fs cs) /\ no_early (rev (zip_with with_clen fs cs)) /\
      forall order s, order ≡ₚ zip_with with_clen fs cs -> no_early order -> has_room (key hdr) (fold_right Z.add 0 cs) s ->
        arrivals order s =
        Ok (replicate (pred (length order)) None ++
            [Some (hdr <| iph_len := zlen (concat (c :: rest)) |> <| iph_off := 0 |>,
                   drop (Z.to_nat IP_HLEN) (concat (c :: rest)), fold_right Z.add 0 cs)], s).
Proof.
  intros Hh Hoff Hmtu Hmax Hc. set (data := drop (Z.to_nat IP_HLEN) (concat (c :: rest))).
  pose proof (proj1 (Forall_cons _ _ _) Hc) as [Hc0 Hrest]. unfold IP_HLEN in Hc0.
  assert (Hdata : data = drop (Z.to_nat IP_HLEN) c ++ concat rest).
  { unfold data. simpl. apply drop_app_le. unfold zlen in *. unfold IP_HLEN. lia. }
  assert (Hlen : zlen data = zlen (concat (c :: rest)) - 20) by (unfold data, IP_HLEN; rewrite zlen_drop; lia).
  set (fs := frag_list (Z.to_nat (zlen data)) hdr mtu 0 data).
  assert (Hz : Z.land (iph_off hdr) IP_MF = 0 /\ Z.land (iph_off hdr) IP_OFFMASK = 0).
  { rewrite Z.land_lor_distr_r in Hoff. by apply Z.lor_eq_0_iff in Hoff. }
  exists fs. split_and!.
  - unfold ip_frag. unfold IP_HLEN at 1. rewrite (proj2 (Z.ltb_ge _ _)) by lia. destruct Hz as [-> ->].
    rewrite u16_id by (unfold IP_HLEN; lia). replace (_ - IP_HLEN) with (zlen data) by (unfold IP_HLEN; lia).
    rewrite ip_frag_loop_spec; [by rewrite <- Hdata|lia|unfold IP_HLEN; lia|by rewrite <- Hdata|done|done|lia|lia|lia].
  - eapply Forall_impl; [apply frag_list_fits; lia|]. simpl. tauto.
  - intros cs Hcs H1. pose proof (frag_list_laid (Z.to_nat (zlen data)) hdr mtu 0 data cs ltac:(lia) Hh ltac:(lia)
      ltac:(lia) ltac:(lia) H1 Hcs) as Hl. fold fs in Hl. rewrite Z.mul_0_l, Z.add_0_l in Hl.
    destruct (frag_list_two hdr mtu data) as (f1 & f2 & fs' & Hfs & Hf1); [lia|unfold IP_HLEN; lia|]. fold fs in Hfs.
    assert (Hps : exists ps x last, zip_with with_clen fs cs = x :: ps /\ x.1.1 = f1.1 /\
      pieces_of (key hdr) (zlen data) x last (x :: ps)).
    { rewrite Hfs in *. destruct cs as [|c1 [|c2 cs]]; [done..|]. simpl in Hl |- *.
      destruct (laid_pieces_of (key hdr) (zlen data) (with_clen f1 c1) (with_clen f2 c2 :: zip_with with_clen fs' cs) Hl)
        as [last Hlast]; [done|]. eexists _, _, last. by split_and!. }
    destruct Hps as (ps & x & last & He & Hx & Hps). rewrite He. split_and!; [by eapply in_order|by eapply reverse_order|].
    intros order s Hord Hne (Hk & Hn & Hc1 & Hc2).
    assert (Hsum : sum_clen (x :: ps) = fold_right Z.add 0 cs) by (by rewrite <- He, zip_with_clens).
    assert (Hpk : packet (zlen data) x (x :: ps) =
      (hdr <| iph_len := zlen (concat (c :: rest)) |> <| iph_off := 0 |>, data, fold_right Z.add 0 cs)).
    { unfold packet. rewrite Hsum, Hx, Hf1, <- He, zip_with_data by done. unfold fs. rewrite frag_list_data by lia.
      replace (u16 (zlen data + IP_HLEN)) with (zlen (concat (c :: rest))); [done|].
      unfold IP_HLEN. rewrite u16_id; lia. }
    rewrite (arrive_all _ _ _ _ _ Hps s Hk Hn Hc1 ltac:(by rewrite Hsum) order [] s).
    + by rewrite Hpk.
    + intros ->. by apply Permutation_nil_l in Hord.
    + done.
    + intros pre y post Hsp. by apply Hne.
    + done.
Qed.

(** A packet of 80 bytes in two pbufs over an MTU of 44; its three fragments
    arrive in reverse order while another datagram is in reassembly. *)
Definition demo_other : reass_state := mk_rstate [mk_reass [mk_frag 0 8 (repeat 5 8) 1] (demo_hdr 8 IP_MF 8) 0 0 2] 1 [].
Lemma ip_frag_roundtrip_witness : exists fs,
  ip_frag (demo_hdr 7 0 60) [repeat 1 30; repeat 2 50] 44 [] = Ok (ERR_OK, [], fs) /\ length fs = 3%nat /\
  arrivals (rev (zip_with with_clen fs [1; 2; 1])) demo_other =
  Ok ([None; None; Some (demo_hdr 7 0 60, repeat 1 10 ++ repeat 2 50, 4)], demo_other).
Proof.
  destruct (ip_frag_roundtrip (demo_hdr 7 0 60) (repeat 1 30) [repeat 2 50] 44) as (fs & Hfs & Hfit & Harr).
  1-3: done.
  { done. }
  { by repeat constructor. }
  exists fs. split; [exact Hfs|]. assert (Hl : length fs = 3%nat).
  { vm_compute in Hfs. injection Hfs as <-. reflexivity. }
  split; [exact Hl|].
  destruct (Harr [1; 2; 1]) as (_ & Hrev & Hres); [by rewrite Hl|by repeat constructor|].
  rewrite (Hres (rev (zip_with with_clen fs [1; 2; 1]))); [|symmetry; apply Permutation_rev|exact Hrev|].
  - rewrite length_rev, length_zip_with, Hl. reflexivity.
  - split_and!; [by repeat constructor|done..].
Defined.
