(* ===== verification/Etharp.v ===== *)
(** * The ARP table and Ethernet output (src/src/lwip/netif/etharp.c)

    An interface is the pair of an identity (its pointer) and the record
    [netif]. A packet is the bytes of its pbufs from the IP header on, with a
    note whether all of them are PBUF_ROM; it is one packet, never a queue of
    packets. [wire] is what was given to the [linkoutput] functions. *)
From S2P Require Import Prelude ByteOrder IpAddr.

(** ** Frames *)
Abbreviation eth_addr := (list Z).
Definition ethbroadcast : eth_addr := repeat 255 6.
Definition ethzero : eth_addr := repeat 0 6.
Definition ETHARP_HWADDR_LEN : Z := 6.
Definition eth_addr_cmp (a b : eth_addr) : bool := bool_decide (a = b).

Definition HWTYPE_ETHERNET : Z := 1.
Definition ETHTYPE_ARP : Z := 0x0806.
Definition ETHTYPE_IP : Z := 0x0800.
Definition ARP_REQUEST : Z := 1.
Definition ARP_REPLY : Z := 2.

(** The ARP message; numbers in host order, addresses as in memory. A message
    that is sent back keeps what followed it in the frame. *)
Record etharp_hdr := mk_arp {
  ar_hwtype : Z; ar_proto : Z; ar_hwlen : Z; ar_protolen : Z; ar_opcode : Z;
  ar_shwaddr : eth_addr; ar_sipaddr : Z; ar_dhwaddr : eth_addr; ar_dipaddr : Z
}.
Inductive payload :=
| IpPacket (bytes : list Z)
| ArpPacket (h : etharp_hdr) (padding : list Z).
Record frame := mk_frame { fr_dest : eth_addr; fr_src : eth_addr; fr_type : Z; fr_payload : payload }.

Record packet := mk_packet { pk_rom : bool; pk_bytes : list Z }.

(** ** The table *)
Inductive etharp_state := ETHARP_STATE_EMPTY | ETHARP_STATE_PENDING | ETHARP_STATE_STABLE | ETHARP_STATE_STABLE_REREQUESTING.
#[export] Instance etharp_state_eq_dec : EqDecision etharp_state.
Proof. solve_decision. Defined.
Definition is_empty (s : etharp_state) : bool := bool_decide (s = ETHARP_STATE_EMPTY).
Definition is_pending (s : etharp_state) : bool := bool_decide (s = ETHARP_STATE_PENDING).
(** [state >= ETHARP_STATE_STABLE] *)
Definition is_stable (s : etharp_state) : bool := negb (is_empty s) && negb (is_pending s).

Record etharp_entry := mk_entry {
  ae_q : option packet;
  ae_ipaddr : Z;
  ae_netif : option nat;
  ae_ethaddr : eth_addr;
  ae_state : etharp_state;
  ae_ctime : Z
}.
#[export] Instance entry_eta : Eta etharp_entry :=
  {| eta e := mk_entry (ae_q e) (ae_ipaddr e) (ae_netif e) (ae_ethaddr e) (ae_state e) (ae_ctime e) |}.
#[export] Instance set_ae_q : Setter ae_q := ltac:(setter).
#[export] Instance set_ae_ipaddr : Setter ae_ipaddr := ltac:(setter).
#[export] Instance set_ae_netif : Setter ae_netif := ltac:(setter).
#[export] Instance set_ae_ethaddr : Setter ae_ethaddr := ltac:(setter).
#[export] Instance set_ae_state : Setter ae_state := ltac:(setter).
#[export] Instance set_ae_ctime : Setter ae_ctime := ltac:(setter).

Definition ARP_TABLE_SIZE : nat := 10.
Definition ARP_MAXAGE : Z := 240.
Definition ARP_AGE_REREQUEST_USED : Z := ARP_MAXAGE - 12.
Definition ARP_MAXPENDING : Z := 2.
Definition ETHARP_FLAG_TRY_HARD : Z := 1.
Definition ETHARP_FLAG_FIND_ONLY : Z := 2.

(** The globals of the module, what was sent, and the answers of the
    environment: which pbuf allocations succeed and what [linkoutput] returns
    (from the end of the lists on, success). *)
Record arp_world := mk_arp_world {
  arp_table : list etharp_entry;
  etharp_cached_entry : nat;
  wire : list (nat * frame);
  arp_allocs : list bool;
  link_results : list err_t
}.
#[export] Instance arp_world_eta : Eta arp_world :=
  {| eta w := mk_arp_world (arp_table w) (etharp_cached_entry w) (wire w) (arp_allocs w) (link_results w) |}.
#[export] Instance set_arp_table : Setter arp_table := ltac:(setter).
#[export] Instance set_cached : Setter etharp_cached_entry := ltac:(setter).
#[export] Instance set_wire : Setter wire := ltac:(setter).
#[export] Instance set_arp_allocs : Setter arp_allocs := ltac:(setter).
#[export] Instance set_link_results : Setter link_results := ltac:(setter).

Definition arp_alloc (w : arp_world) : bool * arp_world :=
  match arp_allocs w with [] => (true, w) | b :: l => (b, w <| arp_allocs := l |>) end.
Definition linkoutput (id : nat) (f : frame) (w : arp_world) : err_t * arp_world :=
  let w := w <| wire := wire w ++ [(id, f)] |> in
  match link_results w with [] => (ERR_OK, w) | e :: l => (e, w <| link_results := l |>) end.

Definition entry_at (i : nat) (w : arp_world) : res etharp_entry := of_option BadAccess (arp_table w !! i).
Definition set_entry (i : nat) (e : etharp_entry) (w : arp_world) : arp_world :=
  w <| arp_table := <[i := e]> (arp_table w) |>.

(** [etharp_free_entry]; the debug build clears the other fields, too. *)
Definition freed_entry (e : etharp_entry) : etharp_entry := e <| ae_q := None |> <| ae_state := ETHARP_STATE_EMPTY |>.
Definition etharp_free_entry (i : nat) (w : arp_world) : res arp_world :=
  let! e := entry_at i w in
  Ok (set_entry i (freed_entry e) w).

(** The body of the loop of [etharp_tmr]. *)
Definition age_entry (e : etharp_entry) : etharp_entry :=
  if is_empty (ae_state e) then e
  else
    let e := e <| ae_ctime := u8 (ae_ctime e + 1) |> in
    if (ARP_MAXAGE <=? ae_ctime e) || (is_pending (ae_state e) && (ARP_MAXPENDING <=? ae_ctime e)) then freed_entry e
    else if bool_decide (ae_state e = ETHARP_STATE_STABLE_REREQUESTING) then e <| ae_state := ETHARP_STATE_STABLE |>
    else e.
Definition etharp_tmr (w : arp_world) : arp_world := w <| arp_table := map age_entry (arp_table w) |>.

Definition etharp_cleanup_netif (id : nat) (w : arp_world) : arp_world :=
  w <| arp_table := map (fun e => if negb (is_empty (ae_state e)) && bool_decide (ae_netif e = Some id) then freed_entry e else e)
                      (arp_table w) |>.

(** ** etharp_find_entry *)

(** The candidates that the sweep remembers: indices and ages. *)
Record candidates := mk_cand {
  cd_empty : option nat;
  cd_stable : option nat * Z;
  cd_pending : option nat * Z;
  cd_queue : option nat * Z
}.
Definition no_candidates : candidates := mk_cand None (None, 0) (None, 0) (None, 0).
Definition older (i : nat) (e : etharp_entry) (c : option nat * Z) : option nat * Z :=
  if c.2 <=? ae_ctime e then (Some i, ae_ctime e) else c.

(** The sweep: the matching entry, or the candidates. *)
Fixpoint find_sweep (ipaddr : option Z) (l : list etharp_entry) (i : nat) (c : candidates) : nat + candidates :=
  match l with
  | [] => inr c
  | e :: l' =>
      if bool_decide (cd_empty c = None) && is_empty (ae_state e) then
        find_sweep ipaddr l' (S i) (mk_cand (Some i) (cd_stable c) (cd_pending c) (cd_queue c))
      else if is_empty (ae_state e) then find_sweep ipaddr l' (S i) c
      else if match ipaddr with Some ip => ip =? ae_ipaddr e | None => false end then inl i
      else
        let c :=
          if is_pending (ae_state e) then
            match ae_q e with
            | Some _ => mk_cand (cd_empty c) (cd_stable c) (cd_pending c) (older i e (cd_queue c))
            | None => mk_cand (cd_empty c) (cd_stable c) (older i e (cd_pending c)) (cd_queue c)
            end
          else mk_cand (cd_empty c) (older i e (cd_stable c)) (cd_pending c) (cd_queue c) in
        find_sweep ipaddr l' (S i) c
  end.

(** The entry to recycle when none is empty. *)
Definition recycle (c : candidates) (w : arp_world) : res (option nat) :=
  match (cd_stable c).1, (cd_pending c).1, (cd_queue c).1 with
  | Some i, _, _ =>
      let! e := entry_at i w in
      assert! bool_decide (ae_q e = None) in
      Ok (Some i)
  | None, Some i, _ => Ok (Some i)
  | None, None, o => Ok o
  end.

(** [None] is the result ERR_MEM. *)
Definition etharp_find_entry (ipaddr : option Z) (flags : Z) (w : arp_world) : res (option nat * arp_world) :=
  match find_sweep ipaddr (arp_table w) O no_candidates with
  | inl i => Ok (Some i, w)
  | inr c =>
      if has_flag flags ETHARP_FLAG_FIND_ONLY
         || (bool_decide (cd_empty c = None) && negb (has_flag flags ETHARP_FLAG_TRY_HARD)) then Ok (None, w)
      else
        let! (o, w) :=
          match cd_empty c with
          | Some i => Ok (Some i, w)
          | None =>
              let! o := recycle c w in
              match o with
              | None => Ok (None, w)
              | Some i => let! w := etharp_free_entry i w in Ok (Some i, w)
              end
          end in
        match o with
        | None => Ok (None, w)
        | Some i =>
            let! e := entry_at i w in
            assert! is_empty (ae_state e) in
            let e := match ipaddr with Some ip => e <| ae_ipaddr := ip |> | None => e end in
            Ok (Some i, set_entry i (e <| ae_ctime := 0 |>) w)
        end
  end.

(** ** Sending *)
Definition etharp_send_ip (id : nat) (n : netif) (p : list Z) (src dst : eth_addr) (w : arp_world) : res (err_t * arp_world) :=
  assert! zlen (nif_hwaddr n) =? ETHARP_HWADDR_LEN in
  Ok (linkoutput id (mk_frame dst src ETHTYPE_IP (IpPacket p)) w).

Definition non_unicast (ipaddr : Z) (n : netif) : bool :=
  ip4_addr_isbroadcast ipaddr n || ip_addr_ismulticast ipaddr || (ipaddr =? IPADDR_ANY).

(** [etharp_update_arp_entry]. The order of the tests for a non-unicast
    address does not matter: they have no effects. *)
Definition etharp_update_arp_entry (id : nat) (n : netif) (ipaddr : Z) (ethaddr : eth_addr) (flags : Z) (w : arp_world)
  : res (err_t * arp_world) :=
  assert! zlen (nif_hwaddr n) =? ETHARP_HWADDR_LEN in
  if non_unicast ipaddr n then Ok (ERR_ARG, w)
  else
    let! (o, w) := etharp_find_entry (Some ipaddr) flags w in
    match o with
    | None => Ok (ERR_MEM, w)
    | Some i =>
        let! e := entry_at i w in
        let q := ae_q e in
        let e := e <| ae_state := ETHARP_STATE_STABLE |> <| ae_netif := Some id |> <| ae_ethaddr := ethaddr |>
                   <| ae_ctime := 0 |> <| ae_q := None |> in
        let w := set_entry i e w in
        match q with
        | Some p => let! (_, w) := etharp_send_ip id n (pk_bytes p) (nif_hwaddr n) ethaddr w in Ok (ERR_OK, w)
        | None => Ok (ERR_OK, w)
        end
    end.

(** [etharp_find_addr]: the index and the Ethernet address. *)
Definition etharp_find_addr (ipaddr : Z) (w : arp_world) : res (option (nat * eth_addr)) :=
  let! (o, w) := etharp_find_entry (Some ipaddr) ETHARP_FLAG_FIND_ONLY w in
  match o with
  | None => Ok None
  | Some i => let! e := entry_at i w in Ok (if is_stable (ae_state e) then Some (i, ae_ethaddr e) else None)
  end.

(** [etharp_raw]. A sender with a link-local address uses broadcast. *)
Definition etharp_raw (id : nat) (n : netif) (ethsrc ethdst hwsrc : eth_addr) (ipsrc : Z) (hwdst : eth_addr) (ipdst opcode : Z)
    (w : arp_world) : res (err_t * arp_world) :=
  let '(ok, w) := arp_alloc w in
  if ok then
    assert! zlen (nif_hwaddr n) =? ETHARP_HWADDR_LEN in
    let h := mk_arp HWTYPE_ETHERNET ETHTYPE_IP ETHARP_HWADDR_LEN 4 opcode hwsrc ipsrc hwdst ipdst in
    Ok (linkoutput id (mk_frame (if ip_addr_islinklocal ipsrc then ethbroadcast else ethdst) ethsrc ETHTYPE_ARP (ArpPacket h [])) w)
  else Ok (ERR_MEM, w).

Definition etharp_request (id : nat) (n : netif) (ipaddr : Z) (w : arp_world) : res (err_t * arp_world) :=
  etharp_raw id n (nif_hwaddr n) ethbroadcast (nif_hwaddr n) (nif_ip_addr n) ethzero ipaddr ARP_REQUEST w.

(** [etharp_query]; [None] is a call without a packet. *)
Definition etharp_query (id : nat) (n : netif) (ipaddr : Z) (q : option packet) (w : arp_world) : res (err_t * arp_world) :=
  if non_unicast ipaddr n then Ok (ERR_ARG, w)
  else
    let! (o, w) := etharp_find_entry (Some ipaddr) ETHARP_FLAG_TRY_HARD w in
    match o with
    | None => Ok (ERR_MEM, w)
    | Some i =>
        let! e := entry_at i w in
        let w := if is_empty (ae_state e) then set_entry i (e <| ae_state := ETHARP_STATE_PENDING |>) w else w in
        let! e := entry_at i w in
        let! (result, w) :=
          if is_pending (ae_state e) || bool_decide (q = None) then etharp_request id n ipaddr w else Ok (ERR_MEM, w) in
        match q with
        | None => Ok (result, w)
        | Some p =>
            if is_stable (ae_state e) then
              etharp_send_ip id n (pk_bytes p) (nif_hwaddr n) (ae_ethaddr e) (w <| etharp_cached_entry := i |>)
            else
              let '(ok, w) := if pk_rom p then (true, w) else arp_alloc w in
              if ok then Ok (ERR_OK, set_entry i (e <| ae_q := Some p |>) w) else Ok (ERR_MEM, w)
        end
    end.

Definition etharp_output_to_arp_index (id : nat) (n : netif) (p : list Z) (i : nat) (w : arp_world) : res (err_t * arp_world) :=
  let! e := entry_at i w in
  assert! is_stable (ae_state e) in
  let! w :=
    if bool_decide (ae_state e = ETHARP_STATE_STABLE) && (ARP_AGE_REREQUEST_USED <=? ae_ctime e) then
      let! (r, w) := etharp_request id n (ae_ipaddr e) w in
      Ok (if r =? ERR_OK then set_entry i (e <| ae_state := ETHARP_STATE_STABLE_REREQUESTING |>) w else w)
    else Ok w in
  let! e := entry_at i w in
  etharp_send_ip id n p (nif_hwaddr n) (ae_ethaddr e) w.

(** ** etharp_output *)
Definition multicast_addr (ipaddr : Z) : eth_addr :=
  match store_le32 ipaddr with
  | [_; b2; b3; b4] => [0x01; 0x00; 0x5e; Z.land b2 0x7f; b3; b4]
  | _ => []
  end.
(** The source address in the header of a packet. *)
Definition packet_src (p : list Z) : res Z :=
  match slice 12 4 p with [a; b; c; d] => Ok (load_le32 a b c d) | _ => Err BadAccess end.
Definition stable_for (ipaddr : Z) (e : etharp_entry) : bool := is_stable (ae_state e) && (ipaddr =? ae_ipaddr e).
Fixpoint find_stable (ipaddr : Z) (l : list etharp_entry) (i : nat) : option nat :=
  match l with
  | [] => None
  | e :: l' => if stable_for ipaddr e then Some i else find_stable ipaddr l' (S i)
  end.

(** The next hop of a unicast packet: [None] when there is no gateway. *)
Definition next_hop (n : netif) (p : list Z) (ipaddr : Z) : res (option Z) :=
  if ip_addr_netcmp ipaddr (nif_ip_addr n) (nif_netmask n) || ip_addr_islinklocal ipaddr then Ok (Some ipaddr)
  else
    let! src := packet_src p in
    if ip_addr_islinklocal src then Ok (Some ipaddr)
    else if nif_gw n =? IPADDR_ANY then Ok None
    else Ok (Some (nif_gw n)).

(** [etharp_output]. [header] is the result of making room for the Ethernet
    header. *)
Definition etharp_output (id : nat) (n : netif) (q : packet) (header : bool) (ipaddr : Z) (w : arp_world) : res (err_t * arp_world) :=
  if negb header then Ok (ERR_BUF, w)
  else if ip4_addr_isbroadcast ipaddr n then etharp_send_ip id n (pk_bytes q) (nif_hwaddr n) ethbroadcast w
  else if ip_addr_ismulticast ipaddr then etharp_send_ip id n (pk_bytes q) (nif_hwaddr n) (multicast_addr ipaddr) w
  else
    let! hop := next_hop n (pk_bytes q) ipaddr in
    match hop with
    | None => Ok (ERR_RTE, w)
    | Some dst =>
        let! c := entry_at (etharp_cached_entry w) w in
        if stable_for dst c then etharp_output_to_arp_index id n (pk_bytes q) (etharp_cached_entry w) w
        else
          match find_stable dst (arp_table w) O with
          | Some i => etharp_output_to_arp_index id n (pk_bytes q) i (w <| etharp_cached_entry := i |>)
          | None => etharp_query id n dst (Some q) w
          end
    end.
