(* ===== verification/EtharpTable.v ===== *)
(** * The ARP table: invariant, search and resolution

    [arp_ok] is the invariant of the table: no two entries in use have the same
    address, a packet waits only on a pending entry, ages are bounded. No
    operation fails on such a table, and all keep it. *)
From S2P Require Import Prelude ByteOrder IpAddr Etharp.

(** ** The invariant *)
Definition arp_entry_ok (e : etharp_entry) : Prop :=
  (ae_q e <> None -> ae_state e = ETHARP_STATE_PENDING) /\ 0 <= ae_ctime e <= ARP_MAXAGE /\
  (is_pending (ae_state e) = true -> ae_ctime e < ARP_MAXPENDING) /\
  (is_stable (ae_state e) = true -> ae_ctime e < ARP_MAXAGE).
Definition in_use (e : etharp_entry) : Prop := is_empty (ae_state e) = false.
Definition unique_addrs (l : list etharp_entry) : Prop :=
  forall i j a b, l !! i = Some a -> l !! j = Some b -> in_use a -> in_use b -> ae_ipaddr a = ae_ipaddr b -> i = j.
Record arp_ok (w : arp_world) : Prop := {
  ao_length : length (arp_table w) = ARP_TABLE_SIZE;
  ao_cached : (etharp_cached_entry w < ARP_TABLE_SIZE)%nat;
  ao_entries : Forall arp_entry_ok (arp_table w);
  ao_unique : unique_addrs (arp_table w)
}.

Lemma state_cases s : is_empty s = true /\ is_pending s = false /\ is_stable s = false \/
  is_empty s = false /\ is_pending s = true /\ is_stable s = false \/
  is_empty s = false /\ is_pending s = false /\ is_stable s = true.
Proof. destruct s; cbn; auto. Qed.
Lemma pending_eq s : is_pending s = true <-> s = ETHARP_STATE_PENDING.
Proof. apply bool_decide_eq_true. Qed.
Lemma empty_eq s : is_empty s = true <-> s = ETHARP_STATE_EMPTY.
Proof. apply bool_decide_eq_true. Qed.

(** ** The sweep *)

(** [c] is the oldest of the entries of [l] that are of the kind [P]. *)
Definition oldest (P : etharp_entry -> Prop) (l : list etharp_entry) (c : option nat * Z) : Prop :=
  match c.1 with
  | Some i => exists e, l !! i = Some e /\ P e /\ ae_ctime e = c.2 /\ Forall (fun e' => P e' -> ae_ctime e' <= c.2) l
  | None => c.2 = 0 /\ Forall (fun e' => ~ P e') l
  end.
Definition is_free (e : etharp_entry) : Prop := is_empty (ae_state e) = true.
Definition stable_entry (e : etharp_entry) : Prop := is_stable (ae_state e) = true.
Definition waiting (e : etharp_entry) : Prop := is_pending (ae_state e) = true /\ ae_q e = None.
Definition queueing (e : etharp_entry) : Prop := is_pending (ae_state e) = true /\ ae_q e <> None.
Record cand_ok (l : list etharp_entry) (c : candidates) : Prop := {
  co_empty : match cd_empty c with
             | Some i => exists e, l !! i = Some e /\ is_free e
             | None => Forall in_use l
             end;
  co_stable : oldest stable_entry l (cd_stable c);
  co_pending : oldest waiting l (cd_pending c);
  co_queue : oldest queueing l (cd_queue c)
}.

Lemma oldest_skip P l e c : oldest P l c -> ~ P e -> oldest P (l ++ [e]) c.
Proof.
  unfold oldest. destruct c as [[i|] a]; simpl.
  - intros (x & Hx & HP & Ha & Hall) Hn. exists x. split_and!; [by apply lookup_app_l_Some|done|done|].
    apply Forall_app; split; [done|]. by constructor.
  - intros [-> Hall] Hn. split; [done|]. apply Forall_app; split; [done|]. by constructor.
Qed.
Lemma oldest_add P l e c : oldest P l c -> P e -> 0 <= ae_ctime e -> oldest P (l ++ [e]) (older (length l) e c).
Proof.
  unfold oldest, older. intros Hc HP He. destruct c as [o a]; simpl in *.
  destruct (Z.leb_spec a (ae_ctime e)) as [Hle|Hgt]; simpl.
  - exists e. split_and!; [by apply list_lookup_middle|done|done|]. apply Forall_app; split; [|by constructor].
    destruct o as [i|]; [destruct Hc as (x & _ & _ & _ & Hall)|destruct Hc as [_ Hall]].
    + eapply Forall_impl; [exact Hall|]. simpl. intros y Hy HPy. specialize (Hy HPy). lia.
    + eapply Forall_impl; [exact Hall|]. simpl. tauto.
  - destruct o as [i|]; [|lia]. destruct Hc as (x & Hx & HPx & Ha & Hall).
    exists x. split_and!; [by apply lookup_app_l_Some|done|done|]. apply Forall_app; split; [done|].
    constructor; [lia|done].
Qed.

Definition matches (ipaddr : option Z) (e : etharp_entry) : Prop := in_use e /\ ipaddr = Some (ae_ipaddr e).

Lemma find_sweep_spec ipaddr l pre c : cand_ok pre c -> Forall (fun e => 0 <= ae_ctime e) l ->
  match find_sweep ipaddr l (length pre) c with
  | inl i => exists e, (pre ++ l) !! i = Some e /\ matches ipaddr e
  | inr c' => cand_ok (pre ++ l) c' /\ Forall (fun e => ~ matches ipaddr e) l
  end.
Proof.
  intros Hc Hl. revert pre c Hc. induction Hl as [|e l He Hl IH]; intros pre c Hc; simpl.
  { rewrite app_nil_r. by split. }
  assert (Hnext : forall c, cand_ok (pre ++ [e]) c -> ~ matches ipaddr e ->
    match find_sweep ipaddr l (S (length pre)) c with
    | inl i => exists e', (pre ++ e :: l) !! i = Some e' /\ matches ipaddr e'
    | inr c' => cand_ok (pre ++ e :: l) c' /\ Forall (fun e => ~ matches ipaddr e) (e :: l)
    end).
  { intros c0 Hc0 Hn. specialize (IH (pre ++ [e]) c0 Hc0). rewrite length_app, Nat.add_1_r, <- app_assoc in IH. simpl in IH.
    destruct (find_sweep ipaddr l (S (length pre)) c0); [done|]. destruct IH; split; [done|by constructor]. }
  destruct Hc as [H1 H2 H3 H4].
  assert (Hfree : is_empty (ae_state e) = true -> ~ matches ipaddr e /\ ~ stable_entry e /\ ~ waiting e /\ ~ queueing e).
  { intros Hf. unfold matches, in_use, stable_entry, waiting, queueing.
    destruct (state_cases (ae_state e)) as [(? & ? & ?)|[(? & ? & ?)|(? & ? & ?)]]; split_and!; intros; naive_solver congruence. }
  destruct (is_empty (ae_state e)) eqn:Es.
  - destruct (Hfree eq_refl) as (Hm & Hn1 & Hn2 & Hn3).
    destruct (cd_empty c) as [j|] eqn:Ec.
    + rewrite bool_decide_false by done. simpl. apply Hnext; [|done]. split; [|by apply oldest_skip..].
      rewrite Ec. destruct H1 as (x & Hx & ?). exists x. split; [by apply lookup_app_l_Some|done].
    + rewrite bool_decide_true by done. simpl. apply Hnext; [|done]. split; simpl; [|by apply oldest_skip..].
      exists e. split; [by apply list_lookup_middle|done].
  - rewrite andb_false_r.
    assert (Hem : match cd_empty c with Some i => exists x, (pre ++ [e]) !! i = Some x /\ is_free x | None => Forall in_use (pre ++ [e]) end).
    { destruct (cd_empty c) as [j|]; [destruct H1 as (x & Hx & ?); exists x; split; [by apply lookup_app_l_Some|done]|].
      apply Forall_app; split; [done|by constructor]. }
    destruct (match ipaddr with Some ip => ip =? ae_ipaddr e | None => false end) eqn:Em.
    + exists e. split; [by apply list_lookup_middle|]. split; [done|]. destruct ipaddr as [ip|]; [|done].
      apply Z.eqb_eq in Em. by subst.
    + assert (Hm : ~ matches ipaddr e).
      { intros [_ ->]. by rewrite Z.eqb_refl in Em. }
      destruct (is_pending (ae_state e)) eqn:Ep.
      * assert (Hns : ~ stable_entry e) by (unfold stable_entry, is_stable; rewrite Ep, andb_false_r; done).
        destruct (ae_q e) eqn:Eq; apply Hnext; try done; split; simpl; try done;
          try (apply oldest_skip; [done|]); try (apply oldest_add; [done| |done]); unfold waiting, queueing; rewrite ?Eq; naive_solver.
      * apply Hnext; [|done]. split; simpl; [done| |apply oldest_skip; [done|]|apply oldest_skip; [done|]];
          [apply oldest_add; [done| |done]|..]; unfold stable_entry, is_stable, waiting, queueing; rewrite ?Es, ?Ep; naive_solver.
Qed.

(** ** etharp_find_entry *)

(** The entry that is taken for a new address. *)
Definition fresh_for (ip : Z) (e : etharp_entry) : etharp_entry :=
  e <| ae_q := None |> <| ae_state := ETHARP_STATE_EMPTY |> <| ae_ipaddr := ip |> <| ae_ctime := 0 |>.
(** The least important entry: an empty one; else the oldest stable one, else
    the oldest pending one without a packet, else the oldest with a packet. *)
Definition victim (i : nat) (e : etharp_entry) (l : list etharp_entry) : Prop :=
  is_free e \/ Forall in_use l /\
    (oldest stable_entry l (Some i, ae_ctime e) \/ Forall (fun e => ~ stable_entry e) l /\
      (oldest waiting l (Some i, ae_ctime e) \/ Forall (fun e => ~ waiting e) l /\
        oldest queueing l (Some i, ae_ctime e))).

Lemma no_candidates_ok : cand_ok [] no_candidates.
Proof. split; simpl; try done; split; done. Qed.

Lemma oldest_ctime P l i a : oldest P l (Some i, a) -> exists e, l !! i = Some e /\ P e /\ oldest P l (Some i, ae_ctime e).
Proof. intros (e & He & HP & <- & Hall). exists e. split_and!; [done|done|]. exists e. by split_and!. Qed.

Lemma in_use_cases e : in_use e -> stable_entry e \/ waiting e \/ queueing e.
Proof.
  unfold in_use, stable_entry, waiting, queueing. intros H.
  destruct (state_cases (ae_state e)) as [(? & ? & ?)|[(? & ? & ?)|(? & ? & ?)]]; [congruence| |by left].
  right. destruct (ae_q e); [right|left]; split; congruence || done.
Qed.

(** When no entry is empty, one is found to recycle. *)
Lemma recycle_spec c w : arp_ok w -> cand_ok (arp_table w) c -> cd_empty c = None ->
  exists i e, recycle c w = Ok (Some i) /\ arp_table w !! i = Some e /\ victim i e (arp_table w).
Proof.
  intros Hok [H1 H2 H3 H4] He. rewrite He in H1. unfold recycle, victim.
  destruct (cd_stable c) as [[i|] a]; simpl.
  { destruct (oldest_ctime _ _ _ _ H2) as (e & Hi & HP & Ho). exists i, e. unfold entry_at. rewrite Hi. simpl.
    rewrite bool_decide_true; [by split_and!; auto|].
    pose proof (proj1 (Forall_lookup _ _) (ao_entries _ Hok) _ _ Hi) as (Hq & _).
    destruct (ae_q e); [|done]. specialize (Hq ltac:(done)). unfold stable_entry in HP. by rewrite Hq in HP. }
  destruct H2 as [_ H2]. destruct (cd_pending c) as [[i|] a']; simpl.
  { destruct (oldest_ctime _ _ _ _ H3) as (e & Hi & HP & Ho). exists i, e. split_and!; auto. right. split; auto. }
  destruct H3 as [_ H3]. destruct (cd_queue c) as [[i|] a'']; simpl.
  { destruct (oldest_ctime _ _ _ _ H4) as (e & Hi & HP & Ho). exists i, e. split_and!; auto. right. split; auto. }
  destruct H4 as [_ H4]. exfalso. pose proof (ao_length _ Hok) as Hl. destruct (arp_table w) as [|e l]; [done|].
  apply Forall_cons in H1 as [H1 _]. apply Forall_cons in H2 as [H2 _]. apply Forall_cons in H3 as [H3 _].
  apply Forall_cons in H4 as [H4 _]. destruct (in_use_cases e H1) as [?|[?|?]]; tauto.
Qed.

(** The search: an entry in use with the address; or, when there is none and
    one may be taken, the least important entry, made ready for it. *)
Lemma find_entry_spec ip flags w : arp_ok w ->
  (exists i e, arp_table w !! i = Some e /\ in_use e /\ ae_ipaddr e = ip /\ etharp_find_entry (Some ip) flags w = Ok (Some i, w)) \/
  Forall (fun e => ~ matches (Some ip) e) (arp_table w) /\
    (has_flag flags ETHARP_FLAG_FIND_ONLY = true -> etharp_find_entry (Some ip) flags w = Ok (None, w)) /\
    (flags = ETHARP_FLAG_TRY_HARD -> exists i e, arp_table w !! i = Some e /\ victim i e (arp_table w) /\
       etharp_find_entry (Some ip) flags w = Ok (Some i, set_entry i (fresh_for ip e) w)).
Proof.
  intros Hok. unfold etharp_find_entry.
  assert (Hct : Forall (fun e => 0 <= ae_ctime e) (arp_table w)).
  { eapply Forall_impl; [apply Hok|]. intros e (_ & ? & _). lia. }
  pose proof (find_sweep_spec (Some ip) (arp_table w) [] no_candidates no_candidates_ok Hct) as Hs. simpl in Hs.
  destruct (find_sweep (Some ip) (arp_table w) 0 no_candidates) as [i|c].
  { left. destruct Hs as (e & Hi & Hu & [= ->]). by exists i, e. }
  right. destruct Hs as [Hc Hm]. split_and!; [done|by intros ->|]. intros ->.
  assert (Hv : exists i e, arp_table w !! i = Some e /\ victim i e (arp_table w) /\
    match cd_empty c with
    | Some i => Ok (Some i, w)
    | None => let! o := recycle c w in
              match o with None => Ok (None, w) | Some i => let! w := etharp_free_entry i w in Ok (Some i, w) end
    end = Ok (Some i, set_entry i (freed_entry e) w)).
  { destruct (cd_empty c) as [i|] eqn:Ec.
    - pose proof (co_empty _ _ Hc) as H. rewrite Ec in H. destruct H as (e & Hi & Hf). exists i, e.
      split_and!; [done|by left|]. do 2 f_equal. unfold set_entry.
      pose proof (proj1 (Forall_lookup _ _) (ao_entries _ Hok) _ _ Hi) as (Hq & _).
      replace (freed_entry e) with e; [by rewrite list_insert_id; destruct w|].
      unfold freed_entry. apply empty_eq in Hf. destruct e as [q ? ? ? st ?]; simpl in *. subst st.
      destruct q; [by specialize (Hq ltac:(done))|done].
    - destruct (recycle_spec c w Hok Hc Ec) as (i & e & -> & Hi & Hv). exists i, e. split_and!; [done..|].
      simpl. unfold etharp_free_entry, entry_at. by rewrite Hi. }
  destruct Hv as (i & e & Hi & Hv & Heq). exists i, e. split_and!; [done..|].
  change (has_flag ETHARP_FLAG_TRY_HARD ETHARP_FLAG_FIND_ONLY) with false.
  change (has_flag ETHARP_FLAG_TRY_HARD ETHARP_FLAG_TRY_HARD) with true. rewrite andb_false_r. cbn [orb].
  rewrite Heq. cbn [res_bind]. unfold entry_at, set_entry at 1. simpl arp_table.
  rewrite list_lookup_insert_eq by (by eapply lookup_lt_Some). simpl.
  do 2 f_equal. unfold set_entry. simpl. by rewrite list_insert_insert_eq.
Qed.

(** ** The operations keep the invariant *)
Lemma set_entry_ok i e0 e w : arp_ok w -> arp_table w !! i = Some e0 -> arp_entry_ok e ->
  (in_use e -> forall j x, arp_table w !! j = Some x -> in_use x -> ae_ipaddr x = ae_ipaddr e -> j = i) ->
  arp_ok (set_entry i e w).
Proof.
  intros [Hl Hc He Hu] Hi Hok Huse. split; simpl; [by rewrite length_insert|done|by apply Forall_insert|].
  intros j k a b. rewrite !list_lookup_insert_Some. intros [(<- & <- & _)|[Hj Ha]] [(<- & <- & _)|[Hk Hb]] Hua Hub Hab; [done| | |].
  - symmetry. eapply Huse; [done|exact Hb|done|done].
  - eapply Huse; [done|exact Ha|done|done].
  - by eapply Hu.
Qed.

(** Entry [i] is the one of address [ip], and the only one that may be. *)
Record slot (ip : Z) (i : nat) (e : etharp_entry) (w : arp_world) : Prop := {
  sl_ok : arp_ok w;
  sl_at : arp_table w !! i = Some e;
  sl_ip : ae_ipaddr e = ip;
  sl_only : forall j x, arp_table w !! j = Some x -> in_use x -> ae_ipaddr x = ip -> j = i
}.
Lemma slot_set ip i e e' w : slot ip i e w -> arp_entry_ok e' -> ae_ipaddr e' = ip -> slot ip i e' (set_entry i e' w).
Proof.
  intros [Hok Hi Hip Ho] He' Hip'. split; [|by apply list_lookup_insert_eq; eapply lookup_lt_Some|done|].
  - eapply set_entry_ok; [done..|]. rewrite Hip'. intros _. exact Ho.
  - intros j x. simpl. rewrite list_lookup_insert_Some. intros [(<- & _)|[_ Hj]]; [done|]. by eapply Ho.
Qed.
Lemma fresh_for_ok ip e : arp_entry_ok (fresh_for ip e).
Proof. unfold arp_entry_ok, fresh_for, ARP_MAXAGE; simpl. split_and!; try done; lia. Qed.

(** The table after the search for [ip]: as before, or with the least
    important entry made ready for it. *)
Definition searched (ip : Z) (i : nat) (e : etharp_entry) (w w1 : arp_world) : Prop :=
  (w1 = w /\ in_use e) \/
  (exists e0, arp_table w !! i = Some e0 /\ victim i e0 (arp_table w) /\ e = fresh_for ip e0 /\ w1 = set_entry i e w /\
     Forall (fun e => ~ matches (Some ip) e) (arp_table w)).

Lemma find_slot ip w : arp_ok w -> exists i e w1,
  etharp_find_entry (Some ip) ETHARP_FLAG_TRY_HARD w = Ok (Some i, w1) /\ slot ip i e w1 /\ searched ip i e w w1.
Proof.
  intros Hok. destruct (find_entry_spec ip ETHARP_FLAG_TRY_HARD w Hok) as [(i & e & Hi & Hu & Hip & Hf)|(Hm & _ & Hf)].
  - exists i, e, w. split_and!; [done| |by left]. split; [done..|]. intros j x Hj Hx Hxp.
    eapply (ao_unique _ Hok); [exact Hj|exact Hi|done|done|congruence].
  - destruct (Hf eq_refl) as (i & e & Hi & Hv & Heq). exists i, (fresh_for ip e), (set_entry i (fresh_for ip e) w).
    split_and!; [done| |right; by exists e]. split.
    + eapply set_entry_ok; [done..|apply fresh_for_ok|done].
    + apply list_lookup_insert_eq. by eapply lookup_lt_Some.
    + done.
    + intros j x. simpl. rewrite list_lookup_insert_Some. intros [(<- & _)|[_ Hj]]; [done|].
      intros Hx Hxp. exfalso. eapply Forall_lookup_1 in Hm; [|exact Hj]. apply Hm. split; [done|]. by rewrite Hxp.
Qed.

(** Steps that do not touch the table. *)
Definition same_table (w w' : arp_world) : Prop :=
  arp_table w' = arp_table w /\ etharp_cached_entry w' = etharp_cached_entry w.
Lemma same_table_ok w w' : same_table w w' -> arp_ok w -> arp_ok w'.
Proof. intros [Ht Hc] [H1 H2 H3 H4]. split; by rewrite ?Ht, ?Hc. Qed.
Lemma same_table_slot ip i e w w' : same_table w w' -> slot ip i e w -> slot ip i e w'.
Proof. intros Hs [H1 H2 H3 H4]. split; [by eapply same_table_ok|..]; destruct Hs as [Ht _]; by rewrite ?Ht. Qed.

Lemma linkoutput_spec id f w : exists r w', linkoutput id f w = (r, w') /\ same_table w w' /\ wire w' = wire w ++ [(id, f)] /\
  arp_allocs w' = arp_allocs w.
Proof.
  unfold linkoutput. simpl. destruct (link_results w) as [|e l] eqn:E; eexists _, _; (split; [reflexivity|]); by split_and!.
Qed.
Lemma arp_alloc_spec w : exists ok w', arp_alloc w = (ok, w') /\ same_table w w' /\ wire w' = wire w /\
  ok = match arp_allocs w with b :: _ => b | [] => true end /\ link_results w' = link_results w.
Proof. unfold arp_alloc. destruct (arp_allocs w) as [|b l]; eexists _, _; (split; [reflexivity|]); by split_and!. Qed.

(** The ARP request for [ip], when its pbuf can be allocated. *)
Definition request_frame (n : netif) (ip : Z) : frame :=
  mk_frame ethbroadcast (nif_hwaddr n) ETHTYPE_ARP
    (ArpPacket (mk_arp HWTYPE_ETHERNET ETHTYPE_IP ETHARP_HWADDR_LEN 4 ARP_REQUEST (nif_hwaddr n) (nif_ip_addr n) ethzero ip) []).
Lemma etharp_request_spec id n ip w : zlen (nif_hwaddr n) = ETHARP_HWADDR_LEN ->
  exists r w' sent, etharp_request id n ip w = Ok (r, w') /\ same_table w w' /\ wire w' = wire w ++ sent /\
    (sent = [] /\ r = ERR_MEM \/ sent = [(id, request_frame n ip)]).
Proof.
  intros Hh. unfold etharp_request, etharp_raw. destruct (arp_alloc_spec w) as (ok & w1 & -> & Hs & Hw & _ & _).
  destruct ok.
  - rewrite Hh. simpl Z.eqb. cbn [lwip_assert res_bind].
    destruct (linkoutput_spec id (mk_frame (if ip_addr_islinklocal (nif_ip_addr n) then ethbroadcast else ethbroadcast)
      (nif_hwaddr n) ETHTYPE_ARP (ArpPacket (mk_arp HWTYPE_ETHERNET ETHTYPE_IP ETHARP_HWADDR_LEN 4 ARP_REQUEST (nif_hwaddr n)
      (nif_ip_addr n) ethzero ip) [])) w1) as (r & w' & He & Hs' & Hw' & _).
    exists r, w', [(id, request_frame n ip)]. rewrite He. split_and!; [done|..].
    + destruct Hs, Hs'. split; congruence.
    + rewrite Hw', Hw. unfold request_frame. by destruct (ip_addr_islinklocal _).
    + by right.
  - exists ERR_MEM, w1, []. rewrite app_nil_r. split_and!; try done; apply Hs || by left.
Qed.

Definition ip_frame (n : netif) (mac : eth_addr) (bytes : list Z) : frame :=
  mk_frame mac (nif_hwaddr n) ETHTYPE_IP (IpPacket bytes).
Lemma etharp_send_spec id n p mac w : zlen (nif_hwaddr n) = ETHARP_HWADDR_LEN ->
  exists r w', etharp_send_ip id n p (nif_hwaddr n) mac w = Ok (r, w') /\ same_table w w' /\
  wire w' = wire w ++ [(id, ip_frame n mac p)].
Proof.
  intros Hh. unfold etharp_send_ip. rewrite Hh. change (ETHARP_HWADDR_LEN =? ETHARP_HWADDR_LEN) with true. cbn [lwip_assert res_bind].
  destruct (linkoutput_spec id (ip_frame n mac p) w) as (r & w' & H & Hs & Hw & _). exists r, w'. unfold ip_frame in H. by rewrite H.
Qed.

(** What an ARP message makes of the entry of its sender. *)
Definition learned (id : nat) (mac : eth_addr) (e : etharp_entry) : etharp_entry :=
  e <| ae_state := ETHARP_STATE_STABLE |> <| ae_netif := Some id |> <| ae_ethaddr := mac |> <| ae_ctime := 0 |> <| ae_q := None |>.
Lemma learned_ok id mac e : arp_entry_ok (learned id mac e).
Proof. unfold arp_entry_ok, learned, ARP_MAXAGE; simpl. split_and!; try done; lia. Qed.

Lemma find_any ip flags w : arp_ok w -> flags = ETHARP_FLAG_TRY_HARD \/ flags = ETHARP_FLAG_FIND_ONLY ->
  (exists i e w1, etharp_find_entry (Some ip) flags w = Ok (Some i, w1) /\ slot ip i e w1 /\ searched ip i e w w1) \/
  (flags = ETHARP_FLAG_FIND_ONLY /\ Forall (fun e => ~ matches (Some ip) e) (arp_table w) /\
   etharp_find_entry (Some ip) flags w = Ok (None, w)).
Proof.
  intros Hok [->| ->]; [left; by apply find_slot|].
  destruct (find_entry_spec ip ETHARP_FLAG_FIND_ONLY w Hok) as [(i & e & Hi & Hu & Hip & Hf)|(Hm & Hf & _)].
  - left. exists i, e, w. split_and!; [done| |by left]. split; [done..|]. intros j x Hj Hx Hxp.
    eapply (ao_unique _ Hok); [exact Hj|exact Hi|done|done|congruence].
  - right. split_and!; [done|done|by apply Hf].
Qed.
Lemma searched_wire ip i e w w1 : searched ip i e w w1 -> wire w1 = wire w.
Proof. by intros [[-> _]|(e0 & _ & _ & _ & -> & _)]. Qed.

Lemma update_spec id n ip mac flags w : arp_ok w -> zlen (nif_hwaddr n) = ETHARP_HWADDR_LEN ->
  flags = ETHARP_FLAG_TRY_HARD \/ flags = ETHARP_FLAG_FIND_ONLY -> non_unicast ip n = false ->
  (flags = ETHARP_FLAG_FIND_ONLY /\ Forall (fun e => ~ matches (Some ip) e) (arp_table w) /\
   etharp_update_arp_entry id n ip mac flags w = Ok (ERR_MEM, w)) \/
  (exists i e w1 w', etharp_update_arp_entry id n ip mac flags w = Ok (ERR_OK, w') /\ slot ip i e w1 /\ searched ip i e w w1 /\
     slot ip i (learned id mac e) w' /\ arp_table w' = <[i := learned id mac e]> (arp_table w1) /\
     wire w' = wire w ++ match ae_q e with Some p => [(id, ip_frame n mac (pk_bytes p))] | None => [] end).
Proof.
  intros Hok Hh Hfl Hu. unfold etharp_update_arp_entry. rewrite Hh, Hu. simpl Z.eqb. cbn [lwip_assert res_bind].
  destruct (find_any ip flags w Hok Hfl) as [(i & e & w1 & Hf & Hsl & Hse)|(-> & Hm & Hf)]; rewrite Hf; cbn [res_bind]; [|by left].
  right. unfold entry_at. rewrite (sl_at _ _ _ _ Hsl). cbn [of_option res_bind].
  change (set_field ae_q None _) with (learned id mac e). set (w2 := set_entry i (learned id mac e) w1).
  assert (Hsl2 : slot ip i (learned id mac e) w2) by (apply (slot_set ip i e); [done|apply learned_ok|apply Hsl]).
  pose proof (searched_wire _ _ _ _ _ Hse) as Hw.
  destruct (ae_q e) as [p|] eqn:Eq.
  - destruct (etharp_send_spec id n (pk_bytes p) mac w2 Hh) as (r & w' & -> & Hs & Hw'). cbn [res_bind]. exists i, e, w1, w'.
    rewrite Eq. split_and!; [done..|by eapply same_table_slot|by destruct Hs as [-> _]|by rewrite Hw', <- Hw].
  - exists i, e, w1, w2. rewrite Eq. split_and!; [done..|by rewrite app_nil_r].
Qed.

Lemma query_spec id n ip q w : arp_ok w -> zlen (nif_hwaddr n) = ETHARP_HWADDR_LEN -> non_unicast ip n = false ->
  exists i e w1 r w' sent, etharp_query id n ip q w = Ok (r, w') /\ slot ip i e w1 /\ searched ip i e w w1 /\ arp_ok w' /\
    wire w' = wire w ++ sent /\
    (if is_stable (ae_state e) then
       arp_table w' = arp_table w1 /\
       match q with Some p => sent = [(id, ip_frame n (ae_ethaddr e) (pk_bytes p))] | None => sent = [] \/ sent = [(id, request_frame n ip)] end
     else
       (sent = [] \/ sent = [(id, request_frame n ip)]) /\
       exists e', slot ip i e' w' /\ is_pending (ae_state e') = true /\
         (ae_q e' = ae_q e \/ r = ERR_OK /\ ae_q e' = q /\ q <> None) /\ (q <> None -> r = ERR_OK -> ae_q e' = q)).
Proof.
  intros Hok Hh Hu. unfold etharp_query. rewrite Hu. destruct (find_slot ip w Hok) as (i & e & w1 & -> & Hsl & Hse).
  cbn [res_bind]. unfold entry_at. rewrite (sl_at _ _ _ _ Hsl). cbn [of_option res_bind].
  pose proof (searched_wire _ _ _ _ _ Hse) as Hw.
  pose proof (proj1 (Forall_lookup _ _) (ao_entries _ (sl_ok _ _ _ _ Hsl)) _ _ (sl_at _ _ _ _ Hsl)) as Heo.
  exists i, e, w1.
  set (e1 := if is_empty (ae_state e) then e <| ae_state := ETHARP_STATE_PENDING |> else e).
  set (w2 := if is_empty (ae_state e) then set_entry i (e <| ae_state := ETHARP_STATE_PENDING |>) w1 else w1).
  assert (He1 : arp_entry_ok e1 /\ ae_ipaddr e1 = ip /\ ae_q e1 = ae_q e /\ is_stable (ae_state e1) = is_stable (ae_state e) /\
    is_pending (ae_state e1) = negb (is_stable (ae_state e)) /\ ae_ethaddr e1 = ae_ethaddr e).
  { unfold e1. pose proof (sl_ip _ _ _ _ Hsl) as Hip. destruct (is_empty (ae_state e)) eqn:Es.
    - assert (Hfr : ae_q e = None /\ ae_ctime e = 0).
      { destruct Hse as [[_ Hus]|(e0 & _ & _ & -> & _)]; [unfold in_use in Hus; congruence|done]. }
      destruct Hfr as [Hq Hct]. apply empty_eq in Es. unfold arp_entry_ok. simpl. rewrite Es, Hq, Hct.
      unfold ARP_MAXAGE, ARP_MAXPENDING. split_and!; try done; lia.
    - split_and!; try done. unfold is_stable. rewrite Es. by destruct (is_pending (ae_state e)). }
  destruct He1 as (Heo1 & Hip1 & Hq1 & Hst1 & Hpe1 & Hea1).
  assert (Hsl2 : slot ip i e1 w2).
  { unfold e1, w2 in *. destruct (is_empty (ae_state e)); [by apply (slot_set ip i e)|done]. }
  assert (Hw2 : wire w2 = wire w) by (unfold w2; by destruct (is_empty (ae_state e))).
  assert (Hw2t : is_stable (ae_state e) = true -> w2 = w1).
  { unfold w2, is_stable. by destruct (is_empty (ae_state e)). }
  rewrite (sl_at _ _ _ _ Hsl2). cbn [of_option res_bind]. rewrite Hpe1, Hst1.
  destruct (etharp_request_spec id n ip w2 Hh) as (rr & w3 & sent & Hreq & Hs3 & Hw3 & Hsent).
  pose proof (same_table_slot _ _ _ _ _ Hs3 Hsl2) as Hsl3.
  destruct (is_stable (ae_state e)) eqn:Est; simpl negb; cbn [orb].
  - rewrite (Hw2t eq_refl) in *. destruct q as [p|].
    + rewrite (bool_decide_false (Some p = None)) by done. cbn [res_bind].
      destruct (etharp_send_spec id n (pk_bytes p) (ae_ethaddr e1) (w1 <| etharp_cached_entry := i |>) Hh) as (r & w' & -> & Hs & Hw').
      exists r, w', [(id, ip_frame n (ae_ethaddr e) (pk_bytes p))]. rewrite <- Hea1. split_and!; try done.
      * eapply same_table_ok; [exact Hs|]. pose proof (sl_ok _ _ _ _ Hsl2) as [A1 A2 A3 A4]. split; simpl; try done.
        rewrite <- A1. eapply lookup_lt_Some. apply Hsl2.
      * by rewrite Hw', <- Hw2.
      * by destruct Hs as [-> _].
    + rewrite bool_decide_true by done. rewrite Hreq. cbn [res_bind]. exists rr, w3, sent. split_and!; try done; [apply Hsl3|by rewrite Hw3, Hw2|apply Hs3|naive_solver].
  - rewrite Hreq. cbn [res_bind]. destruct q as [p|].
    + destruct (if pk_rom p then (true, w3) else arp_alloc w3) as [ok w4] eqn:Ea.
      assert (Hs4 : same_table w3 w4 /\ wire w4 = wire w3).
      { destruct (pk_rom p); [by injection Ea as <- <-|]. destruct (arp_alloc_spec w3) as (ok' & w' & Heq & Hs & Hww & _).
        rewrite Heq in Ea. injection Ea as <- <-. done. }
      destruct Hs4 as [Hs4 Hw4]. pose proof (same_table_slot _ _ _ _ _ Hs4 Hsl3) as Hsl4.
      destruct ok.
      * assert (Hsl5 : slot ip i (e1 <| ae_q := Some p |>) (set_entry i (e1 <| ae_q := Some p |>) w4)).
        { apply (slot_set ip i e1); [done| |done]. unfold arp_entry_ok in *. simpl. split_and!; try tauto. intros _. by apply pending_eq. }
        eexists _, _, sent. split_and!; [done..|apply Hsl5|by simpl; rewrite Hw4, Hw3, Hw2|naive_solver|].
        exists (e1 <| ae_q := Some p |>). split_and!; [done|done|right; split_and!; done|done].
      * eexists _, _, sent. split_and!; [done..|apply Hsl4|by rewrite Hw4, Hw3, Hw2|naive_solver|].
        exists e1. split_and!; [done|done|by left|done].
    + exists rr, w3, sent. split_and!; [done..|apply Hsl3|by rewrite Hw3, Hw2|naive_solver|].
      exists e1. split_and!; [done|done|by left|done].
Qed.

(** ** etharp_output *)
Lemma output_to_index_spec id n p i e ip w : slot ip i e w -> stable_entry e -> zlen (nif_hwaddr n) = ETHARP_HWADDR_LEN ->
  exists r w' req e', etharp_output_to_arp_index id n p i w = Ok (r, w') /\ slot ip i e' w' /\ stable_entry e' /\
    ae_ethaddr e' = ae_ethaddr e /\ wire w' = wire w ++ req ++ [(id, ip_frame n (ae_ethaddr e) p)] /\
    (req = [] \/ req = [(id, request_frame n ip)] /\ ARP_AGE_REREQUEST_USED <= ae_ctime e).
Proof.
  intros Hsl Hst Hh. unfold etharp_output_to_arp_index, entry_at. rewrite (sl_at _ _ _ _ Hsl). cbn [of_option res_bind].
  rewrite Hst. cbn [lwip_assert res_bind].
  destruct (bool_decide (ae_state e = ETHARP_STATE_STABLE) && (ARP_AGE_REREQUEST_USED <=? ae_ctime e)) eqn:Eo.
  - apply andb_prop in Eo as [_ Ho%Z.leb_le]. rewrite (sl_ip _ _ _ _ Hsl).
    destruct (etharp_request_spec id n ip w Hh) as (rr & w1 & sent & -> & Hs1 & Hw1 & Hsent). cbn [res_bind].
    pose proof (same_table_slot _ _ _ _ _ Hs1 Hsl) as Hsl1.
    set (w2 := if rr =? ERR_OK then _ else w1).
    assert (H2 : exists e2, slot ip i e2 w2 /\ stable_entry e2 /\ ae_ethaddr e2 = ae_ethaddr e /\ wire w2 = wire w1).
    { unfold w2. destruct (rr =? ERR_OK); [|by exists e].
      exists (e <| ae_state := ETHARP_STATE_STABLE_REREQUESTING |>). split_and!; try done. apply (slot_set ip i e); [done| |apply Hsl].
      pose proof (proj1 (Forall_lookup _ _) (ao_entries _ (sl_ok _ _ _ _ Hsl)) _ _ (sl_at _ _ _ _ Hsl)) as (Hq & Hc & _ & Hb).
      split_and!; simpl; try done; try apply Hc; [|by intros _; apply Hb]. intros Hqn. apply Hq in Hqn.
      unfold stable_entry in Hst. by rewrite Hqn in Hst. }
    destruct H2 as (e2 & Hsl2 & Hst2 & Hea2 & Hw2). rewrite (sl_at _ _ _ _ Hsl2). cbn [of_option res_bind].
    destruct (etharp_send_spec id n p (ae_ethaddr e2) w2 Hh) as (r & w' & -> & Hs & Hw'). rewrite Hea2 in *.
    exists r, w', sent, e2. split_and!; [done|by eapply same_table_slot|done|done|by rewrite Hw', Hw2, Hw1, <- app_assoc|].
    destruct Hsent as [[-> _]|Hsent]; [by left|by right].
  - cbn [res_bind]. rewrite (sl_at _ _ _ _ Hsl). cbn [of_option res_bind].
    destruct (etharp_send_spec id n p (ae_ethaddr e) w Hh) as (r & w' & -> & Hs & Hw').
    exists r, w', [], e. split_and!; [done|by eapply same_table_slot|done|done|done|by left].
Qed.

(** The address of a host as the table knows it. *)
Definition resolves (w : arp_world) (ip : Z) (mac : eth_addr) : Prop :=
  exists i e, slot ip i e w /\ stable_entry e /\ ae_ethaddr e = mac.
Definition unresolved (w : arp_world) (ip : Z) : Prop :=
  Forall (fun e => ~ (stable_entry e /\ ae_ipaddr e = ip)) (arp_table w).
(** The packet that waits for the address of a host. *)
Definition awaits (w : arp_world) (ip : Z) (q : option packet) : Prop :=
  exists i e, slot ip i e w /\ is_pending (ae_state e) = true /\ ae_q e = q.

Lemma stable_in_use e : stable_entry e -> in_use e.
Proof. unfold stable_entry, in_use, is_stable. by destruct (is_empty (ae_state e)). Qed.
Lemma stable_slot w ip i e : arp_ok w -> arp_table w !! i = Some e -> stable_entry e -> ae_ipaddr e = ip -> slot ip i e w.
Proof.
  intros Hok Hi Hs Hip. split; [done..|]. intros j x Hj Hx Hxp.
  eapply (ao_unique _ Hok); [exact Hj|exact Hi|done|by apply stable_in_use|congruence].
Qed.
Lemma find_stable_spec ip l i :
  match find_stable ip l i with
  | Some j => exists e, (i <= j)%nat /\ l !! (j - i)%nat = Some e /\ stable_entry e /\ ae_ipaddr e = ip
  | None => Forall (fun e => ~ (stable_entry e /\ ae_ipaddr e = ip)) l
  end.
Proof.
  revert i. induction l as [|e l IH]; intros i; simpl; [constructor|]. unfold stable_for.
  destruct (is_stable (ae_state e)) eqn:Es; [destruct (Z.eqb_spec ip (ae_ipaddr e)) as [->|Hne]|]; simpl.
  { exists e. by rewrite Nat.sub_diag. }
  all: specialize (IH (S i)); destruct (find_stable ip l (S i)) as [j|].
  1,3: destruct IH as (x & Hle & Hx & ?); exists x; split_and!; [lia| |tauto..];
    by replace (j - i)%nat with (S (j - S i)) by lia.
  - constructor; [intros [_ ?]; congruence|done].
  - constructor; [unfold stable_entry; intros [? _]; congruence|done].
Qed.

(** The unicast part of [etharp_output], after the next hop is chosen: a packet
    for a resolved host goes to its address, whether the cached entry or the
    table gives it; any other is left to [etharp_query]. *)
Lemma output_unicast_spec id n q ip dst w : arp_ok w -> zlen (nif_hwaddr n) = ETHARP_HWADDR_LEN ->
  ip4_addr_isbroadcast ip n = false -> ip_addr_ismulticast ip = false -> next_hop n (pk_bytes q) ip = Ok (Some dst) ->
  (exists mac r w' req, etharp_output id n q true ip w = Ok (r, w') /\ arp_ok w' /\ resolves w dst mac /\ resolves w' dst mac /\
     wire w' = wire w ++ req ++ [(id, ip_frame n mac (pk_bytes q))] /\ (req = [] \/ req = [(id, request_frame n dst)])) \/
  (unresolved w dst /\ etharp_output id n q true ip w = etharp_query id n dst (Some q) w).
Proof.
  intros Hok Hh Hb Hm Hhop. unfold etharp_output. rewrite Hb, Hm, Hhop. cbn [negb res_bind]. cbn iota.
  destruct (lookup_lt_is_Some_2 (arp_table w) (etharp_cached_entry w)) as [c Hc];
    [rewrite (ao_length _ Hok); apply Hok|].
  unfold entry_at. rewrite Hc. cbn [of_option res_bind].
  assert (Hout : forall i e w1, arp_table w1 = arp_table w -> wire w1 = wire w -> arp_ok w1 -> arp_table w !! i = Some e ->
    stable_entry e -> ae_ipaddr e = dst ->
    exists mac r w' req, etharp_output_to_arp_index id n (pk_bytes q) i w1 = Ok (r, w') /\ arp_ok w' /\ resolves w dst mac /\
      resolves w' dst mac /\ wire w' = wire w ++ req ++ [(id, ip_frame n mac (pk_bytes q))] /\ (req = [] \/ req = [(id, request_frame n dst)])).
  { intros i e w1 Ht Hw Hok1 Hi Hst Hip.
    assert (Hsl : slot dst i e w1) by (apply stable_slot; [done|by rewrite Ht|done|done]).
    destruct (output_to_index_spec id n (pk_bytes q) i e dst w1 Hsl Hst Hh) as (r & w' & req & e' & He & Hsl' & Hst' & Hea & Hww & Hreq).
    exists (ae_ethaddr e), r, w', req. rewrite Hw in Hww. split_and!; [done|apply Hsl'| | |done|naive_solver].
    - exists i, e. split_and!; [by apply stable_slot|done..].
    - by exists i, e'. }
  destruct (stable_for dst c) eqn:Es.
  - left. unfold stable_for in Es. apply andb_prop in Es as [Hst Hip%Z.eqb_eq]. by eapply Hout.
  - pose proof (find_stable_spec dst (arp_table w) 0) as Hf.
    destruct (find_stable dst (arp_table w) 0) as [i|]; [|by right]. left.
    destruct Hf as (e & _ & Hi & Hst & Hip). rewrite Nat.sub_0_r in Hi.
    apply (Hout i e); [done|done| |done|done|done].
    destruct Hok as [A1 A2 A3 A4]. split; simpl; try done. rewrite <- A1. by eapply lookup_lt_Some.
Qed.

(** ** The timer *)
Lemma age_entry_ok e : arp_entry_ok e -> arp_entry_ok (age_entry e) /\ ae_ipaddr (age_entry e) = ae_ipaddr e /\
  (in_use (age_entry e) -> in_use e /\ ae_ctime (age_entry e) = ae_ctime e + 1).
Proof.
  intros (Hq & Hc & Hp & Hs). unfold age_entry. destruct (is_empty (ae_state e)) eqn:Es.
  { split_and!; try done; try lia; unfold in_use; congruence. }
  assert (Hlt : ae_ctime e < ARP_MAXAGE).
  { destruct (state_cases (ae_state e)) as [(? & ? & ?)|[(? & Hpp & ?)|(? & ? & Hss)]]; [congruence| |by apply Hs].
    specialize (Hp Hpp). unfold ARP_MAXPENDING, ARP_MAXAGE in *. lia. }
  unfold ARP_MAXAGE, ARP_MAXPENDING in *. rewrite (u8_id (ae_ctime e + 1)) by lia. simpl.
  destruct (Z.leb_spec 240 (ae_ctime e + 1)) as [Hge|Hl]; simpl.
  { unfold arp_entry_ok, freed_entry, in_use, ARP_MAXAGE; simpl. split_and!; try done; try lia. }
  destruct (is_pending (ae_state e) && (2 <=? ae_ctime e + 1)) eqn:Ep.
  { unfold arp_entry_ok, freed_entry, in_use, ARP_MAXAGE; simpl. split_and!; try done; try lia. }
  apply andb_false_iff in Ep. case_bool_decide as Hr; unfold arp_entry_ok, in_use, ARP_MAXAGE, ARP_MAXPENDING; simpl.
  - rewrite Hr in *. split_and!; try done; try lia. intros Hqn. specialize (Hq Hqn). done.
  - split_and!; try done; try lia. intros Hpp. rewrite Hpp in Ep. destruct Ep as [|Ep]; [done|]. apply Z.leb_gt in Ep. lia.
Qed.

Lemma map_table_ok (f : etharp_entry -> etharp_entry) w :
  (forall e, arp_entry_ok e -> arp_entry_ok (f e) /\ ae_ipaddr (f e) = ae_ipaddr e /\ (in_use (f e) -> in_use e)) ->
  arp_ok w -> arp_ok (w <| arp_table := map f (arp_table w) |>).
Proof.
  intros Hf [Hl Hc He Hu]. split; simpl; [by rewrite length_map|done| |].
  - rewrite Forall_map. eapply Forall_impl; [exact He|]. intros e Hee. by apply Hf.
  - intros i j a b. rewrite !list_lookup_fmap. intros (a0 & Ha & ->)%fmap_Some (b0 & Hb & ->)%fmap_Some Hua Hub Hab.
    pose proof (proj1 (Forall_lookup _ _) He _ _ Ha) as Ha1. pose proof (proj1 (Forall_lookup _ _) He _ _ Hb) as Hb1.
    destruct (Hf a0 Ha1) as (_ & Ea & Ua). destruct (Hf b0 Hb1) as (_ & Eb & Ub).
    eapply Hu; [exact Ha|exact Hb|by apply Ua|by apply Ub|congruence].
Qed.
Lemma etharp_tmr_ok w : arp_ok w -> arp_ok (etharp_tmr w).
Proof. apply map_table_ok. intros e He. destruct (age_entry_ok e He) as (? & ? & Hi). split_and!; [done..|]. intros Hu. by apply Hi. Qed.
Lemma etharp_cleanup_ok id w : arp_ok w -> arp_ok (etharp_cleanup_netif id w).
Proof.
  apply map_table_ok. intros e He. destruct (_ && _); [|done]. destruct He as (Hq & Hc & Hp & Hs).
  unfold arp_entry_ok, freed_entry, in_use; simpl. by split_and!; try apply Hc.
Qed.
Lemma etharp_tmr_iter k w : arp_ok w ->
  arp_ok (Nat.iter k etharp_tmr w) /\ Forall (fun e => in_use e -> Z.of_nat k <= ae_ctime e) (arp_table (Nat.iter k etharp_tmr w)).
Proof.
  intros Hok. induction k as [|k [IH1 IH2]]; simpl.
  - split; [done|]. eapply Forall_impl; [apply Hok|]. intros e (_ & Hc & _) _. lia.
  - split; [by apply etharp_tmr_ok|]. rewrite Forall_map. pose proof (ao_entries _ IH1) as He.
    rewrite Forall_forall in *. intros e Hin Hu. destruct (age_entry_ok e (He e Hin)) as (_ & _ & Hi).
    destruct (Hi Hu) as [Hu' ->]. specialize (IH2 e Hin Hu'). lia.
Qed.

(** ** Properties *)
Definition ends_ok {A} (r : res (A * arp_world)) : Prop := exists a w', r = Ok (a, w') /\ arp_ok w'.

Lemma send_ends id n p dst w : arp_ok w -> zlen (nif_hwaddr n) = ETHARP_HWADDR_LEN -> ends_ok (etharp_send_ip id n p (nif_hwaddr n) dst w).
Proof.
  intros Hok Hh. destruct (etharp_send_spec id n p dst w Hh) as (r & w' & -> & Hs & _). exists r, w'. split; [done|by eapply same_table_ok].
Qed.
Lemma query_ends id n ip q w : arp_ok w -> zlen (nif_hwaddr n) = ETHARP_HWADDR_LEN -> ends_ok (etharp_query id n ip q w).
Proof.
  intros Hok Hh. destruct (non_unicast ip n) eqn:Hu; [unfold etharp_query; rewrite Hu; by exists ERR_ARG, w|].
  destruct (query_spec id n ip q w Hok Hh Hu) as (i & e & w1 & r & w' & sent & -> & _ & _ & Hok' & _). by exists r, w'.
Qed.

Lemma output_ends id n q header ip w : arp_ok w -> zlen (nif_hwaddr n) = ETHARP_HWADDR_LEN -> 16 <= zlen (pk_bytes q) ->
  ends_ok (etharp_output id n q header ip w).
Proof.
  intros Hok Hh Hq. destruct header; [|by exists ERR_BUF, w].
  destruct (ip4_addr_isbroadcast ip n) eqn:Hb; [unfold etharp_output; rewrite Hb; by apply send_ends|].
  destruct (ip_addr_ismulticast ip) eqn:Hm; [unfold etharp_output; rewrite Hb, Hm; by apply send_ends|].
  assert (Hhop : exists o, next_hop n (pk_bytes q) ip = Ok o).
  { unfold next_hop. destruct (_ || _); [eauto|]. unfold packet_src.
    assert (Hl : length (slice 12 4 (pk_bytes q)) = 4%nat) by (pose proof (zlen_slice 12 4 (pk_bytes q)); unfold zlen in *; lia).
    destruct (slice 12 4 (pk_bytes q)) as [|a [|b [|c [|d [|]]]]]; try done. cbn [res_bind].
    destruct (ip_addr_islinklocal _); [eauto|]. destruct (_ =? _); eauto. }
  destruct Hhop as [[dst|] Hhop].
  + destruct (output_unicast_spec id n q ip dst w Hok Hh Hb Hm Hhop) as [(mac & r & w' & req & -> & Hok' & _)|[_ ->]];
      [by exists r, w'|by apply query_ends].
  + unfold etharp_output. rewrite Hb, Hm, Hhop. by exists ERR_RTE, w.
Qed.

(** C30. The ARP table stays well-formed: ten entries, no two of those in use
    for the same address, a packet waits only on a pending entry, pending
    entries are younger than 2 ticks and stable ones younger than 240. Every
    operation keeps this and ends without a failed assertion, whatever the
    driver answers and whatever allocations fail. The timer empties the whole
    table in 240 ticks without traffic. *)
Theorem arp_table_correct id n w : arp_ok w -> zlen (nif_hwaddr n) = ETHARP_HWADDR_LEN ->
  arp_ok (etharp_tmr w) /\ arp_ok (etharp_cleanup_netif id w) /\
  (forall ip mac flags, flags = ETHARP_FLAG_TRY_HARD \/ flags = ETHARP_FLAG_FIND_ONLY ->
     ends_ok (etharp_update_arp_entry id n ip mac flags w)) /\
  (forall ip q, ends_ok (etharp_query id n ip q w)) /\
  (forall q header ip, 16 <= zlen (pk_bytes q) -> ends_ok (etharp_output id n q header ip w)) /\
  Forall is_free (arp_table (Nat.iter (Z.to_nat ARP_MAXAGE) etharp_tmr w)).
Proof.
  intros Hok Hh. split_and!; [by apply etharp_tmr_ok|by apply etharp_cleanup_ok| |intros; by apply query_ends| |].
  - intros ip mac flags Hfl. destruct (non_unicast ip n) eqn:Hu.
    + unfold etharp_update_arp_entry. rewrite Hh, Hu. by exists ERR_ARG, w.
    + destruct (update_spec id n ip mac flags w Hok Hh Hfl Hu) as [(_ & _ & ->)|(i & e & w1 & w' & -> & _ & _ & Hsl & _)];
        [by exists ERR_MEM, w|]. exists ERR_OK, w'. split; [done|apply Hsl].
  - intros q header ip Hq. by apply output_ends.
  - destruct (etharp_tmr_iter (Z.to_nat ARP_MAXAGE) w Hok) as [Hok' Hall].
    pose proof (ao_entries _ Hok') as He. rewrite Forall_forall in *. intros e Hin. unfold is_free.
    destruct (is_empty (ae_state e)) eqn:Es; [done|exfalso]. specialize (Hall e Hin Es). destruct (He e Hin) as (_ & _ & Hp & Hs).
    unfold ARP_MAXAGE, ARP_MAXPENDING in *.
    destruct (state_cases (ae_state e)) as [(? & ? & ?)|[(? & Hpp & ?)|(? & ? & Hss)]]; [congruence|specialize (Hp Hpp); lia|specialize (Hs Hss); lia].
Qed.

(** C31. Where a unicast packet goes. When the address of the next hop is known,
    the packet is sent to it at once (together with a new request, when the
    entry is about to expire). Otherwise nothing but a request for that
    address is sent and, when ERR_OK is returned, the packet waits; the ARP
    message of the next hop then sends exactly this packet, to the address
    the message gives, and makes it known. *)
Theorem etharp_output_correct id n q ip dst mac w : arp_ok w -> zlen (nif_hwaddr n) = ETHARP_HWADDR_LEN ->
  ip4_addr_isbroadcast ip n = false -> ip_addr_ismulticast ip = false -> next_hop n (pk_bytes q) ip = Ok (Some dst) ->
  non_unicast dst n = false ->
  exists r w1 sent, etharp_output id n q true ip w = Ok (r, w1) /\ arp_ok w1 /\ (sent = [] \/ sent = [(id, request_frame n dst)]) /\
    ((exists known, resolves w dst known /\ resolves w1 dst known /\
        wire w1 = wire w ++ sent ++ [(id, ip_frame n known (pk_bytes q))]) \/
     (unresolved w dst /\ wire w1 = wire w ++ sent /\
      (r = ERR_OK -> awaits w1 dst (Some q) /\
         exists w2, etharp_update_arp_entry id n dst mac ETHARP_FLAG_FIND_ONLY w1 = Ok (ERR_OK, w2) /\ arp_ok w2 /\
           wire w2 = wire w1 ++ [(id, ip_frame n mac (pk_bytes q))] /\ resolves w2 dst mac))).
Proof.
  intros Hok Hh Hb Hm Hhop Hu.
  destruct (output_unicast_spec id n q ip dst w Hok Hh Hb Hm Hhop)
    as [(known & r & w1 & req & -> & Hok1 & Hr & Hr1 & Hw & Hreq)|[Hun ->]].
  { exists r, w1, req. split_and!; [done..|]. left. by exists known. }
  destruct (query_spec id n dst (Some q) w Hok Hh Hu) as (i & e & w0 & r & w1 & sent & -> & Hsl & Hse & Hok1 & Hw & Hcase).
  destruct (is_stable (ae_state e)) eqn:Est.
  { exfalso. destruct Hse as [[-> _]|(e0 & _ & _ & -> & _)]; [|done].
    eapply Forall_lookup_1 in Hun; [|apply Hsl]. apply Hun. split; [exact Est|apply Hsl]. }
  destruct Hcase as (Hsent & e' & Hsl' & Hpe & _ & Hq). exists r, w1, sent. split_and!; [done..|]. right.
  split_and!; [done..|]. intros Hr. specialize (Hq ltac:(done) Hr). split; [by exists i, e'|].
  destruct (update_spec id n dst mac ETHARP_FLAG_FIND_ONLY w1 Hok1 Hh ltac:(by right) Hu)
    as [(_ & Hno & _)|(j & x & w1' & w2 & -> & Hslx & Hsx & Hsl2 & _ & Hw2)].
  { exfalso. eapply Forall_lookup_1 in Hno; [|apply Hsl']. apply Hno. split.
    - unfold in_use. apply pending_eq in Hpe. by rewrite Hpe.
    - by rewrite (sl_ip _ _ _ _ Hsl'). }
  exists w2. split_and!; [done|apply Hsl2| |exists j, (learned id mac x); by split_and!].
  assert (Hx : x = e').
  { destruct Hsx as [[-> Hux]|(e0 & _ & _ & _ & _ & Hno)].
    - pose proof (sl_only _ _ _ _ Hsl' j x (sl_at _ _ _ _ Hslx) Hux (sl_ip _ _ _ _ Hslx)) as ->.
      pose proof (sl_at _ _ _ _ Hslx) as H1. rewrite (sl_at _ _ _ _ Hsl') in H1. congruence.
    - exfalso. eapply Forall_lookup_1 in Hno; [|apply Hsl']. apply Hno. split.
      + unfold in_use. apply pending_eq in Hpe. by rewrite Hpe.
      + by rewrite (sl_ip _ _ _ _ Hsl'). }
  subst x. by rewrite Hw2, Hq.
Qed.

(** ** Witnesses *)
Definition demo_netif : netif :=
  mk_netif (load_le32 192 168 0 2) (load_le32 255 255 255 0) (load_le32 192 168 0 1) 1500 [2; 0; 0; 0; 0; 1]
    (Z.lor (Z.lor NETIF_FLAG_UP NETIF_FLAG_BROADCAST) (Z.lor NETIF_FLAG_LINK_UP NETIF_FLAG_ETHARP)) (101, 110) 0.
Definition empty_entry : etharp_entry := mk_entry None 0 None [] ETHARP_STATE_EMPTY 0.
Definition demo_arp : arp_world := mk_arp_world (replicate ARP_TABLE_SIZE empty_entry) 0 [] [] [].
Definition demo_host : Z := load_le32 192 168 0 9.
Definition demo_packet : packet := mk_packet false (repeat 0 24).
Definition demo_mac : eth_addr := [2; 0; 0; 0; 0; 9].

Lemma demo_arp_ok : arp_ok demo_arp.
Proof.
  split; [done|unfold ARP_TABLE_SIZE; simpl; lia| |].
  - apply Forall_forall. intros e He. apply elem_of_replicate_inv in He as ->.
    unfold arp_entry_ok, ARP_MAXAGE; simpl. split_and!; try done; lia.
  - intros i j a b Ha _ Hua _ _. apply list_elem_of_lookup_2, elem_of_replicate_inv in Ha as ->. done.
Qed.

(** Every operation ends on the empty table. *)
Lemma arp_table_correct_witness : arp_ok (etharp_tmr demo_arp) /\
  ends_ok (etharp_output 0 demo_netif demo_packet true demo_host demo_arp).
Proof.
  destruct (arp_table_correct 0 demo_netif demo_arp demo_arp_ok eq_refl) as (H1 & _ & _ & _ & H2 & _).
  split; [exact H1|]. apply H2. vm_compute. discriminate.
Defined.

(** A packet for an unknown host waits and is sent when the host answers. *)
Lemma etharp_output_correct_witness : exists w1 w2,
  etharp_output 0 demo_netif demo_packet true demo_host demo_arp = Ok (ERR_OK, w1) /\
  awaits w1 demo_host (Some demo_packet) /\
  etharp_update_arp_entry 0 demo_netif demo_host demo_mac ETHARP_FLAG_FIND_ONLY w1 = Ok (ERR_OK, w2) /\
  wire w2 = wire w1 ++ [(0%nat, ip_frame demo_netif demo_mac (pk_bytes demo_packet))] /\ resolves w2 demo_host demo_mac.
Proof.
  destruct (etharp_output_correct 0 demo_netif demo_packet demo_host demo_host demo_mac demo_arp demo_arp_ok eq_refl
    ltac:(by vm_compute) ltac:(by vm_compute) ltac:(by vm_compute) ltac:(by vm_compute))
    as (r & w1 & sent & Hout & _ & _ & [(known & (i & e & Hsl & Hst & _) & _)|(_ & _ & Hw)]).
  - exfalso. apply sl_at, list_elem_of_lookup_2, elem_of_replicate_inv in Hsl as ->. discriminate Hst.
  - assert (Hr : r = ERR_OK).
    { assert (H : match etharp_output 0 demo_netif demo_packet true demo_host demo_arp with Ok (r, _) => r = ERR_OK | Err _ => False end)
        by (vm_compute; reflexivity).
      rewrite Hout in H. exact H. }
    destruct (Hw Hr) as (Haw & w2 & Hu & _ & Hwire & Hres). subst r. exists w1, w2. by split_and!.
Defined.
