(* ===== verification/Netif.v ===== *)
(** * Network interfaces (src/src/lwip/core/netif.c)

    [stack] puts the link layer together: the netif structs by identity (their
    pointers), the list of interfaces, the ARP module and TCP. The functions of
    netif.c are here except [netif_set_link_up], which calls AutoIP and is in
    Autoip.v. The status and link callbacks, DHCP, IGMP and loopback are not
    part of the default configuration. *)
From S2P Require Import Prelude ByteOrder IpAddr Ip Tcp TcpOut TcpIn TcpWorld Etharp.

(** struct autoip of autoip.h. *)
Inductive autoip_state := AUTOIP_STATE_OFF | AUTOIP_STATE_PROBING | AUTOIP_STATE_ANNOUNCING | AUTOIP_STATE_BOUND.
#[export] Instance autoip_state_eq_dec : EqDecision autoip_state.
Proof. solve_decision. Defined.
Record autoip := mk_autoip {
  llipaddr : Z; au_state : autoip_state; sent_num : Z; ttw : Z; lastconflict : Z; tried_llipaddr : Z
}.
#[export] Instance autoip_eta : Eta autoip :=
  {| eta a := mk_autoip (llipaddr a) (au_state a) (sent_num a) (ttw a) (lastconflict a) (tried_llipaddr a) |}.
#[export] Instance set_llipaddr : Setter llipaddr := ltac:(setter).
#[export] Instance set_au_state : Setter au_state := ltac:(setter).
#[export] Instance set_sent_num : Setter sent_num := ltac:(setter).
#[export] Instance set_ttw : Setter ttw := ltac:(setter).
#[export] Instance set_lastconflict : Setter lastconflict := ltac:(setter).
#[export] Instance set_tried_llipaddr : Setter tried_llipaddr := ltac:(setter).

#[export] Instance netif_eta : Eta netif :=
  {| eta n := mk_netif (nif_ip_addr n) (nif_netmask n) (nif_gw n) (nif_mtu n) (nif_hwaddr n) (nif_flags n) (nif_name n) (nif_num n) |}.
#[export] Instance set_nif_ip_addr : Setter nif_ip_addr := ltac:(setter).
#[export] Instance set_nif_netmask : Setter nif_netmask := ltac:(setter).
#[export] Instance set_nif_gw : Setter nif_gw := ltac:(setter).
#[export] Instance set_nif_flags : Setter nif_flags := ltac:(setter).
#[export] Instance set_nif_num : Setter nif_num := ltac:(setter).

(** A netif struct with the pointer to its AutoIP state. *)
Record iface := mk_iface { if_netif : netif; if_autoip : option autoip }.

(** [sk_allocs]: the results of [mem_malloc] for AutoIP; from the end on,
    success. *)
Record stack (A : Type) := mk_stack {
  sk_ifaces : gmap nat iface;
  netif_list : list nat;
  netif_default : option nat;
  netif_num : Z;
  sk_arp : arp_world;
  sk_tcp : tcp_world A;
  sk_allocs : list bool
}.
Arguments mk_stack {A}. Arguments sk_ifaces {A}. Arguments netif_list {A}. Arguments netif_default {A}.
Arguments netif_num {A}. Arguments sk_arp {A}. Arguments sk_tcp {A}. Arguments sk_allocs {A}.
#[export] Instance stack_eta {A} : Eta (stack A) :=
  {| eta s := mk_stack (sk_ifaces s) (netif_list s) (netif_default s) (netif_num s) (sk_arp s) (sk_tcp s) (sk_allocs s) |}.
#[export] Instance set_sk_ifaces {A} : Setter (@sk_ifaces A) := ltac:(setter).
#[export] Instance set_netif_list {A} : Setter (@netif_list A) := ltac:(setter).
#[export] Instance set_netif_default_field {A} : Setter (@netif_default A) := ltac:(setter).
#[export] Instance set_netif_num {A} : Setter (@netif_num A) := ltac:(setter).
#[export] Instance set_sk_arp {A} : Setter (@sk_arp A) := ltac:(setter).
#[export] Instance set_sk_tcp {A} : Setter (@sk_tcp A) := ltac:(setter).
#[export] Instance set_sk_allocs {A} : Setter (@sk_allocs A) := ltac:(setter).

(** [flags |= f] and [flags &= ~f] on an u8_t. *)
Definition set_flag (f : Z) (n : netif) : netif := n <| nif_flags := Z.lor (nif_flags n) f |>.
Definition drop_flag (f : Z) (n : netif) : netif := n <| nif_flags := Z.land (nif_flags n) (255 - f) |>.

Section Netif.
Context {A : Type} (cb : tcp_callbacks A).
Implicit Types (s : stack A) (w : tcp_world A).

(** ** Access *)
Definition get_if (id : nat) s : res iface := of_option BadAccess (sk_ifaces s !! id).
Definition put_if (id : nat) (x : iface) s : stack A := s <| sk_ifaces := <[id := x]> (sk_ifaces s) |>.
Definition get_netif (id : nat) s : res netif := let! x := get_if id s in Ok (if_netif x).
Definition put_netif (id : nat) (n : netif) s : res (stack A) :=
  let! x := get_if id s in Ok (put_if id (mk_iface n (if_autoip x)) s).
Definition put_autoip (id : nat) (a : autoip) s : res (stack A) :=
  let! x := get_if id s in Ok (put_if id (mk_iface (if_netif x) (Some a)) s).
Definition upd_netif (id : nat) (f : netif -> netif) s : res (stack A) :=
  let! n := get_netif id s in put_netif id (f n) s.
Definition run_arp {R} (f : arp_world -> res (R * arp_world)) s : res (R * stack A) :=
  let! (r, a) := f (sk_arp s) in Ok (r, s <| sk_arp := a |>).

(** [etharp_gratuitous] of etharp.h. *)
Definition etharp_gratuitous (id : nat) s : res (stack A) :=
  let! n := get_netif id s in
  let! (_, s) := run_arp (etharp_request id n (nif_ip_addr n)) s in Ok s.

(** ** netif_set_ipaddr *)

(** [pcb->next] of a control block on one of the lists. *)
Fixpoint succ_in (id : positive) (l : list positive) : option (option positive) :=
  match l with
  | [] => None
  | x :: l' => if bool_decide (x = id) then Some (hd_error l') else succ_in id l'
  end.
Definition pcb_next (id : positive) w : option positive :=
  match succ_in id (tcp_active_pcbs w), succ_in id (tcp_tw_pcbs w), succ_in id (tcp_bound_pcbs w) with
  | Some o, _, _ | None, Some o, _ | None, None, Some o => o
  | None, None, None => None
  end.
(** The block is bound to the address that goes away; connections of
    link-local addresses persist. *)
Definition must_abort (old : Z) (p : tcp_pcb) : bool := (local_ip p =? old) && negb (ip_addr_islinklocal (local_ip p)).
Fixpoint abort_loop (fuel : nat) (old : Z) (pcb : option positive) w : res (tcp_world A) :=
  match pcb with
  | None => Ok w
  | Some id =>
      match fuel with
      | O => Err OutOfFuel
      | S fuel =>
          let! p := get_pcb w id in
          let next := pcb_next id w in
          let! w := if must_abort old p then tcp_abort cb id w else Ok w in
          abort_loop fuel old next w
      end
  end.
(** The listeners of the old address listen to the new one. *)
Definition move_listener (old ipaddr : Z) (l : tcp_pcb_listen) : tcp_pcb_listen :=
  if negb (ls_local_ip l =? IPADDR_ANY) && (ls_local_ip l =? old) then
    mk_listen ipaddr (ls_so_options l) (ls_tos l) (ls_ttl l) (ls_prio l) (ls_local_port l)
  else l.
Fixpoint move_listeners (old ipaddr : Z) (l : list positive) w : res (tcp_world A) :=
  match l with
  | [] => Ok w
  | id :: l' =>
      let! x := of_option BadAccess (w_listen w !! id) in
      move_listeners old ipaddr l' (w <| w_listen := <[id := move_listener old ipaddr x]> (w_listen w) |>)
  end.
(** The fuel is enough when the error callbacks create no control blocks. *)
Definition change_tcp_addr (old ipaddr : Z) w : res (tcp_world A) :=
  let fuel := (length (tcp_active_pcbs w) + length (tcp_tw_pcbs w) + length (tcp_bound_pcbs w))%nat in
  let! w := abort_loop fuel old (hd_error (tcp_active_pcbs w)) w in
  move_listeners old ipaddr (tcp_listen_pcbs w) w.

(** [None] is a NULL pointer, which sets the address 0.0.0.0. *)
Definition addr_or_any (a : option Z) : Z := default IPADDR_ANY a.
Definition netif_set_ipaddr (id : nat) (ipaddr : option Z) s : res (stack A) :=
  let! n := get_netif id s in
  let! s :=
    match ipaddr with
    | Some ip =>
        if ip =? nif_ip_addr n then Ok s
        else let! w := change_tcp_addr (nif_ip_addr n) ip (sk_tcp s) in Ok (s <| sk_tcp := w |>)
    | None => Ok s
    end in
  upd_netif id (fun n => n <| nif_ip_addr := addr_or_any ipaddr |>) s.
Definition netif_set_gw (id : nat) (gw : option Z) s : res (stack A) :=
  upd_netif id (fun n => n <| nif_gw := addr_or_any gw |>) s.
Definition netif_set_netmask (id : nat) (netmask : option Z) s : res (stack A) :=
  upd_netif id (fun n => n <| nif_netmask := addr_or_any netmask |>) s.
Definition netif_set_addr (id : nat) (ipaddr netmask gw : option Z) s : res (stack A) :=
  let! s := netif_set_ipaddr id ipaddr s in
  let! s := netif_set_netmask id netmask s in
  netif_set_gw id gw s.

(** ** Up and down *)
Definition netif_set_up (id : nat) s : res (stack A) :=
  let! n := get_netif id s in
  if has_flag (nif_flags n) NETIF_FLAG_UP then Ok s
  else
    let n := set_flag NETIF_FLAG_UP n in
    let! s := put_netif id n s in
    if has_flag (nif_flags n) NETIF_FLAG_LINK_UP && has_flag (nif_flags n) NETIF_FLAG_ETHARP then etharp_gratuitous id s
    else Ok s.
Definition netif_set_down (id : nat) s : res (stack A) :=
  let! n := get_netif id s in
  if has_flag (nif_flags n) NETIF_FLAG_UP then
    let! s := put_netif id (drop_flag NETIF_FLAG_UP n) s in
    if has_flag (nif_flags n) NETIF_FLAG_ETHARP then Ok (s <| sk_arp := etharp_cleanup_netif id (sk_arp s) |>) else Ok s
  else Ok s.
Definition netif_set_link_down (id : nat) s : res (stack A) :=
  let! n := get_netif id s in
  if has_flag (nif_flags n) NETIF_FLAG_LINK_UP then put_netif id (drop_flag NETIF_FLAG_LINK_UP n) s else Ok s.

(** ** The list of interfaces *)
Definition netif_set_default (netif : option nat) s : stack A := s <| netif_default := netif |>.

(** [netif_add]; [init] is the driver's function, which fills in the struct.
    The result is whether it succeeded. *)
Definition netif_add (id : nat) (ipaddr netmask gw : option Z) (init : netif -> err_t * netif) s : res (bool * stack A) :=
  let! n := get_netif id s in
  let n := n <| nif_ip_addr := 0 |> <| nif_netmask := 0 |> <| nif_gw := 0 |> <| nif_flags := 0 |> <| nif_num := netif_num s |> in
  let s := put_if id (mk_iface n None) (s <| netif_num := u8 (netif_num s + 1) |>) in
  let! s := netif_set_addr id ipaddr netmask gw s in
  let! n := get_netif id s in
  let '(err, n) := init n in
  let! s := put_netif id n s in
  if err =? ERR_OK then Ok (true, s <| netif_list := id :: netif_list s |>) else Ok (false, s).

Fixpoint unlink_netif (id : nat) (l : list nat) : option (list nat) :=
  match l with
  | [] => None
  | x :: l' => if bool_decide (x = id) then Some l' else option_map (cons x) (unlink_netif id l')
  end.
Definition netif_remove (id : nat) s : res (stack A) :=
  let! n := get_netif id s in
  let! s := if netif_is_up n then netif_set_down id s else Ok s in
  match unlink_netif id (netif_list s) with
  | None => Ok s
  | Some l =>
      let s := s <| netif_list := l |> in
      Ok (if bool_decide (netif_default s = Some id) then netif_set_default None s else s)
  end.

(** [netif_find]; a name is the codes before the NUL. [name[2]] is read
    whatever the length is. *)
Fixpoint find_netif (num c0 c1 : Z) (l : list nat) s : res (option nat) :=
  match l with
  | [] => Ok None
  | id :: l' =>
      let! n := get_netif id s in
      if (num =? nif_num n) && bool_decide ((c0, c1) = nif_name n) then Ok (Some id) else find_netif num c0 c1 l' s
  end.
Definition netif_find (name : list Z) s : res (option nat) :=
  match name with
  | c0 :: c1 :: rest => find_netif (u8 (hd 0 rest - 48)) c0 c1 (netif_list s) s
  | _ => Err BadAccess
  end.
End Netif.
