(* ===== verification/Autoip.v ===== *)
(** * AutoIP (src/src/lwip/core/ipv4/autoip.c)

    The link-local address of an interface: choice, probing, announcing,
    conflicts. A tick is [AUTOIP_TMR_INTERVAL]. [netif_set_link_up] of netif.c
    is here, too, because it calls [autoip_network_changed]. *)
From S2P Require Import Prelude ByteOrder IpAddr Ip Tcp TcpOut TcpIn TcpWorld Etharp Netif.

Definition AUTOIP_NET : Z := 0xA9FE0000.
Definition AUTOIP_RANGE_START : Z := Z.lor AUTOIP_NET 0x0100.
Definition AUTOIP_RANGE_END : Z := Z.lor AUTOIP_NET 0xFEFF.
Definition AUTOIP_TICKS_PER_SECOND : Z := 10.
Definition PROBE_WAIT : Z := 1.
Definition PROBE_MIN : Z := 1.
Definition PROBE_MAX : Z := 2.
Definition PROBE_NUM : Z := 3.
Definition ANNOUNCE_NUM : Z := 2.
Definition ANNOUNCE_INTERVAL : Z := 2.
Definition ANNOUNCE_WAIT : Z := 2.
Definition MAX_CONFLICTS : Z := 10.
Definition RATE_LIMIT_INTERVAL : Z := 60.
Definition DEFEND_INTERVAL : Z := 10.

(** Byte [i] of the hardware address. *)
Definition hw (n : netif) (i : nat) : Z := nth i (nif_hwaddr n) 0.
Definition LWIP_AUTOIP_RAND (n : netif) (a : option autoip) : Z :=
  u32 (Z.lor (Z.lor (Z.lor (Z.shiftl (hw n 5) 24) (Z.shiftl (hw n 3) 16)) (Z.shiftl (hw n 2) 8)) (hw n 4)
       + match a with Some a => tried_llipaddr a | None => 0 end).
Definition LWIP_AUTOIP_CREATE_SEED_ADDR (n : netif) : Z :=
  lwip_htonl (u32 (AUTOIP_RANGE_START + Z.lor (hw n 4) (Z.shiftl (hw n 5) 8))).

Definition new_autoip : autoip := mk_autoip 0 AUTOIP_STATE_OFF 0 0 0 0.

Definition autoip_create_addr (n : netif) (a : autoip) : res Z :=
  let addr := lwip_ntohl (LWIP_AUTOIP_CREATE_SEED_ADDR n) in
  let addr := u32 (addr + tried_llipaddr a) in
  let addr := Z.lor AUTOIP_NET (Z.land addr 0xffff) in
  let addr := if addr <? AUTOIP_RANGE_START then u32 (addr + (AUTOIP_RANGE_END - AUTOIP_RANGE_START + 1)) else addr in
  let addr := if AUTOIP_RANGE_END <? addr then u32 (addr - (AUTOIP_RANGE_END - AUTOIP_RANGE_START + 1)) else addr in
  assert! (AUTOIP_RANGE_START <=? addr) && (addr <=? AUTOIP_RANGE_END) in
  Ok (lwip_htonl addr).

(** [autoip_start_probing], as it changes the AutoIP state. *)
Definition start_probing (n : netif) (a : autoip) : autoip :=
  let a := a <| au_state := AUTOIP_STATE_PROBING |> <| sent_num := 0 |> in
  let a := a <| ttw := u16 (LWIP_AUTOIP_RAND n (Some a) mod (PROBE_WAIT * AUTOIP_TICKS_PER_SECOND)) |> in
  if MAX_CONFLICTS <? tried_llipaddr a then a <| ttw := RATE_LIMIT_INTERVAL * AUTOIP_TICKS_PER_SECOND |> else a.

Section Autoip.
Context {A : Type} (cb : tcp_callbacks A).
Implicit Types (s : stack A).

Definition get_autoip (id : nat) s : res autoip :=
  let! x := get_if id s in of_option BadAccess (if_autoip x).
Definition upd_autoip (id : nat) (f : autoip -> autoip) s : res (stack A) :=
  let! a := get_autoip id s in put_autoip id (f a) s.

Definition autoip_set_struct (id : nat) s : res (stack A) :=
  let! x := get_if id s in
  assert! bool_decide (if_autoip x = None) in
  put_autoip id new_autoip s.

Definition autoip_arp_probe (id : nat) s : res (err_t * stack A) :=
  let! n := get_netif id s in
  let! a := get_autoip id s in
  run_arp (etharp_raw id n (nif_hwaddr n) ethbroadcast (nif_hwaddr n) IPADDR_ANY ethzero (llipaddr a) ARP_REQUEST) s.
Definition autoip_arp_announce (id : nat) s : res (err_t * stack A) :=
  let! n := get_netif id s in
  let! a := get_autoip id s in
  run_arp (etharp_raw id n (nif_hwaddr n) ethbroadcast (nif_hwaddr n) (llipaddr a) ethzero (llipaddr a) ARP_REQUEST) s.

Definition autoip_bind (id : nat) s : res (stack A) :=
  let! a := get_autoip id s in
  let! s := netif_set_ipaddr cb id (Some (llipaddr a)) s in
  let! s := netif_set_netmask id (Some (load_le32 255 255 0 0)) s in
  let! s := netif_set_gw id (Some (load_le32 0 0 0 0)) s in
  netif_set_up id s.

Definition autoip_start_probing (id : nat) s : res (stack A) :=
  let! n := get_netif id s in
  upd_autoip id (start_probing n) s.

Definition sk_malloc s : bool * stack A :=
  match sk_allocs s with [] => (true, s) | b :: l => (b, s <| sk_allocs := l |>) end.

Definition autoip_start (id : nat) s : res (err_t * stack A) :=
  let! n := get_netif id s in
  let! s := if netif_is_up n then netif_set_down id s else Ok s in
  let! s := upd_netif id (fun n => n <| nif_ip_addr := 0 |> <| nif_netmask := 0 |> <| nif_gw := 0 |>) s in
  let! x := get_if id s in
  let '(a, s) :=
    match if_autoip x with
    | None => let '(ok, s) := sk_malloc s in (if ok then Some new_autoip else None, s)
    | Some a => (Some (mk_autoip 0 AUTOIP_STATE_OFF 0 0 0 (tried_llipaddr a)), s)
    end in
  match a with
  | None => Ok (ERR_MEM, s)
  | Some a =>
      let! s := put_autoip id a s in
      let! n := get_netif id s in
      let! ip := autoip_create_addr n a in
      let! s := upd_autoip id (fun a => a <| llipaddr := ip |>) s in
      let! s := autoip_start_probing id s in
      Ok (ERR_OK, s)
  end.

Definition autoip_restart (id : nat) s : res (stack A) :=
  let! s := upd_autoip id (fun a => a <| tried_llipaddr := u8 (tried_llipaddr a + 1) |>) s in
  let! (_, s) := autoip_start id s in Ok s.

(** [autoip_handle_arp_conflict]; the code always defends. *)
Definition autoip_handle_arp_conflict (id : nat) s : res (stack A) :=
  let! a := get_autoip id s in
  if 0 <? lastconflict a then autoip_restart id s
  else
    let! (_, s) := autoip_arp_announce id s in
    upd_autoip id (fun a => a <| lastconflict := DEFEND_INTERVAL * AUTOIP_TICKS_PER_SECOND |>) s.

Definition autoip_network_changed (id : nat) s : res (stack A) :=
  let! x := get_if id s in
  match if_autoip x with
  | Some a =>
      if bool_decide (au_state a = AUTOIP_STATE_OFF) then Ok s
      else let! s := netif_set_down id s in autoip_start_probing id s
  | None => Ok s
  end.

Definition autoip_stop (id : nat) s : res (err_t * stack A) :=
  let! s := upd_autoip id (fun a => a <| au_state := AUTOIP_STATE_OFF |>) s in
  let! s := netif_set_down id s in
  Ok (ERR_OK, s).

(** ** The timer *)
Definition tmr_probing (id : nat) (n : netif) (a : autoip) s : res (stack A) :=
  if 0 <? ttw a then put_autoip id (a <| ttw := ttw a - 1 |>) s
  else if PROBE_NUM <=? sent_num a then
    put_autoip id (a <| au_state := AUTOIP_STATE_ANNOUNCING |> <| sent_num := 0 |>
                     <| ttw := ANNOUNCE_WAIT * AUTOIP_TICKS_PER_SECOND |>) s
  else
    let! (_, s) := autoip_arp_probe id s in
    put_autoip id (a <| sent_num := u8 (sent_num a + 1) |>
                     <| ttw := u16 (LWIP_AUTOIP_RAND n (Some a) mod ((PROBE_MAX - PROBE_MIN) * AUTOIP_TICKS_PER_SECOND)
                                    + PROBE_MIN * AUTOIP_TICKS_PER_SECOND) |>) s.
Definition tmr_announcing (id : nat) (a : autoip) s : res (stack A) :=
  if 0 <? ttw a then put_autoip id (a <| ttw := ttw a - 1 |>) s
  else
    let! s := if sent_num a =? 0 then autoip_bind id s else let! (_, s) := autoip_arp_announce id s in Ok s in
    upd_autoip id (fun a =>
      let a := a <| ttw := ANNOUNCE_INTERVAL * AUTOIP_TICKS_PER_SECOND |> <| sent_num := u8 (sent_num a + 1) |> in
      if ANNOUNCE_NUM <=? sent_num a then a <| au_state := AUTOIP_STATE_BOUND |> <| sent_num := 0 |> <| ttw := 0 |> else a) s.
Definition autoip_tick (id : nat) s : res (stack A) :=
  let! x := get_if id s in
  match if_autoip x with
  | None => Ok s
  | Some a =>
      let a := if 0 <? lastconflict a then a <| lastconflict := lastconflict a - 1 |> else a in
      let! s := put_autoip id a s in
      match au_state a with
      | AUTOIP_STATE_PROBING => tmr_probing id (if_netif x) a s
      | AUTOIP_STATE_ANNOUNCING => tmr_announcing id a s
      | _ => Ok s
      end
  end.
(** The list of interfaces does not change while the timer runs. *)
Fixpoint autoip_ticks (l : list nat) s : res (stack A) :=
  match l with [] => Ok s | id :: l' => let! s := autoip_tick id s in autoip_ticks l' s end.
Definition autoip_tmr s : res (stack A) := autoip_ticks (netif_list s) s.

(** ** Incoming ARP messages *)
Definition autoip_arp_reply (id : nat) (h : etharp_hdr) s : res (stack A) :=
  let! x := get_if id s in
  match if_autoip x with
  | None => Ok s
  | Some a =>
      let own := eth_addr_cmp (nif_hwaddr (if_netif x)) (ar_shwaddr h) in
      let probing := bool_decide (au_state a = AUTOIP_STATE_PROBING)
                     || (bool_decide (au_state a = AUTOIP_STATE_ANNOUNCING) && (sent_num a =? 0)) in
      if bool_decide (au_state a = AUTOIP_STATE_OFF) then Ok s
      else if probing then
        if (ar_sipaddr h =? llipaddr a) || ((ar_dipaddr h =? llipaddr a) && negb own) then autoip_restart id s else Ok s
      else if (ar_sipaddr h =? llipaddr a) && negb own then autoip_handle_arp_conflict id s
      else Ok s
  end.

(** ** netif_set_link_up of netif.c *)
Definition netif_set_link_up (id : nat) s : res (stack A) :=
  let! n := get_netif id s in
  if has_flag (nif_flags n) NETIF_FLAG_LINK_UP then Ok s
  else
    let! s := put_netif id (set_flag NETIF_FLAG_LINK_UP n) s in
    let! s := autoip_network_changed id s in
    let! n := get_netif id s in
    if has_flag (nif_flags n) NETIF_FLAG_UP && has_flag (nif_flags n) NETIF_FLAG_ETHARP then etharp_gratuitous id s else Ok s.
End Autoip.
