(* ===== verification/EtharpIn.v ===== *)
(** * Incoming Ethernet frames (src/src/lwip/netif/etharp.c)

    [ethernet_input] and [etharp_arp_input] read a frame as bytes: [len] is the
    length of its first pbuf, [bs] are the bytes of all pbufs. [frame_bytes]
    is a frame of the model as it is on the link. *)
From S2P Require Import Prelude ByteOrder IpAddr Ip Tcp TcpOut TcpIn TcpWorld Etharp Netif Autoip.

Definition SIZEOF_ETH_HDR : Z := 14.
Definition SIZEOF_ETHARP_PACKET : Z := SIZEOF_ETH_HDR + 28.
Definition PBUF_FLAG_LLBCAST : Z := 0x08.
Definition PBUF_FLAG_LLMCAST : Z := 0x10.

(** ** Frames as bytes *)
Definition arp_bytes (h : etharp_hdr) : list Z :=
  store_le16 (lwip_htons (ar_hwtype h)) ++ store_le16 (lwip_htons (ar_proto h)) ++ [ar_hwlen h; ar_protolen h] ++
  store_le16 (lwip_htons (ar_opcode h)) ++ ar_shwaddr h ++ store_le32 (ar_sipaddr h) ++ ar_dhwaddr h ++ store_le32 (ar_dipaddr h).
Definition payload_bytes (p : payload) : list Z :=
  match p with IpPacket bs => bs | ArpPacket h padding => arp_bytes h ++ padding end.
Definition frame_bytes (f : frame) : list Z :=
  fr_dest f ++ fr_src f ++ store_le16 (lwip_htons (fr_type f)) ++ payload_bytes (fr_payload f).

Definition byte_at (i : Z) (bs : list Z) : Z := nth (Z.to_nat i) bs 0.
(** A 16-bit field of a frame as a number, an address as in memory. *)
Definition field16 (i : Z) (bs : list Z) : Z := lwip_htons (load_le16 (byte_at i bs) (byte_at (i + 1) bs)).
Definition field32 (i : Z) (bs : list Z) : Z :=
  load_le32 (byte_at i bs) (byte_at (i + 1) bs) (byte_at (i + 2) bs) (byte_at (i + 3) bs).

(** The headers of a frame, at the offsets of struct eth_hdr and etharp_hdr. *)
Definition eth_dest (bs : list Z) : eth_addr := slice 0 6 bs.
Definition eth_type (bs : list Z) : Z := field16 12 bs.
Definition parse_arp (bs : list Z) : etharp_hdr :=
  mk_arp (field16 14 bs) (field16 16 bs) (byte_at 18 bs) (byte_at 19 bs) (field16 20 bs)
    (slice 22 6 bs) (field32 28 bs) (slice 32 6 bs) (field32 38 bs).

(** The test of RFC 826. *)
Definition arp_supported (h : etharp_hdr) : bool :=
  (ar_hwtype h =? HWTYPE_ETHERNET) && (ar_hwlen h =? ETHARP_HWADDR_LEN) && (ar_protolen h =? 4) && (ar_proto h =? ETHTYPE_IP).

(** What [ethernet_input] does with a frame: it is consumed, or the packet
    behind the header goes to [ip_input], with the flags of its pbuf. *)
Inductive eth_result := EthConsumed | EthToIp (flags : Z) (p : list Z).

Definition ll_flags (dest : eth_addr) : Z :=
  if has_flag (byte_at 0 dest) 1 then
    if byte_at 0 dest =? 0x01 then
      if (byte_at 1 dest =? 0x00) && (byte_at 2 dest =? 0x5e) then PBUF_FLAG_LLMCAST else 0
    else if eth_addr_cmp dest ethbroadcast then PBUF_FLAG_LLBCAST
    else 0
  else 0.

Section Input.
Context {A : Type}.
Implicit Types (s : stack A).

(** The request in the pbuf is turned into the reply and sent back. *)
Definition arp_reply_frame (n : netif) (h : etharp_hdr) (padding : list Z) : frame :=
  let dest := if ip_addr_islinklocal (nif_ip_addr n) then ethbroadcast else ar_shwaddr h in
  mk_frame dest (nif_hwaddr n) ETHTYPE_ARP
    (ArpPacket (mk_arp (ar_hwtype h) (ar_proto h) (ar_hwlen h) (ar_protolen h) ARP_REPLY
                  (nif_hwaddr n) (nif_ip_addr n) (ar_shwaddr h) (ar_sipaddr h)) padding).
Definition arp_answer (id : nat) (n : netif) (h : etharp_hdr) (padding : list Z) s : res (stack A) :=
  assert! zlen (nif_hwaddr n) =? ETHARP_HWADDR_LEN in
  let '(_, a) := linkoutput id (arp_reply_frame n h padding) (sk_arp s) in
  Ok (s <| sk_arp := a |>).

Definition etharp_arp_input (id : nat) (len : Z) (bs : list Z) s : res (stack A) :=
  if len <? SIZEOF_ETHARP_PACKET then Ok s
  else
    let h := parse_arp bs in
    if negb (arp_supported h) then Ok s
    else
      let! s := autoip_arp_reply id h s in
      let! n := get_netif id s in
      let for_us := if nif_ip_addr n =? IPADDR_ANY then false else ar_dipaddr h =? nif_ip_addr n in
      let! (_, s) := run_arp (etharp_update_arp_entry id n (ar_sipaddr h) (ar_shwaddr h)
                                (if for_us then ETHARP_FLAG_TRY_HARD else ETHARP_FLAG_FIND_ONLY)) s in
      if (ar_opcode h =? ARP_REQUEST) && for_us then arp_answer id n h (drop (Z.to_nat SIZEOF_ETHARP_PACKET) bs) s else Ok s.

Definition ethernet_input (id : nat) (len : Z) (bs : list Z) s : res (eth_result * stack A) :=
  if len <=? SIZEOF_ETH_HDR then Ok (EthConsumed, s)
  else
    let flags := ll_flags (eth_dest bs) in
    let! n := get_netif id s in
    if eth_type bs =? ETHTYPE_IP then
      if has_flag (nif_flags n) NETIF_FLAG_ETHARP then Ok (EthToIp flags (drop (Z.to_nat SIZEOF_ETH_HDR) bs), s)
      else Ok (EthConsumed, s)
    else if eth_type bs =? ETHTYPE_ARP then
      if has_flag (nif_flags n) NETIF_FLAG_ETHARP then
        let! s := etharp_arp_input id len bs s in Ok (EthConsumed, s)
      else Ok (EthConsumed, s)
    else Ok (EthConsumed, s).
End Input.
