(* ===== verification/EtharpResolve.v ===== *)
(** * Address resolution between two hosts

    What a host sends as an ARP request is answered by the host that has the
    address, and the answer makes the first host send the waiting packet: the
    theorem goes through the bytes of the frames and [ethernet_input]. *)
From S2P Require Import Prelude ByteOrder IpAddr Ip Tcp TcpOut TcpIn TcpWorld TcpScenarios Etharp EtharpTable Netif Autoip EtharpIn.

(** ** Parsing what was encoded *)
Record arp_wf (h : etharp_hdr) : Prop := {
  aw_hwtype : is_u16 (ar_hwtype h);
  aw_proto : is_u16 (ar_proto h);
  aw_opcode : is_u16 (ar_opcode h);
  aw_shw : length (ar_shwaddr h) = 6%nat;
  aw_dhw : length (ar_dhwaddr h) = 6%nat;
  aw_sip : is_u32 (ar_sipaddr h);
  aw_dip : is_u32 (ar_dipaddr h)
}.

Lemma parse_arp_bytes dest src ty h padding : length dest = 6%nat -> length src = 6%nat -> arp_wf h ->
  parse_arp (frame_bytes (mk_frame dest src ty (ArpPacket h padding))) = h.
Proof.
  intros Hd Hs Hh.
  destruct h as [ht pr hl pl op shw sip dhw dip]. destruct Hh as [H1 H2 H3 H4 H5 H6 H7]. simpl in *.
  destruct dest as [|d0 [|d1 [|d2 [|d3 [|d4 [|d5 [|]]]]]]]; try done.
  destruct src as [|s0 [|s1 [|s2 [|s3 [|s4 [|s5 [|]]]]]]]; try done.
  destruct shw as [|a0 [|a1 [|a2 [|a3 [|a4 [|a5 [|]]]]]]]; try done.
  destruct dhw as [|b0 [|b1 [|b2 [|b3 [|b4 [|b5 [|]]]]]]]; try done.
  unfold parse_arp, frame_bytes, payload_bytes, arp_bytes, field16, field32, byte_at, slice. lazy -[Z.shiftr lwip_htons u8 load_le16 load_le32].
  rewrite !load_store16 by apply lwip_htons_range. rewrite !load_store32 by done. by rewrite !lwip_htons_invol.
Qed.
Lemma eth_type_bytes f : length (fr_dest f) = 6%nat -> length (fr_src f) = 6%nat -> is_u16 (fr_type f) ->
  eth_type (frame_bytes f) = fr_type f.
Proof.
  destruct f as [dest src ty p]. simpl. intros Hd Hs Ht.
  destruct dest as [|d0 [|d1 [|d2 [|d3 [|d4 [|d5 [|]]]]]]]; try done.
  destruct src as [|s0 [|s1 [|s2 [|s3 [|s4 [|s5 [|]]]]]]]; try done.
  unfold eth_type, frame_bytes, field16, byte_at. lazy -[Z.shiftr lwip_htons u8 load_le16].
  rewrite load_store16 by apply lwip_htons_range. by rewrite lwip_htons_invol.
Qed.
Lemma arp_frame_length f h padding : length (fr_dest f) = 6%nat -> length (fr_src f) = 6%nat -> arp_wf h ->
  fr_payload f = ArpPacket h padding -> SIZEOF_ETHARP_PACKET <= zlen (frame_bytes f).
Proof.
  intros Hd Hs Hh Hp. destruct Hh as [_ _ _ H4 H5 _ _]. unfold frame_bytes. rewrite Hp. unfold payload_bytes, arp_bytes, zlen.
  rewrite !length_app, Hd, Hs, H4, H5. unfold SIZEOF_ETHARP_PACKET, SIZEOF_ETH_HDR. simpl. lia.
Qed.

(** ** One ARP frame at one host *)

(** A host on the Ethernet: its interface, without AutoIP, and its table. *)
Record host {A} (id : nat) (n : netif) (s : stack A) : Prop := {
  ho_if : sk_ifaces s !! id = Some (mk_iface n None);
  ho_arp : arp_ok (sk_arp s);
  ho_hw : length (nif_hwaddr n) = 6%nat;
  ho_flag : has_flag (nif_flags n) NETIF_FLAG_ETHARP = true;
  ho_ip : is_u32 (nif_ip_addr n)
}.

(** A message that is directed to the host. *)
Definition arp_for_us (n : netif) (h : etharp_hdr) : bool := negb (nif_ip_addr n =? IPADDR_ANY) && (ar_dipaddr h =? nif_ip_addr n).

Lemma frame_padding f h padding : length (fr_dest f) = 6%nat -> length (fr_src f) = 6%nat -> arp_wf h ->
  fr_payload f = ArpPacket h padding -> drop (Z.to_nat SIZEOF_ETHARP_PACKET) (frame_bytes f) = padding.
Proof.
  intros Hd Hs [_ _ _ H4 H5 _ _] Hp. unfold frame_bytes. rewrite Hp. unfold payload_bytes.
  rewrite !app_assoc. rewrite drop_app_length'; [done|]. unfold arp_bytes. rewrite !length_app, Hd, Hs, H4, H5. done.
Qed.
Lemma arp_frame_input {A} id n (s : stack A) f h padding : host id n s -> length (fr_dest f) = 6%nat -> length (fr_src f) = 6%nat ->
  fr_type f = ETHTYPE_ARP -> fr_payload f = ArpPacket h padding -> arp_wf h -> arp_supported h = true ->
  ethernet_input id (zlen (frame_bytes f)) (frame_bytes f) s =
    let! (_, s) := run_arp (etharp_update_arp_entry id n (ar_sipaddr h) (ar_shwaddr h)
                              (if arp_for_us n h then ETHARP_FLAG_TRY_HARD else ETHARP_FLAG_FIND_ONLY)) s in
    let! s := if (ar_opcode h =? ARP_REQUEST) && arp_for_us n h then arp_answer id n h padding s else Ok s in
    Ok (EthConsumed, s).
Proof.
  intros [Hif Harp Hhw Hfl Hip] Hd Hs Ht Hp Hh Hsup.
  pose proof (arp_frame_length f h padding Hd Hs Hh Hp) as Hlen.
  unfold ethernet_input, get_netif, get_if. rewrite Hif. cbn [of_option res_bind if_netif].
  rewrite (proj2 (Z.leb_gt _ _)) by (unfold SIZEOF_ETHARP_PACKET in Hlen; lia).
  rewrite eth_type_bytes by (rewrite ?Ht; done). rewrite Ht, Hfl. change (ETHTYPE_ARP =? ETHTYPE_IP) with false.
  change (ETHTYPE_ARP =? ETHTYPE_ARP) with true. cbn iota. unfold etharp_arp_input.
  rewrite (proj2 (Z.ltb_ge _ _)) by lia.
  replace (parse_arp (frame_bytes f)) with h by (destruct f; simpl in *; subst; symmetry; by apply parse_arp_bytes).
  rewrite Hsup. cbn [negb]. unfold autoip_arp_reply, get_if. rewrite Hif. cbn [of_option res_bind if_autoip].
  unfold get_netif, get_if. rewrite Hif. cbn [of_option res_bind if_netif].
  replace (if nif_ip_addr n =? IPADDR_ANY then false else ar_dipaddr h =? nif_ip_addr n) with (arp_for_us n h)
    by (unfold arp_for_us; by destruct (nif_ip_addr n =? IPADDR_ANY)).
  rewrite (frame_padding f h padding) by done.
  destruct (run_arp _ s) as [[r s1]|]; done.
Qed.

(** The message that asks for [ip], and the one that answers it. *)
Definition request_msg (n : netif) (ip : Z) : etharp_hdr :=
  mk_arp HWTYPE_ETHERNET ETHTYPE_IP ETHARP_HWADDR_LEN 4 ARP_REQUEST (nif_hwaddr n) (nif_ip_addr n) ethzero ip.
Definition reply_msg (n : netif) (mac : eth_addr) (ip : Z) : etharp_hdr :=
  mk_arp HWTYPE_ETHERNET ETHTYPE_IP ETHARP_HWADDR_LEN 4 ARP_REPLY (nif_hwaddr n) (nif_ip_addr n) mac ip.
Definition reply_frame (n : netif) (mac : eth_addr) (ip : Z) : frame :=
  mk_frame (if ip_addr_islinklocal (nif_ip_addr n) then ethbroadcast else mac) (nif_hwaddr n) ETHTYPE_ARP (ArpPacket (reply_msg n mac ip) []).

Lemma u32_nonzero_any n : (nif_ip_addr n =? IPADDR_ANY) = false <-> nif_ip_addr n <> 0.
Proof. apply Z.eqb_neq. Qed.

Lemma non_unicast_any n : non_unicast 0 n = true.
Proof. unfold non_unicast, IPADDR_ANY. by rewrite orb_true_r. Qed.

(** The host that has the address answers a request for it and knows the
    asking host from then on. *)
Lemma request_input {A} id n (s : stack A) nA : host id n s -> length (nif_hwaddr nA) = 6%nat -> is_u32 (nif_ip_addr nA) ->
  nif_ip_addr n <> 0 -> non_unicast (nif_ip_addr nA) n = false ->
  let req := frame_bytes (request_frame nA (nif_ip_addr n)) in
  exists s' waiting, ethernet_input id (zlen req) req s = Ok (EthConsumed, s') /\ arp_ok (sk_arp s') /\
    resolves (sk_arp s') (nif_ip_addr nA) (nif_hwaddr nA) /\
    wire (sk_arp s') = wire (sk_arp s) ++ waiting ++ [(id, reply_frame n (nif_hwaddr nA) (nif_ip_addr nA))].
Proof.
  intros Hho HhA HipA Hip0 Hu req. unfold req.
  assert (Hus : arp_for_us n (request_msg nA (nif_ip_addr n)) = true).
  { unfold arp_for_us. simpl. by rewrite (proj2 (u32_nonzero_any n) Hip0), Z.eqb_refl. }
  rewrite (arp_frame_input id n s (request_frame nA (nif_ip_addr n)) (request_msg nA (nif_ip_addr n)) []); try done.
  2: { split; simpl; try done; apply Hho. }
  rewrite Hus. simpl ar_sipaddr. simpl ar_shwaddr. change (ar_opcode _ =? ARP_REQUEST) with true. cbn [andb].
  assert (Hz : zlen (nif_hwaddr n) = ETHARP_HWADDR_LEN) by (unfold zlen; by rewrite (ho_hw _ _ _ Hho)).
  destruct (update_spec id n (nif_ip_addr nA) (nif_hwaddr nA) ETHARP_FLAG_TRY_HARD (sk_arp s) (ho_arp _ _ _ Hho) Hz
    ltac:(by left) Hu) as [(? & _)|(i & e & w1 & w' & Hup & _ & _ & Hsl & _ & Hw)]; [done|].
  unfold run_arp. rewrite Hup. cbn [res_bind]. unfold arp_answer. rewrite Hz. simpl Z.eqb. cbn [lwip_assert res_bind].
  destruct (linkoutput_spec id (arp_reply_frame n (request_msg nA (nif_ip_addr n)) []) w') as (r & w2 & Hl & Hs & Hw2 & _).
  cbn [sk_arp set_field set_sk_arp eta stack_eta]. rewrite Hl. cbn [res_bind].
  pose proof (same_table_slot _ _ _ _ _ Hs Hsl) as Hsl2.
  eexists _, _. split_and!; [reflexivity|apply Hsl2|by exists i, (learned id (nif_hwaddr nA) e)|].
  simpl. rewrite Hw2, Hw, <- app_assoc. reflexivity.
Qed.

(** The answer makes the asking host send what waits for the address. *)
Lemma reply_input {A} id n (s : stack A) nB q : host id n s -> length (nif_hwaddr nB) = 6%nat -> is_u32 (nif_ip_addr nB) ->
  non_unicast (nif_ip_addr nB) n = false -> awaits (sk_arp s) (nif_ip_addr nB) (Some q) ->
  let reply := frame_bytes (reply_frame nB (nif_hwaddr n) (nif_ip_addr n)) in
  exists s', ethernet_input id (zlen reply) reply s = Ok (EthConsumed, s') /\ arp_ok (sk_arp s') /\
    resolves (sk_arp s') (nif_ip_addr nB) (nif_hwaddr nB) /\
    wire (sk_arp s') = wire (sk_arp s) ++ [(id, ip_frame n (nif_hwaddr nB) (pk_bytes q))].
Proof.
  intros Hho HhB HipB Hu (i & e & Hsl & Hpe & Hq) reply. unfold reply.
  rewrite (arp_frame_input id n s (reply_frame nB (nif_hwaddr n) (nif_ip_addr n)) (reply_msg nB (nif_hwaddr n) (nif_ip_addr n)) []);
    try done.
  2: { simpl. destruct (ip_addr_islinklocal _); [done|apply Hho]. }
  2: { split; simpl; try done; apply Hho. }
  simpl ar_sipaddr. simpl ar_shwaddr. change (ar_opcode _ =? ARP_REQUEST) with false. cbn [andb].
  set (fl := if arp_for_us _ _ then _ else _).
  assert (Hfl : fl = ETHARP_FLAG_TRY_HARD \/ fl = ETHARP_FLAG_FIND_ONLY) by (unfold fl; destruct (arp_for_us _ _); auto).
  assert (Hz : zlen (nif_hwaddr n) = ETHARP_HWADDR_LEN) by (unfold zlen; by rewrite (ho_hw _ _ _ Hho)).
  assert (Hin : in_use e) by (unfold in_use; apply pending_eq in Hpe; by rewrite Hpe).
  assert (Hno : ~ Forall (fun e => ~ matches (Some (nif_ip_addr nB)) e) (arp_table (sk_arp s))).
  { intros Hall. eapply Forall_lookup_1 in Hall; [|apply Hsl]. apply Hall. split; [done|]. by rewrite (sl_ip _ _ _ _ Hsl). }
  destruct (update_spec id n (nif_ip_addr nB) (nif_hwaddr nB) fl (sk_arp s) (ho_arp _ _ _ Hho) Hz Hfl Hu)
    as [(_ & ? & _)|(j & x & w1 & w' & Hup & Hslx & Hsx & Hsl' & _ & Hw)]; [done|].
  destruct Hsx as [[-> Hux]|(e0 & _ & _ & _ & _ & ?)]; [|done].
  pose proof (sl_only _ _ _ _ Hsl j x (sl_at _ _ _ _ Hslx) Hux (sl_ip _ _ _ _ Hslx)) as ->.
  pose proof (sl_at _ _ _ _ Hslx) as Hx. rewrite (sl_at _ _ _ _ Hsl) in Hx. injection Hx as <-. rewrite Hq in Hw.
  unfold run_arp. rewrite Hup. cbn [res_bind]. eexists. split_and!; [reflexivity|apply Hsl'| |exact Hw].
  by exists i, (learned id (nif_hwaddr nB) e).
Qed.

(** ** Properties *)

(** C11. Two hosts resolve an address. Host A sends a packet whose next hop is
    the address of host B, which A does not know; only a request leaves A.
    When the bytes of this request arrive at B, B learns the address of A and
    answers; when the bytes of the answer arrive at A, A sends exactly the
    waiting packet, to the hardware address of B, and knows it from then on. *)
Theorem arp_resolution {A B} ida nA (sA : stack A) idb nB (sB : stack B) q ip a1 :
  host ida nA sA -> host idb nB sB ->
  ip4_addr_isbroadcast ip nA = false -> ip_addr_ismulticast ip = false ->
  next_hop nA (pk_bytes q) ip = Ok (Some (nif_ip_addr nB)) -> non_unicast (nif_ip_addr nB) nA = false ->
  non_unicast (nif_ip_addr nA) nB = false -> unresolved (sk_arp sA) (nif_ip_addr nB) ->
  etharp_output ida nA q true ip (sk_arp sA) = Ok (ERR_OK, a1) -> wire a1 <> wire (sk_arp sA) ->
  exists request sB' waiting reply sA',
    wire a1 = wire (sk_arp sA) ++ [(ida, request)] /\
    ethernet_input idb (zlen (frame_bytes request)) (frame_bytes request) sB = Ok (EthConsumed, sB') /\
    wire (sk_arp sB') = wire (sk_arp sB) ++ waiting ++ [(idb, reply)] /\
    resolves (sk_arp sB') (nif_ip_addr nA) (nif_hwaddr nA) /\
    ethernet_input ida (zlen (frame_bytes reply)) (frame_bytes reply) (sA <| sk_arp := a1 |>) = Ok (EthConsumed, sA') /\
    wire (sk_arp sA') = wire a1 ++ [(ida, ip_frame nA (nif_hwaddr nB) (pk_bytes q))] /\
    resolves (sk_arp sA') (nif_ip_addr nB) (nif_hwaddr nB).
Proof.
  intros HA HB Hbc Hmc Hhop HuB HuA Hun Hout Hsent.
  assert (Hz : zlen (nif_hwaddr nA) = ETHARP_HWADDR_LEN) by (unfold zlen; by rewrite (ho_hw _ _ _ HA)).
  destruct (output_unicast_spec ida nA q ip (nif_ip_addr nB) (sk_arp sA) (ho_arp _ _ _ HA) Hz Hbc Hmc Hhop)
    as [(mac & r & w' & req & _ & _ & (i & e & Hsl & Hst & _) & _)|[_ Heq]].
  { exfalso. eapply Forall_lookup_1 in Hun; [|apply Hsl]. apply Hun. split; [exact Hst|apply Hsl]. }
  rewrite Hout in Heq. symmetry in Heq.
  destruct (query_spec ida nA (nif_ip_addr nB) (Some q) (sk_arp sA) (ho_arp _ _ _ HA) Hz HuB)
    as (i & e & w0 & r & w1 & sent & Hq & Hsl & Hse & Hok1 & Hw & Hcase).
  rewrite Heq in Hq. injection Hq as <- <-.
  destruct (is_stable (ae_state e)) eqn:Est.
  { exfalso. destruct Hse as [[-> _]|(e0 & _ & _ & -> & _)]; [|done].
    eapply Forall_lookup_1 in Hun; [|apply Hsl]. apply Hun. split; [exact Est|apply Hsl]. }
  destruct Hcase as (Hreq & e' & Hsl' & Hpe & _ & Hqq). specialize (Hqq ltac:(done) eq_refl).
  destruct Hreq as [->| ->]; [by rewrite app_nil_r in Hw|].
  assert (Hip0 : nif_ip_addr nB <> 0) by (intros H0; by rewrite H0, non_unicast_any in HuB).
  destruct (request_input idb nB sB nA HB (ho_hw _ _ _ HA) (ho_ip _ _ _ HA) Hip0 HuA) as (sB' & waiting & H1 & _ & H2 & H3).
  destruct (reply_input ida nA (sA <| sk_arp := a1 |>) nB q) as (sA' & H4 & _ & H5 & H6); [|apply HB|apply HB|done| |].
  { destruct HA. by split. }
  { by exists i, e'. }
  exists (request_frame nA (nif_ip_addr nB)), sB', waiting, (reply_frame nB (nif_hwaddr nA) (nif_ip_addr nA)), sA'. by split_and!.
Qed.

Definition demo_peer : netif := mk_netif demo_host (load_le32 255 255 255 0) 0 1500 demo_mac (nif_flags demo_netif) (101, 110) 0.
Definition stack_of (n : netif) : stack unit :=
  mk_stack {[0%nat := mk_iface n None]} [0%nat] (Some 0%nat) 1 demo_arp world_init [].
Lemma demo_host_ok n : length (nif_hwaddr n) = 6%nat -> has_flag (nif_flags n) NETIF_FLAG_ETHARP = true ->
  is_u32 (nif_ip_addr n) -> host 0 n (stack_of n).
Proof. split; [apply lookup_singleton_eq|apply demo_arp_ok|done..]. Qed.

(** Two hosts of 192.168.0.0/24. *)
Lemma arp_resolution_witness : exists a1 sA', etharp_output 0 demo_netif demo_packet true demo_host demo_arp = Ok (ERR_OK, a1) /\
  exists reply, ethernet_input 0 (zlen (frame_bytes reply)) (frame_bytes reply) ((stack_of demo_netif) <| sk_arp := a1 |>)
    = Ok (EthConsumed, sA') /\
  wire (sk_arp sA') = wire a1 ++ [(0%nat, ip_frame demo_netif demo_mac (pk_bytes demo_packet))].
Proof.
  destruct (etharp_output 0 demo_netif demo_packet true demo_host demo_arp) as [[r a1]|f] eqn:E; [|vm_compute in E; discriminate].
  assert (Hr : r = ERR_OK) by (vm_compute in E; injection E as <- _; reflexivity). subst r.
  assert (Hun : unresolved demo_arp demo_host).
  { apply Forall_forall. intros e He. apply elem_of_replicate_inv in He as ->. by intros [H _]. }
  destruct (arp_resolution 0 demo_netif (stack_of demo_netif) 0 demo_peer (stack_of demo_peer) demo_packet demo_host a1)
    as (request & sB' & waiting & reply & sA' & _ & _ & _ & _ & H1 & H2 & _);
    [apply demo_host_ok; by vm_compute|apply demo_host_ok; by vm_compute|by vm_compute..|exact Hun|exact E| |].
  { intros H. vm_compute in E. injection E as <-. apply (f_equal length) in H. discriminate H. }
  exists a1, sA'. split; [reflexivity|]. exists reply. split; [exact H1|exact H2].
Defined.
