(* ===== verification/NetifAddr.v ===== *)
(** * Changing the address of an interface

    [netif_set_ipaddr] aborts the connections of the old address and moves its
    listeners, when the error callbacks of the application leave TCP alone. *)
From S2P Require Import Prelude ByteOrder IpAddr Ip Tcp TcpOut TcpIn TcpWorld TcpProcess TcpShape TcpKeeps TcpLists TcpScenarios TcpTimerSteps TcpLive Etharp EtharpTable Netif.

(** ** Aborting one connection *)
Lemma empty_ack_queues p e : let p' := (tcp_send_empty_ack p e).1.2 in
  unsent p' = unsent p /\ unacked p' = unacked p /\ ooseq p' = ooseq p /\ state p' = state p.
Proof. unfold tcp_send_empty_ack, tcp_output_alloc_header. by destruct (alloc e) as [[] ?]. Qed.

Lemma ack_output_ok p e : unsent p = [] -> state p <> LISTEN -> exists err p' e',
  tcp_output (tcp_ack_now p) e = Ok (err, p', e') /\ unsent p' = [] /\ unacked p' = unacked p /\ ooseq p' = ooseq p /\
  state p' = state p.
Proof.
  intros Hu Hs. unfold tcp_output. unfold state_is. rewrite bool_decide_false by done. cbn [negb lwip_assert res_bind].
  destruct (is_input_pcb e); [by exists ERR_OK, (tcp_ack_now p), e|].
  assert (Hf : has_flag (flags (tcp_ack_now p)) TF_ACK_NOW = true).
  { unfold tcp_ack_now. simpl. rewrite has_flag_lor_l. by rewrite orb_true_r. }
  rewrite Hf. change (unsent (tcp_ack_now p)) with (unsent p). rewrite Hu. cbn [andb].
  destruct (empty_ack_queues (tcp_ack_now p) e) as (H1 & H2 & H3 & H4).
  destruct (tcp_send_empty_ack (tcp_ack_now p) e) as [[err p'] e']. simpl in *.
  exists err, p', e'. by rewrite H1, Hu.
Qed.

Section Abort.
Context {A : Type} (cb : tcp_callbacks A).
Implicit Types (w : tcp_world A).

Definition pcb_at (id : positive) (q : tcp_pcb) (e : tcp_env) w : tcp_world A := (put_pcb id q w) <| w_env := e |>.

Lemma pcb_remove_ok id w p : w_pcbs w !! id = Some p -> live (state p) -> exists q e, pcb_remove id w = Ok (pcb_at id q e w).
Proof.
  intros Hp (L1 & L2 & L3). unfold pcb_remove, upd_pcb, get_pcb. rewrite Hp. cbn [of_option res_bind].
  set (p1 := tcp_pcb_purge p).
  assert (H1 : unsent p1 = [] /\ unacked p1 = [] /\ ooseq p1 = [] /\ state p1 = state p).
  { unfold p1, tcp_pcb_purge. destruct (state p) eqn:E; try done; by rewrite <- ?E. }
  destruct H1 as (Hu & Ha & Ho & Hst). unfold put_pcb at 1 2. simpl w_pcbs. rewrite lookup_insert_eq. cbn [of_option res_bind].
  set (r := if _ : bool then _ else _).
  assert (Hr : exists q e, r = Ok (pcb_at id q e w) /\ unsent q = [] /\ unacked q = [] /\ ooseq q = []).
  { unfold r. destruct (_ && _).
    - unfold w_output, run_pcb, get_pcb. unfold put_pcb at 1. simpl w_pcbs. rewrite lookup_insert_eq. cbn [of_option res_bind].
      set (env := env_for _ id).
      destruct (ack_output_ok p1 env Hu) as (err & q & e & He & Q1 & Q2 & Q3 & _); [by rewrite Hst|]. rewrite He. cbn [res_bind]. exists q, e. rewrite Q1, Q2, Q3. split_and!; try done.
      unfold pcb_at, put_pcb. simpl. by rewrite !insert_insert_eq.
    - exists p1, (w_env w). by split_and!. }
  destruct Hr as (q & e & -> & Q1 & Q2 & Q3). cbn [res_bind]. unfold pcb_at at 1, put_pcb at 1. simpl w_pcbs.
  rewrite lookup_insert_eq. cbn [of_option res_bind]. rewrite !Q1, !Q2, !Q3. rewrite !bool_decide_true by done.
  rewrite !orb_true_r. cbn [lwip_assert res_bind].
  exists (q <| state := CLOSED |>), e. unfold pcb_at, put_pcb. simpl. by rewrite insert_insert_eq.
Qed.

(** The error callbacks of the application do nothing to the stack. *)
Definition quiet_err : Prop := forall id e w, exists a, ev_err cb id e w = Ok (w <| w_app := a |>).

Lemma tcp_abort_ok id w p : quiet_err -> w_pcbs w !! id = Some p -> live (state p) -> exists w',
  tcp_abort cb id w = Ok w' /\ w_pcbs w' = delete id (w_pcbs w) /\ tcp_active_pcbs w' = unlink id (tcp_active_pcbs w) /\
  tcp_tw_pcbs w' = tcp_tw_pcbs w /\ tcp_bound_pcbs w' = tcp_bound_pcbs w /\ tcp_listen_pcbs w' = tcp_listen_pcbs w /\
  w_listen w' = w_listen w.
Proof.
  intros Hq Hp Hl. pose proof Hl as (L1 & L2 & L3). unfold tcp_abort, tcp_abandon, get_pcb. rewrite Hp. cbn [of_option res_bind].
  unfold state_is. rewrite !bool_decide_false by done. cbn [negb lwip_assert res_bind].
  unfold remove_active_changed, tcp_pcb_remove_active.
  destruct (pcb_remove_ok id (w <| tcp_active_pcbs := unlink id (tcp_active_pcbs w) |>) p) as (q & e & ->); [exact Hp|exact Hl|]. cbn [res_bind].
  unfold pcb_at at 1, put_pcb at 1. simpl w_pcbs. rewrite lookup_insert_eq. cbn [of_option res_bind].
  set (w1 := w_rst _ _ _ _ _ _ _). destruct (Hq id ERR_ABRT (free_pcb id w1)) as (a & ->).
  eexists. split; [reflexivity|]. unfold w1, w_rst, free_pcb, pcb_at, put_pcb. simpl. rewrite delete_insert_eq. by split_and!.
Qed.

(** ** The loop over the active connections *)
Definition goes (old : Z) (m : gmap positive tcp_pcb) (id : positive) : bool :=
  match m !! id with Some p => must_abort old p | None => false end.

Lemma succ_in_app id pre l : id ∉ pre -> succ_in id (pre ++ id :: l) = Some (hd_error l).
Proof.
  induction pre as [|x pre IH]; simpl; [by rewrite bool_decide_true|]. rewrite not_elem_of_cons. intros [Hne Hin].
  rewrite bool_decide_false by congruence. by apply IH.
Qed.

(** What the change of an address leaves alone. *)
Definition same_rest (w w' : tcp_world A) : Prop :=
  tcp_tw_pcbs w' = tcp_tw_pcbs w /\ tcp_bound_pcbs w' = tcp_bound_pcbs w /\ tcp_listen_pcbs w' = tcp_listen_pcbs w.

Lemma abort_loop_spec old m l : quiet_err -> (forall id, id ∈ l -> exists p, m !! id = Some p /\ live (state p)) ->
  forall fuel pre w, tcp_active_pcbs w = pre ++ l -> NoDup (pre ++ l) -> (forall id, id ∈ l -> w_pcbs w !! id = m !! id) ->
  (length l <= fuel)%nat -> exists w', abort_loop cb fuel old (hd_error l) w = Ok w' /\
    (forall id, w_pcbs w' !! id = if bool_decide (id ∈ l) && goes old m id then None else w_pcbs w !! id) /\
    tcp_active_pcbs w' = pre ++ filter (fun id => goes old m id = false) l /\ same_rest w w' /\ w_listen w' = w_listen w.
Proof.
  intros Hq. induction l as [|id l IH]; intros Hm fuel pre w Hact Hnd Hag Hfuel.
  { exists w. destruct fuel; (split; [done|]); (split; [intros id; by rewrite bool_decide_false by apply not_elem_of_nil|done]). }
  destruct fuel as [|fuel]; [simpl in Hfuel; lia|]. simpl in Hfuel.
  destruct (Hm id) as (p & Hp & Hl); [by left|]. cbn [hd_error abort_loop]. unfold get_pcb. rewrite Hag, Hp by (by left).
  cbn [of_option res_bind].
  pose proof Hnd as Hnd0. rewrite (cons_middle id pre l) in Hnd0. apply NoDup_app in Hnd0 as (N1 & N2 & N3).
  assert (Hpre : id ∉ pre) by (intros H; apply (N2 id H); set_solver).
  assert (Hid : id ∉ l) by (by apply NoDup_app in N3 as (_ & N4 & _); apply N4, list_elem_of_singleton).
  unfold pcb_next. rewrite Hact, succ_in_app by done.
  assert (Hgo : goes old m id = must_abort old p) by (unfold goes; by rewrite Hp).
  assert (Hm' : forall i, i ∈ l -> exists p, m !! i = Some p /\ live (state p)) by (intros i Hi; apply Hm; by right).
  destruct (must_abort old p) eqn:Ea.
  - destruct (tcp_abort_ok id w p Hq) as (w1 & -> & E1 & E2 & E3 & E4 & E5 & E6); [by rewrite Hag by (by left)|done|].
    cbn [res_bind]. rewrite Hact, unlink_app in E2 by done.
    destruct (IH Hm' fuel pre w1) as (w' & -> & F1 & F2 & (F3 & F4 & F5) & F6); [done| | |lia|].
    { rewrite (cons_middle id pre l), (Permutation_app_comm [id] l), app_assoc in Hnd. by apply NoDup_app in Hnd as [? _]. }
    { intros i Hi. rewrite E1, lookup_delete_ne by (by intros ->). apply Hag. by right. }
    exists w'. split_and!; try done; try congruence.
    + intros i. rewrite F1, E1. destruct (decide (i = id)) as [->|Hne].
      * rewrite lookup_delete_eq, (bool_decide_false (id ∈ l)), Hgo, (bool_decide_true (id ∈ id :: l)) by (done || by left). done.
      * rewrite lookup_delete_ne by done. rewrite (bool_decide_ext (i ∈ l) (i ∈ id :: l)); [done|]. rewrite elem_of_cons. naive_solver.
    + rewrite F2, filter_cons_False; [done|]. by rewrite Hgo.
    + unfold same_rest. split_and!; congruence.
  - cbn [res_bind].
    destruct (IH Hm' fuel (pre ++ [id]) w) as (w' & -> & F1 & F2 & F3 & F6);
      [by rewrite <- app_assoc|by rewrite <- app_assoc|intros i Hi; apply Hag; by right|lia|].
    exists w'. split_and!; try done.
    + intros i. rewrite F1. destruct (decide (i = id)) as [->|Hne].
      * by rewrite Hgo, !andb_false_r.
      * rewrite (bool_decide_ext (i ∈ l) (i ∈ id :: l)); [done|]. rewrite elem_of_cons. naive_solver.
    + rewrite F2, filter_cons_True by (by rewrite Hgo). by rewrite <- app_assoc.
Qed.

(** ** The listeners *)
Lemma move_listeners_spec old ip l : forall w, NoDup l -> (forall id, id ∈ l -> is_Some (w_listen w !! id)) ->
  exists m, move_listeners old ip l w = Ok (w <| w_listen := m |>) /\
    forall id, m !! id = if bool_decide (id ∈ l) then move_listener old ip <$> w_listen w !! id else w_listen w !! id.
Proof.
  induction l as [|id l IH]; intros w Hnd Hl.
  { exists (w_listen w). split; [by destruct w|]. intros id. by rewrite bool_decide_false by apply not_elem_of_nil. }
  apply NoDup_cons in Hnd as [Hid Hnd]. destruct (Hl id) as [x Hx]; [by left|]. cbn [move_listeners]. rewrite Hx. cbn [of_option res_bind].
  destruct (IH (w <| w_listen := <[id := move_listener old ip x]> (w_listen w) |>)) as (m & -> & Hm); [done| |].
  { intros i Hi. simpl. rewrite lookup_insert_ne by (by intros ->). apply Hl. by right. }
  exists m. split; [done|]. intros i. rewrite Hm. simpl. destruct (decide (i = id)) as [->|Hne].
  - rewrite (bool_decide_false (id ∈ l)), (bool_decide_true (id ∈ id :: l)), lookup_insert_eq, Hx by (done || by left). done.
  - rewrite lookup_insert_ne by done. rewrite (bool_decide_ext (i ∈ l) (i ∈ id :: l)); [done|]. rewrite elem_of_cons. naive_solver.
Qed.
End Abort.

(** ** Properties *)
Section Change.
Context {A : Type} (cb : tcp_callbacks A).
Implicit Types (w : tcp_world A) (s : stack A).

Lemma active_live w : lists_ok (shape_of w) -> forall id, id ∈ tcp_active_pcbs w -> exists p, w_pcbs w !! id = Some p /\ live (state p).
Proof.
  intros Hok id Hin. destruct (lo_act _ Hok id Hin) as (a & port & H & Hl). simpl in H. rewrite lookup_fmap in H.
  apply fmap_Some in H as (p & Hp & [= -> ->]). by exists p.
Qed.

(** The TCP state when the address [old] of an interface becomes [ip]: the
    connections of the old address are gone, its listeners have moved. *)
Record readdressed (old ip : Z) w w' : Prop := {
  rd_pcbs : forall id, w_pcbs w' !! id =
    if bool_decide (id ∈ tcp_active_pcbs w) && goes old (w_pcbs w) id then None else w_pcbs w !! id;
  rd_active : tcp_active_pcbs w' = filter (fun id => goes old (w_pcbs w) id = false) (tcp_active_pcbs w);
  rd_listen : forall id, w_listen w' !! id = move_listener old ip <$> w_listen w !! id;
  rd_rest : same_rest w w'
}.

Lemma change_tcp_addr_spec old ip w : quiet_err cb -> lists_ok (shape_of w) ->
  exists w', change_tcp_addr cb old ip w = Ok w' /\ readdressed old ip w w'.
Proof.
  intros Hq Hok. unfold change_tcp_addr.
  assert (Hnd : NoDup (tcp_active_pcbs w)) by (by pose proof (lo_nodup _ Hok) as [? _]%NoDup_app).
  destruct (abort_loop_spec cb old (w_pcbs w) (tcp_active_pcbs w) Hq (active_live w Hok)
    (length (tcp_active_pcbs w) + length (tcp_tw_pcbs w) + length (tcp_bound_pcbs w)) [] w)
    as (w1 & -> & H1 & H2 & H3 & H4); [done|done|done|lia|].
  cbn [res_bind]. pose proof (lo_lst _ Hok) as [Hl1 Hl2]. simpl in Hl1, Hl2.
  destruct (move_listeners_spec old ip (tcp_listen_pcbs w1) w1) as (m & -> & Hm).
  { destruct H3 as (_ & _ & ->). done. }
  { destruct H3 as (_ & _ & ->). rewrite H4. intros id Hid. apply Hl2, elem_of_dom in Hid. done. }
  eexists. split; [reflexivity|]. split; simpl; [exact H1|exact H2| |done].
  intros id. rewrite Hm, H4. destruct H3 as (_ & _ & ->). case_bool_decide as Hin; [done|].
  destruct (w_listen w !! id) eqn:E; [|done]. exfalso. apply Hin, Hl2, elem_of_dom. by rewrite E.
Qed.

Lemma readdressed_lists old ip w w' : lists_ok (shape_of w) -> readdressed old ip w w' -> lists_ok (shape_of w').
Proof.
  intros [Hnd Hact Htw Hbnd [Hl1 Hl2] Hsep] [R1 R2 R3 (R4 & R5 & R6)]. unfold shape_of in *. simpl in *.
  assert (Hst : forall id, (ident <$> w_pcbs w') !! id =
    if bool_decide (id ∈ tcp_active_pcbs w) && goes old (w_pcbs w) id then None else (ident <$> w_pcbs w) !! id).
  { intros id. rewrite !lookup_fmap, R1. by destruct (_ && _). }
  assert (Hdom : forall id, id ∈ dom (w_listen w') <-> id ∈ dom (w_listen w)).
  { intros id. rewrite !elem_of_dom, R3. apply fmap_is_Some. }
  pose proof Hnd as (N1 & N2 & N3)%NoDup_app.
  split; simpl; rewrite ?R2, ?R4, ?R5, ?R6.
  - apply NoDup_app. split_and!; [by apply NoDup_filter| |done]. intros id [_ Hid]%list_elem_of_filter. by apply N2.
  - intros id [Hg Hid]%list_elem_of_filter. rewrite Hst, Hg, andb_false_r. by apply Hact.
  - intros id Hid. rewrite Hst, bool_decide_false; [by apply Htw|]. intros H. apply (N2 id H). set_solver.
  - intros id Hid. rewrite Hst, bool_decide_false; [by apply Hbnd|]. intros H. apply (N2 id H). set_solver.
  - split; [done|]. intros id. by rewrite Hdom.
  - intros id Hid%Hdom. rewrite Hst, (Hsep id Hid). by destruct (_ && _).
Qed.

(** The run of [netif_set_ipaddr] with its effect on TCP. *)
Lemma netif_set_ipaddr_run id ip x s : quiet_err cb -> sk_ifaces s !! id = Some x -> lists_ok (shape_of (sk_tcp s)) ->
  let old := nif_ip_addr (if_netif x) in
  exists w', netif_set_ipaddr cb id (Some ip) s =
      Ok (s <| sk_tcp := w' |> <| sk_ifaces := <[id := mk_iface ((if_netif x) <| nif_ip_addr := ip |>) (if_autoip x)]> (sk_ifaces s) |>) /\
    lists_ok (shape_of w') /\ (ip = old -> w' = sk_tcp s) /\ (ip <> old -> readdressed old ip (sk_tcp s) w').
Proof.
  intros Hq Hx Hok old. unfold netif_set_ipaddr, get_netif, get_if. rewrite Hx. cbn [of_option res_bind].
  assert (Hend : forall w', upd_netif id (fun n => n <| nif_ip_addr := addr_or_any (Some ip) |>) (s <| sk_tcp := w' |>) =
    Ok (s <| sk_tcp := w' |> <| sk_ifaces := <[id := mk_iface ((if_netif x) <| nif_ip_addr := ip |>) (if_autoip x)]> (sk_ifaces s) |>)).
  { intros w'. unfold upd_netif, put_netif, get_netif, get_if. simpl. by rewrite Hx. }
  fold old. destruct (Z.eqb_spec ip old) as [->|Hne].
  - exists (sk_tcp s). split_and!; [|done..]. cbn [res_bind]. rewrite <- Hend. by destruct s.
  - destruct (change_tcp_addr_spec old ip (sk_tcp s) Hq Hok) as (w' & -> & Hr). cbn [res_bind]. exists w'. rewrite Hend.
    split_and!; [done|by eapply readdressed_lists|done|done].
Qed.

(** C32. Changing the address of an interface ends without a failure, sets just
    this address, and takes TCP along: exactly the connections of the old
    address are aborted, unless it is link-local; every listener of the old
    address listens to the new one with its other settings unchanged; all
    other blocks and lists stay, the axioms about the lists hold again, and no
    connection of an old address that is not link-local is left. *)
Theorem netif_set_ipaddr_correct id ip x s : quiet_err cb -> sk_ifaces s !! id = Some x -> lists_ok (shape_of (sk_tcp s)) ->
  let old := nif_ip_addr (if_netif x) in
  exists w', netif_set_ipaddr cb id (Some ip) s =
      Ok (s <| sk_tcp := w' |> <| sk_ifaces := <[id := mk_iface ((if_netif x) <| nif_ip_addr := ip |>) (if_autoip x)]> (sk_ifaces s) |>) /\
    lists_ok (shape_of w') /\
    (ip = old -> w' = sk_tcp s) /\
    (ip <> old -> readdressed old ip (sk_tcp s) w' /\
       (ip_addr_islinklocal old = false ->
        forall c p, c ∈ tcp_active_pcbs w' -> w_pcbs w' !! c = Some p -> local_ip p <> old)).
Proof.
  intros Hq Hx Hok old. destruct (netif_set_ipaddr_run id ip x s Hq Hx Hok) as (w' & -> & Hl & Hsame & Hr).
  exists w'. split_and!; [done..|]. intros Hne. specialize (Hr Hne). split; [done|]. intros Hll c p Hc Hp Heq.
  rewrite (rd_active _ _ _ _ Hr) in Hc. apply list_elem_of_filter in Hc as [Hg Hc].
  rewrite (rd_pcbs _ _ _ _ Hr), Hg, andb_false_r in Hp. unfold goes in Hg. rewrite Hp in Hg. unfold must_abort in Hg.
  fold old in Hg. rewrite Heq, Z.eqb_refl, Hll in Hg. done.
Qed.
End Change.

Lemma quiet_app_err : quiet_err quiet_app.
Proof. intros id e w. exists (w_app w). simpl. by destruct w. Qed.
Lemma established_ok w : established = Ok w -> lists_ok (shape_of w).
Proof.
  intros H. eapply (steps_ok true); [|apply world_init_ok].
  apply (tcp_calls_steps quiet_app true); [by apply established_calls|apply world_init_ok].
Qed.

(** A host with one connection changes its address. *)
Lemma netif_set_ipaddr_correct_witness :
  match established with
  | Ok w => length (tcp_active_pcbs w) = 1%nat /\
      let s := mk_stack {[0%nat := mk_iface lan None]} [0%nat] None 1 demo_arp w [] in
      exists w', netif_set_ipaddr quiet_app 0 (Some peer) s =
        Ok (s <| sk_tcp := w' |> <| sk_ifaces := <[0%nat := mk_iface (lan <| nif_ip_addr := peer |>) None]> (sk_ifaces s) |>) /\
        lists_ok (shape_of w') /\ tcp_active_pcbs w' = []
  | Err _ => False
  end.
Proof.
  destruct established as [w|] eqn:E; [|vm_compute in E; discriminate E].
  split; [vm_compute in E; injection E as <-; reflexivity|]. cbv zeta.
  destruct (netif_set_ipaddr_correct quiet_app 0 peer (mk_iface lan None)
    (mk_stack {[0%nat := mk_iface lan None]} [0%nat] None 1 demo_arp w []) quiet_app_err
    (lookup_singleton_eq _ _) (established_ok w E)) as (w' & H1 & H2 & _ & H3).
  exists w'. split; [exact H1|split; [exact H2|]]. destruct H3 as [Hr _]; [discriminate|].
  rewrite (rd_active _ _ _ _ Hr). vm_compute in E. injection E as <-. reflexivity.
Defined.
