(* ===== verification/AutoipLive.v ===== *)
(** * AutoIP: choosing and claiming an address

    [at_state] describes the AutoIP interface between two ticks; every case of
    the timer is a lemma that leads from one such state to the next, and the
    claim of an address is their chain. *)
From S2P Require Import Prelude ByteOrder IpAddr Ip Tcp TcpOut TcpIn TcpWorld TcpShape TcpLists TcpScenarios TcpTimerSteps Etharp EtharpTable Netif NetifAddr Autoip.

(** ** The address *)
Definition in_range (addr : Z) : Prop := AUTOIP_RANGE_START <= addr <= AUTOIP_RANGE_END.
(** 16 bits folded into the range. *)
Definition fold_addr (x : Z) : Z :=
  if x <? 0x100 then AUTOIP_NET + x + 0xfe00 else if 0xfeff <? x then AUTOIP_NET + x - 0xfe00 else AUTOIP_NET + x.
Definition seed_of (n : netif) : Z := u32 (AUTOIP_RANGE_START + Z.lor (hw n 4) (Z.shiftl (hw n 5) 8)).

Lemma create_addr_eq n a : autoip_create_addr n a = Ok (lwip_htonl (fold_addr (u32 (seed_of n + tried_llipaddr a) mod 65536))).
Proof.
  unfold autoip_create_addr, LWIP_AUTOIP_CREATE_SEED_ADDR. fold (seed_of n). unfold lwip_ntohl.
  rewrite lwip_htonl_invol by apply is_u32_u32. rewrite land_ffff.
  set (x := u32 (seed_of n + tried_llipaddr a) mod 65536). assert (Hx : 0 <= x < 65536) by (apply Z.mod_pos_bound; lia).
  replace (Z.lor AUTOIP_NET x) with (AUTOIP_NET + x).
  2: { change AUTOIP_NET with (0xA9FE * 2 ^ 16). by rewrite lor_add. }
  unfold fold_addr. change AUTOIP_NET with 2851995648. change AUTOIP_RANGE_START with 2851995904.
  change AUTOIP_RANGE_END with 2852060927.
  destruct (Z.ltb_spec x 256); destruct (Z.ltb_spec 65279 x); try lia.
  - rewrite (proj2 (Z.ltb_lt (2851995648 + x) 2851995904)) by lia. rewrite u32_id by lia.
    rewrite (proj2 (Z.ltb_ge 2852060927 _)) by lia.
    rewrite !(proj2 (Z.leb_le _ _)) by lia. cbn [andb lwip_assert res_bind]. repeat f_equal; lia.
  - rewrite (proj2 (Z.ltb_ge (2851995648 + x) 2851995904)) by lia. rewrite (proj2 (Z.ltb_lt 2852060927 _)) by lia. rewrite u32_id by lia.
    rewrite !(proj2 (Z.leb_le _ _)) by lia. cbn [andb lwip_assert res_bind]. repeat f_equal; lia.
  - rewrite (proj2 (Z.ltb_ge (2851995648 + x) 2851995904)) by lia. rewrite (proj2 (Z.ltb_ge 2852060927 _)) by lia.
    rewrite !(proj2 (Z.leb_le _ _)) by lia. done.
Qed.
Lemma fold_addr_range x : 0 <= x < 65536 -> in_range (fold_addr x).
Proof.
  intros Hx. unfold in_range, fold_addr. change AUTOIP_NET with 2851995648. change AUTOIP_RANGE_START with 2851995904.
  change AUTOIP_RANGE_END with 2852060927. destruct (Z.ltb_spec x 256); [lia|]. destruct (Z.ltb_spec 65279 x); lia.
Qed.

(** What AutoIP sends for the address [ll]. *)
Definition arp_claim (n : netif) (sender ll : Z) : frame :=
  mk_frame ethbroadcast (nif_hwaddr n) ETHTYPE_ARP
    (ArpPacket (mk_arp HWTYPE_ETHERNET ETHTYPE_IP ETHARP_HWADDR_LEN 4 ARP_REQUEST (nif_hwaddr n) sender ethzero ll) []).
Definition probe (n : netif) (ll : Z) : frame := arp_claim n IPADDR_ANY ll.
Definition announce (n : netif) (ll : Z) : frame := arp_claim n ll ll.

(** The interface with the address, and what [netif_set_up] sends. *)
Definition bound_netif (ll : Z) (n : netif) : netif :=
  set_flag NETIF_FLAG_UP (n <| nif_ip_addr := ll |> <| nif_netmask := load_le32 255 255 0 0 |> <| nif_gw := load_le32 0 0 0 0 |>).
Definition greeting (id : nat) (n : netif) (ll : Z) : list (nat * frame) :=
  if has_flag (Z.lor (nif_flags n) NETIF_FLAG_UP) NETIF_FLAG_LINK_UP && has_flag (Z.lor (nif_flags n) NETIF_FLAG_UP) NETIF_FLAG_ETHARP
  then [(id, announce n ll)] else [].

Section Live.
Context {A : Type} (cb : tcp_callbacks A) (Hq : quiet_err cb) (id : nat).
Implicit Types (s : stack A) (n : netif) (a : autoip) (ws : list (nat * frame)).

(** The interface [id] is the only one, no conflict was seen of late, and
    [ws] was sent. *)
Record at_state n a ws s : Prop := {
  at_if : sk_ifaces s !! id = Some (mk_iface n (Some a));
  at_list : netif_list s = [id];
  at_allocs : arp_allocs (sk_arp s) = [];
  at_wire : wire (sk_arp s) = ws;
  at_tcp : lists_ok (shape_of (sk_tcp s));
  at_calm : lastconflict a = 0;
  at_hw : zlen (nif_hwaddr n) = ETHARP_HWADDR_LEN
}.

Lemma get_netif_at n a ws s : at_state n a ws s -> get_netif id s = Ok n.
Proof. intros H. unfold get_netif, get_if. by rewrite (at_if _ _ _ _ H). Qed.
Lemma get_autoip_at n a ws s : at_state n a ws s -> get_autoip id s = Ok a.
Proof. intros H. unfold get_autoip, get_if. by rewrite (at_if _ _ _ _ H). Qed.
Lemma put_at n a ws s a' : at_state n a ws s -> lastconflict a' = 0 ->
  exists s', put_autoip id a' s = Ok s' /\ at_state n a' ws s'.
Proof.
  intros [H1 H2 H3 H4 H5 H6 H7] Hc. unfold put_autoip, get_if. rewrite H1. eexists. split; [reflexivity|].
  split; simpl; try done. apply lookup_insert_eq.
Qed.
Lemma upd_at n a ws s f : at_state n a ws s -> lastconflict (f a) = 0 ->
  exists s', upd_autoip id f s = Ok s' /\ at_state n (f a) ws s'.
Proof. intros H Hc. unfold upd_autoip. rewrite (get_autoip_at _ _ _ _ H). cbn [res_bind]. by eapply put_at. Qed.

Lemma raw_at n a ws s ipsrc ll : at_state n a ws s -> exists r s',
  run_arp (etharp_raw id n (nif_hwaddr n) ethbroadcast (nif_hwaddr n) ipsrc ethzero ll ARP_REQUEST) s = Ok (r, s') /\
  at_state n a (ws ++ [(id, arp_claim n ipsrc ll)]) s'.
Proof.
  intros [H1 H2 H3 H4 H5 H6 H7]. unfold run_arp, etharp_raw, arp_alloc. rewrite H3, H7. simpl Z.eqb. cbn [lwip_assert res_bind].
  destruct (linkoutput_spec id (arp_claim n ipsrc ll) (sk_arp s)) as (r & w' & He & Hs & Hw & Ha).
  unfold arp_claim in He. replace (if ip_addr_islinklocal ipsrc then ethbroadcast else ethbroadcast) with ethbroadcast
    by (by destruct (ip_addr_islinklocal ipsrc)).
  rewrite He. cbn [res_bind]. exists r, (s <| sk_arp := w' |>). split; [done|].
  split; simpl; try done; [by rewrite Ha|by rewrite Hw, H4].
Qed.

(** ** Ticks *)
Lemma tmr_tick n a ws s : at_state n a ws s -> exists s1, at_state n a ws s1 /\
  autoip_tmr cb s = match au_state a with
                    | AUTOIP_STATE_PROBING => tmr_probing id n a s1
                    | AUTOIP_STATE_ANNOUNCING => tmr_announcing cb id a s1
                    | _ => Ok s1
                    end.
Proof.
  intros H. destruct (put_at n a ws s a H (at_calm _ _ _ _ H)) as (s1 & Hp & H1). exists s1. split; [done|].
  unfold autoip_tmr. rewrite (at_list _ _ _ _ H). cbn [autoip_ticks]. unfold autoip_tick, get_if.
  rewrite (at_if _ _ _ _ H). cbn [of_option res_bind if_autoip if_netif]. rewrite (at_calm _ _ _ _ H). rewrite Z.ltb_irrefl.
  rewrite Hp. cbn [res_bind]. by destruct (match au_state a with AUTOIP_STATE_PROBING => _ | _ => _ end).
Qed.
Lemma tick_wait n a ws s : at_state n a ws s -> au_state a = AUTOIP_STATE_PROBING \/ au_state a = AUTOIP_STATE_ANNOUNCING ->
  0 < ttw a -> exists s', autoip_tmr cb s = Ok s' /\ at_state n (a <| ttw := ttw a - 1 |>) ws s'.
Proof.
  intros H Hst Hw. destruct (tmr_tick n a ws s H) as (s1 & H1 & ->).
  destruct (put_at n a ws s1 (a <| ttw := ttw a - 1 |>)) as (s' & Hp & H'); [exact H1|exact (at_calm _ _ _ _ H)|].
  exists s'. split; [|done]. destruct Hst as [->| ->]; [unfold tmr_probing|unfold tmr_announcing]; by rewrite (proj2 (Z.ltb_lt _ _) Hw).
Qed.
(** The wait between two probes. *)
Definition probe_wait n a : Z := LWIP_AUTOIP_RAND n (Some a) mod 10 + 10.
Lemma tick_probe n a ws s : at_state n a ws s -> au_state a = AUTOIP_STATE_PROBING -> ttw a = 0 -> 0 <= sent_num a < PROBE_NUM ->
  exists s', autoip_tmr cb s = Ok s' /\
    at_state n (a <| sent_num := sent_num a + 1 |> <| ttw := probe_wait n a |>) (ws ++ [(id, probe n (llipaddr a))]) s'.
Proof.
  intros H Hst Hw Hsn. destruct (tmr_tick n a ws s H) as (s1 & H1 & ->). rewrite Hst. unfold tmr_probing. rewrite Hw. rewrite Z.ltb_irrefl.
  rewrite (proj2 (Z.leb_gt _ _)) by (apply Hsn). unfold autoip_arp_probe.
  rewrite (get_netif_at _ _ _ _ H1), (get_autoip_at _ _ _ _ H1). cbn [res_bind].
  destruct (raw_at n a ws s1 IPADDR_ANY (llipaddr a) H1) as (r & s2 & -> & H2). cbn [res_bind].
  unfold PROBE_NUM in Hsn. rewrite (u8_id (sent_num a + 1)) by lia.
  replace (u16 _) with (probe_wait n a); [by eapply put_at; [exact H2|apply H]|].
  unfold probe_wait. change ((PROBE_MAX - PROBE_MIN) * AUTOIP_TICKS_PER_SECOND) with 10. change (PROBE_MIN * AUTOIP_TICKS_PER_SECOND) with 10.
  rewrite u16_id; [done|]. pose proof (Z.mod_pos_bound (LWIP_AUTOIP_RAND n (Some a)) 10). lia.
Qed.
Lemma tick_probed n a ws s : at_state n a ws s -> au_state a = AUTOIP_STATE_PROBING -> ttw a = 0 -> sent_num a = PROBE_NUM ->
  exists s', autoip_tmr cb s = Ok s' /\
    at_state n (a <| au_state := AUTOIP_STATE_ANNOUNCING |> <| sent_num := 0 |> <| ttw := 20 |>) ws s'.
Proof.
  intros H Hst Hw Hsn. destruct (tmr_tick n a ws s H) as (s1 & H1 & ->). rewrite Hst. unfold tmr_probing. rewrite Hw, Hsn. rewrite Z.ltb_irrefl.
  eapply put_at; [exact H1|apply H].
Qed.

Lemma set_addr_at n a ws s f : at_state n a ws s -> nif_hwaddr (f n) = nif_hwaddr n ->
  exists s', upd_netif id f s = Ok s' /\ at_state (f n) a ws s'.
Proof.
  intros [H1 H2 H3 H4 H5 H6 H7] Hf. unfold upd_netif, put_netif, get_netif, get_if. rewrite H1. cbn [of_option res_bind if_netif if_autoip].
  eexists. split; [reflexivity|]. split; simpl; try done; [apply lookup_insert_eq|by rewrite Hf].
Qed.
Lemma set_ip_at n a ws s ip : at_state n a ws s -> exists s', netif_set_ipaddr cb id (Some ip) s = Ok s' /\
  at_state (n <| nif_ip_addr := ip |>) a ws s'.
Proof.
  intros [H1 H2 H3 H4 H5 H6 H7]. destruct (netif_set_ipaddr_run cb id ip _ s Hq H1 H5) as (w' & -> & Hl & _).
  eexists. split; [reflexivity|]. split; simpl; try done. apply lookup_insert_eq.
Qed.
Lemma bind_at n a ws s : at_state n a ws s -> netif_is_up n = false ->
  exists s', autoip_bind cb id s = Ok s' /\ at_state (bound_netif (llipaddr a) n) a (ws ++ greeting id n (llipaddr a)) s'.
Proof.
  intros H Hdown. unfold autoip_bind. rewrite (get_autoip_at _ _ _ _ H). cbn [res_bind].
  destruct (set_ip_at n a ws s (llipaddr a) H) as (s1 & -> & H1). cbn [res_bind]. unfold netif_set_netmask, netif_set_gw, addr_or_any.
  set (n1 := n <| nif_ip_addr := llipaddr a |>) in *. set (n2 := n1 <| nif_netmask := load_le32 255 255 0 0 |>).
  set (n3 := n2 <| nif_gw := load_le32 0 0 0 0 |>).
  destruct (set_addr_at n1 a ws s1 (fun n => n <| nif_netmask := load_le32 255 255 0 0 |>)) as (s2 & E2 & H2); [exact H1|reflexivity|].
  destruct (set_addr_at n2 a ws s2 (fun n => n <| nif_gw := load_le32 0 0 0 0 |>)) as (s3 & E3 & H3); [exact H2|reflexivity|].
  simpl default. rewrite E2. cbn [res_bind]. rewrite E3. cbn [res_bind]. change (at_state n3 a ws s3) in H3.
  unfold netif_set_up. rewrite (get_netif_at _ _ _ _ H3). cbn [res_bind].
  assert (Hup : has_flag (nif_flags n3) NETIF_FLAG_UP = false) by exact Hdown.
  rewrite Hup. unfold put_netif, get_if. rewrite (at_if _ _ _ _ H3). cbn [of_option res_bind if_autoip].
  change (set_flag NETIF_FLAG_UP n3) with (bound_netif (llipaddr a) n).
  set (s4 := put_if id _ s3). assert (H4 : at_state (bound_netif (llipaddr a) n) a ws s4).
  { destruct H3 as [A1 A2 A3 A4 A5 A6 A7]. split; try done. apply lookup_insert_eq. }
  unfold greeting. change (nif_flags (bound_netif (llipaddr a) n)) with (Z.lor (nif_flags n) NETIF_FLAG_UP).
  destruct (_ && _); [|exists s4; by rewrite app_nil_r].
  unfold etharp_gratuitous. rewrite (get_netif_at _ _ _ _ H4). cbn [res_bind]. set (b := bound_netif (llipaddr a) n) in *.
  destruct (raw_at b a ws s4 (llipaddr a) (llipaddr a) H4) as (r & s5 & He & H5).
  change (run_arp (etharp_request id b (nif_ip_addr b)) s4) with
    (run_arp (etharp_raw id b (nif_hwaddr b) ethbroadcast (nif_hwaddr b) (llipaddr a) ethzero (llipaddr a) ARP_REQUEST) s4).
  rewrite He. by exists s5.
Qed.
Lemma tick_bind n a ws s : at_state n a ws s -> au_state a = AUTOIP_STATE_ANNOUNCING -> ttw a = 0 -> sent_num a = 0 -> netif_is_up n = false ->
  exists s', autoip_tmr cb s = Ok s' /\
    at_state (bound_netif (llipaddr a) n) (a <| ttw := 20 |> <| sent_num := 1 |>) (ws ++ greeting id n (llipaddr a)) s'.
Proof.
  intros H Hst Hw Hsn Hdown. destruct (tmr_tick n a ws s H) as (s1 & H1 & ->). rewrite Hst. unfold tmr_announcing. rewrite Hw, Hsn, Z.ltb_irrefl.
  rewrite Z.eqb_refl. destruct (bind_at n a ws s1 H1 Hdown) as (s2 & -> & H2). cbn [res_bind].
  set (f := fun a => _). destruct (upd_at _ a _ s2 f H2) as (s3 & -> & H3).
  { unfold f. simpl. rewrite Hsn. exact (at_calm _ _ _ _ H). }
  exists s3. split; [done|]. unfold f in H3. simpl in H3. rewrite Hsn in H3. exact H3.
Qed.
Lemma tick_announce n a ws s : at_state n a ws s -> au_state a = AUTOIP_STATE_ANNOUNCING -> ttw a = 0 -> sent_num a = 1 ->
  exists s', autoip_tmr cb s = Ok s' /\
    at_state n (a <| ttw := 0 |> <| sent_num := 0 |> <| au_state := AUTOIP_STATE_BOUND |>) (ws ++ [(id, announce n (llipaddr a))]) s'.
Proof.
  intros H Hst Hw Hsn. destruct (tmr_tick n a ws s H) as (s1 & H1 & ->). rewrite Hst. unfold tmr_announcing. rewrite Hw, Hsn, Z.ltb_irrefl.
  change (1 =? 0) with false. cbn iota. unfold autoip_arp_announce.
  rewrite (get_netif_at _ _ _ _ H1), (get_autoip_at _ _ _ _ H1). cbn [res_bind].
  destruct (raw_at n a ws s1 (llipaddr a) (llipaddr a) H1) as (r & s2 & -> & H2). cbn [res_bind].
  set (f := fun a => _). destruct (upd_at _ a _ s2 f H2) as (s3 & -> & H3).
  { unfold f. simpl. rewrite Hsn. exact (at_calm _ _ _ _ H). }
  exists s3. split; [done|]. unfold f in H3. simpl in H3. rewrite Hsn in H3. exact H3.
Qed.

(** ** Runs of the timer *)
Fixpoint autoip_run (k : nat) s : res (stack A) :=
  match k with O => Ok s | S k => let! s := autoip_tmr cb s in autoip_run k s end.

Lemma autoip_run_add k k' s : autoip_run (k + k') s = let! s := autoip_run k s in autoip_run k' s.
Proof. revert s. induction k as [|k IH]; intros s; simpl; [done|]. destruct (autoip_tmr cb s); simpl; [apply IH|done]. Qed.

Context (ll : Z) (ws0 : list (nat * frame)).

(** The interface is down, or it has the address [ll] and all probes for it
    were sent before. *)
Definition entitled n ws : Prop :=
  netif_is_up n = true -> nif_ip_addr n = ll /\ exists rest, ws = ws0 ++ repeat (id, probe n ll) 3 ++ rest.
Definition safe s : Prop := forall x, sk_ifaces s !! id = Some x -> entitled (if_netif x) (wire (sk_arp s)).
Definition leads (k : nat) s s' : Prop :=
  autoip_run k s = Ok s' /\ forall t st, (t <= k)%nat -> autoip_run t s = Ok st -> safe st.

Lemma safe_at n a ws s : at_state n a ws s -> entitled n ws -> safe s.
Proof. intros H He x Hx. rewrite (at_if _ _ _ _ H) in Hx. injection Hx as <-. by rewrite (at_wire _ _ _ _ H). Qed.
Lemma leads_refl s : safe s -> leads 0 s s.
Proof. intros Hs. split; [done|]. intros t st Ht. replace t with O by lia. by intros [= <-]. Qed.
Lemma leads_trans k k' s s1 s2 : leads k s s1 -> leads k' s1 s2 -> leads (k + k') s s2.
Proof.
  intros [H1 S1] [H2 S2]. split; [by rewrite autoip_run_add, H1|]. intros t st Ht Hst.
  destruct (decide (t <= k)%nat); [by eapply S1|]. replace t with (k + (t - k))%nat in Hst by lia.
  rewrite autoip_run_add, H1 in Hst. cbn [res_bind] in Hst. eapply S2; [|exact Hst]. lia.
Qed.
Lemma leads_one s s' : autoip_tmr cb s = Ok s' -> safe s -> safe s' -> leads 1 s s'.
Proof.
  intros H S1 S2. split; [simpl; by rewrite H|]. intros t st Ht. destruct t as [|t]; [by intros [= <-]|].
  replace t with O by lia. simpl. rewrite H. by intros [= <-].
Qed.

(** The wait for the next action. *)
Lemma leads_wait n a ws s : at_state n a ws s -> au_state a = AUTOIP_STATE_PROBING \/ au_state a = AUTOIP_STATE_ANNOUNCING ->
  0 <= ttw a -> entitled n ws -> exists s', leads (Z.to_nat (ttw a)) s s' /\ at_state n (a <| ttw := 0 |>) ws s'.
Proof.
  intros H Hst H0 He. remember (Z.to_nat (ttw a)) as k eqn:Ek. revert a s H Hst H0 Ek. induction k as [|k IH]; intros a s H Hst H0 Ek.
  - exists s. split; [apply leads_refl; by eapply safe_at|]. replace (a <| ttw := 0 |>) with a; [done|].
    assert (Hz : ttw a = 0) by lia. destruct a. simpl in *. by rewrite Hz.
  - destruct (tick_wait n a ws s H Hst) as (s1 & Ht & H1); [lia|].
    destruct (IH _ s1 H1) as (s' & Hl & H'); [exact Hst|simpl; lia|simpl; lia|].
    exists s'. split; [|exact H']. apply (leads_trans 1 k s s1 s'); [|done].
    apply leads_one; [done|by eapply safe_at|by eapply safe_at].
Qed.

(** A wait, then a tick that acts. *)
Lemma leads_wait_act n a ws s n' a' ws' : at_state n a ws s -> au_state a = AUTOIP_STATE_PROBING \/ au_state a = AUTOIP_STATE_ANNOUNCING ->
  0 <= ttw a -> entitled n ws -> entitled n' ws' ->
  (forall s1, at_state n (a <| ttw := 0 |>) ws s1 -> exists s2, autoip_tmr cb s1 = Ok s2 /\ at_state n' a' ws' s2) ->
  exists s', leads (Z.to_nat (ttw a) + 1) s s' /\ at_state n' a' ws' s'.
Proof.
  intros H Hst H0 He He' Hact. destruct (leads_wait n a ws s H Hst H0 He) as (s1 & Hl & H1).
  destruct (Hact s1 H1) as (s2 & Ht & H2). exists s2. split; [|done].
  eapply leads_trans; [exact Hl|]. apply leads_one; [done|by eapply safe_at|by eapply safe_at].
Qed.

Lemma entitled_down n ws : netif_is_up n = false -> entitled n ws.
Proof. unfold entitled. by intros ->. Qed.
Lemma rand_bound n a : 10 <= probe_wait n a < 20.
Proof. unfold probe_wait. pose proof (Z.mod_pos_bound (LWIP_AUTOIP_RAND n (Some a)) 10). lia. Qed.

(** From the first wait to the address in use. *)
Lemma claim_run n w0 tried s : at_state n (mk_autoip ll AUTOIP_STATE_PROBING 0 w0 0 tried) ws0 s -> netif_is_up n = false -> 0 <= w0 ->
  exists T s', leads T s s' /\ Z.of_nat T <= w0 + 103 /\
    at_state (bound_netif ll n) (mk_autoip ll AUTOIP_STATE_BOUND 0 0 0 tried)
      (ws0 ++ repeat (id, probe n ll) 3 ++ greeting id n ll ++ [(id, announce n ll)]) s'.
Proof.
  intros H Hdown Hw0. pose proof (entitled_down n) as Hent. set (r := probe_wait n (mk_autoip ll AUTOIP_STATE_PROBING 0 0 0 tried)).
  assert (Hr : 10 <= r < 20) by apply rand_bound.
  destruct (leads_wait_act n _ ws0 s n (mk_autoip ll AUTOIP_STATE_PROBING 1 r 0 tried) (ws0 ++ [(id, probe n ll)]) H) as (s1 & L1 & H1);
    [by left|exact Hw0|by apply Hent|by apply Hent|intros s1 H1; by apply (tick_probe _ _ _ _ H1)|].
  destruct (leads_wait_act n _ _ s1 n (mk_autoip ll AUTOIP_STATE_PROBING 2 r 0 tried) (ws0 ++ [(id, probe n ll)] ++ [(id, probe n ll)]) H1)
    as (s2 & L2 & H2); [by left|simpl; lia|by apply Hent|by apply Hent| |].
  { intros s2 H2. rewrite app_assoc. by apply (tick_probe _ _ _ _ H2). }
  destruct (leads_wait_act n _ _ s2 n (mk_autoip ll AUTOIP_STATE_PROBING 3 r 0 tried) (ws0 ++ repeat (id, probe n ll) 3) H2)
    as (s3 & L3 & H3); [by left|simpl; lia|by apply Hent|by apply Hent| |].
  { intros s3 H3. destruct (tick_probe _ _ _ _ H3) as (s4 & E4 & H4); [done..|]. exists s4. split; [done|].
    rewrite <- !app_assoc in H4. exact H4. }
  destruct (leads_wait_act n _ _ s3 n (mk_autoip ll AUTOIP_STATE_ANNOUNCING 0 20 0 tried) (ws0 ++ repeat (id, probe n ll) 3) H3)
    as (s4 & L4 & H4); [by left|simpl; lia|by apply Hent|by apply Hent|intros s4 H4; by apply (tick_probed _ _ _ _ H4)|].
  set (b := bound_netif ll n). set (ws1 := ws0 ++ repeat (id, probe n ll) 3 ++ greeting id n ll).
  assert (Hb : forall rest, entitled b (ws0 ++ repeat (id, probe n ll) 3 ++ rest)) by (intros rest _; split; [done|by exists rest]).
  destruct (leads_wait_act n _ _ s4 b (mk_autoip ll AUTOIP_STATE_ANNOUNCING 1 20 0 tried) ws1 H4)
    as (s5 & L5 & H5); [by right|simpl; lia|by apply Hent|apply Hb| |].
  { intros s5 H5. unfold ws1. rewrite app_assoc. by apply (tick_bind _ _ _ _ H5). }
  destruct (leads_wait_act b _ _ s5 b (mk_autoip ll AUTOIP_STATE_BOUND 0 0 0 tried) (ws1 ++ [(id, announce n ll)]) H5)
    as (s6 & L6 & H6); [by right|simpl; lia|apply Hb|unfold ws1; rewrite <- !app_assoc; apply Hb|intros s6 H6; by apply (tick_announce _ _ _ _ H6)|].
  eexists _, s6. split; [eapply leads_trans; [exact L1|]; eapply leads_trans; [exact L2|]; eapply leads_trans; [exact L3|];
    eapply leads_trans; [exact L4|]; eapply leads_trans; [exact L5|exact L6]|]. cbn [ttw]. split; [lia|].
  unfold ws1 in H6. rewrite <- !app_assoc in H6. exact H6.
Qed.
End Live.

(** ** Starting *)
Section Start.
Context {A : Type}.
Implicit Types (s : stack A) (n : netif).

(** Before AutoIP starts: the interface, alone, perhaps with an AutoIP state
    of an earlier run. *)
Record start_state id (x : iface) s : Prop := {
  ss_if : sk_ifaces s !! id = Some x;
  ss_list : netif_list s = [id];
  ss_allocs : arp_allocs (sk_arp s) = [];
  ss_mem : sk_allocs s = [];
  ss_tcp : lists_ok (shape_of (sk_tcp s));
  ss_hw : zlen (nif_hwaddr (if_netif x)) = ETHARP_HWADDR_LEN
}.
(** The interface without an address, and the number of addresses tried. *)
Definition down_netif n : netif :=
  (if netif_is_up n then drop_flag NETIF_FLAG_UP n else n) <| nif_ip_addr := 0 |> <| nif_netmask := 0 |> <| nif_gw := 0 |>.
Definition tried_of (x : iface) : Z := match if_autoip x with Some a => tried_llipaddr a | None => 0 end.
Definition ll_of (x : iface) : Z :=
  lwip_htonl (fold_addr (u32 (seed_of (if_netif x) + tried_of x) mod 65536)).

Lemma drop_up_flag f g : has_flag (Z.land f (255 - NETIF_FLAG_UP)) g = has_flag f (Z.land (255 - NETIF_FLAG_UP) g).
Proof. apply has_flag_land. Qed.
Lemma down_netif_down n : netif_is_up (down_netif n) = false.
Proof.
  unfold down_netif. destruct (netif_is_up n) eqn:E; [|exact E]. unfold netif_is_up. simpl. rewrite drop_up_flag.
  unfold has_flag. by rewrite Z.land_0_r.
Qed.
Lemma down_netif_flag n f : Z.land (255 - NETIF_FLAG_UP) f = f -> has_flag (nif_flags (down_netif n)) f = has_flag (nif_flags n) f.
Proof. intros Hf. unfold down_netif. destruct (netif_is_up n); simpl; [|done]. by rewrite drop_up_flag, Hf. Qed.

Lemma down_run id x s : start_state id x s ->
  exists s', (if netif_is_up (if_netif x) then netif_set_down id s else Ok s) = Ok s' /\
    start_state id (mk_iface (if netif_is_up (if_netif x) then drop_flag NETIF_FLAG_UP (if_netif x) else if_netif x) (if_autoip x)) s' /\
    wire (sk_arp s') = wire (sk_arp s).
Proof.
  intros [H1 H2 H3 H4 H5 H6]. destruct (netif_is_up (if_netif x)) eqn:Hup.
  2: { exists s. split_and!; [done| |done]. split; try done. by destruct x. }
  unfold netif_set_down, get_netif, get_if. rewrite H1. cbn [of_option res_bind].
  unfold netif_is_up in Hup. rewrite Hup. unfold put_netif, get_if. rewrite H1. cbn [of_option res_bind].
  destruct (has_flag (nif_flags (if_netif x)) NETIF_FLAG_ETHARP); eexists; (split_and!; [reflexivity| |done]);
    split; simpl; try done; apply lookup_insert_eq.
Qed.

Lemma start_run id x s : start_state id x s -> exists s' w0, autoip_start id s = Ok (ERR_OK, s') /\
  at_state id (down_netif (if_netif x)) (mk_autoip (ll_of x) AUTOIP_STATE_PROBING 0 w0 0 (tried_of x)) (wire (sk_arp s)) s' /\
  (w0 = 600 /\ MAX_CONFLICTS < tried_of x \/ 0 <= w0 < 10 /\ tried_of x <= MAX_CONFLICTS).
Proof.
  intros H. pose proof (ss_if _ _ _ H) as Hif. unfold autoip_start, get_netif, get_if. rewrite Hif. cbn [of_option res_bind].
  destruct (down_run id x s H) as (s1 & -> & [A1 A2 A3 A4 A5 A6] & Hw). cbn [res_bind].
  set (n1 := if netif_is_up (if_netif x) then _ else _) in *. unfold upd_netif, put_netif, get_netif, get_if. rewrite A1.
  cbn [of_option res_bind if_netif if_autoip]. set (n2 := set_field nif_gw _ _). set (s2 := put_if id _ s1).
  assert (Hs2 : sk_ifaces s2 !! id = Some (mk_iface n2 (if_autoip x))) by apply lookup_insert_eq.
  rewrite Hs2. cbn [of_option res_bind if_autoip].
  set (a0 := mk_autoip 0 AUTOIP_STATE_OFF 0 0 0 (tried_of x)).
  replace (match if_autoip x with None => _ | Some a => _ end) with (Some a0, s2).
  2: { unfold a0, tried_of. destruct (if_autoip x); [done|]. unfold sk_malloc. simpl. by rewrite A4. }
  assert (Hn2 : n2 = down_netif (if_netif x)) by (unfold n2, n1, down_netif; by destruct (netif_is_up (if_netif x))).
  assert (H3 : exists s3, put_autoip id a0 s2 = Ok s3 /\ at_state id n2 a0 (wire (sk_arp s)) s3).
  { unfold put_autoip, get_if. rewrite Hs2. cbn [of_option res_bind if_netif]. eexists. split; [reflexivity|].
    split; simpl; try done. apply lookup_insert_eq. }
  destruct H3 as (s3 & -> & H3). cbn [res_bind]. rewrite (at_if _ _ _ _ _ H3). cbn [of_option res_bind if_netif].
  rewrite create_addr_eq. cbn [res_bind].
  assert (Hll : lwip_htonl (fold_addr (u32 (seed_of n2 + tried_llipaddr a0) mod 65536)) = ll_of x).
  { unfold ll_of. rewrite Hn2. unfold down_netif. by destruct (netif_is_up (if_netif x)). }
  rewrite Hll. destruct (upd_at id n2 a0 _ s3 (fun a => a <| llipaddr := ll_of x |>) H3) as (s4 & -> & H4); [done|]. cbn [res_bind].
  unfold autoip_start_probing. rewrite (get_netif_at _ _ _ _ _ H4). cbn [res_bind].
  destruct (upd_at id n2 _ _ s4 (start_probing n2) H4) as (s5 & -> & H5).
  { unfold start_probing. by destruct (_ <? _). }
  cbn [res_bind]. rewrite Hn2 in H5. unfold start_probing in H5. simpl in H5.
  change (PROBE_WAIT * AUTOIP_TICKS_PER_SECOND) with 10 in H5.
  destruct (Z.ltb_spec MAX_CONFLICTS (tried_of x)) as [Ht|Ht].
  - exists s5, 600. split_and!; [done|exact H5|by left].
  - eexists s5, _. split_and!; [done|exact H5|right]. split; [|done].
    match goal with |- context [u16 (?z mod 10)] => pose proof (Z.mod_pos_bound z 10); rewrite u16_id by lia; lia end.
Qed.

(** C12. AutoIP claims an address. On an interface that is alone, and as long as
    no conflicting ARP message comes and no pbuf allocation fails,
    [autoip_start] takes the interface down, chooses an address between
    169.254.1.0 and 169.254.254.255, and after at most 112 ticks (703 when
    more than 10 addresses were tried) the interface is up with this address
    and the mask 255.255.0.0. Exactly three probes and two announcements were
    sent, in this order, and at no tick before was the interface up without
    all three probes sent. *)
Theorem autoip_claims (cb : tcp_callbacks A) id x s : quiet_err cb -> start_state id x s ->
  has_flag (nif_flags (if_netif x)) NETIF_FLAG_LINK_UP = true -> has_flag (nif_flags (if_netif x)) NETIF_FLAG_ETHARP = true ->
  exists addr s0 T s1 n, in_range addr /\ autoip_start id s = Ok (ERR_OK, s0) /\
    let ll := lwip_htonl addr in
    Z.of_nat T <= 703 /\ (tried_of x <= MAX_CONFLICTS -> Z.of_nat T <= 112) /\
    autoip_run cb T s0 = Ok s1 /\
    (forall t st, (t <= T)%nat -> autoip_run cb t s0 = Ok st -> safe id ll (wire (sk_arp s)) st) /\
    sk_ifaces s1 !! id = Some (mk_iface n (Some (mk_autoip ll AUTOIP_STATE_BOUND 0 0 0 (tried_of x)))) /\
    netif_is_up n = true /\ nif_ip_addr n = ll /\ nif_netmask n = load_le32 255 255 0 0 /\
    wire (sk_arp s1) = wire (sk_arp s) ++ repeat (id, probe n ll) 3 ++ repeat (id, announce n ll) 2.
Proof.
  intros Hq Hs Hlink Harp. destruct (start_run id x s Hs) as (s0 & w0 & Hstart & H0 & Hw0).
  destruct (claim_run cb Hq id (ll_of x) (wire (sk_arp s)) _ w0 (tried_of x) s0 H0 (down_netif_down _)) as (T & s1 & [Hrun Hsafe] & HT & H1);
    [lia|].
  set (n := down_netif (if_netif x)) in *.
  exists (fold_addr (u32 (seed_of (if_netif x) + tried_of x) mod 65536)), s0, T, s1, (bound_netif (ll_of x) n).
  split; [apply fold_addr_range, Z.mod_pos_bound; lia|]. split; [done|]. cbv zeta. fold (ll_of x).
  split_and!; [lia|intros Ht; lia|done|exact Hsafe|apply H1| |done|done|].
  - unfold netif_is_up, bound_netif, set_flag. simpl. rewrite has_flag_lor_l. by rewrite orb_true_r.
  - rewrite (at_wire _ _ _ _ _ H1). unfold greeting. rewrite !has_flag_lor_l.
    assert (Hn : forall f, Z.land (255 - NETIF_FLAG_UP) f = f -> has_flag (nif_flags n) f = has_flag (nif_flags (if_netif x)) f)
      by (intros f; apply down_netif_flag).
    rewrite !Hn, Hlink, Harp by done. simpl. done.
Qed.
End Start.

Definition demo_if : iface := mk_iface (mk_netif 0 0 0 1500 [2; 0; 0; 7; 200; 9] 0x32 (113, 117) 0) None.
Definition demo_autoip : stack unit := mk_stack {[0%nat := demo_if]} [0%nat] None 1 demo_arp world_init [].
Lemma demo_start : start_state 0 demo_if demo_autoip.
Proof. split; try done. exact world_init_ok. Qed.
(** The interface of the driver gets an address. *)
Lemma autoip_claims_witness : exists s0 T s1 n a, autoip_start 0 demo_autoip = Ok (ERR_OK, s0) /\ Z.of_nat T <= 112 /\
  autoip_run quiet_app T s0 = Ok s1 /\ sk_ifaces s1 !! 0%nat = Some (mk_iface n (Some a)) /\ au_state a = AUTOIP_STATE_BOUND /\
  length (wire (sk_arp s1)) = 5%nat.
Proof.
  destruct (autoip_claims quiet_app 0 demo_if demo_autoip quiet_app_err demo_start eq_refl eq_refl)
    as (addr & s0 & T & s1 & n & _ & H1 & _ & H2 & H3 & _ & H4 & _ & _ & _ & H5).
  exists s0, T, s1, n. eexists. split; [exact H1|]. split; [apply H2; vm_compute; discriminate|]. split; [exact H3|]. split; [exact H4|].
  split; [reflexivity|]. rewrite H5. reflexivity.
Defined.
