(* ===== verification/Timers.v ===== *)
(** * Timeouts (src/src/lwip/core/timers.c)

    The list of timeouts keeps the time of each entry relative to the entry
    before it. [timed] is the specification: the pending calls with absolute
    deadlines. [TimerOps] is what the timers need of the other components; the
    timer functions of timers.c are proved against it. *)
From S2P Require Import Prelude.

(** ** The list *)

(** The handlers that timers.c registers, and any other with its argument. *)
Inductive sys_timeout_handler :=
| tcpip_tcp_timer | ip_reass_timer | arp_timer | autoip_timer | dns_timer
| other_handler (h : nat) (arg : Z).
#[export] Instance handler_eq_dec : EqDecision sys_timeout_handler.
Proof. solve_decision. Defined.

Record sys_timeo := mk_timeo { to_time : Z; to_h : sys_timeout_handler }.
Definition MEMP_NUM_SYS_TIMEOUT : Z := 5.
Definition SYS_ARCH_TIMEOUT : Z := 0xffffffff.
Definition TCP_TMR_INTERVAL : Z := 250.
Definition IP_TMR_INTERVAL : Z := 1000.
Definition ARP_TMR_INTERVAL : Z := 5000.
Definition AUTOIP_TMR_INTERVAL : Z := 100.
Definition DNS_TMR_INTERVAL : Z := 1000.

(** The loop of [sys_timeout] behind an entry that is not later: [time] is what
    is left of the new entry's time. *)
Fixpoint timeout_after (time : Z) (h : sys_timeout_handler) (t : sys_timeo) (next : list sys_timeo) : list sys_timeo :=
  let time := u32 (time - to_time t) in
  match next with
  | [] => [t; mk_timeo time h]
  | n :: next' =>
      if time <? to_time n then t :: mk_timeo time h :: mk_timeo (u32 (to_time n - time)) (to_h n) :: next'
      else t :: timeout_after time h n next'
  end.
Definition insert_timeout (msecs : Z) (h : sys_timeout_handler) (l : list sys_timeo) : list sys_timeo :=
  match l with
  | [] => [mk_timeo msecs h]
  | t :: next =>
      if msecs <? to_time t then mk_timeo msecs h :: mk_timeo (u32 (to_time t - msecs)) (to_h t) :: next
      else timeout_after msecs h t next
  end.
(** [sys_timeout]; the pool of timeouts has [MEMP_NUM_SYS_TIMEOUT] elements. *)
Definition sys_timeout (msecs : Z) (h : sys_timeout_handler) (l : list sys_timeo) : res (list sys_timeo) :=
  assert! zlen l <? MEMP_NUM_SYS_TIMEOUT in
  Ok (insert_timeout msecs h l).

Fixpoint sys_untimeout (h : sys_timeout_handler) (l : list sys_timeo) : list sys_timeo :=
  match l with
  | [] => []
  | t :: next =>
      if bool_decide (to_h t = h) then
        match next with
        | [] => []
        | n :: next' => mk_timeo (u32 (to_time n + to_time t)) (to_h n) :: next'
        end
      else t :: sys_untimeout h next
  end.

(** ** sys_timeouts_mbox_fetch *)

(** How long it waits for a message: [None] is for ever, 0 is not at all. *)
Definition fetch_wait (l : list sys_timeo) : option Z :=
  match l with [] => None | t :: _ => Some (to_time t) end.
(** The next call, when the wait timed out. *)
Definition expire (l : list sys_timeo) : option (sys_timeout_handler * list sys_timeo) :=
  match l with [] => None | t :: next => Some (to_h t, next) end.
(** A message came after [time_needed] milliseconds. *)
Definition message (time_needed : Z) (l : list sys_timeo) : list sys_timeo :=
  match l with
  | [] => []
  | t :: next => mk_timeo (if time_needed <? to_time t then u32 (to_time t - time_needed) else 0) (to_h t) :: next
  end.

(** ** The timers of the stack *)

(** What the components offer to the timers, on the state [S] of the stack. *)
Class TimerOps (S : Type) := {
  op_tcp_tmr : S -> res S;
  op_tcp_needed : S -> bool;
  op_ip_reass_tmr : S -> res S;
  op_etharp_tmr : S -> res S;
  op_autoip_tmr : S -> res S;
  op_dns_tmr : S -> res S;
  op_other : nat -> Z -> S -> res S
}.

Record timers := mk_timers { next_timeout : list sys_timeo; tcpip_tcp_timer_active : bool }.
#[export] Instance timers_eta : Eta timers := {| eta t := mk_timers (next_timeout t) (tcpip_tcp_timer_active t) |}.
#[export] Instance set_next_timeout : Setter next_timeout := ltac:(setter).
#[export] Instance set_tcp_timer_active : Setter tcpip_tcp_timer_active := ltac:(setter).

Definition start_timeout (msecs : Z) (h : sys_timeout_handler) (t : timers) : res timers :=
  let! l := sys_timeout msecs h (next_timeout t) in Ok (t <| next_timeout := l |>).

Section Timers.
Context {S : Type} `{!TimerOps S}.
Implicit Types (s : S) (t : timers).

Definition tcp_timer_needed s t : res timers :=
  if negb (tcpip_tcp_timer_active t) && op_tcp_needed s then
    start_timeout TCP_TMR_INTERVAL tcpip_tcp_timer (t <| tcpip_tcp_timer_active := true |>)
  else Ok t.

(** The handlers: the component's timer, then the next timeout. *)
Definition run_tcp_timer s t : res (S * timers) :=
  let! s := op_tcp_tmr s in
  if op_tcp_needed s then let! t := start_timeout TCP_TMR_INTERVAL tcpip_tcp_timer t in Ok (s, t)
  else Ok (s, t <| tcpip_tcp_timer_active := false |>).
Definition cyclic (tmr : S -> res S) (interval : Z) (h : sys_timeout_handler) s t : res (S * timers) :=
  let! s := tmr s in
  let! t := start_timeout interval h t in Ok (s, t).
Definition call_handler (h : sys_timeout_handler) s t : res (S * timers) :=
  match h with
  | tcpip_tcp_timer => run_tcp_timer s t
  | ip_reass_timer => cyclic op_ip_reass_tmr IP_TMR_INTERVAL ip_reass_timer s t
  | arp_timer => cyclic op_etharp_tmr ARP_TMR_INTERVAL arp_timer s t
  | autoip_timer => cyclic op_autoip_tmr AUTOIP_TMR_INTERVAL autoip_timer s t
  | dns_timer => cyclic op_dns_tmr DNS_TMR_INTERVAL dns_timer s t
  | other_handler h arg => let! s := op_other h arg s in Ok (s, t)
  end.

Definition sys_timeouts_init t : res timers :=
  let! t := start_timeout IP_TMR_INTERVAL ip_reass_timer t in
  let! t := start_timeout ARP_TMR_INTERVAL arp_timer t in
  let! t := start_timeout AUTOIP_TMR_INTERVAL autoip_timer t in
  start_timeout DNS_TMR_INTERVAL dns_timer t.

(** What the application has done in the thread of the stack: TCPIP_MSG_TIMEOUT,
    TCPIP_MSG_UNTIMEOUT and its callbacks call sys_timeout and sys_untimeout for
    its own handlers; those of timers.c are static there. *)
Inductive timer_act := ActTimeout (msecs : Z) (h : nat) (arg : Z) | ActUntimeout (h : nat) (arg : Z).
Definition run_act (a : timer_act) t : res timers :=
  match a with
  | ActTimeout msecs h arg => start_timeout msecs (other_handler h arg) t
  | ActUntimeout h arg => Ok (t <| next_timeout := sys_untimeout (other_handler h arg) (next_timeout t) |>)
  end.
Fixpoint run_acts (l : list timer_act) t : res timers :=
  match l with [] => Ok t | a :: l => let! t := run_act a t in run_acts l t end.
Definition act_ok (a : timer_act) : Prop := match a with ActTimeout msecs _ _ => is_u32 msecs | _ => True end.

(** The thread of the stack: the time, how much of it was not accounted for as
    waiting, the stack, the timers. *)
Record fetch_state := mk_fetch { fe_now : Z; fe_busy : Z; fe_stack : S; fe_timers : timers }.
(** [sys_timeouts_mbox_fetch] of the thread of the stack, with the calls it makes.
    It waits for the time of the next timeout, and [late] longer; then it makes the
    call. Or a message comes after [elapsed], for which [time_needed] is reported;
    what is more than the next timeout's time is lost by [message]. Calls and
    messages take a time [dur], do something to the stack, and to the timeouts
    of the application; a message may make the stack need the TCP timer. *)
Inductive fetch_step : fetch_state -> list sys_timeout_handler -> fetch_state -> Prop :=
| fs_expire now busy s t h l s' t1 t' wait late dur acts : 0 <= late -> 0 <= dur ->
    fetch_wait (next_timeout t) = Some wait -> expire (next_timeout t) = Some (h, l) ->
    call_handler h s (t <| next_timeout := l |>) = Ok (s', t1) -> Forall act_ok acts -> run_acts acts t1 = Ok t' ->
    fetch_step (mk_fetch now busy s t) [h] (mk_fetch (now + wait + late + dur) (busy + late + dur) s' t')
| fs_message now busy s t time_needed elapsed dur acts s' t1 t' : 0 <= time_needed <= elapsed -> 0 <= dur ->
    match fetch_wait (next_timeout t) with Some wait => 0 < wait | None => True end ->
    Forall act_ok acts -> run_acts acts (t <| next_timeout := message time_needed (next_timeout t) |>) = Ok t1 ->
    tcp_timer_needed s' t1 = Ok t' ->
    fetch_step (mk_fetch now busy s t) [] (mk_fetch (now + elapsed + dur)
      (busy + elapsed - match fetch_wait (next_timeout t) with Some wait => Z.min time_needed wait | None => time_needed end + dur) s' t').
End Timers.
Arguments mk_fetch {S}. Arguments fe_now {S}. Arguments fe_busy {S}. Arguments fe_stack {S}. Arguments fe_timers {S}.
