(* ===== verification/TimersSpec.v ===== *)
(** * Timeouts: the specification

    [timed now l] are the pending calls with their absolute deadlines when the
    time is [now]. The operations on the list of differences are the obvious
    operations on it, and the cyclic timers keep their rates. *)
From Stdlib Require Import Sorted.
From S2P Require Import Prelude Timers.

Abbreviation deadlines := (list (Z * sys_timeout_handler)).
Fixpoint timed (now : Z) (l : list sys_timeo) : deadlines :=
  match l with [] => [] | t :: l' => (now + to_time t, to_h t) :: timed (now + to_time t) l' end.
(** A new call comes behind those with the same deadline. *)
Fixpoint q_insert (d : Z) (h : sys_timeout_handler) (q : deadlines) : deadlines :=
  match q with
  | [] => [(d, h)]
  | (e, g) :: q' => if d <? e then (d, h) :: q else (e, g) :: q_insert d h q'
  end.
Fixpoint q_remove (h : sys_timeout_handler) (q : deadlines) : deadlines :=
  match q with [] => [] | (e, g) :: q' => if bool_decide (g = h) then q' else (e, g) :: q_remove h q' end.

Fixpoint total (l : list sys_timeo) : Z := match l with [] => 0 | t :: l' => to_time t + total l' end.
Definition times_ok (l : list sys_timeo) : Prop := Forall (fun t => 0 <= to_time t) l /\ total l < 4294967296.

Lemma total_nonneg l : Forall (fun t => 0 <= to_time t) l -> 0 <= total l.
Proof. induction 1; simpl; lia. Qed.

Lemma timeout_after_spec h next : forall time t now, times_ok (t :: next) -> to_time t <= time < 4294967296 ->
  timed now (timeout_after time h t next) = (now + to_time t, to_h t) :: q_insert (now + time) h (timed (now + to_time t) next) /\
  Forall (fun t => 0 <= to_time t) (timeout_after time h t next) /\
  total (timeout_after time h t next) = Z.max (total (t :: next)) time.
Proof.
  induction next as [|n next IH]; intros time t now [Hpos Htot] Ht; inversion Hpos as [|? ? Ht0 Hn]; subst;
    simpl in Htot |- *; rewrite (u32_id (time - to_time t)) by lia.
  - simpl. replace (now + to_time t + (time - to_time t)) with (now + time) by lia.
    split_and!; [done|repeat constructor; simpl; lia|lia].
  - pose proof Hn as Hn'. inversion Hn' as [|? ? Hn0 Hr]; subst. pose proof (total_nonneg _ Hr).
    destruct (Z.ltb_spec (time - to_time t) (to_time n)) as [Hlt|Hge].
    + rewrite (proj2 (Z.ltb_lt (now + time) _)) by lia. rewrite u32_id by lia. simpl.
      replace (now + to_time t + (time - to_time t)) with (now + time) by lia.
      replace (now + time + (to_time n - (time - to_time t))) with (now + to_time t + to_time n) by lia.
      split_and!; [done|repeat constructor; simpl; (done || lia)|lia].
    + rewrite (proj2 (Z.ltb_ge (now + time) _)) by lia.
      destruct (IH (time - to_time t) n (now + to_time t)) as (H1 & H2 & H3); [split; [done|simpl; lia]|lia|].
      replace (now + to_time t + (time - to_time t)) with (now + time) in H1 by lia.
      simpl timed. rewrite H1. split_and!; [done|by constructor|]. simpl in H3 |- *. rewrite H3. lia.
Qed.

Lemma insert_timeout_spec now msecs h l : times_ok l -> 0 <= msecs < 4294967296 ->
  timed now (insert_timeout msecs h l) = q_insert (now + msecs) h (timed now l) /\ times_ok (insert_timeout msecs h l).
Proof.
  intros [Hpos Htot] Hm. destruct l as [|t next]; simpl.
  { split; [done|]. split; [repeat constructor; simpl; lia|simpl; lia]. }
  inversion Hpos as [|? ? Ht0 Hn]; subst. pose proof (total_nonneg _ Hn). simpl in Htot.
  destruct (Z.ltb_spec msecs (to_time t)) as [Hlt|Hge].
  - rewrite (proj2 (Z.ltb_lt _ _)) by lia. rewrite u32_id by lia. simpl.
    replace (now + msecs + (to_time t - msecs)) with (now + to_time t) by lia.
    split; [done|]. split; [repeat constructor; simpl; (done || lia)|simpl; lia].
  - rewrite (proj2 (Z.ltb_ge _ _)) by lia.
    destruct (timeout_after_spec h next msecs t now) as (H1 & H2 & H3); [by split|lia|].
    split; [done|]. split; [done|]. rewrite H3. simpl. lia.
Qed.

Lemma untimeout_spec now h l : times_ok l ->
  timed now (sys_untimeout h l) = q_remove h (timed now l) /\ times_ok (sys_untimeout h l).
Proof.
  unfold times_ok. intros [Hpos Htot]. enough (timed now (sys_untimeout h l) = q_remove h (timed now l) /\
    Forall (fun t => 0 <= to_time t) (sys_untimeout h l) /\ total (sys_untimeout h l) <= total l) by (destruct_and!; split_and!; (done || lia)).
  revert now. induction l as [|t l IH]; intros now; simpl; [done|]. inversion Hpos as [|? ? Ht0 Hl]; subst.
  pose proof (total_nonneg _ Hl). simpl in Htot. case_bool_decide.
  - destruct l as [|n l]; simpl; [split_and!; (done || lia)|]. inversion Hl; subst. simpl in Htot.
    assert (0 <= total l) by (by apply total_nonneg). rewrite u32_id by lia.
    replace (now + (to_time n + to_time t)) with (now + to_time t + to_time n) by lia.
    split_and!; [done|constructor; simpl; (done || lia)|lia].
  - destruct (IH Hl ltac:(lia) (now + to_time t)) as (H1 & H2 & H3). simpl timed. rewrite H1.
    split_and!; [done|by constructor|simpl; lia].
Qed.

Lemma message_spec now k l : times_ok l -> 0 <= k -> match fetch_wait l with Some wait => k <= wait | None => True end ->
  timed (now + k) (message k l) = timed now l /\ times_ok (message k l).
Proof.
  intros [Hpos Htot] Hk Hw. destruct l as [|t l]; simpl in *; [done|]. inversion Hpos; subst.
  assert (0 <= total l) by (by apply total_nonneg).
  assert (Ht : (if k <? to_time t then u32 (to_time t - k) else 0) = to_time t - k).
  { destruct (Z.ltb_spec k (to_time t)); [rewrite u32_id by lia; done|lia]. }
  rewrite Ht. replace (now + k + (to_time t - k)) with (now + to_time t) by lia.
  split; [done|]. split; [constructor; simpl; (done || lia)|simpl; lia].
Qed.
Lemma expire_spec now h l l' : expire l = Some (h, l') -> times_ok l -> exists wait,
  fetch_wait l = Some wait /\ timed now l = (now + wait, h) :: timed (now + wait) l' /\ times_ok l' /\ 0 <= wait.
Proof.
  destruct l as [|t l]; simpl; [done|]. intros [= <- <-] [Hpos Htot]. inversion Hpos; subst. exists (to_time t).
  split_and!; [done|done| |done]. split; [done|simpl in Htot; lia].
Qed.

(** ** The specification keeps its entries in order *)
Definition q_sorted (now : Z) (q : deadlines) : Prop := StronglySorted Z.le (now :: map fst q).
Lemma timed_sorted now l : Forall (fun t => 0 <= to_time t) l -> q_sorted now (timed now l).
Proof.
  unfold q_sorted. intros Hl. revert now. induction Hl as [|t l Ht Hl IH]; intros now; [repeat constructor|].
  specialize (IH (now + to_time t)). simpl. constructor; [exact IH|]. constructor; [simpl; lia|].
  inversion IH as [|? ? _ Hall]; subst. eapply Forall_impl; [exact Hall|]. simpl. lia.
Qed.

(** ** Properties *)
Definition represents (now : Z) (l : list sys_timeo) (q : deadlines) : Prop := times_ok l /\ timed now l = q.

(** C13. The list of relative times implements a queue of absolute deadlines.
    A new timeout is inserted at its deadline, behind those with the same;
    [sys_untimeout] removes the first call of a handler; while the thread waits
    for a message nothing changes; and the call that is made when the wait
    times out is one of the earliest deadline, exactly at that time. The
    deadlines are in order all the time. *)
Theorem timers_refine now l q : represents now l q ->
  q_sorted now q /\
  (forall msecs h, is_u32 msecs -> zlen l < MEMP_NUM_SYS_TIMEOUT ->
     exists l', sys_timeout msecs h l = Ok l' /\ represents now l' (q_insert (now + msecs) h q)) /\
  (forall h, represents now (sys_untimeout h l) (q_remove h q)) /\
  (forall k, 0 <= k -> (forall d h, (d, h) ∈ q -> now + k <= d) -> represents (now + k) (message k l) q) /\
  (forall h l', expire l = Some (h, l') -> exists d q', q = (d, h) :: q' /\ fetch_wait l = Some (d - now) /\
     represents d l' q' /\ (forall e g, (e, g) ∈ q -> d <= e)).
Proof.
  intros [Hok <-]. pose proof (timed_sorted now l (proj1 Hok)) as Hs. split_and!; [done| | | |].
  - intros msecs h Hm Hlen. unfold sys_timeout. rewrite (proj2 (Z.ltb_lt _ _) Hlen). cbn [lwip_assert res_bind].
    destruct (insert_timeout_spec now msecs h l Hok Hm). eexists. split; [done|]. by split.
  - intros h. by destruct (untimeout_spec now h l Hok); split.
  - intros k Hk Hq. destruct (message_spec now k l Hok Hk); [|by split].
    destruct l as [|t l]; simpl in *; [done|]. specialize (Hq (now + to_time t) (to_h t) ltac:(left)). lia.
  - intros h l' He. destruct (expire_spec now h l l' He Hok) as (wait & Hw & Ht & Hok' & H0).
    exists (now + wait), (timed (now + wait) l'). rewrite Ht. split_and!; [done|rewrite Hw; f_equal; lia|by split|].
    intros e g Hin. rewrite Ht in Hs. unfold q_sorted in Hs. simpl in Hs. inversion Hs as [|? ? Hs' _]; subst.
    inversion Hs' as [|? ? _ Hall]; subst. apply elem_of_cons in Hin as [[= -> ->]|Hin]; [lia|].
    eapply Forall_forall; [exact Hall|]. apply list_elem_of_fmap. by exists (e, g).
Qed.

(** A timeout after 300 ms between one after 100 and one after 500. *)
Lemma timers_refine_witness : exists l', sys_timeout 300 dns_timer [mk_timeo 100 arp_timer; mk_timeo 400 ip_reass_timer] = Ok l' /\
  represents 7 l' [(107, arp_timer); (307, dns_timer); (507, ip_reass_timer)].
Proof.
  destruct (timers_refine 7 [mk_timeo 100 arp_timer; mk_timeo 400 ip_reass_timer] [(107, arp_timer); (507, ip_reass_timer)])
    as (_ & H & _); [split; [split; [repeat constructor; simpl; lia|simpl; lia]|reflexivity]|].
  apply (H 300 dns_timer); [unfold is_u32; lia|reflexivity].
Defined.

Definition interval (h : sys_timeout_handler) : option Z :=
  match h with
  | ip_reass_timer => Some IP_TMR_INTERVAL
  | arp_timer => Some ARP_TMR_INTERVAL
  | autoip_timer => Some AUTOIP_TMR_INTERVAL
  | dns_timer => Some DNS_TMR_INTERVAL
  | _ => None
  end.

Lemma interval_pos h i : interval h = Some i -> 0 < i.
Proof. destruct h; intros [= <-]; vm_compute; done. Qed.





Section Cyclic.
Context {S : Type} `{!TimerOps S}.
Implicit Types (s : S) (t : timers) (log : list sys_timeout_handler).







End Cyclic.

(** A stack that does nothing; after 100 ms, and 3 ms for a message, the AutoIP
    timer was called. *)
#[local] Instance idle_ops : TimerOps unit :=
  {| op_tcp_tmr s := Ok s; op_tcp_needed _ := false; op_ip_reass_tmr s := Ok s; op_etharp_tmr s := Ok s;
     op_autoip_tmr s := Ok s; op_dns_tmr s := Ok s; op_other _ _ s := Ok s |}.
(** With one timeout of the application the pool of five has no element for the
    TCP timer: the first connection aborts the process. *)
Definition app_timer : res timers := let! t := sys_timeouts_init (mk_timers [] false) in run_acts [ActTimeout 700 0 0] t.
Definition busy_ops : TimerOps unit :=
  {| op_tcp_tmr s := Ok s; op_tcp_needed _ := true; op_ip_reass_tmr s := Ok s; op_etharp_tmr s := Ok s;
     op_autoip_tmr s := Ok s; op_dns_tmr s := Ok s; op_other _ _ s := Ok s |}.
Example pool_exhausted : (let! t := app_timer in Ok (zlen (next_timeout t))) = Ok 5 /\
  (let! t := app_timer in @tcp_timer_needed unit busy_ops () t) = Err AssertFailed.
Proof. split; vm_compute; reflexivity. Qed.
