(* ===== verification/SysArch.v ===== *)
(** * Semaphores and mailboxes (src/src/lwip/sys_arch.c)

    A thread is where it is in a call ([mbox_pc]); it runs up to and including
    its next operation on a semaphore. That is fine enough: between two such
    operations a thread only touches the mailbox while it holds the mutex. The
    pthread primitives make waiting for a semaphore one atomic step.

    [first] and [last] are ints that count all messages. When the test for a full
    mailbox would overflow one of them the behaviour is not defined by C: the
    thread is at [Overflow], holds the mutex, and does not go on. *)
From S2P Require Import Prelude.

(** ** Semaphores *)

(** [sys_arch_sem_wait]: blocked, or the new count. The loop around the
    condition variable tests [c <= 0]. *)
Definition sys_arch_sem_wait (c : Z) : option Z := if c <=? 0 then None else Some (c - 1).
(** [sys_sem_signal]; the count never exceeds 1. *)
Definition sys_sem_signal (c : Z) : Z := let c := c + 1 in if 1 <? c then 1 else c.

(** The clock arithmetic of [cond_wait]: the deadline, and the milliseconds
    between two times, of seconds and nanoseconds. *)
Definition wait_deadline (sec nsec timeout : Z) : Z * Z :=
  let sec := sec + timeout / 1000 in
  let nsec := nsec + timeout mod 1000 * 1000000 in
  if 1000000000 <=? nsec then (sec + 1, nsec - 1000000000) else (sec, nsec).
Definition waited_msecs (sec1 nsec1 sec2 nsec2 : Z) : Z :=
  let sec := sec2 - sec1 in
  let nsec := nsec2 - nsec1 in
  let '(sec, nsec) := if nsec <? 0 then (sec - 1, nsec + 1000000000) else (sec, nsec) in
  u32 (sec * 1000 + nsec ÷ 1000000).

(** The clocks, of the monotonic time in seconds and nanoseconds. *)
Definition sys_now (sec nsec : Z) : Z := u32 (sec * 1000 + nsec ÷ 1000000).
Definition sys_jiffies (sec nsec : Z) : Z := u32 (sec * 1000000000 + nsec).

(** ** Mailboxes *)
Definition SYS_MBOX_SIZE : Z := 128.
Record sys_mbox := mk_mbox {
  first : Z;
  last : Z;
  msgs : list Z;
  not_empty : Z;
  not_full : Z;
  mutex : Z;
  wait_send : Z
}.
#[export] Instance mbox_eta : Eta sys_mbox :=
  {| eta b := mk_mbox (first b) (last b) (msgs b) (not_empty b) (not_full b) (mutex b) (wait_send b) |}.
#[export] Instance set_first : Setter first := ltac:(setter).
#[export] Instance set_last : Setter last := ltac:(setter).
#[export] Instance set_msgs : Setter msgs := ltac:(setter).
#[export] Instance set_not_empty : Setter not_empty := ltac:(setter).
#[export] Instance set_not_full : Setter not_full := ltac:(setter).
#[export] Instance set_mutex : Setter mutex := ltac:(setter).
#[export] Instance set_wait_send : Setter wait_send := ltac:(setter).

(** [sys_mbox_new]; [junk] is what the array holds. *)
Definition sys_mbox_new (junk : list Z) : sys_mbox := mk_mbox 0 0 junk 0 0 1 0.

Definition slot_of (i : Z) : nat := Z.to_nat (Z.rem i SYS_MBOX_SIZE).
Definition INT_MAX : Z := 2147483647.
(** The sums of the test for a full mailbox, and so [last++], fit an int. *)
Definition mbox_int_ok (b : sys_mbox) : bool := (last b + 1 <=? INT_MAX) && (first b + SYS_MBOX_SIZE <=? INT_MAX).
Definition mbox_full (b : sys_mbox) : bool := first b + SYS_MBOX_SIZE <=? last b + 1.
(** Storing a message, with the signal to the readers when it is the first. *)
Definition put_msg (m : Z) (b : sys_mbox) : sys_mbox :=
  let was_empty := last b =? first b in
  let b := b <| msgs := <[slot_of (last b) := m]> (msgs b) |> <| last := last b + 1 |> in
  if was_empty then b <| not_empty := sys_sem_signal (not_empty b) |> else b.
(** Taking the oldest message, with the signal to a waiting writer. *)
Definition take_msg (b : sys_mbox) : Z * sys_mbox :=
  let m := nth (slot_of (first b)) (msgs b) 0 in
  let b := b <| first := first b + 1 |> in
  (m, if wait_send b =? 0 then b else b <| not_full := sys_sem_signal (not_full b) |>).

(** The calls, and what they return. *)
Inductive mbox_call :=
| sys_mbox_post (m : Z)
| sys_mbox_trypost (m : Z)
| sys_arch_mbox_fetch (timeout : Z)
| sys_arch_mbox_tryfetch.
Inductive mbox_ret :=
| RetNothing
| RetErr (e : err_t)
| RetMsg (time_needed m : Z)
| RetTimeout
| RetEmpty.

(** Where a thread is. [Lock] waits for the mutex, [In] holds it; a writer of
    [sys_mbox_post] may wait for room, a reader for a message; [Unlock] is
    about to give the mutex back and return; [Overflow] is the end. *)
Inductive mbox_pc :=
| Returned (r : mbox_ret)
| PostLock (m : Z)
| PostIn (m : Z)
| PostWait (m : Z)
| PostRelock (m : Z)
| TryPostLock (m : Z)
| TryPostIn (m : Z)
| FetchLock (timeout time_needed : Z)
| FetchIn (timeout time_needed : Z)
| FetchWait (timeout : Z)
| TryFetchLock
| TryFetchIn
| Unlock (r : mbox_ret)
| Overflow.

Definition begin_call (c : mbox_call) : mbox_pc :=
  match c with
  | sys_mbox_post m => PostLock m
  | sys_mbox_trypost m => TryPostLock m
  | sys_arch_mbox_fetch timeout => FetchLock timeout 0
  | sys_arch_mbox_tryfetch => TryFetchLock
  end.

(** How a wait for a message ends: it is signalled after some time, or times
    out. *)
Inductive wakeup := Signalled (elapsed : Z) | TimedOut.

Definition acquire (pc : mbox_pc) (b : sys_mbox) : option (mbox_pc * sys_mbox) :=
  match sys_arch_sem_wait (mutex b) with Some c => Some (pc, b <| mutex := c |>) | None => None end.
Definition release (pc : mbox_pc) (b : sys_mbox) : option (mbox_pc * sys_mbox) :=
  Some (pc, b <| mutex := sys_sem_signal (mutex b) |>).

(** One step of a thread; [None]: it is blocked, or not in a call. *)
Definition thread_step (w : wakeup) (pc : mbox_pc) (b : sys_mbox) : option (mbox_pc * sys_mbox) :=
  match pc with
  | Returned _ | Overflow => None
  | PostLock m => acquire (PostIn m) b
  | PostIn m =>
      if negb (mbox_int_ok b) then Some (Overflow, b)
      else if mbox_full b then release (PostWait m) (b <| wait_send := wait_send b + 1 |>)
      else Some (Unlock RetNothing, put_msg m b)
  | PostWait m =>
      match sys_arch_sem_wait (not_full b) with Some c => Some (PostRelock m, b <| not_full := c |>) | None => None end
  | PostRelock m => acquire (PostIn m) (b <| wait_send := wait_send b - 1 |>)
  | TryPostLock m => acquire (TryPostIn m) b
  | TryPostIn m =>
      if negb (mbox_int_ok b) then Some (Overflow, b)
      else if mbox_full b then release (Returned (RetErr ERR_MEM)) b else Some (Unlock (RetErr ERR_OK), put_msg m b)
  | FetchLock timeout t => acquire (FetchIn timeout t) b
  | FetchIn timeout t =>
      if first b =? last b then release (FetchWait timeout) b
      else let '(m, b) := take_msg b in Some (Unlock (RetMsg t m), b)
  | FetchWait timeout =>
      match w with
      | TimedOut => if timeout =? 0 then None else Some (Returned RetTimeout, b)
      | Signalled elapsed =>
          match sys_arch_sem_wait (not_empty b) with
          | Some c => Some (FetchLock timeout (if timeout =? 0 then 0 else elapsed), b <| not_empty := c |>)
          | None => None
          end
      end
  | TryFetchLock => acquire TryFetchIn b
  | TryFetchIn =>
      if first b =? last b then release (Returned RetEmpty) b
      else let '(m, b) := take_msg b in Some (Unlock (RetMsg 0 m), b)
  | Unlock r => release (Returned r) b
  end.

(** ** Threads together *)

(** [posted] and [fetched] record the messages in the order in which they went
    into and out of the mailbox. *)
Record mbox_sys := mk_sys { box : sys_mbox; threads : list mbox_pc; posted : list Z; fetched : list Z }.

(** What a step records: a message is stored when its writer gets to [Unlock],
    and taken when its reader does. *)
Definition stored (pc pc' : mbox_pc) : list Z :=
  match pc, pc' with PostIn m, Unlock _ | TryPostIn m, Unlock _ => [m] | _, _ => [] end.
Definition taken (pc pc' : mbox_pc) : list Z :=
  match pc, pc' with FetchIn _ _, Unlock (RetMsg _ m) | TryFetchIn, Unlock (RetMsg _ m) => [m] | _, _ => [] end.

Inductive mbox_step : mbox_sys -> mbox_sys -> Prop :=
| ms_call i r c s : threads s !! i = Some (Returned r) ->
    mbox_step s (mk_sys (box s) (<[i := begin_call c]> (threads s)) (posted s) (fetched s))
| ms_run i w pc pc' b' s : threads s !! i = Some pc -> thread_step w pc (box s) = Some (pc', b') ->
    mbox_step s (mk_sys b' (<[i := pc']> (threads s)) (posted s ++ stored pc pc') (fetched s ++ taken pc pc')).
Definition mbox_init (junk : list Z) (n : nat) : mbox_sys := mk_sys (sys_mbox_new junk) (replicate n (Returned RetNothing)) [] [].

(** ** The protection of sys_arch_protect: a lock its owner may take again *)
Record lwprot := mk_lwprot { lwprot_thread : option nat; lwprot_count : Z; lwprot_mutex : option nat }.
(** Blocked, or the lock with one more level for thread [self]. *)
Definition sys_arch_protect (self : nat) (p : lwprot) : option lwprot :=
  if bool_decide (lwprot_thread p = Some self) then Some (mk_lwprot (lwprot_thread p) (lwprot_count p + 1) (lwprot_mutex p))
  else match lwprot_mutex p with Some _ => None | None => Some (mk_lwprot (Some self) 1 (Some self)) end.
Definition sys_arch_unprotect (self : nat) (p : lwprot) : lwprot :=
  if bool_decide (lwprot_thread p = Some self) then
    let count := lwprot_count p - 1 in
    if count =? 0 then mk_lwprot None count None else mk_lwprot (lwprot_thread p) count (lwprot_mutex p)
  else p.
