(* ===== verification/SysArchSpec.v ===== *)
(** * Mailboxes: order, mutual exclusion, no lost wakeup

    The invariant counts threads by where they are: sums over the threads of
    functions that are 1 at some places and 0 elsewhere. *)
From S2P Require Import Prelude SysArch.

(** ** Counting threads *)
Definition holds (pc : mbox_pc) : Z :=
  match pc with PostIn _ | TryPostIn _ | FetchIn _ _ | TryFetchIn | Unlock _ | Overflow => 1 | _ => 0 end.
Definition at_wait (pc : mbox_pc) : Z := match pc with PostWait _ => 1 | _ => 0 end.
Definition at_relock (pc : mbox_pc) : Z := match pc with PostRelock _ => 1 | _ => 0 end.
Definition at_in (pc : mbox_pc) : Z := match pc with PostIn _ | Overflow => 1 | _ => 0 end.
Definition at_fetch_wait (pc : mbox_pc) : Z := match pc with FetchWait _ => 1 | _ => 0 end.
Definition at_overflow (pc : mbox_pc) : Z := match pc with Overflow => 1 | _ => 0 end.
(** Threads in a call that reads, until they have the message. *)
Definition reader (pc : mbox_pc) : Z :=
  match pc with FetchLock _ _ | FetchIn _ _ | FetchWait _ | TryFetchLock | TryFetchIn => 1 | _ => 0 end.

Definition count (f : mbox_pc -> Z) (l : list mbox_pc) : Z := foldr (fun pc n => f pc + n) 0 l.
Lemma count_update f l i pc pc' : l !! i = Some pc -> count f (<[i := pc']> l) = count f l - f pc + f pc'.
Proof.
  revert i. induction l as [|x l IH]; intros [|i]; simpl; try done.
  - intros [= ->]. lia.
  - intros H. rewrite (IH i H). lia.
Qed.
Lemma count_nonneg f l : (forall pc, 0 <= f pc) -> 0 <= count f l.
Proof. intros Hf. induction l as [|x l IH]; simpl; [lia|]. specialize (Hf x). lia. Qed.
Lemma count_ge f l i pc : (forall pc, 0 <= f pc) -> l !! i = Some pc -> f pc <= count f l.
Proof.
  intros Hf. revert i. induction l as [|x l IH]; intros [|i]; simpl; try done; pose proof (count_nonneg f l Hf).
  - intros [= ->]. lia.
  - intros H'. specialize (IH i H'). specialize (Hf x). lia.
Qed.
Lemma count_pos f l : 0 < count f l -> exists i pc, l !! i = Some pc /\ f pc <> 0.
Proof.
  induction l as [|x l IH]; simpl; [lia|]. intros H. destruct (decide (f x = 0)) as [Hx|Hx]; [|by exists O, x].
  destruct IH as (i & pc & Hi & Hp); [lia|]. by exists (S i), pc.
Qed.
Lemma places_nonneg pc : 0 <= holds pc /\ 0 <= at_wait pc /\ 0 <= at_relock pc /\ 0 <= at_in pc /\ 0 <= at_fetch_wait pc /\ 0 <= reader pc /\ 0 <= at_overflow pc.
Proof. destruct pc; simpl; lia. Qed.

(** ** The invariant *)
Record mbox_ok (s : mbox_sys) : Prop := {
  mo_size : zlen (msgs (box s)) = SYS_MBOX_SIZE;
  mo_range : 0 <= first (box s) <= last (box s) /\ last (box s) - first (box s) < SYS_MBOX_SIZE;
  mo_posted : zlen (posted s) = last (box s);
  mo_fetched : fetched s = take (Z.to_nat (first (box s))) (posted s);
  mo_ring : forall k, first (box s) <= Z.of_nat k < last (box s) -> msgs (box s) !! slot_of (Z.of_nat k) = posted s !! k;
  mo_mutex : 0 <= mutex (box s) /\ mutex (box s) + count holds (threads s) = 1;
  mo_wait : wait_send (box s) = count at_wait (threads s) + count at_relock (threads s);
  mo_sems : 0 <= not_empty (box s) <= 1 /\ 0 <= not_full (box s) <= 1;
  mo_int : last (box s) <= INT_MAX;
  mo_overflow : 0 < count at_overflow (threads s) -> INT_MAX - SYS_MBOX_SIZE < last (box s)
}.
Definition single_reader (s : mbox_sys) : Prop := count reader (threads s) <= 1.

Lemma slot_of_mod i : 0 <= i -> slot_of i = Z.to_nat (i mod SYS_MBOX_SIZE).
Proof. intros Hi. unfold slot_of. by rewrite Z.rem_mod_nonneg by (unfold SYS_MBOX_SIZE; lia). Qed.
Lemma slot_bound i : 0 <= i -> (slot_of i < 128)%nat.
Proof. intros Hi. rewrite slot_of_mod by done. unfold SYS_MBOX_SIZE. pose proof (Z.mod_pos_bound i 128). lia. Qed.
Lemma slot_ne i j : 0 <= i -> i < j < i + SYS_MBOX_SIZE -> slot_of i <> slot_of j.
Proof.
  intros Hi Hj He. rewrite !slot_of_mod in He by lia. unfold SYS_MBOX_SIZE in *.
  apply Z2Nat.inj in He; [|apply Z.mod_pos_bound; lia..]. revert He. Z.div_mod_to_equations. lia.
Qed.

Lemma sem_wait_some c c' : sys_arch_sem_wait c = Some c' -> 0 < c /\ c' = c - 1.
Proof. unfold sys_arch_sem_wait. destruct (Z.leb_spec c 0); [done|]. by intros [= <-]. Qed.
Lemma sem_signal_bin c : 0 <= c -> sys_sem_signal c = 1.
Proof. unfold sys_sem_signal. destruct (Z.ltb_spec 1 (c + 1)); lia. Qed.

(** A step that moves no message. *)
Lemma quiet_ok s i pc pc' b' : mbox_ok s -> threads s !! i = Some pc -> stored pc pc' = [] -> taken pc pc' = [] ->
  first b' = first (box s) -> last b' = last (box s) -> msgs b' = msgs (box s) ->
  0 <= mutex b' -> mutex b' + holds pc' = mutex (box s) + holds pc ->
  wait_send b' + at_wait pc + at_relock pc = wait_send (box s) + at_wait pc' + at_relock pc' ->
  0 <= not_empty b' <= 1 -> 0 <= not_full b' <= 1 ->
  (0 < at_overflow pc' -> INT_MAX - SYS_MBOX_SIZE < last b') ->
  mbox_ok (mk_sys b' (<[i := pc']> (threads s)) (posted s ++ stored pc pc') (fetched s ++ taken pc pc')).
Proof.
  intros [M1 M2 M3 M4 M5 M6 M7 M8 M9 M10] Hi -> -> F L D Hm Hmu Hw He Hf Ho.
  pose proof (places_nonneg pc). pose proof (places_nonneg pc'). rewrite !app_nil_r.
  split; simpl; rewrite ?F, ?L, ?D; try done; rewrite ?(count_update _ _ _ _ _ Hi); lia.
Qed.
Lemma put_msg_ok s i pc m b' r : mbox_ok s -> threads s !! i = Some pc -> (pc = PostIn m \/ pc = TryPostIn m) ->
  mbox_int_ok (box s) = true -> mbox_full (box s) = false -> b' = put_msg m (box s) ->
  mbox_ok (mk_sys b' (<[i := Unlock r]> (threads s)) (posted s ++ stored pc (Unlock r)) (fetched s ++ taken pc (Unlock r))).
Proof.
  intros [M1 M2 M3 M4 M5 M6 M7 M8 M9 M10] Hi Hpc Hint Hfull ->. unfold mbox_int_ok in Hint. apply andb_true_iff in Hint as [Hint _]. apply Z.leb_le in Hint. unfold mbox_full in Hfull. apply Z.leb_gt in Hfull.
  assert (Hb : let b := put_msg m (box s) in first b = first (box s) /\ last b = last (box s) + 1 /\
    msgs b = <[slot_of (last (box s)) := m]> (msgs (box s)) /\ mutex b = mutex (box s) /\ wait_send b = wait_send (box s) /\
    not_full b = not_full (box s) /\ 0 <= not_empty b <= 1).
  { unfold put_msg. destruct (_ =? _); simpl; split_and!; try done; try lia; rewrite sem_signal_bin; lia. }
  destruct Hb as (B1 & B2 & B3 & B4 & B5 & B6 & B7).
  assert (Hst : stored pc (Unlock r) = [m] /\ taken pc (Unlock r) = [] /\ holds pc = 1 /\ at_wait pc = 0 /\ at_relock pc = 0 /\ at_overflow pc = 0)
    by (destruct Hpc as [->| ->]; done).
  destruct Hst as (-> & -> & S1 & S2 & S3 & S4). rewrite app_nil_r. unfold zlen in *.
  split; simpl; rewrite ?B1, ?B2, ?B3, ?B4, ?B5, ?B6; rewrite ?(count_update _ _ _ _ _ Hi); simpl; try lia.
  - unfold zlen. by rewrite length_insert.
  - unfold zlen. rewrite length_app. simpl. lia.
  - rewrite M4, take_app_le by lia. done.
  - intros k Hk. destruct (decide (Z.of_nat k = last (box s))) as [He|Hne].
    + rewrite He, list_lookup_insert_eq by (rewrite <- (Nat2Z.id (length _)), M1; pose proof (slot_bound (last (box s))); unfold SYS_MBOX_SIZE; lia).
      rewrite lookup_app_r by lia. by replace (k - length (posted s))%nat with O by lia.
    + rewrite list_lookup_insert_ne by (intros Hs; symmetry in Hs; revert Hs; apply slot_ne; lia).
      rewrite M5 by lia. by rewrite lookup_app_l by lia.
Qed.
Lemma take_msg_spec b : let b' := (take_msg b).2 in first b' = first b + 1 /\ last b' = last b /\ msgs b' = msgs b /\ mutex b' = mutex b /\
  wait_send b' = wait_send b /\ not_empty b' = not_empty b /\
  not_full b' = if wait_send b =? 0 then not_full b else sys_sem_signal (not_full b).
Proof. unfold take_msg. destruct (_ =? _); done. Qed.
Lemma take_msg_ok s i pc t m : mbox_ok s -> threads s !! i = Some pc ->
  ((exists timeout, pc = FetchIn timeout t) \/ pc = TryFetchIn) -> first (box s) <> last (box s) -> m = (take_msg (box s)).1 ->
  mbox_ok (mk_sys (take_msg (box s)).2 (<[i := Unlock (RetMsg t m)]> (threads s)) (posted s ++ stored pc (Unlock (RetMsg t m)))
             (fetched s ++ taken pc (Unlock (RetMsg t m)))).
Proof.
  intros [M1 M2 M3 M4 M5 M6 M7 M8 M9 M10] Hi Hpc Hne Hm.
  destruct (take_msg_spec (box s)) as (B1 & B2 & B3 & B4 & B5 & B6 & B7).
  assert (Hst : stored pc (Unlock (RetMsg t m)) = [] /\ taken pc (Unlock (RetMsg t m)) = [m] /\ holds pc = 1 /\ at_wait pc = 0 /\ at_relock pc = 0 /\ at_overflow pc = 0)
    by (destruct Hpc as [[? ->]| ->]; done).
  destruct Hst as (-> & -> & S1 & S2 & S3 & S4). rewrite app_nil_r.
  assert (Hk : posted s !! Z.to_nat (first (box s)) = Some m).
  { rewrite <- M5 by lia. rewrite Z2Nat.id by lia. rewrite Hm. unfold take_msg. cbn [fst].
    destruct (lookup_lt_is_Some_2 (msgs (box s)) (slot_of (first (box s)))) as [x Hx].
    - rewrite <- (Nat2Z.id (length _)). fold (zlen (msgs (box s))). rewrite M1. pose proof (slot_bound (first (box s))). unfold SYS_MBOX_SIZE. lia.
    - rewrite Hx. f_equal. symmetry. by apply nth_lookup_Some. }
  clear Hm. revert B1 B2 B3 B4 B5 B6 B7. generalize ((take_msg (box s)).2). intros b' B1 B2 B3 B4 B5 B6 B7.
  split; simpl; rewrite ?B1, ?B2, ?B3, ?B4, ?B5, ?B6, ?B7; rewrite ?(count_update _ _ _ _ _ Hi); simpl; try done; try lia.
  - rewrite M4. replace (Z.to_nat (first (box s) + 1)) with (S (Z.to_nat (first (box s)))) by lia.
    by rewrite (take_S_r _ _ m Hk).
  - intros k Hkk. apply M5. lia.
  - split; [apply M8|]. destruct (_ =? _); [apply M8|]. rewrite sem_signal_bin; lia.
Qed.

(** Every place of a thread, against the last two lemmas and [quiet_ok]. *)
Lemma mbox_full_true b : mbox_full b = true -> first b + SYS_MBOX_SIZE <= last b + 1.
Proof. unfold mbox_full. by intros ?%Z.leb_le. Qed.

Lemma int_overflow s : mbox_ok s -> mbox_int_ok (box s) = false -> INT_MAX - SYS_MBOX_SIZE < last (box s).
Proof.
  intros Hok H. pose proof (mo_range s Hok). unfold mbox_int_ok, SYS_MBOX_SIZE in *.
  apply andb_false_iff in H as [H|H]; apply Z.leb_gt in H; lia.
Qed.

(** The mutex is taken by one waiting thread, given back by the one that holds it. *)
Ltac quiet Hok Hi := eapply (quiet_ok _ _ _ _ _ Hok Hi); try done; cbn; try lia.
Lemma run_ok s i w pc pc' b' : mbox_ok s -> threads s !! i = Some pc -> thread_step w pc (box s) = Some (pc', b') ->
  mbox_ok (mk_sys b' (<[i := pc']> (threads s)) (posted s ++ stored pc pc') (fetched s ++ taken pc pc')).
Proof.
  intros Hok Hi Hs. pose proof (mo_mutex s Hok) as [Hm Hm1]. destruct (mo_sems s Hok) as [Hse Hsf].
  assert (Hh : holds pc <= count holds (threads s)) by (apply (count_ge holds _ i); [intros x; apply (places_nonneg x)|done]).
  assert (Hmu0 : holds pc = 1 -> mutex (box s) = 0) by lia.
  assert (Hsig : holds pc = 1 -> sys_sem_signal (mutex (box s)) = 1) by (intros _; by apply sem_signal_bin).
  destruct pc; cbn -[take_msg put_msg mbox_full sys_sem_signal sys_arch_sem_wait] in Hs; try done.
  all: try (unfold acquire in Hs; cbn -[sys_arch_sem_wait] in Hs; destruct (sys_arch_sem_wait _) as [c|] eqn:Hc; [|done];
            apply sem_wait_some in Hc as [Hc ->]; injection Hs as <- <-; quiet Hok Hi; fail).
  - destruct (mbox_int_ok (box s)) eqn:Hint; cbn [negb] in Hs; [|injection Hs as <- <-; quiet Hok Hi; by intros _; apply int_overflow].
    destruct (mbox_full (box s)) eqn:Hf; injection Hs as <- <-; [|by eapply put_msg_ok; eauto].
    quiet Hok Hi; cbn in *; rewrite ?Hsig, ?Hmu0; lia.
  - destruct (mbox_int_ok (box s)) eqn:Hint; cbn [negb] in Hs; [|injection Hs as <- <-; quiet Hok Hi; by intros _; apply int_overflow].
    destruct (mbox_full (box s)) eqn:Hf; injection Hs as <- <-; [|by eapply put_msg_ok; eauto].
    quiet Hok Hi; cbn in *; rewrite ?Hsig, ?Hmu0; lia.
  - destruct (Z.eqb_spec (first (box s)) (last (box s))) as [He|He].
    + injection Hs as <- <-. quiet Hok Hi; cbn in *; rewrite ?Hsig, ?Hmu0; lia.
    + destruct (take_msg (box s)) as [m b1] eqn:Ht. injection Hs as <- <-.
      pose proof (take_msg_ok s i (FetchIn timeout time_needed) time_needed m Hok Hi) as H. rewrite Ht in H. apply H; eauto.
  - destruct w as [elapsed|].
    + destruct (sys_arch_sem_wait _) as [c|] eqn:Hc; [|done]. apply sem_wait_some in Hc as [Hc ->].
      injection Hs as <- <-. quiet Hok Hi.
    + destruct (timeout =? 0); [done|]. injection Hs as <- <-. quiet Hok Hi.
  - destruct (Z.eqb_spec (first (box s)) (last (box s))) as [He|He].
    + injection Hs as <- <-. quiet Hok Hi; cbn in *; rewrite ?Hsig, ?Hmu0; lia.
    + destruct (take_msg (box s)) as [m b1] eqn:Ht. injection Hs as <- <-.
      pose proof (take_msg_ok s i TryFetchIn 0 m Hok Hi) as H. rewrite Ht in H. apply H; eauto.
  - injection Hs as <- <-. quiet Hok Hi; cbn in *; rewrite ?Hsig, ?Hmu0; lia.
Qed.
Lemma begin_ok s i r c : mbox_ok s -> threads s !! i = Some (Returned r) ->
  mbox_ok (mk_sys (box s) (<[i := begin_call c]> (threads s)) (posted s) (fetched s)).
Proof.
  intros Hok Hi. rewrite <- (app_nil_r (posted s)), <- (app_nil_r (fetched s)).
  destruct (mo_mutex s Hok) as [Hm Hm1]. destruct (mo_sems s Hok) as [Hse Hsf].
  destruct c; apply (quiet_ok s i (Returned r) _ (box s) Hok Hi); try done; cbn; lia.
Qed.
Lemma mbox_step_ok s s' : mbox_ok s -> mbox_step s s' -> mbox_ok s'.
Proof.
  intros Hok Hst. destruct Hst as [i r c s Hi|i w pc pc' b' s Hi Hs].
  - by eapply begin_ok.
  - by eapply run_ok.
Qed.
Lemma count_replicate f n pc : count f (replicate n pc) = Z.of_nat n * f pc.
Proof. induction n as [|n IH]; [done|]. simpl count. rewrite IH. lia. Qed.
Lemma mbox_init_ok junk n : zlen junk = SYS_MBOX_SIZE -> mbox_ok (mbox_init junk n).
Proof.
  intros Hj. split; simpl; try done; unfold SYS_MBOX_SIZE; try lia; rewrite !count_replicate; simpl; lia.
Qed.
Lemma mbox_reach_ok junk n s : zlen junk = SYS_MBOX_SIZE -> rtc mbox_step (mbox_init junk n) s -> mbox_ok s.
Proof.
  intros Hj Hr. pose proof (mbox_init_ok junk n Hj) as H. induction Hr as [s|s s1 s' Hs Hr IH]; [done|].
  apply IH. by eapply mbox_step_ok.
Qed.

(** ** Wakeups *)
Lemma count_mono f g l : (forall pc, f pc <= g pc) -> count f l <= count g l.
Proof. intros H. induction l as [|x l IH]; simpl; [lia|]. specialize (H x). lia. Qed.
Lemma count_all f l : (forall pc, 0 <= f pc) -> count f l = 0 -> forall i pc, l !! i = Some pc -> f pc = 0.
Proof. intros Hf H i pc Hi. pose proof (count_ge f l i pc Hf Hi). specialize (Hf pc). lia. Qed.
(** The counts of a list of threads are not negative, and a waiting reader is
    a reader, all of which a step changes by what one thread does. *)
Lemma counts_le l : 0 <= count at_wait l /\ 0 <= count at_relock l /\ 0 <= count at_in l /\ 0 <= count at_fetch_wait l /\
  count at_fetch_wait l <= count reader l.
Proof. split_and!; try (apply count_nonneg; intros x; apply (places_nonneg x)). apply count_mono. intros []; simpl; lia. Qed.
Lemma counts_one l i pc : l !! i = Some pc -> 0 <= count at_wait l - at_wait pc /\ 0 <= count at_relock l - at_relock pc /\ 0 <= count at_in l - at_in pc /\ 0 <= count at_fetch_wait l - at_fetch_wait pc /\ count at_fetch_wait l - at_fetch_wait pc <= count reader l - reader pc.
Proof.
  intros Hi. pose proof (counts_le (<[i := Returned RetNothing]> l)) as H.
  rewrite !(count_update _ _ _ _ _ Hi) in H. simpl in H. lia.
Qed.

(** Steps with at most one thread in a reading call. *)
Definition mbox_step1 (s s' : mbox_sys) : Prop := mbox_step s s' /\ single_reader s'.
Lemma take_not_full b : 0 <= not_full b <= 1 -> wait_send b <> 0 -> not_full (take_msg b).2 = 1.
Proof. intros H Hw. destruct (take_msg_spec b) as (_ & _ & _ & _ & _ & _ & ->). destruct (Z.eqb_spec (wait_send b) 0); [lia|]. apply sem_signal_bin. lia. Qed.
Lemma put_not_empty m b : 0 <= not_empty b <= 1 -> (first b < last b -> not_empty b = 1) -> first b <= last b ->
  not_empty (put_msg m b) = 1.
Proof.
  intros H Hw Hr. unfold put_msg. destruct (Z.eqb_spec (last b) (first b)); cbn; [apply sem_signal_bin|apply Hw]; lia.
Qed.
Lemma put_msg_spec m b : let b' := put_msg m b in first b' = first b /\ last b' = last b + 1 /\ not_full b' = not_full b.
Proof. unfold put_msg. by destruct (_ =? _). Qed.

(** No wakeup is lost: a message in the mailbox will be seen by the reader
    that waits, and a waiting writer by some thread. *)
Definition wakes (b : sys_mbox) (l : list mbox_pc) : Prop :=
  (0 < count at_fetch_wait l -> first b < last b -> not_empty b = 1) /\
  (0 < count at_wait l -> not_full b = 1 \/ 0 < count at_relock l \/ 0 < count at_in l \/ first b < last b).
Lemma wake_take s i pc t pc' b' : mbox_ok s -> single_reader s -> wakes (box s) (threads s) -> threads s !! i = Some pc ->
  ((exists timeout, pc = FetchIn timeout t) \/ pc = TryFetchIn) -> first (box s) <> last (box s) ->
  (let '(m, b) := take_msg (box s) in Some (Unlock (RetMsg t m), b)) = Some (pc', b') -> wakes b' (<[i := pc']> (threads s)).
Proof.
  intros Hok H1 [W1 W2] Hi Hpc He Hs. destruct (counts_one _ _ _ Hi) as (C1 & C2 & C3 & C4 & C5).
  destruct (mo_sems s Hok) as [Hse Hsf]. pose proof (mo_wait s Hok) as Hw. unfold single_reader in H1.
  pose proof (take_not_full (box s) Hsf) as Hnf. destruct (take_msg_spec (box s)) as (B1 & B2 & _).
  destruct (take_msg (box s)) as [m b1]. injection Hs as <- <-. cbn [snd] in *.
  unfold wakes. rewrite !(count_update _ _ _ _ _ Hi). destruct Hpc as [[timeout ->]| ->]; cbn in *; split; intros; lia.
Qed.
Lemma wake_run s i w pc pc' b' : mbox_ok s -> single_reader s -> wakes (box s) (threads s) -> threads s !! i = Some pc ->
  thread_step w pc (box s) = Some (pc', b') -> wakes b' (<[i := pc']> (threads s)).
Proof.
  intros Hok H1 [W1 W2] Hi Hs. destruct (counts_one _ _ _ Hi) as (C1 & C2 & C3 & C4 & C5).
  destruct (mo_range s Hok) as [Hr1 Hr2]. destruct (mo_sems s Hok) as [Hse Hsf]. pose proof (mo_wait s Hok) as Hw.
  unfold single_reader in H1. unfold SYS_MBOX_SIZE in *.
  destruct pc; cbn -[take_msg put_msg mbox_full sys_sem_signal sys_arch_sem_wait] in Hs; try done.
  all: try (unfold acquire in Hs; cbn -[sys_arch_sem_wait] in Hs; destruct (sys_arch_sem_wait _) as [c|] eqn:Hc; [|done];
            apply sem_wait_some in Hc as [Hc ->]; injection Hs as <- <-; unfold wakes;
            rewrite !(count_update _ _ _ _ _ Hi); cbn in *; split; intros; lia).
  - destruct (mbox_int_ok (box s)); cbn [negb] in Hs;
      [|injection Hs as <- <-; unfold wakes; rewrite !(count_update _ _ _ _ _ Hi); cbn in *; split; intros; lia].
    destruct (mbox_full (box s)) eqn:Hf; injection Hs as <- <-; unfold wakes; rewrite !(count_update _ _ _ _ _ Hi).
    + apply mbox_full_true in Hf. unfold SYS_MBOX_SIZE in Hf. cbn in *. split; intros; lia.
    + destruct (put_msg_spec m (box s)) as (-> & -> & ->). cbn in *. split; [|lia]. intros Hc Hd.
      apply put_not_empty; [done| |lia]. intros. apply W1; lia.
  - destruct (mbox_int_ok (box s)); cbn [negb] in Hs;
      [|injection Hs as <- <-; unfold wakes; rewrite !(count_update _ _ _ _ _ Hi); cbn in *; split; intros; lia].
    destruct (mbox_full (box s)) eqn:Hf; injection Hs as <- <-; unfold wakes; rewrite !(count_update _ _ _ _ _ Hi).
    + cbn in *. split; intros; lia.
    + destruct (put_msg_spec m (box s)) as (-> & -> & ->). cbn in *. split; [|lia]. intros Hc Hd.
      apply put_not_empty; [done| |lia]. intros. apply W1; lia.
  - destruct (Z.eqb_spec (first (box s)) (last (box s))) as [He|He].
    + injection Hs as <- <-. unfold wakes. rewrite !(count_update _ _ _ _ _ Hi). cbn in *. split; intros; lia.
    + eapply (wake_take s i (FetchIn timeout time_needed)); eauto; by split.
  - destruct w as [elapsed|].
    + destruct (sys_arch_sem_wait _) as [c|] eqn:Hc; [|done]. apply sem_wait_some in Hc as [Hc ->].
      injection Hs as <- <-. unfold wakes. rewrite !(count_update _ _ _ _ _ Hi). cbn in *. split; intros; lia.
    + destruct (timeout =? 0); [done|]. injection Hs as <- <-. unfold wakes. rewrite !(count_update _ _ _ _ _ Hi).
      cbn in *. split; intros; lia.
  - destruct (Z.eqb_spec (first (box s)) (last (box s))) as [He|He].
    + injection Hs as <- <-. unfold wakes. rewrite !(count_update _ _ _ _ _ Hi). cbn in *. split; intros; lia.
    + eapply (wake_take s i TryFetchIn); eauto; by split.
  - injection Hs as <- <-. unfold wakes. rewrite !(count_update _ _ _ _ _ Hi). cbn in *. split; intros; lia.
Qed.
Lemma wake_call s i r c : wakes (box s) (threads s) -> threads s !! i = Some (Returned r) ->
  wakes (box s) (<[i := begin_call c]> (threads s)).
Proof.
  intros [W1 W2] Hi. unfold wakes. rewrite !(count_update _ _ _ _ _ Hi). destruct c; cbn; split; intros; lia.
Qed.
Lemma mbox_reach1 junk n s : zlen junk = SYS_MBOX_SIZE -> rtc mbox_step1 (mbox_init junk n) s ->
  mbox_ok s /\ single_reader s /\ wakes (box s) (threads s).
Proof.
  intros Hj Hr. pose proof (mbox_init_ok junk n Hj) as Hok.
  assert (H1 : single_reader (mbox_init junk n)) by (unfold single_reader; simpl; rewrite count_replicate; simpl; lia).
  assert (Hw : wakes (box (mbox_init junk n)) (threads (mbox_init junk n))) by (unfold wakes; simpl; rewrite !count_replicate; simpl; lia).
  induction Hr as [s|s s1 s' [Hs Hs1] Hr IH]; [done|]. apply IH; [by eapply mbox_step_ok|done|].
  destruct Hs as [i r c s Hi|i w pc pc' b' s Hi Hst]; cbn; [by eapply wake_call|by eapply wake_run].
Qed.

Lemma no_overflow s : (0 < count at_overflow (threads s) -> INT_MAX - SYS_MBOX_SIZE < last (box s)) ->
  last (box s) <= INT_MAX - SYS_MBOX_SIZE -> Overflow ∉ threads s.
Proof.
  intros Ho Hl [i Hi]%list_elem_of_lookup.
  assert (Hn : forall pc, 0 <= at_overflow pc) by (intros pc; apply (places_nonneg pc)).
  pose proof (count_ge at_overflow _ _ _ Hn Hi). cbn in *. lia.
Qed.
Lemma stuck_no_holder s : Overflow ∉ threads s -> (forall i w pc, threads s !! i = Some pc -> thread_step w pc (box s) = None) -> count holds (threads s) = 0.
Proof.
  intros Hno Hstuck. destruct (Z.eq_dec (count holds (threads s)) 0) as [|Hne]; [done|].
  assert (H : 0 < count holds (threads s)) by (pose proof (count_nonneg holds (threads s) (fun x => proj1 (places_nonneg x))); lia).
  apply count_pos in H as (i & pc & Hi & Hp). pose proof (Hstuck i TimedOut pc Hi) as Hn.
  destruct pc; cbn -[take_msg] in *; try done; [by repeat case_match..|]. by apply list_elem_of_lookup_2 in Hi.
Qed.

(** ** The claims *)

(** C15. However many threads post to and fetch from a mailbox, at most one
    holds its mutex and then the mutex is 0; the mailbox never has more than
    127 messages; the messages come out in the order in which they went in,
    each once; the counter of waiting writers is their number. The ints
    [first] and [last] hold the numbers of messages, and no thread gets to
    where one of them overflows before 2^31 - 128 messages were posted. *)
Theorem mbox_fifo junk n s : zlen junk = SYS_MBOX_SIZE -> rtc mbox_step (mbox_init junk n) s ->
  count holds (threads s) <= 1 /\ mutex (box s) = 1 - count holds (threads s) /\
  0 <= last (box s) - first (box s) <= 127 /\
  zlen (posted s) = last (box s) /\ zlen (fetched s) = first (box s) /\ fetched s `prefix_of` posted s /\
  wait_send (box s) = count at_wait (threads s) + count at_relock (threads s) /\
  zlen (posted s) <= INT_MAX /\ (zlen (posted s) <= INT_MAX - SYS_MBOX_SIZE -> Overflow ∉ threads s).
Proof.
  intros Hj Hr. destruct (mbox_reach_ok junk n s Hj Hr) as [M1 M2 M3 M4 M5 M6 M7 M8 M9 M10]. unfold SYS_MBOX_SIZE, zlen in *.
  split_and!; try lia; try done.
  - rewrite M4, length_take. lia.
  - rewrite M4. exists (drop (Z.to_nat (first (box s))) (posted s)). by rewrite take_drop.
  - intros Hp. apply no_overflow; [exact M10|unfold SYS_MBOX_SIZE; lia].
Qed.

(** C16. With one thread that reads, no wakeup is lost before 2^31 - 128
    messages were posted (then an int overflows): in a state where no thread can run (no timeout is set) each thread is out of its call, or reads
    and the mailbox is empty, or waits for room while the mailbox holds messages.
    So a reader and a message, or a waiting writer and an empty mailbox, never
    get stuck. *)
Theorem mbox_no_lost_wakeup junk n s : zlen junk = SYS_MBOX_SIZE -> rtc mbox_step1 (mbox_init junk n) s ->
  zlen (posted s) <= INT_MAX - SYS_MBOX_SIZE ->
  (forall i w pc, threads s !! i = Some pc -> thread_step w pc (box s) = None) ->
  forall i pc, threads s !! i = Some pc ->
    (exists r, pc = Returned r) \/
    (exists timeout, pc = FetchWait timeout /\ first (box s) = last (box s)) \/
    (exists m, pc = PostWait m /\ first (box s) < last (box s)).
Proof.
  intros Hj Hr Hint Hstuck. destruct (mbox_reach1 junk n s Hj Hr) as (Hok & H1 & W1 & W2).
  assert (Hno : Overflow ∉ threads s) by (apply no_overflow; [apply (mo_overflow s Hok)|rewrite <- (mo_posted s Hok); done]).
  assert (Hh : count holds (threads s) = 0) by by apply stuck_no_holder.
  assert (Hmu : mutex (box s) = 1) by (pose proof (mo_mutex s Hok); lia).
  destruct (mo_sems s Hok) as [Hse Hsf]. pose proof (mo_range s Hok) as [Hr1 Hr2].
  assert (Hq : forall i pc, threads s !! i = Some pc -> at_relock pc = 0 /\ at_in pc = 0).
  { intros i pc Hi. pose proof (Hstuck i TimedOut pc Hi) as Hn. destruct pc; cbn; try done; [| |by apply list_elem_of_lookup_2 in Hi].
    - apply (count_all holds _ (fun x => proj1 (places_nonneg x)) Hh) in Hi. done.
    - cbn in Hn. unfold acquire, sys_arch_sem_wait in Hn. cbn in Hn. by rewrite Hmu in Hn. }
  intros i pc Hi. pose proof (Hstuck i (Signalled 0) pc Hi) as Hn.
  pose proof (count_all holds _ (fun x => proj1 (places_nonneg x)) Hh i pc Hi) as Hp.
  destruct pc; try done; cbn in Hn; unfold acquire in Hn; cbn in Hn; unfold sys_arch_sem_wait in Hn; rewrite ?Hmu in Hn; try done.
  - by left; eexists.
  - right; right. exists m. split; [done|].
    destruct W2 as [W|[W|[W|W]]]; [|by destruct (Z.leb_spec (not_full (box s)) 0); [lia|]| | |done].
    + pose proof (count_ge at_wait _ _ _ (fun x => proj1 (proj2 (places_nonneg x))) Hi). cbn in *. lia.
    + apply count_pos in W as (j & q & Hjj & Hne). by destruct (Hq j q Hjj).
    + apply count_pos in W as (j & q & Hjj & Hne). by destruct (Hq j q Hjj).
  - right; left. exists timeout. split; [done|].
    destruct (Z.leb_spec (not_empty (box s)) 0) as [Hz|]; [|done].
    assert (Hc : 0 < count at_fetch_wait (threads s)).
    { pose proof (count_ge at_fetch_wait _ _ _ (fun x => proj1 (proj2 (proj2 (proj2 (proj2 (places_nonneg x)))))) Hi). cbn in *. lia. }
    destruct (Z.eq_dec (first (box s)) (last (box s))); [done|]. specialize (W1 Hc). lia.
Qed.

(** ** Schedules, to run examples *)
Definition mbox_run_one (a : nat * (mbox_call + wakeup)) (s : mbox_sys) : option mbox_sys :=
  pc ← threads s !! a.1;
  match a.2, pc with
  | inl c, Returned _ => Some (mk_sys (box s) (<[a.1 := begin_call c]> (threads s)) (posted s) (fetched s))
  | inl _, _ => None
  | inr w, _ =>
      '(pc', b') ← thread_step w pc (box s);
      Some (mk_sys b' (<[a.1 := pc']> (threads s)) (posted s ++ stored pc pc') (fetched s ++ taken pc pc'))
  end.
Fixpoint mbox_run (l : list (nat * (mbox_call + wakeup))) (s : mbox_sys) : option mbox_sys :=
  match l with
  | [] => Some s
  | a :: l => s' ← mbox_run_one a s; mbox_run l s'
  end.
Fixpoint mbox_run1 (l : list (nat * (mbox_call + wakeup))) (s : mbox_sys) : option mbox_sys :=
  match l with
  | [] => Some s
  | a :: l => s' ← mbox_run_one a s; if count reader (threads s') <=? 1 then mbox_run1 l s' else None
  end.
Lemma mbox_run_one_step a s s' : mbox_run_one a s = Some s' -> mbox_step s s'.
Proof.
  destruct a as [i a]. unfold mbox_run_one. cbn [fst snd]. destruct (threads s !! i) as [pc|] eqn:Hi; [|done]. cbn.
  destruct a as [c|w].
  - destruct pc; try done. intros [= <-]. by eapply ms_call.
  - destruct (thread_step w pc (box s)) as [[pc' b']|] eqn:Ht; [|done]. cbn. intros [= <-]. by eapply ms_run.
Qed.
Lemma mbox_run_steps l s s' : mbox_run l s = Some s' -> rtc mbox_step s s'.
Proof.
  revert s. induction l as [|a l IH]; intros s; cbn; [by intros [= ->]|].
  destruct (mbox_run_one a s) as [s1|] eqn:H1; [|done]. cbn. intros H. eapply rtc_l; [by eapply mbox_run_one_step|by apply IH].
Qed.
Lemma mbox_run1_steps l s s' : mbox_run1 l s = Some s' -> rtc mbox_step1 s s'.
Proof.
  revert s. induction l as [|a l IH]; intros s; cbn; [by intros [= ->]|].
  destruct (mbox_run_one a s) as [s1|] eqn:H1; [|done]. cbn. destruct (Z.leb_spec (count reader (threads s1)) 1); [|done].
  intros H'. eapply rtc_l; [split; [by eapply mbox_run_one_step|done]|by apply IH].
Qed.

Definition junk128 : list Z := replicate 128 (-1).
Definition go (i : nat) : nat * (mbox_call + wakeup) := (i, inr (Signalled 1)).
Definition start (i : nat) (c : mbox_call) : nat * (mbox_call + wakeup) := (i, inl c).
(** A reader waits, another thread posts two messages, the reader gets one. *)
Definition one_reader : list (nat * (mbox_call + wakeup)) :=
  [start 0 (sys_arch_mbox_fetch 0); go 0; go 0; start 1 (sys_mbox_post 7); go 1; go 1; go 1;
   start 1 (sys_mbox_post 8); go 1; go 1; go 1; go 0; go 0; go 0; go 0].
(** Two readers wait, then two messages are posted, then the readers run. *)
Definition two_readers : list (nat * (mbox_call + wakeup)) :=
  [start 0 (sys_arch_mbox_fetch 0); go 0; go 0; start 2 (sys_arch_mbox_fetch 0); go 2; go 2;
   start 1 (sys_mbox_post 7); go 1; go 1; go 1; start 1 (sys_mbox_post 8); go 1; go 1; go 1; go 0; go 0; go 0; go 0].
Definition after (l : list (nat * (mbox_call + wakeup))) : mbox_sys := default (mbox_init junk128 3) (mbox_run l (mbox_init junk128 3)).

Lemma mbox_fifo_witness : fetched (after one_reader) = [7] /\ fetched (after one_reader) `prefix_of` posted (after one_reader).
Proof.
  split; [by vm_compute|].
  apply (mbox_fifo junk128 3 (after one_reader)); [reflexivity|apply (mbox_run_steps one_reader); by vm_compute].
Defined.
(** The reader waits again, once the mailbox is empty. *)
Definition reader_waits : list (nat * (mbox_call + wakeup)) :=
  [start 0 (sys_arch_mbox_fetch 0); go 0; go 0].
Lemma mbox_no_lost_wakeup_witness : exists timeout, threads (after reader_waits) !! 0%nat = Some (FetchWait timeout) /\
  first (box (after reader_waits)) = last (box (after reader_waits)).
Proof.
  destruct (mbox_no_lost_wakeup junk128 3 (after reader_waits) eq_refl) with (i := O) (pc := FetchWait 0)
    as [[r H]|[[t [H E]]|[m [H _]]]]; try done.
  - apply (mbox_run1_steps reader_waits). by vm_compute.
  - intros i w pc. destruct i as [|[|[|i]]]; intros Hi; try done; injection Hi as <-; by destruct w.
  - exists t. split; [by rewrite <- H; vm_compute|done].
Defined.
(** With a second reader a wakeup is lost: [not_empty] is signalled only for
    the first of two messages. Reader 2 waits for ever while the mailbox holds a
    message. *)
Example second_reader_stuck : threads (after two_readers) = [Returned (RetMsg 0 7); Returned RetNothing; FetchWait 0] /\
  last (box (after two_readers)) - first (box (after two_readers)) = 1 /\
  forall w, thread_step w (FetchWait 0) (box (after two_readers)) = None.
Proof. split_and!; [by vm_compute..|]. by intros []; vm_compute. Qed.
