(* ===== verification/Nbuf.v ===== *)
(** * Packets between the layers, and the IP header

    A packet on its way through IP, ICMP, UDP and TCP is an [nbuf]: the bytes
    of its pbufs from the payload pointer on, and what lies in front of it in
    the first pbuf. [nb_header] is [pbuf_header] on it. The pbuf store of
    Pbuf.v is not used here: the layers move the payload pointer and read and
    write bytes, and each packet has one owner. *)
From S2P Require Import Prelude ByteOrder IpAddr Checksum IpFrag.

(** [nb_front]: the bytes in front of the payload in the first pbuf;
    [nb_first]: its payload; [nb_rest]: the payloads of the others;
    [nb_movable]: the first pbuf is a PBUF_RAM or PBUF_POOL; [nb_rom]: all pbufs
    are PBUF_ROM; [nb_flags]: the flags of the first. *)
Record nbuf := mk_nbuf {
  nb_front : list Z;
  nb_first : list Z;
  nb_rest : list (list Z);
  nb_movable : bool;
  nb_rom : bool;
  nb_flags : Z
}.
#[export] Instance nbuf_eta : Eta nbuf :=
  {| eta p := mk_nbuf (nb_front p) (nb_first p) (nb_rest p) (nb_movable p) (nb_rom p) (nb_flags p) |}.
#[export] Instance set_nb_first : Setter nb_first := ltac:(setter).
#[export] Instance set_nb_rest : Setter nb_rest := ltac:(setter).
#[export] Instance nbuf_eq_dec : EqDecision nbuf.
Proof. solve_decision. Defined.

Definition nb_pbufs (p : nbuf) : list (list Z) := nb_first p :: nb_rest p.
Definition nb_bytes (p : nbuf) : list Z := concat (nb_pbufs p).
(** [p->len] and [p->tot_len]. *)
Definition nb_len (p : nbuf) : Z := zlen (nb_first p).
Definition nb_tot_len (p : nbuf) : Z := zlen (nb_bytes p).
(** The pbufs for the checksum; their addresses do not matter
    (inet_chksum_pseudo_correct of Checksum.v). *)
Definition nb_segs (p : nbuf) : list seg := map (fun bs => (0, bs)) (nb_pbufs p).

(** [pbuf_header]; [None] is the non-zero return. Hiding more than the first
    pbuf holds fails an LWIP_ERROR. *)
Definition nb_header (inc : Z) (p : nbuf) : res (option nbuf) :=
  if inc =? 0 then Ok (Some p)
  else if inc <? 0 then
    let n := Z.to_nat (- inc) in
    assert! - inc <=? nb_len p in
    Ok (Some (mk_nbuf (nb_front p ++ take n (nb_first p)) (drop n (nb_first p)) (nb_rest p) (nb_movable p) (nb_rom p) (nb_flags p)))
  else if nb_movable p && (inc <=? zlen (nb_front p)) then
    let n := (length (nb_front p) - Z.to_nat inc)%nat in
    Ok (Some (mk_nbuf (take n (nb_front p)) (drop n (nb_front p) ++ nb_first p) (nb_rest p) (nb_movable p) (nb_rom p) (nb_flags p)))
  else Ok None.

(** Reads and writes through the payload pointer stay in the first pbuf. *)
Definition nb_read (off n : Z) (p : nbuf) : res (list Z) :=
  if off + n <=? nb_len p then Ok (slice off n (nb_first p)) else Err BadAccess.
Definition nb_write (off : Z) (bs : list Z) (p : nbuf) : res nbuf :=
  if off + zlen bs <=? nb_len p then
    Ok (p <| nb_first := take (Z.to_nat off) (nb_first p) ++ bs ++ drop (Z.to_nat (off + zlen bs)) (nb_first p) |>)
  else Err BadAccess.
(** Numbers in network byte order, addresses as in memory. *)
Definition nb_u8 (off : Z) (p : nbuf) : res Z :=
  let! l := nb_read off 1 p in match l with [a] => Ok a | _ => Err BadAccess end.
Definition nb_u16 (off : Z) (p : nbuf) : res Z :=
  let! l := nb_read off 2 p in match l with [a; b] => Ok (lwip_ntohs (load_le16 a b)) | _ => Err BadAccess end.
Definition nb_u32 (off : Z) (p : nbuf) : res Z :=
  let! l := nb_read off 4 p in match l with [a; b; c; d] => Ok (lwip_ntohl (load_le32 a b c d)) | _ => Err BadAccess end.
Definition nb_addr (off : Z) (p : nbuf) : res Z :=
  let! l := nb_read off 4 p in match l with [a; b; c; d] => Ok (load_le32 a b c d) | _ => Err BadAccess end.

(** [pbuf_realloc] to at most [n] bytes: the pbufs behind them are freed. *)
Fixpoint cut (n : nat) (l : list (list Z)) : list (list Z) :=
  match l with
  | [] => []
  | b :: l' => if Nat.leb n (length b) then [take n b] else b :: cut (n - length b) l'
  end.
Definition nb_realloc (n : Z) (p : nbuf) : res nbuf :=
  if nb_tot_len p <=? n then Ok p
  else match cut (Z.to_nat n) (nb_pbufs p) with
       | b :: l => Ok (p <| nb_first := b |> <| nb_rest := l |>)
       | [] => Err BadAccess
       end.

(** A fresh PBUF_RAM with [room] bytes in front and the given payload. *)
Definition nb_new (room : Z) (bs : list Z) : nbuf := mk_nbuf (repeat 0 (Z.to_nat room)) bs [] true false 0.

(** ** The IP header in memory *)
Definition IPH_VHL (h : ip_hdr) : Z := Z.lor (Z.shiftl 4 4) (iph_hl h).
Definition ip_hdr_bytes (h : ip_hdr) (chksum : Z) : list Z :=
  [IPH_VHL h; iph_tos h] ++ store_le16 (lwip_htons (iph_len h)) ++ store_le16 (lwip_htons (iph_id h)) ++
  store_le16 (lwip_htons (iph_off h)) ++ [iph_ttl h; iph_proto h] ++ store_le16 chksum ++
  store_le32 (iph_src h) ++ store_le32 (iph_dest h).
(** The header at the payload pointer. *)
Definition nb_iphdr (p : nbuf) : res ip_hdr :=
  let! v_hl := nb_u8 0 p in
  let! tos := nb_u8 1 p in
  let! len := nb_u16 2 p in
  let! id := nb_u16 4 p in
  let! off := nb_u16 6 p in
  let! ttl := nb_u8 8 p in
  let! proto := nb_u8 9 p in
  let! src := nb_addr 12 p in
  let! dest := nb_addr 16 p in
  Ok (mk_iphdr (Z.land v_hl 0x0f) tos len id off ttl proto src dest).
(** The checksum of a header whose checksum field is 0. *)
Definition ip_hdr_chksum (h : ip_hdr) : Z := inet_chksum 0 (ip_hdr_bytes h 0).
