(* ===== verification/Inet.v ===== *)
(** * The network layer: state and IP output (src/src/lwip/core/ipv4/ip.c)

    [inet] adds to the interfaces, ARP and TCP of Netif.v the globals of ip.c,
    ip_frag.c, udp.c and raw.c. [in_log] records what happens to packets: which
    are freed, and which go to a callback of the application. The interfaces
    are those of the driver: netif->output is [etharp_output]. *)
From S2P Require Import Prelude ByteOrder IpAddr Checksum Ip Tcp TcpOut TcpIn TcpWorld Etharp Netif IpFrag Nbuf.

(** ** State *)
Abbreviation addr := positive (only parsing).

(** struct udp_pcb and struct raw_pcb; of the recv callback only whether there
    is one. *)
Record udp_pcb := mk_udp {
  up_local_ip : Z; up_remote_ip : Z; up_so_options : Z; up_tos : Z; up_ttl : Z;
  up_flags : Z; up_local_port : Z; up_remote_port : Z; up_recv : bool
}.
#[export] Instance udp_pcb_eta : Eta udp_pcb :=
  {| eta p := mk_udp (up_local_ip p) (up_remote_ip p) (up_so_options p) (up_tos p) (up_ttl p) (up_flags p)
       (up_local_port p) (up_remote_port p) (up_recv p) |}.
#[export] Instance set_up_local_ip : Setter up_local_ip := ltac:(setter).
#[export] Instance set_up_remote_ip : Setter up_remote_ip := ltac:(setter).
#[export] Instance set_up_so_options : Setter up_so_options := ltac:(setter).
#[export] Instance set_up_flags : Setter up_flags := ltac:(setter).
#[export] Instance set_up_local_port : Setter up_local_port := ltac:(setter).
#[export] Instance set_up_remote_port : Setter up_remote_port := ltac:(setter).
#[export] Instance set_up_recv : Setter up_recv := ltac:(setter).
Record raw_pcb := mk_raw {
  rp_local_ip : Z; rp_remote_ip : Z; rp_so_options : Z; rp_tos : Z; rp_ttl : Z; rp_protocol : Z; rp_recv : bool
}.
#[export] Instance raw_pcb_eta : Eta raw_pcb :=
  {| eta p := mk_raw (rp_local_ip p) (rp_remote_ip p) (rp_so_options p) (rp_tos p) (rp_ttl p) (rp_protocol p) (rp_recv p) |}.
#[export] Instance set_rp_local_ip : Setter rp_local_ip := ltac:(setter).
#[export] Instance set_rp_remote_ip : Setter rp_remote_ip := ltac:(setter).
#[export] Instance set_rp_recv : Setter rp_recv := ltac:(setter).

(** What becomes of a packet that came in: it is freed, given to the recv
    callback of an UDP block with its data, source address and port, shown to
    that of a raw block with its bytes, kept by the reassembly, or put
    into one datagram with the fragments before it. *)
Inductive packet_event :=
| Freed
| ToUdp (pcb : addr) (data : list Z) (src port : Z)
| ToRaw (pcb : addr) (bytes : list Z) (src : Z) (eaten : bool)
| ToTcp
| ToReass.

Record inet (A : Type) := mk_inet {
  in_stack : stack A;
  ip_id : Z;
  in_reass : reass_state;
  udp_tbl : gmap addr udp_pcb;
  udp_pcbs : list addr;
  udp_port : Z;
  raw_tbl : gmap addr raw_pcb;
  raw_pcbs : list addr;
  in_allocs : list bool;
  in_log : list packet_event
}.
Arguments mk_inet {A}. Arguments in_stack {A}. Arguments ip_id {A}. Arguments in_reass {A}. Arguments udp_tbl {A}.
Arguments udp_pcbs {A}. Arguments udp_port {A}. Arguments raw_tbl {A}. Arguments raw_pcbs {A}. Arguments in_allocs {A}.
Arguments in_log {A}.
#[export] Instance inet_eta {A} : Eta (inet A) :=
  {| eta s := mk_inet (in_stack s) (ip_id s) (in_reass s) (udp_tbl s) (udp_pcbs s) (udp_port s) (raw_tbl s) (raw_pcbs s)
       (in_allocs s) (in_log s) |}.
#[export] Instance set_in_stack {A} : Setter (@in_stack A) := ltac:(setter).
#[export] Instance set_ip_id {A} : Setter (@ip_id A) := ltac:(setter).
#[export] Instance set_in_reass {A} : Setter (@in_reass A) := ltac:(setter).
#[export] Instance set_udp_tbl {A} : Setter (@udp_tbl A) := ltac:(setter).
#[export] Instance set_udp_pcbs {A} : Setter (@udp_pcbs A) := ltac:(setter).
#[export] Instance set_udp_port {A} : Setter (@udp_port A) := ltac:(setter).
#[export] Instance set_raw_tbl {A} : Setter (@raw_tbl A) := ltac:(setter).
#[export] Instance set_raw_pcbs {A} : Setter (@raw_pcbs A) := ltac:(setter).
#[export] Instance set_in_allocs {A} : Setter (@in_allocs A) := ltac:(setter).
#[export] Instance set_in_log {A} : Setter (@in_log A) := ltac:(setter).

Definition IP_PROTO_ICMP : Z := 1.
Definition IP_PROTO_UDP : Z := 17.
Definition IP_PROTO_TCP : Z := 6.
(** PBUF_LINK_HLEN and PBUF_IP_HLEN: the room [pbuf_alloc] leaves. *)
Definition link_room : Z := 14.
Definition ip_room : Z := 20.

Section Inet.
Context {A : Type}.
Implicit Types (s : inet A) (p : nbuf) (id : nat).

Definition pbuf_alloc_ok s : bool * inet A :=
  match in_allocs s with [] => (true, s) | b :: l => (b, s <| in_allocs := l |>) end.
Definition log (e : packet_event) s : inet A := s <| in_log := in_log s ++ [e] |>.
(** [pbuf_free] of a packet that came in. *)
Definition drop_packet s : inet A := log Freed s.
Definition inet_if id s : res netif := get_netif id (in_stack s).

(** The interface list with the structs. *)
Definition if_list s : list (nat * netif) :=
  omap (fun id => x ← sk_ifaces (in_stack s) !! id; Some (id, if_netif x)) (Netif.netif_list (in_stack s)).
Definition if_default s : option (nat * netif) :=
  id ← Netif.netif_default (in_stack s); x ← sk_ifaces (in_stack s) !! id; Some (id, if_netif x).
Definition route s (dest : Z) : option (nat * netif) := ip_route_of snd (if_list s) (if_default s) dest.

(** netif->output. *)
Definition netif_output id p (dest : Z) s : res (err_t * inet A) :=
  let! n := inet_if id s in
  let! h := nb_header link_room p in
  let! (err, k) := run_arp (etharp_output id n (mk_packet (nb_rom p) (nb_bytes p)) (bool_decide (is_Some h)) dest) (in_stack s) in
  Ok (err, s <| in_stack := k |>).

(** The fragments of [ip_frag] go to netif->output one by one; what that
    returns is ignored. *)
Fixpoint output_frags id (dest : Z) (l : list (ip_hdr * list Z)) s : res (inet A) :=
  match l with
  | [] => Ok s
  | (h, data) :: l' =>
      let! (_, s) := netif_output id (nb_new link_room (ip_hdr_bytes h (ip_hdr_chksum h) ++ data)) dest s in
      output_frags id dest l' s
  end.

(** The end of [ip_output_if]. *)
Definition ip_send id p (dest : Z) s : res (err_t * inet A) :=
  let! n := inet_if id s in
  if negb (nif_mtu n =? 0) && (nif_mtu n <? nb_tot_len p) then
    let! h := nb_iphdr p in
    let! (err, allocs, out) := ip_frag h (nb_pbufs p) (nif_mtu n) (in_allocs s) in
    let! s := output_frags id dest out (s <| in_allocs := allocs |>) in
    Ok (err, s)
  else netif_output id p dest s.

(** The checksum that [ip_output_if] computes along the way. *)
Definition LWIP_MAKE_U16 (a b : Z) : Z := Z.lor (Z.shiftl a 8) b.
Definition inline_chksum (h : ip_hdr) : Z :=
  let sum := LWIP_MAKE_U16 (iph_proto h) (iph_ttl h) in
  let sum := u32 (sum + Z.land (iph_dest h) 0xffff) in
  let sum := u32 (sum + Z.shiftr (iph_dest h) 16) in
  let sum := u32 (sum + LWIP_MAKE_U16 (iph_tos h) (IPH_VHL h)) in
  let sum := u32 (sum + lwip_htons (iph_len h)) in
  let sum := u32 (sum + lwip_htons (iph_id h)) in
  let sum := u32 (sum + Z.land (iph_src h) 0xffff) in
  let sum := u32 (sum + Z.shiftr (iph_src h) 16) in
  let sum := u32 (Z.shiftr sum 16 + Z.land sum 0xffff) in
  let sum := u32 (Z.shiftr sum 16 + sum) in
  u16 (Z.lnot sum).

(** [ip_output_if]; [dest = None] is IP_HDRINCL, and a NULL [src] is 0. *)
Definition ip_output_if p (src : Z) (dest : option Z) (ttl tos proto : Z) id s : res (err_t * inet A) :=
  match dest with
  | Some dest =>
      let! o := nb_header IP_HLEN p in
      match o with
      | None => Ok (ERR_BUF, s)
      | Some p =>
          assert! IP_HLEN <=? nb_len p in
          let! n := inet_if id s in
          let src := if src =? IPADDR_ANY then nif_ip_addr n else src in
          let h := mk_iphdr (IP_HLEN / 4) tos (u16 (nb_tot_len p)) (ip_id s) 0 ttl proto src dest in
          let! p := nb_write 0 (ip_hdr_bytes h (inline_chksum h)) p in
          ip_send id p dest (s <| ip_id := u16 (ip_id s + 1) |>)
      end
  | None =>
      let! dest := nb_addr 16 p in
      ip_send id p dest s
  end.

Definition ip_output p (src dest ttl tos proto : Z) s : res (err_t * inet A) :=
  match route s dest with
  | None => Ok (ERR_RTE, s)
  | Some (id, _) => ip_output_if p src (Some dest) ttl tos proto id s
  end.
End Inet.
