(* ===== verification/Icmp.v ===== *)
(** * ICMP (src/src/lwip/core/ipv4/icmp.c)

    [iphdr] is the header of the packet at hand, whose addresses are the globals
    current_iphdr_src and current_iphdr_dest; [inp] is the interface it came
    from. *)
From S2P Require Import Prelude ByteOrder IpAddr Checksum Ip Tcp TcpOut TcpIn TcpWorld Etharp Netif IpFrag Nbuf Inet.

Definition ICMP_ER : Z := 0.
Definition ICMP_DUR : Z := 3.
Definition ICMP_ECHO : Z := 8.
Definition ICMP_TE : Z := 11.
Definition ICMP_DUR_PROTO : Z := 2.
Definition ICMP_DUR_PORT : Z := 3.
Definition ICMP_TE_FRAG : Z := 1.
Definition ICMP_TTL : Z := 255.
Definition ICMP_DEST_UNREACH_DATASIZE : Z := 8.
(** [sizeof(struct icmp_echo_hdr)] *)
Definition SIZEOF_ICMP_ECHO_HDR : Z := 8.

Section Icmp.
Context {A : Type}.
Implicit Types (s : inet A) (p : nbuf) (inp : nat).

(** [icmp_send_response]: the message is the header with id and sequence number
    0 and the first 28 bytes of the packet. *)
Definition icmp_message (type code : Z) (orig : list Z) : list Z :=
  let hdr chksum := [type; code] ++ store_le16 chksum ++ [0; 0; 0; 0] ++ orig in
  hdr (inet_chksum 0 (hdr 0)).
Definition icmp_send_response p (type code : Z) s : res (inet A) :=
  let '(ok, s) := pbuf_alloc_ok s in
  if ok then
    let! orig := nb_read 0 (IP_HLEN + ICMP_DEST_UNREACH_DATASIZE) p in
    let! src := nb_addr 12 p in
    let q := nb_new (link_room + ip_room) (icmp_message type code orig) in
    let! (_, s) := ip_output q 0 src ICMP_TTL 0 IP_PROTO_ICMP s in
    Ok s
  else Ok s.
Definition icmp_dest_unreach p (t : Z) s : res (inet A) := icmp_send_response p ICMP_DUR t s.
Definition icmp_time_exceeded p (t : Z) s : res (inet A) := icmp_send_response p ICMP_TE t s.

(** The buffer for the echo reply, with room for the headers of the link: the
    packet itself or a copy. The payload is the ICMP header before, and the IP
    header after. *)
Definition echo_buffer (hlen : Z) p s : res (option nbuf * inet A) :=
  let! o := nb_header (ip_room + link_room) p in
  let! q := nb_header hlen p in
  match o, q with
  | Some _, Some q => Ok (Some q, s)
  | Some _, None => Err AssertFailed
  | None, None => Err AssertFailed
  | None, Some q =>
      let '(ok, s) := pbuf_alloc_ok s in
      if ok then
        assert! hlen + SIZEOF_ICMP_ECHO_HDR <=? nb_tot_len q in
        Ok (Some (nb_new link_room (nb_bytes q)), s)
      else Ok (None, s)
  end.

(** The checksum for type 0 instead of 8, on the field as it is in memory. *)
Definition echo_chksum (c : Z) : Z :=
  if lwip_htons (0xffff - Z.shiftl ICMP_ECHO 8) <=? c then u16 (c + lwip_htons (Z.shiftl ICMP_ECHO 8) + 1)
  else u16 (c + lwip_htons (Z.shiftl ICMP_ECHO 8)).
(** The request at the IP header becomes the reply. *)
Definition echo_reply (hlen cur_src cur_dest : Z) p : res nbuf :=
  let! p := nb_write 12 (store_le32 cur_dest) p in
  let! p := nb_write 16 (store_le32 cur_src) p in
  let! p := nb_write hlen [ICMP_ER] p in
  let! c := nb_u16 (hlen + 2) p in
  let! p := nb_write (hlen + 2) (store_le16 (echo_chksum (lwip_htons c))) p in
  let! p := nb_write 8 [ICMP_TTL] p in
  let! p := nb_write 10 [0; 0] p in
  let! h := nb_read 0 IP_HLEN p in
  nb_write 10 (store_le16 (inet_chksum 0 h)) p.

Definition icmp_echo (iphdr : ip_hdr) inp p s : res (inet A) :=
  let! n := inet_if inp s in
  let hlen := iph_hl iphdr * 4 in
  if ip_addr_ismulticast (iph_dest iphdr) || ip4_addr_isbroadcast (iph_dest iphdr) n then Ok (drop_packet s)
  else if nb_tot_len p <? SIZEOF_ICMP_ECHO_HDR then Ok (drop_packet s)
  else if negb (inet_chksum_pbuf (nb_segs p) =? 0) then Ok (drop_packet s)
  else
    let! (o, s) := echo_buffer hlen p s in
    match o with
    | None => Ok (drop_packet s)
    | Some q =>
        let! q := echo_reply hlen (iph_src iphdr) (iph_dest iphdr) q in
        let! (_, s) := ip_output_if q (iph_dest iphdr) None ICMP_TTL 0 IP_PROTO_ICMP inp s in
        Ok (drop_packet s)
    end.

(** [p] is at the IP header. *)
Definition icmp_input (iphdr : ip_hdr) inp p s : res (inet A) :=
  let! o := nb_header (- (iph_hl iphdr * 4)) p in
  match o with
  | None => Ok (drop_packet s)
  | Some p =>
      if nb_tot_len p <? 4 then Ok (drop_packet s)
      else
        let! type := nb_u8 0 p in
        if type =? ICMP_ECHO then icmp_echo iphdr inp p s
        else Ok (drop_packet s)
  end.
End Icmp.
