(* ===== verification/Udp.v ===== *)
(** * UDP (src/src/lwip/core/udp.c)

    The control blocks are a table by address, [udp_pcbs] is the list. An access
    to a block that is not in the table fails with [BadAccess]. [udp_input] ends
    with the callback; what that does is not part of the model, it is recorded
    in the log. *)
From S2P Require Import Prelude ByteOrder IpAddr Checksum Ip Tcp TcpOut TcpIn TcpWorld Etharp Netif IpFrag Nbuf Inet Icmp.

Definition UDP_LOCAL_PORT_RANGE_START : Z := 0xc000.
Definition UDP_LOCAL_PORT_RANGE_END : Z := 0xffff.
Definition MEMP_NUM_UDP_PCB : Z := 4.
Definition UDP_TTL : Z := 255.
Definition UDP_HLEN : Z := 8.
Definition UDP_FLAGS_NOCHKSUM : Z := 0x01.
Definition UDP_FLAGS_CONNECTED : Z := 0x04.

Section Udp.
Context {A : Type}.
Implicit Types (s : inet A) (p : nbuf) (id : addr) (inp : nat).

(** ** Access *)
Definition get_udp s id : res udp_pcb := of_option BadAccess (udp_tbl s !! id).
Definition put_udp id (u : udp_pcb) s : inet A := s <| udp_tbl := <[id := u]> (udp_tbl s) |>.
Definition in_udp_list s id : bool := bool_decide (id ∈ udp_pcbs s).

(** ** Ports *)

(** Does a block of the list have the port? *)
Fixpoint port_used (tbl : gmap addr udp_pcb) (l : list addr) (port : Z) : res bool :=
  match l with
  | [] => Ok false
  | id :: l' =>
      let! u := of_option BadAccess (tbl !! id) in
      if up_local_port u =? port then Ok true else port_used tbl l' port
  end.
(** [udp_new_port]: the new [udp_port] and the port, or 0. [n] counts the ports
    that were in use. *)
Definition next_port (port : Z) : Z := if port =? UDP_LOCAL_PORT_RANGE_END then UDP_LOCAL_PORT_RANGE_START else u16 (port + 1).
Fixpoint udp_new_port_loop (fuel : nat) s (n port : Z) : res (Z * Z) :=
  match fuel with
  | O => Err OutOfFuel
  | S fuel =>
      let port := next_port port in
      let! used := port_used (udp_tbl s) (udp_pcbs s) port in
      if used : bool then
        let n := u16 (n + 1) in
        if UDP_LOCAL_PORT_RANGE_END - UDP_LOCAL_PORT_RANGE_START <? n then Ok (port, 0)
        else udp_new_port_loop fuel s n port
      else Ok (port, port)
  end.
Definition udp_new_port s : res (Z * inet A) :=
  let! (port, r) := udp_new_port_loop (S (Z.to_nat (UDP_LOCAL_PORT_RANGE_END - UDP_LOCAL_PORT_RANGE_START))) s 0 (udp_port s) in
  Ok (r, s <| udp_port := port |>).

(** ** Bind, connect *)

(** The loop of [udp_bind]: the result is [rebind], or [None] for ERR_USE. *)
Fixpoint udp_bind_loop (tbl : gmap addr udp_pcb) (l : list addr) id (so_options ipaddr port : Z) (rebind : bool) : res (option bool) :=
  match l with
  | [] => Ok (Some rebind)
  | ipcb :: l' =>
      if bool_decide (id = ipcb) then
        assert! negb rebind in
        udp_bind_loop tbl l' id so_options ipaddr port true
      else
        let! u := of_option BadAccess (tbl !! ipcb) in
        if negb (has_flag so_options SOF_REUSEADDR) && negb (has_flag (up_so_options u) SOF_REUSEADDR)
           && (up_local_port u =? port)
           && ((up_local_ip u =? IPADDR_ANY) || (ipaddr =? IPADDR_ANY) || (up_local_ip u =? ipaddr)) then Ok None
        else udp_bind_loop tbl l' id so_options ipaddr port rebind
  end.
Definition udp_bind id (ipaddr port : Z) s : res (err_t * inet A) :=
  let! u := get_udp s id in
  let! r := udp_bind_loop (udp_tbl s) (udp_pcbs s) id (up_so_options u) ipaddr port false in
  match r with
  | None => Ok (ERR_USE, s)
  | Some rebind =>
      let s := put_udp id (u <| up_local_ip := ipaddr |>) s in
      let! (port, s) := if port =? 0 then udp_new_port s else Ok (port, s) in
      if port =? 0 then Ok (ERR_USE, s)
      else
        let s := put_udp id (u <| up_local_ip := ipaddr |> <| up_local_port := port |>) s in
        Ok (ERR_OK, if rebind then s else s <| udp_pcbs := id :: udp_pcbs s |>)
  end.
(** A block that has no port is bound to one. *)
Definition udp_ensure_port id s : res (err_t * inet A) :=
  let! u := get_udp s id in
  if up_local_port u =? 0 then udp_bind id (up_local_ip u) (up_local_port u) s else Ok (ERR_OK, s).
Definition udp_connect id (ipaddr port : Z) s : res (err_t * inet A) :=
  let! (err, s) := udp_ensure_port id s in
  if negb (err =? ERR_OK) then Ok (err, s)
  else
    let! u := get_udp s id in
    let s := put_udp id (u <| up_remote_ip := ipaddr |> <| up_remote_port := port |>
                           <| up_flags := Z.lor (up_flags u) UDP_FLAGS_CONNECTED |>) s in
    Ok (ERR_OK, if in_udp_list s id then s else s <| udp_pcbs := id :: udp_pcbs s |>).
Definition udp_disconnect id s : res (inet A) :=
  let! u := get_udp s id in
  Ok (put_udp id (u <| up_remote_ip := IPADDR_ANY |> <| up_remote_port := 0 |>
                    <| up_flags := clear_flag (up_flags u) UDP_FLAGS_CONNECTED |>) s).
Definition udp_recv id (recv : bool) s : res (inet A) :=
  let! u := get_udp s id in Ok (put_udp id (u <| up_recv := recv |>) s).

(** [ip_set_option] and [ip_reset_option] *)
Definition udp_option id (opt : Z) (on : bool) s : res (inet A) :=
  let! u := get_udp s id in
  Ok (put_udp id (u <| up_so_options := if on then Z.lor (up_so_options u) opt else clear_flag (up_so_options u) opt |>) s).

(** ** Creation and removal *)
Definition udp_fresh s : addr := Pos.succ (map_fold (fun k _ m => Pos.max k m) 1%positive (udp_tbl s)).
Definition udp_new s : option addr * inet A :=
  if Z.of_nat (size (udp_tbl s)) <? MEMP_NUM_UDP_PCB then
    let id := udp_fresh s in (Some id, put_udp id (mk_udp 0 0 0 0 UDP_TTL 0 0 0 false) s)
  else (None, s).
Definition udp_remove id s : res (inet A) :=
  let! _ := get_udp s id in
  Ok (s <| udp_pcbs := unlink id (udp_pcbs s) |> <| udp_tbl := delete id (udp_tbl s) |>).

(** ** Input *)

(** The datagram is for the block's local address and port. *)
Definition udp_local_match (u : udp_pcb) (n : netif) (cur_dest dest : Z) (broadcast : bool) : bool :=
  (up_local_port u =? dest) &&
  ((negb broadcast && (up_local_ip u =? IPADDR_ANY)) || (up_local_ip u =? cur_dest) ||
   (broadcast && ((up_local_ip u =? IPADDR_ANY) || ip_addr_netcmp (up_local_ip u) cur_dest (nif_netmask n)))).
Definition udp_remote_match (u : udp_pcb) (cur_src src : Z) : bool :=
  (up_remote_port u =? src) && ((up_remote_ip u =? IPADDR_ANY) || (up_remote_ip u =? cur_src)).
(** The loop over the blocks: the first that matches fully, and the first that
    matches locally and is not connected. *)
Fixpoint udp_match (tbl : gmap addr udp_pcb) (l : list addr) (n : netif) (cur_src cur_dest src dest : Z) (broadcast : bool)
    (uncon : option addr) : res (option addr * option addr) :=
  match l with
  | [] => Ok (None, uncon)
  | id :: l' =>
      let! u := of_option BadAccess (tbl !! id) in
      let local := udp_local_match u n cur_dest dest broadcast in
      let uncon := if local && bool_decide (uncon = None) && negb (has_flag (up_flags u) UDP_FLAGS_CONNECTED)
                   then Some id else uncon in
      if local && udp_remote_match u cur_src src then Ok (Some id, uncon)
      else udp_match tbl l' n cur_src cur_dest src dest broadcast uncon
  end.
(** The block that gets the datagram; a full match moves to the front. *)
Definition udp_demux (n : netif) (cur_src cur_dest src dest : Z) (broadcast : bool) s : res (option addr * inet A) :=
  let! (full, uncon) := udp_match (udp_tbl s) (udp_pcbs s) n cur_src cur_dest src dest broadcast None in
  Ok (match full with
      | Some id => (Some id, s <| udp_pcbs := id :: unlink id (udp_pcbs s) |>)
      | None => (uncon, s)
      end).

(** What happens behind the checksum; [p] is at the UDP header. *)
Definition udp_deliver (pcb : option addr) (iphdr : ip_hdr) (src : Z) (broadcast : bool) p s : res (inet A) :=
  let! o := nb_header (- UDP_HLEN) p in
  match o with
  | None => Err AssertFailed
  | Some p =>
      match pcb with
      | Some id =>
          let! u := get_udp s id in
          Ok (if up_recv u then log (ToUdp id (nb_bytes p) (iph_src iphdr) src) s else drop_packet s)
      | None =>
          let! s :=
            if negb broadcast && negb (ip_addr_ismulticast (iph_dest iphdr)) then
              let! o := nb_header (iph_hl iphdr * 4 + UDP_HLEN) p in
              match o with None => Err AssertFailed | Some p => icmp_dest_unreach p ICMP_DUR_PORT s end
            else Ok s in
          Ok (drop_packet s)
      end
  end.

(** [p] is at the IP header. *)
Definition udp_input (iphdr : ip_hdr) inp p s : res (inet A) :=
  let hlen := iph_hl iphdr * 4 in
  if nb_tot_len p <? hlen + UDP_HLEN then Ok (drop_packet s)
  else
    let! o := nb_header (- hlen) p in
    match o with
    | None => Ok (drop_packet s)
    | Some p =>
        let! n := inet_if inp s in
        let broadcast := ip4_addr_isbroadcast (iph_dest iphdr) n in
        let! src := nb_u16 0 p in
        let! dest := nb_u16 2 p in
        let! (pcb, s) := udp_demux n (iph_src iphdr) (iph_dest iphdr) src dest broadcast s in
        if bool_decide (is_Some pcb) || (nif_ip_addr n =? iph_dest iphdr) then
          let! chksum := nb_u16 6 p in
          if negb (chksum =? 0) && negb (inet_chksum_pseudo (nb_segs p) (iph_src iphdr) (iph_dest iphdr) IP_PROTO_UDP (nb_tot_len p) =? 0)
          then Ok (drop_packet s)
          else udp_deliver pcb iphdr src broadcast p s
        else Ok (drop_packet s)
    end.

(** ** Output *)

(** Room for the UDP header: in the packet or in a pbuf chained in front of it.
    [None] when that cannot be allocated. *)
Definition udp_add_header p s : res (option nbuf * inet A) :=
  let! o := nb_header UDP_HLEN p in
  match o with
  | Some q => Ok (Some q, s)
  | None =>
      let '(ok, s) := pbuf_alloc_ok s in
      if ok then
        let q := nb_new (link_room + ip_room) (repeat 0 (Z.to_nat UDP_HLEN)) in
        Ok (Some (if nb_tot_len p =? 0 then q else q <| nb_rest := nb_pbufs p |>), s)
      else Ok (None, s)
  end.
Definition udp_hdr_bytes (src dest len chksum : Z) : list Z :=
  store_le16 (lwip_htons src) ++ store_le16 (lwip_htons dest) ++ store_le16 (lwip_htons len) ++ store_le16 chksum.
(** The header with its checksum; 0 is sent as 0xffff. *)
Definition udp_fill_header (u : udp_pcb) (dst_port src_ip dst_ip : Z) p : res nbuf :=
  let len := u16 (nb_tot_len p) in
  let! q := nb_write 0 (udp_hdr_bytes (up_local_port u) dst_port len 0) p in
  if has_flag (up_flags u) UDP_FLAGS_NOCHKSUM then Ok q
  else
    let c := inet_chksum_pseudo (nb_segs q) src_ip dst_ip IP_PROTO_UDP len in
    nb_write 6 (store_le16 (if c =? 0 then 0xffff else c)) q.

Definition udp_sendto_if id p (dst_ip dst_port : Z) (nif : nat) s : res (err_t * inet A) :=
  let! (err, s) := udp_ensure_port id s in
  if negb (err =? ERR_OK) then Ok (err, s)
  else
    let! u := get_udp s id in
    let! (o, s) := udp_add_header p s in
    match o with
    | None => Ok (ERR_MEM, s)
    | Some q =>
        assert! UDP_HLEN <=? nb_len q in
        let! n := inet_if nif s in
        if negb (up_local_ip u =? IPADDR_ANY) && negb (up_local_ip u =? nif_ip_addr n) then Ok (ERR_VAL, s)
        else
          let src_ip := if up_local_ip u =? IPADDR_ANY then nif_ip_addr n else up_local_ip u in
          let! q := udp_fill_header u dst_port src_ip dst_ip q in
          ip_output_if q src_ip (Some dst_ip) (up_ttl u) (up_tos u) IP_PROTO_UDP nif s
    end.
Definition udp_sendto id p (dst_ip dst_port : Z) s : res (err_t * inet A) :=
  match route s dst_ip with
  | None => Ok (ERR_RTE, s)
  | Some (nif, _) => udp_sendto_if id p dst_ip dst_port nif s
  end.
Definition udp_send id p s : res (err_t * inet A) :=
  let! u := get_udp s id in udp_sendto id p (up_remote_ip u) (up_remote_port u) s.
End Udp.
