(* ===== verification/Raw.v ===== *)
(** * Raw IP sockets (src/src/lwip/core/raw.c)

    [eats] is what the recv callbacks return for a block, the bytes of a packet
    and its source; they do not call back into raw.c. *)
From S2P Require Import Prelude ByteOrder IpAddr Checksum Ip Tcp TcpOut TcpIn TcpWorld Etharp Netif IpFrag Nbuf Inet.

Definition MEMP_NUM_RAW_PCB : Z := 64.
Definition RAW_TTL : Z := 255.

Section Raw.
Context {A : Type} (eats : addr -> list Z -> Z -> bool).
Implicit Types (s : inet A) (p : nbuf) (id : addr).

Definition get_raw s id : res raw_pcb := of_option BadAccess (raw_tbl s !! id).
Definition put_raw id (r : raw_pcb) s : inet A := s <| raw_tbl := <[id := r]> (raw_tbl s) |>.

(** ** Input *)
Definition raw_match (r : raw_pcb) (proto cur_dest : Z) : bool :=
  (rp_protocol r =? proto) && ((rp_local_ip r =? IPADDR_ANY) || (rp_local_ip r =? cur_dest)).
(** The loop: every matching block with a callback sees the packet until one
    eats it: that one. *)
Fixpoint raw_loop (l : list addr) (proto cur_src cur_dest : Z) p s : res (option addr * inet A) :=
  match l with
  | [] => Ok (None, s)
  | id :: l' =>
      let! r := get_raw s id in
      if raw_match r proto cur_dest && rp_recv r then
        let eaten := eats id (nb_bytes p) cur_src in
        let s := log (ToRaw id (nb_bytes p) cur_src eaten) s in
        if eaten then Ok (Some id, s) else raw_loop l' proto cur_src cur_dest p s
      else raw_loop l' proto cur_src cur_dest p s
  end.
(** The result: is the packet eaten? *)
Definition raw_input (iphdr : ip_hdr) p s : res (bool * inet A) :=
  let! (o, s) := raw_loop (raw_pcbs s) (iph_proto iphdr) (iph_src iphdr) (iph_dest iphdr) p s in
  Ok (match o with
      | Some id => (true, s <| raw_pcbs := id :: unlink id (raw_pcbs s) |>)
      | None => (false, s)
      end).

(** ** The interface for applications *)
Definition raw_bind id (ipaddr : Z) s : res (err_t * inet A) :=
  let! r := get_raw s id in Ok (ERR_OK, put_raw id (r <| rp_local_ip := ipaddr |>) s).
Definition raw_connect id (ipaddr : Z) s : res (err_t * inet A) :=
  let! r := get_raw s id in Ok (ERR_OK, put_raw id (r <| rp_remote_ip := ipaddr |>) s).
Definition raw_recv id (recv : bool) s : res (inet A) :=
  let! r := get_raw s id in Ok (put_raw id (r <| rp_recv := recv |>) s).
Definition raw_fresh s : addr := Pos.succ (map_fold (fun k _ m => Pos.max k m) 1%positive (raw_tbl s)).
Definition raw_new (proto : Z) s : option addr * inet A :=
  if Z.of_nat (size (raw_tbl s)) <? MEMP_NUM_RAW_PCB then
    let id := raw_fresh s in
    (Some id, (put_raw id (mk_raw 0 0 0 0 RAW_TTL proto false) s) <| raw_pcbs := id :: raw_pcbs s |>)
  else (None, s).
Definition raw_remove id s : res (inet A) :=
  let! _ := get_raw s id in
  Ok (s <| raw_pcbs := unlink id (raw_pcbs s) |> <| raw_tbl := delete id (raw_tbl s) |>).

(** ** Output *)

(** Room for the IP header: in the packet, or an empty pbuf chained in front. *)
Definition raw_add_header p s : res (option nbuf * inet A) :=
  let! o := nb_header IP_HLEN p in
  match o with
  | Some q =>
      let! o := nb_header (- IP_HLEN) q in
      match o with None => Err AssertFailed | Some q => Ok (Some q, s) end
  | None =>
      let '(ok, s) := pbuf_alloc_ok s in
      if ok then
        let q := nb_new (link_room + ip_room) [] in
        Ok (Some (if nb_tot_len p =? 0 then q else q <| nb_rest := nb_pbufs p |>), s)
      else Ok (None, s)
  end.
Definition raw_sendto id p (ipaddr : Z) s : res (err_t * inet A) :=
  let! r := get_raw s id in
  let! (o, s) := raw_add_header p s in
  match o with
  | None => Ok (ERR_MEM, s)
  | Some q =>
      match route s ipaddr with
      | None => Ok (ERR_RTE, s)
      | Some (nif, n) =>
          let src_ip := if rp_local_ip r =? IPADDR_ANY then nif_ip_addr n else rp_local_ip r in
          ip_output_if q src_ip (Some ipaddr) (rp_ttl r) (rp_tos r) (rp_protocol r) nif s
      end
  end.
Definition raw_send id p s : res (err_t * inet A) :=
  let! r := get_raw s id in raw_sendto id p (rp_remote_ip r) s.
End Raw.
