(* ===== verification/TcpWire.v ===== *)
(** * TCP packets as bytes (tcp_out.c: tcp_output_segment; tcp_in.c: tcp_input)

    The TCP files describe packets by their fields. Here are their bytes: what
    [tcp_output_segment] and its fellows give to [ip_output], and how
    [tcp_input] reads the segment at hand. TCP's packets of one call are sent
    after it; TCP ignores what [ip_output] returns. *)
From S2P Require Import Prelude ByteOrder IpAddr Checksum Ip Tcp TcpOut TcpIn TcpWorld TcpProcess Etharp Netif IpFrag Nbuf Inet.

(** ** Output *)
Definition TCP_BUILD_MSS_OPTION (mss : Z) : Z := lwip_htonl (Z.lor 0x02040000 (Z.land mss 0xFFFF)).
Definition tcp_opt_bytes (k : tcp_packet) : list Z :=
  match Tcp.pk_mss_opt k with Some mss => store_le32 (TCP_BUILD_MSS_OPTION mss) | None => [] end.
Definition tcp_hdr_bytes (k : tcp_packet) (chksum : Z) : list Z :=
  store_le16 (lwip_htons (Tcp.pk_src k)) ++ store_le16 (lwip_htons (Tcp.pk_dest k)) ++
  store_le32 (lwip_htonl (Tcp.pk_seqno k)) ++ store_le32 (lwip_htonl (Tcp.pk_ackno k)) ++
  store_le16 (lwip_htons (u16 (Z.lor (Z.shiftl (Tcp.pk_hdrlen k) 12) (Tcp.pk_flags k)))) ++
  store_le16 (lwip_htons (Tcp.pk_wnd k)) ++ store_le16 chksum ++ [0; 0] ++ tcp_opt_bytes k.
(** The packet with its checksum. *)
Definition tcp_bytes (k : tcp_packet) : list Z :=
  let bs := tcp_hdr_bytes k 0 ++ Tcp.pk_data k in
  tcp_hdr_bytes k (inet_chksum_pseudo [(0, bs)] (Tcp.pk_src_ip k) (Tcp.pk_dst_ip k) IP_PROTO_TCP (zlen bs)) ++ Tcp.pk_data k.
Definition tcp_nbuf (k : tcp_packet) : nbuf := nb_new (link_room + ip_room) (tcp_bytes k).

(** ** Input *)

(** The head of [tcp_input] for a packet at its TCP header: [None] when it is
    dropped. *)
Definition tcp_parse (n : netif) (cur_src cur_dest : Z) (p : nbuf) : res (option tcp_in) :=
  if nb_tot_len p <? TCP_HLEN then Ok None
  else if ip4_addr_isbroadcast cur_dest n || ip_addr_ismulticast cur_dest then Ok None
  else if negb (inet_chksum_pseudo (nb_segs p) cur_src cur_dest IP_PROTO_TCP (nb_tot_len p) =? 0) then Ok None
  else
    let! hdrlen_flags := nb_u16 12 p in
    let hdrlen := Z.shiftr hdrlen_flags 12 in
    let! o := nb_header (- (hdrlen * 4)) p in
    match o with
    | None => Ok None
    | Some d =>
        let! src := nb_u16 0 p in
        let! dest := nb_u16 2 p in
        let! seqno := nb_u32 4 p in
        let! ackno := nb_u32 8 p in
        let! wnd := nb_u16 14 p in
        let flags := Z.land hdrlen_flags TCP_FLAGS in
        let len := nb_tot_len d in
        Ok (Some (mk_in cur_src cur_dest src dest wnd hdrlen (drop (Z.to_nat TCP_HLEN) (nb_first p)) flags seqno ackno
              (u16 (len + (if has_flag flags (Z.lor TCP_FIN TCP_SYN) then 1 else 0)))
              (mk_seg seqno flags len 0 (nb_bytes d) (zlen (nb_pbufs d))) true None 0))
    end.

Section Wire.
Context {A : Type} (cb : tcp_callbacks A).
Implicit Types (s : inet A) (p : nbuf) (inp : nat).

(** TCP looks at the interfaces as they are now. *)
Definition tcp_sync s : tcp_world A :=
  let w := sk_tcp (in_stack s) in
  let e := w_env w in
  w <| w_env := mk_env (tcp_ticks e) (map snd (if_list s)) (snd <$> if_default s) (is_input_pcb e) (Tcp.allocs e) [] |>.
Fixpoint tcp_send_packets (l : list tcp_packet) s : res (inet A) :=
  match l with
  | [] => Ok s
  | k :: l' =>
      let! (_, s) := ip_output (tcp_nbuf k) (Tcp.pk_src_ip k) (Tcp.pk_dst_ip k) (Tcp.pk_ttl k) (Tcp.pk_tos k) IP_PROTO_TCP s in
      tcp_send_packets l' s
  end.
(** A call of TCP, and its packets. *)
Definition run_tcp (f : tcp_world A -> res (tcp_world A)) s : res (inet A) :=
  let! w := f (tcp_sync s) in
  tcp_send_packets (outs (w_env w)) (s <| in_stack := (in_stack s) <| sk_tcp := w <| w_env := (w_env w) <| outs := [] |> |> |> |>).

(** [p] is at the IP header. *)
Definition tcp_input_packet (iphdr : ip_hdr) inp p s : res (inet A) :=
  let! o := nb_header (- (iph_hl iphdr * 4)) p in
  match o with
  | None => Ok (drop_packet s)
  | Some p =>
      let! n := inet_if inp s in
      let! o := tcp_parse n (iph_src iphdr) (iph_dest iphdr) p in
      match o with
      | None => Ok (drop_packet s)
      | Some i => run_tcp (tcp_input cb i) (log ToTcp s)
      end
  end.
End Wire.
