(* ===== verification/IpInput.v ===== *)
(** * IP input (src/src/lwip/core/ipv4/ip.c: ip_input)

    A packet from an interface: the checks of the header, the interface it is
    for, reassembly, and the protocols above. The packet the reassembly
    returns is one pbuf in the model, with the room of a frame in front. *)
From S2P Require Import Prelude ByteOrder IpAddr Checksum Ip Tcp TcpOut TcpIn TcpWorld TcpProcess Etharp Netif IpFrag Nbuf Inet Icmp Udp Raw TcpWire.

Section IpInput.
Context {A : Type} (cb : tcp_callbacks A) (eats : addr -> list Z -> Z -> bool).
Implicit Types (s : inet A) (p : nbuf) (inp id : nat).

(** ** Is the packet for us? *)

(** The test for one interface. *)
Definition accepts (x : iface) (dest : Z) : bool :=
  let n := if_netif x in
  netif_is_up n && negb (nif_ip_addr n =? IPADDR_ANY) &&
  ((dest =? nif_ip_addr n) || ip4_addr_isbroadcast dest n ||
   match if_autoip x with Some a => dest =? llipaddr a | None => false end).
(** The walk: first [inp], then the list without it. *)
Fixpoint accept_loop (ifs : gmap nat iface) (l : list nat) inp (dest : Z) : res (option nat) :=
  match l with
  | [] => Ok None
  | id :: l' =>
      if bool_decide (id = inp) then accept_loop ifs l' inp dest
      else
        let! x := of_option BadAccess (ifs !! id) in
        if accepts x dest then Ok (Some id) else accept_loop ifs l' inp dest
  end.
Definition find_accepting inp (dest : Z) s : res (option nat) :=
  let! x := get_if inp (in_stack s) in
  if accepts x dest then Ok (Some inp) else accept_loop (sk_ifaces (in_stack s)) (Netif.netif_list (in_stack s)) inp dest.

(** ** The protocols *)

(** Nobody knows the protocol; [p] is at the IP header. *)
Definition unknown_proto (cur_dest : Z) inp p s : res (inet A) :=
  let! n := inet_if inp s in
  let! s :=
    if negb (ip4_addr_isbroadcast cur_dest n) && negb (ip_addr_ismulticast cur_dest) then icmp_dest_unreach p ICMP_DUR_PROTO s
    else Ok s in
  Ok (drop_packet s).
Definition ip_deliver (iphdr : ip_hdr) inp p s : res (inet A) :=
  let! (eaten, s) := raw_input eats iphdr p s in
  if eaten : bool then Ok s
  else if iph_proto iphdr =? IP_PROTO_UDP then udp_input iphdr inp p s
  else if iph_proto iphdr =? IP_PROTO_TCP then tcp_input_packet cb iphdr inp p s
  else if iph_proto iphdr =? IP_PROTO_ICMP then icmp_input iphdr inp p s
  else unknown_proto (iph_dest iphdr) inp p s.

(** ** ip_input *)

(** The packet of a complete datagram. *)
Definition reassembled (k : ip_hdr * list Z) : nbuf :=
  nb_new link_room (ip_hdr_bytes k.1 (ip_hdr_chksum k.1) ++ k.2).
(** The bytes behind the header of a fragment. *)
Definition frag_data (h : ip_hdr) p : list Z := drop (Z.to_nat (iph_hl h * 4)) (nb_bytes p).
(** The messages of the reassembly for datagrams it gives up. *)
Fixpoint send_time_exceeded (l : list (ip_hdr * list Z)) s : res (inet A) :=
  match l with
  | [] => Ok s
  | k :: l' => let! s := icmp_time_exceeded (reassembled k) ICMP_TE_FRAG s in send_time_exceeded l' s
  end.
Definition ip_reassemble (h : ip_hdr) p s : res (option (ip_hdr * nbuf) * inet A) :=
  let! (o, r) := ip_reass h (frag_data h p) (zlen (nb_pbufs p)) (in_reass s) in
  let! s := send_time_exceeded (te_sent r) (s <| in_reass := r <| te_sent := [] |> |>) in
  Ok (match o with
      | Some (h, data, _) => (Some (h, reassembled (h, data)), s)
      | None => (None, log ToReass s)
      end).

(** The tests of the header: the header, or [None] when the packet is dropped. *)
Definition ip_check p : res (option ip_hdr) :=
  let! v_hl := nb_u8 0 p in
  if negb (Z.shiftr v_hl 4 =? 4) then Ok None
  else
    let hlen := Z.land v_hl 0x0f * 4 in
    let! len := nb_u16 2 p in
    if (nb_len p <? hlen) || (nb_tot_len p <? len) then Ok None
    else
      let! hdr := nb_read 0 hlen p in
      if negb (inet_chksum 0 hdr =? 0) then Ok None
      else let! h := nb_iphdr p in Ok (Some h).

Definition ip_input inp p s : res (inet A) :=
  let! o := ip_check p in
  match o with
  | None => Ok (drop_packet s)
  | Some h =>
      let! p := nb_realloc (iph_len h) p in
      let! netif := find_accepting inp (iph_dest h) s in
      let! n := inet_if inp s in
      if ip4_addr_isbroadcast (iph_src h) n || ip_addr_ismulticast (iph_src h) then Ok (drop_packet s)
      else if bool_decide (netif = None) then Ok (drop_packet s)
      else
        let! (o, s) :=
          if has_flag (iph_off h) (Z.lor IP_OFFMASK IP_MF) then ip_reassemble h p s else Ok (Some (h, p), s) in
        match o with
        | None => Ok s
        | Some (h, p) => ip_deliver h inp p s
        end
  end.
End IpInput.
