(* ===== verification/InetDemo.v ===== *)
(** * IP input: concrete packets

    A host 10.0.0.1 with one interface that knows the Ethernet address of
    10.0.0.2, and packets from there, evaluated by the kernel. Some make the
    stack abort. *)
From S2P Require Import Prelude ByteOrder IpAddr Checksum Ip Tcp TcpOut TcpIn TcpWorld TcpProcess TcpScenarios Etharp Netif IpFrag Nbuf Inet Icmp Udp Raw TcpWire IpInput.

Definition peer_mac : list Z := [2; 0; 0; 0; 0; 2].
Definition lan_if : iface := mk_iface (mk_netif here 0x00ffffff 0 1500 [2; 0; 0; 0; 0; 1] 0x33 (113, 117) 0) None.
Definition lan_arp : list etharp_entry :=
  mk_entry None peer (Some 0%nat) peer_mac ETHARP_STATE_STABLE 0 ::
  replicate 9 (mk_entry None 0 None [] ETHARP_STATE_EMPTY 0).
Definition inet_init : inet unit :=
  mk_inet (mk_stack {[0%nat := lan_if]} [0%nat] (Some 0%nat) 1 (mk_arp_world lan_arp 0 [] [] []) world_init []) 77
    (mk_rstate [] 0 []) ∅ [] UDP_LOCAL_PORT_RANGE_START ∅ [] [] [].
Definition no_raw : positive -> list Z -> Z -> bool := fun _ _ _ => false.

(** A packet as the driver hands it on: behind an Ethernet header. *)
Definition from_peer_len (len proto : Z) (data : list Z) : nbuf :=
  let h := mk_iphdr 5 0 len 5 0 64 proto peer here in
  mk_nbuf (repeat 0 14) (ip_hdr_bytes h (ip_hdr_chksum h) ++ data) [] true false 0.
Definition from_peer (proto : Z) (data : list Z) : nbuf := from_peer_len (20 + zlen data) proto data.
Definition input (p : nbuf) (s : inet unit) : res (inet unit) := ip_input quiet_app no_raw 0 p s.
(** What was sent since, and what became of the packets. *)
Definition outcome (r : res (inet unit)) : res (list (list Z) * list packet_event) :=
  let! s := r in
  Ok (omap (fun f => match fr_payload f.2 with IpPacket bs => Some bs | ArpPacket _ _ => None end) (wire (sk_arp (in_stack s))), in_log s).

Definition ping : list Z := icmp_message ICMP_ECHO 0 [1; 2; 3; 4; 5].
Example ping_answered : outcome (input (from_peer IP_PROTO_ICMP ping) inet_init) =
  Ok ([[69; 0; 0; 33; 0; 5; 0; 0; 255; 1; 167; 212; 10; 0; 0; 1; 10; 0; 0; 2] ++ icmp_message ICMP_ER 0 [1; 2; 3; 4; 5]], [Freed]).
Proof. vm_compute. reflexivity. Qed.

(** A SYN for a listening port is answered with a SYN and ACK that announces an
    MSS of 1024. *)
Definition syn_packet (hdrlen : Z) : tcp_packet := Tcp.mk_packet peer here 5000 80 1000 0 hdrlen TCP_SYN 8192 (Some 1460) [] 64 0.
Definition with_listener : res (inet unit) :=
  let! w := listening in Ok (inet_init <| in_stack := (in_stack inet_init) <| sk_tcp := w |> |>).
Example syn_answered : match (let! s := with_listener in outcome (input (from_peer IP_PROTO_TCP (tcp_bytes (syn_packet 6))) s)) with
  | Ok ([bs], [ToTcp]) => drop 20 bs = tcp_bytes (Tcp.mk_packet here peer 80 5000 6512 1001 6 (Z.lor TCP_SYN TCP_ACK) 4096 (Some 1024) [] 255 0)
  | _ => False
  end.
Proof. vm_compute. reflexivity. Qed.

(** The data offset of a segment says more than the packet has: pbuf_header
    fails its LWIP_ERROR, which aborts the process. No port need be open. *)
Example tcp_offset_aborts : input (from_peer IP_PROTO_TCP (tcp_bytes (syn_packet 9))) inet_init = Err AssertFailed.
Proof. vm_compute. reflexivity. Qed.
(** The same for a total length below the header length. *)
Example short_length_aborts : input (from_peer_len 10 IP_PROTO_ICMP ping) inet_init = Err AssertFailed.
Proof. vm_compute. reflexivity. Qed.
(** The ICMP message about a protocol nobody knows is copied from 28 bytes of a
    packet that has 24. *)
Example unreach_reads_behind : input (from_peer 99 [1; 2; 3; 4]) inet_init = Err BadAccess.
Proof. vm_compute. reflexivity. Qed.
