(* ===== verification/InetHdr.v ===== *)
(** * The IP header: what is sent is what is read

    The header that [ip_output_if] writes, its checksum, and [ip_check] of the
    receiver. *)
From S2P Require Import Prelude ByteOrder IpAddr Checksum Ip Tcp TcpOut TcpIn TcpWorld TcpProcess Etharp Netif IpFrag Nbuf Inet Icmp Udp Raw TcpWire IpInput.

(** ** Headers *)
Record hdr_ok (h : ip_hdr) : Prop := {
  ho_hl : iph_hl h = 5;
  ho_tos : is_u8 (iph_tos h);
  ho_len : is_u16 (iph_len h);
  ho_id : is_u16 (iph_id h);
  ho_off : is_u16 (iph_off h);
  ho_ttl : is_u8 (iph_ttl h);
  ho_proto : is_u8 (iph_proto h);
  ho_src : is_u32 (iph_src h);
  ho_dest : is_u32 (iph_dest h)
}.

Lemma store_le16_ok n : bytes_ok (store_le16 n).
Proof. unfold bytes_ok. repeat constructor; apply is_u8_u8. Qed.
Lemma bytes_ok_snoc2 a b l : is_u8 a -> is_u8 b -> bytes_ok l -> bytes_ok ([a; b] ++ l).
Proof. intros Ha Hb Hl. apply bytes_ok_cons. split; [done|]. by apply bytes_ok_cons. Qed.
#[export] Hint Resolve store_le16_ok store_le32_ok : lwip.
Lemma vhl_eq h : hdr_ok h -> IPH_VHL h = 0x45.
Proof. intros Hh. unfold IPH_VHL. by rewrite (ho_hl h Hh). Qed.
Lemma ip_hdr_bytes_ok h c : hdr_ok h -> bytes_ok (ip_hdr_bytes h c).
Proof.
  intros Hh. unfold ip_hdr_bytes. rewrite (vhl_eq h Hh). destruct Hh.
  apply bytes_ok_snoc2; [unfold is_u8; lia|done|].
  repeat (apply bytes_ok_app; split; [by auto with lwip|]).
  apply bytes_ok_snoc2; [done|done|]. repeat (apply bytes_ok_app; split; [by auto with lwip|]). auto with lwip.
Qed.
Lemma ip_hdr_bytes_len h c : zlen (ip_hdr_bytes h c) = 20.
Proof. done. Qed.

(** Reading what was written. *)
Ltac eval_bytes := lazy -[Z.shiftr Z.land Z.lor lwip_htons lwip_htonl u8 u16 u32 load_le16 load_le32 Z.leb Z.ltb Z.add Z.mul zlen].
Lemma nb_read_app off n p a rest : nb_first p = a ++ rest -> 0 <= off -> 0 <= n -> off + n <= zlen a -> nb_read off n p = Ok (slice off n a).
Proof.
  intros Hp H1 H2 H3. unfold nb_read, nb_len. rewrite Hp, zlen_app. pose proof (zlen_nonneg rest).
  rewrite (proj2 (Z.leb_le (off + n) (zlen a + zlen rest))) by lia. f_equal. unfold slice, zlen in *.
  rewrite drop_app_le by lia. by rewrite take_app_le by (rewrite length_drop; lia).
Qed.
Lemma nb_iphdr_bytes h c p rest : hdr_ok h -> nb_first p = ip_hdr_bytes h c ++ rest -> nb_iphdr p = Ok h.
Proof.
  intros Hh Hp. unfold nb_iphdr, nb_u8, nb_u16, nb_addr. destruct Hh as [H1 H2 H3 H4 H5 H6 H7 H8 H9].
  rewrite !(nb_read_app _ _ p _ rest Hp) by (rewrite ?ip_hdr_bytes_len; lia).
  destruct h as [hl tos len id off ttl proto src dest]. simpl in *. subst hl.
  unfold slice, ip_hdr_bytes, IPH_VHL. cbn -[Z.shiftr lwip_htons u8 load_le16 load_le32].
  unfold lwip_ntohs. rewrite !load_store16 by apply lwip_htons_range. rewrite !load_store32 by done. by rewrite !lwip_htons_invol.
Qed.

(** ** The checksum *)
Definition hdr_pre (h : ip_hdr) : list Z :=
  [IPH_VHL h; iph_tos h] ++ store_le16 (lwip_htons (iph_len h)) ++ store_le16 (lwip_htons (iph_id h)) ++
  store_le16 (lwip_htons (iph_off h)) ++ [iph_ttl h; iph_proto h].
Definition hdr_post (h : ip_hdr) : list Z := store_le32 (iph_src h) ++ store_le32 (iph_dest h).
Lemma ip_hdr_split h c : ip_hdr_bytes h c = hdr_pre h ++ store_le16 c ++ hdr_post h.
Proof. done. Qed.
Lemma hdr_parts_ok h : hdr_ok h -> bytes_ok (hdr_pre h) /\ bytes_ok (hdr_post h).
Proof.
  intros Hh. pose proof (ip_hdr_bytes_ok h 0 Hh) as H. rewrite ip_hdr_split in H.
  apply bytes_ok_app in H as [H1 [_ H2]%bytes_ok_app]. done.
Qed.
Lemma hdr_chksum_eq h : hdr_ok h -> ip_hdr_chksum h = not16 (norm (le_value (hdr_pre h ++ [0; 0] ++ hdr_post h))).
Proof.
  intros Hh. unfold ip_hdr_chksum, inet_chksum, LWIP_CHKSUM.
  rewrite lwip_standard_chksum2_eq; [done|by apply ip_hdr_bytes_ok|by rewrite ip_hdr_bytes_len].
Qed.
Lemma hdr_chksum_ok h q : hdr_ok h -> inet_chksum q (ip_hdr_bytes h (ip_hdr_chksum h)) = 0.
Proof.
  intros Hh. unfold inet_chksum, LWIP_CHKSUM. rewrite lwip_standard_chksum2_eq; [|by apply ip_hdr_bytes_ok|by rewrite ip_hdr_bytes_len].
  destruct (hdr_parts_ok h Hh) as [H1 H2]. rewrite hdr_chksum_eq, ip_hdr_split by done.
  by destruct (norm_chksum (hdr_pre h) (hdr_post h) H1 H2) as [-> _].
Qed.

(** [ip_output_if] sums up along the way what inet_chksum would compute. *)
Lemma inline_fold s : is_u32 s -> u16 (u32 (Z.shiftr (u32 (Z.shiftr s 16 + Z.land s 0xffff)) 16 + u32 (Z.shiftr s 16 + Z.land s 0xffff))) = norm s.
Proof.
  intros Hs. pose proof (fold_rep s Hs) as [Hrep Hle]. change (u32 (Z.shiftr s 16 + Z.land s 0xffff)) with (FOLD_U32T s).
  set (f := FOLD_U32T s) in *. assert (0 <= f) by apply Hrep. rewrite shr16.
  apply norm_unique; [|mlia]. transitivity f; [|done].
  split_and!; try mlia. exists (- (f / 65536)). mlia.
Qed.
(** The sum of the 16-bit words of a buffer. *)
Fixpoint word_sum (bs : list Z) : Z :=
  match bs with a :: b :: bs' => a + 256 * b + word_sum bs' | [a] => a | [] => 0 end.
Lemma word_sum_rep bs : bytes_ok bs -> rep (le_value bs) (word_sum bs).
Proof.
  induction bs as [| a |a b bs IH] using pair_ind; intros Hb.
  - by apply rep_refl.
  - apply bytes_ok_cons in Hb as [Ha _]. cbn. rewrite Z.add_0_r. apply rep_refl. unfold is_u8 in Ha. lia.
  - apply bytes_ok_cons in Hb as [Ha Hb]. apply bytes_ok_cons in Hb as [Hbb Hb]. cbn [le_value word_sum]. unfold is_u8 in *.
    replace (a + 256 * (b + 256 * le_value bs)) with (a + 256 * b + 65536 * le_value bs) by lia.
    apply rep_add; [apply rep_refl; lia|]. transitivity (le_value bs); [|by apply IH].
    apply rep_shift16. by apply le_value_nonneg.
Qed.
Lemma store16_sum n : is_u16 n -> u8 n + 256 * u8 (Z.shiftr n 8) = n.
Proof. intros. rewrite shr8. mlia. Qed.
Lemma store32_sum n : is_u32 n -> u8 n + 256 * u8 (Z.shiftr n 8) = Z.land n 0xffff /\
  u8 (Z.shiftr n 16) + 256 * u8 (Z.shiftr n 24) = Z.shiftr n 16.
Proof. intros. rewrite land_ffff, shr8, shr16, shr24. split; mlia. Qed.
Lemma make_u16 a b : is_u8 b -> LWIP_MAKE_U16 a b = b + 256 * a.
Proof. intros Hb. unfold LWIP_MAKE_U16. rewrite shl8. rewrite (lor_add 8) by (unfold is_u8 in *; lia). lia. Qed.
Lemma inline_chksum_eq h : hdr_ok h -> iph_off h = 0 -> inline_chksum h = ip_hdr_chksum h.
Proof.
  intros Hh Hoff. rewrite hdr_chksum_eq by done. pose proof (hdr_parts_ok h Hh) as [Hb1 Hb2].
  assert (Hb : bytes_ok (hdr_pre h ++ [0; 0] ++ hdr_post h)).
  { apply bytes_ok_app. split; [done|]. apply bytes_ok_snoc2; [unfold is_u8; lia..|done]. }
  rewrite (norm_ext _ _ (word_sum_rep _ Hb)).
  destruct (store32_sum (iph_src h)) as [Hs1 Hs2]; [apply Hh|]. destruct (store32_sum (iph_dest h)) as [Hd1 Hd2]; [apply Hh|].
  pose proof (store16_sum _ (lwip_htons_range (iph_len h))) as Hl. pose proof (store16_sum _ (lwip_htons_range (iph_id h))) as Hi.
  set (w := word_sum _).
  assert (Hw : w = LWIP_MAKE_U16 (iph_proto h) (iph_ttl h) + Z.land (iph_dest h) 0xffff + Z.shiftr (iph_dest h) 16 +
    LWIP_MAKE_U16 (iph_tos h) (IPH_VHL h) + lwip_htons (iph_len h) + lwip_htons (iph_id h) +
    Z.land (iph_src h) 0xffff + Z.shiftr (iph_src h) 16).
  { unfold w, hdr_pre, hdr_post. rewrite !make_u16 by (rewrite ?(vhl_eq h Hh); apply Hh || (unfold is_u8; lia)). rewrite Hoff.
    cbn -[Z.shiftr Z.land lwip_htons u8 IPH_VHL Z.mul]. change (u8 (lwip_htons 0)) with 0. change (u8 (Z.shiftr (lwip_htons 0) 8)) with 0. lia. }
  pose proof (lwip_htons_range (iph_len h)) as R1. pose proof (lwip_htons_range (iph_id h)) as R2.
  assert (R3 : forall n, is_u32 n -> 0 <= Z.land n 0xffff < 65536 /\ 0 <= Z.shiftr n 16 < 65536) by (intros n Hn; rewrite land_ffff, shr16; mlia).
  destruct (R3 (iph_src h)) as [R4 R5]; [apply Hh|]. destruct (R3 (iph_dest h)) as [R6 R7]; [apply Hh|].
  assert (R8 : 0 <= LWIP_MAKE_U16 (iph_proto h) (iph_ttl h) < 65536) by (rewrite make_u16 by apply Hh; destruct Hh; unfold is_u8 in *; lia).
  assert (R9 : 0 <= LWIP_MAKE_U16 (iph_tos h) (IPH_VHL h) < 65536)
    by (rewrite make_u16 by (rewrite (vhl_eq h Hh); unfold is_u8; lia); rewrite (vhl_eq h Hh); destruct Hh; unfold is_u8 in *; lia).
  unfold inline_chksum. cbv zeta. unfold is_u16 in *.
  repeat (rewrite u32_add_l; rewrite <- ?Z.add_assoc). rewrite !Z.add_assoc, <- Hw.
  rewrite (u32_id w) by lia.
  assert (Hnot : forall x, u16 (Z.lnot x) = not16 (u16 x)) by (intros x; unfold not16, Z.lnot, Z.pred; mlia).
  rewrite Hnot. f_equal. apply inline_fold. unfold is_u32. lia.
Qed.
Lemma ip_check_bytes h p rest : hdr_ok h -> nb_first p = ip_hdr_bytes h (ip_hdr_chksum h) ++ rest -> iph_len h <= nb_tot_len p ->
  ip_check p = Ok (Some h).
Proof.
  intros Hh Hp Hl. unfold ip_check. rewrite (nb_iphdr_bytes h _ p rest Hh Hp).
  assert (Hv : nb_u8 0 p = Ok 0x45).
  { unfold nb_u8. rewrite (nb_read_app 0 1 p _ rest Hp) by (rewrite ?ip_hdr_bytes_len; lia). unfold slice. cbn -[IPH_VHL]. by rewrite vhl_eq. }
  assert (Hlen : nb_u16 2 p = Ok (iph_len h)).
  { unfold nb_u16. rewrite (nb_read_app 2 2 p _ rest Hp) by (rewrite ?ip_hdr_bytes_len; lia).
    unfold slice. change (Z.to_nat 2) with 2%nat. cbn -[Z.shiftr lwip_htons u8 load_le16]. unfold lwip_ntohs. rewrite load_store16 by apply lwip_htons_range.
    rewrite lwip_htons_invol by apply Hh. done. }
  rewrite Hv. cbn [res_bind]. change (negb (Z.shiftr 69 4 =? 4)) with false. cbv iota. rewrite Hlen. cbn [res_bind].
  change (Z.land 69 15 * 4) with 20.
  assert (Hn : 20 <= nb_len p) by (unfold nb_len; rewrite Hp, zlen_app, ip_hdr_bytes_len; pose proof (zlen_nonneg rest); lia).
  rewrite (proj2 (Z.ltb_ge (nb_len p) 20)), (proj2 (Z.ltb_ge (nb_tot_len p) (iph_len h))) by lia. cbn [orb].
  rewrite (nb_read_app 0 20 p _ rest Hp) by (rewrite ?ip_hdr_bytes_len; lia). cbn [res_bind].
  rewrite slice_0. rewrite take_ge by (change (length (ip_hdr_bytes h (ip_hdr_chksum h))) with 20%nat; done).
  rewrite hdr_chksum_ok by done. done.
Qed.
