(* ===== verification/InetSafe.v ===== *)
(** * IP input: every packet is dealt with once

    What the output functions leave alone, what becomes of a packet that came
    in, and that packets for UDP, ICMP and unknown protocols make no assertion
    fail. *)
From S2P Require Import Prelude ByteOrder IpAddr Checksum Ip Tcp TcpOut TcpIn TcpWorld TcpProcess TcpScenarios Etharp EtharpTable Netif IpFrag Nbuf Inet Icmp Udp Raw TcpWire IpInput InetDemo InetHdr.

(** Takes a chain of binds apart, pairs included. *)
Ltac inv_pairs := repeat (inv_res; match goal with
  | x : (_ * _)%type |- _ => destruct x
  | H : (if ?b then _ else _) = Ok _ |- _ => destruct b eqn:?
  | H : match ?o with Some _ => _ | None => _ end = Ok _ |- _ => destruct o eqn:?
  | H : match ?o with Some _ => _ | None => _ end = (_, _) |- _ => destruct o eqn:?
  | H : Ok _ = Ok _ |- _ => injection H as H; subst
  | H : (_, _) = (_, _) |- _ => injection H as ? ?; subst
  end); inv_res.

Section Safe.
Context {A : Type} (cb : tcp_callbacks A) (eats : addr -> list Z -> Z -> bool).
Implicit Types (s : inet A) (p : nbuf) (inp : nat) (id : nat).

(** ** The log *)
Lemma alloc_log s ok s' : pbuf_alloc_ok s = (ok, s') -> in_log s' = in_log s.
Proof. unfold pbuf_alloc_ok. by destruct (in_allocs s); intros [= <- <-]. Qed.
Lemma netif_output_log id p dest s r s' : netif_output id p dest s = Ok (r, s') -> in_log s' = in_log s.
Proof.
  unfold netif_output. destruct (inet_if id s); [|done]. cbn [res_bind]. destruct (nb_header _ _); [|done]. cbn [res_bind].
  destruct (run_arp _ _) as [[e k]|]; [|done]. by intros [= <- <-].
Qed.
Lemma output_frags_log id dest l s s' : output_frags id dest l s = Ok s' -> in_log s' = in_log s.
Proof.
  revert s. induction l as [|[h d] l IH]; intros s; cbn [output_frags]; [by intros [= ->]|].
  destruct (netif_output id _ dest s) as [[r s1]|] eqn:E; [|done]. cbn [res_bind]. intros H.
  rewrite (IH _ H). by eapply netif_output_log.
Qed.
Lemma ip_send_log id p dest s r s' : ip_send id p dest s = Ok (r, s') -> in_log s' = in_log s.
Proof.
  unfold ip_send. destruct (inet_if id s); [|done]. cbn [res_bind]. destruct (_ && _); [|by apply netif_output_log].
  destruct (nb_iphdr p); [|done]. cbn [res_bind]. destruct (ip_frag _ _ _ _) as [[[e al] out]|]; [|done]. cbn [res_bind].
  destruct (output_frags _ _ _ _) as [s1|] eqn:E; [|done]. cbn [res_bind]. intros [= <- <-].
  by rewrite (output_frags_log _ _ _ _ _ E).
Qed.
Lemma ip_output_if_log p src dest ttl tos proto id s r s' : ip_output_if p src dest ttl tos proto id s = Ok (r, s') ->
  in_log s' = in_log s.
Proof.
  unfold ip_output_if. destruct dest as [dest|].
  - destruct (nb_header _ _) as [[q|]|]; cbn [res_bind]; [|by intros [= <- <-]|done].
    intros H. inv_res. match goal with H : ip_send _ _ _ _ = _ |- _ => by rewrite (ip_send_log _ _ _ _ _ _ H) end.
  - intros H. inv_res. by eapply ip_send_log.
Qed.
Lemma ip_output_log p src dest ttl tos proto s r s' : ip_output p src dest ttl tos proto s = Ok (r, s') -> in_log s' = in_log s.
Proof. unfold ip_output. destruct (route s dest) as [[id n]|]; [apply ip_output_if_log|by intros [= <- <-]]. Qed.
Lemma icmp_response_log p type code s s' : icmp_send_response p type code s = Ok s' -> in_log s' = in_log s.
Proof.
  unfold icmp_send_response. destruct (pbuf_alloc_ok s) as [ok s1] eqn:E. apply alloc_log in E.
  destruct ok; [|intros [= <-]; done]. intros H. inv_pairs.
  match goal with H : ip_output _ _ _ _ _ _ _ = _ |- _ => rewrite <- E; exact (ip_output_log _ _ _ _ _ _ _ _ _ H) end.
Qed.

(** ** What becomes of a packet *)
Definition watched (e : packet_event) : Prop := match e with ToRaw _ _ _ eaten => eaten = false | _ => False end.
Definition final (e : packet_event) : Prop := match e with ToRaw _ _ _ eaten => eaten = true | _ => True end.
(** The packet ended in exactly one place, after any number of raw blocks saw it. *)
Definition disposed (l l' : list packet_event) : Prop := exists k e, l' = l ++ k ++ [e] /\ Forall watched k /\ final e.
Lemma disposed_one l e : final e -> disposed l (l ++ [e]).
Proof. intros He. exists [], e. split_and!; [done|constructor|done]. Qed.
Lemma disposed_freed s s1 : in_log s1 = in_log s -> disposed (in_log s) (in_log (drop_packet s1)).
Proof. intros H. unfold drop_packet, log. cbn. rewrite H. by apply disposed_one. Qed.
Lemma disposed_log s s1 e : in_log s1 = in_log s -> final e -> disposed (in_log s) (in_log (log e s1)).
Proof. intros H He. unfold log. cbn. rewrite H. by apply disposed_one. Qed.
Lemma disposed_after l k l' : Forall watched k -> disposed (l ++ k) l' -> disposed l l'.
Proof.
  intros Hk (k' & e & -> & Hk' & He). exists (k ++ k'), e. rewrite <- !app_assoc. split_and!; [done|by apply Forall_app|done].
Qed.

Lemma echo_buffer_log hlen p s o s1 : echo_buffer hlen p s = Ok (o, s1) -> in_log s1 = in_log s.
Proof.
  unfold echo_buffer. destruct (pbuf_alloc_ok s) as [ok s2] eqn:E. apply alloc_log in E. intros H. by inv_pairs.
Qed.
Lemma icmp_echo_log h inp p s s' : icmp_echo h inp p s = Ok s' -> disposed (in_log s) (in_log s').
Proof.
  unfold icmp_echo. intros H. inv_pairs; try by apply disposed_freed.
  all: match goal with H : echo_buffer _ _ _ = Ok (_, ?s1) |- _ => apply echo_buffer_log in H end; try by apply disposed_freed.
  apply disposed_freed. match goal with H : ip_send _ _ _ _ = _ |- _ => apply ip_send_log in H; congruence end.
Qed.
Lemma icmp_input_log h inp p s s' : icmp_input h inp p s = Ok s' -> disposed (in_log s) (in_log s').
Proof.
  unfold icmp_input. intros H. inv_pairs; try by apply disposed_freed. by eapply icmp_echo_log.
Qed.
Lemma udp_demux_log n cs cd src dest b s r s' : udp_demux n cs cd src dest b s = Ok (r, s') -> in_log s' = in_log s.
Proof. unfold udp_demux. intros H. inv_pairs; done. Qed.
Lemma udp_deliver_log pcb h src b p s s' : udp_deliver pcb h src b p s = Ok s' -> disposed (in_log s) (in_log s').
Proof.
  unfold udp_deliver. intros H. inv_pairs; try by apply disposed_freed.
  - destruct (up_recv _); [by apply disposed_log|by apply disposed_freed].
  - apply disposed_freed. by eapply icmp_response_log.
Qed.
Lemma udp_input_log h inp p s s' : udp_input h inp p s = Ok s' -> disposed (in_log s) (in_log s').
Proof.
  unfold udp_input. destruct (_ <? _); [intros [= <-]; by apply disposed_freed|].
  destruct (nb_header _ _) as [[q|]|]; cbn [res_bind]; [|intros [= <-]; by apply disposed_freed|done].
  destruct (inet_if inp s) as [n|]; [|done]. cbn [res_bind]. destruct (nb_u16 0 q); [|done]. cbn [res_bind].
  destruct (nb_u16 2 q); [|done]. cbn [res_bind]. destruct (udp_demux _ _ _ _ _ _ s) as [[o s1]|] eqn:E; [|done]. cbn [res_bind].
  apply udp_demux_log in E. destruct (_ || _); [|intros [= <-]; by apply disposed_freed].
  destruct (nb_u16 6 q); [|done]. cbn [res_bind]. destruct (_ && _); [intros [= <-]; by apply disposed_freed|].
  rewrite <- E. apply udp_deliver_log.
Qed.

Lemma raw_loop_log l proto cs cd p s o s' : raw_loop eats l proto cs cd p s = Ok (o, s') ->
  exists k, Forall watched k /\ match o with
    | Some id => exists bs src, in_log s' = in_log s ++ k ++ [ToRaw id bs src true]
    | None => in_log s' = in_log s ++ k
    end.
Proof.
  revert s. induction l as [|id l IH]; intros s; cbn [raw_loop].
  { intros [= <- <-]. exists []. split; [constructor|by rewrite app_nil_r]. }
  destruct (get_raw s id) as [r|]; [|done]. cbn [res_bind]. destruct (_ && _); [|apply IH].
  destruct (eats id (nb_bytes p) cs) eqn:E.
  - intros [= <- <-]. exists []. split; [constructor|]. by eexists _, _.
  - intros H. destruct (IH _ H) as (k & Hk & Hl). exists (ToRaw id (nb_bytes p) cs false :: k). split; [by constructor|].
    change (in_log (log ?e s)) with (in_log s ++ [e]) in Hl.
    destruct o as [id'|]; [destruct Hl as (bs & src & Hl); exists bs, src|]; by rewrite <- app_assoc in Hl.
Qed.
Lemma raw_input_log h p s eaten s' : raw_input eats h p s = Ok (eaten, s') ->
  if eaten : bool then disposed (in_log s) (in_log s') else exists k, Forall watched k /\ in_log s' = in_log s ++ k.
Proof.
  unfold raw_input. destruct (raw_loop _ _ _ _ _ _ _) as [[o s1]|] eqn:E; [|done]. cbn [res_bind].
  apply raw_loop_log in E as (k & Hk & Hl). destruct o as [id|]; intros [= <- <-].
  - destruct Hl as (bs & src & Hl). by exists k, (ToRaw id bs src true).
  - by exists k.
Qed.
Lemma tcp_send_log l s s' : tcp_send_packets l s = Ok s' -> in_log s' = in_log s.
Proof.
  revert s. induction l as [|k l IH]; intros s; cbn [tcp_send_packets]; [by intros [= ->]|].
  destruct (ip_output _ _ _ _ _ _ _) as [[r s1]|] eqn:E; [|done]. cbn [res_bind]. intros H. apply ip_output_log in E.
  by rewrite (IH _ H).
Qed.
Lemma tcp_input_log h inp p s s' : tcp_input_packet cb h inp p s = Ok s' -> disposed (in_log s) (in_log s').
Proof.
  unfold tcp_input_packet, run_tcp. destruct (nb_header _ _) as [[q|]|]; cbn [res_bind]; [|intros [= <-]; by apply disposed_freed|done].
  destruct (inet_if inp s) as [n|]; [|done]. cbn [res_bind]. destruct (tcp_parse _ _ _ _) as [[i|]|]; cbn [res_bind];
    [|intros [= <-]; by apply disposed_freed|done].
  destruct (tcp_input _ _ _) as [w|]; [|done]. cbn [res_bind]. intros H. apply tcp_send_log in H. rewrite H. by apply disposed_log.
Qed.
Lemma time_exceeded_log l s s' : send_time_exceeded l s = Ok s' -> in_log s' = in_log s.
Proof.
  revert s. induction l as [|k l IH]; intros s; cbn [send_time_exceeded]; [by intros [= ->]|].
  destruct (icmp_time_exceeded _ _ s) as [s1|] eqn:E; [|done]. cbn [res_bind]. intros H. rewrite (IH _ H). by eapply icmp_response_log.
Qed.
Lemma reassemble_log h p s o s' : ip_reassemble h p s = Ok (o, s') ->
  match o with Some _ => in_log s' = in_log s | None => disposed (in_log s) (in_log s') end.
Proof.
  unfold ip_reassemble. destruct (ip_reass _ _ _ _) as [[k r]|]; [|done]. cbn [res_bind].
  destruct (send_time_exceeded _ _) as [s1|] eqn:E; [|done]. cbn [res_bind]. apply time_exceeded_log in E.
  destruct k as [[[h' d] c]|]; intros [= <- <-]; [done|by apply disposed_log].
Qed.
Lemma deliver_log h inp p s s' : ip_deliver cb eats h inp p s = Ok s' -> disposed (in_log s) (in_log s').
Proof.
  unfold ip_deliver. destruct (raw_input _ _ _ _) as [[eaten s1]|] eqn:E; [|done]. cbn [res_bind]. apply raw_input_log in E.
  destruct eaten; [by intros [= <-]|]. destruct E as (k & Hk & Hl). intros H.
  apply (disposed_after _ k); [done|]. rewrite <- Hl. revert H.
  repeat case_match; [by apply udp_input_log|by apply tcp_input_log|by apply icmp_input_log|].
  unfold unknown_proto. intros H'. inv_pairs; apply disposed_freed; [by eapply icmp_response_log|done].
Qed.
Lemma ip_input_log inp p s s' : ip_input cb eats inp p s = Ok s' -> disposed (in_log s) (in_log s').
Proof.
  unfold ip_input. destruct (ip_check p) as [[h|]|]; cbn [res_bind]; [|intros [= <-]; by apply disposed_freed|done].
  destruct (nb_realloc _ _) as [q|]; [|done]. cbn [res_bind]. destruct (find_accepting _ _ _) as [o|]; [|done]. cbn [res_bind].
  destruct (inet_if inp s) as [n|]; [|done]. cbn [res_bind]. destruct (_ || _); [intros [= <-]; by apply disposed_freed|].
  destruct (bool_decide _); [intros [= <-]; by apply disposed_freed|]. destruct (has_flag _ _).
  - destruct (ip_reassemble h q s) as [[r s1]|] eqn:E; [|done]. cbn [res_bind]. apply reassemble_log in E.
    destruct r as [[h' p']|]; [rewrite <- E; apply deliver_log|by intros [= <-]].
  - cbn [res_bind]. apply deliver_log.
Qed.

(** ** Reads and writes that stay inside *)
Lemma nb_read_ok off n p : 0 <= off -> 0 <= n -> off + n <= nb_len p -> exists l, nb_read off n p = Ok l /\ length l = Z.to_nat n.
Proof.
  intros H1 H2 H3. unfold nb_read. rewrite (proj2 (Z.leb_le _ _)) by done. eexists. split; [done|].
  pose proof (zlen_slice off n (nb_first p) H1 H2 H3) as H. unfold zlen in H. lia.
Qed.
Lemma nb_u8_ok off p : 0 <= off -> off + 1 <= nb_len p -> exists v, nb_u8 off p = Ok v.
Proof. intros. unfold nb_u8. destruct (nb_read_ok off 1 p) as (l & -> & Hl); [lia..|]. destruct l as [|a [|]]; try done. eauto. Qed.
Lemma nb_u16_ok off p : 0 <= off -> off + 2 <= nb_len p -> exists v, nb_u16 off p = Ok v.
Proof. intros. unfold nb_u16. destruct (nb_read_ok off 2 p) as (l & -> & Hl); [lia..|]. destruct l as [|a [|b [|]]]; try done. cbn [res_bind]. eauto. Qed.
Lemma nb_addr_ok off p : 0 <= off -> off + 4 <= nb_len p -> exists v, nb_addr off p = Ok v.
Proof.
  intros. unfold nb_addr. destruct (nb_read_ok off 4 p) as (l & -> & Hl); [lia..|].
  destruct l as [|a [|b [|c [|d [|]]]]]; try done. cbn [res_bind]. eauto.
Qed.
Lemma nb_iphdr_ok p : 20 <= nb_len p -> exists h, nb_iphdr p = Ok h.
Proof.
  intros Hp. unfold nb_iphdr.
  destruct (nb_u8_ok 0 p) as [? ->]; [lia..|]. destruct (nb_u8_ok 1 p) as [? ->]; [lia..|]. destruct (nb_u16_ok 2 p) as [? ->]; [lia..|].
  destruct (nb_u16_ok 4 p) as [? ->]; [lia..|]. destruct (nb_u16_ok 6 p) as [? ->]; [lia..|]. destruct (nb_u8_ok 8 p) as [? ->]; [lia..|].
  destruct (nb_u8_ok 9 p) as [? ->]; [lia..|]. destruct (nb_addr_ok 12 p) as [? ->]; [lia..|]. destruct (nb_addr_ok 16 p) as [? ->]; [lia..|].
  cbn [res_bind]. eauto.
Qed.
Definition same_size p q : Prop := nb_front q = nb_front p /\ nb_len q = nb_len p /\ nb_rest q = nb_rest p /\ nb_movable q = nb_movable p.
Lemma nb_write_ok off bs p : 0 <= off -> off + zlen bs <= nb_len p -> exists q, nb_write off bs p = Ok q /\ same_size p q.
Proof.
  intros H1 H2. unfold nb_write. rewrite (proj2 (Z.leb_le _ _)) by done. eexists. split; [done|]. split_and!; try done.
  unfold nb_len, zlen in *. cbn. rewrite !length_app, length_take, length_drop. lia.
Qed.
Lemma nb_tot_eq p : nb_tot_len p = nb_len p + zlen (concat (nb_rest p)).
Proof. unfold nb_tot_len, nb_len, nb_bytes, nb_pbufs. cbn. apply zlen_app. Qed.
Lemma nb_new_len r bs : nb_len (nb_new r bs) = zlen bs.
Proof. done. Qed.
Lemma nb_new_tot r bs : nb_tot_len (nb_new r bs) = zlen bs.
Proof. rewrite nb_tot_eq, nb_new_len. apply Z.add_0_r. Qed.
Lemma same_size_tot p q : same_size p q -> nb_tot_len q = nb_tot_len p.
Proof. intros (_ & H1 & H2 & _). rewrite !nb_tot_eq. by rewrite H1, H2. Qed.

(** Moving the payload pointer. *)
Definition moved (inc : Z) p q : Prop :=
  zlen (nb_front q) = zlen (nb_front p) - inc /\ nb_len q = nb_len p + inc /\ nb_rest q = nb_rest p /\ nb_movable q = nb_movable p /\
  nb_front q ++ nb_first q = nb_front p ++ nb_first p.
Lemma nb_hide n p : 0 <= n <= nb_len p -> exists q, nb_header (- n) p = Ok (Some q) /\ moved (- n) p q.
Proof.
  intros Hn. unfold nb_header. destruct (Z.eqb_spec (- n) 0) as [Hz|Hz].
  { exists p. split; [done|]. split_and!; try done; lia. }
  rewrite (proj2 (Z.ltb_lt (- n) 0)) by lia. rewrite Z.opp_involutive. rewrite (proj2 (Z.leb_le _ _)) by lia. cbn [lwip_assert res_bind].
  eexists. split; [done|]. unfold moved, nb_len, zlen in *. cbn. rewrite !length_app, length_take, length_drop. split_and!; try done; try lia.
  rewrite <- app_assoc. by rewrite take_drop.
Qed.
Lemma nb_show n p : 0 <= n <= zlen (nb_front p) -> nb_movable p = true -> exists q, nb_header n p = Ok (Some q) /\ moved n p q.
Proof.
  intros Hn Hm. unfold nb_header. destruct (Z.eqb_spec n 0) as [Hz|Hz].
  { exists p. split; [done|]. split_and!; try done; lia. }
  rewrite (proj2 (Z.ltb_ge n 0)) by lia. rewrite Hm. rewrite (proj2 (Z.leb_le _ _)) by lia. cbn [andb].
  eexists. split; [done|]. unfold moved, nb_len, zlen in *. cbn. rewrite !length_app, length_take, length_drop. split_and!; try done; try lia.
  rewrite app_assoc. by rewrite take_drop.
Qed.
Lemma nb_show_any n p : 0 <= n -> exists o, nb_header n p = Ok o.
Proof.
  intros Hn. unfold nb_header. destruct (n =? 0); [eauto|]. rewrite (proj2 (Z.ltb_ge n 0)) by lia. destruct (_ && _); eauto.
Qed.
Lemma cut_first n b l : exists b' l', cut n (b :: l) = b' :: l' /\ (length b' = Nat.min n (length b))%nat /\ (zlen (concat (b' :: l')) <= zlen (concat (b :: l))).
Proof.
  assert (Hle : forall l n, zlen (concat (cut n l)) <= zlen (concat l)).
  { clear. intros l. induction l as [|b l IH]; intros n; cbn; [done|]. destruct (Nat.leb n (length b)) eqn:E; cbn.
    - rewrite app_nil_r, zlen_app. unfold zlen. rewrite length_take. lia.
    - rewrite !zlen_app. specialize (IH (n - length b)%nat). lia. }
  specialize (Hle (b :: l) n). cbn [cut] in *. destruct (Nat.leb n (length b)) eqn:E.
  - apply Nat.leb_le in E. exists (take n b), []. split_and!; [done|rewrite length_take; lia|done].
  - apply Nat.leb_gt in E. exists b, (cut (n - length b) l). split_and!; [done|lia|done].
Qed.
Lemma nb_realloc_ok n p : 0 <= n -> exists q, nb_realloc n p = Ok q /\ nb_len q = (if nb_tot_len p <=? n then nb_len p else Z.min n (nb_len p)) /\
  nb_tot_len q <= nb_tot_len p /\ nb_front q = nb_front p /\ nb_movable q = nb_movable p.
Proof.
  intros Hn. unfold nb_realloc. destruct (nb_tot_len p <=? n); [by exists p|].
  destruct (cut_first (Z.to_nat n) (nb_first p) (nb_rest p)) as (b & l & Hc & Hl & Ht). unfold nb_pbufs. rewrite Hc.
  eexists. split; [done|]. split_and!; [unfold nb_len, zlen in *; cbn; lia|exact Ht|done..].
Qed.

(** ** Well-formed states *)
Definition mtu_ok (n : netif) : Prop := nif_mtu n = 0 \/ 68 <= nif_mtu n.
Definition fits (len : Z) (n : netif) : Prop := nif_mtu n = 0 \/ len <= nif_mtu n.
Record inet_ok s : Prop := {
  io_arp : arp_ok (sk_arp (in_stack s));
  io_ifs : forall id x, sk_ifaces (in_stack s) !! id = Some x -> zlen (nif_hwaddr (if_netif x)) = ETHARP_HWADDR_LEN /\ mtu_ok (if_netif x);
  io_list : Forall (fun id => is_Some (sk_ifaces (in_stack s) !! id)) (Netif.netif_list (in_stack s));
  io_udp : Forall (fun k => is_Some (udp_tbl s !! k)) (udp_pcbs s);
  io_raw : Forall (fun k => is_Some (raw_tbl s !! k)) (raw_pcbs s)
}.
(** A call ends, leaves a well-formed state, and the interfaces. *)
Definition ifs s := sk_ifaces (in_stack s).
Definition ends s (r : res (inet A)) : Prop := exists s', r = Ok s' /\ inet_ok s' /\ ifs s' = ifs s.
Definition ends_err s (r : res (err_t * inet A)) : Prop := exists e s', r = Ok (e, s') /\ inet_ok s' /\ ifs s' = ifs s.
Lemma inet_if_ok id x s : ifs s !! id = Some x -> inet_if id s = Ok (if_netif x).
Proof. unfold ifs, inet_if, get_netif, get_if. by intros ->. Qed.
Lemma alloc_ok s ok s' : pbuf_alloc_ok s = (ok, s') -> inet_ok s -> inet_ok s' /\ ifs s' = ifs s.
Proof. unfold pbuf_alloc_ok. destruct (in_allocs s); intros [= <- <-] H; [done|]. split; [by destruct H|done]. Qed.
Lemma log_ok e s : inet_ok s -> inet_ok (log e s).
Proof. by intros []. Qed.

Lemma netif_output_ok id p dest s : inet_ok s -> is_Some (ifs s !! id) -> 16 <= nb_tot_len p -> ends_err s (netif_output id p dest s).
Proof.
  intros Hs [x Hx] Hp. unfold netif_output. rewrite (inet_if_ok id x s Hx). cbn [res_bind].
  destruct (nb_show_any link_room p ltac:(done)) as [o ->]. cbn [res_bind]. unfold run_arp.
  destruct (io_ifs s Hs id x Hx) as [Hh _].
  destruct (output_ends id (if_netif x) (mk_packet (nb_rom p) (nb_bytes p)) (bool_decide (is_Some o)) dest (sk_arp (in_stack s)) (io_arp s Hs) Hh Hp)
    as (r & w & -> & Hw). cbn [res_bind]. eexists r, _. split; [done|]. split; [|done]. by destruct Hs.
Qed.
Lemma ip_send_ok id p dest s x : inet_ok s -> ifs s !! id = Some x -> 16 <= nb_tot_len p -> fits (nb_tot_len p) (if_netif x) ->
  ends_err s (ip_send id p dest s).
Proof.
  intros Hs Hx Hp Hf. unfold ip_send. rewrite (inet_if_ok id x s Hx). cbn [res_bind].
  assert (Hb : negb (nif_mtu (if_netif x) =? 0) && (nif_mtu (if_netif x) <? nb_tot_len p) = false).
  { apply andb_false_iff. destruct Hf as [->|Hf]; [by left|right]. by apply Z.ltb_ge. }
  rewrite Hb. by apply netif_output_ok.
Qed.
Lemma route_ok dest s id n : route s dest = Some (id, n) -> exists x, ifs s !! id = Some x /\ n = if_netif x.
Proof.
  unfold route, ip_route_of.
  assert (Hl : forall l a id n, Forall (fun y => exists x, ifs s !! y.1 = Some x /\ y.2 = if_netif x) l ->
    match a with Some (i, m) => exists x, ifs s !! i = Some x /\ m = if_netif x | None => True end ->
    (route_loop snd l dest a).1 = Some (id, n) -> exists x, ifs s !! id = Some x /\ n = if_netif x).
  { clear id n. induction l as [|[i m] l IH]; intros a id n Hl Ha; cbn [route_loop]; [cbn; by intros ->|].
    apply Forall_cons in Hl as [Hi Hl]. destruct (netif_is_up _); [|by apply IH]. destruct (_ =? _); [by apply IH|].
    destruct (ip_addr_netcmp _ _ _); [|by apply IH]. cbn. by intros [= <- <-]. }
  assert (Hif : Forall (fun y => exists x, ifs s !! y.1 = Some x /\ y.2 = if_netif x) (if_list s)).
  { apply Forall_forall. intros y. unfold if_list. rewrite list_elem_of_omap. intros (i & _ & Hy).
    fold (ifs s) in Hy. destruct (ifs s !! i) as [x|] eqn:E; [|done]. injection Hy as <-. by exists x. }
  specialize (Hl (if_list s) None id n Hif I). destruct (route_loop snd (if_list s) dest None) as [[[i m]|] b]; cbn in *.
  - by intros [= -> ->]; apply Hl.
  - unfold if_default. fold (ifs s). destruct (Netif.netif_default (in_stack s)) as [i|]; [|done]. cbn.
    destruct (ifs s !! i) as [x|] eqn:E; [|done]. cbn. destruct (netif_is_up _); [|done]. intros [= <- <-]. by exists x.
Qed.
Lemma icmp_response_ok p type code s : inet_ok s -> 28 <= nb_len p -> ends s (icmp_send_response p type code s).
Proof.
  intros Hs Hp. unfold icmp_send_response. destruct (pbuf_alloc_ok s) as [ok s1] eqn:E.
  destruct (alloc_ok s ok s1 E Hs) as [Hs1 Hi]. destruct ok; [|by exists s1].
  destruct (nb_read_ok 0 (IP_HLEN + ICMP_DEST_UNREACH_DATASIZE) p) as (o & -> & Ho); [done..|]. cbn [res_bind].
  destruct (nb_addr_ok 12 p) as [src ->]; [lia..|]. cbn [res_bind]. unfold ip_output.
  destruct (route s1 src) as [[id n]|] eqn:Er; [|by exists s1]. apply route_ok in Er as (x & Hx & ->).
  unfold ip_output_if. set (q := nb_new _ _).
  assert (Hlen : zlen (icmp_message type code o) = 36) by (unfold icmp_message, zlen; rewrite !length_app, Ho; done).
  destruct (nb_show IP_HLEN q) as (q1 & -> & Hq1); [done..|]. cbn [res_bind]. destruct Hq1 as (_ & Hql & Hqr & _).
  unfold nb_len at 2 in Hql. cbn [nb_first q nb_new] in Hql. rewrite Hlen in Hql. unfold IP_HLEN in *.
  rewrite (proj2 (Z.leb_le 20 (nb_len q1))) by lia. cbn [lwip_assert res_bind]. rewrite (inet_if_ok id x s1 Hx). cbn [res_bind].
  match goal with |- context [nb_write 0 ?bs q1] => destruct (nb_write_ok 0 bs q1) as (q2 & -> & Hq2); [lia|change (zlen bs) with 20; lia|] end.
  cbn [res_bind]. assert (Ht : nb_tot_len q2 = 56) by (rewrite (same_size_tot _ _ Hq2), nb_tot_eq, Hql, Hqr; done).
  destruct (ip_send_ok id q2 src (s1 <| ip_id := u16 (ip_id s1 + 1) |>) x) as (e & s2 & -> & Hs2 & Hi2).
  - by destruct Hs1.
  - done.
  - lia.
  - destruct (io_ifs s1 Hs1 id x Hx) as [_ [H0|H68]]; [by left|right; lia].
  - cbn [res_bind]. exists s2. split_and!; [done..|]. by rewrite Hi2.
Qed.

(** ** The protocols end *)
Lemma freed_ends s s1 : inet_ok s1 -> ifs s1 = ifs s -> ends s (Ok (drop_packet s1)).
Proof. intros H1 H2. exists (drop_packet s1). split_and!; [done|by apply log_ok|done]. Qed.
Lemma echo_reply_ok hlen src dest p : 20 <= hlen -> hlen + 8 <= nb_len p -> exists q, echo_reply hlen src dest p = Ok q /\ same_size p q.
Proof.
  intros H1 H2. unfold echo_reply.
  destruct (nb_write_ok 12 (store_le32 dest) p) as (p1 & -> & S1); [lia|change (zlen (store_le32 dest)) with 4; lia|]. cbn [res_bind].
  pose proof S1 as (_ & L1 & _).
  destruct (nb_write_ok 16 (store_le32 src) p1) as (p2 & -> & S2); [lia|change (zlen (store_le32 src)) with 4; lia|]. cbn [res_bind].
  pose proof S2 as (_ & L2 & _).
  destruct (nb_write_ok hlen [ICMP_ER] p2) as (p3 & -> & S3); [lia|change (zlen [ICMP_ER]) with 1; lia|]. cbn [res_bind].
  pose proof S3 as (_ & L3 & _).
  destruct (nb_u16_ok (hlen + 2) p3) as [c ->]; [lia..|]. cbn [res_bind].
  match goal with |- context [nb_write (hlen + 2) ?b p3] => destruct (nb_write_ok (hlen + 2) b p3) as (p4 & -> & S4); [lia|change (zlen b) with 2; lia|] end.
  cbn [res_bind]. pose proof S4 as (_ & L4 & _).
  destruct (nb_write_ok 8 [ICMP_TTL] p4) as (p5 & -> & S5); [lia|change (zlen [ICMP_TTL]) with 1; lia|]. cbn [res_bind].
  pose proof S5 as (_ & L5 & _).
  destruct (nb_write_ok 10 [0; 0] p5) as (p6 & -> & S6); [lia|change (zlen [0; 0]) with 2; lia|]. cbn [res_bind].
  pose proof S6 as (_ & L6 & _). unfold IP_HLEN.
  destruct (nb_read_ok 0 20 p6) as (h & -> & _); [lia..|]. cbn [res_bind].
  match goal with |- context [nb_write 10 ?b p6] => destruct (nb_write_ok 10 b p6) as (p7 & -> & S7); [lia|change (zlen b) with 2; lia|] end.
  exists p7. split; [done|]. unfold same_size in *. intuition congruence.
Qed.
Lemma echo_ok h inp x p s : inet_ok s -> ifs s !! inp = Some x -> 5 <= iph_hl h -> 8 <= nb_len p -> nb_movable p = true ->
  iph_hl h * 4 <= zlen (nb_front p) -> fits (iph_hl h * 4 + nb_tot_len p) (if_netif x) -> ends s (icmp_echo h inp p s).
Proof.
  intros Hs Hx Hhl Hlen Hm Hfr Hf. unfold icmp_echo. rewrite (inet_if_ok inp x s Hx). cbn [res_bind].
  set (hlen := iph_hl h * 4) in *. assert (20 <= hlen) by lia.
  destruct (_ || _); [by apply freed_ends|]. destruct (_ <? _); [by apply freed_ends|]. destruct (negb _); [by apply freed_ends|].
  assert (Hbuf : exists o s1, echo_buffer hlen p s = Ok (o, s1) /\ inet_ok s1 /\ ifs s1 = ifs s /\
    match o with Some q => hlen + 8 <= nb_len q /\ nb_tot_len q = hlen + nb_tot_len p | None => True end).
  { unfold echo_buffer. destruct (nb_show_any (ip_room + link_room) p ltac:(done)) as [o ->]. cbn [res_bind].
    destruct (nb_show hlen p) as (q & -> & _ & Hql & Hqr & _); [lia|done|]. cbn [res_bind].
    assert (Ht : nb_tot_len q = hlen + nb_tot_len p) by (rewrite !nb_tot_eq, Hqr; lia).
    destruct o as [o|]; [exists (Some q), s; split_and!; try done; lia|].
    destruct (pbuf_alloc_ok s) as [ok s1] eqn:E. destruct (alloc_ok s ok s1 E Hs) as [Hs1 Hi].
    destruct ok; [|by exists None, s1]. unfold SIZEOF_ICMP_ECHO_HDR.
    assert (nb_len p <= nb_tot_len p) by (rewrite nb_tot_eq; pose proof (zlen_nonneg (concat (nb_rest p))); lia).
    rewrite (proj2 (Z.leb_le (hlen + 8) (nb_tot_len q))) by lia. cbn [lwip_assert res_bind].
    eexists _, s1. split; [done|]. cbv iota. rewrite nb_new_tot, nb_new_len. change (zlen (nb_bytes q)) with (nb_tot_len q).
    split_and!; try done; lia. }
  destruct Hbuf as (o & s1 & -> & Hs1 & Hi1 & Ho). cbn [res_bind]. destruct o as [q|]; [|by apply freed_ends].
  destruct Ho as [Hql Hqt]. destruct (echo_reply_ok hlen (iph_src h) (iph_dest h) q) as (q1 & -> & Hss); [done..|]. cbn [res_bind].
  pose proof Hss as (_ & Hl1 & _). pose proof (same_size_tot _ _ Hss) as Ht1. unfold ip_output_if.
  destruct (nb_addr_ok 16 q1) as [d ->]; [lia..|]. cbn [res_bind].
  destruct (ip_send_ok inp q1 d s1 x) as (e & s2 & -> & Hs2 & Hi2); [done|by rewrite Hi1| |by rewrite Ht1, Hqt|].
  - rewrite Ht1, Hqt. pose proof (zlen_nonneg (nb_bytes p)). unfold nb_tot_len. lia.
  - cbn [res_bind]. apply freed_ends; [done|congruence].
Qed.
Lemma icmp_input_ok h inp x p s : inet_ok s -> ifs s !! inp = Some x -> 5 <= iph_hl h -> iph_hl h * 4 + 8 <= nb_len p -> nb_movable p = true ->
  fits (nb_tot_len p) (if_netif x) -> ends s (icmp_input h inp p s).
Proof.
  intros Hs Hx Hhl Hlen Hm Hf. unfold icmp_input.
  destruct (nb_hide (iph_hl h * 4) p) as (q & -> & Hq1 & Hq2 & Hq3 & Hq4 & _); [lia|]. cbn [res_bind].
  destruct (_ <? _); [by apply freed_ends|]. destruct (nb_u8_ok 0 q) as [t ->]; [lia..|]. cbn [res_bind].
  destruct (t =? ICMP_ECHO); [|by apply freed_ends].
  apply (echo_ok h inp x); try done; [lia|congruence|pose proof (zlen_nonneg (nb_front p)); lia|].
  replace (iph_hl h * 4 + nb_tot_len q) with (nb_tot_len p) by (rewrite !nb_tot_eq, Hq3; lia). done.
Qed.
Lemma udp_match_ok tbl l n cs cd src dest b u : Forall (fun k => is_Some (tbl !! k)) l ->
  match u with Some k => is_Some (tbl !! k) | None => True end ->
  exists full uncon, udp_match tbl l n cs cd src dest b u = Ok (full, uncon) /\
    match full with Some k => is_Some (tbl !! k) | None => True end /\ match uncon with Some k => is_Some (tbl !! k) | None => True end.
Proof.
  revert u. induction l as [|k l IH]; intros u Hl Hu; cbn [udp_match]; [by exists None, u|].
  apply Forall_cons in Hl as [[x Hx] Hl]. rewrite Hx. cbn [of_option res_bind].
  set (u' := if _ && _ && _ then _ else _).
  assert (Hu' : match u' with Some k => is_Some (tbl !! k) | None => True end) by (unfold u'; destruct (_ && _); [by exists x|done]).
  clearbody u'.
  destruct (_ && _); [|by apply IH]. exists (Some k), u'. split_and!; [done|by exists x|done].
Qed.
Lemma unlink_subset x k l : k ∈ unlink x l -> k ∈ l.
Proof.
  induction l as [|y l IH]; cbn; [done|]. case_bool_decide; [by right|]. intros [->|H']%elem_of_cons; [by left|right; by apply IH].
Qed.
Lemma udp_input_ok h inp x p s : inet_ok s -> ifs s !! inp = Some x -> 5 <= iph_hl h -> iph_hl h * 4 + 8 <= nb_len p -> nb_movable p = true ->
  ends s (udp_input h inp p s).
Proof.
  intros Hs Hx Hhl Hlen Hm. unfold udp_input. destruct (_ <? _); [by apply freed_ends|].
  destruct (nb_hide (iph_hl h * 4) p) as (q & -> & Hq1 & Hq2 & Hq3 & Hq4 & _); [lia|]. cbn [res_bind].
  rewrite (inet_if_ok inp x s Hx). cbn [res_bind]. destruct (nb_u16_ok 0 q) as [src ->]; [lia..|]. cbn [res_bind].
  destruct (nb_u16_ok 2 q) as [dst ->]; [lia..|]. cbn [res_bind]. unfold udp_demux.
  match goal with |- context [udp_match ?t ?l ?n ?a ?b ?c ?d ?e None] =>
    destruct (udp_match_ok t l n a b c d e None (io_udp s Hs) I) as (full & uncon & -> & Hfull & Hun) end. cbn [res_bind].
  set (r := match full with Some k => (Some k, _) | None => _ end).
  assert (Hr : inet_ok r.2 /\ ifs r.2 = ifs s /\ match r.1 with Some k => is_Some (udp_tbl r.2 !! k) | None => True end).
  { unfold r. destruct full as [k|]; [|done]. split_and!; [|done|done]. destruct Hs. split; try done. cbn.
    constructor; [done|]. rewrite Forall_forall in *. intros j Hj%unlink_subset. auto. }
  destruct r as [pcb s1]. cbn in Hr. destruct Hr as (Hs1 & Hi1 & Hpcb).
  destruct (_ || _); [|by apply freed_ends]. destruct (nb_u16_ok 6 q) as [c ->]; [lia..|]. cbn [res_bind].
  destruct (_ && _); [by apply freed_ends|]. unfold udp_deliver, UDP_HLEN.
  destruct (nb_hide 8 q) as (d & -> & Hd1 & Hd2 & Hd3 & Hd4 & _); [lia|]. cbn [res_bind].
  destruct pcb as [k|].
  - destruct Hpcb as [u Hu]. unfold get_udp. rewrite Hu. cbn [of_option res_bind].
    destruct (up_recv u); [|by apply freed_ends]. eexists. split; [done|]. split; [by apply log_ok|done].
  - destruct (_ && _); [|cbn [res_bind]; by apply freed_ends].
    destruct (nb_show (iph_hl h * 4 + 8) d) as (o & -> & Ho1 & Ho2 & _); [pose proof (zlen_nonneg (nb_front p)); lia|congruence|].
    cbn [res_bind]. unfold icmp_dest_unreach. destruct (icmp_response_ok o ICMP_DUR ICMP_DUR_PORT s1 Hs1) as (s2 & -> & Hs2 & Hi2); [lia|].
    cbn [res_bind]. apply freed_ends; [done|congruence].
Qed.
Lemma raw_input_ok h p s : inet_ok s -> exists eaten s1, raw_input eats h p s = Ok (eaten, s1) /\ inet_ok s1 /\ ifs s1 = ifs s.
Proof.
  intros Hs. unfold raw_input.
  assert (Hl : forall l s0, inet_ok s0 -> ifs s0 = ifs s -> raw_pcbs s0 = raw_pcbs s -> Forall (fun k => is_Some (raw_tbl s0 !! k)) l ->
    exists o s1, raw_loop eats l (iph_proto h) (iph_src h) (iph_dest h) p s0 = Ok (o, s1) /\ inet_ok s1 /\ ifs s1 = ifs s /\
      raw_pcbs s1 = raw_pcbs s /\ match o with Some k => is_Some (raw_tbl s1 !! k) | None => True end).
  { induction l as [|k l IH]; intros s0 Hs0 Hi0 Hp0 Hl; cbn [raw_loop]; [by exists None, s0|].
    apply Forall_cons in Hl as [[r Hr] Hl]. unfold get_raw. rewrite Hr. cbn [of_option res_bind].
    destruct (_ && _); [|by apply IH]. destruct (eats k (nb_bytes p) (iph_src h)).
    - eexists (Some k), _. split; [done|]. split_and!; [by apply log_ok|done|done|by exists r].
    - apply IH; [by apply log_ok|done..]. }
  destruct (Hl (raw_pcbs s) s Hs eq_refl eq_refl (io_raw s Hs)) as (o & s1 & -> & Hs1 & Hi1 & Hp1 & Ho). cbn [res_bind].
  destruct o as [k|]; [|by exists false, s1]. eexists true, _. split; [done|]. split; [|done].
  destruct Hs1. split; try done. cbn. constructor; [done|]. rewrite Forall_forall in *. intros j Hj%unlink_subset. auto.
Qed.

(** ** ip_input ends *)
Lemma find_accepting_ok inp x dest s : inet_ok s -> ifs s !! inp = Some x -> exists o, find_accepting inp dest s = Ok o.
Proof.
  intros Hs Hx. unfold find_accepting, get_if. fold (ifs s). rewrite Hx. cbn [of_option res_bind].
  destruct (accepts x dest); [eauto|]. pose proof (io_list s Hs) as Hl. fold (ifs s) in Hl. revert Hl.
  generalize (Netif.netif_list (in_stack s)). induction l as [|k l IH]; intros Hl; cbn [accept_loop]; [eauto|].
  apply Forall_cons in Hl as [[y Hy] Hl]. case_bool_decide; [by apply IH|]. rewrite Hy. cbn [of_option res_bind].
  destruct (accepts y dest); [eauto|by apply IH].
Qed.
(** What is asked of a header that passes the checks: no fragment, not TCP, and
    room for 8 bytes behind the IP header, in the first pbuf and by the length
    field. *)
Definition plain (h : ip_hdr) p : Prop :=
  5 <= iph_hl h /\ iph_hl h * 4 + 8 <= iph_len h /\ iph_hl h * 4 + 8 <= nb_len p /\
  has_flag (iph_off h) (Z.lor IP_OFFMASK IP_MF) = false /\ iph_proto h <> IP_PROTO_TCP.
Lemma ip_check_ok p : 20 <= nb_len p -> exists o, ip_check p = Ok o.
Proof.
  intros Hp. unfold ip_check. destruct (nb_u8_ok 0 p) as [v ->]; [lia..|]. cbn [res_bind]. destruct (negb _); [eauto|].
  destruct (nb_u16_ok 2 p) as [l ->]; [lia..|]. cbn [res_bind].
  destruct (nb_len p <? Z.land v 15 * 4) eqn:E; cbn [orb]; [eauto|]. apply Z.ltb_ge in E. destruct (nb_tot_len p <? l); [eauto|].
  assert (0 <= Z.land v 15) by (apply Z.land_nonneg; by right).
  destruct (nb_read_ok 0 (Z.land v 15 * 4) p) as (r & -> & _); [lia..|]. cbn [res_bind]. destruct (negb _); [eauto|].
  destruct (nb_iphdr_ok p Hp) as [h ->]. cbn [res_bind]. eauto.
Qed.
Lemma deliver_ok h inp x p s : inet_ok s -> ifs s !! inp = Some x -> plain h p -> nb_movable p = true -> fits (nb_tot_len p) (if_netif x) ->
  ends s (ip_deliver cb eats h inp p s).
Proof.
  intros Hs Hx (H1 & H2 & H3 & H4 & H5) Hm Hf. unfold ip_deliver.
  destruct (raw_input_ok h p s Hs) as (eaten & s1 & -> & Hs1 & Hi1). cbn [res_bind]. destruct eaten; [by exists s1|].
  assert (Hx1 : ifs s1 !! inp = Some x) by by rewrite Hi1.
  assert (Hends : forall r, ends s1 r -> ends s r) by (intros r (s2 & -> & Hs2 & Hi2); exists s2; split_and!; [done|done|congruence]).
  apply Hends. destruct (Z.eqb_spec (iph_proto h) IP_PROTO_UDP); [by eapply udp_input_ok|].
  destruct (Z.eqb_spec (iph_proto h) IP_PROTO_TCP); [done|].
  destruct (Z.eqb_spec (iph_proto h) IP_PROTO_ICMP); [by eapply icmp_input_ok|].
  unfold unknown_proto. rewrite (inet_if_ok inp x s1 Hx1). cbn [res_bind].
  destruct (_ && _); [|cbn [res_bind]; by apply freed_ends].
  destruct (icmp_response_ok p ICMP_DUR ICMP_DUR_PROTO s1 Hs1) as (s2 & Hr & Hs2 & Hi2); [lia|].
  unfold icmp_dest_unreach. rewrite Hr. cbn [res_bind]. by apply freed_ends.
Qed.
Lemma ip_input_ends s inp x p : inet_ok s -> ifs s !! inp = Some x -> nb_movable p = true -> fits (nb_tot_len p) (if_netif x) -> 20 <= nb_len p ->
  (forall h, ip_check p = Ok (Some h) -> plain h p) -> ends s (ip_input cb eats inp p s).
Proof.
  intros Hs Hx Hm Hf Hlen Hplain. unfold ip_input. destruct (ip_check_ok p Hlen) as [o Ho]. rewrite Ho. cbn [res_bind].
  destruct o as [h|]; [|by apply freed_ends]. destruct (Hplain h Ho) as (H1 & H2 & H3 & H4 & H5).
  destruct (nb_realloc_ok (iph_len h) p) as (q & -> & Hq1 & Hq2 & Hq3 & Hq4); [lia|]. cbn [res_bind].
  destruct (find_accepting_ok inp x (iph_dest h) s Hs Hx) as [o ->]. cbn [res_bind]. rewrite (inet_if_ok inp x s Hx). cbn [res_bind].
  destruct (_ || _); [by apply freed_ends|]. destruct (bool_decide _); [by apply freed_ends|]. rewrite H4. cbn [res_bind].
  apply (deliver_ok h inp x); try done.
  - split_and!; try done. rewrite Hq1. destruct (_ <=? _); lia.
  - congruence.
  - destruct Hf as [Hf|Hf]; [by left|right; lia].
Qed.

(** C19. Every packet that comes in is dealt with exactly once: after the raw
    blocks that only look at it, it is freed, or given to one raw or UDP block,
    to TCP, or to the reassembly, whatever bytes it has, when the call returns
    (some packets abort it: [tcp_offset_aborts], [short_length_aborts]). And
    with a well-formed state (tables, interfaces and lists that refer to what exists), for
    packets in movable pbufs that fit the MTU of the interface they came from,
    are no fragments and not for TCP, whose header says at least 20 bytes and
    which have 8 bytes behind it in the first pbuf and by the length field, the
    call does return: no assertion fails and nothing is read outside the packet,
    whatever the allocations and the driver answer. *)
Theorem ip_input_safe s inp p :
  (forall s', ip_input cb eats inp p s = Ok s' -> disposed (in_log s) (in_log s')) /\
  (forall x, inet_ok s -> ifs s !! inp = Some x -> nb_movable p = true -> fits (nb_tot_len p) (if_netif x) -> 20 <= nb_len p ->
     (forall h, ip_check p = Ok (Some h) -> plain h p) ->
     exists s', ip_input cb eats inp p s = Ok s' /\ inet_ok s' /\ ifs s' = ifs s /\ disposed (in_log s) (in_log s')).
Proof.
  split; [apply ip_input_log|]. intros x Hs Hx Hm Hf Hlen Hplain.
  destruct (ip_input_ends s inp x p Hs Hx Hm Hf Hlen Hplain) as (s' & Hr & Hs' & Hi). exists s'. split_and!; try done.
  by eapply ip_input_log.
Qed.
End Safe.

(** ** The concrete host *)
Lemma lan_arp_ok : arp_ok (sk_arp (in_stack inet_init)).
Proof.
  split; [done|cbn; unfold ARP_TABLE_SIZE; lia| |].
  - repeat constructor; cbn; try done; lia.
  - intros i j x y Hi Hj Hx Hy _.
    assert (H0 : forall k z, lan_arp !! k = Some z -> in_use z -> k = 0%nat).
    { intros [|k] z; [done|]. intros Hz Hu. change (replicate 9 (mk_entry None 0 None [] ETHARP_STATE_EMPTY 0) !! k = Some z) in Hz.
      by apply list_elem_of_lookup_2, elem_of_replicate_inv in Hz as ->. }
    by rewrite (H0 i x Hi Hx), (H0 j y Hj Hy).
Qed.
Lemma inet_init_ok : inet_ok inet_init.
Proof.
  split; [apply lan_arp_ok| | | |]; try by constructor.
  - intros id x Hx. unfold inet_init in Hx. cbn in Hx. apply lookup_singleton_Some in Hx as [<- <-]. split; [done|right; cbn; lia].
Qed.
Lemma ping_check : ip_check (from_peer IP_PROTO_ICMP ping) = Ok (Some (mk_iphdr 5 0 33 5 0 64 IP_PROTO_ICMP peer here)).
Proof. by vm_compute. Qed.
Lemma ip_input_safe_witness : exists s', ip_input quiet_app no_raw 0 (from_peer IP_PROTO_ICMP ping) inet_init = Ok s' /\
  disposed (in_log inet_init) (in_log s').
Proof.
  destruct (ip_input_safe quiet_app no_raw inet_init 0 (from_peer IP_PROTO_ICMP ping)) as [_ H].
  destruct (H lan_if inet_init_ok eq_refl eq_refl) as (s' & H1 & _ & _ & H2).
  - right. by vm_compute.
  - by vm_compute.
  - intros h Hh. rewrite ping_check in Hh. injection Hh as <-. split_and!; by vm_compute.
  - exists s'. exact (conj H1 H2).
Defined.
