(* ===== verification/InetSend.v ===== *)
(** * What IP and UDP send

    The bytes that [ip_output_if] and [udp_sendto_if] give to the driver, and
    the conditions under which they return an error and send nothing. *)
From S2P Require Import Prelude ByteOrder IpAddr Checksum Ip Tcp TcpOut TcpIn TcpWorld TcpProcess Etharp EtharpTable Netif IpFrag Nbuf Inet Icmp Udp Raw TcpWire IpInput InetHdr InetSafe.

(** ** Bytes of packets *)
Lemma take_drop_app {X} (a b : list X) : take (length a) (a ++ b) = a /\ drop (length a) (a ++ b) = b.
Proof. split; [by rewrite take_app_length|by rewrite drop_app_length]. Qed.
Lemma nb_bytes_eq p : nb_bytes p = nb_first p ++ concat (nb_rest p).
Proof. done. Qed.
Lemma nb_len_tot p : nb_len p <= nb_tot_len p.
Proof. rewrite nb_tot_eq. pose proof (zlen_nonneg (concat (nb_rest p))). lia. Qed.
(** The first [n] bytes of a packet are in its first pbuf. *)
Lemma nb_first_prefix p a b : nb_bytes p = a ++ b -> zlen a <= nb_len p -> exists c, nb_first p = a ++ c /\ b = c ++ concat (nb_rest p).
Proof.
  rewrite nb_bytes_eq. unfold nb_len, zlen. intros H Hl. exists (drop (length a) (nb_first p)).
  assert (Ha : take (length a) (nb_first p) = a).
  { rewrite <- (take_app_le (nb_first p) (concat (nb_rest p))) by lia. rewrite H. apply take_drop_app. }
  split; [by rewrite <- Ha at 1; rewrite take_drop|].
  rewrite <- (drop_app_le (nb_first p)) by lia. rewrite H. symmetry. apply take_drop_app.
Qed.
(** The two directions of [nb_header]. *)
Record shown (n : Z) (bs : list Z) p q : Prop := {
  sh_len : zlen bs = n;
  sh_first : nb_first q = bs ++ nb_first p;
  sh_rest : nb_rest q = nb_rest p;
  sh_front : zlen (nb_front q) = zlen (nb_front p) - n;
  sh_movable : nb_movable q = nb_movable p;
  sh_rom : nb_rom q = nb_rom p
}.
Lemma nb_show_eq n p : 0 < n <= zlen (nb_front p) -> nb_movable p = true -> exists bs q, nb_header n p = Ok (Some q) /\ shown n bs p q.
Proof.
  intros Hn Hm. unfold nb_header. rewrite (proj2 (Z.eqb_neq n 0)), (proj2 (Z.ltb_ge n 0)) by lia.
  rewrite Hm, (proj2 (Z.leb_le _ _)) by lia. cbn [andb].
  exists (drop (length (nb_front p) - Z.to_nat n) (nb_front p)). eexists. split; [done|].
  unfold zlen in *. split; cbn; unfold zlen; try (rewrite ?length_drop, ?length_take; lia); done.
Qed.
Lemma nb_show_fails n p : 0 < n -> nb_movable p = false \/ zlen (nb_front p) < n -> nb_header n p = Ok None.
Proof.
  intros Hn H. unfold nb_header. rewrite (proj2 (Z.eqb_neq n 0)), (proj2 (Z.ltb_ge n 0)) by lia.
  destruct H as [->|H]; [done|]. rewrite (proj2 (Z.leb_gt _ _)) by lia. by rewrite andb_false_r.
Qed.
Lemma nb_hide_eq n p : 0 < n <= nb_len p -> exists q, nb_header (- n) p = Ok (Some q) /\
  nb_first q = drop (Z.to_nat n) (nb_first p) /\ nb_rest q = nb_rest p /\ nb_movable q = nb_movable p /\
  nb_front q = nb_front p ++ take (Z.to_nat n) (nb_first p).
Proof.
  intros Hn. unfold nb_header. rewrite (proj2 (Z.eqb_neq (- n) 0)), (proj2 (Z.ltb_lt (- n) 0)) by lia.
  rewrite Z.opp_involutive, (proj2 (Z.leb_le _ _)) by lia. cbn [lwip_assert res_bind]. eexists. split; [done|]. done.
Qed.
Lemma nb_write_bytes off bs p : 0 <= off -> off + zlen bs <= nb_len p -> exists q, nb_write off bs p = Ok q /\ same_size p q /\
  nb_first q = take (Z.to_nat off) (nb_first p) ++ bs ++ drop (Z.to_nat (off + zlen bs)) (nb_first p) /\ nb_rom q = nb_rom p.
Proof.
  intros H1 H2. destruct (nb_write_ok off bs p H1 H2) as (q & Hq & Hs). exists q. split; [done|]. split; [done|].
  unfold nb_write in Hq. rewrite (proj2 (Z.leb_le _ _)) in Hq by done. by injection Hq as <-.
Qed.
(** Overwriting the first bytes. *)
Lemma nb_write_front bs old rest p : nb_first p = old ++ rest -> zlen bs = zlen old -> exists q, nb_write 0 bs p = Ok q /\
  nb_first q = bs ++ rest /\ nb_rest q = nb_rest p /\ nb_front q = nb_front p /\ nb_movable q = nb_movable p /\ nb_rom q = nb_rom p.
Proof.
  intros Hp Hl. destruct (nb_write_bytes 0 bs p) as (q & Hq & (Hf & _ & Hr & Hm) & Hb & Hro); [done| |].
  { unfold nb_len. rewrite Hp, zlen_app. pose proof (zlen_nonneg rest). lia. }
  exists q. split_and!; try done. rewrite Hb, Hp, Hl. unfold zlen. change (Z.to_nat 0) with 0%nat. rewrite Z.add_0_l, Nat2Z.id.
  by rewrite drop_app_length.
Qed.

(** ** UDP datagrams *)
Definition udp_field (flags src dst sport dport : Z) (data : list Z) : Z :=
  if has_flag flags UDP_FLAGS_NOCHKSUM then 0
  else
    let len := 8 + zlen data in
    let c := not16 (norm (le_value (pseudo_header src dst IP_PROTO_UDP len ++ udp_hdr_bytes sport dport len 0 ++ data))) in
    if c =? 0 then 0xffff else c.
(** A datagram: header and data. *)
Definition udp_datagram (flags src dst sport dport : Z) (data : list Z) : list Z :=
  udp_hdr_bytes sport dport (8 + zlen data) (udp_field flags src dst sport dport data) ++ data.
Lemma udp_hdr_split sport dport len c : udp_hdr_bytes sport dport len c =
  (store_le16 (lwip_htons sport) ++ store_le16 (lwip_htons dport) ++ store_le16 (lwip_htons len)) ++ store_le16 c.
Proof. done. Qed.
Lemma udp_hdr_ok sport dport len c : bytes_ok (udp_hdr_bytes sport dport len c).
Proof. unfold udp_hdr_bytes. repeat (apply bytes_ok_app; split; [by auto with lwip|]). auto with lwip. Qed.
Lemma nb_segs_ok p : bytes_ok (nb_bytes p) -> nb_tot_len p <= 65535 -> Forall seg_ok (nb_segs p).
Proof.
  unfold nb_bytes, nb_tot_len, nb_bytes, nb_segs. generalize (nb_pbufs p). induction l as [|b l IH]; cbn; [constructor|].
  intros [Hb Hl]%bytes_ok_app. rewrite zlen_app. pose proof (zlen_nonneg b). pose proof (zlen_nonneg (concat l)).
  intros. constructor; [split; [done|unfold is_u16; cbn; lia]|]. apply IH; [done|lia].
Qed.
Lemma nb_segs_bytes p : chain_bytes (nb_segs p) = nb_bytes p.
Proof. unfold chain_bytes, nb_segs, nb_bytes. f_equal. rewrite map_map. apply map_id. Qed.

Section Send.
Context {A : Type}.
Implicit Types (s : inet A) (p q : nbuf) (nif : nat) (id : addr).

(** ** IP *)

(** A packet as it is on the wire. *)
Definition ip_packet (h : ip_hdr) (data : list Z) : list Z := ip_hdr_bytes h (ip_hdr_chksum h) ++ data.
(** The header [ip_output_if] writes. *)
Definition sent_hdr (n : netif) (ipid src dest ttl tos proto len : Z) : ip_hdr :=
  mk_iphdr 5 tos (u16 (20 + len)) ipid 0 ttl proto (if src =? IPADDR_ANY then nif_ip_addr n else src) dest.
Definition next_id s : inet A := s <| ip_id := u16 (ip_id s + 1) |>.
Lemma ip_output_if_eq p src dest ttl tos proto nif n s : inet_if nif s = Ok n -> nb_movable p = true -> 20 <= zlen (nb_front p) ->
  let h := sent_hdr n (ip_id s) src dest ttl tos proto (nb_tot_len p) in hdr_ok h ->
  exists q, ip_output_if p src (Some dest) ttl tos proto nif s = ip_send nif q dest (next_id s) /\
    nb_first q = ip_packet h (nb_first p) /\ nb_rest q = nb_rest p /\ zlen (nb_front q) = zlen (nb_front p) - 20 /\
    nb_movable q = true /\ nb_rom q = nb_rom p.
Proof.
  intros Hn Hm Hf h Hh. unfold ip_output_if. destruct (nb_show_eq IP_HLEN p) as (bs & q1 & -> & S1); [unfold IP_HLEN; lia|done|].
  cbn [res_bind]. assert (Hl1 : nb_len q1 = 20 + nb_len p).
  { unfold nb_len. rewrite (sh_first _ _ _ _ S1), zlen_app, (sh_len _ _ _ _ S1). done. }
  assert (nb_len p >= 0) by (pose proof (zlen_nonneg (nb_first p)); unfold nb_len; lia).
  rewrite (proj2 (Z.leb_le IP_HLEN (nb_len q1))) by (unfold IP_HLEN; lia). cbn [lwip_assert res_bind]. rewrite Hn. cbn [res_bind].
  assert (Ht1 : nb_tot_len q1 = 20 + nb_tot_len p) by (rewrite !nb_tot_eq, Hl1, (sh_rest _ _ _ _ S1); lia).
  rewrite Ht1. change (IP_HLEN / 4) with 5. fold (sent_hdr n (ip_id s) src dest ttl tos proto (nb_tot_len p)). fold h.
  rewrite inline_chksum_eq by done.
  destruct (nb_write_front (ip_hdr_bytes h (ip_hdr_chksum h)) bs (nb_first p) q1) as (q & -> & H1 & H2 & H3 & H4 & H5);
    [apply S1|by rewrite (sh_len _ _ _ _ S1)|]. cbn [res_bind].
  exists q. split; [done|]. split_and!; try done; try congruence.
  - by rewrite H2, (sh_rest _ _ _ _ S1).
  - rewrite H3. apply S1.
  - rewrite H4, (sh_movable _ _ _ _ S1). done.
  - rewrite H5. apply S1.
Qed.
Lemma ip_send_small nif q dest n s : inet_if nif s = Ok n -> fits (nb_tot_len q) n -> ip_send nif q dest s = netif_output nif q dest s.
Proof.
  intros Hn Hf. unfold ip_send. rewrite Hn. cbn [res_bind].
  assert (Hb : negb (nif_mtu n =? 0) && (nif_mtu n <? nb_tot_len q) = false).
  { apply andb_false_iff. destruct Hf as [->|Hf]; [by left|right]. by apply Z.ltb_ge. }
  by rewrite Hb.
Qed.
Lemma ip_output_if_no_room p src dest ttl tos proto nif s : nb_movable p = false \/ zlen (nb_front p) < 20 ->
  ip_output_if p src (Some dest) ttl tos proto nif s = Ok (ERR_BUF, s).
Proof. intros H. unfold ip_output_if. by rewrite nb_show_fails. Qed.

(** ** UDP *)

(** The packet has room for the UDP header. *)
Definition udp_room p : bool := nb_movable p && (UDP_HLEN <=? zlen (nb_front p)).
Definition udp_front p : Z := if udp_room p then zlen (nb_front p) - 8 else 34.
(** A packet with 8 bytes in front of the data. *)
Record headed p q : Prop := {
  hd_first : exists bs c, zlen bs = 8 /\ nb_first q = bs ++ c /\ nb_bytes p = c ++ concat (nb_rest q);
  hd_movable : nb_movable q = true;
  hd_front : zlen (nb_front q) = udp_front p
}.
Lemma udp_add_header_eq p s :
  let '(ok, s1) := if udp_room p then (true, s) else pbuf_alloc_ok s in
  if ok then exists q, udp_add_header p s = Ok (Some q, s1) /\ headed p q else udp_add_header p s = Ok (None, s1).
Proof.
  unfold udp_room, udp_add_header, udp_front. destruct (nb_movable p && (UDP_HLEN <=? zlen (nb_front p))) eqn:E.
  - pose proof E as [Hm Hf]%andb_true_iff. apply Z.leb_le in Hf. unfold UDP_HLEN in *.
    destruct (nb_show_eq 8 p) as (bs & q & -> & S); [lia|done|]. cbn [res_bind]. exists q. split; [done|].
    split; [|by rewrite (sh_movable _ _ _ _ S)|rewrite (sh_front _ _ _ _ S); unfold udp_front, udp_room, UDP_HLEN; by rewrite E].
    exists bs, (nb_first p). split_and!; [apply S|apply S|by rewrite (sh_rest _ _ _ _ S)].
  - rewrite nb_show_fails; [|done|].
    2: { apply andb_false_iff in E as [E|E]; [by left|right; by apply Z.leb_gt in E]. }
    cbn [res_bind]. destruct (pbuf_alloc_ok s) as [[] s1]; [|done].
    eexists. split; [done|]. destruct (Z.eqb_spec (nb_tot_len p) 0) as [H0|H0].
    + split; [|done|unfold udp_front, udp_room; by rewrite E]. exists (repeat 0 8), []. split_and!; [done..|].
      unfold nb_tot_len in H0. destruct (nb_bytes p); [done|]. rewrite zlen_cons in H0. pose proof (zlen_nonneg l). lia.
    + split; [|done|unfold udp_front, udp_room; by rewrite E]. by exists (repeat 0 8), [].
Qed.
Lemma udp_fill_header_eq (u : udp_pcb) dport src dst p q : headed p q -> bytes_ok (nb_bytes p) -> 8 + nb_tot_len p <= 65535 ->
  is_u32 src -> is_u32 dst ->
  exists q' c, udp_fill_header u dport src dst q = Ok q' /\
    nb_first q' = udp_hdr_bytes (up_local_port u) dport (8 + zlen (nb_bytes p)) (udp_field (up_flags u) src dst (up_local_port u) dport (nb_bytes p)) ++ c /\
    nb_bytes p = c ++ concat (nb_rest q') /\ zlen (nb_front q') = udp_front p /\ nb_movable q' = true.
Proof.
  intros [(bs & c & Hbs & Hq & Hc) Hm Hf] Hb Hl Hs Hd. unfold udp_fill_header.
  pose proof (zlen_nonneg (nb_bytes p)) as Hnn. unfold nb_tot_len in Hl.
  assert (Ht : nb_tot_len q = 8 + zlen (nb_bytes p)).
  { rewrite nb_tot_eq. unfold nb_len. rewrite Hq, zlen_app, Hbs, Hc, zlen_app. lia. }
  rewrite Ht, (u16_id (8 + zlen (nb_bytes p))) by lia. set (len := 8 + zlen (nb_bytes p)) in *.
  destruct (nb_write_front (udp_hdr_bytes (up_local_port u) dport len 0) bs c q) as (q1 & -> & H1 & H2 & H3 & H4 & H5); [done|by rewrite Hbs|].
  cbn [res_bind]. unfold udp_field. fold len.
  destruct (has_flag (up_flags u) UDP_FLAGS_NOCHKSUM).
  { exists q1, c. split_and!; try done; by rewrite ?H2, ?H3, ?H4. }
  assert (Hq1 : nb_bytes q1 = udp_hdr_bytes (up_local_port u) dport len 0 ++ nb_bytes p).
  { rewrite (nb_bytes_eq q1), H1, H2, Hc. by rewrite app_assoc. }
  rewrite inet_chksum_pseudo_eq; [| |done|done|done|unfold is_u16, len; lia].
  2: { apply nb_segs_ok; [|unfold nb_tot_len; rewrite Hq1, zlen_app; change (zlen (udp_hdr_bytes _ _ _ _)) with 8; lia].
       rewrite Hq1. apply bytes_ok_app. split; [apply udp_hdr_ok|done]. }
  rewrite nb_segs_bytes, Hq1.
  set (f := if _ =? 0 then _ else _).
  destruct (nb_write_bytes 6 (store_le16 f) q1) as (q2 & -> & (S1 & _ & S2 & S3) & Hb2 & _); [done| |].
  { unfold nb_len. rewrite H1, zlen_app. change (zlen (udp_hdr_bytes _ _ _ _)) with 8. change (zlen (store_le16 f)) with 2. pose proof (zlen_nonneg c). lia. }
  exists q2, c. split; [done|]. rewrite Hb2, H1, S1, S2, S3, H2, H3, H4. split_and!; done.
Qed.

(** The fields of a block have the widths of the C struct. *)
Record udp_ok (u : udp_pcb) : Prop := {
  uo_local : is_u32 (up_local_ip u);
  uo_tos : is_u8 (up_tos u);
  uo_ttl : is_u8 (up_ttl u)
}.
Definition udp_src (u : udp_pcb) (n : netif) : Z := if up_local_ip u =? IPADDR_ANY then nif_ip_addr n else up_local_ip u.
(** What a block sends: the IP header and the datagram. *)
Definition udp_iphdr (u : udp_pcb) (n : netif) (ipid dst : Z) (data : list Z) : ip_hdr :=
  mk_iphdr 5 (up_tos u) (28 + zlen data) ipid 0 (up_ttl u) IP_PROTO_UDP (udp_src u n) dst.
Definition udp_packet (u : udp_pcb) (n : netif) (ipid dst dport : Z) (data : list Z) : list Z :=
  ip_packet (udp_iphdr u n ipid dst data) (udp_datagram (up_flags u) (udp_src u n) dst (up_local_port u) dport data).
Lemma udp_iphdr_ok u n ipid dst data : udp_ok u -> is_u32 (nif_ip_addr n) -> is_u16 ipid -> is_u32 dst -> 28 + zlen data <= 65535 ->
  hdr_ok (udp_iphdr u n ipid dst data).
Proof.
  intros [H1 H2 H3] Hn Hi Hd Hl. pose proof (zlen_nonneg data). unfold udp_iphdr, udp_src.
  split; cbn; try done; unfold is_u16, is_u8 in *; try lia. by destruct (_ =? _).
Qed.

Lemma udp_sendto_if_eq s s0 e id u p dst dport nif n :
  udp_ensure_port id s = Ok (e, s0) -> udp_tbl s0 !! id = Some u -> inet_if nif s0 = Ok n ->
  udp_ok u -> is_u32 (nif_ip_addr n) -> is_u16 (ip_id s0) -> is_u32 dst -> bytes_ok (nb_bytes p) -> 28 + nb_tot_len p <= 65535 ->
  let '(ok, s1) := if udp_room p then (true, s0) else pbuf_alloc_ok s0 in
  if negb (e =? ERR_OK) then udp_sendto_if id p dst dport nif s = Ok (e, s0)
  else if negb ok then udp_sendto_if id p dst dport nif s = Ok (ERR_MEM, s1)
  else if negb (up_local_ip u =? IPADDR_ANY) && negb (up_local_ip u =? nif_ip_addr n) then
    udp_sendto_if id p dst dport nif s = Ok (ERR_VAL, s1)
  else if udp_front p <? 20 then udp_sendto_if id p dst dport nif s = Ok (ERR_BUF, s1)
  else exists q, udp_sendto_if id p dst dport nif s = ip_send nif q dst (next_id s1) /\
    nb_bytes q = udp_packet u n (ip_id s1) dst dport (nb_bytes p) /\ 28 <= nb_len q /\
    zlen (nb_front q) = udp_front p - 20 /\ nb_movable q = true.
Proof.
  intros He Hu Hn Huo Hnip Hid Hd Hb Hl. pose proof (udp_add_header_eq p s0) as Ha.
  destruct (if udp_room p then _ else _) as [ok s1] eqn:Eal.
  assert (Hsame : in_stack s1 = in_stack s0 /\ ip_id s1 = ip_id s0).
  { destruct (udp_room p); [by injection Eal as _ <-|]. unfold pbuf_alloc_ok in Eal. by destruct (in_allocs s0); injection Eal as _ <-. }
  destruct Hsame as [Hst His]. assert (Hn1 : inet_if nif s1 = Ok n) by (unfold inet_if; by rewrite Hst).
  unfold udp_sendto_if. rewrite He. cbn [res_bind]. destruct (negb (e =? ERR_OK)); [done|].
  unfold get_udp. rewrite Hu. cbn [of_option res_bind]. destruct ok; cbn [negb]; [|by rewrite Ha].
  destruct Ha as (q & -> & Hq). cbn [res_bind]. pose proof Hq as [(bs & c & Hbs & Hqf & Hc) Hm Hf].
  rewrite (proj2 (Z.leb_le UDP_HLEN (nb_len q))).
  2: { unfold nb_len, UDP_HLEN. rewrite Hqf, zlen_app, Hbs. pose proof (zlen_nonneg c). lia. }
  cbn [lwip_assert res_bind]. rewrite Hn1. cbn [res_bind].
  destruct (negb (up_local_ip u =? IPADDR_ANY) && negb (up_local_ip u =? nif_ip_addr n)); [done|].
  fold (udp_src u n). assert (Hsrc : is_u32 (udp_src u n)) by (unfold udp_src; destruct (_ =? _); [done|apply Huo]).
  destruct (udp_fill_header_eq u dport (udp_src u n) dst p q) as (q' & c' & -> & Hq1 & Hq2 & Hq3 & Hq4); [done|done|lia|done|done|].
  cbn [res_bind]. destruct (udp_front p <? 20) eqn:Er.
  { apply ip_output_if_no_room. right. rewrite Hq3. by apply Z.ltb_lt. }
  apply Z.ltb_ge in Er.
  assert (Ht : nb_tot_len q' = 8 + zlen (nb_bytes p)).
  { rewrite nb_tot_eq. unfold nb_len. rewrite Hq1, zlen_app, Hq2, zlen_app. change (zlen (udp_hdr_bytes _ _ _ _)) with 8. lia. }
  assert (Hhdr : sent_hdr n (ip_id s1) (udp_src u n) dst (up_ttl u) (up_tos u) IP_PROTO_UDP (nb_tot_len q') = udp_iphdr u n (ip_id s1) dst (nb_bytes p)).
  { unfold sent_hdr, udp_iphdr. rewrite Ht. f_equal.
    - unfold nb_tot_len in Hl. pose proof (zlen_nonneg (nb_bytes p)). rewrite u16_id by lia. lia.
    - unfold udp_src. destruct (Z.eqb_spec (up_local_ip u) IPADDR_ANY) as [H0|H0]; [by destruct (nif_ip_addr n =? _)|].
      by rewrite (proj2 (Z.eqb_neq _ _) H0). }
  destruct (ip_output_if_eq q' (udp_src u n) dst (up_ttl u) (up_tos u) IP_PROTO_UDP nif n s1) as (r & -> & R1 & R2 & R3 & R4 & R5);
    [done|done|lia|rewrite Hhdr; apply udp_iphdr_ok; try done; congruence|].
  exists r. split; [done|]. rewrite Hhdr in R1. rewrite nb_bytes_eq, R1, R2. split; [|split; [|split; [lia|done]]].
  - unfold udp_packet, ip_packet, udp_datagram. rewrite Hq1, Hq2 at 1. rewrite <- !app_assoc. rewrite <- Hq2. done.
  - unfold nb_len. rewrite R1. unfold ip_packet. rewrite Hq1, !zlen_app. change (zlen (udp_hdr_bytes _ _ _ _)) with 8.
    rewrite ip_hdr_bytes_len. pose proof (zlen_nonneg c'). lia.
Qed.

(** Binding changes nothing below. *)
Lemma udp_new_port_stack s r s' : udp_new_port s = Ok (r, s') -> in_stack s' = in_stack s.
Proof. unfold udp_new_port. destruct (udp_new_port_loop _ _ _ _) as [[port k]|]; [|done]. cbn [res_bind]. by intros [= <- <-]. Qed.
Lemma udp_bind_stack id ip port s e s' : udp_bind id ip port s = Ok (e, s') -> in_stack s' = in_stack s.
Proof.
  unfold udp_bind. destruct (get_udp s id) as [u|]; [|done]. cbn [res_bind]. destruct (udp_bind_loop _ _ _ _ _ _ _) as [[r|]|]; cbn [res_bind]; [|by intros [= <- <-]|done].
  destruct (port =? 0).
  - destruct (udp_new_port _) as [[q s1]|] eqn:E; [|done]. cbn [res_bind]. apply udp_new_port_stack in E.
    destruct (q =? 0); intros [= <- <-]; [done|]. by destruct r.
  - cbn [res_bind]. destruct (port =? 0); intros [= <- <-]; [done|]. by destruct r.
Qed.
Lemma udp_ensure_stack id s e s' : udp_ensure_port id s = Ok (e, s') -> in_stack s' = in_stack s.
Proof.
  unfold udp_ensure_port. destruct (get_udp s id) as [u|]; [|done]. cbn [res_bind].
  destruct (_ =? _); [apply udp_bind_stack|by intros [= <- <-]].
Qed.

(** The error of a send from a bound block, when there is one. [ok]: the pbuf
    for the header could be allocated. *)
Definition udp_send_error (u : udp_pcb) (n : netif) (p : nbuf) (ok : bool) : option err_t :=
  if negb ok then Some ERR_MEM
  else if negb (up_local_ip u =? IPADDR_ANY) && negb (up_local_ip u =? nif_ip_addr n) then Some ERR_VAL
  else if udp_front p <? 20 then Some ERR_BUF
  else None.
Lemma udp_alloc_same s p ok s1 : (if udp_room p then (true, s) else pbuf_alloc_ok s) = (ok, s1) ->
  in_stack s1 = in_stack s /\ ip_id s1 = ip_id s.
Proof.
  destruct (udp_room p); [by intros [= _ <-]|]. unfold pbuf_alloc_ok. by destruct (in_allocs s); intros [= _ <-].
Qed.
(** A send without an error and without fragmentation. *)
Lemma udp_sends s s0 id u p dst dport nif n ok s1 :
  udp_ensure_port id s = Ok (ERR_OK, s0) -> udp_tbl s0 !! id = Some u -> udp_ok u -> route s dst = Some (nif, n) ->
  is_u32 (nif_ip_addr n) -> is_u16 (ip_id s0) -> is_u32 dst -> bytes_ok (nb_bytes p) -> 28 + nb_tot_len p <= 65535 ->
  fits (28 + nb_tot_len p) n -> (if udp_room p then (true, s0) else pbuf_alloc_ok s0) = (ok, s1) -> udp_send_error u n p ok = None ->
  inet_if nif s1 = Ok n /\ in_stack s1 = in_stack s /\ hdr_ok (udp_iphdr u n (ip_id s1) dst (nb_bytes p)) /\
  exists q, udp_sendto id p dst dport s = netif_output nif q dst (next_id s1) /\
    nb_bytes q = udp_packet u n (ip_id s1) dst dport (nb_bytes p) /\ zlen (nb_front q) = udp_front p - 20 /\ nb_movable q = true.
Proof.
  intros He Hu Huo Hroute Hn Hid Hd Hb Hl Hf Eal Herr.
  assert (Hst : in_stack s0 = in_stack s) by by eapply udp_ensure_stack.
  assert (Hnif : inet_if nif s0 = Ok n).
  { apply route_ok in Hroute as (x & Hx & ->). unfold inet_if. rewrite Hst. by apply inet_if_ok. }
  pose proof (udp_sendto_if_eq s s0 ERR_OK id u p dst dport nif n He Hu Hnif Huo Hn Hid Hd Hb Hl) as Hs.
  destruct (udp_alloc_same s0 p ok s1 Eal) as [Hst1 Hid1]. rewrite Eal in Hs. unfold udp_send_error in Herr.
  change (negb (ERR_OK =? ERR_OK)) with false in Hs. cbv iota in Hs.
  destruct (negb ok); [done|]. destruct (negb _ && _); [done|]. destruct (udp_front p <? 20); [done|].
  destruct Hs as (q & Hq1 & Hq2 & _ & Hq3 & Hq4). unfold udp_sendto. rewrite Hroute, Hq1. unfold nb_tot_len in *.
  assert (Hn1 : inet_if nif s1 = Ok n) by (unfold inet_if; by rewrite Hst1).
  split_and!; [done|congruence|apply udp_iphdr_ok; try done; congruence|]. exists q. split_and!; try done.
  apply (ip_send_small nif q dst n); [exact Hn1|].
  unfold nb_tot_len. rewrite Hq2. unfold udp_packet, ip_packet, udp_datagram. rewrite !zlen_app, ip_hdr_bytes_len.
  change (zlen (udp_hdr_bytes _ _ _ _)) with 8. by replace (20 + (8 + zlen (nb_bytes p))) with (28 + zlen (nb_bytes p)) by lia.
Qed.
End Send.
