(* ===== verification/UdpRound.v ===== *)
(** * UDP from one host to another

    A datagram that [udp_sendto] sends is delivered by the [ip_input] of the
    receiver, whatever the cut into pbufs and the padding of the frame; and the
    errors of [udp_sendto]. *)
From S2P Require Import Prelude ByteOrder IpAddr Checksum Ip Tcp TcpOut TcpIn TcpWorld TcpProcess TcpScenarios Etharp EtharpTable Netif IpFrag Nbuf Inet Icmp Udp Raw TcpWire IpInput InetDemo InetHdr InetSafe InetSend.

(** ** Trimming a packet *)
Lemma cut_bytes l : forall n, concat (cut n l) = take n (concat l).
Proof.
  induction l as [|b l IH]; intros n; cbn; [by destruct n|]. destruct (Nat.leb n (length b)) eqn:E; cbn.
  - apply Nat.leb_le in E. by rewrite app_nil_r, take_app_le.
  - apply Nat.leb_gt in E. rewrite IH, take_app. by rewrite (take_ge b) by lia.
Qed.
Lemma nb_realloc_bytes n p a b : nb_bytes p = a ++ b -> zlen a = n -> exists q, nb_realloc n p = Ok q /\ nb_bytes q = a /\
  nb_len q = Z.min n (nb_len p) /\ nb_movable q = nb_movable p.
Proof.
  intros Hp Ha. destruct (nb_realloc_ok n p) as (q & Hq & Hl & _ & _ & Hm); [pose proof (zlen_nonneg a); lia|].
  exists q. split; [done|]. unfold nb_realloc in Hq. pose proof (nb_len_tot p). rewrite Hl.
  unfold nb_tot_len in *. rewrite Hp, zlen_app in *. pose proof (zlen_nonneg b).
  destruct (Z.leb_spec (zlen a + zlen b) n) as [Hle|Hle].
  - injection Hq as <-. split_and!; [|lia|done]. rewrite Hp. destruct b as [|x b]; [by rewrite app_nil_r|].
    rewrite zlen_cons in *. pose proof (zlen_nonneg b). lia.
  - split_and!; [|lia|done]. destruct (cut (Z.to_nat n) (nb_pbufs p)) as [|b' l'] eqn:E; [done|]. injection Hq as <-.
    change (concat (b' :: l') = a). rewrite <- E, cut_bytes. fold (nb_bytes p). rewrite Hp, <- Ha. unfold zlen. rewrite Nat2Z.id.
    apply take_drop_app.
Qed.
Lemma nb_hide_bytes n p a b : nb_bytes p = a ++ b -> zlen a = n -> 0 < n <= nb_len p -> exists q, nb_header (- n) p = Ok (Some q) /\ nb_bytes q = b /\
  nb_len q = nb_len p - n /\ nb_movable q = nb_movable p /\ zlen (nb_front q) = zlen (nb_front p) + n.
Proof.
  intros Hp Ha Hn. destruct (nb_first_prefix p a b Hp) as (c & Hc & Hb); [lia|].
  destruct (nb_hide_eq n p Hn) as (q & -> & H1 & H2 & H3 & H4). exists q. split; [done|].
  assert (Hdrop : nb_first q = c).
  { rewrite H1, Hc, <- Ha. unfold zlen. rewrite Nat2Z.id. apply take_drop_app. }
  split_and!; [by rewrite nb_bytes_eq, H2, Hdrop| |done|].
  - unfold nb_len. rewrite Hdrop, Hc, zlen_app. lia.
  - unfold nb_len in Hn. rewrite H4, zlen_app. unfold zlen at 2. rewrite length_take. unfold zlen in *. lia.
Qed.
(** Reading a number that was written. *)
Lemma nb_u16_at off p pre v post : nb_bytes p = pre ++ store_le16 (lwip_htons v) ++ post -> zlen pre = off -> off + 2 <= nb_len p -> is_u16 v ->
  nb_u16 off p = Ok v.
Proof.
  intros Hp Hpre Hl Hv. rewrite app_assoc in Hp. destruct (nb_first_prefix p _ _ Hp) as (c & Hc & _).
  { rewrite zlen_app. change (zlen (store_le16 _)) with 2. lia. }
  pose proof (zlen_nonneg pre).
  unfold nb_u16. rewrite (nb_read_app off 2 p _ c Hc); [|lia|done|rewrite zlen_app; change (zlen (store_le16 _)) with 2; lia].
  unfold slice. rewrite <- Hpre. unfold zlen. rewrite Nat2Z.id. rewrite drop_app_length. cbn [res_bind store_le16].
  change (take (Z.to_nat 2) (store_le16 (lwip_htons v))) with (store_le16 (lwip_htons v)). unfold store_le16. cbn [res_bind].
  rewrite load_store16 by apply lwip_htons_range. unfold lwip_ntohs. by rewrite lwip_htons_invol.
Qed.
Lemma htons_0 v : is_u16 v -> store_le16 v = store_le16 (lwip_htons (lwip_htons v)).
Proof. intros. by rewrite lwip_htons_invol. Qed.

(** ** The checks of the receiver *)
Lemma ip_check_packet h p data pad : hdr_ok h -> nb_bytes p = ip_packet h data ++ pad -> iph_len h = 20 + zlen data -> 20 <= nb_len p ->
  ip_check p = Ok (Some h).
Proof.
  intros Hh Hp Hl Hlen. unfold ip_packet in Hp. rewrite <- app_assoc in Hp.
  destruct (nb_first_prefix p _ _ Hp) as (c & Hc & _); [by rewrite ip_hdr_bytes_len|].
  apply (ip_check_bytes h p c); [done|done|]. unfold nb_tot_len. rewrite Hp, !zlen_app, ip_hdr_bytes_len, Hl. pose proof (zlen_nonneg pad). lia.
Qed.
(** The checksum field of a datagram passes: it is 0 or right. *)
Lemma udp_field_range flags src dst sport dport data : is_u16 (udp_field flags src dst sport dport data).
Proof.
  unfold udp_field. destruct (has_flag _ _); [unfold is_u16; lia|]. set (n := not16 _).
  assert (is_u16 n) by (unfold n; pose proof (norm_range (le_value (pseudo_header src dst IP_PROTO_UDP (8 + zlen data) ++ udp_hdr_bytes sport dport (8 + zlen data) 0 ++ data)));
    rewrite not16_eq by (unfold is_u16; lia); unfold is_u16; lia).
  destruct (n =? 0); [unfold is_u16; lia|done].
Qed.
Lemma udp_field_verifies flags src dst sport dport data p : bytes_ok data -> is_u32 src -> is_u32 dst -> 8 + zlen data <= 65535 ->
  nb_bytes p = udp_datagram flags src dst sport dport data ->
  udp_field flags src dst sport dport data = 0 \/ inet_chksum_pseudo (nb_segs p) src dst IP_PROTO_UDP (nb_tot_len p) = 0.
Proof.
  intros Hd Hs Ht Hl Hp. pose proof (zlen_nonneg data).
  assert (Htot : nb_tot_len p = 8 + zlen data) by (unfold nb_tot_len; rewrite Hp; unfold udp_datagram; by rewrite zlen_app).
  assert (Hok : bytes_ok (nb_bytes p)) by (rewrite Hp; apply bytes_ok_app; split; [apply udp_hdr_ok|done]).
  rewrite inet_chksum_pseudo_eq; [|apply nb_segs_ok; [done|lia]|done|done|done|unfold is_u16; lia].
  rewrite nb_segs_bytes, Hp, Htot. unfold udp_datagram, udp_field. destruct (has_flag _ _); [by left|]. right.
  set (len := 8 + zlen data). set (hdr := store_le16 (lwip_htons sport) ++ store_le16 (lwip_htons dport) ++ store_le16 (lwip_htons len)).
  set (pre := pseudo_header src dst IP_PROTO_UDP len ++ hdr).
  assert (Hpre : bytes_ok pre).
  { apply bytes_ok_app. split; [by apply pseudo_header_ok|]. pose proof (udp_hdr_ok sport dport len 0) as Hh. rewrite udp_hdr_split in Hh.
    by apply bytes_ok_app in Hh as [? _]. }
  destruct (norm_chksum pre data Hpre Hd eq_refl) as [_ Hn].
  assert (Heq : forall c, pseudo_header src dst IP_PROTO_UDP len ++ udp_hdr_bytes sport dport len c ++ data = pre ++ store_le16 c ++ data).
  { intros c. rewrite udp_hdr_split. unfold pre. by rewrite <- !app_assoc. }
  rewrite Heq. rewrite (Heq 0). change (store_le16 0) with [0; 0]. by rewrite Hn.
Qed.

(** ** The sender *)
Section Sender.
Context {A : Type}.
Implicit Types (s : inet A) (p q : nbuf) (nif : nat) (id : addr).
(** C21. The result of [udp_sendto] in every case. Without a route it is ERR_RTE
    and nothing changes. When the block has no port and cannot get one it is the
    error of [udp_bind]. Then come ERR_MEM when the header needs a pbuf
    that is not there, ERR_VAL when the block is bound to an address the
    interface no longer has, ERR_BUF when there is room for the UDP header but
    none for the IP header. In all these cases nothing is sent. Otherwise the IP
    packet with the datagram, whose lengths and checksums are those of
    the standard, goes to the interface of the route. *)
Theorem udp_sendto_correct s s0 e id u p dst dport :
  udp_ensure_port id s = Ok (e, s0) -> udp_tbl s0 !! id = Some u -> udp_ok u ->
  (forall nif n, inet_if nif s = Ok n -> is_u32 (nif_ip_addr n)) -> is_u16 (ip_id s0) -> is_u32 dst ->
  bytes_ok (nb_bytes p) -> 28 + nb_tot_len p <= 65535 ->
  let '(ok, s1) := if udp_room p then (true, s0) else pbuf_alloc_ok s0 in
  in_stack s0 = in_stack s /\ in_stack s1 = in_stack s /\
  match route s dst with
  | None => udp_sendto id p dst dport s = Ok (ERR_RTE, s)
  | Some (nif, n) =>
      if negb (e =? ERR_OK) then udp_sendto id p dst dport s = Ok (e, s0)
      else match udp_send_error u n p ok with
           | Some err => udp_sendto id p dst dport s = Ok (err, s1)
           | None => exists q, udp_sendto id p dst dport s = ip_send nif q dst (next_id s1) /\
               nb_bytes q = udp_packet u n (ip_id s1) dst dport (nb_bytes p)
           end
  end.
Proof.
  intros He Hu Huo Hif Hid Hd Hb Hl. pose proof (udp_ensure_stack id s e s0 He) as Hst.
  assert (Hroute : forall nif n, route s dst = Some (nif, n) -> inet_if nif s = Ok n).
  { intros nif n Hr. apply route_ok in Hr as (x & Hx & ->). by apply inet_if_ok. }
  assert (Hsend : forall nif n, inet_if nif s = Ok n -> _) by (intros nif n Hn;
    exact (udp_sendto_if_eq s s0 e id u p dst dport nif n He Hu ltac:(unfold inet_if; rewrite Hst; exact Hn) Huo (Hif nif n Hn) Hid Hd Hb Hl)).
  assert (Hs1 : forall ok s1, (if udp_room p then (true, s0) else pbuf_alloc_ok s0) = (ok, s1) -> in_stack s1 = in_stack s).
  { intros ok s1. destruct (udp_room p); [by intros [= <- <-]|]. unfold pbuf_alloc_ok. by destruct (in_allocs s0); intros [= <- <-]. }
  destruct (if udp_room p then _ else _) as [ok s1]. split_and!; [done|by eapply Hs1|].
  unfold udp_sendto. destruct (route s dst) as [[nif n]|]; [|done]. specialize (Hsend nif n (Hroute nif n eq_refl)). unfold udp_send_error.
  destruct (negb (e =? ERR_OK)); [done|]. destruct (negb ok); [done|]. destruct (negb _ && _); [done|]. destruct (udp_front p <? 20); [done|].
  destruct Hsend as (q & -> & Hq & _). by exists q.
Qed.
End Sender.

(** ** The receiver *)
Section Receive.
Context {A : Type} (cb : tcp_callbacks A) (eats : addr -> list Z -> Z -> bool).
Implicit Types (s : inet A) (p q : nbuf) (inp : nat).

(** Raw blocks that eat nothing only watch. *)
Definition watchers s : Prop := (forall id bs src, eats id bs src = false) /\ Forall (fun k => is_Some (raw_tbl s !! k)) (raw_pcbs s).
Lemma raw_input_watches h p s : watchers s -> exists l, raw_input eats h p s = Ok (false, s <| in_log := in_log s ++ l |>) /\ Forall watched l.
Proof.
  intros [He Ht]. unfold raw_input.
  assert (Hl : forall pcbs s0, raw_tbl s0 = raw_tbl s -> Forall (fun k => is_Some (raw_tbl s !! k)) pcbs ->
    exists l, raw_loop eats pcbs (iph_proto h) (iph_src h) (iph_dest h) p s0 = Ok (None, s0 <| in_log := in_log s0 ++ l |>) /\ Forall watched l).
  { induction pcbs as [|k pcbs IH]; intros s0 Hs0 Hf; cbn [raw_loop].
    { exists []. rewrite app_nil_r. split; [by destruct s0|done]. }
    apply Forall_cons in Hf as [[r Hr] Hf]. unfold get_raw. rewrite Hs0, Hr. cbn [of_option res_bind].
    destruct (_ && _); [|by apply IH]. rewrite He.
    destruct (IH (log (ToRaw k (nb_bytes p) (iph_src h) false) s0) Hs0 Hf) as (l & -> & Hw).
    exists (ToRaw k (nb_bytes p) (iph_src h) false :: l). split; [|by constructor].
    unfold log. cbn. by rewrite <- app_assoc. }
  destruct (Hl (raw_pcbs s) s eq_refl Ht) as (l & -> & Hw). cbn [res_bind]. by exists l.
Qed.

(** What makes the host take a datagram from [src] to [dst] and give it to
    block [k]. *)
Record receives s inp (m : netif) (src dst sport dport : Z) (k : addr) (v : udp_pcb) : Prop := {
  rc_if : inet_if inp s = Ok m;
  rc_accept : exists i, find_accepting inp dst s = Ok (Some i);
  rc_src : ip4_addr_isbroadcast src m = false /\ ip_addr_ismulticast src = false;
  rc_match : exists full uncon,
    udp_match (udp_tbl s) (udp_pcbs s) m src dst sport dport (ip4_addr_isbroadcast dst m) None = Ok (full, uncon) /\
    match full with Some i => Some i | None => uncon end = Some k;
  rc_block : udp_tbl s !! k = Some v;
  rc_recv : up_recv v = true
}.
Lemma udp_input_delivers h inp m p s flags sport dport data k v : hdr_ok h -> is_u16 sport -> is_u16 dport -> bytes_ok data -> 8 + zlen data <= 65535 ->
  nb_bytes p = ip_packet h (udp_datagram flags (iph_src h) (iph_dest h) sport dport data) -> 28 <= nb_len p ->
  receives s inp m (iph_src h) (iph_dest h) sport dport k v ->
  exists s', udp_input h inp p s = Ok s' /\ in_log s' = in_log s ++ [ToUdp k data (iph_src h) sport].
Proof.
  intros Hh Hsp Hdp Hb Hl Hp Hlen Hr. unfold udp_input. rewrite (ho_hl h Hh). change (5 * 4) with 20. unfold UDP_HLEN.
  pose proof (nb_len_tot p). rewrite (proj2 (Z.ltb_ge (nb_tot_len p) (20 + 8))) by lia.
  destruct (nb_hide_bytes 20 p _ _ Hp eq_refl) as (q & -> & Hq & Hql & Hqm & _); [lia|]. cbn [res_bind].
  rewrite (rc_if _ _ _ _ _ _ _ _ _ Hr). cbn [res_bind].
  set (f := udp_field flags (iph_src h) (iph_dest h) sport dport data) in *.
  assert (Hqb : nb_bytes q = store_le16 (lwip_htons sport) ++ store_le16 (lwip_htons dport) ++ store_le16 (lwip_htons (8 + zlen data)) ++ store_le16 f ++ data).
  { rewrite Hq. unfold udp_datagram. fold f. rewrite udp_hdr_split, <- !app_assoc. done. }
  rewrite (nb_u16_at 0 q [] sport _ Hqb) by (done || lia). cbn [res_bind].
  rewrite (nb_u16_at 2 q (store_le16 (lwip_htons sport)) dport _ Hqb) by (done || lia). cbn [res_bind].
  destruct (rc_match _ _ _ _ _ _ _ _ _ Hr) as (full & uncon & Hmatch & Hk). unfold udp_demux. rewrite Hmatch. cbn [res_bind].
  set (r := match full with Some i => (Some i, _) | None => (uncon, s) end).
  assert (Hr1 : r.1 = Some k /\ in_log r.2 = in_log s /\ udp_tbl r.2 = udp_tbl s) by (unfold r; by destruct full).
  destruct r as [pcb s1]. cbn in Hr1. destruct Hr1 as (-> & Hlog & Htbl).
  rewrite bool_decide_true by (by exists k). cbn [orb].
  assert (Hf : is_u16 f) by apply udp_field_range.
  rewrite (nb_u16_at 6 q (store_le16 (lwip_htons sport) ++ store_le16 (lwip_htons dport) ++ store_le16 (lwip_htons (8 + zlen data))) (lwip_htons f) data);
    [|by rewrite Hqb, lwip_htons_invol, <- !app_assoc|done|lia|apply lwip_htons_range].
  cbn [res_bind].
  assert (Hpass : negb (lwip_htons f =? 0) && negb (inet_chksum_pseudo (nb_segs q) (iph_src h) (iph_dest h) IP_PROTO_UDP (nb_tot_len q) =? 0) = false).
  { destruct (udp_field_verifies flags (iph_src h) (iph_dest h) sport dport data q Hb (ho_src h Hh) (ho_dest h Hh) Hl Hq) as [H0|H0].
    - fold f in H0. by rewrite H0.
    - by rewrite H0, andb_false_r. }
  rewrite Hpass. unfold udp_deliver, UDP_HLEN.
  destruct (nb_hide_bytes 8 q (udp_hdr_bytes sport dport (8 + zlen data) f) data) as (d & -> & Hd & _); [by rewrite Hq|done|lia|]. cbn [res_bind].
  unfold get_udp. rewrite Htbl, (rc_block _ _ _ _ _ _ _ _ _ Hr). cbn [of_option res_bind]. rewrite (rc_recv _ _ _ _ _ _ _ _ _ Hr).
  eexists. split; [done|]. rewrite <- Hd, <- Hlog. done.
Qed.
Lemma ip_input_udp h inp m p s flags sport dport data pad k v : hdr_ok h -> is_u16 sport -> is_u16 dport -> bytes_ok data ->
  iph_len h = 28 + zlen data -> iph_off h = 0 -> iph_proto h = IP_PROTO_UDP ->
  nb_bytes p = ip_packet h (udp_datagram flags (iph_src h) (iph_dest h) sport dport data) ++ pad -> 28 <= nb_len p ->
  watchers s -> receives s inp m (iph_src h) (iph_dest h) sport dport k v ->
  exists s' l, ip_input cb eats inp p s = Ok s' /\ Forall watched l /\ in_log s' = in_log s ++ l ++ [ToUdp k data (iph_src h) sport].
Proof.
  intros Hh Hsp Hdp Hb Hl Hoff Hproto Hp Hlen Hw Hr. unfold ip_input. pose proof (ho_len h Hh) as Hu. unfold is_u16 in Hu.
  assert (Hdl : zlen (udp_datagram flags (iph_src h) (iph_dest h) sport dport data) = 8 + zlen data) by (unfold udp_datagram; by rewrite zlen_app).
  rewrite (ip_check_packet h p _ pad Hh Hp) by (rewrite ?Hdl; lia). cbn [res_bind].
  pose proof (zlen_nonneg data).
  destruct (nb_realloc_bytes (iph_len h) p _ pad Hp) as (q & -> & Hq & Hql & _).
  { unfold ip_packet. rewrite zlen_app, ip_hdr_bytes_len, Hdl. lia. }
  cbn [res_bind]. destruct (rc_accept _ _ _ _ _ _ _ _ _ Hr) as [i ->]. cbn [res_bind].
  rewrite (rc_if _ _ _ _ _ _ _ _ _ Hr). cbn [res_bind]. destruct (rc_src _ _ _ _ _ _ _ _ _ Hr) as [-> ->]. cbn [orb].
  rewrite bool_decide_false by done. rewrite Hoff. change (has_flag 0 (Z.lor IP_OFFMASK IP_MF)) with false. cbn [res_bind].
  unfold ip_deliver. destruct (raw_input_watches h q s Hw) as (l & -> & Hwl). cbn [res_bind]. rewrite Hproto. change (IP_PROTO_UDP =? IP_PROTO_UDP) with true. cbv iota.
  destruct (udp_input_delivers h inp m q (s <| in_log := in_log s ++ l |>) flags sport dport data k v) as (s' & -> & Hs'); try done; [lia|lia|by destruct Hr|].
  exists s', l. split_and!; [done|done|]. rewrite Hs'. cbn. by rewrite <- app_assoc.
Qed.
End Receive.

(** C20. A datagram arrives: when [udp_sendto] meets none of its errors and the
    packet needs no fragmentation, the driver is given an IP packet, and every
    host that gets these bytes, cut into pbufs in any way with 28 bytes in the
    first, with any padding behind, and that accepts the address and has a
    block for the port, hands exactly the data to that block, with the address
    and port of the sender. Both checksums are verified on the way, also when
    the sender leaves the UDP checksum out or computes 0. The raw blocks of the
    receiving host only look at packets. (With fewer than 28 bytes in
    the first pbuf the header may be read behind it: [header_cut].) *)
Theorem udp_roundtrip {A B} (cb : tcp_callbacks B) eats (s s0 : inet A) (r : inet B) id u pk dst dport nif n inp m k v :
  udp_ensure_port id s = Ok (ERR_OK, s0) -> udp_tbl s0 !! id = Some u -> udp_ok u -> is_u16 (up_local_port u) -> route s dst = Some (nif, n) ->
  is_u32 (nif_ip_addr n) -> is_u16 (ip_id s0) -> is_u32 dst -> is_u16 dport ->
  bytes_ok (nb_bytes pk) -> 28 + nb_tot_len pk <= 65535 -> fits (28 + nb_tot_len pk) n ->
  receives r inp m (udp_src u n) dst (up_local_port u) dport k v -> watchers eats r ->
  let '(ok, s1) := if udp_room pk then (true, s0) else pbuf_alloc_ok s0 in
  udp_send_error u n pk ok = None ->
  exists q, udp_sendto id pk dst dport s = netif_output nif q dst (next_id s1) /\
    forall p pad, nb_bytes p = nb_bytes q ++ pad -> 28 <= nb_len p ->
      exists r' l, ip_input cb eats inp p r = Ok r' /\ Forall watched l /\
        in_log r' = in_log r ++ l ++ [ToUdp k (nb_bytes pk) (udp_src u n) (up_local_port u)].
Proof.
  intros He Hu Huo Hport Hroute Hn Hid Hd Hdp Hb Hl Hf Hr Hw. destruct (if udp_room pk then _ else _) as [ok s1] eqn:Eal. intros Herr.
  destruct (udp_sends s s0 id u pk dst dport nif n ok s1) as (_ & _ & Hhdr & q & -> & Hq & _); try done. exists q. split; [done|].
  intros p pad Hp Hlen. rewrite Hq in Hp.
  destruct (ip_input_udp cb eats (udp_iphdr u n (ip_id s1) dst (nb_bytes pk)) inp m p r (up_flags u) (up_local_port u) dport (nb_bytes pk) pad k v)
    as (r' & l & H1 & H2 & H3); try done. by exists r', l.
Qed.

(** ** Two concrete hosts *)
Definition lan_netif (ip : Z) : netif := mk_netif ip 0x00ffffff 0 1500 [2; 0; 0; 0; 0; 1] 0x33 (113, 117) 0.
Definition lan_host (ip other : Z) (u : udp_pcb) : inet unit :=
  mk_inet (mk_stack {[0%nat := mk_iface (lan_netif ip) None]} [0%nat] (Some 0%nat) 1
      (mk_arp_world (mk_entry None other (Some 0%nat) peer_mac ETHARP_STATE_STABLE 0 :: replicate 9 (mk_entry None 0 None [] ETHARP_STATE_EMPTY 0)) 0 [] [] []) world_init []) 77
    (mk_rstate [] 0 []) {[1%positive := u]} [1%positive] UDP_LOCAL_PORT_RANGE_START ∅ [] [] [].
Definition sender_pcb : udp_pcb := mk_udp 0 0 0 0 UDP_TTL 0 4000 0 false.
Definition receiver_pcb : udp_pcb := mk_udp 0 0 0 0 UDP_TTL 0 53 0 true.
Definition hello : nbuf := mk_nbuf (repeat 0 54) [104; 101; 108] [[108; 111]] true false 0.
Lemma lan_receives : receives (lan_host peer here receiver_pcb) 0 (lan_netif peer)
  here peer 4000 53 1%positive receiver_pcb.
Proof.
  split; try by vm_compute.
  - exists 0%nat. by vm_compute.
  - exists None, (Some 1%positive). by vm_compute.
Qed.
Lemma udp_roundtrip_witness : exists q, udp_sendto 1 hello peer 53 (lan_host here peer sender_pcb) = netif_output 0 q peer (next_id (lan_host here peer sender_pcb)) /\
  forall p, nb_bytes p = nb_bytes q ++ [0; 0] -> 28 <= nb_len p ->
    exists r', ip_input quiet_app no_raw 0 p (lan_host peer here receiver_pcb) = Ok r' /\ Exists (fun e => e = ToUdp 1%positive [104; 101; 108; 108; 111] here 4000) (in_log r').
Proof.
  destruct (udp_roundtrip quiet_app no_raw (lan_host here peer sender_pcb) (lan_host here peer sender_pcb) (lan_host peer here receiver_pcb) 1 sender_pcb hello peer 53
    0 (lan_netif here) 0
    (lan_netif peer) 1 receiver_pcb) as (q & Hq & Hr).
  - by vm_compute.
  - done.
  - split; by vm_compute.
  - by vm_compute.
  - by vm_compute.
  - by vm_compute.
  - by vm_compute.
  - by vm_compute.
  - unfold is_u16. lia.
  - unfold bytes_ok. repeat constructor; unfold is_u8; lia.
  - by vm_compute.
  - right. by vm_compute.
  - exact lan_receives.
  - split; [done|constructor].
  - by vm_compute.
  - exists q. split; [exact Hq|]. intros p Hp Hl. destruct (Hr p _ Hp Hl) as (r' & l & H1 & _ & H3). exists r'. split; [exact H1|].
    rewrite H3. apply Exists_app. right. apply Exists_app. right. by constructor.
Defined.
(** The arriving packet, cut behind [n] bytes. The check of udp_input is on the
    length of the chain, not of the first pbuf: a datagram whose UDP header
    is not wholly in the first pbuf is read behind it. In front of that, ip_input drops
    a packet whose IP header is cut. *)
Definition hello_cut (n : nat) : nbuf :=
  let bs := udp_packet sender_pcb (lan_netif here) 77 peer 53 [104; 101; 108; 108; 111] in mk_nbuf [] (take n bs) [drop n bs] true false 0.
Example header_cut : map (fun n => let! r := ip_input quiet_app no_raw 0 (hello_cut n) (lan_host peer here receiver_pcb) in Ok (in_log r)) [10; 20; 27; 28]%nat =
  [Ok [Freed]; Err BadAccess; Err BadAccess; Ok [ToUdp 1%positive [104; 101; 108; 108; 111] here 4000]].
Proof. vm_compute. reflexivity. Qed.
(** A packet with room for the UDP header but not for the IP header. *)
Definition tight : nbuf := mk_nbuf (repeat 0 10) [104; 101; 108] [] true false 0.
Lemma udp_sendto_correct_witness : udp_sendto 1 tight peer 53 (lan_host here peer sender_pcb) = Ok (ERR_BUF, lan_host here peer sender_pcb).
Proof.
  destruct (udp_sendto_correct (lan_host here peer sender_pcb) (lan_host here peer sender_pcb) ERR_OK 1 sender_pcb tight peer 53) as (_ & _ & H).
  - by vm_compute.
  - done.
  - split; by vm_compute.
  - intros nif n Hn. destruct nif as [|nif]; [injection Hn as <-; by vm_compute|].
    exfalso. unfold inet_if, get_netif, get_if, lan_host in Hn. cbn -[lookup] in Hn. by rewrite lookup_singleton_ne in Hn by done.
  - by vm_compute.
  - by vm_compute.
  - unfold bytes_ok. repeat constructor; unfold is_u8; lia.
  - by vm_compute.
  - change (route (lan_host here peer sender_pcb) peer) with (Some (0%nat, lan_netif here)) in H. exact H.
Defined.
