(* ===== verification/InetEcho.v ===== *)
(** * ICMP: the echo reply

    What [icmp_input] sends for an echo request, byte by byte, and when the
    checksum that is adjusted for the new type is right. *)
From S2P Require Import Prelude ByteOrder IpAddr Checksum Ip Tcp TcpOut TcpIn TcpWorld TcpProcess TcpScenarios Etharp EtharpTable Netif IpFrag Nbuf Inet Icmp Udp Raw TcpWire IpInput InetDemo InetHdr InetSafe InetSend UdpRound.

(** ** The message *)
Definition echo_message (type code chksum : Z) (rest : list Z) : list Z := [type; code] ++ store_le16 chksum ++ rest.
Lemma echo_chksum_eq c : is_u16 c -> echo_chksum c = if 65527 <=? c then c + 9 - 65536 else c + 8.
Proof.
  intros Hc. unfold echo_chksum, ICMP_ECHO. change (lwip_htons (0xffff - Z.shiftl 8 8)) with 65527. change (lwip_htons (Z.shiftl 8 8)) with 8.
  unfold is_u16, u16 in *. destruct (Z.leb_spec 65527 c); Z.div_mod_to_equations; lia.
Qed.
Lemma echo_chksum_range c : is_u16 c -> is_u16 (echo_chksum c).
Proof. intros Hc. rewrite echo_chksum_eq by done. unfold is_u16 in *. destruct (Z.leb_spec 65527 c); lia. Qed.
Lemma le_value_zero bs : bytes_ok bs -> le_value bs = 0 <-> Forall (eq 0) bs.
Proof.
  induction bs as [|b bs IH]; intros Hb; [by split|]. apply bytes_ok_cons in Hb as [Hb1 Hb]. pose proof (le_value_nonneg bs Hb).
  cbn [le_value]. rewrite Forall_cons, <- IH by done. unfold is_u8 in Hb1. lia.
Qed.
Lemma echo_value type code c rest : is_u16 c -> le_value (echo_message type code c rest) = type + 256 * code + 65536 * c + 4294967296 * le_value rest.
Proof.
  intros Hc. unfold echo_message. cbn [app le_value store_le16]. pose proof (store16_sum c Hc). lia.
Qed.
Lemma not16_zero n : 0 <= n <= 65535 -> not16 n = 0 <-> n = 65535.
Proof. intros Hn. rewrite not16_eq by (unfold is_u16; lia). lia. Qed.
Lemma norm_full v : 0 <= v -> norm v = 65535 <-> v <> 0 /\ v mod 65535 = 0.
Proof.
  intros Hv. unfold norm. destruct (Z.eqb_spec v 0) as [->|Hne]; [split; [done|tauto]|].
  split; [intros H; split; [done|]|intros [_ H]]; Z.div_mod_to_equations; lia.
Qed.
(** The checksum of the reply: right, unless everything but the type is 0. *)
Lemma echo_chksum_right code c rest : is_u8 code -> is_u16 c -> bytes_ok rest ->
  not16 (norm (le_value (echo_message ICMP_ECHO code c rest))) = 0 ->
  not16 (norm (le_value (echo_message ICMP_ER code (echo_chksum c) rest))) = 0 <-> ~ (code = 0 /\ Forall (eq 0) rest).
Proof.
  intros Hcode Hc Hr. pose proof (le_value_nonneg rest Hr) as H0. rewrite <- (le_value_zero rest Hr).
  pose proof (echo_chksum_range c Hc). rewrite !not16_zero by apply norm_range.
  rewrite !norm_full by (rewrite echo_value by done; unfold ICMP_ER, ICMP_ECHO, is_u8, is_u16 in *; lia).
  rewrite !echo_value by done. rewrite echo_chksum_eq by done. unfold ICMP_ER, ICMP_ECHO, is_u8, is_u16 in *. set (R := le_value rest) in *.
  intros [_ Hm]. destruct (Z.leb_spec 65527 c) as [Hge|Hlt].
  - replace (0 + 256 * code + 65536 * (c + 9 - 65536) + 4294967296 * R) with (8 + 256 * code + 65536 * c + 4294967296 * R + (- 65528) * 65535)
      in * by lia.
    rewrite Z.mod_add, Hm by lia. split; [|split; [|done]]; [intros [Hne _] [-> HR]; rewrite HR in *|].
    + apply Hne. Z.div_mod_to_equations. lia.
    + lia.
  - replace (0 + 256 * code + 65536 * (c + 8) + 4294967296 * R) with (8 + 256 * code + 65536 * c + 4294967296 * R + 8 * 65535) by lia.
    rewrite Z.mod_add, Hm by lia. split; [|split; [lia|done]]. intros _ [-> HR]. rewrite HR in *. Z.div_mod_to_equations. lia.
Qed.

(** ** The reply *)
Lemma nb_write_at off bs p a old b : nb_first p = a ++ old ++ b -> zlen a = off -> zlen old = zlen bs ->
  nb_write off bs p = Ok (p <| nb_first := a ++ bs ++ b |>).
Proof.
  intros Hp Ha Ho. unfold nb_write, nb_len. rewrite Hp, !zlen_app, Ha, Ho. pose proof (zlen_nonneg b).
  rewrite (proj2 (Z.leb_le _ _)) by lia. do 2 f_equal. rewrite <- Ha. unfold zlen in *. rewrite Nat2Z.id.
  rewrite take_app_length. do 2 f_equal. rewrite <- Nat2Z.inj_add, Nat2Z.id. rewrite app_assoc, drop_app_ge by (rewrite length_app; lia).
  by replace (length a + length bs - length (a ++ old))%nat with 0%nat by (rewrite length_app; lia).
Qed.
Lemma nb_set_twice p a b : p <| nb_first := a |> <| nb_first := b |> = p <| nb_first := b |>.
Proof. done. Qed.
Definition reply_hdr (h : ip_hdr) : ip_hdr :=
  mk_iphdr (iph_hl h) (iph_tos h) (iph_len h) (iph_id h) (iph_off h) ICMP_TTL (iph_proto h) (iph_dest h) (iph_src h).
Lemma reply_hdr_ok h : hdr_ok h -> hdr_ok (reply_hdr h).
Proof. intros []. by split. Qed.
Lemma nb_u16_mem off p a c b : nb_first p = a ++ store_le16 c ++ b -> zlen a = off -> is_u16 c -> nb_u16 off p = Ok (lwip_htons c).
Proof.
  intros Hp Ha Hc. pose proof (zlen_nonneg a). unfold nb_u16. rewrite app_assoc in Hp.
  rewrite (nb_read_app off 2 p _ b Hp); [|lia|done|rewrite zlen_app; change (zlen (store_le16 _)) with 2; lia].
  unfold slice. rewrite <- Ha. unfold zlen. rewrite Nat2Z.id, drop_app_length.
  change (take (Z.to_nat 2) (store_le16 c)) with (store_le16 c). unfold store_le16. cbn [res_bind]. rewrite load_store16 by done. done.
Qed.
Lemma echo_reply_eq h c0 code c rest p : hdr_ok h -> is_u16 c ->
  nb_first p = ip_hdr_bytes h c0 ++ echo_message ICMP_ECHO code c rest ->
  echo_reply 20 (iph_src h) (iph_dest h) p =
    Ok (p <| nb_first := ip_hdr_bytes (reply_hdr h) (ip_hdr_chksum (reply_hdr h)) ++ echo_message ICMP_ER code (echo_chksum c) rest |>).
Proof.
  intros Hh Hc Hp. unfold echo_reply.
  set (pre k t := [IPH_VHL h; iph_tos h] ++ store_le16 (lwip_htons (iph_len h)) ++ store_le16 (lwip_htons (iph_id h)) ++
    store_le16 (lwip_htons (iph_off h)) ++ [t; iph_proto h] ++ store_le16 k).
  assert (Hpre : forall k t, zlen (pre k t) = 12) by done.
  set (m ty ck := echo_message ty code ck rest).
  rewrite (nb_write_at 12 _ p (pre c0 (iph_ttl h)) (store_le32 (iph_src h)) (store_le32 (iph_dest h) ++ m ICMP_ECHO c));
    [|by rewrite Hp|done|done]. cbn [res_bind].
  rewrite (nb_write_at 16 _ _ (pre c0 (iph_ttl h) ++ store_le32 (iph_dest h)) (store_le32 (iph_dest h)) (m ICMP_ECHO c)); [|done..].
  cbn [res_bind].
  set (h20 k t := pre k t ++ store_le32 (iph_dest h) ++ store_le32 (iph_src h)).
  rewrite (nb_write_at 20 _ _ (h20 c0 (iph_ttl h)) [ICMP_ECHO] ([code] ++ store_le16 c ++ rest)); [|done..]. cbn [res_bind].
  rewrite (nb_u16_mem (20 + 2) _ (h20 c0 (iph_ttl h) ++ [ICMP_ER; code]) c rest); [|done..]. cbn [res_bind].
  rewrite lwip_htons_invol by done.
  rewrite (nb_write_at (20 + 2) _ _ (h20 c0 (iph_ttl h) ++ [ICMP_ER; code]) (store_le16 c) rest); [|done..]. cbn [res_bind].
  rewrite (nb_write_at 8 _ _ (take 8 (pre c0 (iph_ttl h))) [iph_ttl h] ([iph_proto h] ++ store_le16 c0 ++ store_le32 (iph_dest h) ++ store_le32 (iph_src h) ++ m ICMP_ER (echo_chksum c)));
    [|done..]. cbn [res_bind].
  rewrite (nb_write_at 10 _ _ (take 8 (pre c0 ICMP_TTL) ++ [ICMP_TTL; iph_proto h]) (store_le16 c0) (store_le32 (iph_dest h) ++ store_le32 (iph_src h) ++ m ICMP_ER (echo_chksum c)));
    [|done..]. cbn [res_bind].
  rewrite (nb_read_app 0 IP_HLEN _ (ip_hdr_bytes (reply_hdr h) 0) (m ICMP_ER (echo_chksum c))); [|done..]. cbn [res_bind].
  change (slice 0 IP_HLEN (ip_hdr_bytes (reply_hdr h) 0)) with (ip_hdr_bytes (reply_hdr h) 0).
  rewrite (nb_write_at 10 _ _ (take 8 (pre c0 ICMP_TTL) ++ [ICMP_TTL; iph_proto h]) [0; 0] (store_le32 (iph_dest h) ++ store_le32 (iph_src h) ++ m ICMP_ER (echo_chksum c)));
    [|done..]. rewrite !nb_set_twice. unfold ip_hdr_chksum. do 2 f_equal.
Qed.

Section Echo.
Context {A : Type}.
Implicit Types (s : inet A) (p q : nbuf) (inp : nat).

(** Is there room for the headers of the link in front of the request? *)
Definition echo_room p : bool := ip_room + link_room <=? zlen (nb_front p) + 20.
Lemma echo_buffer_eq p0 p s a : nb_movable p0 = true -> nb_bytes p0 = a ++ nb_bytes p -> zlen a = 20 -> 28 <= nb_len p0 ->
  nb_header (Z.opp 20) p0 = Ok (Some p) ->
  let '(ok, s1) := if echo_room p0 then (true, s) else pbuf_alloc_ok s in
  if ok then exists q, echo_buffer 20 p s = Ok (Some q, s1) /\ nb_bytes q = nb_bytes p0 /\ 28 <= nb_len q
  else echo_buffer 20 p s = Ok (None, s1).
Proof.
  intros Hm Hp0 Ha Hl Hh. destruct (nb_hide_bytes 20 p0 _ _ Hp0 Ha) as (p' & Hp' & Hb & Hpl & Hpm & Hpf); [lia|].
  rewrite Hh in Hp'. injection Hp' as <-. unfold echo_buffer, echo_room.
  assert (Hq : exists q, nb_header 20 p = Ok (Some q) /\ nb_bytes q = nb_bytes p0 /\ 28 <= nb_len q).
  { destruct (nb_show_eq 20 p) as (bs & q & Hq & S); [pose proof (zlen_nonneg (nb_front p0)); lia|congruence|].
    exists q. split; [done|]. destruct (nb_hide_eq 20 p0) as (p' & Hp' & H1 & H2 & _ & H4); [lia|]. rewrite Hh in Hp'. injection Hp' as <-.
    assert (Hfirst : nb_first q = nb_first p0).
    { destruct (nb_show 20 p) as (q' & Hq' & _ & _ & _ & _ & Happ); [pose proof (zlen_nonneg (nb_front p0)); lia|congruence|].
      rewrite Hq in Hq'. injection Hq' as <-. pose proof (sh_front _ _ _ _ S) as Hf. pose proof (sh_len _ _ _ _ S) as Hbl.
      rewrite H1, H4, <- app_assoc, take_drop in Happ. apply app_inj_1 in Happ as [_ ?]; [done|]. unfold zlen in *. lia. }
    split; [by rewrite !nb_bytes_eq, Hfirst, (sh_rest _ _ _ _ S), H2|]. unfold nb_len in *. by rewrite Hfirst. }
  destruct Hq as (q & Hq & Hqb & Hql). destruct (Z.leb_spec (ip_room + link_room) (zlen (nb_front p0) + 20)) as [Hr|Hr].
  - destruct (nb_show_eq (ip_room + link_room) p) as (bs & o & -> & _); [unfold ip_room, link_room in *; lia|congruence|]. cbn [res_bind].
    rewrite Hq. cbn [res_bind]. by exists q.
  - rewrite nb_show_fails; [|done|right; lia]. cbn [res_bind]. rewrite Hq. cbn [res_bind].
    destruct (pbuf_alloc_ok s) as [[] s1]; [|done]. unfold SIZEOF_ICMP_ECHO_HDR. pose proof (nb_len_tot q).
    rewrite (proj2 (Z.leb_le (20 + 8) (nb_tot_len q))) by lia. cbn [lwip_assert res_bind]. eexists. split; [done|].
    split; [|by rewrite nb_new_len; fold (nb_tot_len q); lia]. unfold nb_new. rewrite nb_bytes_eq. cbn. by rewrite app_nil_r.
Qed.

(** C22. An echo request without IP options for a unicast address of the host.
    When its ICMP checksum is wrong, or when the reply needs a fresh pbuf and
    there is none, it is dropped. Otherwise one packet goes out on the interface
    it came from, to its source: the IP header with the addresses swapped, the
    TTL set and a right checksum, and the message with type 0 and all other
    bytes unchanged but the checksum. That checksum is right exactly when
    not every other byte of the message is 0. *)
Theorem icmp_echo_correct h inp n p s c0 code c rest :
  hdr_ok h -> inet_if inp s = Ok n -> ip_addr_ismulticast (iph_dest h) = false -> ip4_addr_isbroadcast (iph_dest h) n = false ->
  nb_movable p = true -> is_u8 code -> is_u16 c -> bytes_ok rest -> 28 <= nb_len p -> nb_tot_len p <= 65535 ->
  nb_bytes p = ip_hdr_bytes h c0 ++ echo_message ICMP_ECHO code c rest ->
  let right m := not16 (norm (le_value m)) = 0 in
  let '(ok, s1) := if echo_room p then (true, s) else pbuf_alloc_ok s in
  (~ right (echo_message ICMP_ECHO code c rest) -> icmp_input h inp p s = Ok (drop_packet s)) /\
  (right (echo_message ICMP_ECHO code c rest) ->
     (right (echo_message ICMP_ER code (echo_chksum c) rest) <-> ~ (code = 0 /\ Forall (eq 0) rest)) /\
     if ok then exists q, icmp_input h inp p s = (let! (_, s2) := ip_send inp q (iph_src h) s1 in Ok (drop_packet s2)) /\
       nb_bytes q = ip_packet (reply_hdr h) (echo_message ICMP_ER code (echo_chksum c) rest)
     else icmp_input h inp p s = Ok (drop_packet s1)).
Proof.
  intros Hh Hn Hmc Hbc Hm Hcode Hc Hrest Hl Ht Hp right.
  destruct (nb_hide_bytes 20 p _ _ Hp (ip_hdr_bytes_len h c0)) as (p1 & Hp1 & Hb1 & Hl1 & Hm1 & _); [lia|].
  pose proof (echo_buffer_eq p p1 s (ip_hdr_bytes h c0) Hm ltac:(by rewrite Hb1) eq_refl Hl Hp1) as Hbuf.
  assert (Hmok : bytes_ok (echo_message ICMP_ECHO code c rest)).
  { unfold echo_message. apply bytes_ok_snoc2; [unfold is_u8, ICMP_ECHO; lia|done|]. apply bytes_ok_app. split; [auto with lwip|done]. }
  assert (Htot : nb_tot_len p1 = nb_tot_len p - 20).
  { unfold nb_tot_len. rewrite Hp, Hb1, zlen_app, ip_hdr_bytes_len. lia. }
  pose proof (nb_len_tot p1).
  assert (Hin : icmp_input h inp p s =
    if negb (not16 (norm (le_value (echo_message ICMP_ECHO code c rest))) =? 0) then Ok (drop_packet s)
    else let! (o, s) := echo_buffer 20 p1 s in
      match o with
      | None => Ok (drop_packet s)
      | Some q => let! q := echo_reply 20 (iph_src h) (iph_dest h) q in
          let! (_, s) := ip_output_if q (iph_dest h) None ICMP_TTL 0 IP_PROTO_ICMP inp s in Ok (drop_packet s)
      end).
  { unfold icmp_input. rewrite (ho_hl h Hh). change (- (5 * 4)) with (Z.opp 20). rewrite Hp1. cbn [res_bind].
    rewrite (proj2 (Z.ltb_ge (nb_tot_len p1) 4)) by lia.
    destruct (nb_first_prefix p1 [ICMP_ECHO] ([code] ++ store_le16 c ++ rest) Hb1) as (d & Hd & _); [change (zlen [ICMP_ECHO]) with 1; lia|].
    unfold nb_u8. rewrite (nb_read_app 0 1 p1 _ d Hd) by done. cbn [res_bind slice take drop]. 
    change (slice 0 1 [ICMP_ECHO]) with [ICMP_ECHO]. cbn [res_bind]. change (ICMP_ECHO =? ICMP_ECHO) with true. cbv iota.
    unfold icmp_echo. rewrite Hn. cbn [res_bind]. rewrite Hmc, Hbc. cbn [orb]. unfold SIZEOF_ICMP_ECHO_HDR.
    rewrite (proj2 (Z.ltb_ge (nb_tot_len p1) 8)) by lia. rewrite (ho_hl h Hh). change (5 * 4) with 20.
    rewrite inet_chksum_pbuf_eq by (apply nb_segs_ok; [by rewrite Hb1|lia]). by rewrite nb_segs_bytes, Hb1. }
  rewrite Hin. destruct (if echo_room p then _ else _) as [ok s1]. split.
  - intros Hbad. unfold right in Hbad. by rewrite (proj2 (Z.eqb_neq _ _) Hbad).
  - intros Hgood. split; [by apply echo_chksum_right|]. unfold right in Hgood. rewrite Hgood. cbn [negb Z.eqb].
    destruct ok; [|by rewrite Hbuf]. destruct Hbuf as (q & -> & Hqb & Hql). cbn [res_bind]. rewrite Hp in Hqb.
    destruct (nb_first_prefix q (ip_hdr_bytes h c0 ++ [ICMP_ECHO; code] ++ store_le16 c) rest) as (d & Hd & Hrd).
    { rewrite Hqb. unfold echo_message. by rewrite <- !app_assoc. }
    { change (zlen _) with 24. lia. }
    rewrite (echo_reply_eq h c0 code c d q Hh Hc) by (rewrite Hd; unfold echo_message; by rewrite <- !app_assoc). cbn [res_bind].
    set (q1 := q <| nb_first := _ |>). exists q1. unfold ip_output_if.
    assert (Hq1 : nb_first q1 = ip_hdr_bytes (reply_hdr h) (ip_hdr_chksum (reply_hdr h)) ++ echo_message ICMP_ER code (echo_chksum c) d) by done.
    assert (Haddr : nb_addr 16 q1 = Ok (iph_src h)).
    { unfold nb_addr. rewrite (nb_read_app 16 4 q1 _ _ Hq1) by done. cbn [res_bind].
      change (slice 16 4 (ip_hdr_bytes (reply_hdr h) (ip_hdr_chksum (reply_hdr h)))) with (store_le32 (iph_src h)). unfold store_le32. cbn [res_bind].
      rewrite load_store32 by apply Hh. done. }
    rewrite Haddr. cbn [res_bind]. split; [done|].
    rewrite nb_bytes_eq, Hq1. unfold ip_packet, echo_message. rewrite Hrd, <- !app_assoc. done.
Qed.
End Echo.

(** The request whose other bytes are all 0: its reply has a wrong checksum, 0
    instead of all ones. *)
Definition zero_ping : list Z := icmp_message ICMP_ECHO 0 (repeat 0 8).
Example zero_ping_bad_reply : match outcome (input (from_peer IP_PROTO_ICMP zero_ping) inet_init) with
  | Ok ([bs], [Freed]) => drop 20 bs = repeat 0 16 /\ inet_chksum 0 (drop 20 bs) = 0xffff
  | _ => False
  end.
Proof. vm_compute. done. Qed.
Lemma icmp_echo_correct_witness : exists q, icmp_input (mk_iphdr 5 0 33 5 0 64 IP_PROTO_ICMP peer here) 0 (from_peer IP_PROTO_ICMP ping) inet_init =
    (let! (_, s2) := ip_send 0 q peer inet_init in Ok (drop_packet s2)) /\
  nb_bytes q = ip_packet (mk_iphdr 5 0 33 5 0 255 IP_PROTO_ICMP here peer) (icmp_message ICMP_ER 0 [1; 2; 3; 4; 5]).
Proof.
  set (h := mk_iphdr 5 0 33 5 0 64 IP_PROTO_ICMP peer here).
  destruct (icmp_echo_correct h 0 (if_netif lan_if) (from_peer IP_PROTO_ICMP ping) inet_init (ip_hdr_chksum h) 0 (load_le16 (ping !!! 2%nat) (ping !!! 3%nat)) (drop 4 ping))
    as [_ H]; [split; by vm_compute|done|by vm_compute|by vm_compute|done|by vm_compute|by vm_compute| |by vm_compute|by vm_compute|by vm_compute|].
  - unfold bytes_ok. vm_compute. repeat constructor; by vm_compute.
  - destruct H as [_ (q & H1 & H2)]; [by vm_compute|]. exists q. split; [exact H1|]. rewrite H2. by vm_compute.
Defined.
