(* ===== verification/Netifapi.v ===== *)
(** * Calls on interfaces for the thread of the stack (src/src/lwip/api/netifapi.c)

    A [netifapi_msg] is a function of netifapi.c with its arguments; the thread
    runs it with [netifapi_call] and leaves the error in the message. *)
From S2P Require Import Prelude IpAddr Tcp TcpOut TcpIn TcpWorld Etharp Netif Autoip.


Section Netifapi.
Context {A : Type} (cb : tcp_callbacks A).
Implicit Types (netif : nat) (s : stack A).

(** [voidfunc] and [errtfunc] may be NULL. *)
Inductive netifapi_msg :=
| do_netifapi_netif_add (netif : nat) (ipaddr netmask gw : option Z) (init : IpAddr.netif -> err_t * IpAddr.netif)
| do_netifapi_netif_set_addr (netif : nat) (ipaddr netmask gw : option Z)
| do_netifapi_netif_common (netif : nat) (voidfunc : option (nat -> stack A -> res (stack A))) (errtfunc : option (nat -> stack A -> res (err_t * stack A))).

Definition netif_add_call netif (ipaddr netmask gw : option Z) (init : IpAddr.netif -> err_t * IpAddr.netif) s : res (err_t * stack A) :=
  let! (ok, s) := netif_add cb netif ipaddr netmask gw init s in Ok (if ok : bool then ERR_OK else ERR_IF, s).
Definition netif_set_addr_call netif (ipaddr netmask gw : option Z) s : res (err_t * stack A) :=
  let! s := netif_set_addr cb netif ipaddr netmask gw s in Ok (ERR_OK, s).
Definition netif_common_call netif (voidfunc : option (nat -> stack A -> res (stack A))) (errtfunc : option (nat -> stack A -> res (err_t * stack A))) s : res (err_t * stack A) :=
  match errtfunc with
  | Some f => f netif s
  | None => let! f := of_option BadAccess voidfunc in let! s := f netif s in Ok (ERR_OK, s)
  end.
Definition netifapi_call (m : netifapi_msg) s : res (err_t * stack A) :=
  match m with
  | do_netifapi_netif_add netif ipaddr netmask gw init => netif_add_call netif ipaddr netmask gw init s
  | do_netifapi_netif_set_addr netif ipaddr netmask gw => netif_set_addr_call netif ipaddr netmask gw s
  | do_netifapi_netif_common netif voidfunc errtfunc => netif_common_call netif voidfunc errtfunc s
  end.

(** ** The macros of netifapi.h *)
Definition netifapi_netif_remove netif : netifapi_msg := do_netifapi_netif_common netif (Some (netif_remove)) None.
Definition netifapi_netif_set_up netif : netifapi_msg := do_netifapi_netif_common netif (Some netif_set_up) None.
Definition netifapi_netif_set_down netif : netifapi_msg := do_netifapi_netif_common netif (Some netif_set_down) None.
Definition netifapi_netif_set_default netif : netifapi_msg :=
  do_netifapi_netif_common netif (Some (fun id s => Ok (netif_set_default (Some id) s))) None.
Definition netifapi_autoip_start netif : netifapi_msg := do_netifapi_netif_common netif None (Some autoip_start).
Definition netifapi_autoip_stop netif : netifapi_msg := do_netifapi_netif_common netif None (Some autoip_stop).
End Netifapi.
Arguments netifapi_msg : clear implicits.
