(* ===== verification/Tcpip.v ===== *)
(** * The thread of the stack (src/src/lwip/api/tcpip.c)

    Other threads put messages into a mailbox, the thread of the stack takes
    them out one by one and runs what they say. SysArchSpec.v shows that the
    mailbox is a FIFO; here it is the list of the messages in it. A function in
    a message is a function on the stack. [inet_timers] is the stack as the
    timers of Timers.v see it; Dns.v adds the resolver. *)
From S2P Require Import Prelude ByteOrder IpAddr Ip Tcp TcpOut TcpIn TcpWorld TcpProcess TcpTimer Etharp Netif IpFrag Autoip Netifapi EtharpIn Timers SysArch Nbuf Inet Icmp Udp Raw TcpWire IpInput.

Definition MEMP_NUM_TCPIP_MSG_INPKT : Z := 32.
Definition MEMP_NUM_TCPIP_MSG_API : Z := 8.

Section Tcpip.
Context {A : Type} (cb : tcp_callbacks A) (eats : positive -> list Z -> Z -> bool).
Implicit Types (s : inet A) (p : nbuf) (inp : nat).

(** ** Frames *)

(** [ethernet_input] on a packet at the Ethernet header, with what follows for
    IP. *)
Definition eth_input inp p s : res (inet A) :=
  let! (r, k) := ethernet_input inp (nb_len p) (nb_bytes p) (in_stack s) in
  let s := s <| in_stack := k |> in
  match r with
  | EthConsumed => Ok (drop_packet s)
  | EthToIp flags _ =>
      let! o := nb_header (- SIZEOF_ETH_HDR) p in
      match o with
      | None => Err AssertFailed
      | Some q => ip_input cb eats inp (mk_nbuf (nb_front q) (nb_first q) (nb_rest q) (nb_movable q) (nb_rom q) (Z.lor (nb_flags q) flags)) s
      end
  end.

(** ** The timers of the stack *)
Definition stack_tcp_tmr s : res (inet A) :=
  run_tcp (fun w => tcp_tmr cb (S (size (w_pcbs w))) w) s.
Definition stack_tcp_needed s : bool :=
  let w := sk_tcp (in_stack s) in negb (bool_decide (tcp_active_pcbs w = [])) || negb (bool_decide (tcp_tw_pcbs w = [])).
Definition stack_reass_tmr s : res (inet A) :=
  let! r := ip_reass_tmr (in_reass s) in
  send_time_exceeded (te_sent r) (s <| in_reass := r <| te_sent := [] |> |>).
Definition on_stack (f : stack A -> res (stack A)) s : res (inet A) :=
  let! k := f (in_stack s) in Ok (s <| in_stack := k |>).
#[export] Instance inet_timers : TimerOps (inet A) := {|
  op_tcp_tmr := stack_tcp_tmr;
  op_tcp_needed := stack_tcp_needed;
  op_ip_reass_tmr := stack_reass_tmr;
  op_etharp_tmr s := Ok (s <| in_stack := (in_stack s) <| sk_arp := etharp_tmr (sk_arp (in_stack s)) |> |>);
  op_autoip_tmr := on_stack (autoip_tmr cb);
  op_dns_tmr s := Ok s;
  op_other _ _ s := Ok s
|}.

(** ** Messages *)

(** struct tcpip_msg; [id] is the address of the struct netifapi_msg. *)
Inductive tcpip_msg :=
| TCPIP_MSG_API (f : inet A -> res (inet A))
| TCPIP_MSG_INPKT (p : nbuf) (netif : nat)
| TCPIP_MSG_NETIFAPI (id : nat) (m : netifapi_msg A)
| TCPIP_MSG_TIMEOUT (msecs : Z) (h : sys_timeout_handler)
| TCPIP_MSG_UNTIMEOUT (h : sys_timeout_handler)
| TCPIP_MSG_CALLBACK (f : inet A -> res (inet A))
| TCPIP_MSG_CALLBACK_STATIC (f : inet A -> res (inet A)).

(** [tp_inpkt] and [tp_api]: how many elements of the two pools are in use;
    [tp_valid]: [tcpip_init] has created the mailbox; [tp_answers]: the calls on
    interfaces that are done, with the error in their struct, whose semaphore is
    signalled. *)
Record tcpip := mk_tcpip {
  tp_inet : inet A;
  tp_timers : timers;
  tp_valid : bool;
  tp_mbox : list tcpip_msg;
  tp_inpkt : Z;
  tp_api : Z;
  tp_answers : list (nat * err_t)
}.
#[export] Instance tcpip_eta : Eta tcpip :=
  {| eta t := mk_tcpip (tp_inet t) (tp_timers t) (tp_valid t) (tp_mbox t) (tp_inpkt t) (tp_api t) (tp_answers t) |}.
#[export] Instance set_tp_inet : Setter tp_inet := ltac:(setter).
#[export] Instance set_tp_timers : Setter tp_timers := ltac:(setter).
#[export] Instance set_tp_mbox : Setter tp_mbox := ltac:(setter).
#[export] Instance set_tp_inpkt : Setter tp_inpkt := ltac:(setter).
#[export] Instance set_tp_api : Setter tp_api := ltac:(setter).
#[export] Instance set_tp_answers : Setter tp_answers := ltac:(setter).
Implicit Type t : tcpip.

Definition inpkt_malloc t : bool * tcpip :=
  if tp_inpkt t <? MEMP_NUM_TCPIP_MSG_INPKT then (true, t <| tp_inpkt := tp_inpkt t + 1 |>) else (false, t).
Definition inpkt_free t : tcpip := t <| tp_inpkt := tp_inpkt t - 1 |>.
Definition api_malloc t : bool * tcpip :=
  if tp_api t <? MEMP_NUM_TCPIP_MSG_API then (true, t <| tp_api := tp_api t + 1 |>) else (false, t).
Definition api_free t : tcpip := t <| tp_api := tp_api t - 1 |>.
(** [sys_mbox_trypost]: one slot of the ring of sys_arch.c stays empty. *)
Definition mbox_trypost (m : tcpip_msg) t : err_t * tcpip :=
  if zlen (tp_mbox t) <? SYS_MBOX_SIZE - 1 then (ERR_OK, t <| tp_mbox := tp_mbox t ++ [m] |>) else (ERR_MEM, t).
(** [sys_mbox_post]: [None] while the caller waits for a free slot. *)
Definition mbox_post (m : tcpip_msg) t : option tcpip :=
  let '(err, t) := mbox_trypost m t in if err =? ERR_OK then Some t else None.

(** ** Posting *)
Definition tcpip_input p inp t : err_t * tcpip :=
  if negb (tp_valid t) then (ERR_VAL, t)
  else
    let '(ok, t) := inpkt_malloc t in
    if ok : bool then
      let '(err, t) := mbox_trypost (TCPIP_MSG_INPKT p inp) t in
      if err =? ERR_OK then (ERR_OK, t) else (ERR_MEM, inpkt_free t)
    else (ERR_MEM, t).
(** [None]: the caller waits. *)
Definition tcpip_callback_with_block (f : inet A -> res (inet A)) (block : bool) t : option (err_t * tcpip) :=
  if tp_valid t then
    let '(ok, t) := api_malloc t in
    if ok : bool then
      if block then t ← mbox_post (TCPIP_MSG_CALLBACK f) t; Some (ERR_OK, t)
      else
        let '(err, t) := mbox_trypost (TCPIP_MSG_CALLBACK f) t in
        Some (if err =? ERR_OK then (ERR_OK, t) else (ERR_MEM, api_free t))
    else Some (ERR_MEM, t)
  else Some (ERR_VAL, t).
Definition tcpip_timeout (msecs : Z) (h : sys_timeout_handler) t : option (err_t * tcpip) :=
  if tp_valid t then
    let '(ok, t) := api_malloc t in
    if ok : bool then t ← mbox_post (TCPIP_MSG_TIMEOUT msecs h) t; Some (ERR_OK, t) else Some (ERR_MEM, t)
  else Some (ERR_VAL, t).
Definition tcpip_untimeout (h : sys_timeout_handler) t : option (err_t * tcpip) :=
  if tp_valid t then
    let '(ok, t) := api_malloc t in
    if ok : bool then t ← mbox_post (TCPIP_MSG_UNTIMEOUT h) t; Some (ERR_OK, t) else Some (ERR_MEM, t)
  else Some (ERR_VAL, t).
(** [tcpip_apimsg] up to the wait for the answer. *)
Definition tcpip_apimsg (f : inet A -> res (inet A)) t : option (err_t * tcpip) :=
  if tp_valid t then t ← mbox_post (TCPIP_MSG_API f) t; Some (ERR_OK, t) else Some (ERR_VAL, t).
(** [tcpip_netifapi] up to the wait for the answer; [sem_err] is what
    [sys_sem_new] returned. *)
Definition tcpip_netifapi (sem_err : err_t) (id : nat) (m : netifapi_msg A) t : option (err_t * tcpip) :=
  if tp_valid t then
    if negb (sem_err =? ERR_OK) then Some (sem_err, t)
    else t ← mbox_post (TCPIP_MSG_NETIFAPI id m) t; Some (ERR_OK, t)
  else Some (ERR_VAL, t).
Definition tcpip_callbackmsg_new (f : inet A -> res (inet A)) t : option tcpip_msg * tcpip :=
  let '(ok, t) := api_malloc t in if ok : bool then (Some (TCPIP_MSG_CALLBACK_STATIC f), t) else (None, t).
Definition tcpip_callbackmsg_delete (m : tcpip_msg) t : tcpip := api_free t.
Definition tcpip_trycallback (m : tcpip_msg) t : err_t * tcpip :=
  if negb (tp_valid t) then (ERR_VAL, t) else mbox_trypost m t.

(** ** The thread *)
Definition on_inet (f : inet A -> res (inet A)) t : res tcpip := let! s := f (tp_inet t) in Ok (t <| tp_inet := s |>).
(** The switch of [tcpip_thread]. *)
Definition tcpip_dispatch (m : tcpip_msg) t : res tcpip :=
  match m with
  | TCPIP_MSG_API f => on_inet f t
  | TCPIP_MSG_INPKT p inp =>
      let! n := inet_if inp (tp_inet t) in
      let! t := on_inet (fun s => if has_flag (nif_flags n) (Z.lor NETIF_FLAG_ETHARP NETIF_FLAG_ETHERNET) then eth_input inp p s
                                  else ip_input cb eats inp p s) t in
      Ok (inpkt_free t)
  | TCPIP_MSG_NETIFAPI id m =>
      let! (err, k) := netifapi_call cb m (in_stack (tp_inet t)) in
      Ok (t <| tp_inet := (tp_inet t) <| in_stack := k |> |> <| tp_answers := tp_answers t ++ [(id, err)] |>)
  | TCPIP_MSG_TIMEOUT msecs h =>
      let! l := sys_timeout msecs h (next_timeout (tp_timers t)) in
      Ok (api_free (t <| tp_timers := (tp_timers t) <| next_timeout := l |> |>))
  | TCPIP_MSG_UNTIMEOUT h =>
      Ok (api_free (t <| tp_timers := (tp_timers t) <| next_timeout := sys_untimeout h (next_timeout (tp_timers t)) |> |>))
  | TCPIP_MSG_CALLBACK f => let! t := on_inet f t in Ok (api_free t)
  | TCPIP_MSG_CALLBACK_STATIC f => on_inet f t
  end.
(** One round of the loop that gets a message, after [time_needed] milliseconds.
    [None]: the mailbox is empty. TCP_REG starts the timer of TCP when the
    function in the message needs it. *)
Definition tcpip_round (time_needed : Z) t : res (option tcpip) :=
  match tp_mbox t with
  | [] => Ok None
  | m :: l =>
      let t := t <| tp_mbox := l |> <| tp_timers := (tp_timers t) <| next_timeout := message time_needed (next_timeout (tp_timers t)) |> |> in
      let! t := tcpip_dispatch m t in
      let! ts := tcp_timer_needed (tp_inet t) (tp_timers t) in
      Ok (Some (t <| tp_timers := ts |>))
  end.
(** A round that ends with a timeout. *)
Definition tcpip_expire t : res (option tcpip) :=
  match expire (next_timeout (tp_timers t)) with
  | None => Ok None
  | Some (h, l) =>
      let! (s, ts) := call_handler h (tp_inet t) ((tp_timers t) <| next_timeout := l |>) in
      Ok (Some (t <| tp_inet := s |> <| tp_timers := ts |>))
  end.
End Tcpip.
Arguments tcpip_msg : clear implicits. Arguments tcpip : clear implicits.
