(* ===== verification/Driver.v ===== *)
(** * The driver (src/src/driver.c, src/src/util.c)

    Frames between the stack and the encoder and decoder of libquiet, which are
    parameters: [encoder_send] takes a frame, [decoder_recv] gives the next one
    when there is one, at most as long as the buffer it is told. The decoder
    blocks; [None] is its negative result once it is closed. *)
From S2P Require Import Prelude ByteOrder IpAddr Ip Tcp TcpOut TcpIn TcpWorld Etharp Netif IpFrag Autoip EtharpIn Timers SysArch Nbuf Inet Icmp Udp Raw TcpWire IpInput Tcpip.

(** ** util.c *)

(** [pbuf2buf] into a buffer of [size] bytes. *)
Definition pbuf2buf (size : Z) (p : nbuf) : res (list Z) :=
  if nb_tot_len p <=? size then Ok (nb_bytes p) else Err BadAccess.
(** PBUF_POOL_BUFSIZE of opt.h: TCP_MSS + 40 + PBUF_LINK_HLEN. *)
Definition POOL_BUFSIZE : Z := 1024 + 40 + 14.
(** The bytes of a packet cut into the pbufs of the pool. *)
Fixpoint pool_pbufs (fuel : nat) (bs : list Z) : list (list Z) :=
  match fuel with
  | O => []
  | S fuel => match bs with [] => [] | _ => take (Z.to_nat POOL_BUFSIZE) bs :: pool_pbufs fuel (drop (Z.to_nat POOL_BUFSIZE) bs) end
  end.
Section Util.
Context {A : Type}.
Implicit Types (s : inet A).
Definition buf2pbuf (bs : list Z) s : option nbuf * inet A :=
  let '(ok, s) := pbuf_alloc_ok s in
  if ok then
    (Some match pool_pbufs (length bs) bs with
          | b :: l => mk_nbuf [] b l true false 0
          | [] => mk_nbuf [] [] [] true false 0
          end, s)
  else (None, s).
End Util.

(** ** driver.c *)
Section Driver.
Context {A E D : Type} (cb : tcp_callbacks A) (eats : positive -> list Z -> Z -> bool).
Context (encoder_send : E -> list Z -> E) (decoder_recv : D -> Z -> option (list Z) * D).
Implicit Types (t : tcpip A) (p : nbuf) (inp : nat).

(** The frame type, and [netif->input], which is [tcpip_input]. *)
Definition recv_pbuf inp p t : res (tcpip A) :=
  let! type := nb_u16 12 p in
  if (type =? ETHTYPE_IP) || (type =? ETHTYPE_ARP) then
    let '(err, t) := tcpip_input p inp t in
    Ok (if err =? ERR_OK then t else t <| tp_inet := drop_packet (tp_inet t) |>)
  else Ok (t <| tp_inet := drop_packet (tp_inet t) |>).

(** struct eth_driver; [read_thread]: does the thread run? *)
Record eth_driver := mk_driver { encoder : E; decoder : D; send_temp_len : Z; recv_temp_len : Z; read_thread : bool }.
#[export] Instance eth_driver_eta : Eta eth_driver :=
  {| eta d := mk_driver (encoder d) (decoder d) (send_temp_len d) (recv_temp_len d) (read_thread d) |}.
#[export] Instance set_encoder : Setter encoder := ltac:(setter).
#[export] Instance set_decoder : Setter decoder := ltac:(setter).
#[export] Instance set_read_thread : Setter read_thread := ltac:(setter).
Implicit Type d : eth_driver.

(** netif->linkoutput. *)
Definition quiet_lwip_encode_frame p d : res (err_t * eth_driver) :=
  let! buf := pbuf2buf (send_temp_len d) p in
  Ok (ERR_OK, d <| encoder := encoder_send (encoder d) buf |>).

Definition quiet_lwip_fetch_single_frame d t : option nbuf * eth_driver * tcpip A :=
  let '(o, dec) := decoder_recv (decoder d) (recv_temp_len d) in
  let d := d <| decoder := dec |> in
  match o with
  | None => (None, d, t)
  | Some bs => let '(q, s) := buf2pbuf bs (tp_inet t) in (q, d, t <| tp_inet := s |>)
  end.
(** One round of the loop of [quiet_lwip_process_audio], which is the read
    thread; the thread ends when there is no packet. *)
Definition read_round inp d t : res (eth_driver * tcpip A) :=
  let '(o, d, t) := quiet_lwip_fetch_single_frame d t in
  match o with
  | None => Ok (d <| read_thread := false |>, t)
  | Some p => let! t := recv_pbuf inp p t in Ok (d, t)
  end.
Fixpoint quiet_lwip_process_audio (fuel : nat) inp d t : res (eth_driver * tcpip A) :=
  match fuel with
  | O => Err OutOfFuel
  | S fuel =>
      let! (d, t) := read_round inp d t in
      if read_thread d then quiet_lwip_process_audio fuel inp d t else Ok (d, t)
  end.

(** ** The interface *)

(** [quiet_lwip_interface_init] when the encoder and the decoder could be
    created; [frame_len] is the frame length of the encoder, [hardware_addr]
    comes with the configuration. *)
Definition init_netif (mtu : Z) (hardware_addr : list Z) (n : netif) : netif :=
  mk_netif (nif_ip_addr n) (nif_netmask n) (nif_gw n) (u16 mtu) (take 6 hardware_addr)
    (Z.lor NETIF_FLAG_BROADCAST (Z.lor NETIF_FLAG_ETHARP NETIF_FLAG_LINK_UP)) (113, 117) (nif_num n).
Definition quiet_lwip_interface_init (e : option E) (dec : option D) (frame_len : Z) (hardware_addr : list Z) (n : netif) : err_t * netif * option eth_driver :=
  match e, dec with
  | Some e, Some dec =>
      (ERR_OK, init_netif frame_len hardware_addr n, Some (mk_driver e dec (u16 frame_len) (u16 frame_len) true))
  | _, _ => (ERR_IF, n, None)
  end.
(** [quiet_lwip_create]; an address of 0 is no address. The result is whether
    there is an interface. *)
Definition quiet_lwip_create inp (e : option E) (dec : option D) (frame_len : Z) (hardware_addr : list Z) (local_address netmask gateway : Z) (k : stack A)
    : res (option eth_driver * stack A) :=
  let addr (a : Z) := if local_address =? 0 then None else Some a in
  let! n := get_netif inp k in
  let init n := let '(err, n, _) := quiet_lwip_interface_init e dec frame_len hardware_addr n in (err, n) in
  let! (ok, k) := netif_add cb inp (addr local_address) (addr netmask) (addr gateway) init k in
  if ok : bool then
    let! k := if local_address =? 0 then Ok k else netif_set_up inp k in
    Ok ((quiet_lwip_interface_init e dec frame_len hardware_addr n).2, k)
  else Ok (None, k).
Definition quiet_lwip_autoip inp (k : stack A) : res (bool * stack A) :=
  let! (err, k) := autoip_start inp k in
  if err =? ERR_OK then Ok (true, k)
  else let! k := netif_remove inp k in Ok (false, k).
Definition quiet_lwip_get_local_address inp (k : stack A) : res Z := let! n := get_netif inp k in Ok (nif_ip_addr n).
Definition quiet_lwip_get_netmask inp (k : stack A) : res Z := let! n := get_netif inp k in Ok (nif_netmask n).
Definition quiet_lwip_get_gateway inp (k : stack A) : res Z := let! n := get_netif inp k in Ok (nif_gw n).
(** [quiet_lwip_close], once the decoder is closed and the thread has ended. *)
Definition quiet_lwip_close inp (k : stack A) : res (stack A) := netif_set_down inp k.
Definition quiet_lwip_destroy inp (k : stack A) : res (stack A) := let! k := quiet_lwip_close inp k in netif_remove inp k.
End Driver.
Arguments eth_driver : clear implicits.
