(* ===== verification/DriverLink.v ===== *)
(** * From application to application over the sound link

    UDP, IP, ARP, the driver and libquiet on one host, and the driver, the
    thread of the stack, Ethernet, IP and UDP on the other. *)
From S2P Require Import Prelude ByteOrder IpAddr Checksum Ip Tcp TcpOut TcpIn TcpWorld TcpProcess TcpScenarios Etharp EtharpTable Netif IpFrag Autoip EtharpIn Timers SysArch Nbuf Inet Icmp Udp Raw TcpWire IpInput InetDemo InetHdr InetSafe InetSend UdpRound Tcpip Driver.

(** ** Out through ARP *)
Lemma resolves_inj w ip m1 m2 : resolves w ip m1 -> resolves w ip m2 -> m1 = m2.
Proof.
  intros (i & e & Hi & Hs & <-) (j & x & Hj & Hx & <-).
  pose proof (sl_only _ _ _ _ Hi j x (sl_at _ _ _ _ Hj) (stable_in_use x Hx) (sl_ip _ _ _ _ Hj)) as ->.
  pose proof (sl_at _ _ _ _ Hi) as H1. rewrite (sl_at _ _ _ _ Hj) in H1. congruence.
Qed.
Lemma resolves_not_unresolved w ip mac : resolves w ip mac -> ~ unresolved w ip.
Proof.
  intros (i & e & Hi & Hs & _) Hun. eapply Forall_lookup_1 in Hun; [|apply Hi]. apply Hun. split; [done|apply Hi].
Qed.
Section Out.
Context {A : Type}.
Implicit Types (s : inet A) (q : nbuf) (nif : nat).
Definition sent_on s : list (nat * frame) := wire (sk_arp (in_stack s)).
(** A host on the link whose address is known. *)
Record neighbour s nif (n : netif) (dst : Z) (mac : eth_addr) : Prop := {
  nb_arp : arp_ok (sk_arp (in_stack s));
  nb_hw : zlen (nif_hwaddr n) = ETHARP_HWADDR_LEN;
  nb_unicast : ip4_addr_isbroadcast dst n = false /\ ip_addr_ismulticast dst = false;
  nb_onlink : ip_addr_netcmp dst (nif_ip_addr n) (nif_netmask n) = true;
  nb_known : resolves (sk_arp (in_stack s)) dst mac
}.
Lemma netif_output_sends s nif n dst mac q : neighbour s nif n dst mac -> inet_if nif s = Ok n -> nb_movable q = true ->
  link_room <= zlen (nb_front q) ->
  exists r s' req, netif_output nif q dst s = Ok (r, s') /\ sent_on s' = sent_on s ++ req ++ [(nif, ip_frame n mac (nb_bytes q))].
Proof.
  intros [Hok Hhw [Hb Hmc] Hon Hres] Hn Hm Hf. unfold netif_output. rewrite Hn. cbn [res_bind].
  destruct (nb_show_eq link_room q) as (bs & h & -> & _); [unfold link_room in *; lia|done|]. cbn [res_bind].
  rewrite bool_decide_true by (by exists h). unfold run_arp.
  assert (Hhop : next_hop n (nb_bytes q) dst = Ok (Some dst)) by (unfold next_hop; by rewrite Hon).
  destruct (output_unicast_spec nif n (mk_packet (nb_rom q) (nb_bytes q)) dst dst (sk_arp (in_stack s)) Hok Hhw Hb Hmc Hhop)
    as [(m & r & w' & req & -> & _ & Hr & _ & Hw & _)|[Hun _]]; [|by destruct (resolves_not_unresolved _ _ _ Hres)].
  rewrite (resolves_inj _ _ _ _ Hr Hres) in Hw. cbn [res_bind]. eexists r, _, req. split; [done|]. exact Hw.
Qed.
End Out.

(** ** The frame as bytes *)
Lemma pool_pbufs_bytes fuel : forall bs, (length bs <= fuel)%nat -> concat (pool_pbufs fuel bs) = bs.
Proof.
  induction fuel as [|fuel IH]; intros bs Hl; cbn [pool_pbufs]; [by destruct bs; cbn in Hl; [|lia]|].
  destruct bs as [|b bs]; [done|]. cbn [concat]. rewrite IH; [by rewrite take_drop|].
  rewrite length_drop. change (Z.to_nat POOL_BUFSIZE) with 1078%nat. cbn [length] in *. lia.
Qed.
Lemma buf2pbuf_eq {A} bs (s : inet A) : in_allocs s = [] -> exists p, buf2pbuf bs s = (Some p, s) /\ nb_bytes p = bs /\
  nb_len p = Z.min POOL_BUFSIZE (zlen bs) /\ nb_movable p = true.
Proof.
  intros Ha. unfold buf2pbuf, pbuf_alloc_ok. rewrite Ha. eexists. split; [done|].
  pose proof (pool_pbufs_bytes (length bs) bs ltac:(done)) as Hc.
  destruct bs as [|b bs]; [done|]. cbn [length pool_pbufs] in *. split_and!; [|unfold nb_len, zlen|done].
  - exact Hc.
  - cbn [nb_first]. rewrite length_take. unfold POOL_BUFSIZE. lia.
Qed.
Lemma nth_app_at {X} (a b : list X) i (d : X) : nth (length a + i) (a ++ b) d = nth i b d.
Proof. rewrite app_nth2 by lia. f_equal. lia. Qed.
Lemma eth_type_frame n mac bytes : length mac = 6%nat -> length (nif_hwaddr n) = 6%nat -> eth_type (frame_bytes (ip_frame n mac bytes)) = ETHTYPE_IP.
Proof.
  intros Hm Hh. unfold eth_type, field16, byte_at, frame_bytes, ip_frame. cbn [fr_dest fr_src fr_type fr_payload payload_bytes].
  destruct mac as [|m0 [|m1 [|m2 [|m3 [|m4 [|m5 [|]]]]]]]; try done.
  destruct (nif_hwaddr n) as [|h0 [|h1 [|h2 [|h3 [|h4 [|h5 [|]]]]]]]; try done.
Qed.

(** ** Into the host *)
Section In.
Context {A E D : Type} (cb : tcp_callbacks A) (eats : positive -> list Z -> Z -> bool).
Context (encoder_send : E -> list Z -> E) (decoder_recv : D -> Z -> option (list Z) * D).
Implicit Types (s : inet A) (t : tcpip A) (p : nbuf) (inp : nat).

(** The thread of the stack is idle and has room for a packet and a timeout. *)
Record idle t : Prop := {
  id_valid : tp_valid t = true;
  id_mbox : tp_mbox t = [];
  id_inpkt : tp_inpkt t < MEMP_NUM_TCPIP_MSG_INPKT;
  id_allocs : in_allocs (tp_inet t) = [];
  id_timer : tcpip_tcp_timer_active (tp_timers t) = true \/ zlen (next_timeout (tp_timers t)) < MEMP_NUM_SYS_TIMEOUT
}.
Lemma frame_length f : zlen (fr_dest f) = 6 -> zlen (fr_src f) = 6 -> zlen (frame_bytes f) = 14 + zlen (payload_bytes (fr_payload f)).
Proof. intros H1 H2. unfold frame_bytes. rewrite !zlen_app, H1, H2. change (zlen (store_le16 _)) with 2. lia. Qed.
Lemma u16_type n mac bytes p : length mac = 6%nat -> length (nif_hwaddr n) = 6%nat -> nb_bytes p = frame_bytes (ip_frame n mac bytes) ->
  14 <= nb_len p -> nb_u16 12 p = Ok ETHTYPE_IP.
Proof.
  intros Hm Hh Hp Hl. apply (nb_u16_at 12 p (mac ++ nif_hwaddr n) ETHTYPE_IP bytes); [by rewrite Hp; unfold frame_bytes; rewrite <- !app_assoc| |lia|done].
  unfold zlen. rewrite length_app, Hm, Hh. done.
Qed.
(** [ethernet_input] passes an IP packet on. *)
Lemma eth_input_ip inp n2 n mac bytes p s : length mac = 6%nat -> length (nif_hwaddr n) = 6%nat -> nb_bytes p = frame_bytes (ip_frame n mac bytes) ->
  14 < nb_len p -> inet_if inp s = Ok n2 -> has_flag (nif_flags n2) NETIF_FLAG_ETHARP = true ->
  exists q, eth_input cb eats inp p s = ip_input cb eats inp q s /\ nb_bytes q = bytes /\ nb_len q = nb_len p - 14.
Proof.
  intros Hm Hh Hp Hl Hn Hf. unfold eth_input, ethernet_input, SIZEOF_ETH_HDR. rewrite (proj2 (Z.leb_gt (nb_len p) 14)) by lia.
  unfold inet_if in Hn. rewrite Hn. cbn [res_bind]. rewrite Hp, eth_type_frame, Hf by done. change (ETHTYPE_IP =? ETHTYPE_IP) with true. cbv iota. cbn [res_bind].
  destruct (nb_hide_bytes 14 p (mac ++ nif_hwaddr n ++ store_le16 (lwip_htons ETHTYPE_IP)) bytes) as (q & -> & Hq & Hql & _);
    [by rewrite Hp; unfold frame_bytes; rewrite <- !app_assoc|unfold zlen; rewrite !length_app, Hm, Hh; done|lia|].
  cbn [res_bind]. replace (s <| in_stack := in_stack s |>) with s by (by destruct s). by eexists.
Qed.
(** A frame from the decoder is queued. *)
Lemma read_round_queues inp (d : eth_driver E D) d' t n mac bytes : idle t -> length mac = 6%nat -> length (nif_hwaddr n) = 6%nat ->
  decoder_recv (decoder d) (recv_temp_len d) = (Some (frame_bytes (ip_frame n mac bytes)), d') ->
  exists p, read_round decoder_recv inp d t = Ok (d <| decoder := d' |>, t <| tp_mbox := [TCPIP_MSG_INPKT p inp] |> <| tp_inpkt := tp_inpkt t + 1 |>) /\
    nb_bytes p = frame_bytes (ip_frame n mac bytes) /\ nb_len p = Z.min POOL_BUFSIZE (14 + zlen bytes).
Proof.
  intros [Hv Hb Hi Ha _] Hm Hh Hd. unfold read_round, quiet_lwip_fetch_single_frame. rewrite Hd.
  destruct (buf2pbuf_eq (frame_bytes (ip_frame n mac bytes)) (tp_inet t) Ha) as (p & -> & Hp & Hl & _).
  rewrite frame_length in Hl by (unfold zlen; cbn; lia). exists p. split; [|done].
  unfold recv_pbuf. pose proof (zlen_nonneg bytes).
  rewrite (u16_type n mac bytes p) by (done || (rewrite Hl; unfold POOL_BUFSIZE; cbn; lia)). cbn [res_bind]. change (ETHTYPE_IP =? ETHTYPE_IP) with true. cbn [orb].
  unfold tcpip_input, inpkt_malloc, mbox_trypost. cbn. rewrite Hv. cbn. rewrite (proj2 (Z.ltb_lt _ _)) by done. cbn. rewrite Hb. by destruct t.
Qed.
Lemma message_length k l : zlen (message k l) = zlen l.
Proof. by destruct l. Qed.
Lemma round_ends inp p t s : tp_mbox t = [TCPIP_MSG_INPKT p inp] ->
  tcpip_tcp_timer_active (tp_timers t) = true \/ zlen (next_timeout (tp_timers t)) < MEMP_NUM_SYS_TIMEOUT ->
  (exists n, inet_if inp (tp_inet t) = Ok n /\ has_flag (nif_flags n) (Z.lor NETIF_FLAG_ETHARP NETIF_FLAG_ETHERNET) = true) ->
  eth_input cb eats inp p (tp_inet t) = Ok s ->
  exists t', tcpip_round cb eats 0 t = Ok (Some t') /\ tp_inet t' = s /\ tp_mbox t' = [] /\ tp_inpkt t' = tp_inpkt t - 1.
Proof.
  intros Hb Ht (n & Hn & Hf) Hin. unfold tcpip_round. rewrite Hb. cbn -[eth_input message has_flag]. rewrite Hn. cbn -[eth_input message has_flag].
  rewrite Hf. unfold on_inet. cbn -[eth_input message has_flag]. rewrite Hin. cbn -[message tcp_timer_needed].
  unfold tcp_timer_needed. cbn -[message stack_tcp_needed]. destruct (tcpip_tcp_timer_active (tp_timers t)) eqn:Ea; cbn -[message stack_tcp_needed].
  { by eexists. }
  destruct (stack_tcp_needed s); [|by eexists]. unfold start_timeout, sys_timeout. cbn -[message]. rewrite message_length.
  destruct Ht as [?|Ht]; [done|]. rewrite (proj2 (Z.ltb_lt _ _)) by done. by eexists.
Qed.
End In.

(** C17. A datagram goes from application to application over the sound link.
    On the sending host, when [udp_sendto] meets none of its errors, the packet
    needs no fragmentation and the address of the destination is in the ARP
    table, one frame is put on the link behind at most one ARP request, and the
    driver gives exactly its bytes to the encoder, when they fit its buffer. On
    a host whose decoder gives these bytes to its driver, the read
    thread queues the packet, and the next round of the thread of the stack
    takes it through Ethernet, IP and UDP and hands exactly the data to
    the block that is bound to the port, with the sender's address and port; the
    message is freed again. *)
Theorem udp_over_sound {A B E D} (cb : tcp_callbacks B) eats (encoder_send : E -> list Z -> E) (decoder_recv : D -> Z -> option (list Z) * D)
    (s s0 : inet A) id u pk dst dport nif n mac ok s1 :
  udp_ensure_port id s = Ok (ERR_OK, s0) -> udp_tbl s0 !! id = Some u -> udp_ok u -> is_u16 (up_local_port u) -> route s dst = Some (nif, n) ->
  is_u32 (nif_ip_addr n) -> is_u16 (ip_id s0) -> is_u32 dst -> is_u16 dport ->
  bytes_ok (nb_bytes pk) -> 28 + nb_tot_len pk <= 65535 -> fits (28 + nb_tot_len pk) n ->
  (if udp_room pk then (true, s0) else pbuf_alloc_ok s0) = (ok, s1) -> udp_send_error u n pk ok = None ->
  link_room + 20 <= udp_front pk -> neighbour s nif n dst mac -> length mac = 6%nat ->
  exists r s' req f, udp_sendto id pk dst dport s = Ok (r, s') /\ sent_on s' = sent_on s ++ req ++ [(nif, f)] /\
    (forall pf (d : eth_driver E D), nb_bytes pf = frame_bytes f -> 42 + nb_tot_len pk <= send_temp_len d ->
       quiet_lwip_encode_frame encoder_send pf d = Ok (ERR_OK, d <| encoder := encoder_send (encoder d) (frame_bytes f) |>)) /\
    (forall (t : tcpip B) inp m k v (d : eth_driver E D) dec, idle t -> watchers eats (tp_inet t) ->
       receives (tp_inet t) inp m (udp_src u n) dst (up_local_port u) dport k v -> has_flag (nif_flags m) NETIF_FLAG_ETHARP = true ->
       decoder_recv (decoder d) (recv_temp_len d) = (Some (frame_bytes f), dec) ->
       exists t1 t2 l, read_round decoder_recv inp d t = Ok (d <| decoder := dec |>, t1) /\ tcpip_round cb eats 0 t1 = Ok (Some t2) /\
         Forall watched l /\ in_log (tp_inet t2) = in_log (tp_inet t) ++ l ++ [ToUdp k (nb_bytes pk) (udp_src u n) (up_local_port u)] /\
         tp_mbox t2 = [] /\ tp_inpkt t2 = tp_inpkt t).
Proof.
  intros He Hu Huo Hport Hroute Hn Hid Hd Hdp Hb Hl Hf Eal Herr Hroom Hnb Hmac.
  destruct (udp_sends s s0 id u pk dst dport nif n ok s1) as (Hn1 & Hst1 & Hhdr & q & Hsend & Hq & Hqf & Hqm); try done.
  assert (Hnb1 : neighbour (next_id s1) nif n dst mac) by (destruct Hnb; unfold next_id; by split; cbn; rewrite ?Hst1).
  destruct (netif_output_sends (next_id s1) nif n dst mac q Hnb1 Hn1 Hqm) as (r & s' & req & Hout & Hw); [lia|].
  assert (Hhw : length (nif_hwaddr n) = 6%nat) by (pose proof (nb_hw _ _ _ _ _ Hnb) as Hh; unfold zlen, ETHARP_HWADDR_LEN in Hh; lia).
  assert (Hlen : zlen (nb_bytes q) = 28 + zlen (nb_bytes pk)).
  { rewrite Hq. unfold udp_packet, ip_packet, udp_datagram. rewrite !zlen_app, ip_hdr_bytes_len. change (zlen (udp_hdr_bytes _ _ _ _)) with 8. lia. }
  exists r, s', req, (ip_frame n mac (nb_bytes q)). rewrite Hsend, Hout. split; [done|]. split.
  { rewrite Hw. f_equal. unfold sent_on, next_id. cbn. by rewrite Hst1. }
  split.
  - intros pf d Hpf Hfit. unfold quiet_lwip_encode_frame, pbuf2buf, nb_tot_len in *. rewrite Hpf, frame_length by (unfold zlen; cbn; lia).
    cbn [payload_bytes fr_payload ip_frame]. rewrite Hlen, (proj2 (Z.leb_le _ _)) by lia. done.
  - intros t inp m k v d dec Ht Hwt Hr Hflag Hdec.
    destruct (read_round_queues decoder_recv inp d dec t n mac (nb_bytes q) Ht Hmac Hhw Hdec) as (p & Hread & Hp & Hpl).
    pose proof (zlen_nonneg (nb_bytes pk)).
    destruct (eth_input_ip cb eats inp m n mac (nb_bytes q) p (tp_inet t) Hmac Hhw Hp) as (p2 & Heth & Hp2 & Hp2l);
      [rewrite Hpl, Hlen; unfold POOL_BUFSIZE; lia|by destruct Hr|done|].
    destruct (ip_input_udp cb eats (udp_iphdr u n (ip_id s1) dst (nb_bytes pk)) inp m p2 (tp_inet t) (up_flags u) (up_local_port u) dport (nb_bytes pk) [] k v)
      as (s2 & l & Hin & Hl2 & Hlog); try done.
    { rewrite Hp2, Hq, app_nil_r. done. }
    { rewrite Hp2l, Hpl, Hlen. unfold POOL_BUFSIZE. lia. }
    rewrite <- Heth in Hin. set (t1 := t <| tp_mbox := [TCPIP_MSG_INPKT p inp] |> <| tp_inpkt := tp_inpkt t + 1 |>) in *.
    destruct (round_ends cb eats inp p t1 s2) as (t2 & Hround & Ht2 & Hmb & Hpk); [done|by destruct Ht| |done|].
    { exists m. split; [by destruct Hr|]. by rewrite has_flag_lor, Hflag. }
    exists t1, t2, l. rewrite Ht2, Hmb, Hpk, Hlog. split_and!; try done. cbn. lia.
Qed.

(** ** Two hosts and a link that loses nothing *)
Definition link_send (l : list (list Z)) (bs : list Z) : list (list Z) := l ++ [bs].
Definition link_recv (l : list (list Z)) (size : Z) : option (list Z) * list (list Z) :=
  match l with bs :: l' => if zlen bs <=? size then (Some bs, l') else (None, l') | [] => (None, []) end.
Definition sender_host : inet unit := lan_host here peer sender_pcb.
Definition receiver_thread : tcpip unit := mk_tcpip (lan_host peer here receiver_pcb) (mk_timers [] true) true [] 0 0 [].
Definition lan_driver (queue : list (list Z)) : eth_driver (list (list Z)) (list (list Z)) := mk_driver [] queue 1500 1500 true.
Lemma sender_neighbour : neighbour sender_host 0 (lan_netif here) peer peer_mac.
Proof.
  split; [exact lan_arp_ok|done|by vm_compute|by vm_compute|].
  exists 0%nat, (mk_entry None peer (Some 0%nat) peer_mac ETHARP_STATE_STABLE 0). split_and!; [|done|done].
  by apply stable_slot; [exact lan_arp_ok| | |].
Qed.
Lemma udp_over_sound_witness : exists r s' req f, udp_sendto 1 hello peer 53 sender_host = Ok (r, s') /\ sent_on s' = sent_on sender_host ++ req ++ [(0%nat, f)] /\
  exists t1 t2 l, read_round link_recv 0 (lan_driver [frame_bytes f]) receiver_thread = Ok (lan_driver [], t1) /\
    tcpip_round quiet_app no_raw 0 t1 = Ok (Some t2) /\ in_log (tp_inet t2) = l ++ [ToUdp 1%positive [104; 101; 108; 108; 111] here 4000].
Proof.
  destruct (udp_over_sound quiet_app no_raw link_send link_recv sender_host sender_host 1 sender_pcb hello peer 53 0 (lan_netif here) peer_mac true sender_host)
    as (r & s' & req & f & H1 & H2 & _ & H3).
  - by vm_compute.
  - done.
  - split; by vm_compute.
  - by vm_compute.
  - by vm_compute.
  - by vm_compute.
  - by vm_compute.
  - by vm_compute.
  - by vm_compute.
  - unfold bytes_ok. repeat constructor; unfold is_u8; lia.
  - by vm_compute.
  - right. by vm_compute.
  - done.
  - by vm_compute.
  - by vm_compute.
  - exact sender_neighbour.
  - done.
  - exists r, s', req, f. split; [exact H1|]. split; [exact H2|].
    destruct (decide (zlen (frame_bytes f) <= 1500)) as [Hf|Hf].
    + destruct (H3 receiver_thread 0%nat (lan_netif peer) 1%positive receiver_pcb (lan_driver [frame_bytes f]) []) as (t1 & t2 & l & R1 & R2 & _ & R3 & _).
      * split; [done|done|done|done|by left].
      * split; [done|constructor].
      * exact lan_receives.
      * done.
      * cbn. by rewrite (proj2 (Z.leb_le _ _)).
      * exists t1, t2, l. split; [exact R1|]. split; [exact R2|exact R3].
    + exfalso. apply Hf. clear -H1 H2. assert (He : udp_sendto 1 hello peer 53 sender_host = Ok (r, s')) by exact H1.
      vm_compute in H1. injection H1 as <- <-. vm_compute in H2. destruct req as [|x req]; [injection H2 as <-; by vm_compute|]. 
      injection H2 as _ H2. by destruct req.
Defined.
