(* ===== verification/Portaudio.v ===== *)
(** * The driver for PortAudio (src/src/driver_portaudio.c)

    The same driver over the sound card. Sending and receiving share the air:
    nothing is sent while a frame of the peer is on its way or was a few polls
    ago. The emit thread and the receive thread take turns; each call is a step. *)
From S2P Require Import Prelude ByteOrder IpAddr Ip Tcp TcpOut TcpIn TcpWorld Etharp Netif IpFrag Autoip EtharpIn Timers SysArch Nbuf Inet Icmp Udp Raw TcpWire IpInput InetDemo Tcpip Driver.

Section Portaudio.
Context {A E D : Type} (cb : tcp_callbacks A).
Context (encoder_send : E -> list Z -> E) (encoder_emit : E -> Z * E) (encoder_emit_empty : E -> E).
Context (decoder_recv : D -> Z -> option (list Z) * D) (frame_in_progress : D -> bool).
Implicit Types (t : tcpip A) (p : nbuf) (inp : nat).

(** struct portaudio_eth_driver. *)
Record pa_driver := mk_pa {
  pa_encoder : E; pa_decoder : D; encoder_sample_size : Z; decoder_sample_size : Z; pa_send_len : Z; pa_recv_len : Z;
  rx_in_progress : bool; tx_in_progress : bool; rx_wait_peer_frame : Z; rx_wait_peer_frame_thresh : Z
}.
#[export] Instance pa_driver_eta : Eta pa_driver :=
  {| eta d := mk_pa (pa_encoder d) (pa_decoder d) (encoder_sample_size d) (decoder_sample_size d) (pa_send_len d) (pa_recv_len d)
       (rx_in_progress d) (tx_in_progress d) (rx_wait_peer_frame d) (rx_wait_peer_frame_thresh d) |}.
#[export] Instance set_pa_encoder : Setter pa_encoder := ltac:(setter).
#[export] Instance set_pa_decoder : Setter pa_decoder := ltac:(setter).
#[export] Instance set_rx_in_progress : Setter rx_in_progress := ltac:(setter).
#[export] Instance set_tx_in_progress : Setter tx_in_progress := ltac:(setter).
#[export] Instance set_rx_wait : Setter rx_wait_peer_frame := ltac:(setter).
Implicit Type d : pa_driver.

(** ** Frames out *)

(** netif->linkoutput: a frame that is too large is dropped. *)
Definition quiet_lwip_portaudio_encode_frame p d : res (err_t * pa_driver) :=
  if pa_send_len d <? nb_tot_len p then Ok (ERR_BUF, d)
  else
    let! buf := pbuf2buf (pa_send_len d) p in
    Ok (ERR_OK, d <| pa_encoder := encoder_send (pa_encoder d) buf |>).
(** May the emit thread send now? *)
Definition may_emit d : bool := tx_in_progress d || negb (rx_in_progress d).
Definition quiet_lwip_portaudio_get_next_audio_packet d : Z * pa_driver :=
  if may_emit d then
    let '(written, e) := encoder_emit (pa_encoder d) in
    (written, d <| pa_encoder := e |> <| tx_in_progress := written =? encoder_sample_size d |>)
  else (0, d <| pa_encoder := encoder_emit_empty (pa_encoder d) |>).

(** ** Frames in *)
Definition quiet_lwip_portaudio_fetch_single_frame d t : option nbuf * pa_driver * tcpip A :=
  let '(o, dec) := decoder_recv (pa_decoder d) (pa_recv_len d) in
  let d := d <| pa_decoder := dec |> in
  match o with
  | None => (None, d, t)
  | Some bs => let '(q, s) := buf2pbuf bs (tp_inet t) in (q, d, t <| tp_inet := s |>)
  end.
(** The loop ends when the decoder has no more frames. *)
Fixpoint quiet_lwip_portaudio_process_audio (fuel : nat) inp d t : res (pa_driver * tcpip A) :=
  match fuel with
  | O => Err OutOfFuel
  | S fuel =>
      let '(o, d, t) := quiet_lwip_portaudio_fetch_single_frame d t in
      match o with
      | None => Ok (d, t)
      | Some p => let! t := recv_pbuf inp p t in quiet_lwip_portaudio_process_audio fuel inp d t
      end
  end.
(** The test for a frame of the peer. *)
Definition poll (frame_open : bool) d : pa_driver :=
  if negb frame_open then
    if rx_wait_peer_frame d <? rx_wait_peer_frame_thresh d then
      let d := d <| rx_wait_peer_frame := rx_wait_peer_frame d + 1 |> in
      if rx_wait_peer_frame d =? rx_wait_peer_frame_thresh d then d <| rx_in_progress := false |> else d
    else d
  else d <| rx_wait_peer_frame := 0 |> <| rx_in_progress := true |>.
Definition quiet_lwip_portaudio_recv_audio_packet (fuel : nat) inp d t : res (pa_driver * tcpip A) :=
  quiet_lwip_portaudio_process_audio fuel inp (poll (frame_in_progress (pa_decoder d)) d) t.

(** ** The interface *)
Definition pa_init (e : E) (dec : D) (enc_size dec_size frame_len : Z) : pa_driver :=
  mk_pa e dec enc_size dec_size frame_len frame_len false false 0 3.
(** [quiet_lwip_portaudio_init]; the MTU leaves room for the Ethernet header. *)
Definition quiet_lwip_portaudio_init (e : option E) (dec : option D) (enc_size dec_size frame_len : Z) (hardware_addr : list Z) (n : netif)
    : err_t * netif * option pa_driver :=
  match e, dec with
  | Some e, Some dec => (ERR_OK, init_netif (frame_len - link_room) hardware_addr n, Some (pa_init e dec enc_size dec_size frame_len))
  | _, _ => (ERR_IF, n, None)
  end.
Definition quiet_lwip_portaudio_create inp (e : option E) (dec : option D) (enc_size dec_size frame_len : Z) (hardware_addr : list Z)
    (local_address netmask gateway : Z) (k : stack A) : res (option pa_driver * stack A) :=
  let! n := get_netif inp k in
  let init n := let '(err, n, _) := quiet_lwip_portaudio_init e dec enc_size dec_size frame_len hardware_addr n in (err, n) in
  let! (ok, k) := netif_add cb inp (Some local_address) (Some netmask) (Some gateway) init k in
  if ok : bool then
    let! k := netif_set_up inp k in
    Ok ((quiet_lwip_portaudio_init e dec enc_size dec_size frame_len hardware_addr n).2, k)
  else Ok (None, k).
Definition quiet_lwip_portaudio_destroy inp (k : stack A) : res (stack A) := let! k := netif_set_down inp k in netif_remove inp k.

(** ** Steps of the two threads *)

(** What an observer of the air sees: a poll and its result, sound, silence. *)
Inductive pa_event := Polled (frame_open : bool) | Emitted (written : Z) | Silent.
Inductive pa_step : pa_driver -> list pa_event -> pa_driver -> Prop :=
| ps_queue d p d' err : quiet_lwip_portaudio_encode_frame p d = Ok (err, d') -> pa_step d [] d'
| ps_emit d d' written : may_emit d = true -> quiet_lwip_portaudio_get_next_audio_packet d = (written, d') -> pa_step d [Emitted written] d'
| ps_silent d d' written : may_emit d = false -> quiet_lwip_portaudio_get_next_audio_packet d = (written, d') -> pa_step d [Silent] d'
| ps_recv d d' fuel inp t t' : quiet_lwip_portaudio_recv_audio_packet fuel inp d t = Ok (d', t') ->
    pa_step d [Polled (frame_in_progress (pa_decoder d))] d'.
(** The newest event comes first. *)
Inductive pa_run : list pa_event -> pa_driver -> Prop :=
| pr_init e dec enc_size dec_size frame_len : pa_run [] (pa_init e dec enc_size dec_size frame_len)
| pr_step tr d l d' : pa_run tr d -> pa_step d l d' -> pa_run (l ++ tr) d'.

(** ** Half duplex *)

(** The results of the polls, newest first, and those the driver goes by. *)
Definition polls (tr : list pa_event) : list bool := omap (fun e => match e with Polled b => Some b | _ => None end) tr.
Definition PEER_POLLS : nat := 3.
Definition peer_heard (tr : list pa_event) : Prop := true ∈ take PEER_POLLS (polls tr).
(** The end of the last emission. *)
Fixpoint last_written (tr : list pa_event) : option Z :=
  match tr with [] => None | Emitted w :: _ => Some w | _ :: tr => last_written tr end.
(** How many of the newest polls found nothing. *)
Fixpoint idle_polls (l : list bool) : Z := match l with false :: l' => 1 + idle_polls l' | _ => 0 end.
Record flags_ok (tr : list pa_event) d : Prop := {
  fo_thresh : rx_wait_peer_frame_thresh d = 3;
  fo_wait : rx_wait_peer_frame d = Z.min 3 (idle_polls (polls tr));
  fo_rx : rx_in_progress d = true <-> peer_heard tr;
  fo_tx : tx_in_progress d = match last_written tr with Some w => w =? encoder_sample_size d | None => false end
}.
Definition same_flags d d' : Prop :=
  rx_wait_peer_frame_thresh d' = rx_wait_peer_frame_thresh d /\ rx_wait_peer_frame d' = rx_wait_peer_frame d /\
  rx_in_progress d' = rx_in_progress d /\ tx_in_progress d' = tx_in_progress d /\ encoder_sample_size d' = encoder_sample_size d.
Lemma flags_same tr d d' : same_flags d d' -> flags_ok tr d -> flags_ok tr d'.
Proof. intros (H1 & H2 & H3 & H4 & H5) []. split; [congruence|congruence|by rewrite H3|by rewrite H4, H5]. Qed.
Lemma process_audio_flags fuel inp : forall d t d' t', quiet_lwip_portaudio_process_audio fuel inp d t = Ok (d', t') -> same_flags d d'.
Proof.
  induction fuel as [|fuel IH]; intros d t d' t'; [done|]. cbn [quiet_lwip_portaudio_process_audio].
  unfold quiet_lwip_portaudio_fetch_single_frame. destruct (decoder_recv _ _) as [[bs|] dec]; [|by intros [= <- <-]].
  destruct (buf2pbuf bs (tp_inet t)) as [[q|] s]; [|by intros [= <- <-]].
  destruct (recv_pbuf _ _ _) as [t1|]; [|done]. cbn [res_bind]. intros H. exact (IH _ _ _ _ H).
Qed.
Lemma idle_nonneg l : 0 <= idle_polls l.
Proof. induction l as [|[] l IH]; cbn; lia. Qed.
(** Fewer than [n] newest polls found nothing, and some found a frame. *)
Lemma heard_idle n l : true ∈ take n l <-> idle_polls l < Z.of_nat n /\ true ∈ l.
Proof.
  revert n. induction l as [|b l IH]; intros n; [rewrite take_nil, elem_of_nil; tauto|]. destruct n as [|n].
  { cbn [take]. rewrite elem_of_nil. pose proof (idle_nonneg (b :: l)). split; [done|]. lia. }
  cbn [take]. rewrite !elem_of_cons, IH. destruct b; cbn [idle_polls]; [|naive_solver lia]. split; [|by left]. split; [lia|by left].
Qed.
Lemma heard_false l : true ∈ take 3 (false :: l) <-> true ∈ take 3 l /\ idle_polls l <> 2.
Proof. rewrite !heard_idle. cbn [idle_polls]. rewrite elem_of_cons. pose proof (idle_nonneg l). naive_solver lia. Qed.
Lemma poll_flags tr d b : flags_ok tr d -> flags_ok (Polled b :: tr) (poll b d).
Proof.
  intros [H1 H2 H3 H4]. unfold poll. pose proof (idle_nonneg (polls tr)). destruct b; cbn [negb].
  - split; [done|done| |exact H4]. unfold peer_heard. cbn. split; [by left|done].
  - assert (Hidle : idle_polls (polls (Polled false :: tr)) = 1 + idle_polls (polls tr)) by done.
    assert (Hheard : peer_heard (Polled false :: tr) <-> peer_heard tr /\ idle_polls (polls tr) <> 2) by exact (heard_false (polls tr)).
    rewrite H1, H2. destruct (Z.ltb_spec (Z.min 3 (idle_polls (polls tr))) 3) as [Hlt|Hge].
    + set (w := Z.min 3 (idle_polls (polls tr)) + 1). set (d1 := d <| rx_wait_peer_frame := w |>).
      change (rx_wait_peer_frame d1) with w. change (rx_wait_peer_frame_thresh d1) with (rx_wait_peer_frame_thresh d). rewrite H1.
      destruct (Z.eqb_spec w 3) as [He|He]; unfold w in He.
      * split; [exact H1|rewrite Hidle; change (rx_wait_peer_frame _) with w; unfold w; lia| |exact H4]. split; [done|]. intros [_ Hh]%Hheard. lia.
      * split; [exact H1|rewrite Hidle; change (rx_wait_peer_frame _) with w; unfold w; lia| |exact H4]. rewrite Hheard.
        change (rx_in_progress d1) with (rx_in_progress d). rewrite H3. split; [intros Hh; split; [done|lia]|tauto].
    + split; [done|rewrite Hidle; lia| |exact H4]. rewrite Hheard, H3. split; [intros Hh; split; [done|lia]|tauto].
Qed.
Lemma step_flags tr d l d' : flags_ok tr d -> pa_step d l d' -> flags_ok (l ++ tr) d'.
Proof.
  intros Hf Hs. destruct Hs as [d p d' err Hq|d d' w Hm Hq|d d' w Hm Hq|d d' fuel inp t t' Hq]; cbn [app].
  - unfold quiet_lwip_portaudio_encode_frame in Hq. destruct (_ <? _); [by injection Hq as _ <-|].
    destruct (pbuf2buf _ _); [|done]. injection Hq as _ <-. by apply (flags_same _ d).
  - unfold quiet_lwip_portaudio_get_next_audio_packet in Hq. rewrite Hm in Hq. destruct (encoder_emit _) as [w' e]. injection Hq as <- <-.
    destruct Hf as [H1 H2 H3 H4]. by split.
  - unfold quiet_lwip_portaudio_get_next_audio_packet in Hq. rewrite Hm in Hq. injection Hq as <- <-. destruct Hf. by split.
  - unfold quiet_lwip_portaudio_recv_audio_packet in Hq. apply process_audio_flags in Hq. eapply flags_same; [exact Hq|]. by apply poll_flags.
Qed.
Lemma run_flags tr d : pa_run tr d -> flags_ok tr d.
Proof.
  induction 1 as [|tr d l d' Hr IH Hs]; [|by eapply step_flags]. split; try done. split; [done|]. intros Hh. by apply elem_of_nil in Hh.
Qed.

(** A burst of sound goes on: the last emission filled its buffer. *)
Definition in_burst (tr : list pa_event) d : Prop := last_written tr = Some (encoder_sample_size d).
Lemma tx_burst tr d : flags_ok tr d -> tx_in_progress d = true <-> in_burst tr d.
Proof.
  intros [_ _ _ ->]. unfold in_burst. destruct (last_written tr) as [w|]; [|done]. rewrite Z.eqb_eq. split; [by intros ->|by intros [= ->]].
Qed.
Lemma may_emit_eq tr d : flags_ok tr d -> may_emit d = true <-> in_burst tr d \/ ~ peer_heard tr.
Proof.
  intros Hf. unfold may_emit. rewrite orb_true_iff, (tx_burst tr d Hf), negb_true_iff, <- not_true_iff_false, (fo_rx _ _ Hf). done.
Qed.

(** C18. Half duplex, in every interleaving of queued frames, emissions and polls.
    The flag rx_in_progress says exactly whether one of the last three polls
    found a frame of the peer on its way. Sound is emitted only when none did,
    or to finish a burst that is under way (the last emission filled its
    buffer); otherwise the card gets silence, and it gets silence only then. So
    three idle polls are enough for the driver to send again, whatever happened
    before. And no frame overruns the buffer: a longer one is refused with
    ERR_BUF. *)
Theorem half_duplex tr d : pa_run tr d ->
  (rx_in_progress d = true <-> peer_heard tr) /\
  (forall l d', pa_step d l d' ->
     match l with
     | [Emitted _] => in_burst tr d \/ ~ peer_heard tr
     | [Silent] => ~ in_burst tr d /\ peer_heard tr
     | _ => True
     end) /\
  (forall tr', polls tr = repeat false PEER_POLLS ++ tr' -> may_emit d = true) /\
  (forall p, exists d', quiet_lwip_portaudio_encode_frame p d =
     Ok (if pa_send_len d <? nb_tot_len p then ERR_BUF else ERR_OK, d') /\
     (nb_tot_len p <= pa_send_len d -> pa_encoder d' = encoder_send (pa_encoder d) (nb_bytes p))).
Proof.
  intros Hr. pose proof (run_flags tr d Hr) as Hf. split_and!.
  - apply Hf.
  - intros l d' Hs. destruct Hs as [ | d d' w Hm Hq | d d' w Hm Hq | ]; try done; [by apply may_emit_eq|].
    pose proof (may_emit_eq tr d Hf) as He. rewrite Hm in He. unfold peer_heard in *.
    destruct (decide (true ∈ take PEER_POLLS (polls tr))) as [Hp|Hp]; [|exfalso; destruct He as [_ He]; specialize (He (or_intror Hp)); done].
    split; [|done]. intros Hb. destruct He as [_ He]. by specialize (He (or_introl Hb)).
  - intros tr' Hp. apply (may_emit_eq tr d Hf). right. unfold peer_heard. rewrite Hp. cbn. rewrite !elem_of_cons, elem_of_nil. naive_solver.
  - intros p. unfold quiet_lwip_portaudio_encode_frame. destruct (Z.ltb_spec (pa_send_len d) (nb_tot_len p)) as [Hl|Hl].
    + exists d. split; [done|lia].
    + unfold pbuf2buf. rewrite (proj2 (Z.leb_le _ _)) by done. cbn [res_bind]. eexists. split; [done|]. done.
Qed.
End Portaudio.

(** After a poll that found a frame, the emit thread keeps silent. *)
Lemma half_duplex_witness :
  let d0 := poll true (pa_init (E := unit) (D := unit) tt tt 100 100 1500) in
  peer_heard [Polled true] /\ rx_in_progress d0 = true /\
  quiet_lwip_portaudio_get_next_audio_packet (fun _ => (100, tt)) (fun _ => tt) d0 = (0, d0).
Proof.
  assert (Hrun : pa_run (A := unit) (E := unit) (D := unit) (fun _ _ => tt) (fun _ => (100, tt)) (fun _ => tt) (fun _ _ => (None, tt)) (fun _ => true)
    [Polled true] (poll true (pa_init tt tt 100 100 1500))).
  { apply (pr_step _ _ _ _ _ [] (pa_init tt tt 100 100 1500) [Polled true]); [constructor|].
    set (t := mk_tcpip inet_init (mk_timers [] true) true [] 0 0 []).
    exact (ps_recv (A := unit) (fun _ _ => tt) (fun _ => (100, tt)) (fun _ => tt) (fun _ _ => (None, tt)) (fun _ => true)
      (pa_init tt tt 100 100 1500) (poll true (pa_init tt tt 100 100 1500)) 1%nat 0%nat t t eq_refl). }
  destruct (half_duplex _ _ _ _ _ _ _ Hrun) as [H _]. split; [apply H; done|]. done.
Defined.
