(* ===== verification/UdpTable.v ===== *)
(** * UDP: the table of control blocks

    [table_ok] is the invariant of the blocks and their list: a block is in the
    list exactly when it has a port, and no two blocks without SO_REUSEADDR
    share a port on overlapping addresses. Every operation of udp.c keeps it. *)
From S2P Require Import Prelude ByteOrder IpAddr Checksum Ip Tcp TcpOut TcpIn TcpWorld TcpShape TcpLists TcpCalls Etharp Netif IpFrag Nbuf Inet Icmp Udp InetDemo.

(** ** The invariant *)

(** A block with these options, address and port may not be next to [v]. *)
Definition udp_clash (so_options ip port : Z) (v : udp_pcb) : bool :=
  negb (has_flag so_options SOF_REUSEADDR) && negb (has_flag (up_so_options v) SOF_REUSEADDR) && (up_local_port v =? port) &&
  ((up_local_ip v =? IPADDR_ANY) || (ip =? IPADDR_ANY) || (up_local_ip v =? ip)).
Definition clash_of (u v : udp_pcb) : bool := udp_clash (up_so_options u) (up_local_ip u) (up_local_port u) v.
Lemma clash_sym u v : clash_of u v = clash_of v u.
Proof.
  unfold clash_of, udp_clash. rewrite (Z.eqb_sym (up_local_port u)), (Z.eqb_sym (up_local_ip u) (up_local_ip v)).
  repeat destruct (has_flag _ _); cbn; try done. by destruct (_ =? _), (_ =? _), (_ =? _), (_ =? _).
Qed.
Record table_ok (tbl : gmap addr udp_pcb) (l : list addr) : Prop := {
  tk_nodup : NoDup l;
  tk_bound : forall id, id ∈ l <-> exists u, tbl !! id = Some u /\ up_local_port u <> 0;
  tk_port : forall id u, tbl !! id = Some u -> is_u16 (up_local_port u);
  tk_size : Z.of_nat (size tbl) <= MEMP_NUM_UDP_PCB;
  tk_unique : forall i j u v, i ∈ l -> j ∈ l -> i <> j -> tbl !! i = Some u -> tbl !! j = Some v -> clash_of u v = false
}.
Lemma table_in tbl l id : table_ok tbl l -> id ∈ l -> exists u, tbl !! id = Some u /\ up_local_port u <> 0.
Proof. intros H. apply H. Qed.

(** The list in another order. *)
Lemma table_perm tbl l l' : l ≡ₚ l' -> table_ok tbl l -> table_ok tbl l'.
Proof.
  intros Hp [H1 H2 H3 H4 H5]. split; try done; [by rewrite <- Hp|intros id; by rewrite <- Hp|].
  intros i j u v. rewrite <- Hp. apply H5.
Qed.
(** A change that concerns neither address, port nor options. *)
Definition same_binding (u v : udp_pcb) : Prop :=
  up_local_ip v = up_local_ip u /\ up_local_port v = up_local_port u /\ up_so_options v = up_so_options u.
Lemma table_put tbl l id u v : table_ok tbl l -> tbl !! id = Some u -> same_binding u v -> table_ok (<[id := v]> tbl) l.
Proof.
  intros [H1 H2 H3 H4 H5] Hu (S1 & S2 & S3). pose proof (H3 id u Hu) as Hpu. split; try done.
  - intros k. rewrite H2. destruct (decide (k = id)) as [->|Hk]; [|by rewrite lookup_insert_ne].
    rewrite lookup_insert_eq. rewrite Hu. split; intros (w & [= <-] & Hw); eexists; (split; [done|congruence]).
  - intros k w Hw. apply lookup_insert_Some in Hw as [[<- <-]|[? Hw]]; [by rewrite S2|by eapply H3].
  - rewrite map_size_insert_Some by done. done.
  - intros i j a b Hi Hj Hij Ha Hb.
    assert (Hsame : forall x k w, (<[id := v]> tbl) !! k = Some w -> exists w', tbl !! k = Some w' /\ clash_of w x = clash_of w' x).
    { intros x k w Hw. apply lookup_insert_Some in Hw as [[<- <-]|[? Hw]]; [|by exists w]. exists u. split; [done|].
      unfold clash_of, udp_clash. by rewrite S1, S2, S3. }
    destruct (Hsame b i a Ha) as (a' & Ha' & ->). destruct (Hsame a' j b Hb) as (b' & Hb' & Hc). rewrite clash_sym, Hc, clash_sym. by apply (H5 i j).
Qed.
(** A change of the options: SO_REUSEADDR is not cleared once there is a port. *)
Lemma table_options tbl l id u v : table_ok tbl l -> tbl !! id = Some u -> up_local_ip v = up_local_ip u -> up_local_port v = up_local_port u ->
  (up_local_port u = 0 \/ (has_flag (up_so_options u) SOF_REUSEADDR = true -> has_flag (up_so_options v) SOF_REUSEADDR = true)) ->
  table_ok (<[id := v]> tbl) l.
Proof.
  intros [H1 H2 H3 H4 H5] Hu S1 S2 S3. pose proof (H3 id u Hu) as Hpu. split; try done.
  - intros k. rewrite H2. destruct (decide (k = id)) as [->|Hk]; [|by rewrite lookup_insert_ne].
    rewrite lookup_insert_eq. rewrite Hu. split; intros (w & [= <-] & Hw); eexists; (split; [done|congruence]).
  - intros k w Hw. apply lookup_insert_Some in Hw as [[<- <-]|[? Hw]]; [by rewrite S2|by eapply H3].
  - rewrite map_size_insert_Some by done. done.
  - assert (Hle : id ∈ l -> forall x, clash_of v x = true -> clash_of u x = true).
    { intros Hin x. assert (Hf : has_flag (up_so_options v) SOF_REUSEADDR = false -> has_flag (up_so_options u) SOF_REUSEADDR = false).
      { intros Hv. destruct S3 as [S3|S3]; [|by destruct (has_flag (up_so_options u) _); [rewrite S3 in Hv|]].
        apply H2 in Hin as (w & Hw & Hn). congruence. }
      unfold clash_of, udp_clash. rewrite S1, S2, !andb_true_iff, !negb_true_iff. intros [[[A B] C] D]. by rewrite (Hf A). }
    intros i j a b Hi Hj Hij Ha Hb. apply not_true_is_false. intros Hc.
    destruct (decide (i = id)) as [->|Hni]; [|destruct (decide (j = id)) as [->|Hnj]].
    + rewrite lookup_insert_eq in Ha. rewrite lookup_insert_ne in Hb by done. injection Ha as <-. apply (Hle Hi) in Hc.
      by rewrite (H5 id j u b) in Hc.
    + rewrite lookup_insert_eq in Hb. rewrite lookup_insert_ne in Ha by done. injection Hb as <-. rewrite clash_sym in Hc. apply (Hle Hj) in Hc.
      rewrite clash_sym in Hc. by rewrite (H5 i id a u) in Hc.
    + rewrite lookup_insert_ne in Ha, Hb by done. by rewrite (H5 i j a b) in Hc.
Qed.
(** A block gets an address and a port that clash with no other. *)
Lemma table_bind tbl l id u v : table_ok tbl l -> tbl !! id = Some u -> up_local_port v <> 0 -> is_u16 (up_local_port v) ->
  (forall j w, j ∈ l -> j <> id -> tbl !! j = Some w -> clash_of v w = false) ->
  table_ok (<[id := v]> tbl) (if bool_decide (id ∈ l) then l else id :: l).
Proof.
  intros [H1 H2 H3 H4 H5] Hu Hv Hv16 Hc.
  assert (Hin : forall k, k ∈ (if bool_decide (id ∈ l) then l else id :: l) <-> k = id \/ k ∈ l).
  { intros k. case_bool_decide; [|by rewrite elem_of_cons]. split; [by right|by intros [->|]]. }
  split.
  - case_bool_decide; [done|by constructor].
  - intros k. rewrite Hin, H2. destruct (decide (k = id)) as [->|Hk].
    + rewrite lookup_insert_eq. split; [by exists v|by left].
    + rewrite lookup_insert_ne by done. split; [by intros [?|]|by right].
  - intros k w Hw. apply lookup_insert_Some in Hw as [[<- <-]|[? Hw]]; [done|by eapply H3].
  - rewrite map_size_insert_Some by done. done.
  - assert (Hout : forall j w, j = id \/ j ∈ l -> j <> id -> (<[id := v]> tbl) !! j = Some w -> clash_of v w = false).
    { intros j w Hj Hne Hw. rewrite lookup_insert_ne in Hw by done. destruct Hj as [?|Hj]; [done|]. by apply (Hc j). }
    intros i j a b Hi Hj Hij Ha Hb. apply Hin in Hi, Hj.
    destruct (decide (i = id)) as [->|Hne]; [|destruct (decide (j = id)) as [->|Hnj]].
    + rewrite lookup_insert_eq in Ha. injection Ha as <-. by apply (Hout j).
    + rewrite lookup_insert_eq in Hb. injection Hb as <-. rewrite clash_sym. by apply (Hout i).
    + rewrite lookup_insert_ne in Ha, Hb by done. destruct Hi as [?|Hi]; [done|]. destruct Hj as [?|Hj]; [done|]. by apply (H5 i j).
Qed.
Lemma table_new tbl l id u : table_ok tbl l -> tbl !! id = None -> up_local_port u = 0 -> Z.of_nat (size tbl) < MEMP_NUM_UDP_PCB ->
  table_ok (<[id := u]> tbl) l.
Proof.
  intros [H1 H2 H3 H4 H5] Hn Hu Hs.
  assert (Hnot : id ∉ l) by (rewrite H2; intros (w & Hw & _); congruence).
  split; try done.
  - intros k. rewrite H2. destruct (decide (k = id)) as [->|Hk]; [|by rewrite lookup_insert_ne].
    rewrite lookup_insert_eq, Hn. split; [by intros (? & ? & _)|intros (w & [= <-] & ?); done].
  - intros k w Hw. apply lookup_insert_Some in Hw as [[<- <-]|[? Hw]]; [rewrite Hu; unfold is_u16; lia|by eapply H3].
  - rewrite map_size_insert_None by done. lia.
  - intros i j a b Hi Hj Hij Ha Hb. rewrite lookup_insert_ne in Ha, Hb by (intros ->; done). by apply (H5 i j).
Qed.
Lemma table_remove tbl l id u : table_ok tbl l -> tbl !! id = Some u -> table_ok (delete id tbl) (unlink id l).
Proof.
  intros [H1 H2 H3 H4 H5] Hu. split.
  - eapply sublist_NoDup; [done|apply unlink_sublist].
  - intros k. rewrite elem_of_unlink by done. rewrite H2. split.
    + intros (Hk & w & Hw & ?). exists w. by rewrite lookup_delete_ne.
    + intros (w & [Hk Hw]%lookup_delete_Some & ?). split; [done|]. by exists w.
  - intros k w [_ Hw]%lookup_delete_Some. by eapply H3.
  - rewrite map_size_delete_Some by (by exists u). lia.
  - intros i j a b Hi Hj Hij [_ Ha]%lookup_delete_Some [_ Hb]%lookup_delete_Some.
    apply elem_of_unlink in Hi as [_ Hi]; [|done]. apply elem_of_unlink in Hj as [_ Hj]; [|done]. by apply (H5 i j).
Qed.

(** ** Free ports *)
Definition ports_of (tbl : gmap addr udp_pcb) (l : list addr) : list Z := omap (fun k => up_local_port <$> tbl !! k) l.
Lemma port_used_ok tbl l port : Forall (fun k => is_Some (tbl !! k)) l -> port_used tbl l port = Ok (bool_decide (port ∈ ports_of tbl l)).
Proof.
  unfold ports_of. induction l as [|k l IH]; intros Hl; cbn [port_used omap list_omap]; [done|].
  apply Forall_cons in Hl as [[u Hu] Hl]. rewrite Hu. cbn [of_option res_bind fmap option_fmap option_map].
  destruct (Z.eqb_spec (up_local_port u) port) as [->|Hne].
  - rewrite bool_decide_true; [done|]. by left.
  - rewrite IH by done. f_equal. apply bool_decide_ext. rewrite elem_of_cons. naive_solver.
Qed.
Definition in_port_range (p : Z) : Prop := UDP_LOCAL_PORT_RANGE_START <= p <= UDP_LOCAL_PORT_RANGE_END.
(** The [k]th port after [p]. *)
Definition nth_port (p : Z) (k : nat) : Z := UDP_LOCAL_PORT_RANGE_START + (p - UDP_LOCAL_PORT_RANGE_START + Z.of_nat k) mod 16384.
Lemma nth_port_0 p : in_port_range p -> nth_port p 0 = p.
Proof. unfold in_port_range, nth_port, UDP_LOCAL_PORT_RANGE_START, UDP_LOCAL_PORT_RANGE_END. intros. rewrite Z.mod_small; lia. Qed.
Lemma nth_port_range p k : in_port_range (nth_port p k).
Proof.
  unfold in_port_range, nth_port, UDP_LOCAL_PORT_RANGE_START, UDP_LOCAL_PORT_RANGE_END.
  pose proof (Z.mod_pos_bound (p - 0xc000 + Z.of_nat k) 16384). lia.
Qed.
Lemma next_port_nth p k : next_port (nth_port p k) = nth_port p (S k).
Proof.
  unfold next_port, nth_port, UDP_LOCAL_PORT_RANGE_START, UDP_LOCAL_PORT_RANGE_END. rewrite Nat2Z.inj_succ.
  set (x := p - 0xc000 + Z.of_nat k). replace (p - 0xc000 + Z.succ (Z.of_nat k)) with (x + 1) by lia.
  destruct (Z.eqb_spec (0xc000 + x mod 16384) 0xffff); unfold u16; Z.div_mod_to_equations; lia.
Qed.
Lemma nth_port_inj p i j : Z.of_nat i < 16384 -> Z.of_nat j < 16384 -> nth_port p i = nth_port p j -> i = j.
Proof. unfold nth_port. intros. Z.div_mod_to_equations. lia. Qed.
(** Among the next [length used + 1] ports one is free. *)
Lemma free_port_exists p used : Z.of_nat (length used) < 16383 -> exists k, (1 <= k <= S (length used))%nat /\ nth_port p k ∉ used.
Proof.
  intros Hlen. destruct (decide (Exists (fun k => nth_port p k ∉ used) (seq 1 (S (length used))))) as [H|H].
  { apply Exists_exists in H as (k & Hk%elem_of_seq & ?). exists k. split; [lia|done]. }
  exfalso. apply not_Exists_Forall in H; [|apply _].
  assert (Hs : nth_port p <$> seq 1 (S (length used)) ⊆+ used).
  { apply NoDup_submseteq.
    - apply NoDup_fmap_2_strong; [|apply NoDup_seq]. intros i j Hi%elem_of_seq Hj%elem_of_seq. apply nth_port_inj; lia.
    - intros x (k & -> & Hk)%list_elem_of_fmap. rewrite Forall_forall in H. specialize (H k Hk).
      by destruct (decide (nth_port p k ∈ used)). }
  apply submseteq_length in Hs. rewrite length_fmap, length_seq in Hs. lia.
Qed.

Lemma reuse_kept o opt : is_u8 opt -> has_flag opt SOF_REUSEADDR = false -> has_flag o SOF_REUSEADDR = true ->
  has_flag (clear_flag o opt) SOF_REUSEADDR = true.
Proof.
  intros Ho Hf Hs. unfold clear_flag. rewrite has_flag_land.
  assert (Hall : forallb (fun k => has_flag k SOF_REUSEADDR || (Z.land (255 - k) SOF_REUSEADDR =? SOF_REUSEADDR)) (map Z.of_nat (seq 0 256)) = true)
    by by vm_compute.
  rewrite forallb_forall in Hall. specialize (Hall opt). rewrite Hf in Hall. cbn [orb] in Hall.
  assert (Hin : In opt (map Z.of_nat (seq 0 256))).
  { apply in_map_iff. exists (Z.to_nat opt). unfold is_u8 in Ho. split; [lia|]. apply in_seq. lia. }
  apply Hall, Z.eqb_eq in Hin. by rewrite Hin.
Qed.

Section Table.
Context {A : Type}.
Implicit Types (s : inet A) (id : addr).
Definition udp_tables_ok s : Prop := table_ok (udp_tbl s) (udp_pcbs s) /\ in_port_range (udp_port s).
Lemma listed_some tbl l : table_ok tbl l -> Forall (fun k => is_Some (tbl !! k)) l.
Proof. intros H. apply Forall_forall. intros k Hk. destruct (table_in _ _ k H Hk) as (u & Hu & _). by exists u. Qed.
Lemma port_loop_finds s p d : forall fuel k n, Forall (fun k => is_Some (udp_tbl s !! k)) (udp_pcbs s) ->
  nth_port p (k + S d) ∉ ports_of (udp_tbl s) (udp_pcbs s) -> (d < fuel)%nat -> 0 <= n -> n + Z.of_nat d <= 1000 ->
  exists q, udp_new_port_loop fuel s n (nth_port p k) = Ok (q, q) /\ in_port_range q /\ q ∉ ports_of (udp_tbl s) (udp_pcbs s).
Proof.
  induction d as [|d IH]; intros fuel k n Hf Hfree Hd H0 Hn; (destruct fuel as [|fuel]; [lia|]); cbn [udp_new_port_loop];
    rewrite next_port_nth, port_used_ok by done; cbn [res_bind]; case_bool_decide as Hu.
  - exfalso. apply Hfree. by replace (k + 1)%nat with (S k) by lia.
  - eexists. split; [done|]. split; [apply nth_port_range|done].
  - rewrite u16_id by lia. unfold UDP_LOCAL_PORT_RANGE_END, UDP_LOCAL_PORT_RANGE_START. rewrite (proj2 (Z.ltb_ge _ _)) by lia.
    apply IH; [done| |lia..]. by replace (S k + S d)%nat with (k + S (S d))%nat by lia.
  - eexists. split; [done|]. split; [apply nth_port_range|done].
Qed.
Lemma ports_of_length tbl l : (length (ports_of tbl l) <= length l)%nat.
Proof. unfold ports_of. induction l as [|k l IH]; cbn; [done|]. destruct (tbl !! k); cbn; lia. Qed.
Lemma listed_few tbl l : table_ok tbl l -> Z.of_nat (length l) <= MEMP_NUM_UDP_PCB.
Proof.
  intros H. pose proof (tk_size _ _ H). assert ((length l <= size tbl)%nat); [|lia].
  replace (size tbl) with (size (dom tbl)) by apply size_dom. rewrite <- (size_list_to_set (C := gset addr) l) by apply H.
  apply subseteq_size. intros k Hk%elem_of_list_to_set. apply elem_of_dom. pose proof (listed_some _ _ H) as Hl.
  rewrite Forall_forall in Hl. by apply Hl.
Qed.
(** With few blocks a port is always found. *)
Lemma udp_new_port_ok s : Forall (fun k => is_Some (udp_tbl s !! k)) (udp_pcbs s) -> Z.of_nat (length (udp_pcbs s)) <= MEMP_NUM_UDP_PCB ->
  in_port_range (udp_port s) ->
  exists q, udp_new_port s = Ok (q, s <| udp_port := q |>) /\ in_port_range q /\ q ∉ ports_of (udp_tbl s) (udp_pcbs s).
Proof.
  intros Hl Hfew Hp. pose proof (ports_of_length (udp_tbl s) (udp_pcbs s)). unfold MEMP_NUM_UDP_PCB in *.
  destruct (free_port_exists (udp_port s) (ports_of (udp_tbl s) (udp_pcbs s))) as (k & Hk & Hfree); [lia|].
  destruct (port_loop_finds s (udp_port s) (k - 1) (S (Z.to_nat (UDP_LOCAL_PORT_RANGE_END - UDP_LOCAL_PORT_RANGE_START))) 0 0) as (q & Hq & Hr & Hf);
    [done|by replace (0 + S (k - 1))%nat with k by lia|unfold UDP_LOCAL_PORT_RANGE_END, UDP_LOCAL_PORT_RANGE_START; lia|done|lia|].
  rewrite nth_port_0 in Hq by done. exists q. unfold udp_new_port. by rewrite Hq.
Qed.

(** ** Binding *)
Definition clashes (tbl : gmap addr udp_pcb) (l : list addr) id (so ip port : Z) : Prop :=
  exists j w, j ∈ l /\ j <> id /\ tbl !! j = Some w /\ udp_clash so ip port w = true.
Lemma udp_bind_loop_eq tbl l id so ip port : forall rebind, NoDup l -> Forall (fun k => is_Some (tbl !! k)) l -> (rebind = true -> id ∉ l) ->
  (udp_bind_loop tbl l id so ip port rebind = Ok None /\ clashes tbl l id so ip port) \/
  (udp_bind_loop tbl l id so ip port rebind = Ok (Some (rebind || bool_decide (id ∈ l))) /\ ~ clashes tbl l id so ip port).
Proof.
  induction l as [|k l IH]; intros rebind Hn Hl Hr; cbn [udp_bind_loop].
  { right. split; [by rewrite orb_false_r|]. intros (j & w & Hj & _). by apply elem_of_nil in Hj. }
  apply NoDup_cons in Hn as [Hk Hn]. apply Forall_cons in Hl as [[u Hu] Hl]. destruct (decide (id = k)) as [Hid|Hid].
  - rewrite (bool_decide_true (id = k)) by done. subst k. assert (rebind = false) as -> by (destruct rebind; [exfalso; apply Hr; [done|by left]|done]). cbn [negb lwip_assert res_bind].
    rewrite (bool_decide_true (id ∈ id :: l)) by by left. cbn [orb].
    destruct (IH true Hn Hl ltac:(done)) as [[-> Hc]|[-> Hc]]; [left|right]; (split; [done|]).
    + destruct Hc as (j & w & Hj & H). exists j, w. split; [by right|done].
    + intros (j & w & [->|Hj]%elem_of_cons & Hne & H); [done|]. apply Hc. by exists j, w.
  - rewrite (bool_decide_false (id = k)) by done. rewrite Hu. cbn [of_option res_bind]. fold (udp_clash so ip port u). destruct (udp_clash so ip port u) eqn:Ec.
    + left. split; [done|]. exists k, u. split_and!; [by left|done..].
    + assert (Hr' : rebind = true -> id ∉ l) by (intros H; specialize (Hr H); set_solver).
      rewrite (bool_decide_ext (id ∈ k :: l) (id ∈ l)) by (rewrite elem_of_cons; naive_solver).
      destruct (IH rebind Hn Hl Hr') as [[-> Hc]|[-> Hc]]; [left|right]; (split; [done|]).
      * destruct Hc as (j & w & Hj & H). exists j, w. split; [by right|done].
      * intros (j & w & [->|Hj]%elem_of_cons & Hne & Hw & H); [congruence|]. apply Hc. by exists j, w.
Qed.
Lemma tables_bind s id u v : udp_tables_ok s -> udp_tbl s !! id = Some u -> up_local_port v <> 0 -> is_u16 (up_local_port v) ->
  ~ clashes (udp_tbl s) (udp_pcbs s) id (up_so_options v) (up_local_ip v) (up_local_port v) ->
  forall s', udp_tbl s' = udp_tbl s \/ (exists w, udp_tbl s' = <[id := w]> (udp_tbl s)) -> udp_pcbs s' = udp_pcbs s -> in_port_range (udp_port s') ->
  udp_tables_ok (if bool_decide (id ∈ udp_pcbs s) then put_udp id v s' else (put_udp id v s') <| udp_pcbs := id :: udp_pcbs s' |>).
Proof.
  intros [Ht Hp] Hu Hv Hv16 Hc s' Htbl Hl Hp'.
  assert (Hok : table_ok (<[id := v]> (udp_tbl s)) (if bool_decide (id ∈ udp_pcbs s) then udp_pcbs s else id :: udp_pcbs s)).
  { apply (table_bind _ _ _ u); try done. intros j w Hj Hne Hw. unfold clash_of. destruct (udp_clash _ _ _ w) eqn:E; [|done].
    exfalso. apply Hc. by exists j, w. }
  assert (Hins : <[id := v]> (udp_tbl s') = <[id := v]> (udp_tbl s)).
  { destruct Htbl as [->|[w ->]]; [done|]. by rewrite insert_insert_eq. }
  rewrite <- Hins in Hok. case_bool_decide; split; cbn; rewrite ?Hl; done.
Qed.
(** [udp_bind] on a block [u] of the table: the port it gives. *)
Lemma udp_bind_ok s id u ip port : udp_tables_ok s -> udp_tbl s !! id = Some u -> is_u16 port ->
  (udp_bind id ip port s = Ok (ERR_USE, s) /\ clashes (udp_tbl s) (udp_pcbs s) id (up_so_options u) ip port) \/
  (exists s' q, udp_bind id ip port s = Ok (ERR_OK, s') /\ udp_tables_ok s' /\
    udp_tbl s' = <[id := u <| up_local_ip := ip |> <| up_local_port := q |>]> (udp_tbl s) /\ q <> 0 /\
    if port =? 0 then in_port_range q /\ q ∉ ports_of (udp_tbl s) (udp_pcbs s)
    else q = port /\ ~ clashes (udp_tbl s) (udp_pcbs s) id (up_so_options u) ip port).
Proof.
  intros Hs Hu Hport. pose proof Hs as [Ht Hp]. unfold udp_bind, get_udp. rewrite Hu. cbn [of_option res_bind].
  destruct (udp_bind_loop_eq (udp_tbl s) (udp_pcbs s) id (up_so_options u) ip port false) as [[-> Hc]|[-> Hc]];
    [apply Ht|by apply listed_some|done|left; done|]. right. cbn [orb res_bind].
  set (u1 := u <| up_local_ip := ip |>). set (s1 := put_udp id u1 s).
  assert (Hlisted : Forall (fun k => is_Some (udp_tbl s1 !! k)) (udp_pcbs s1)).
  { eapply Forall_impl; [by apply listed_some|]. intros k Hk. cbn. apply lookup_insert_is_Some'. by right. }
  assert (Hports : ports_of (udp_tbl s1) (udp_pcbs s1) = ports_of (udp_tbl s) (udp_pcbs s)).
  { unfold ports_of. cbn. clear -Hu. generalize (udp_pcbs s). induction l as [|k l IH]; [done|].
    cbn [omap list_omap]. rewrite IH. destruct (decide (k = id)) as [->|Hk]; [|by rewrite lookup_insert_ne].
    rewrite lookup_insert_eq, Hu. done. }
  destruct (Z.eqb_spec port 0) as [->|Hne].
  - destruct (udp_new_port_ok s1 Hlisted (listed_few _ _ Ht) Hp) as (q & -> & Hr & Hf). rewrite Hports in Hf.
    cbn [res_bind].
    assert (Hq0 : q <> 0) by (unfold in_port_range, UDP_LOCAL_PORT_RANGE_START in Hr; lia).
    rewrite (proj2 (Z.eqb_neq q 0)) by done. eexists _, q. split; [reflexivity|].
    assert (Hno : ~ clashes (udp_tbl s) (udp_pcbs s) id (up_so_options u) ip q).
    { intros (j & w & Hj & _ & Hw & Hcl). apply Hf. unfold udp_clash in Hcl. apply andb_true_iff in Hcl as [[_ Heq]%andb_true_iff _].
      apply Z.eqb_eq in Heq. unfold ports_of. apply list_elem_of_omap. exists j. split; [done|]. rewrite Hw. cbn. by rewrite Heq. }
    split_and!; try done.
    + refine (tables_bind s id u (u <| up_local_ip := ip |> <| up_local_port := q |>) Hs Hu Hq0 _ Hno (s1 <| udp_port := q |>) _ eq_refl Hr).
      * unfold in_port_range, UDP_LOCAL_PORT_RANGE_START, UDP_LOCAL_PORT_RANGE_END in Hr. unfold is_u16. cbn. lia.
      * right. by exists u1.
    + case_bool_decide; cbn; apply insert_insert_eq.
  - cbn [res_bind]. rewrite (proj2 (Z.eqb_neq port 0)) by done. eexists _, port. split; [reflexivity|]. split_and!; try done.
    + refine (tables_bind s id u (u <| up_local_ip := ip |> <| up_local_port := port |>) Hs Hu Hne Hport Hc s1 _ eq_refl Hp). right. by exists u1.
    + case_bool_decide; cbn; apply insert_insert_eq.
Qed.

(** ** The operations *)
Inductive udp_op :=
| UdpNew
| UdpBind (id : addr) (ip port : Z)
| UdpConnect (id : addr) (ip port : Z)
| UdpDisconnect (id : addr)
| UdpRecv (id : addr) (recv : bool)
| UdpRemove (id : addr)
| UdpOption (id : addr) (opt : Z) (on : bool)
| UdpSendto (id : addr) (p : nbuf) (ip port : Z)
| UdpArrive (n : netif) (cur_src cur_dest src dest : Z) (broadcast : bool).
Definition udp_step (o : udp_op) s : res (inet A) :=
  match o with
  | UdpNew => Ok (udp_new s).2
  | UdpBind id ip port => let! (_, s) := udp_bind id ip port s in Ok s
  | UdpConnect id ip port => let! (_, s) := udp_connect id ip port s in Ok s
  | UdpDisconnect id => udp_disconnect id s
  | UdpRecv id recv => udp_recv id recv s
  | UdpRemove id => udp_remove id s
  | UdpOption id opt on => udp_option id opt on s
  | UdpSendto id p ip port => let! (_, s) := udp_sendto id p ip port s in Ok s
  | UdpArrive n cs cd src dest b => let! (_, s) := udp_demux n cs cd src dest b s in Ok s
  end.
(** The block exists, a port is a u16_t, and SO_REUSEADDR is not cleared of a block
    that has a port (that can make two blocks clash: [reuse_cleared]). *)
Definition udp_op_ok (o : udp_op) s : Prop :=
  match o with
  | UdpBind id _ port => is_Some (udp_tbl s !! id) /\ is_u16 port
  | UdpOption id opt on => is_u8 opt /\ exists u, udp_tbl s !! id = Some u /\ (on = true \/ up_local_port u = 0 \/ has_flag opt SOF_REUSEADDR = false)
  | UdpSendto id _ _ _ => is_Some (udp_tbl s !! id)
  | UdpConnect id _ _ | UdpDisconnect id | UdpRecv id _ | UdpRemove id => is_Some (udp_tbl s !! id)
  | _ => True
  end.
Inductive udp_reachable : inet A -> Prop :=
| ur_init s : udp_tbl s = ∅ -> udp_pcbs s = [] -> udp_port s = UDP_LOCAL_PORT_RANGE_START -> udp_reachable s
| ur_step s o s' : udp_reachable s -> udp_op_ok o s -> udp_step o s = Ok s' -> udp_reachable s'.

Lemma udp_fresh_none s : udp_tbl s !! udp_fresh s = None.
Proof.
  destruct (udp_tbl s !! udp_fresh s) eqn:E; [|done]. exfalso.
  assert (is_Some (udp_tbl s !! udp_fresh s)) as H by eauto. apply map_max_ge in H. unfold udp_fresh in H. lia.
Qed.
Lemma udp_match_in tbl l n cs cd src dst b uncon : Forall (fun k => is_Some (tbl !! k)) l ->
  exists full u, udp_match tbl l n cs cd src dst b uncon = Ok (full, u) /\ match full with Some k => k ∈ l | None => True end.
Proof.
  revert uncon. induction l as [|k l IH]; intros uncon Hl; cbn [udp_match]; [by exists None, uncon|].
  apply Forall_cons in Hl as [[x Hx] Hl]. rewrite Hx. cbn [of_option res_bind]. destruct (_ && udp_remote_match _ _ _); [by eexists (Some k), _; split; [done|left]|].
  match goal with |- context [udp_match tbl l _ _ _ _ _ _ ?u] => destruct (IH u Hl) as (full & v & -> & Hf) end.
  exists full, v. split; [done|]. destruct full; [by right|done].
Qed.
Lemma tables_put s id u v : udp_tables_ok s -> udp_tbl s !! id = Some u -> same_binding u v -> udp_tables_ok (put_udp id v s).
Proof. intros [Ht Hp] Hu Hv. split; [|done]. by apply (table_put _ _ _ u). Qed.
Lemma udp_ensure_ok s id u : udp_tables_ok s -> udp_tbl s !! id = Some u ->
  (udp_ensure_port id s = Ok (ERR_USE, s)) \/
  (exists s' v, udp_ensure_port id s = Ok (ERR_OK, s') /\ udp_tables_ok s' /\ udp_tbl s' !! id = Some v /\ up_local_port v <> 0).
Proof.
  intros Hs Hu. unfold udp_ensure_port, get_udp. rewrite Hu. cbn [of_option res_bind].
  destruct (Z.eqb_spec (up_local_port u) 0) as [H0|H0].
  - rewrite H0. destruct (udp_bind_ok s id u (up_local_ip u) 0 Hs Hu ltac:(done)) as [[-> _]|(s' & q & -> & Hs' & Htbl & Hq & _)]; [by left|right].
    eexists s', _. split_and!; [done|done|rewrite Htbl; apply lookup_insert_eq|done].
  - right. by exists s, u.
Qed.
Lemma udp_connect_ok s id u ip port : udp_tables_ok s -> udp_tbl s !! id = Some u ->
  exists e s', udp_connect id ip port s = Ok (e, s') /\ udp_tables_ok s'.
Proof.
  intros Hs Hu. unfold udp_connect. destruct (udp_ensure_ok s id u Hs Hu) as [->|(s1 & v & -> & Hs1 & Hv & Hp)]; cbn [res_bind];
    [by exists ERR_USE, s|]. change (negb (ERR_OK =? ERR_OK)) with false. cbv iota. unfold get_udp. rewrite Hv. cbn [of_option res_bind].
  eexists _, _. split; [done|]. unfold in_udp_list. rewrite bool_decide_true; [by eapply tables_put|].
  cbn. apply (tk_bound _ _ (proj1 Hs1)). by exists v.
Qed.
(** What sending leaves alone. *)
Definition udp_part s := (udp_tbl s, udp_pcbs s, udp_port s).
Lemma tables_part s s' : udp_part s' = udp_part s -> udp_tables_ok s -> udp_tables_ok s'.
Proof. unfold udp_tables_ok, udp_part. by intros [= -> -> ->]. Qed.
Lemma netif_output_udp (nif : nat) p dest s r s' : netif_output nif p dest s = Ok (r, s') -> udp_part s' = udp_part s.
Proof.
  unfold netif_output. intros H. do 2 apply res_bind_ok in H as (? & _ & H). by apply res_bind_ok in H as ([e k] & _ & [= <- <-]).
Qed.
Lemma output_frags_udp (nif : nat) dest l : forall s s', output_frags nif dest l s = Ok s' -> udp_part s' = udp_part s.
Proof.
  induction l as [|[h d] l IH]; intros s s'; cbn [output_frags]; [by intros [= ->]|]. intros H.
  apply res_bind_ok in H as ([r s1] & H1 & H). apply netif_output_udp in H1. rewrite <- H1. by apply IH.
Qed.
Lemma ip_send_tables (nif : nat) p dest s r s' : ip_send nif p dest s = Ok (r, s') -> udp_part s' = udp_part s.
Proof.
  unfold ip_send. intros H. apply res_bind_ok in H as (n & _ & H). destruct (_ && _); [|by eapply netif_output_udp].
  apply res_bind_ok in H as (h & _ & H). apply res_bind_ok in H as ([[e al] out] & _ & H).
  apply res_bind_ok in H as (s1 & H1 & [= <- <-]). by apply output_frags_udp in H1.
Qed.
Lemma ip_output_if_udp p src dest ttl tos proto (nif : nat) s r s' : ip_output_if p src dest ttl tos proto nif s = Ok (r, s') -> udp_part s' = udp_part s.
Proof.
  unfold ip_output_if. destruct dest as [dest|]; intros H.
  - apply res_bind_ok in H as ([q|] & _ & H); [|by injection H as <- <-].
    do 3 apply res_bind_ok in H as (? & _ & H). by apply ip_send_tables in H.
  - apply res_bind_ok in H as (d & _ & H). by apply ip_send_tables in H.
Qed.
Lemma udp_sendto_tables s id u p ip port e s' : udp_tables_ok s -> udp_tbl s !! id = Some u -> udp_sendto id p ip port s = Ok (e, s') -> udp_tables_ok s'.
Proof.
  intros Hs Hu H. unfold udp_sendto in H. destruct (route s ip) as [[nif n]|]; [|by injection H as <- <-].
  unfold udp_sendto_if in H. apply res_bind_ok in H as ([err s1] & H1 & H).
  assert (Hs1 : udp_tables_ok s1).
  { destruct (udp_ensure_ok s id u Hs Hu) as [E|(s2 & v & E & Hs2 & _)]; rewrite E in H1; injection H1 as <- <-; done. }
  destruct (negb _); [by injection H as <- <-|]. apply res_bind_ok in H as (v & _ & H). apply res_bind_ok in H as ([o s2] & H2 & H).
  assert (Hs2 : udp_tables_ok s2).
  { apply (tables_part s1); [|done]. unfold udp_add_header in H2. apply res_bind_ok in H2 as ([q|] & _ & H2); [by injection H2 as <- <-|].
    unfold pbuf_alloc_ok in H2. destruct (in_allocs s1) as [|[] l]; by injection H2 as <- <-. }
  destruct o as [q|]; [|by injection H as <- <-]. apply res_bind_ok in H as (? & _ & H). apply res_bind_ok in H as (m & _ & H).
  destruct (negb _ && _); [by injection H as <- <-|]. apply res_bind_ok in H as (q' & _ & H). apply ip_output_if_udp in H.
  by apply (tables_part s2).
Qed.
(** Every operation but sending returns. *)
Definition udp_op_local (o : udp_op) : bool := match o with UdpSendto _ _ _ _ => false | _ => true end.
Lemma udp_step_ok s o : udp_tables_ok s -> udp_op_ok o s -> udp_op_local o = true -> exists s', udp_step o s = Ok s' /\ udp_tables_ok s'.
Proof.
  intros Hs Ho Hl. destruct o as [|id ip port|id ip port|id|id b|id|id opt on|id p ip port|n cs cd src dst b]; cbn [udp_step udp_op_ok] in *; try done.
  - eexists. split; [done|]. unfold udp_new. destruct (Z.ltb_spec (Z.of_nat (size (udp_tbl s))) MEMP_NUM_UDP_PCB); [|done].
    destruct Hs as [Ht Hp]. split; [|done]. apply table_new; [done|apply udp_fresh_none|done|done].
  - destruct Ho as [[u Hu] Hport]. destruct (udp_bind_ok s id u ip port Hs Hu Hport) as [[-> _]|(s' & q & -> & Hs' & _)]; by eexists.
  - destruct Ho as [u Hu]. destruct (udp_connect_ok s id u ip port Hs Hu) as (e & s' & -> & Hs'). by exists s'.
  - destruct Ho as [u Hu]. unfold udp_disconnect, get_udp. rewrite Hu. eexists. split; [done|]. by eapply tables_put.
  - destruct Ho as [u Hu]. unfold udp_recv, get_udp. rewrite Hu. eexists. split; [done|]. by eapply tables_put.
  - destruct Ho as [u Hu]. unfold udp_remove, get_udp. rewrite Hu. eexists. split; [done|]. destruct Hs as [Ht Hp]. split; [|done].
    by apply (table_remove _ _ _ u).
  - destruct Ho as (Hopt & u & Hu & Ho). unfold udp_option, get_udp. rewrite Hu. eexists. split; [done|]. destruct Hs as [Ht Hp]. split; [|done].
    apply (table_options _ _ _ u); [done..|]. cbn. destruct Ho as [->|[Ho|Ho]]; [right|by left|right].
    + intros Hf. by rewrite has_flag_lor_l, Hf.
    + intros Hf. destruct on; [by rewrite has_flag_lor_l, Hf|]. by apply reuse_kept.
  - unfold udp_demux. destruct (udp_match_in (udp_tbl s) (udp_pcbs s) n cs cd src dst b None) as (full & u & -> & Hf); [apply listed_some, Hs|].
    cbn [res_bind]. destruct full as [k|]; [|by exists s]. eexists. split; [done|]. destruct Hs as [Ht Hp]. split; [|done].
    apply (table_perm _ (udp_pcbs s)); [by apply unlink_Permutation|done].
Qed.

Lemma udp_step_tables s o s' : udp_tables_ok s -> udp_op_ok o s -> udp_step o s = Ok s' -> udp_tables_ok s'.
Proof.
  intros Hs Ho H. destruct (udp_op_local o) eqn:El.
  - destruct (udp_step_ok s o Hs Ho El) as (s1 & H1 & H2). congruence.
  - destruct o; try done. destruct Ho as [u Hu]. cbn in H. apply res_bind_ok in H as ([e s1] & H & [= <-]). by eapply udp_sendto_tables.
Qed.

(** C23. The UDP blocks, from the empty table on, under every sequence of
    udp_new, udp_bind, udp_connect, udp_disconnect, udp_recv, udp_remove,
    udp_sendto, changes of the options (where SO_REUSEADDR is not cleared of a
    block that has a port) and arriving datagrams (which reorder the list): the
    list holds exactly the blocks that have a port, each once, at most
    MEMP_NUM_UDP_PCB exist, two blocks neither of which has SO_REUSEADDR never
    share a port on overlapping addresses, and no operation on an existing
    block but sending fails or loops. [udp_bind] refuses exactly the addresses
    that would break this, and changes nothing then; asked for port 0 it gives a
    port of the dynamic range that no block of the list has. *)
Theorem udp_table_invariant s : udp_reachable s ->
  udp_tables_ok s /\
  (forall o, udp_op_ok o s -> udp_op_local o = true -> exists s', udp_step o s = Ok s') /\
  (forall id u ip port, udp_tbl s !! id = Some u -> is_u16 port ->
     (udp_bind id ip port s = Ok (ERR_USE, s) /\ clashes (udp_tbl s) (udp_pcbs s) id (up_so_options u) ip port) \/
     (exists s' q, udp_bind id ip port s = Ok (ERR_OK, s') /\ udp_tables_ok s' /\
       udp_tbl s' = <[id := u <| up_local_ip := ip |> <| up_local_port := q |>]> (udp_tbl s) /\ q <> 0 /\
       if port =? 0 then in_port_range q /\ q ∉ ports_of (udp_tbl s) (udp_pcbs s)
       else q = port /\ ~ clashes (udp_tbl s) (udp_pcbs s) id (up_so_options u) ip port)).
Proof.
  intros Hr. assert (Hs : udp_tables_ok s).
  { induction Hr as [s H1 H2 H3|s o s' Hr IH Ho Hstep]; [|by eapply udp_step_tables].
    split; [|rewrite H3; unfold in_port_range, UDP_LOCAL_PORT_RANGE_START, UDP_LOCAL_PORT_RANGE_END; lia]. rewrite H1, H2.
    split; [constructor| |done|done|].
    + intros id. rewrite elem_of_nil. split; [done|]. by intros (u & ? & _).
    + intros i j u v Hi. by apply elem_of_nil in Hi. }
  split_and!; [done| |].
  - intros o Ho Hl. destruct (udp_step_ok s o Hs Ho Hl) as (s' & ? & _). by exists s'.
  - intros id u ip port Hu Hp. by apply udp_bind_ok.
Qed.
End Table.

(** A block is created, allowed to share, and bound to a port the stack chooses. *)
Definition udp_empty : inet unit := InetDemo.inet_init.
Lemma udp_table_invariant_witness : exists s', udp_step (UdpBind 2 0 0) (udp_new udp_empty).2 = Ok s' /\ udp_tables_ok (udp_new udp_empty).2.
Proof.
  destruct (udp_table_invariant (udp_new udp_empty).2) as (H1 & H2 & _).
  - apply (ur_step udp_empty UdpNew); [by apply ur_init|done|done].
  - destruct (H2 (UdpBind 2 0 0)) as (s' & Hs').
    + split; [eexists; reflexivity|done].
    + reflexivity.
    + exists s'. exact (conj Hs' H1).
Defined.
(** Two blocks, and what the first has for options when the second is bound to
    its port. *)
Definition udp_pair (opt1 opt2 : bool) : res (inet unit) :=
  let '(_, s) := udp_new udp_empty in
  let '(_, s) := udp_new s in
  let! s := if opt1 then udp_option 2 SOF_REUSEADDR true s else Ok s in
  let! s := if opt2 then udp_option 3 SOF_REUSEADDR true s else Ok s in
  let! (_, s) := udp_bind 2 0 7 s in Ok s.
(** The comment says that *all* blocks must have SO_REUSEADDR to share a port;
    one of them is enough. *)
Example reuse_one : map (fun o => let! s := udp_pair o.1 o.2 in let! (e, s) := udp_bind 3 0 7 s in Ok (e, udp_pcbs s))
    [(false, false); (true, false); (false, true)] =
  [Ok (ERR_USE, [2%positive]); Ok (ERR_OK, [3%positive; 2%positive]); Ok (ERR_OK, [3%positive; 2%positive])].
Proof. by vm_compute. Qed.
(** Cleared later, it leaves two blocks without it on one port. *)
Example reuse_cleared : (let! s := udp_pair true false in let! (_, s) := udp_bind 3 0 7 s in let! s := udp_option 2 SOF_REUSEADDR false s in
    let! u := get_udp s 2 in let! v := get_udp s 3 in Ok (udp_pcbs s, clash_of u v)) = Ok ([3%positive; 2%positive], true).
Proof. by vm_compute. Qed.
