(* ===== verification/Asn1.v ===== *)
(** * ASN.1 for SNMP (src/src/lwip/core/snmp/asn1_enc.c, asn1_dec.c)

    The basic encoding rules for lengths, integers, object identifiers and raw
    octets, read from and written into a chain of pbufs. Built with LWIP_SNMP 1.
    A chain is the list of the bytes of its pbufs; a [cursor] is the pointer
    [msg_ptr] with the pbuf it points into. *)
From S2P Require Import Prelude Tcp.

(** ** The cursor *)
Record cursor := mk_cursor { cu_done : list (list Z); cu_pre : list Z; cu_post : list Z; cu_rest : list (list Z) }.
Definition cu_chain (c : cursor) : list (list Z) := cu_done c ++ (cu_pre c ++ cu_post c) :: cu_rest c.

(** The walk to the pbuf that holds the offset; [plen] is a u16_t. *)
Fixpoint cu_seek (ofs plen : Z) (before p : list (list Z)) : option cursor :=
  match p with
  | [] => None
  | b :: p' =>
      let base := plen in
      let plen := u16 (plen + zlen b) in
      if ofs <? plen then Some (mk_cursor before (take (Z.to_nat (ofs - base)) b) (drop (Z.to_nat (ofs - base)) b) p')
      else cu_seek ofs plen (before ++ [b]) p'
  end.
Definition seek_to (ofs : Z) (p : list (list Z)) : option cursor := cu_seek ofs 0 [] p.
(** The next octet, in the same or the next pbuf; [None] at the end. *)
Definition cu_next (c : cursor) : option cursor :=
  match cu_post c with
  | b :: _ :: _ => Some (mk_cursor (cu_done c) (cu_pre c ++ [b]) (tl (cu_post c)) (cu_rest c))
  | _ => match cu_rest c with
         | [] => None
         | q :: rest => Some (mk_cursor (cu_done c ++ [cu_pre c ++ cu_post c]) [] q rest)
         end
  end.
Definition cu_get (c : cursor) : res Z := match cu_post c with b :: _ => Ok b | [] => Err BadAccess end.
Definition cu_put (v : Z) (c : cursor) : res cursor :=
  match cu_post c with b :: l => Ok (mk_cursor (cu_done c) (cu_pre c) (v :: l) (cu_rest c)) | [] => Err BadAccess end.

(** ** Octet counts *)
Definition snmp_asn1_enc_length_cnt (length : Z) : Z := if length <? 0x80 then 1 else if length <? 0x100 then 2 else 3.
Definition snmp_asn1_enc_u32t_cnt (value : Z) : Z :=
  if value <? 0x80 then 1 else if value <? 0x8000 then 2 else if value <? 0x800000 then 3 else if value <? 0x80000000 then 4 else 5.
Definition snmp_asn1_enc_s32t_cnt (value : Z) : Z :=
  let value := if value <? 0 then Z.lnot value else value in
  if value <? 0x80 then 1 else if value <? 0x8000 then 2 else if value <? 0x800000 then 3 else 4.
(** How many octets a sub-identifier takes: the loop that shifts it down. *)
Fixpoint sub_id_cnt (fuel : nat) (sub_id : Z) : Z :=
  match fuel with O => 0 | S fuel => if 0 <? sub_id then 1 + sub_id_cnt fuel (Z.shiftr sub_id 7) else 0 end.
Definition sub_id_octets (sub_id : Z) : Z := 1 + sub_id_cnt 32 (Z.shiftr sub_id 7).
Definition snmp_asn1_enc_oid_cnt (ident : list Z) : Z :=
  match ident with
  | _ :: _ :: l => fold_left (fun cnt i => u8 (cnt + sub_id_octets i)) l 1
  | l => fold_left (fun cnt i => u8 (cnt + sub_id_octets i)) l 0
  end.

(** ** Encoding *)

(** An encoder returns its error code and the chain. *)
Definition enc_done (err : err_t) (c : cursor) : res (err_t * list (list Z)) := Ok (err, cu_chain c).
(** Go to the next octet, or return ERR_ARG. *)
Definition enc_next (c : cursor) (k : cursor -> res (err_t * list (list Z))) : res (err_t * list (list Z)) :=
  match cu_next c with None => enc_done ERR_ARG c | Some c => k c end.
Definition enc_at (p : list (list Z)) (ofs : Z) (k : cursor -> res (err_t * list (list Z))) : res (err_t * list (list Z)) :=
  match seek_to ofs p with None => Ok (ERR_ARG, p) | Some c => k c end.

Definition snmp_asn1_enc_type (p : list (list Z)) (ofs type : Z) : res (err_t * list (list Z)) :=
  enc_at p ofs (fun c => let! c := cu_put type c in enc_done ERR_OK c).
Definition snmp_asn1_enc_length (p : list (list Z)) (ofs length : Z) : res (err_t * list (list Z)) :=
  enc_at p ofs (fun c =>
    if length <? 0x80 then let! c := cu_put (u8 length) c in enc_done ERR_OK c
    else if length <? 0x100 then
      let! c := cu_put 0x81 c in
      enc_next c (fun c => let! c := cu_put (u8 length) c in enc_done ERR_OK c)
    else
      let! c := cu_put 0x82 c in
      enc_next c (fun c =>
        let! c := cu_put (u8 (Z.shiftr length 8)) c in
        enc_next c (fun c => let! c := cu_put (u8 length) c in enc_done ERR_OK c))).
(** The loop over the octets but the last: [octets_needed] is [S n]. *)
Fixpoint enc_octets (n : nat) (value : Z) (c : cursor) : res (err_t * list (list Z)) :=
  match n with
  | O => let! c := cu_put (u8 value) c in enc_done ERR_OK c
  | S n' =>
      let! c := cu_put (u8 (Z.shiftr value (Z.shiftl (Z.of_nat n) 3))) c in
      enc_next c (fun c => enc_octets n' value c)
  end.
Definition snmp_asn1_enc_u32t (p : list (list Z)) (ofs octets_needed value : Z) : res (err_t * list (list Z)) :=
  enc_at p ofs (fun c =>
    if octets_needed =? 5 then
      let! c := cu_put 0 c in
      enc_next c (fun c => enc_octets 3 value c)
    else enc_octets (Z.to_nat (octets_needed - 1)) value c).
Definition snmp_asn1_enc_s32t (p : list (list Z)) (ofs octets_needed value : Z) : res (err_t * list (list Z)) :=
  enc_at p ofs (fun c => enc_octets (Z.to_nat (octets_needed - 1)) value c).
(** The loop over the shifts 28, 21, 14, 7 of a sub-identifier. *)
Fixpoint enc_sub_id (n : nat) (tail : bool) (sub_id : Z) (c : cursor) (k : cursor -> res (err_t * list (list Z))) : res (err_t * list (list Z)) :=
  match n with
  | O => k c
  | S n' =>
      let code := u8 (Z.shiftr sub_id (7 * Z.of_nat n)) in
      if negb (code =? 0) || tail then
        let! c := cu_put (Z.lor code 0x80) c in
        enc_next c (fun c => enc_sub_id n' true sub_id c k)
      else enc_sub_id n' tail sub_id c k
  end.
Fixpoint enc_sub_ids (ident : list Z) (c : cursor) : res (err_t * list (list Z)) :=
  match ident with
  | [] => enc_done ERR_OK c
  | sub_id :: l =>
      enc_sub_id 4 false sub_id c (fun c =>
        let! c := cu_put (Z.land (u8 sub_id) 0x7f) c in
        match l with [] => enc_done ERR_OK c | _ => enc_next c (fun c => enc_sub_ids l c) end)
  end.
Definition oid_prefix (i0 i1 : Z) : Z := if (i0 =? 1) && (i1 =? 3) then 0x2b else u8 (i0 * 40 + i1).
Definition snmp_asn1_enc_oid (p : list (list Z)) (ofs : Z) (ident : list Z) : res (err_t * list (list Z)) :=
  enc_at p ofs (fun c =>
    match ident with
    | i0 :: i1 :: l =>
        let! c := cu_put (oid_prefix i0 i1) c in
        enc_next c (fun c => enc_sub_ids l c)
    | _ => enc_done ERR_ARG c
    end).
Fixpoint enc_raw_loop (raw : list Z) (c : cursor) : res (err_t * list (list Z)) :=
  match raw with
  | [] => enc_done ERR_OK c
  | [b] => let! c := cu_put b c in enc_done ERR_OK c
  | b :: raw' => let! c := cu_put b c in enc_next c (fun c => enc_raw_loop raw' c)
  end.
Definition snmp_asn1_enc_raw (p : list (list Z)) (ofs : Z) (raw : list Z) : res (err_t * list (list Z)) :=
  enc_at p ofs (fun c => enc_raw_loop raw c).

(** ** Decoding *)

(** [None] is ERR_ARG. *)
Definition dec_next {V} (c : cursor) (k : cursor -> res (option V)) : res (option V) :=
  match cu_next c with None => Ok None | Some c => k c end.
Definition dec_at {V} (p : list (list Z)) (ofs : Z) (k : cursor -> res (option V)) : res (option V) :=
  match seek_to ofs p with None => Ok None | Some c => k c end.
(** Upper bound of the steps a cursor can make. *)
Definition cu_left (c : cursor) : nat := (length (cu_post c) + length (concat (cu_rest c)) + length (cu_rest c))%nat.

Definition snmp_asn1_dec_type (p : list (list Z)) (ofs : Z) : res (option Z) :=
  dec_at p ofs (fun c => let! b := cu_get c in Ok (Some b)).
(** The indefinite form: the octets up to two zeros are counted. *)
Fixpoint dec_indefinite (fuel : nat) (length zeros : Z) (c : cursor) : res (option (Z * Z)) :=
  match fuel with
  | O => Err OutOfFuel
  | S fuel =>
      let length := u16 (length + 1) in
      dec_next c (fun c =>
        let! b := cu_get c in
        if b =? 0 then if zeros + 1 =? 2 then Ok (Some (1, length)) else dec_indefinite fuel length (zeros + 1) c
        else dec_indefinite fuel length 0 c)
  end.
(** The result is [octets_used] and [length]. *)
Definition snmp_asn1_dec_length (p : list (list Z)) (ofs : Z) : res (option (Z * Z)) :=
  dec_at p ofs (fun c =>
    let! b := cu_get c in
    if b <? 0x80 then Ok (Some (1, b))
    else if b =? 0x80 then dec_indefinite (S (cu_left c)) 0 0 c
    else if b =? 0x81 then dec_next c (fun c => let! b := cu_get c in Ok (Some (2, b)))
    else if b =? 0x82 then
      dec_next c (fun c =>
        let! hi := cu_get c in
        dec_next c (fun c => let! lo := cu_get c in Ok (Some (3, Z.lor (Z.shiftl hi 8) lo))))
    else Ok None).
(** The octets but the last: [len] is [S n]. *)
Fixpoint dec_octets (n : nat) (value : Z) (c : cursor) : res (option Z) :=
  let! b := cu_get c in
  match n with
  | O => Ok (Some (Z.lor value b))
  | S n => dec_next c (fun c => dec_octets n (u32 (Z.shiftl (Z.lor value b) 8)) c)
  end.
Definition snmp_asn1_dec_u32t (p : list (list Z)) (ofs len : Z) : res (option Z) :=
  dec_at p ofs (fun c =>
    if (0 <? len) && (len <? 6) then
      let! b := cu_get c in
      if has_flag b 0x80 then Ok None
      else if (1 <? len) && (b =? 0) then dec_next c (fun c => dec_octets (Z.to_nat (len - 2)) 0 c)
      else dec_octets (Z.to_nat (len - 1)) 0 c
    else Ok None).
(** [*lsb_ptr &= b] and [*lsb_ptr |= b] on the little-endian host. *)
Definition lsb_and (value b : Z) : Z := Z.lor (Z.land value (Z.lnot 0xff)) (Z.land (Z.land value 0xff) b).
Definition lsb_or (value b : Z) : Z := Z.lor value b.
Fixpoint dec_signed (n : nat) (sign : bool) (value : Z) (c : cursor) : res (option Z) :=
  let! b := cu_get c in
  match n with
  | O => Ok (Some (if sign then lsb_and value b else lsb_or value b))
  | S n =>
      let value := if sign then lsb_or (s32 (Z.shiftl (lsb_and value b) 8)) 255 else s32 (Z.shiftl (lsb_or value b) 8) in
      dec_next c (fun c => dec_signed n sign value c)
  end.
Definition snmp_asn1_dec_s32t (p : list (list Z)) (ofs len : Z) : res (option Z) :=
  dec_at p ofs (fun c =>
    if (0 <? len) && (len <? 5) then
      let! b := cu_get c in
      if has_flag b 0x80 then dec_signed (Z.to_nat (len - 1)) true (-1) c else dec_signed (Z.to_nat (len - 1)) false 0 c
    else Ok None).

Definition LWIP_SNMP_OBJ_ID_LEN : Z := 32.
(** struct snmp_obj_id: [len] and the array. *)
Record snmp_obj_id := mk_oid { oid_len : Z; oid_id : list Z }.
Definition oid_push (v : Z) (o : snmp_obj_id) : snmp_obj_id := mk_oid (oid_len o + 1) (<[Z.to_nat (oid_len o) := v]> (oid_id o)).
(** The element that is passed over without being written. *)
Definition oid_skip (o : snmp_obj_id) : snmp_obj_id := mk_oid (oid_len o + 1) (oid_id o).
(** The octets of a sub-identifier with the top bit set, but one that is the
    last of the field. *)
Fixpoint dec_sub_id (fuel : nat) (len sub_id : Z) (c : cursor) : res (option (Z * Z * cursor)) :=
  match fuel with
  | O => Err OutOfFuel
  | S fuel =>
      let! b := cu_get c in
      if has_flag b 0x80 && (1 <? len) then
        dec_next c (fun c => dec_sub_id fuel (len - 1) (s32 (Z.shiftl sub_id 7 + Z.land b 0x7f)) c)
      else Ok (Some (len, sub_id, c))
  end.
Fixpoint dec_sub_ids (fuel : nat) (len : Z) (o : snmp_obj_id) (c : cursor) : res (option snmp_obj_id) :=
  match fuel with
  | O => Err OutOfFuel
  | S fuel =>
      if (0 <? len) && (oid_len o <? LWIP_SNMP_OBJ_ID_LEN) then
        let! b := cu_get c in
        let! r :=
          if has_flag b 0x80 then
            let! r := dec_sub_id (S (cu_left c)) len 0 c in
            match r with
            | None => Ok None
            | Some (len, sub_id, c) =>
                let! b := cu_get c in
                if negb (has_flag b 0x80) && (0 <? len) then Ok (Some (len - 1, oid_push (s32 (Z.shiftl sub_id 7 + b)) o, c))
                else Ok (Some (len, oid_skip o, c))
            end
          else Ok (Some (len - 1, oid_push b o, c)) in
        match r with
        | None => Ok None
        | Some (len, o, c) =>
            if 0 <? len then dec_next c (fun c => dec_sub_ids fuel len o c) else dec_sub_ids fuel len o c
        end
      else Ok (if len =? 0 then Some o else None)
  end.
(** The first octet holds two sub-identifiers. *)
Definition oid_first (b : Z) : Z * Z :=
  if b =? 0x2b then (1, 3) else if b <? 40 then (0, b) else if b <? 80 then (1, b - 40) else (2, b - 80).
Definition snmp_asn1_dec_oid (p : list (list Z)) (ofs len : Z) (oid : snmp_obj_id) : res (option snmp_obj_id) :=
  dec_at p ofs (fun c =>
    if 0 <? len then
      let! b := cu_get c in
      let o := oid_push (oid_first b).2 (oid_push (oid_first b).1 (mk_oid 0 (oid_id oid))) in
      let len := len - 1 in
      if 0 <? len then dec_next c (fun c => dec_sub_ids 33 len o c) else dec_sub_ids 33 len o c
    else Ok (Some (mk_oid 0 (oid_id oid)))).
Fixpoint dec_raw_loop (n : nat) (c : cursor) : res (option (list Z)) :=
  let! b := cu_get c in
  match n with
  | O => Ok (Some [b])
  | S n => dec_next c (fun c => let! r := dec_raw_loop n c in Ok (cons b <$> r))
  end.
Definition snmp_asn1_dec_raw (p : list (list Z)) (ofs len raw_len : Z) : res (option (list Z)) :=
  if 0 <? len then
    dec_at p ofs (fun c => if len <=? raw_len then dec_raw_loop (Z.to_nat (len - 1)) c else Ok None)
  else Ok (Some []).

(** An object identifier whose last octet has the continuation bit is accepted:
    its element is never written, and the octet behind the field is taken for
    one more. *)
Example oid_reads_behind : snmp_asn1_dec_oid [[0x2b; 6; 0x81; 5; 4]] 0 3 (mk_oid 0 (repeat 77 32)) =
  Ok (Some (mk_oid 5 ([1; 3; 6; 77; 5] ++ repeat 77 27))).
Proof. reflexivity. Qed.
(** Five octets that do not begin with 0 lose their upper bits. *)
Example u32_overflows : snmp_asn1_dec_u32t [[1; 0; 0; 0; 7]] 0 5 = Ok (Some 7).
Proof. reflexivity. Qed.
(** Two elements alone need an octet more than they take: at the end of the
    chain the octet is written and ERR_ARG returned. *)
Example oid_zero_dot_zero : snmp_asn1_enc_oid_cnt [0; 0] = 1 /\
  snmp_asn1_enc_oid [[7]] 0 [0; 0] = Ok (ERR_ARG, [[0]]).
Proof. done. Qed.
(** An element of 2^31 or more is negative as an s32_t: one octet is counted,
    five are written. *)
Example oid_negative : snmp_asn1_dec_oid [[0x2b; 0x88; 0x80; 0x80; 0x80; 0]] 0 6 (mk_oid 0 (repeat 0 32)) =
    Ok (Some (mk_oid 3 ([1; 3; -2147483648] ++ repeat 0 29))) /\
  snmp_asn1_enc_oid_cnt [1; 3; -2147483648] = 2 /\
  snmp_asn1_enc_oid [repeat 0 8] 0 [1; 3; -2147483648] = Ok (ERR_OK, [[0x2b; 0xf8; 0x80; 0x80; 0x80; 0; 0; 0]]).
Proof. by vm_compute. Qed.
