(* ===== verification/Asn1Round.v ===== *)
(** * ASN.1: what is encoded is read back

    Over any cut of a message into pbufs an encoder writes the octets of its
    specification from the offset on and no others, and the decoder gives the
    value back. [writes] and [reads] compose along the octets. *)
From S2P Require Import Prelude Tcp Asn1.

Lemma leb_ext a b c d : (a <= b <-> c <= d) -> (a <=? b) = (c <=? d).
Proof. intros H. apply eq_bool_prop_intro. rewrite !Is_true_true, !Z.leb_le. done. Qed.

(** ** Cursors *)
Definition cu_fwd (c : cursor) : list Z := cu_post c ++ concat (cu_rest c).
Definition cu_back (c : cursor) : list Z := concat (cu_done c) ++ cu_pre c.
Definition cu_shape (c : cursor) : list nat := map length (cu_chain c).
(** The cursor points to an octet, and no pbuf behind it is empty. *)
Definition cu_ok (c : cursor) : Prop := cu_post c <> [] /\ Forall (fun b => b <> []) (cu_rest c).

Lemma cu_concat c : concat (cu_chain c) = cu_back c ++ cu_fwd c.
Proof. unfold cu_chain, cu_back, cu_fwd. rewrite concat_app. simpl. by rewrite <- !app_assoc. Qed.

Lemma cu_seek_spec ofs plen before p :
  Forall (fun b => b <> []) p -> 0 <= plen <= ofs -> plen + zlen (concat p) < 65536 ->
  if ofs <? plen + zlen (concat p) then
    exists c, cu_seek ofs plen before p = Some c /\ cu_ok c /\ cu_chain c = before ++ p /\
      cu_back c = concat before ++ take (Z.to_nat (ofs - plen)) (concat p)
  else cu_seek ofs plen before p = None.
Proof.
  revert plen before. induction p as [|b p IH]; intros plen before Hne Hofs Hsz; simpl.
  { change (zlen (@nil Z)) with 0. case_match eqn:E; [lia|done]. }
  apply Forall_cons in Hne as [Hb Hne]. simpl in Hsz. rewrite zlen_app in Hsz |- *.
  pose proof (zlen_nonneg b). pose proof (zlen_nonneg (concat p)). rewrite u16_id by lia.
  destruct (ofs <? plen + zlen b) eqn:E.
  - apply Z.ltb_lt in E. rewrite (proj2 (Z.ltb_lt _ _)) by lia.
    eexists. split; [done|]. unfold zlen in *. split_and!.
    + split; [|done]. simpl. intros Hd. apply (f_equal length) in Hd. rewrite length_drop in Hd. simpl in Hd. lia.
    + unfold cu_chain. simpl. by rewrite take_drop.
    + unfold cu_back. simpl. rewrite take_app_le by lia. done.
  - apply Z.ltb_ge in E. specialize (IH (plen + zlen b) (before ++ [b]) Hne ltac:(lia) ltac:(lia)).
    rewrite <- Z.add_assoc in IH. case_match eqn:E2; [|done].
    destruct IH as (c & -> & Hok & Hch & Hbk). exists c. split; [done|]. split; [done|].
    rewrite Hch, <- app_assoc. split; [done|]. rewrite Hbk, concat_app. simpl. rewrite app_nil_r, <- app_assoc.
    f_equal. unfold zlen in *. rewrite take_app_ge by lia. do 2 f_equal. lia.
Qed.

Lemma cu_next_spec c b r : cu_ok c -> cu_fwd c = b :: r ->
  match r with
  | [] => cu_next c = None
  | _ => exists c', cu_next c = Some c' /\ cu_ok c' /\ cu_fwd c' = r /\ cu_back c' = cu_back c ++ [b] /\ cu_chain c' = cu_chain c
  end.
Proof.
  intros [Hp Hr] Hf. destruct c as [d pre post rest]; cbn in *. unfold cu_fwd, cu_next in *. cbn in *.
  destruct post as [|b0 [|b1 post]]; [done| |].
  - injection Hf as <- <-. destruct rest as [|q rest]; [done|].
    apply Forall_cons in Hr as [Hq Hr]. cbn. destruct q as [|q0 q]; [done|]. cbn.
    eexists. split; [done|]. unfold cu_ok, cu_back, cu_chain. cbn. split_and!; try done.
    + by rewrite concat_app, app_nil_r, <- app_assoc; cbn; rewrite app_nil_r.
    + by rewrite <- app_assoc.
  - injection Hf as <- <-. cbn. eexists. split; [done|]. unfold cu_ok, cu_back, cu_chain. cbn.
    split_and!; try done; by rewrite <- app_assoc.
Qed.
Lemma cu_get_spec c b r : cu_ok c -> cu_fwd c = b :: r -> cu_get c = Ok b.
Proof. intros [Hp _] Hf. unfold cu_get, cu_fwd in *. destruct (cu_post c); [done|]. by injection Hf as ->. Qed.
Lemma cu_put_spec c b r v : cu_ok c -> cu_fwd c = b :: r ->
  exists c', cu_put v c = Ok c' /\ cu_ok c' /\ cu_fwd c' = v :: r /\ cu_back c' = cu_back c /\ cu_shape c' = cu_shape c.
Proof.
  intros [Hp Hr] Hf. unfold cu_put, cu_fwd in *. destruct c as [d pre post rest]; cbn in *.
  destruct post as [|b0 post]; [done|]. injection Hf as -> <-. eexists. split; [done|].
  unfold cu_ok, cu_shape, cu_chain. cbn. split_and!; try done. rewrite !map_app. cbn. by rewrite !length_app.
Qed.
Lemma cu_ok_fwd c : cu_ok c -> exists b r, cu_fwd c = b :: r.
Proof. intros [Hp _]. unfold cu_fwd. destruct (cu_post c); [done|]. simpl. eauto. Qed.

(** ** Writers

    [writes k bs]: from the cursor on, [k] writes [bs], or as much of it as
    there is room for and then returns ERR_ARG. *)
Definition written (bs : list Z) (bk fw : list Z) (sh : list nat) (r : res (err_t * list (list Z))) : Prop :=
  exists p', r = Ok (if zlen bs <=? zlen fw then ERR_OK else ERR_ARG, p') /\ map length p' = sh /\
    concat p' = bk ++ take (length fw) (bs ++ drop (length bs) fw).
Definition writes (k : cursor -> res (err_t * list (list Z))) (bs : list Z) : Prop :=
  forall c, cu_ok c -> written bs (cu_back c) (cu_fwd c) (cu_shape c) (k c).

Lemma writes_last b : writes (fun c => let! c := cu_put b c in enc_done ERR_OK c) [b].
Proof.
  intros c Hc. destruct (cu_ok_fwd c Hc) as (x & r & Hf).
  destruct (cu_put_spec c x r b Hc Hf) as (c' & -> & Hc' & Hf' & Hb & Hs). cbn. exists (cu_chain c').
  rewrite Hf. unfold enc_done. rewrite (proj2 (Z.leb_le _ _)) by (unfold zlen; simpl; lia).
  split; [done|]. split; [done|]. rewrite cu_concat, Hb, Hf'. cbn. rewrite drop_0. by rewrite firstn_all.
Qed.
Lemma writes_cons b k bs : bs <> [] -> writes k bs -> writes (fun c => let! c := cu_put b c in enc_next c k) (b :: bs).
Proof.
  intros Hne Hk c Hc. destruct (cu_ok_fwd c Hc) as (x & r & Hf).
  destruct (cu_put_spec c x r b Hc Hf) as (c' & -> & Hc' & Hf' & Hb & Hs). cbn. unfold enc_next.
  pose proof (cu_next_spec c' b r Hc' Hf') as Hn. rewrite Hf. destruct r as [|y r].
  - rewrite Hn. exists (cu_chain c'). unfold enc_done.
    rewrite (proj2 (Z.leb_gt _ _)) by (unfold zlen; destruct bs; simpl; [done|lia]).
    split; [done|]. split; [done|]. rewrite cu_concat, Hb, Hf'. done.
  - destruct Hn as (c2 & -> & Hc2 & Hf2 & Hb2 & Hch). destruct (Hk c2 Hc2) as (p' & -> & Hsh & Hcc).
    exists p'. rewrite Hf2 in Hcc |- *. unfold zlen in *. cbn [length].
    replace (Z.of_nat (S (length bs)) <=? Z.of_nat (S (S (length r)))) with (Z.of_nat (length bs) <=? Z.of_nat (S (length r))) by (apply leb_ext; lia).
    split; [done|]. split; [unfold cu_shape in *; congruence|]. rewrite Hcc, Hb2, Hb. cbn. by rewrite <- app_assoc.
Qed.

Lemma enc_at_writes p ofs k bs : Forall (fun b => b <> []) p -> 0 <= ofs -> zlen (concat p) < 65536 ->
  bs <> [] -> writes k bs ->
  if ofs + zlen bs <=? zlen (concat p) then
    exists p', enc_at p ofs k = Ok (ERR_OK, p') /\ map length p' = map length p /\
      concat p' = take (Z.to_nat ofs) (concat p) ++ bs ++ drop (Z.to_nat (ofs + zlen bs)) (concat p)
  else exists p', enc_at p ofs k = Ok (ERR_ARG, p') /\ map length p' = map length p.
Proof.
  intros Hne Hofs Hsz Hbs Hk. unfold enc_at, seek_to.
  pose proof (cu_seek_spec ofs 0 [] p Hne ltac:(lia) ltac:(lia)) as Hs. rewrite Z.add_0_l, Z.sub_0_r in Hs.
  assert (Hl : 1 <= zlen bs) by (unfold zlen; destruct bs; simpl; [done|lia]).
  destruct (ofs <? zlen (concat p)) eqn:E.
  - destruct Hs as (c & -> & Hc & Hch & Hbk). cbn in Hch, Hbk. apply Z.ltb_lt in E.
    pose proof (cu_concat c) as Hcat. rewrite Hch, Hbk in Hcat.
    assert (Hf : cu_fwd c = drop (Z.to_nat ofs) (concat p)).
    { rewrite <- (take_drop (Z.to_nat ofs) (concat p)) in Hcat at 1. by apply app_inv_head in Hcat. }
    destruct (Hk c Hc) as (p' & -> & Hsh & Hcc). unfold cu_shape in Hsh. rewrite Hch in Hsh.
    rewrite Hf in Hcc |- *. rewrite Hbk in Hcc. unfold zlen in *. rewrite length_drop in Hcc |- *.
    replace (Z.of_nat (length bs) <=? Z.of_nat (length (concat p) - Z.to_nat ofs)) with (ofs + Z.of_nat (length bs) <=? Z.of_nat (length (concat p))) by (apply leb_ext; lia).
    case_match eqn:E2; [|eauto]. exists p'. split; [done|]. split; [done|]. rewrite Hcc. f_equal.
    rewrite drop_drop, firstn_all2; [do 2 f_equal; lia|]. rewrite length_app, length_drop. lia.
  - rewrite Hs. rewrite (proj2 (Z.leb_gt _ _)) by lia. eauto.
Qed.

(** ** The octets of a value *)

(** [S n] octets, the most significant one first. *)
Fixpoint octets (n : nat) (value : Z) : list Z :=
  match n with O => [u8 value] | S n' => u8 (Z.shiftr value (Z.shiftl (Z.of_nat n) 3)) :: octets n' value end.
Definition length_octets (n : Z) : list Z :=
  if n <? 0x80 then [n] else if n <? 0x100 then [0x81; n] else [0x82; n / 256; n mod 256].
Definition u32_octets (v : Z) : list Z :=
  if v <? 0x80000000 then octets (Z.to_nat (snmp_asn1_enc_u32t_cnt v - 1)) v else 0 :: octets 3 v.
Definition s32_octets (v : Z) : list Z := octets (Z.to_nat (snmp_asn1_enc_s32t_cnt v - 1)) v.
(** The groups of seven bits of a sub-identifier but the last, from group [n] on. *)
Fixpoint groups (n : nat) (tail : bool) (v : Z) : list Z :=
  match n with
  | O => []
  | S n' => if negb (u8 (Z.shiftr v (7 * Z.of_nat n)) =? 0) || tail
            then Z.lor (u8 (Z.shiftr v (7 * Z.of_nat n))) 0x80 :: groups n' true v else groups n' tail v
  end.
Definition sub_octets (v : Z) : list Z := groups 4 false v ++ [Z.land (u8 v) 0x7f].
Definition oid_octets (i0 i1 : Z) (l : list Z) : list Z := oid_prefix i0 i1 :: concat (map sub_octets l).

Lemma octets_length n v : length (octets n v) = S n.
Proof. induction n as [|n IH]; simpl in *; lia. Qed.
Lemma octets_ne n v : octets n v <> [].
Proof. by destruct n. Qed.
Lemma enc_octets_writes n v : writes (enc_octets n v) (octets n v).
Proof. induction n as [|n IH]; [apply writes_last|]. apply (writes_cons _ _ _ (octets_ne n v) IH). Qed.
Lemma enc_sub_id_writes n tail v k bs : bs <> [] -> writes k bs ->
  writes (fun c => enc_sub_id n tail v c k) (groups n tail v ++ bs).
Proof.
  intros Hbs Hk. revert tail. induction n as [|n IH]; intros tail; [done|].
  cbn -[Z.shiftr Z.mul Z.of_nat]. case_match; [|apply IH].
  apply (writes_cons _ _ (groups n true v ++ bs)); [|apply IH]. by destruct (groups n true v).
Qed.
Lemma sub_octets_ne v l : sub_octets v ++ l <> [].
Proof. unfold sub_octets. by destruct (groups 4 false v). Qed.
Lemma enc_sub_ids_writes l : l <> [] -> writes (enc_sub_ids l) (concat (map sub_octets l)).
Proof.
  induction l as [|v l IH]; [done|]. intros _. cbn [map concat enc_sub_ids]. unfold sub_octets at 1.
  rewrite <- app_assoc. apply enc_sub_id_writes; [done|]. destruct l as [|w l]; [apply writes_last|].
  apply (writes_cons (Z.land (u8 v) 127) (enc_sub_ids (w :: l))); [|by apply IH].
  cbn [map concat]. apply sub_octets_ne.
Qed.
Lemma enc_raw_writes raw : raw <> [] -> writes (enc_raw_loop raw) raw.
Proof.
  induction raw as [|b raw IH]; [done|]. intros _. destruct raw as [|b' raw]; [apply writes_last|].
  apply (writes_cons b (enc_raw_loop (b' :: raw))); [done|]. by apply IH.
Qed.

(** ** Readers

    [reads k bs v]: from a cursor before [bs] on, [k] returns [v]. *)
Definition reads {V} (k : cursor -> res (option V)) (bs : list Z) (v : V) : Prop :=
  forall c r, cu_ok c -> cu_fwd c = bs ++ r -> k c = Ok (Some v).

Lemma dec_next_reads {V} (k : cursor -> res (option V)) b bs v : bs <> [] -> reads k bs v ->
  reads (fun c => dec_next c k) (b :: bs) v.
Proof.
  intros Hne Hk c r Hc Hf. destruct bs as [|b' bs]; [done|].
  destruct (cu_next_spec c b _ Hc Hf) as (c' & Hn & Hc' & Hf' & _). unfold dec_next. rewrite Hn. by apply (Hk c' r).
Qed.
Lemma cu_get_reads {V} (k : Z -> cursor -> res (option V)) b bs v : reads (k b) (b :: bs) v ->
  reads (fun c => let! b := cu_get c in k b c) (b :: bs) v.
Proof. intros Hk c r Hc Hf. rewrite (cu_get_spec c b _ Hc Hf). by apply (Hk c r). Qed.
Lemma dec_at_reads {V} p ofs n (k : cursor -> res (option V)) bs r v :
  Forall (fun b => b <> []) p -> 0 <= ofs -> zlen (concat p) < 65536 -> bs <> [] -> reads k bs v ->
  zlen n = ofs -> concat p = n ++ bs ++ r -> dec_at p ofs k = Ok (Some v).
Proof.
  intros Hne Hofs Hsz Hbs Hk Hn Hcat. unfold dec_at, seek_to.
  pose proof (cu_seek_spec ofs 0 [] p Hne ltac:(lia) ltac:(lia)) as Hs. rewrite Z.add_0_l, Z.sub_0_r in Hs.
  assert (Hl : ofs < zlen (concat p)).
  { rewrite Hcat, !zlen_app. pose proof (zlen_nonneg r). unfold zlen in *. destruct bs; simpl in *; [done|lia]. }
  rewrite (proj2 (Z.ltb_lt _ _) Hl) in Hs. destruct Hs as (c & -> & Hc & Hch & Hbk). apply (Hk c r Hc).
  cbn in Hch, Hbk. pose proof (cu_concat c) as Hcc. rewrite Hch, Hbk, Hcat in Hcc.
  rewrite take_app_le, firstn_all2 in Hcc by (unfold zlen in Hn; lia).
  by apply app_inv_head in Hcc.
Qed.

(** ** Integers read back *)
Lemma has_flag_80 b : 0 <= b < 256 -> has_flag b 0x80 = (128 <=? b).
Proof.
  intros Hb. unfold has_flag. change 0x80 with ((2 ^ 1 - 1) * 2 ^ 7). rewrite land_mask_shift by lia.
  apply eq_bool_prop_intro. rewrite !Is_true_true, negb_true_iff, Z.eqb_neq, Z.leb_le.
  change (2 ^ 7) with 128. change (2 ^ 1) with 2. Z.div_mod_to_equations; lia.
Qed.
Lemma lsb_or_eq h b : 0 <= b < 256 -> lsb_or (256 * h) b = 256 * h + b.
Proof. intros Hb. unfold lsb_or. rewrite (Z.mul_comm 256 h). by apply (lor_add 8). Qed.
Lemma lsb_and_eq h b : 0 <= b < 256 -> lsb_and (256 * h + 255) b = 256 * h + b.
Proof.
  intros Hb. unfold lsb_and. rewrite <- Z.ldiff_land, land_ff. replace (Z.ldiff (256 * h + 255) 255) with (Z.ldiff (256 * h + 255) (Z.ones 8)) by done. rewrite Z.ldiff_ones_r by done.
  rewrite (Z.shiftr_div_pow2 _ 8), (Z.shiftl_mul_pow2 _ 8) by done. change (2 ^ 8) with 256.
  replace ((256 * h + 255) / 256) with h by (Z.div_mod_to_equations; lia).
  replace ((256 * h + 255) mod 256) with 255 by (Z.div_mod_to_equations; lia).
  rewrite Z.land_comm, land_ff, Z.mod_small, (Z.mul_comm 256 h) by done. by apply (lor_add 8).
Qed.

Definition p256 (n : nat) : Z := 2 ^ (8 * Z.of_nat n).
Lemma p256_S n : p256 (S n) = 256 * p256 n.
Proof. unfold p256. rewrite Nat2Z.inj_succ, Z.mul_succ_r, Z.pow_add_r by lia. change (2 ^ 8) with 256. lia. Qed.
Lemma p256_pos n : 1 <= p256 n.
Proof. unfold p256. pose proof (Z.pow_pos_nonneg 2 (8 * Z.of_nat n)). lia. Qed.
Lemma octets_S n v : octets (S n) v = v / p256 (S n) mod 256 :: octets n v.
Proof.
  cbn [octets]. unfold u8, p256. rewrite Z.shiftl_mul_pow2, Z.shiftr_div_pow2 by lia. do 3 f_equal.
  change (2 ^ 3) with 8. f_equal. lia.
Qed.
Lemma mod_p256 h n v : (256 * h + v / p256 n mod 256) * p256 n + v mod p256 n = h * p256 (S n) + v mod p256 (S n).
Proof. pose proof (p256_pos n). rewrite p256_S, (Z.mul_comm 256 (p256 n)), Z.rem_mul_r by lia. lia. Qed.

Lemma dec_octets_reads n : forall h v, 0 <= h -> (h + 1) * p256 (S n) <= 4294967296 ->
  reads (dec_octets n (256 * h)) (octets n v) (h * p256 (S n) + v mod p256 (S n)).
Proof.
  induction n as [|n IH]; intros h v Hh Hb c r Hc Hf.
  - cbn in *. rewrite (cu_get_spec c _ _ Hc Hf). cbn. do 2 f_equal. fold (lsb_or (256 * h) (u8 v)).
    rewrite lsb_or_eq by apply u8_range. unfold u8. change (p256 1) with 256. lia.
  - rewrite octets_S in Hf. pose proof (p256_pos n). rewrite 2!p256_S in Hb.
    pose proof (Z.mod_pos_bound (v / p256 (S n)) 256 ltac:(lia)) as Hm. revert c r Hc Hf.
    refine (cu_get_reads (fun b c => dec_next c (fun c => dec_octets n (u32 (Z.shiftl (Z.lor (256 * h) b) 8)) c)) _ _ _ _).
    apply dec_next_reads; [apply octets_ne|].
    fold (lsb_or (256 * h) (v / p256 (S n) mod 256)). rewrite lsb_or_eq, shl8, u32_id by nia.
    rewrite (Z.mul_comm _ 256), <- mod_p256. generalize dependent (v / p256 (S n) mod 256). intros b Hm.
    apply IH; rewrite ?p256_S; nia.
Qed.
Lemma dec_signed_reads sign n : forall h v, (n <= 3)%nat -> -2147483648 <= h * p256 (S n) + v mod p256 (S n) < 2147483648 ->
  reads (dec_signed n sign (256 * h + (if sign : bool then 255 else 0))) (octets n v) (h * p256 (S n) + v mod p256 (S n)).
Proof.
  assert (Hlsb : forall h b, 0 <= b < 256 ->
    (if sign then lsb_and (256 * h + (if sign then 255 else 0)) b else lsb_or (256 * h + (if sign then 255 else 0)) b) = 256 * h + b).
  { intros h b Hb. destruct sign; [by apply lsb_and_eq|]. rewrite Z.add_0_r. by apply lsb_or_eq. }
  induction n as [|n IH]; intros h v Hn Hb c r Hc Hf.
  - cbn -[lsb_and lsb_or Z.mul] in *. rewrite (cu_get_spec c _ _ Hc Hf). cbn -[lsb_and lsb_or Z.mul]. do 2 f_equal.
    rewrite Hlsb by apply u8_range. unfold u8. change (p256 1) with 256. lia.
  - rewrite octets_S in Hf. rewrite <- mod_p256 in Hb |- *. pose proof (Z.mod_pos_bound v (p256 (S n)) ltac:(pose proof (p256_pos (S n)); lia)).
    pose proof (Z.mod_pos_bound (v / p256 (S n)) 256 ltac:(lia)) as Hm.
    set (b := v / p256 (S n) mod 256) in *. clearbody b.
    assert (Hx : -8388608 <= 256 * h + b < 8388608).
    { destruct n as [|[|[|n]]]; [| | |lia]; unfold p256 in *; simpl in *; lia. }
    assert (Hi :
      (if sign then lsb_or (s32 (Z.shiftl (lsb_and (256 * h + (if sign then 255 else 0)) b) 8)) 255
       else s32 (Z.shiftl (lsb_or (256 * h + (if sign then 255 else 0)) b) 8)) = 256 * (256 * h + b) + (if sign then 255 else 0)).
    { specialize (Hlsb h b Hm). destruct sign; rewrite Hlsb, shl8, s32_id by lia; [|lia].
      rewrite (Z.mul_comm _ 256). by apply lsb_or_eq. }
    revert c r Hc Hf. set (value := 256 * h + (if sign then 255 else 0)) in *.
    refine (cu_get_reads (fun b c => let value := if sign then lsb_or (s32 (Z.shiftl (lsb_and value b) 8)) 255 else s32 (Z.shiftl (lsb_or value b) 8) in
      dec_next c (fun c => dec_signed n sign value c)) _ _ _ _). cbv zeta. rewrite Hi.
    apply dec_next_reads; [apply octets_ne|]. apply IH; lia.
Qed.
Lemma octets_first n v : exists b l, octets n v = b :: l /\ b = v / p256 n mod 256.
Proof.
  destruct n as [|n]; [|rewrite octets_S; eauto]. exists (u8 v), []. split; [done|]. unfold u8, p256.
  by rewrite Z.mul_0_r, Z.pow_0_r, Z.div_1_r.
Qed.

(** The octets needed: [n] of them for a value of [8 n - 1] bits. *)
Lemma u32_cnt_spec v : 0 <= v < 0x80000000 -> exists n, snmp_asn1_enc_u32t_cnt v = Z.of_nat (S n) /\ (n <= 3)%nat /\ 2 * v < p256 (S n).
Proof.
  intros Hv. unfold snmp_asn1_enc_u32t_cnt.
  repeat (case_match; [match goal with H : (_ <? _) = true |- _ => apply Z.ltb_lt in H end|]); [exists 0%nat|exists 1%nat|exists 2%nat|exists 3%nat|lia];
    (split; [done|]; split; [lia|]; unfold p256; simpl; lia).
Qed.
Lemma s32_cnt_spec v : -2147483648 <= v < 2147483648 ->
  exists n, snmp_asn1_enc_s32t_cnt v = Z.of_nat (S n) /\ (n <= 3)%nat /\ - p256 (S n) <= 2 * v < p256 (S n).
Proof.
  intros Hv. unfold snmp_asn1_enc_s32t_cnt, Z.lnot, Z.pred. destruct (v <? 0) eqn:E;
  repeat (case_match; [match goal with H : (_ <? 128) = true |- _ => apply Z.ltb_lt in H; exists 0%nat
    | H : (_ <? 32768) = true |- _ => apply Z.ltb_lt in H; exists 1%nat | H : (_ <? 8388608) = true |- _ => apply Z.ltb_lt in H; exists 2%nat end;
    split; [done|]; split; [lia|]; unfold p256; simpl; lia|]); exists 3%nat; (split; [done|]; split; [lia|]; unfold p256; simpl; lia).
Qed.
Lemma dec_u32_reads v : is_u32 v -> reads (fun c => let len := snmp_asn1_enc_u32t_cnt v in
    if (0 <? len) && (len <? 6) then
      let! b := cu_get c in
      if has_flag b 0x80 then Ok None
      else if (1 <? len) && (b =? 0) then dec_next c (fun c => dec_octets (Z.to_nat (len - 2)) 0 c)
      else dec_octets (Z.to_nat (len - 1)) 0 c
    else Ok None) (u32_octets v) v.
Proof.
  intros Hv. cbv zeta. unfold u32_octets. destruct (v <? 0x80000000) eqn:E.
  - apply Z.ltb_lt in E. destruct (u32_cnt_spec v) as (n & -> & Hn & Hb); [unfold is_u32 in Hv; lia|].
    rewrite (proj2 (Z.ltb_lt 0 _)), (proj2 (Z.ltb_lt _ 6)) by lia. cbn [andb].
    replace (Z.to_nat (Z.of_nat (S n) - 1)) with n by lia. pose proof (p256_pos n). rewrite p256_S in Hb. unfold is_u32 in Hv.
    assert (Hd : 0 <= v / p256 n < 128) by (split; [apply Z.div_pos; lia|apply Z.div_lt_upper_bound; lia]).
    destruct (octets_first n v) as (b & l & Hl & Hbv). rewrite Z.mod_small in Hbv by lia. rewrite Hl.
    refine (cu_get_reads (fun b c => if has_flag b 0x80 then Ok None else if (1 <? Z.of_nat (S n)) && (b =? 0)
      then dec_next c (fun c => dec_octets (Z.to_nat (Z.of_nat (S n) - 2)) 0 c) else dec_octets n 0 c) b l v _).
    rewrite has_flag_80, (proj2 (Z.leb_gt _ _)) by lia. destruct ((1 <? Z.of_nat (S n)) && (b =? 0)) eqn:E2.
    + apply andb_true_iff in E2 as [H1%Z.ltb_lt H2%Z.eqb_eq]. destruct n as [|n]; [lia|]. rewrite octets_S in Hl.
      injection Hl as _ <-. replace (Z.to_nat (Z.of_nat (S (S n)) - 2)) with n by lia.
      apply dec_next_reads; [apply octets_ne|]. pose proof (p256_pos (S n)).
      pose proof (Z.div_mod v (p256 (S n)) ltac:(lia)). pose proof (dec_octets_reads n 0 v) as Hr.
      rewrite Z.mul_0_l, Z.add_0_l, Z.mul_1_l, Z.mul_0_r in Hr. replace v with (v mod p256 (S n)) at 2 by nia. apply Hr; [lia|].
      change 4294967296 with (p256 4). unfold p256. apply Z.pow_le_mono_r; lia.
    + rewrite <- Hl. pose proof (dec_octets_reads n 0 v) as Hr. rewrite Z.mul_0_l, Z.add_0_l, Z.mul_1_l, Z.mul_0_r in Hr.
      rewrite Z.mod_small in Hr by (rewrite p256_S; lia). apply Hr; [lia|].
      change 4294967296 with (p256 4). unfold p256. apply Z.pow_le_mono_r; lia.
  - unfold snmp_asn1_enc_u32t_cnt. apply Z.ltb_ge in E. rewrite !(proj2 (Z.ltb_ge v _)) by lia. cbn [Z.ltb Z.compare Pos.compare Pos.compare_cont andb].
    refine (cu_get_reads (fun b c => if has_flag b 0x80 then Ok None else if (b =? 0)
      then dec_next c (fun c => dec_octets 3 0 c) else dec_octets 4 0 c) 0 _ v _).
    cbn [has_flag Z.land Z.eqb negb]. apply dec_next_reads; [apply octets_ne|].
    pose proof (dec_octets_reads 3 0 v ltac:(lia) ltac:(vm_compute; done)) as Hr. rewrite Z.mul_0_r, Z.mul_0_l, Z.add_0_l, Z.mod_small in Hr; [done|].
    unfold p256, is_u32 in *. simpl. lia.
Qed.
Lemma dec_s32_reads v : -2147483648 <= v < 2147483648 -> reads (fun c => let len := snmp_asn1_enc_s32t_cnt v in
    if (0 <? len) && (len <? 5) then
      let! b := cu_get c in
      if has_flag b 0x80 then dec_signed (Z.to_nat (len - 1)) true (-1) c else dec_signed (Z.to_nat (len - 1)) false 0 c
    else Ok None) (s32_octets v) v.
Proof.
  intros Hv. cbv zeta. unfold s32_octets. destruct (s32_cnt_spec v Hv) as (n & -> & Hn & Hb).
  rewrite (proj2 (Z.ltb_lt 0 _)), (proj2 (Z.ltb_lt _ 5)) by lia. cbn [andb].
  replace (Z.to_nat (Z.of_nat (S n) - 1)) with n by lia. pose proof (p256_pos n).
  destruct (octets_first n v) as (b & l & Hl & Hbv). rewrite Hl.
  refine (cu_get_reads (fun b c => if has_flag b 0x80 then dec_signed n true (-1) c else dec_signed n false 0 c) b l v _).
  rewrite <- Hl. clear Hl. pose proof (Z.mod_pos_bound (v / p256 n) 256 ltac:(lia)). rewrite has_flag_80 by lia.
  assert (Hm : p256 (S n) <= 4294967296).
  { change 4294967296 with (p256 4). unfold p256. apply Z.pow_le_mono_r; lia. }
  pose proof (mod_p256 0 n v) as Hs. rewrite p256_S in Hb, Hm, Hs. rewrite <- Hbv in Hs.
  pose proof (Z.mod_pos_bound v (p256 n) ltac:(lia)).
  destruct (128 <=? b) eqn:E.
  - apply Z.leb_le in E. assert (v < 0). { destruct (Z_lt_ge_dec v 0); [done|]. rewrite (Z.mod_small v (256 * _)) in Hs by lia. nia. }
    assert (Hv2 : -1 * (256 * p256 n) + v mod (256 * p256 n) = v).
    { rewrite <- (Z.mod_unique v (256 * p256 n) (-1) (v + 256 * p256 n)) by lia. lia. }
    pose proof (dec_signed_reads true n (-1) v) as Hr. rewrite p256_S, Hv2 in Hr. by apply Hr.
  - apply Z.leb_gt in E. assert (0 <= v).
    { destruct (Z_lt_ge_dec v 0); [|lia]. exfalso.
      rewrite <- (Z.mod_unique v (256 * p256 n) (-1) (v + 256 * p256 n)) in Hs by lia. nia. }
    pose proof (dec_signed_reads false n 0 v) as Hr. rewrite p256_S, Z.mul_0_l, Z.add_0_l, Z.mod_small in Hr by lia. by apply Hr.
Qed.

(** ** Lengths and raw octets *)
Definition length_reader (c : cursor) : res (option (Z * Z)) :=
  let! b := cu_get c in
  if b <? 0x80 then Ok (Some (1, b))
  else if b =? 0x80 then dec_indefinite (S (cu_left c)) 0 0 c
  else if b =? 0x81 then dec_next c (fun c => let! b := cu_get c in Ok (Some (2, b)))
  else if b =? 0x82 then
    dec_next c (fun c =>
      let! hi := cu_get c in
      dec_next c (fun c => let! lo := cu_get c in Ok (Some (3, Z.lor (Z.shiftl hi 8) lo))))
  else Ok None.
Lemma ok_reads {V} bs (v : V) : reads (fun _ => Ok (Some v)) bs v.
Proof. by intros c r _ _. Qed.
Lemma dec_length_reads n : is_u16 n -> reads length_reader (length_octets n) (snmp_asn1_enc_length_cnt n, n).
Proof.
  intros Hn. unfold length_octets, snmp_asn1_enc_length_cnt, length_reader, is_u16 in *. destruct (n <? 0x80) eqn:E1.
  - apply (cu_get_reads (fun b c => if b <? 0x80 then Ok (Some (1, b)) else _)). rewrite E1. apply ok_reads.
  - destruct (n <? 0x100) eqn:E2.
    + intros c r Hc Hf. rewrite (cu_get_spec _ _ _ Hc Hf). cbn. revert c r Hc Hf. apply dec_next_reads; [done|].
      apply (cu_get_reads (fun b _ => Ok (Some (2, b)))). apply ok_reads.
    + intros c r Hc Hf. rewrite (cu_get_spec _ _ _ Hc Hf). cbn -[Z.shiftl Z.lor]. revert c r Hc Hf. apply dec_next_reads; [done|].
      apply (cu_get_reads (fun hi c => dec_next c (fun c => let! lo := cu_get c in Ok (Some (3, Z.lor (Z.shiftl hi 8) lo))))).
      apply dec_next_reads; [done|]. apply (cu_get_reads (fun lo _ => Ok (Some (3, Z.lor (Z.shiftl (n / 256) 8) lo)))).
      replace (Z.lor (Z.shiftl (n / 256) 8) (n mod 256)) with n; [apply ok_reads|].
      rewrite shl8. rewrite (lor_add 8) by (Z.div_mod_to_equations; lia). Z.div_mod_to_equations; lia.
Qed.
Lemma enc_length_writes n : is_u16 n -> writes (fun c =>
    if n <? 0x80 then let! c := cu_put (u8 n) c in enc_done ERR_OK c
    else if n <? 0x100 then
      let! c := cu_put 0x81 c in
      enc_next c (fun c => let! c := cu_put (u8 n) c in enc_done ERR_OK c)
    else
      let! c := cu_put 0x82 c in
      enc_next c (fun c =>
        let! c := cu_put (u8 (Z.shiftr n 8)) c in
        enc_next c (fun c => let! c := cu_put (u8 n) c in enc_done ERR_OK c))) (length_octets n).
Proof.
  intros Hn. unfold length_octets, is_u16 in *. destruct (n <? 0x80) eqn:E1.
  - apply Z.ltb_lt in E1. rewrite u8_id by lia. apply writes_last.
  - destruct (n <? 0x100) eqn:E2.
    + apply Z.ltb_lt in E2. rewrite u8_id by lia. apply (writes_cons 0x81 (fun c => let! c := cu_put n c in enc_done ERR_OK c)); [done|apply writes_last].
    + rewrite shr8, (u8_id (n / 256)) by mlia. fold (u8 n).
      apply (writes_cons 0x82 (fun c => let! c := cu_put (n / 256) c in enc_next c (fun c => let! c := cu_put (u8 n) c in enc_done ERR_OK c))); [done|].
      apply (writes_cons _ (fun c => let! c := cu_put (u8 n) c in enc_done ERR_OK c)); [done|apply writes_last].
Qed.
Lemma length_octets_cnt n : zlen (length_octets n) = snmp_asn1_enc_length_cnt n.
Proof. unfold length_octets, snmp_asn1_enc_length_cnt. by repeat case_match. Qed.
Lemma dec_raw_reads raw : raw <> [] -> reads (dec_raw_loop (length raw - 1)) raw raw.
Proof.
  induction raw as [|b raw IH]; [done|]. intros _. destruct raw as [|b' raw].
  - apply (cu_get_reads (fun b _ => Ok (Some [b]))). apply ok_reads.
  - replace (length (b :: b' :: raw) - 1)%nat with (S (length (b' :: raw) - 1)) by (simpl; lia).
    intros c r Hc Hf. cbn [dec_raw_loop]. rewrite (cu_get_spec _ _ _ Hc Hf). cbn [res_bind].
    revert c r Hc Hf. apply dec_next_reads; [done|]. intros c r Hc Hf. by rewrite (IH ltac:(done) c r Hc Hf).
Qed.

(** ** Object identifiers *)
Definition p128 (n : nat) : Z := 2 ^ (7 * Z.of_nat n).
Lemma p128_S n : p128 (S n) = 128 * p128 n.
Proof. unfold p128. rewrite Nat2Z.inj_succ, Z.mul_succ_r, Z.pow_add_r by lia. change (2 ^ 7) with 128. lia. Qed.
Lemma p128_pos n : 1 <= p128 n.
Proof. unfold p128. pose proof (Z.pow_pos_nonneg 2 (7 * Z.of_nat n)). lia. Qed.
Lemma shr_p128 v n : Z.shiftr v (7 * Z.of_nat n) = v / p128 n.
Proof. apply Z.shiftr_div_pow2. lia. Qed.
(** The octet of a group: its top bit set over the seven bits. *)
Lemma code_spec x : let g := Z.lor (u8 x) 0x80 in has_flag g 0x80 = true /\ Z.land g 0x7f = x mod 128 /\ 0 <= g < 256.
Proof.
  cbv zeta. assert (Hl : Z.land (Z.lor (u8 x) 128) 127 = x mod 128).
  { rewrite Z.land_lor_distr_l. change (Z.land 128 127) with 0. rewrite Z.lor_0_r.
    rewrite (land_mask 7) by lia. unfold u8. change (2 ^ 7) with 128. mlia. }
  split; [|split; [done|]].
  - rewrite has_flag_lor_l. change (has_flag 128 128) with true. by rewrite orb_true_r.
  - split; [apply Z.lor_nonneg; pose proof (u8_range x); lia|].
    change 256 with (2 ^ 8). destruct (Z.eq_dec (Z.lor (u8 x) 128) 0) as [->|Hz]; [lia|].
    apply Z.log2_lt_pow2; [pose proof (Z.lor_nonneg (u8 x) 128) as [_ Hn]; pose proof (u8_range x); specialize (Hn ltac:(lia)); lia|].
    rewrite Z.log2_lor by (pose proof (u8_range x); lia). apply Z.max_lub_lt; [|vm_compute; done].
    destruct (Z.eq_dec (u8 x) 0) as [->|Hu]; [vm_compute; done|]. apply Z.log2_lt_pow2; pose proof (u8_range x); lia.
Qed.
(** The groups start at the topmost one that is not zero. *)
Lemma groups_start n v : 0 <= v < p128 (S n) -> exists m, (m <= n)%nat /\ groups n false v = groups m true v /\
  v < p128 (S m) /\ (m = 0%nat \/ p128 m <= v).
Proof.
  induction n as [|n IH]; intros Hv; [exists 0%nat; split_and!; [lia|done|lia|by left]|].
  pose proof (p128_pos (S n)). pose proof (p128_S (S n)).
  destruct (v / p128 (S n) =? 0) eqn:E.
  - apply Z.eqb_eq in E. assert (v < p128 (S n)). { apply Z.div_small_iff in E; lia. }
    destruct (IH ltac:(lia)) as (m & Hm & Hg & Hb). exists m. split; [lia|]. split; [|done]. rewrite <- Hg.
    cbn -[Z.mul Z.of_nat]. by rewrite shr_p128, E.
  - apply Z.eqb_neq in E. exists (S n). split; [lia|]. split; [|split; [lia|right]].
    + cbn -[Z.mul Z.of_nat]. rewrite shr_p128, orb_true_r. rewrite orb_false_r, (proj2 (Z.eqb_neq _ _)); [done|].
      rewrite u8_id; [done|]. split; [apply Z.div_pos; lia|]. apply Z.div_lt_upper_bound; lia.
    + destruct (Z_lt_ge_dec v (p128 (S n))); [|lia]. rewrite Z.div_small in E by lia. done.
Qed.
Lemma groups_true_S n v : groups (S n) true v = Z.lor (u8 (v / p128 (S n))) 0x80 :: groups n true v.
Proof. cbn -[Z.mul Z.of_nat]. by rewrite shr_p128, orb_true_r. Qed.
Lemma groups_true_length n v : length (groups n true v) = n.
Proof. induction n as [|n IH]; [done|]. rewrite groups_true_S. simpl. by rewrite IH. Qed.
Lemma sub_id_cnt_spec m : forall fuel w, (m < fuel)%nat -> 0 <= w < p128 m -> (m = 0%nat \/ p128 m <= 128 * w) ->
  sub_id_cnt fuel w = Z.of_nat m.
Proof.
  induction m as [|m IH]; intros [|fuel] w Hf Hw Hl; try lia; cbn -[Z.shiftr].
  - rewrite (proj2 (Z.ltb_ge _ _)); [done|]. change (p128 0) with 1 in Hw. lia.
  - destruct Hl as [|Hl]; [done|]. rewrite p128_S in *. pose proof (p128_pos m).
    rewrite (proj2 (Z.ltb_lt _ _)) by lia. rewrite (Z.shiftr_div_pow2 w 7) by lia. change (2 ^ 7) with 128.
    rewrite (IH fuel (w / 128)); [lia|lia| |].
    + split; [apply Z.div_pos; lia|apply Z.div_lt_upper_bound; lia].
    + destruct m as [|m]; [by left|right]. rewrite p128_S in *. assert (p128 m <= w / 128) by (apply Z.div_le_lower_bound; lia). lia.
Qed.
Definition sub_id_ok (v : Z) : Prop := 0 <= v < 2147483648.
Lemma sub_octets_spec v : sub_id_ok v -> exists m, (m <= 4)%nat /\ sub_octets v = groups m true v ++ [v mod 128] /\
  v < p128 (S m) /\ sub_id_octets v = Z.of_nat (S m).
Proof.
  intros Hv. unfold sub_id_ok in Hv. destruct (groups_start 4 v) as (m & Hm & Hg & Hb & Hl); [change (p128 5) with 34359738368; lia|].
  exists m. split; [done|]. unfold sub_octets. rewrite Hg, (land_mask 7) by lia. unfold u8. split; [f_equal; f_equal; change (2 ^ 7) with 128; mlia|].
  split; [done|]. unfold sub_id_octets. rewrite (Z.shiftr_div_pow2 v 7) by lia. change (2 ^ 7) with 128.
  rewrite (sub_id_cnt_spec m); [lia|lia| |].
  - rewrite p128_S in Hb. split; [apply Z.div_pos; lia|apply Z.div_lt_upper_bound; lia].
  - destruct m as [|m]; [by left|right]. destruct Hl as [|Hl]; [done|]. rewrite p128_S in *.
    assert (p128 m <= v / 128) by (apply Z.div_le_lower_bound; lia). lia.
Qed.
Lemma oid_octets_cnt i0 i1 l : Forall sub_id_ok l -> zlen l <= 30 ->
  zlen (oid_octets i0 i1 l) = snmp_asn1_enc_oid_cnt (i0 :: i1 :: l) .
Proof.
  intros Hl Hn. unfold oid_octets, snmp_asn1_enc_oid_cnt. rewrite zlen_cons.
  cut (forall a, 0 <= a -> a + 5 * zlen l < 256 -> a + zlen (concat (map sub_octets l)) = fold_left (fun cnt i => u8 (cnt + sub_id_octets i)) l a).
  { intros H. apply H; lia. }
  clear Hn. induction Hl as [|v l Hv Hl IH]; intros a Ha Hb; cbn [map concat fold_left].
  - unfold zlen. simpl. lia.
  - destruct (sub_octets_spec v Hv) as (m & Hm & Hs & _ & Hc). rewrite zlen_cons in Hb. pose proof (zlen_nonneg l).
    rewrite Hc, u8_id by lia. rewrite <- IH by lia. rewrite zlen_app, Hs, zlen_app.
    unfold zlen at 1 2. rewrite groups_true_length. simpl. lia.
Qed.

Lemma cu_left_fwd c : (length (cu_fwd c) <= cu_left c)%nat.
Proof. unfold cu_fwd, cu_left. rewrite length_app. lia. Qed.
Lemma cu_next_ne c b r : cu_ok c -> cu_fwd c = b :: r -> r <> [] -> exists c', cu_next c = Some c' /\ cu_ok c' /\ cu_fwd c' = r.
Proof. intros Hc Hf Hr. pose proof (cu_next_spec c b r Hc Hf) as Hn. destruct r; [done|]. destruct Hn as (c' & ? & ? & ? & _). eauto. Qed.
Lemma dec_sub_id_spec v b r : 0 <= v < 2147483648 -> 0 <= b < 128 -> forall n fuel len c, (n < fuel)%nat -> Z.of_nat n < len ->
  cu_ok c -> cu_fwd c = groups n true v ++ b :: r ->
  exists c', dec_sub_id fuel len (v / p128 (S n)) c = Ok (Some (len - Z.of_nat n, v / 128, c')) /\ cu_ok c' /\ cu_fwd c' = b :: r.
Proof.
  intros Hv Hb. induction n as [|n IH]; intros [|fuel] len c Hf Hlen Hc Hfwd; try lia; cbn [dec_sub_id].
  - exists c. rewrite (cu_get_spec c b r Hc Hfwd). cbn -[has_flag]. rewrite has_flag_80, (proj2 (Z.leb_gt _ _)) by lia.
    rewrite Z.sub_0_r. done.
  - rewrite groups_true_S in Hfwd. rewrite (cu_get_spec c _ _ Hc Hfwd). cbn [res_bind]. destruct (code_spec (v / p128 (S n))) as (Hg & Hm & _).
    rewrite Hg, Hm, (proj2 (Z.ltb_lt _ _)) by lia. cbn [andb]. unfold dec_next.
    destruct (cu_next_ne c _ _ Hc Hfwd ltac:(by destruct (groups n true v))) as (c2 & -> & Hc2 & Hf2). rewrite (Z.shiftl_mul_pow2 _ 7) by lia. change (2 ^ 7) with 128.
    pose proof (p128_pos (S n)). rewrite (p128_S (S n)), (Z.mul_comm 128), <- Z.div_div by lia.
    replace (v / p128 (S n) / 128 * 128 + (v / p128 (S n)) mod 128) with (v / p128 (S n)) by (Z.div_mod_to_equations; lia).
    rewrite s32_id by (split; [pose proof (Z.div_pos v (p128 (S n))); lia|apply Z.div_lt_upper_bound; nia]).
    destruct (IH fuel (len - 1) c2) as (c' & -> & Hc' & Hf'); [lia|lia|done|done|].
    exists c'. split; [|done]. do 4 f_equal. lia.
Qed.
Definition oid_all (l : list Z) (o : snmp_obj_id) : snmp_obj_id := fold_left (fun o v => oid_push v o) l o.
Lemma dec_sub_ids_spec l : forall fuel len o c r, Forall sub_id_ok l -> (length l < fuel)%nat -> 0 <= oid_len o ->
  oid_len o + zlen l <= LWIP_SNMP_OBJ_ID_LEN ->
  len = zlen (concat (map sub_octets l)) -> (l <> [] -> cu_ok c /\ cu_fwd c = concat (map sub_octets l) ++ r) ->
  dec_sub_ids fuel len o c = Ok (Some (oid_all l o)).
Proof.
  induction l as [|v l IH]; intros [|fuel] len o c r Hl Hfuel Ho Hlen -> Hc; try (simpl in Hfuel; lia); [done|].
  apply Forall_cons in Hl as [Hv Hl]. destruct (Hc ltac:(done)) as [Hok Hf]. destruct (sub_octets_spec v Hv) as (m & Hm & Hs & Hb & _).
  cbn [map concat] in Hf |- *. rewrite zlen_app, Hs, zlen_app in *. rewrite zlen_cons in Hlen.
  pose proof (zlen_nonneg l). pose proof (zlen_nonneg (concat (map sub_octets l))) as Hzc.
  assert (Hz : zlen (groups m true v) = Z.of_nat m) by (unfold zlen; by rewrite groups_true_length). rewrite Hz.
  change (zlen [v mod 128]) with 1. cbn [dec_sub_ids]. rewrite (proj2 (Z.ltb_lt 0 _)), (proj2 (Z.ltb_lt (oid_len o) _)) by lia. cbn [andb].
  rewrite <- !app_assoc in Hf. cbn [app] in Hf. unfold sub_id_ok in Hv.
  assert (Hstep : forall c', cu_ok c' -> cu_fwd c' = v mod 128 :: concat (map sub_octets l) ++ r ->
    (if 0 <? zlen (concat (map sub_octets l)) then dec_next c' (fun c => dec_sub_ids fuel (zlen (concat (map sub_octets l))) (oid_push v o) c)
     else dec_sub_ids fuel (zlen (concat (map sub_octets l))) (oid_push v o) c') = Ok (Some (oid_all l (oid_push v o)))).
  { intros c' Hc' Hf'. simpl in Hfuel. assert (Hp : forall c2, (l <> [] -> cu_ok c2 /\ cu_fwd c2 = concat (map sub_octets l) ++ r) ->
      dec_sub_ids fuel (zlen (concat (map sub_octets l))) (oid_push v o) c2 = Ok (Some (oid_all l (oid_push v o)))).
    { intros c2 Hc2. apply (IH _ _ _ _ r); [done|lia|simpl; lia|simpl; lia|done|done]. }
    destruct l as [|w l]; [by apply Hp|]. case_match eqn:E.
    - unfold dec_next. destruct (cu_next_ne c' _ _ Hc' Hf') as (c2 & -> & Hc2 & Hf2); [|by apply Hp].
      cbn [map concat]. rewrite <- app_assoc. apply sub_octets_ne.
    - cbn [map concat] in E. apply Z.ltb_ge in E. unfold zlen in E. pose proof (sub_octets_ne w (concat (map sub_octets l))).
      destruct (sub_octets w ++ _); simpl in E; [done|lia]. }
  destruct m as [|m].
  - cbn [groups app] in Hf. rewrite (cu_get_spec c _ _ Hok Hf). cbn [res_bind]. rewrite p128_S in Hb. change (p128 0) with 1 in Hb.
    rewrite (Z.mod_small v 128) in * by lia. rewrite has_flag_80, (proj2 (Z.leb_gt _ _)) by lia. cbn [res_bind].
    replace (Z.of_nat 0 + 1 + _ - 1) with (zlen (concat (map sub_octets l))) by lia. by apply Hstep.
  - destruct (dec_sub_id_spec v (v mod 128) (concat (map sub_octets l) ++ r) Hv (Z.mod_pos_bound v 128 ltac:(lia)) (S m)
      (S (cu_left c)) (Z.of_nat (S m) + 1 + zlen (concat (map sub_octets l))) c) as (c' & Hd & Hc' & Hf'); [|lia|done|done|].
    { pose proof (cu_left_fwd c) as Hcl. rewrite Hf, length_app, groups_true_length in Hcl. lia. }
    rewrite groups_true_S in Hf. rewrite (cu_get_spec c _ _ Hok Hf). cbn [res_bind].
    destruct (code_spec (v / p128 (S m))) as (-> & _ & _). rewrite Z.div_small in Hd by lia. rewrite Hd. cbn [res_bind].
    rewrite (cu_get_spec c' _ _ Hc' Hf'). cbn [res_bind]. pose proof (Z.mod_pos_bound v 128 ltac:(lia)).
    rewrite has_flag_80, (proj2 (Z.leb_gt _ _)), (proj2 (Z.ltb_lt 0 _)) by lia. cbn [negb andb res_bind].
    rewrite (Z.shiftl_mul_pow2 _ 7) by lia. change (2 ^ 7) with 128.
    replace (v / 128 * 128 + v mod 128) with v by (Z.div_mod_to_equations; lia). rewrite s32_id by lia.
    replace (Z.of_nat (S m) + 1 + _ - _ - 1) with (zlen (concat (map sub_octets l))) by lia. by apply Hstep.
Qed.
Lemma oid_all_spec l : forall pre suf, (length l <= length suf)%nat ->
  oid_all l (mk_oid (zlen pre) (pre ++ suf)) = mk_oid (zlen pre + zlen l) (pre ++ l ++ drop (length l) suf).
Proof.
  induction l as [|v l IH]; intros pre suf Hs; cbn [oid_all fold_left].
  - change (zlen (@nil Z)) with 0. by rewrite Z.add_0_r.
  - destruct suf as [|x suf]; simpl in Hs; [lia|]. unfold oid_push at 2. cbn [oid_len oid_id].
    replace (<[Z.to_nat (zlen pre):=v]> (pre ++ x :: suf)) with ((pre ++ [v]) ++ suf)
      by (unfold zlen; rewrite Nat2Z.id, insert_app_r_alt, Nat.sub_diag by lia; by rewrite <- app_assoc).
    replace (zlen pre + 1) with (zlen (pre ++ [v])) by (rewrite zlen_app; done).
    etransitivity; [apply IH; lia|]. rewrite zlen_app, <- app_assoc. cbn. f_equal. rewrite !zlen_cons. change (zlen (@nil Z)) with 0. lia.
Qed.

(** The first two elements fit one octet. *)
Definition prefix_ok (i0 i1 : Z) : Prop := (i0 = 0 \/ i0 = 1) /\ 0 <= i1 < 40 \/ i0 = 2 /\ 0 <= i1 < 176.
Lemma oid_first_prefix i0 i1 : prefix_ok i0 i1 -> oid_first (oid_prefix i0 i1) = (i0, i1).
Proof.
  intros H. unfold oid_prefix, oid_first. destruct ((i0 =? 1) && (i1 =? 3)) eqn:E.
  { apply andb_true_iff in E as [->%Z.eqb_eq ->%Z.eqb_eq]. done. }
  apply andb_false_iff in E. rewrite !Z.eqb_neq in E. rewrite u8_id by (destruct H as [[[-> | ->] ?]|[-> ?]]; lia).
  destruct H as [[[-> | ->] H]|[-> H]]; repeat case_match; rewrite ?Z.eqb_eq, ?Z.eqb_neq, ?Z.ltb_lt, ?Z.ltb_ge in *; f_equal; lia.
Qed.
Definition oid_reader (len : Z) (ids : list Z) (c : cursor) : res (option snmp_obj_id) :=
  if 0 <? len then
    let! b := cu_get c in
    let o := oid_push (oid_first b).2 (oid_push (oid_first b).1 (mk_oid 0 ids)) in
    let len := len - 1 in
    if 0 <? len then dec_next c (fun c => dec_sub_ids 33 len o c) else dec_sub_ids 33 len o c
  else Ok (Some (mk_oid 0 ids)).
Lemma dec_oid_reads i0 i1 l ids : prefix_ok i0 i1 -> Forall sub_id_ok l -> l <> [] -> zlen l <= 30 -> length ids = 32%nat ->
  reads (oid_reader (zlen (oid_octets i0 i1 l)) ids) (oid_octets i0 i1 l)
    (mk_oid (2 + zlen l) (i0 :: i1 :: l ++ drop (2 + length l) ids)).
Proof.
  intros Hp Hl Hne Hn Hids c r Hc Hf. unfold oid_octets in *. unfold oid_reader. rewrite zlen_cons.
  pose proof (zlen_nonneg (concat (map sub_octets l))). rewrite (proj2 (Z.ltb_lt 0 _)) by lia.
  rewrite (cu_get_spec c _ _ Hc Hf). cbn [res_bind]. rewrite (oid_first_prefix _ _ Hp). cbn [fst snd].
  assert (Hcc : concat (map sub_octets l) <> []). { destruct l; [done|]. cbn. apply sub_octets_ne. }
  rewrite (proj2 (Z.ltb_lt 0 _)) by (destruct (concat (map sub_octets l)); [done|rewrite zlen_cons; pose proof (zlen_nonneg l0); lia]).
  unfold dec_next. destruct (cu_next_ne c _ _ Hc Hf) as (c2 & -> & Hc2 & Hf2); [by destruct (concat (map sub_octets l))|].
  unfold zlen in Hn. rewrite (dec_sub_ids_spec l 33 _ _ c2 r); [|done|lia|simpl; lia|unfold LWIP_SNMP_OBJ_ID_LEN, zlen; simpl; lia|lia|done].
  do 2 f_equal. destruct ids as [|x0 [|x1 ids]]; [done|done|]. simpl in Hids.
  change (oid_all l (mk_oid (zlen [i0; i1]) ([i0; i1] ++ ids)) = mk_oid (2 + zlen l) ([i0; i1] ++ l ++ drop (length l) ids)).
  rewrite oid_all_spec by lia. done.
Qed.

(** ** The round trip *)

(** [enc] writes [n] octets at [ofs] of the chain [p] and changes no others, so
    that [dec] returns [v], when they fit; otherwise it returns ERR_ARG. *)
Definition roundtrips {V} (p : list (list Z)) (ofs n : Z) (enc : res (err_t * list (list Z)))
    (dec : list (list Z) -> res (option V)) (v : V) : Prop :=
  if ofs + n <=? zlen (concat p) then
    exists p', enc = Ok (ERR_OK, p') /\ map length p' = map length p /\
      take (Z.to_nat ofs) (concat p') = take (Z.to_nat ofs) (concat p) /\
      drop (Z.to_nat (ofs + n)) (concat p') = drop (Z.to_nat (ofs + n)) (concat p) /\
      dec p' = Ok (Some v)
  else exists p', enc = Ok (ERR_ARG, p') /\ map length p' = map length p.

Lemma length_concat_map {A} (p p' : list (list A)) : map length p' = map length p -> length (concat p') = length (concat p).
Proof. revert p'. induction p as [|b p IH]; intros [|b' p'] H; try done. simpl in *. injection H as Hb H. rewrite !length_app, (IH p'); auto. Qed.
Lemma nonempty_shape {A} (p p' : list (list A)) : map length p' = map length p -> Forall (fun b => b <> []) p -> Forall (fun b => b <> []) p'.
Proof.
  revert p'. induction p as [|b p IH]; intros [|b' p'] H Hp; try done. simpl in H. injection H as Hb H.
  apply Forall_cons in Hp as [Hne Hp]. constructor; [|by apply IH]. by destruct b, b'.
Qed.
Lemma roundtrips_intro {V} p ofs n k (rk : cursor -> res (option V)) bs v :
  Forall (fun b => b <> []) p -> 0 <= ofs -> zlen (concat p) < 65536 -> bs <> [] -> zlen bs = n ->
  writes k bs -> reads rk bs v -> roundtrips p ofs n (enc_at p ofs k) (fun p' => dec_at p' ofs rk) v.
Proof.
  intros Hp Hofs Hsz Hne <- Hw Hr. unfold roundtrips. pose proof (enc_at_writes p ofs k bs Hp Hofs Hsz Hne Hw) as H.
  destruct (ofs + zlen bs <=? zlen (concat p)) eqn:E; [|done]. apply Z.leb_le in E. destruct H as (p' & He & Hsh & Hc).
  exists p'. split; [done|]. split; [done|].
  assert (Hl : length (take (Z.to_nat ofs) (concat p)) = Z.to_nat ofs) by (rewrite length_take; unfold zlen in *; lia).
  rewrite Hc. split; [by rewrite take_app_length' |]. split.
  - rewrite app_assoc, drop_app_length'; [done|]. rewrite length_app, Hl. unfold zlen in *. lia.
  - pose proof (length_concat_map p p' Hsh). eapply dec_at_reads; [by eapply nonempty_shape|done|unfold zlen in *; lia|done|exact Hr| |exact Hc].
    unfold zlen in *. lia.
Qed.

(** C29. The ASN.1 encoders and decoders of SNMP agree over every cut of the
    message into non-empty pbufs. A length, an unsigned or signed 32-bit
    integer, an object identifier of 3 to 32 elements with a valid prefix and
    no negative element, and raw octets: when the octets that the [_cnt]
    functions promise fit behind the offset, the encoder returns ERR_OK,
    writes exactly them, changes no other octet and no pbuf length, and the
    decoder reads the value back (the length with its octet count; the
    identifier into the first elements of the array, the others kept);
    otherwise the encoder returns ERR_ARG. For elements of 2^31 or more, and for an
    identifier that is its prefix alone, it is not so: [oid_negative],
    [oid_zero_dot_zero]. *)
Theorem asn1_roundtrip (p : list (list Z)) (ofs : Z) : Forall (fun b => b <> []) p -> 0 <= ofs -> zlen (concat p) < 65536 ->
  (forall n, is_u16 n -> roundtrips p ofs (snmp_asn1_enc_length_cnt n)
     (snmp_asn1_enc_length p ofs n) (fun p => snmp_asn1_dec_length p ofs) (snmp_asn1_enc_length_cnt n, n)) /\
  (forall v, is_u32 v -> let n := snmp_asn1_enc_u32t_cnt v in
     roundtrips p ofs n (snmp_asn1_enc_u32t p ofs n v) (fun p => snmp_asn1_dec_u32t p ofs n) v) /\
  (forall v, -2147483648 <= v < 2147483648 -> let n := snmp_asn1_enc_s32t_cnt v in
     roundtrips p ofs n (snmp_asn1_enc_s32t p ofs n v) (fun p => snmp_asn1_dec_s32t p ofs n) v) /\
  (forall i0 i1 l o, prefix_ok i0 i1 -> Forall sub_id_ok l -> 1 <= zlen l <= 30 -> length (oid_id o) = 32%nat ->
     let n := snmp_asn1_enc_oid_cnt (i0 :: i1 :: l) in
     roundtrips p ofs n (snmp_asn1_enc_oid p ofs (i0 :: i1 :: l)) (fun p => snmp_asn1_dec_oid p ofs n o)
       (mk_oid (2 + zlen l) (i0 :: i1 :: l ++ drop (2 + length l) (oid_id o)))) /\
  (forall raw max, raw <> [] -> zlen raw <= max ->
     roundtrips p ofs (zlen raw) (snmp_asn1_enc_raw p ofs raw) (fun p => snmp_asn1_dec_raw p ofs (zlen raw) max) raw).
Proof.
  intros Hp Hofs Hsz. split_and!.
  - intros n Hn. apply (roundtrips_intro p ofs _ _ _ (length_octets n)); [done..| | |by apply enc_length_writes|by apply dec_length_reads].
    + unfold length_octets. by repeat case_match.
    + apply length_octets_cnt.
  - intros v Hv. cbv zeta. assert (Hw : writes (fun c => if snmp_asn1_enc_u32t_cnt v =? 5 then let! c := cu_put 0 c in enc_next c (fun c => enc_octets 3 v c)
        else enc_octets (Z.to_nat (snmp_asn1_enc_u32t_cnt v - 1)) v c) (u32_octets v) /\ zlen (u32_octets v) = snmp_asn1_enc_u32t_cnt v).
    { unfold u32_octets. destruct (v <? 0x80000000) eqn:E.
      - apply Z.ltb_lt in E. destruct (u32_cnt_spec v) as (n & -> & Hn & _); [unfold is_u32 in Hv; lia|].
        rewrite (proj2 (Z.eqb_neq _ _)) by lia. split; [apply enc_octets_writes|]. unfold zlen. rewrite octets_length. lia.
      - apply Z.ltb_ge in E. unfold snmp_asn1_enc_u32t_cnt. rewrite !(proj2 (Z.ltb_ge v _)) by lia. cbn [Z.eqb Pos.eqb].
        split; [|done]. apply (writes_cons 0 (fun c => enc_octets 3 v c)); [apply octets_ne|apply enc_octets_writes]. }
    destruct Hw as [Hw Hl]. apply (roundtrips_intro p ofs _ _ _ (u32_octets v)); [done..| |done|done|by apply dec_u32_reads].
    unfold u32_octets. destruct (v <? _); [apply octets_ne|done].
  - intros v Hv. cbv zeta. apply (roundtrips_intro p ofs _ _ _ (s32_octets v)); [done..|apply octets_ne| |apply enc_octets_writes|by apply dec_s32_reads].
    destruct (s32_cnt_spec v Hv) as (n & Hc & _). unfold s32_octets, zlen. rewrite octets_length, Hc. lia.
  - intros i0 i1 l o Hpre Hl Hn Ho. cbv zeta. rewrite <- oid_octets_cnt by (done || lia).
    assert (Hne : l <> []) by (intros ->; unfold zlen in Hn; simpl in Hn; lia).
    apply (roundtrips_intro p ofs _ _ (oid_reader (zlen (oid_octets i0 i1 l)) (oid_id o)) (oid_octets i0 i1 l)); [done..| |apply dec_oid_reads; (done || lia)].
    apply (writes_cons (oid_prefix i0 i1) (fun c => enc_sub_ids l c)); [|by apply enc_sub_ids_writes].
    destruct l; [done|]. cbn. apply sub_octets_ne.
  - intros raw max Hraw Hmax.
    assert (Hr : reads (fun c => if zlen raw <=? max then dec_raw_loop (Z.to_nat (zlen raw - 1)) c else Ok None) raw raw).
    { rewrite (proj2 (Z.leb_le _ _)) by done. unfold zlen. replace (Z.to_nat (Z.of_nat (length raw) - 1)) with (length raw - 1)%nat by lia.
      by apply dec_raw_reads. }
    pose proof (roundtrips_intro p ofs (zlen raw) _ _ raw raw Hp Hofs Hsz Hraw eq_refl (enc_raw_writes raw Hraw) Hr) as H.
    unfold snmp_asn1_dec_raw, snmp_asn1_enc_raw. rewrite (proj2 (Z.ltb_lt 0 _)); [done|]. unfold zlen. destruct raw; [done|simpl; lia].
Qed.
(** An identifier over two pbufs. *)
Lemma asn1_roundtrip_witness : roundtrips [repeat 0 3; repeat 0 8] 1 (snmp_asn1_enc_oid_cnt [1; 3; 6; 1; 300])
  (snmp_asn1_enc_oid [repeat 0 3; repeat 0 8] 1 [1; 3; 6; 1; 300]) (fun p => snmp_asn1_dec_oid p 1 (snmp_asn1_enc_oid_cnt [1; 3; 6; 1; 300]) (mk_oid 9 (repeat 7 32)))
  (mk_oid 5 ([1; 3; 6; 1; 300] ++ repeat 7 27)).
Proof.
  refine (proj1 (proj2 (proj2 (proj2 (asn1_roundtrip [repeat 0 3; repeat 0 8] 1 _ _ _)))) 1 3 [6; 1; 300] (mk_oid 9 (repeat 7 32)) _ _ _ _).
  - by repeat constructor.
  - lia.
  - vm_compute. done.
  - left. split; [by right|lia].
  - repeat constructor; unfold sub_id_ok; lia.
  - vm_compute. done.
  - done.
Defined.
