(* ===== verification/Asn1Safe.v ===== *)
(** * ASN.1: every decoder returns

    No decoder leaves the chain of pbufs or loops, whatever the octets are. *)
From S2P Require Import Prelude Tcp Asn1 Asn1Round.

Definition returns {V} (P : V -> Prop) (k : cursor -> res (option V)) : Prop :=
  forall c, cu_ok c -> exists r, k c = Ok r /\ from_option P True r.

Lemma returns_none {V} (P : V -> Prop) : returns P (fun _ => Ok None).
Proof. intros c _. by exists None. Qed.
Lemma returns_some {V} (P : V -> Prop) v : P v -> returns P (fun _ => Ok (Some v)).
Proof. intros Hv c _. by exists (Some v). Qed.
Lemma returns_get {V} (P : V -> Prop) (k : Z -> cursor -> res (option V)) : (forall b, returns P (k b)) ->
  returns P (fun c => let! b := cu_get c in k b c).
Proof. intros Hk c Hc. destruct (cu_ok_fwd c Hc) as (b & r & Hf). rewrite (cu_get_spec c b r Hc Hf). by apply Hk. Qed.
(** A step brings the cursor closer to the end. *)
Lemma dec_next_spec {V} (P : V -> Prop) c k : cu_ok c ->
  (forall c', cu_ok c' -> (length (cu_fwd c') < length (cu_fwd c))%nat -> exists r, k c' = Ok r /\ from_option P True r) ->
  exists r, dec_next c k = Ok r /\ from_option P True r.
Proof.
  intros Hc Hk. destruct (cu_ok_fwd c Hc) as (b & r & Hf). unfold dec_next. pose proof (cu_next_spec c b r Hc Hf) as Hn.
  destruct r as [|b' r]; [rewrite Hn; by exists None|]. destruct Hn as (c' & -> & Hc' & Hf' & _). apply Hk; [done|].
  rewrite Hf, Hf'. simpl. lia.
Qed.
Lemma returns_next {V} (P : V -> Prop) k : returns P k -> returns P (fun c => dec_next c k).
Proof. intros Hk c Hc. apply dec_next_spec; [done|]. intros c' Hc' _. by apply Hk. Qed.
Lemma returns_if {V} (P : V -> Prop) (b : bool) k1 k2 : returns P k1 -> returns P k2 -> returns P (fun c => if b then k1 c else k2 c).
Proof. by destruct b. Qed.
Lemma returns_at {V} (P : V -> Prop) p ofs k : Forall (fun b => b <> []) p -> 0 <= ofs -> zlen (concat p) < 65536 -> returns P k ->
  exists r, dec_at p ofs k = Ok r /\ from_option P True r.
Proof.
  intros Hp Hofs Hsz Hk. unfold dec_at, seek_to. pose proof (cu_seek_spec ofs 0 [] p Hp ltac:(lia) ltac:(lia)) as Hs.
  case_match; [destruct Hs as (c & -> & Hc & _); by apply Hk|rewrite Hs; by exists None].
Qed.
Ltac returns := repeat first [apply returns_none | apply returns_if | apply returns_next | apply returns_get; intros ?].

Lemma dec_indefinite_returns fuel : forall length zeros c, cu_ok c -> (Datatypes.length (cu_fwd c) < fuel)%nat ->
  exists r, dec_indefinite fuel length zeros c = Ok r /\ from_option (fun _ => True) True r.
Proof.
  induction fuel as [|fuel IH]; intros n zeros c Hc Hf; [lia|]. cbn [dec_indefinite]. apply dec_next_spec; [done|].
  intros c' Hc' Hl. destruct (cu_ok_fwd c' Hc') as (b & r & Hf'). rewrite (cu_get_spec c' b r Hc' Hf'). cbn [res_bind].
  repeat case_match; [eexists; by split| |]; apply IH; try done; lia.
Qed.
Lemma dec_octets_returns n : forall value, returns (fun _ => True) (dec_octets n value).
Proof.
  induction n as [|n IH]; intros value; cbn [dec_octets]; [apply returns_get; intros b; by apply returns_some|].
  apply (returns_get _ (fun b c => dec_next c (fun c => dec_octets n _ c))). intros b. returns. apply IH.
Qed.
Lemma dec_signed_returns n sign : forall value, returns (fun _ => True) (dec_signed n sign value).
Proof.
  induction n as [|n IH]; intros value; cbn [dec_signed]; [apply returns_get; intros b; by apply returns_some|].
  apply (returns_get _ (fun b c => let value := _ in dec_next c (fun c => dec_signed n sign value c))). intros b. cbv zeta. returns. apply IH.
Qed.
Lemma dec_raw_returns n : returns (fun raw => length raw = S n) (dec_raw_loop n).
Proof.
  induction n as [|n IH]; cbn [dec_raw_loop]; [apply returns_get; intros b; by apply returns_some|].
  apply (returns_get _ (fun b c => dec_next c (fun c => let! r := dec_raw_loop n c in Ok (cons b <$> r)))). intros b. returns.
  intros c Hc. destruct (IH c Hc) as (r & -> & Hr). cbn. destruct r as [raw|]; cbn in *; eexists; (split; [done|]); simpl; auto.
Qed.
Lemma dec_sub_id_returns fuel : forall len sub_id c, cu_ok c -> (length (cu_fwd c) < fuel)%nat ->
  exists r, dec_sub_id fuel len sub_id c = Ok r /\ from_option (fun x => cu_ok x.2) True r.
Proof.
  induction fuel as [|fuel IH]; intros len sub_id c Hc Hf; [lia|]. cbn [dec_sub_id].
  destruct (cu_ok_fwd c Hc) as (b & r & Hf'). rewrite (cu_get_spec c b r Hc Hf'). cbn [res_bind].
  case_match; [|eexists; by split]. apply dec_next_spec; [done|]. intros c' Hc' Hl. apply IH; [done|lia].
Qed.
Definition oid_fits (o : snmp_obj_id) : Prop := 0 <= oid_len o <= LWIP_SNMP_OBJ_ID_LEN /\ length (oid_id o) = 32%nat.
Lemma dec_sub_ids_returns fuel : forall len o, oid_fits o -> LWIP_SNMP_OBJ_ID_LEN - oid_len o < Z.of_nat fuel ->
  returns oid_fits (dec_sub_ids fuel len o).
Proof.
  induction fuel as [|fuel IH]; intros len o Ho Hf c Hc; [unfold oid_fits in Ho; lia|]. cbn [dec_sub_ids].
  destruct ((0 <? len) && (oid_len o <? LWIP_SNMP_OBJ_ID_LEN)) eqn:E; [|case_match; eexists; by split].
  apply andb_true_iff in E as [_ E%Z.ltb_lt].
  assert (Hpush : forall v, oid_fits (oid_push v o) /\ oid_len (oid_push v o) = oid_len o + 1).
  { intros v. destruct Ho. unfold oid_fits, oid_push. cbn. rewrite length_insert. lia. }
  assert (Hskip : oid_fits (oid_skip o) /\ oid_len (oid_skip o) = oid_len o + 1).
  { destruct Ho. unfold oid_fits, oid_skip. cbn. lia. }
  assert (Hk : forall len o' c', cu_ok c' -> oid_fits o' /\ oid_len o' = oid_len o + 1 -> exists r,
     (if 0 <? len then dec_next c' (fun c => dec_sub_ids fuel len o' c) else dec_sub_ids fuel len o' c') = Ok r /\ from_option oid_fits True r).
  { intros len' o' c' Hc' [Ho' Hl']. case_match; [apply dec_next_spec; [done|]; intros c2 Hc2 _|]; apply IH; try done; lia. }
  destruct (cu_ok_fwd c Hc) as (b & r & Hf'). rewrite (cu_get_spec c b r Hc Hf'). cbn [res_bind].
  destruct (has_flag b 0x80); [|by apply Hk].
  destruct (dec_sub_id_returns (S (cu_left c)) len 0 c Hc) as (x & -> & Hx); [pose proof (cu_left_fwd c); lia|]. cbn [res_bind].
  destruct x as [[[len' sub_id] c']|]; cbn in *; [|by exists None].
  destruct (cu_ok_fwd c' Hx) as (b' & r' & Hf2). rewrite (cu_get_spec c' b' r' Hx Hf2). cbn [res_bind].
  case_match; by apply Hk.
Qed.

(** C28. The decoders of SNMP return on every message: for any octets cut into
    non-empty pbufs, any offset and any length field, none of them reads
    outside the chain and none of their loops runs on (the indefinite length
    form, the continuation octets of a sub-identifier, the elements of an
    object identifier). An identifier that is accepted has at most the 32
    elements of its array, and raw octets that are accepted fit the caller's
    buffer. *)
Theorem asn1_decoders_return (p : list (list Z)) (ofs len max : Z) (o : snmp_obj_id) :
  Forall (fun b => b <> []) p -> 0 <= ofs -> zlen (concat p) < 65536 -> length (oid_id o) = 32%nat -> 0 <= max ->
  (exists r, snmp_asn1_dec_type p ofs = Ok r) /\ (exists r, snmp_asn1_dec_length p ofs = Ok r) /\
  (exists r, snmp_asn1_dec_u32t p ofs len = Ok r) /\ (exists r, snmp_asn1_dec_s32t p ofs len = Ok r) /\
  (exists r, snmp_asn1_dec_oid p ofs len o = Ok r /\ from_option oid_fits True r) /\
  (exists r, snmp_asn1_dec_raw p ofs len max = Ok r /\ from_option (fun raw => zlen raw <= max) True r).
Proof.
  intros Hp Hofs Hsz Ho Hmax.
  assert (Hat : forall V (k : cursor -> res (option V)), returns (fun _ => True) k -> exists r, dec_at p ofs k = Ok r).
  { intros V k Hk. destruct (returns_at _ p ofs k Hp Hofs Hsz Hk) as (r & ? & _). eauto. }
  split_and!.
  - apply Hat. apply (returns_get _ (fun b _ => Ok (Some b))). intros b. by apply returns_some.
  - apply Hat. change (returns (fun _ => True) length_reader). unfold length_reader. apply (returns_get _ (fun b c => if b <? 0x80 then _ else if b =? 0x80 then dec_indefinite (S (cu_left c)) 0 0 c else _)).
    intros b. apply returns_if; [by apply returns_some|]. apply returns_if.
    { intros c Hc. apply dec_indefinite_returns; [done|]. pose proof (cu_left_fwd c). lia. }
    returns; by apply returns_some.
  - apply Hat. returns; apply dec_octets_returns.
  - apply Hat. returns; apply dec_signed_returns.
  - apply returns_at; [done..|]. change (returns oid_fits (oid_reader len (oid_id o))). unfold oid_reader.
    apply returns_if; [|apply returns_some; unfold oid_fits; cbn; unfold LWIP_SNMP_OBJ_ID_LEN; lia].
    apply returns_get. intros b. cbv zeta.
    assert (Hof : oid_fits (oid_push (oid_first b).2 (oid_push (oid_first b).1 (mk_oid 0 (oid_id o))))).
    { unfold oid_fits, oid_push. cbn. rewrite !length_insert. unfold LWIP_SNMP_OBJ_ID_LEN. lia. }
    assert (Hl2 : oid_len (oid_push (oid_first b).2 (oid_push (oid_first b).1 (mk_oid 0 (oid_id o)))) = 2) by done.
    apply returns_if; [apply returns_next|]; (apply dec_sub_ids_returns; [done|rewrite Hl2; done]).
  - unfold snmp_asn1_dec_raw. destruct (0 <? len) eqn:E; [|exists (Some []); split; [done|]; cbn; unfold zlen; simpl; lia].
    apply Z.ltb_lt in E. apply returns_at; [done..|]. destruct (len <=? max) eqn:E2; [|apply returns_none]. apply Z.leb_le in E2.
    intros c Hc. destruct (dec_raw_returns (Z.to_nat (len - 1)) c Hc) as (r & -> & Hr). exists r. split; [done|].
    destruct r as [raw|]; [|done]. cbn in *. unfold zlen. lia.
Qed.
(** An unfinished indefinite length, and an identifier cut off. *)
Lemma asn1_decoders_return_witness : (exists r, snmp_asn1_dec_length [[0x80; 1]; [0; 7]] 0 = Ok r) /\
  (exists r, snmp_asn1_dec_oid [[0x80; 1]; [0; 0x87]] 0 9 (mk_oid 0 (repeat 0 32)) = Ok r /\ from_option oid_fits True r).
Proof.
  assert (Hp : Forall (fun b => b <> []) [[0x80; 1]; [0; 7]]) by (by repeat constructor).
  assert (Hq : Forall (fun b => b <> []) [[0x80; 1]; [0; 0x87]]) by (by repeat constructor).
  split.
  - exact (proj1 (proj2 (asn1_decoders_return [[0x80; 1]; [0; 7]] 0 9 9 (mk_oid 0 (repeat 0 32)) Hp ltac:(lia) ltac:(vm_compute; done) eq_refl ltac:(lia)))).
  - exact (proj1 (proj2 (proj2 (proj2 (proj2 (asn1_decoders_return [[0x80; 1]; [0; 0x87]] 0 9 9 (mk_oid 0 (repeat 0 32)) Hq ltac:(lia) ltac:(vm_compute; done) eq_refl ltac:(lia))))))).
Defined.
