(* ===== verification/Igmp.v ===== *)
(** * IGMP (src/src/lwip/core/ipv4/igmp.c, and the options of ip_output_if_opt)

    The groups a host has joined, on top of the network layer of Inet.v. The
    groups are a table by address, [igmp_group_list] is the list. [LWIP_RAND]
    reads a stream. [igmp_mac_filter] is the callback of the driver, NULL or a
    function whose calls are recorded; [ig_log] also records the messages that
    are given to IP. Built with LWIP_IGMP 1. *)
From S2P Require Import Prelude ByteOrder IpAddr Checksum Ip Tcp TcpOut TcpIn TcpWorld Etharp Netif IpFrag Nbuf Inet.

(** ** IP output with options *)

(** The sum over the words of the options. *)
Fixpoint option_sum (chk_sum : Z) (opts : list Z) : Z :=
  match opts with a :: b :: opts' => option_sum (u32 (chk_sum + load_le16 a b)) opts' | _ => chk_sum end.
(** The header checksum, begun with that sum. *)
Definition inline_chksum_from (chk_sum : Z) (h : ip_hdr) : Z :=
  let sum := u32 (chk_sum + LWIP_MAKE_U16 (iph_proto h) (iph_ttl h)) in
  let sum := u32 (sum + Z.land (iph_dest h) 0xffff) in
  let sum := u32 (sum + Z.shiftr (iph_dest h) 16) in
  let sum := u32 (sum + LWIP_MAKE_U16 (iph_tos h) (IPH_VHL h)) in
  let sum := u32 (sum + lwip_htons (iph_len h)) in
  let sum := u32 (sum + lwip_htons (iph_id h)) in
  let sum := u32 (sum + Z.land (iph_src h) 0xffff) in
  let sum := u32 (sum + Z.shiftr (iph_src h) 16) in
  let sum := u32 (Z.shiftr sum 16 + Z.land sum 0xffff) in
  let sum := u32 (Z.shiftr sum 16 + sum) in
  u16 (Z.lnot sum).
Definition optlen_aligned (ip_options : list Z) : Z := Z.land (zlen ip_options + 3) (Z.lnot 3).
Definition padded (ip_options : list Z) : list Z :=
  ip_options ++ repeat 0 (Z.to_nat (optlen_aligned ip_options - zlen ip_options)).
(** [ip_output_if_opt] where the header is to be generated. *)
Definition ip_output_if_opt {A} (p : nbuf) (src dest ttl tos proto : Z) (id : nat) (ip_options : list Z) (s : inet A) : res (err_t * inet A) :=
  let n := optlen_aligned ip_options in
  let! o :=
    if negb (zlen ip_options =? 0) then
      let! o := nb_header n p in
      match o with
      | None => Ok None
      | Some p => let! p := nb_write 0 (padded ip_options) p in Ok (Some p)
      end
    else Ok (Some p) in
  match o with
  | None => Ok (ERR_BUF, s)
  | Some p =>
      let! o := nb_header IP_HLEN p in
      match o with
      | None => Ok (ERR_BUF, s)
      | Some p =>
          assert! IP_HLEN <=? nb_len p in
          let! nif := inet_if id s in
          let src := if src =? IPADDR_ANY then nif_ip_addr nif else src in
          let h := mk_iphdr ((IP_HLEN + n) / 4) tos (u16 (nb_tot_len p)) (ip_id s) 0 ttl proto src dest in
          let! p := nb_write 0 (ip_hdr_bytes h (inline_chksum_from (option_sum 0 (padded ip_options)) h)) p in
          ip_send id p dest (s <| ip_id := u16 (ip_id s + 1) |>)
      end
  end.

(** ** Constants *)
Definition IP_PROTO_IGMP : Z := 2.
Definition IGMP_TTL : Z := 1.
Definition IGMP_MINLEN : Z := 8.
Definition ROUTER_ALERT : Z := 0x9404.
Definition IGMP_MEMB_QUERY : Z := 0x11.
Definition IGMP_V2_MEMB_REPORT : Z := 0x16.
Definition IGMP_LEAVE_GROUP : Z := 0x17.
Definition IGMP_GROUP_NON_MEMBER : Z := 0.
Definition IGMP_GROUP_DELAYING_MEMBER : Z := 1.
Definition IGMP_GROUP_IDLE_MEMBER : Z := 2.
Definition IGMP_TMR_INTERVAL : Z := 100.
Definition IGMP_V1_DELAYING_MEMBER_TMR : Z := 1000 / IGMP_TMR_INTERVAL.
Definition IGMP_JOIN_DELAYING_MEMBER_TMR : Z := 500 / IGMP_TMR_INTERVAL.
Definition IGMP_DEL_MAC_FILTER : Z := 0.
Definition IGMP_ADD_MAC_FILTER : Z := 1.
Definition NETIF_FLAG_IGMP : Z := 0x80.
Definition MEMP_NUM_IGMP_GROUP : Z := 8.
Definition allsystems : Z := load_le32 224 0 0 1.
Definition allrouters : Z := load_le32 224 0 0 2.

(** ** State *)
Record igmp_group := mk_group {
  gr_netif : nat;
  group_address : Z;
  last_reporter_flag : Z;
  group_state : Z;
  gr_timer : Z;
  gr_use : Z
}.
#[export] Instance igmp_group_eta : Eta igmp_group :=
  {| eta g := mk_group (gr_netif g) (group_address g) (last_reporter_flag g) (group_state g) (gr_timer g) (gr_use g) |}.
#[export] Instance set_last_reporter_flag : Setter last_reporter_flag := ltac:(setter).
#[export] Instance set_group_state : Setter group_state := ltac:(setter).
#[export] Instance set_gr_timer : Setter gr_timer := ltac:(setter).
#[export] Instance set_gr_use : Setter gr_use := ltac:(setter).

Inductive igmp_event :=
| IgmpMsg (netif : nat) (type group : Z)
| MacFilter (netif : nat) (group action : Z).

Record igmp (A : Type) := mk_igmp {
  ig_inet : inet A;
  group_tbl : gmap positive igmp_group;
  igmp_group_list : list positive;
  ig_rand : list Z;
  ig_log : list igmp_event
}.
Arguments mk_igmp {A}. Arguments ig_inet {A}. Arguments group_tbl {A}. Arguments igmp_group_list {A}. Arguments ig_rand {A}. Arguments ig_log {A}.
#[export] Instance igmp_eta {A} : Eta (igmp A) :=
  {| eta s := mk_igmp (ig_inet s) (group_tbl s) (igmp_group_list s) (ig_rand s) (ig_log s) |}.
#[export] Instance set_ig_inet {A} : Setter (@ig_inet A) := ltac:(setter).
#[export] Instance set_group_tbl {A} : Setter (@group_tbl A) := ltac:(setter).
#[export] Instance set_igmp_group_list {A} : Setter (@igmp_group_list A) := ltac:(setter).
#[export] Instance set_ig_rand {A} : Setter (@ig_rand A) := ltac:(setter).
#[export] Instance set_ig_log {A} : Setter (@ig_log A) := ltac:(setter).

Section Igmp.
(** [mac_filter]: the interface has an [igmp_mac_filter]. *)
Context {A : Type} (mac_filter : nat -> bool).
Implicit Types (s : igmp A) (g : igmp_group) (id : positive) (nif : nat) (p : nbuf).

Definition get_group s id : res igmp_group := of_option BadAccess (group_tbl s !! id).
Definition put_group id g s : igmp A := s <| group_tbl := <[id := g]> (group_tbl s) |>.
Definition igmp_init (i : inet A) : igmp A := mk_igmp i ∅ [] [] [].
Definition ig_event (e : igmp_event) s : igmp A := s <| ig_log := ig_log s ++ [e] |>.
Definition call_mac_filter nif (group action : Z) s : igmp A :=
  if mac_filter nif then ig_event (MacFilter nif group action) s else s.
(** From the end of the stream on, 0. *)
Definition igmp_rand s : Z * igmp A := (hd 0 (ig_rand s), s <| ig_rand := tl (ig_rand s) |>).
Definition free_group id s : igmp A := s <| group_tbl := delete id (group_tbl s) |>.

(** ** Sending *)
Definition router_alert : list Z := store_le16 (lwip_htons ROUTER_ALERT) ++ [0; 0].
Definition igmp_ip_output_if p (src dest : Z) nif (i : inet A) : res (err_t * inet A) :=
  ip_output_if_opt p src dest IGMP_TTL 0 IP_PROTO_IGMP nif router_alert i.
Definition igmp_msg_bytes (type maxresp group chksum : Z) : list Z := [type; maxresp] ++ store_le16 chksum ++ store_le32 group.
Definition igmp_message (type group : Z) : list Z := igmp_msg_bytes type 0 group (inet_chksum 0 (igmp_msg_bytes type 0 group 0)).
(** [igmp_send] of a report or a leave message, the only types it is called
    with. *)
Definition igmp_send id (type : Z) s : res (igmp A) :=
  let! g := get_group s id in
  let '(ok, i) := pbuf_alloc_ok (ig_inet s) in
  let s := s <| ig_inet := i |> in
  if ok then
    let! n := inet_if (gr_netif g) (ig_inet s) in
    let src := nif_ip_addr n in
    let report := type =? IGMP_V2_MEMB_REPORT in
    let dest := if report then group_address g else allrouters in
    let s := if report then put_group id (g <| last_reporter_flag := 1 |>) s else s in
    let q := nb_new (link_room + ip_room + 20) (igmp_message type (group_address g)) in
    let! (_, i) := igmp_ip_output_if q src dest (gr_netif g) (ig_inet s) in
    Ok (ig_event (IgmpMsg (gr_netif g) type (group_address g)) (s <| ig_inet := i |>))
  else Ok s.

(** ** Timers *)
Definition igmp_start_timer id (max_time : Z) s : res (igmp A) :=
  let! g := get_group s id in
  let max_time := if max_time =? 0 then 1 else max_time in
  let '(r, s) := igmp_rand s in
  if max_time - 1 =? 0 then Err DivByZero
  else Ok (put_group id (g <| gr_timer := u16 (r mod (max_time - 1) + 1) |>) s).
Definition must_delay g (maxresp : Z) : bool :=
  (group_state g =? IGMP_GROUP_IDLE_MEMBER) ||
  ((group_state g =? IGMP_GROUP_DELAYING_MEMBER) && ((gr_timer g =? 0) || (maxresp <? gr_timer g))).
Definition set_state id (state : Z) s : res (igmp A) :=
  let! g := get_group s id in Ok (put_group id (g <| group_state := state |>) s).
Definition igmp_delaying_member id (maxresp : Z) s : res (igmp A) :=
  let! g := get_group s id in
  if must_delay g maxresp then
    let! s := igmp_start_timer id maxresp s in set_state id IGMP_GROUP_DELAYING_MEMBER s
  else Ok s.
Definition igmp_timeout id s : res (igmp A) :=
  let! g := get_group s id in
  if group_state g =? IGMP_GROUP_DELAYING_MEMBER then igmp_send id IGMP_V2_MEMB_REPORT s else Ok s.
Definition group_tick id s : res (igmp A) :=
  let! g := get_group s id in
  if 0 <? gr_timer g then
    let s := put_group id (g <| gr_timer := gr_timer g - 1 |>) s in
    if gr_timer g - 1 =? 0 then igmp_timeout id s else Ok s
  else Ok s.
Fixpoint igmp_tmr_loop (l : list positive) s : res (igmp A) :=
  match l with [] => Ok s | id :: l' => let! s := group_tick id s in igmp_tmr_loop l' s end.
Definition igmp_tmr s : res (igmp A) := igmp_tmr_loop (igmp_group_list s) s.

(** ** The list of groups *)
Fixpoint lookfor_loop (tbl : gmap positive igmp_group) (l : list positive) nif (a : Z) : res (option positive) :=
  match l with
  | [] => Ok None
  | id :: l' =>
      let! g := of_option BadAccess (tbl !! id) in
      if Nat.eqb (gr_netif g) nif && (group_address g =? a) then Ok (Some id) else lookfor_loop tbl l' nif a
  end.
Definition igmp_lookfor_group nif (a : Z) s : res (option positive) := lookfor_loop (group_tbl s) (igmp_group_list s) nif a.
Definition group_fresh s : positive := Pos.succ (map_fold (fun k _ m => Pos.max k m) 1%positive (group_tbl s)).
Definition igmp_lookup_group nif (a : Z) s : res (option positive * igmp A) :=
  let! o := igmp_lookfor_group nif a s in
  match o with
  | Some id => Ok (Some id, s)
  | None =>
      if Z.of_nat (size (group_tbl s)) <? MEMP_NUM_IGMP_GROUP then
        let id := group_fresh s in
        Ok (Some id, put_group id (mk_group nif a 0 IGMP_GROUP_NON_MEMBER 0 0) (s <| igmp_group_list := id :: igmp_group_list s |>))
      else Ok (None, s)
  end.
Definition igmp_remove_group id s : err_t * igmp A :=
  if bool_decide (id ∈ igmp_group_list s) then (ERR_OK, free_group id (s <| igmp_group_list := unlink id (igmp_group_list s) |>))
  else (ERR_ARG, free_group id s).

(** ** Start, stop, report *)
Definition igmp_start nif s : res (err_t * igmp A) :=
  let! (o, s) := igmp_lookup_group nif allsystems s in
  match o with
  | Some id =>
      let! g := get_group s id in
      let s := put_group id (g <| group_state := IGMP_GROUP_IDLE_MEMBER |> <| gr_use := u8 (gr_use g + 1) |>) s in
      Ok (ERR_OK, call_mac_filter nif allsystems IGMP_ADD_MAC_FILTER s)
  | None => Ok (ERR_MEM, s)
  end.
(** [kept]: the list up to [prev]. *)
Fixpoint stop_loop (l kept : list positive) nif s : res (igmp A) :=
  match l with
  | [] => Ok (s <| igmp_group_list := kept |>)
  | id :: l' =>
      let! g := get_group s id in
      if Nat.eqb (gr_netif g) nif then
        let s := call_mac_filter nif (group_address g) IGMP_DEL_MAC_FILTER s in
        stop_loop l' kept nif (free_group id s)
      else stop_loop l' (kept ++ [id]) nif s
  end.
Definition igmp_stop nif s : res (err_t * igmp A) :=
  let! s := stop_loop (igmp_group_list s) [] nif s in Ok (ERR_OK, s).
(** [igmp_delaying_member] for the groups of the list that [sel] selects. *)
Fixpoint delay_groups (l : list positive) (sel : igmp_group -> bool) (maxresp : Z) s : res (igmp A) :=
  match l with
  | [] => Ok s
  | id :: l' =>
      let! g := get_group s id in
      let! s := if sel g then igmp_delaying_member id maxresp s else Ok s in
      delay_groups l' sel maxresp s
  end.
Definition igmp_report_groups nif s : res (igmp A) :=
  delay_groups (igmp_group_list s) (fun g => Nat.eqb (gr_netif g) nif) IGMP_JOIN_DELAYING_MEMBER_TMR s.

(** ** Input *)
Definition ig_free s : igmp A := s <| ig_inet := drop_packet (ig_inet s) |>.
Definition igmp_query (maxresp a dest : Z) nif id s : res (igmp A) :=
  if (dest =? allsystems) && (a =? IPADDR_ANY) then
    let maxresp := if maxresp =? 0 then IGMP_V1_DELAYING_MEMBER_TMR else maxresp in
    delay_groups (igmp_group_list s) (fun g => Nat.eqb (gr_netif g) nif && negb (group_address g =? allsystems)) maxresp s
  else if negb (a =? IPADDR_ANY) then
    let! o := if dest =? allsystems then igmp_lookfor_group nif a s else Ok (Some id) in
    match o with
    | Some id => igmp_delaying_member id maxresp s
    | None => Ok s
    end
  else Ok s.
Definition igmp_report id s : res (igmp A) :=
  let! g := get_group s id in
  if group_state g =? IGMP_GROUP_DELAYING_MEMBER then
    Ok (put_group id (g <| gr_timer := 0 |> <| group_state := IGMP_GROUP_IDLE_MEMBER |> <| last_reporter_flag := 0 |>) s)
  else Ok s.
(** [p] is at the IP header [iphdr]. *)
Definition igmp_input (iphdr : ip_hdr) p nif (dest : Z) s : res (igmp A) :=
  let! o := nb_header (- (iph_hl iphdr * 4)) p in
  match o with
  | None => Ok (ig_free s)
  | Some p =>
      if nb_len p <? IGMP_MINLEN then Ok (ig_free s)
      else if negb (inet_chksum 0 (nb_first p) =? 0) then Ok (ig_free s)
      else
        let! o := igmp_lookfor_group nif dest s in
        match o with
        | None => Ok (ig_free s)
        | Some id =>
            let! type := nb_u8 0 p in
            let! maxresp := nb_u8 1 p in
            let! a := nb_addr 4 p in
            let! s :=
              if type =? IGMP_MEMB_QUERY then igmp_query maxresp a dest nif id s
              else if type =? IGMP_V2_MEMB_REPORT then igmp_report id s
              else Ok s in
            Ok (ig_free s)
        end
  end.

(** ** Joining and leaving *)
Definition takes_part (n : netif) (ifaddr : Z) : bool :=
  has_flag (nif_flags n) NETIF_FLAG_IGMP && ((ifaddr =? IPADDR_ANY) || (nif_ip_addr n =? ifaddr)).
(** One interface: the join, or [false] when there is no memory. *)
Definition join_if nif (groupaddr : Z) s : res (bool * igmp A) :=
  let! (o, s) := igmp_lookup_group nif groupaddr s in
  match o with
  | None => Ok (false, s)
  | Some id =>
      let! g := get_group s id in
      let! s :=
        if negb (group_state g =? IGMP_GROUP_NON_MEMBER) then Ok s
        else
          let s := if gr_use g =? 0 then call_mac_filter nif groupaddr IGMP_ADD_MAC_FILTER s else s in
          let! s := igmp_send id IGMP_V2_MEMB_REPORT s in
          let! s := igmp_start_timer id IGMP_JOIN_DELAYING_MEMBER_TMR s in
          set_state id IGMP_GROUP_DELAYING_MEMBER s in
      let! g := get_group s id in
      Ok (true, put_group id (g <| gr_use := u8 (gr_use g + 1) |>) s)
  end.
Fixpoint join_loop (l : list nat) (ifaddr groupaddr : Z) (err : err_t) s : res (err_t * igmp A) :=
  match l with
  | [] => Ok (err, s)
  | nif :: l' =>
      let! n := inet_if nif (ig_inet s) in
      if takes_part n ifaddr then
        let! (ok, s) := join_if nif groupaddr s in
        if ok : bool then join_loop l' ifaddr groupaddr ERR_OK s else Ok (ERR_MEM, s)
      else join_loop l' ifaddr groupaddr err s
  end.
Definition igmp_joingroup (ifaddr groupaddr : Z) s : res (err_t * igmp A) :=
  assert! ip_addr_ismulticast groupaddr in
  assert! negb (groupaddr =? allsystems) in
  join_loop (netif_list (in_stack (ig_inet s))) ifaddr groupaddr ERR_VAL s.
Definition leave_if nif (groupaddr : Z) s : res (bool * igmp A) :=
  let! o := igmp_lookfor_group nif groupaddr s in
  match o with
  | None => Ok (false, s)
  | Some id =>
      let! g := get_group s id in
      if gr_use g <=? 1 then
        let! s := if negb (last_reporter_flag g =? 0) then igmp_send id IGMP_LEAVE_GROUP s else Ok s in
        let s := call_mac_filter nif groupaddr IGMP_DEL_MAC_FILTER s in
        Ok (true, snd (igmp_remove_group id s))
      else Ok (true, put_group id (g <| gr_use := gr_use g - 1 |>) s)
  end.
Fixpoint leave_loop (l : list nat) (ifaddr groupaddr : Z) (err : err_t) s : res (err_t * igmp A) :=
  match l with
  | [] => Ok (err, s)
  | nif :: l' =>
      let! n := inet_if nif (ig_inet s) in
      if takes_part n ifaddr then
        let! (found, s) := leave_if nif groupaddr s in
        leave_loop l' ifaddr groupaddr (if found : bool then ERR_OK else err) s
      else leave_loop l' ifaddr groupaddr err s
  end.
Definition igmp_leavegroup (ifaddr groupaddr : Z) s : res (err_t * igmp A) :=
  assert! ip_addr_ismulticast groupaddr in
  assert! negb (groupaddr =? allsystems) in
  leave_loop (netif_list (in_stack (ig_inet s))) ifaddr groupaddr ERR_VAL s.
End Igmp.
