(* ===== verification/IgmpSafe.v ===== *)
(** * IGMP: the groups stay well-formed, queries are answered

    Every operation of igmp.c keeps the list of groups well-formed, and the only
    way it can fail is the division by zero in igmp_start_timer. A member that
    is asked reports in time, unless another member does. *)
From S2P Require Import Prelude ByteOrder IpAddr Checksum Ip Tcp TcpOut TcpIn TcpWorld TcpProcess TcpShape TcpCalls Etharp EtharpTable Netif IpFrag Nbuf Inet Icmp Udp Raw TcpWire IpInput InetHdr InetSafe InetSend InetDemo Igmp.

Section IgmpSafe.
Context {A : Type} (mac_filter : nat -> bool).
Implicit Types (s : igmp A) (g : igmp_group) (id : positive) (nif : nat) (p : nbuf).

(** ** Well-formed groups *)
Definition group_ok (ifaces : gmap nat iface) g : Prop :=
  is_Some (ifaces !! gr_netif g) /\
  (group_state g = IGMP_GROUP_DELAYING_MEMBER \/ group_state g = IGMP_GROUP_IDLE_MEMBER) /\
  0 <= gr_timer g < 256 /\
  (group_address g = allsystems \/ ip_addr_ismulticast (group_address g) = true) /\ 0 <= gr_use g < 256.
Definition key g : nat * Z := (gr_netif g, group_address g).
Record groups_ok (ifaces : gmap nat iface) (tbl : gmap positive igmp_group) (l : list positive) : Prop := {
  gk_nodup : NoDup l;
  gk_dom : forall id, id ∈ l <-> is_Some (tbl !! id);
  gk_group : forall id g, tbl !! id = Some g -> group_ok ifaces g;
  gk_unique : forall id id' g g', tbl !! id = Some g -> tbl !! id' = Some g' -> key g = key g' -> id = id'
}.
Definition ig_ifs s := ifs (ig_inet s).
Record igmp_ok s : Prop := {
  ik_inet : inet_ok (ig_inet s);
  ik_groups : groups_ok (ig_ifs s) (group_tbl s) (igmp_group_list s)
}.
Definition ig_ends s (r : res (igmp A)) : Prop := exists s', r = Ok s' /\ igmp_ok s' /\ ig_ifs s' = ig_ifs s.

Lemma groups_put ifaces tbl l id g g' : groups_ok ifaces tbl l -> tbl !! id = Some g -> key g' = key g -> group_ok ifaces g' ->
  groups_ok ifaces (<[id := g']> tbl) l.
Proof.
  intros [Hn Hd Hg Hu] Hid Hk Hok. split; [done| | |].
  - intros k. rewrite Hd. destruct (decide (k = id)) as [->|Hne]; [by rewrite lookup_insert_eq, Hid|by rewrite lookup_insert_ne].
  - intros k x. destruct (decide (k = id)) as [->|Hne]; [rewrite lookup_insert_eq; by intros [= <-]|rewrite lookup_insert_ne by done; apply Hg].
  - intros k k' x x'. destruct (decide (k = id)) as [->|H1], (decide (k' = id)) as [->|H2]; rewrite ?lookup_insert_eq, ?lookup_insert_ne by done; try done.
    + intros [= <-] H' He. apply (Hu id k' g x'); congruence.
    + intros H' [= <-] He. apply (Hu k id x g); congruence.
    + apply Hu.
Qed.
Lemma groups_new ifaces tbl l id g : groups_ok ifaces tbl l -> tbl !! id = None -> group_ok ifaces g ->
  (forall k x, tbl !! k = Some x -> key x <> key g) -> groups_ok ifaces (<[id := g]> tbl) (id :: l).
Proof.
  intros [Hn Hd Hg Hu] Hid Hok Hk. assert (Hni : id ∉ l) by (rewrite Hd, Hid; by intros [? ?]). split.
  - by constructor.
  - intros k. rewrite elem_of_cons, Hd. destruct (decide (k = id)) as [->|Hne].
    + rewrite lookup_insert_eq. split; [eauto|by left].
    + rewrite lookup_insert_ne by done. split; [intros [->|?]; done|by right].
  - intros k x. destruct (decide (k = id)) as [->|Hne]; [rewrite lookup_insert_eq; by intros [= <-]|rewrite lookup_insert_ne by done; apply Hg].
  - intros k k' x x'. destruct (decide (k = id)) as [->|H1], (decide (k' = id)) as [->|H2]; rewrite ?lookup_insert_eq, ?lookup_insert_ne by done; try done.
    + intros [= <-] H' He. exfalso. by apply (Hk k' x').
    + intros H' [= <-] He. exfalso. by apply (Hk k x).
    + apply Hu.
Qed.
Lemma groups_del ifaces tbl l id k : groups_ok ifaces tbl l -> (forall x, x ∈ k <-> x ∈ l /\ x <> id) -> NoDup k ->
  groups_ok ifaces (delete id tbl) k.
Proof.
  intros [Hn Hd Hg Hu] Hk Hnd. split; [done| | |].
  - intros x. rewrite Hk, Hd. destruct (decide (x = id)) as [->|Hne].
    + rewrite lookup_delete_eq. split; [by intros [_ ?]|by intros [? ?]].
    + rewrite lookup_delete_ne by done. split; [by intros [? _]|done].
  - intros x g. rewrite lookup_delete_Some. intros [_ ?]. by apply (Hg x).
  - intros x y g g'. rewrite !lookup_delete_Some. intros [_ ?] [_ ?]. by apply Hu.
Qed.
Lemma get_group_ok s id g : group_tbl s !! id = Some g -> get_group s id = Ok g.
Proof. unfold get_group. by intros ->. Qed.
Lemma put_ok s id g g' : igmp_ok s -> group_tbl s !! id = Some g -> key g' = key g -> group_ok (ig_ifs s) g' -> igmp_ok (put_group id g' s).
Proof. intros [Hi Hg] Hid Hk Hok. split; [done|]. by apply (groups_put _ _ _ id g). Qed.
Lemma mac_filter_ok nif a b s : igmp_ok s -> igmp_ok (call_mac_filter mac_filter nif a b s).
Proof. unfold call_mac_filter. destruct (mac_filter nif); [|done]. by intros []. Qed.
Lemma mac_filter_same nif a b s : let s' := call_mac_filter mac_filter nif a b s in
  ig_inet s' = ig_inet s /\ group_tbl s' = group_tbl s /\ igmp_group_list s' = igmp_group_list s /\ ig_rand s' = ig_rand s.
Proof. unfold call_mac_filter. by destruct (mac_filter nif). Qed.

(** ** Sending *)
Lemma ip_opt_ends (bs : list Z) src dest nif x (i : inet A) : inet_ok i -> ifs i !! nif = Some x -> zlen bs = 8 ->
  exists e i', igmp_ip_output_if (nb_new (link_room + ip_room + 20) bs) src dest nif i = Ok (e, i') /\ inet_ok i' /\ ifs i' = ifs i /\
    in_allocs i' = in_allocs i.
Proof.
  intros Hi Hx Hb. unfold igmp_ip_output_if, ip_output_if_opt. change (negb (zlen router_alert =? 0)) with true. cbv iota.
  change (optlen_aligned router_alert) with 4.
  destruct (nb_show_eq 4 (nb_new (link_room + ip_room + 20) bs)) as (b1 & q1 & -> & S1); [done|done|]. cbn [res_bind].
  pose proof (sh_first _ _ _ _ S1) as Hf1. cbn [nb_new nb_first] in Hf1.
  destruct (nb_write_front (padded router_alert) b1 bs q1 Hf1) as (q2 & -> & Hf2 & Hr2 & Hfr2 & Hm2 & _); [by rewrite (sh_len _ _ _ _ S1)|].
  cbn [res_bind].
  destruct (nb_show_eq IP_HLEN q2) as (b3 & q3 & -> & S3).
  { rewrite Hfr2, (sh_front _ _ _ _ S1). cbn. done. }
  { by rewrite Hm2, (sh_movable _ _ _ _ S1). }
  cbn [res_bind]. pose proof (sh_first _ _ _ _ S3) as Hf3. rewrite Hf2 in Hf3.
  assert (Hl3 : nb_len q3 = 32).
  { unfold nb_len. rewrite Hf3, !zlen_app, Hb, (sh_len _ _ _ _ S3). done. }
  rewrite Hl3. change (IP_HLEN <=? 32) with true. cbn [lwip_assert res_bind]. rewrite (inet_if_ok nif x i Hx). cbn [res_bind].
  destruct (nb_write_front (ip_hdr_bytes (mk_iphdr 6 0 (u16 (nb_tot_len q3)) (ip_id i) 0 IGMP_TTL IP_PROTO_IGMP (if src =? IPADDR_ANY then nif_ip_addr (if_netif x) else src) dest)
     (inline_chksum_from (option_sum 0 (padded router_alert)) (mk_iphdr 6 0 (u16 (nb_tot_len q3)) (ip_id i) 0 IGMP_TTL IP_PROTO_IGMP (if src =? IPADDR_ANY then nif_ip_addr (if_netif x) else src) dest)))
     b3 (padded router_alert ++ bs) q3 Hf3) as (q & Hq & Hf & Hr & _); [by rewrite (sh_len _ _ _ _ S3)|].
  change ((IP_HLEN + 4) / 4) with 6. rewrite Hq. cbn [res_bind].
  assert (Ht : nb_tot_len q = 32).
  { unfold nb_tot_len. rewrite nb_bytes_eq, zlen_app, Hf, !zlen_app, Hb, Hr, (sh_rest _ _ _ _ S3), Hr2, (sh_rest _ _ _ _ S1). done. }
  set (i1 := i <| ip_id := u16 (ip_id i + 1) |>). assert (Hi1 : inet_ok i1) by (by destruct Hi).
  assert (Hft : fits (nb_tot_len q) (if_netif x)).
  { rewrite Ht. destruct (io_ifs _ Hi nif x Hx) as [_ [Hm|Hm]]; [by left|right; lia]. }
  destruct (ip_send_ok nif q dest i1 x Hi1 Hx) as (e & i' & He & Hi' & Hifs); [lia|done|].
  exists e, i'. split; [done|]. split; [done|]. split; [done|].
  rewrite (ip_send_small nif q dest (if_netif x)) in He; [|by apply inet_if_ok|done].
  unfold netif_output in He. inv_res. destruct x2 as [? ?]. by injection He as _ <-.
Qed.
Lemma igmp_message_len type a : zlen (igmp_message type a) = 8.
Proof. done. Qed.
Record sent_ok (msg : igmp_event) (sent : bool) s s' : Prop := {
  so_inet : inet_ok (ig_inet s');
  so_ifs : ig_ifs s' = ig_ifs s;
  so_list : igmp_group_list s' = igmp_group_list s;
  so_rand : ig_rand s' = ig_rand s;
  so_log : ig_log s' = ig_log s ++ (if sent then [msg] else []);
  so_allocs : in_allocs (ig_inet s) = [] -> sent = true /\ in_allocs (ig_inet s') = []
}.
Lemma send_spec id type g s : inet_ok (ig_inet s) -> group_tbl s !! id = Some g -> is_Some (ig_ifs s !! gr_netif g) ->
  exists sent s', igmp_send id type s = Ok s' /\ sent_ok (IgmpMsg (gr_netif g) type (group_address g)) sent s s' /\
    group_tbl s' = (if sent && (type =? IGMP_V2_MEMB_REPORT) then <[id := g <| last_reporter_flag := 1 |>]> (group_tbl s) else group_tbl s).
Proof.
  intros Hi Hid [x Hx]. unfold igmp_send. rewrite (get_group_ok s id g Hid). cbn [res_bind].
  destruct (pbuf_alloc_ok (ig_inet s)) as [ok i] eqn:Ea. destruct (alloc_ok _ _ _ Ea Hi) as [Hi1 Hf1].
  assert (Hal : in_allocs (ig_inet s) = [] -> ok = true /\ in_allocs i = []).
  { intros Hn. unfold pbuf_alloc_ok in Ea. rewrite Hn in Ea. by injection Ea as <- <-. }
  destruct ok.
  2:{ exists false. eexists. split; [done|]. split; [|done]. split; try done. cbn. by rewrite app_nil_r. }
  change (ig_inet (s <| ig_inet := i |>)) with i. assert (Hx1 : ifs i !! gr_netif g = Some x) by (by rewrite Hf1).
  rewrite (inet_if_ok _ x i Hx1). cbn [res_bind].
  destruct (ip_opt_ends (igmp_message type (group_address g)) (nif_ip_addr (if_netif x)) (if type =? IGMP_V2_MEMB_REPORT then group_address g else allrouters) (gr_netif g) x i Hi1 Hx1 eq_refl)
    as (e & i' & He & Hi2 & Hf2 & Ha2).
  set (s2 := if type =? IGMP_V2_MEMB_REPORT then put_group _ _ _ else _). assert (Hs2 : ig_inet s2 = i) by (unfold s2; by destruct (type =? _)).
  rewrite Hs2, He. cbn [res_bind]. exists true. eexists. split; [done|]. unfold s2. split.
  - split; try (destruct (type =? _); done).
    + unfold ig_ifs. cbn. by rewrite Hf2, Hf1.
    + intros Hn. cbn. destruct (Hal Hn). by rewrite Ha2.
  - by destruct (type =? _).
Qed.
Lemma send_ok id type g s : igmp_ok s -> group_tbl s !! id = Some g -> exists sent s', igmp_send id type s = Ok s' /\ igmp_ok s' /\
  sent_ok (IgmpMsg (gr_netif g) type (group_address g)) sent s s' /\
  (forall k, k <> id -> group_tbl s' !! k = group_tbl s !! k) /\
  (exists g', group_tbl s' !! id = Some g' /\ key g' = key g /\ group_state g' = group_state g /\ gr_timer g' = gr_timer g /\ gr_use g' = gr_use g).
Proof.
  intros [Hi Hg] Hid. destruct (gk_group _ _ _ Hg id g Hid) as [Hif Hrest].
  destruct (send_spec id type g s Hi Hid Hif) as (sent & s' & Hs & Hso & Ht). exists sent, s'. split; [done|].
  pose proof Hso as [H1 H2 H3 H4 H5 H6].
  assert (Hok : igmp_ok s' /\ (forall k, k <> id -> group_tbl s' !! k = group_tbl s !! k) /\
    (exists g', group_tbl s' !! id = Some g' /\ key g' = key g /\ group_state g' = group_state g /\ gr_timer g' = gr_timer g /\ gr_use g' = gr_use g)).
  { destruct (sent && (type =? IGMP_V2_MEMB_REPORT)); rewrite Ht.
    - split; [|split; [intros k Hk; by rewrite lookup_insert_ne|eexists; rewrite lookup_insert_eq; by split]].
      split; [done|]. rewrite Ht, H2, H3. by apply (groups_put _ _ _ id g).
    - split; [|split; [done|exists g; by split]]. split; [done|]. by rewrite Ht, H2, H3. }
  destruct Hok as (? & ? & ?). by split_and!.
Qed.

(** ** Timers *)

(** What an operation on timers keeps, for the groups but [id]. *)
Record quiet_but (id : positive) s s' : Prop := {
  qb_inet : ig_inet s' = ig_inet s;
  qb_list : igmp_group_list s' = igmp_group_list s;
  qb_log : ig_log s' = ig_log s;
  qb_tbl : forall k, k <> id -> group_tbl s' !! k = group_tbl s !! k
}.
Lemma start_timer_spec id t g s : group_tbl s !! id = Some g -> 0 <= t < 256 -> t <> 1 -> t <> 0 ->
  exists r s', igmp_start_timer id t s = Ok s' /\ 1 <= r < t /\ group_tbl s' = <[id := g <| gr_timer := r |>]> (group_tbl s) /\ quiet_but id s s'.
Proof.
  intros Hid Ht H1 H0. unfold igmp_start_timer. rewrite (get_group_ok s id g Hid). cbn [res_bind]. rewrite (proj2 (Z.eqb_neq t 0)) by done.
  unfold igmp_rand. rewrite (proj2 (Z.eqb_neq (t - 1) 0)) by lia.
  pose proof (Z.mod_pos_bound (hd 0 (ig_rand s)) (t - 1) ltac:(lia)). rewrite u16_id by lia.
  eexists _, _. split; [done|]. split; [|split; [done|]]; [lia|].
  split; try done. intros k Hk. cbn. by rewrite lookup_insert_ne.
Qed.
(** A member that is asked has a timer that is at most the time it was given. *)
Lemma delaying_spec id t g s : igmp_ok s -> group_tbl s !! id = Some g -> 2 <= t < 256 ->
  exists s' g', igmp_delaying_member id t s = Ok s' /\ igmp_ok s' /\ quiet_but id s s' /\
    group_tbl s' !! id = Some g' /\ key g' = key g /\ group_state g' = IGMP_GROUP_DELAYING_MEMBER /\ 1 <= gr_timer g' <= t.
Proof.
  intros Hok Hid Ht. pose proof Hok as [Hi Hg]. destruct (gk_group _ _ _ Hg id g Hid) as (Hif & Hst & Htm & Had & Hu).
  unfold igmp_delaying_member. rewrite (get_group_ok s id g Hid). cbn [res_bind]. destruct (must_delay g t) eqn:Em.
  - destruct (start_timer_spec id t g s Hid) as (r & s1 & -> & Hr & Htb & [Q1 Q2 Q3 Q4]); [lia..|]. cbn [res_bind]. unfold set_state, get_group.
    rewrite Htb, lookup_insert_eq. cbn [of_option res_bind].
    eexists _, _. split; [done|]. split; [|split; [|split; [by apply lookup_insert_eq|split; [done|split; [done|cbn; lia]]]]].
    + unfold put_group. split; [cbn; by rewrite Q1|]. unfold ig_ifs. cbn. rewrite Q1, Q2, Htb, insert_insert_eq.
      apply (groups_put _ _ _ id g); [done..|]. unfold group_ok. cbn. split_and!; try done; (by left) || lia.
    + split; try done. intros k Hk. cbn. rewrite lookup_insert_ne by done. by apply Q4.
  - exists s, g. split; [done|]. split; [done|]. split; [by split|]. split; [done|]. split; [done|].
    unfold must_delay in Em. apply orb_false_iff in Em as [E1 E2]. apply Z.eqb_neq in E1. destruct Hst as [Hst|]; [|done].
    rewrite Hst in E2. cbn in E2. apply orb_false_iff in E2 as [E2 E3]. apply Z.eqb_neq in E2. apply Z.ltb_ge in E3. split; [done|lia].
Qed.

(** ** One tick *)
Definition report_of g : igmp_event := IgmpMsg (gr_netif g) IGMP_V2_MEMB_REPORT (group_address g).
Definition aged g g' : Prop := key g' = key g /\ group_state g' = group_state g.
Record ticked (l : list positive) s s' (ev : list igmp_event) : Prop := {
  tk_ok : igmp_ok s';
  tk_ifs : ig_ifs s' = ig_ifs s;
  tk_list : igmp_group_list s' = igmp_group_list s;
  tk_log : ig_log s' = ig_log s ++ ev;
  tk_allocs : in_allocs (ig_inet s) = [] -> in_allocs (ig_inet s') = [];
  tk_group : forall id g, group_tbl s !! id = Some g -> exists g', group_tbl s' !! id = Some g' /\ aged g g' /\
    gr_timer g' = if bool_decide (id ∈ l) then Z.max 0 (gr_timer g - 1) else gr_timer g;
  tk_only : forall e, e ∈ ev -> exists id g, id ∈ l /\ group_tbl s !! id = Some g /\ gr_timer g = 1 /\ e = report_of g;
  tk_sent : in_allocs (ig_inet s) = [] -> forall id g, id ∈ l -> group_tbl s !! id = Some g -> gr_timer g = 1 ->
    group_state g = IGMP_GROUP_DELAYING_MEMBER -> report_of g ∈ ev
}.
Lemma tick_one id g s : igmp_ok s -> group_tbl s !! id = Some g ->
  exists s' ev, group_tick id s = Ok s' /\ ticked [id] s s' ev.
Proof.
  intros Hok Hid. destruct (gk_group _ _ _ (ik_groups _ Hok) id g Hid) as (Hif & Hst & Htm & Had & Hu).
  unfold group_tick. rewrite (get_group_ok s id g Hid). cbn [res_bind]. destruct (0 <? gr_timer g) eqn:E.
  2:{ apply Z.ltb_ge in E. exists s, []. split; [done|]. split; try done.
      - by rewrite app_nil_r.
      - intros k x Hk. exists x. split; [done|]. split; [done|]. case_bool_decide as Hin; [|done]. apply list_elem_of_singleton in Hin as ->.
        rewrite Hid in Hk. injection Hk as <-. lia.
      - by intros e ?%elem_of_nil.
      - intros _ k x ->%list_elem_of_singleton Hk Ht. rewrite Hid in Hk. injection Hk as <-. lia. }
  apply Z.ltb_lt in E. cbv zeta. set (g1 := g <| gr_timer := gr_timer g - 1 |>). set (s1 := put_group id g1 s).
  assert (Hok1 : igmp_ok s1).
  { apply (put_ok s id g); [done..|]. unfold group_ok, g1. cbn. cbn in *. split_and!; try done; lia. }
  assert (Hid1 : group_tbl s1 !! id = Some g1) by apply lookup_insert_eq.
  assert (Hne1 : forall k, k <> id -> group_tbl s1 !! k = group_tbl s !! k) by (intros k Hk; by apply lookup_insert_ne).
  assert (Hgr : forall s2 g2, (forall k, k <> id -> group_tbl s2 !! k = group_tbl s1 !! k) -> group_tbl s2 !! id = Some g2 -> aged g g2 ->
    gr_timer g2 = gr_timer g - 1 -> forall k x, group_tbl s !! k = Some x -> exists x', group_tbl s2 !! k = Some x' /\ aged x x' /\
      gr_timer x' = if bool_decide (k ∈ [id]) then Z.max 0 (gr_timer x - 1) else gr_timer x).
  { intros s2 g2 Hne Hg2 Ha Ht k x Hk. destruct (decide (k = id)) as [->|Hn].
    - rewrite Hid in Hk. injection Hk as <-. exists g2. rewrite bool_decide_true by (by apply list_elem_of_singleton). split_and!; [done..|lia].
    - exists x. rewrite Hne, Hne1 by done. rewrite bool_decide_false by (by intros ?%list_elem_of_singleton). by split_and!. }
  destruct (gr_timer g - 1 =? 0) eqn:E1.
  - apply Z.eqb_eq in E1. unfold igmp_timeout. rewrite (get_group_ok s1 id g1 Hid1). cbn [res_bind].
    change (group_state g1) with (group_state g). destruct (group_state g =? IGMP_GROUP_DELAYING_MEMBER) eqn:Es.
    2:{ apply Z.eqb_neq in Es. exists s1, []. split; [done|]. split; try done.
      - cbn. by rewrite app_nil_r.
      - apply (Hgr s1 g1); [done..|by split|done].
      - by intros e ?%elem_of_nil.
      - intros _ k x ->%list_elem_of_singleton Hk Ht. rewrite Hid in Hk. by injection Hk as <-. }
    destruct (send_ok id IGMP_V2_MEMB_REPORT g1 s1 Hok1 Hid1) as (sent & s2 & -> & Hok2 & [S1 S2 S3 S4 S5 S6] & Hne & g2 & Hg2 & K1 & K2 & K3 & K4).
    exists s2, (if sent then [report_of g] else []). split; [done|]. split; try done.
    + intros Hal. by apply S6.
    + apply (Hgr s2 g2); [done..|by split|done].
    + intros e He. destruct sent; [|by apply elem_of_nil in He]. apply list_elem_of_singleton in He as ->. exists id, g.
      split_and!; [by apply list_elem_of_singleton|done|lia|done].
    + intros Hal k x ->%list_elem_of_singleton Hk _ _. rewrite Hid in Hk. injection Hk as <-. destruct (S6 Hal) as [-> _]. by apply list_elem_of_singleton.
  - apply Z.eqb_neq in E1. exists s1, []. split; [done|]. split; try done.
    + cbn. by rewrite app_nil_r.
    + apply (Hgr s1 g1); [done..|by split|done].
    + by intros e ?%elem_of_nil.
    + intros _ k x ->%list_elem_of_singleton Hk Ht. rewrite Hid in Hk. injection Hk as <-. lia.
Qed.
Lemma tick_spec l : forall s, igmp_ok s -> NoDup l -> (forall id, id ∈ l -> is_Some (group_tbl s !! id)) ->
  exists s' ev, igmp_tmr_loop l s = Ok s' /\ ticked l s s' ev.
Proof.
  induction l as [|id l IH]; intros s Hok Hnd Hall; cbn [igmp_tmr_loop].
  - exists s, []. split; [done|]. split; try done.
    + by rewrite app_nil_r.
    + intros id g Hid. exists g. by split_and!.
    + by intros e ?%elem_of_nil.
    + by intros _ id g ?%elem_of_nil.
  - apply NoDup_cons in Hnd as [Hni Hnd]. destruct (Hall id) as [g Hid]; [by left|].
    destruct (tick_one id g s Hok Hid) as (s1 & e1 & -> & T1). cbn [res_bind].
    destruct (IH s1) as (s2 & e2 & -> & T2); [apply T1|done| |].
    { intros k Hk. destruct (Hall k) as [x Hx]; [by right|]. destruct (tk_group _ _ _ _ T1 k x Hx) as (x' & -> & _). eauto. }
    exists s2, (e1 ++ e2). split; [done|]. destruct T1 as [O1 I1 L1 G1 A1 R1 W1 N1], T2 as [O2 I2 L2 G2 A2 R2 W2 N2]. split.
    + done.
    + congruence.
    + congruence.
    + by rewrite G2, G1, app_assoc.
    + auto.
    + intros k x Hx. destruct (R1 k x Hx) as (x1 & Hx1 & [Ha1 Ha1'] & Ht1). destruct (R2 k x1 Hx1) as (x2 & Hx2 & [Ha2 Ha2'] & Ht2).
      exists x2. split; [done|]. split; [split; congruence|]. rewrite Ht2, Ht1. destruct (decide (k = id)) as [->|Hne].
      * rewrite (bool_decide_false (id ∈ l)), (bool_decide_true (id ∈ [id])), (bool_decide_true (id ∈ id :: l)) by (done || by left). done.
      * rewrite (bool_decide_false (k ∈ [id])) by (by intros ?%list_elem_of_singleton).
        rewrite (bool_decide_ext (k ∈ id :: l) (k ∈ l)); [done|]. rewrite elem_of_cons. by split; [intros [?|?]|right].
    + intros e [He|He]%elem_of_app.
      * destruct (W1 e He) as (k & x & ->%list_elem_of_singleton & Hx & Ht & ->). exists id, x. by split_and!; [left|..].
      * destruct (W2 e He) as (k & x & Hk & Hx & Ht & ->). destruct (Hall k) as [y Hy]; [by right|].
        destruct (R1 k y Hy) as (x1 & Hx1 & [Ha Ha'] & Ht1). rewrite Hx in Hx1. injection Hx1 as <-.
        rewrite bool_decide_false in Ht1 by (intros ->%list_elem_of_singleton; done).
        exists k, y. split_and!; [by right|done|by rewrite <- Ht1|]. unfold report_of. unfold key in Ha. by injection Ha as -> ->.
    + intros Hal k x Hk Hx Ht Hst. destruct (decide (k = id)) as [->|Hne].
      * apply elem_of_app. left. apply (N1 Hal id); [by apply list_elem_of_singleton|done..].
      * apply elem_of_cons in Hk as [?|Hk]; [done|]. destruct (R1 k x Hx) as (x1 & Hx1 & [Ha Ha'] & Ht1).
        rewrite bool_decide_false in Ht1 by (by intros ?%list_elem_of_singleton). apply elem_of_app. right.
        replace (report_of x) with (report_of x1) by (unfold report_of; unfold key in Ha; by injection Ha as -> ->).
        apply (N2 (A1 Hal) k); [done|done|congruence..].
Qed.
Lemma tmr_spec s : igmp_ok s -> exists s' ev, igmp_tmr s = Ok s' /\ ticked (igmp_group_list s) s s' ev.
Proof.
  intros Hok. apply tick_spec; [done|apply Hok|]. intros id Hid. by apply (gk_dom _ _ _ (ik_groups _ Hok)).
Qed.

(** ** Asking several groups *)
Record asked (l : list positive) (sel : igmp_group -> bool) (t : Z) s s' : Prop := {
  as_ok : igmp_ok s';
  as_inet : ig_inet s' = ig_inet s;
  as_list : igmp_group_list s' = igmp_group_list s;
  as_log : ig_log s' = ig_log s;
  as_group : forall id g, group_tbl s !! id = Some g -> exists g', group_tbl s' !! id = Some g' /\ key g' = key g /\
    (id ∈ l -> sel g = true -> group_state g' = IGMP_GROUP_DELAYING_MEMBER /\ 1 <= gr_timer g' <= t) /\
    (id ∉ l -> g' = g)
}.
Lemma delay_groups_spec l sel t : (forall g g', key g = key g' -> sel g = sel g') -> 2 <= t < 256 ->
  forall s, igmp_ok s -> NoDup l -> (forall id, id ∈ l -> is_Some (group_tbl s !! id)) ->
  exists s', delay_groups l sel t s = Ok s' /\ asked l sel t s s'.
Proof.
  intros Hsel Ht. induction l as [|id l IH]; intros s Hok Hnd Hall; cbn [delay_groups].
  - exists s. split; [done|]. split; try done. intros id g Hid. exists g. split_and!; try done. by intros ?%elem_of_nil.
  - apply NoDup_cons in Hnd as [Hni Hnd]. destruct (Hall id) as [g Hid]; [by left|]. rewrite (get_group_ok s id g Hid). cbn [res_bind].
    assert (Hone : exists s1, (if sel g then igmp_delaying_member id t s else Ok s) = Ok s1 /\ asked [id] sel t s s1).
    { destruct (sel g) eqn:Es.
      - destruct (delaying_spec id t g s Hok Hid Ht) as (s1 & g1 & -> & Hok1 & [Q1 Q2 Q3 Q4] & Hg1 & Hk1 & Hs1 & Ht1).
        exists s1. split; [done|]. split; try done. intros k x Hx. destruct (decide (k = id)) as [->|Hne].
        + rewrite Hid in Hx. injection Hx as <-. exists g1. split_and!; [done..|]. intros Hn. destruct Hn. by left.
        + exists x. rewrite Q4 by done. split_and!; [done..| |done]. by intros ?%list_elem_of_singleton.
      - exists s. split; [done|]. split; try done. intros k x Hx. exists x. split_and!; [done..| |done].
        intros ->%list_elem_of_singleton Hs. rewrite Hid in Hx. injection Hx as <-. congruence. }
    destruct Hone as (s1 & -> & [O1 I1 L1 G1 R1]). cbn [res_bind]. destruct (IH s1 O1 Hnd) as (s2 & -> & [O2 I2 L2 G2 R2]).
    { intros k Hk. destruct (Hall k) as [x Hx]; [by right|]. destruct (R1 k x Hx) as (x' & -> & _). eauto. }
    exists s2. split; [done|]. split; try congruence. intros k x Hx. destruct (R1 k x Hx) as (x1 & Hx1 & K1 & D1 & N1).
    destruct (R2 k x1 Hx1) as (x2 & Hx2 & K2 & D2 & N2). exists x2. split_and!; [done|congruence| |].
    + intros [->|Hk]%elem_of_cons Hs; [|by apply D2; [done|rewrite (Hsel x1 x)]].
      rewrite (N2 Hni). apply D1; [by left|done].
    + intros [Hk1 Hk2]%not_elem_of_cons. rewrite (N2 Hk2). apply N1. by intros ?%list_elem_of_singleton.
Qed.
Lemma delay_all sel t s : (forall g g', key g = key g' -> sel g = sel g') -> 2 <= t < 256 -> igmp_ok s ->
  exists s', delay_groups (igmp_group_list s) sel t s = Ok s' /\ asked (igmp_group_list s) sel t s s'.
Proof.
  intros Hsel Ht Hok. apply delay_groups_spec; [done..|apply Hok|]. intros id Hid. by apply (gk_dom _ _ _ (ik_groups _ Hok)).
Qed.
Lemma on_netif nif g g' : key g = key g' -> Nat.eqb (gr_netif g) nif = Nat.eqb (gr_netif g') nif.
Proof. unfold key. by intros [= -> _]. Qed.
Lemma not_allsystems nif g g' : key g = key g' ->
  Nat.eqb (gr_netif g) nif && negb (group_address g =? allsystems) = Nat.eqb (gr_netif g') nif && negb (group_address g' =? allsystems).
Proof. unfold key. by intros [= -> ->]. Qed.

(** ** The list *)
Lemma lookfor_loop_spec tbl nif a l : (forall id, id ∈ l -> is_Some (tbl !! id)) ->
  exists o, lookfor_loop tbl l nif a = Ok o /\
    match o with Some id => id ∈ l /\ exists g, tbl !! id = Some g /\ key g = (nif, a)
    | None => forall k x, k ∈ l -> tbl !! k = Some x -> key x <> (nif, a) end.
Proof.
  induction l as [|id l IH]; intros Hall; cbn [lookfor_loop]; [exists None; split; [done|by intros k x ?%elem_of_nil]|].
  destruct (Hall id) as [g Hid]; [by left|]. rewrite Hid. cbn [of_option res_bind].
  destruct (Nat.eqb (gr_netif g) nif && (group_address g =? a)) eqn:E.
  - apply andb_true_iff in E as [E1%Nat.eqb_eq E2%Z.eqb_eq]. exists (Some id). split; [done|]. split; [by left|]. exists g. unfold key. by rewrite E1, E2.
  - destruct IH as ([k|] & -> & Ho); [intros k Hk; apply Hall; by right| |].
    + destruct Ho as [Hk Ho]. exists (Some k). split; [done|]. split; [by right|done].
    + exists None. split; [done|]. intros k x [->|Hk]%elem_of_cons Hx; [|by apply (Ho k)]. rewrite Hid in Hx. injection Hx as <-.
      unfold key. intros [= E1 E2]. by rewrite E1, E2, Nat.eqb_refl, Z.eqb_refl in E.
Qed.
Lemma lookfor_spec nif a s : igmp_ok s -> exists o, igmp_lookfor_group nif a s = Ok o /\
    match o with Some id => exists g, group_tbl s !! id = Some g /\ key g = (nif, a)
    | None => forall k x, group_tbl s !! k = Some x -> key x <> (nif, a) end.
Proof.
  intros [_ Hg]. destruct (lookfor_loop_spec (group_tbl s) nif a (igmp_group_list s)) as ([id|] & Ho & H).
  - intros id. apply Hg.
  - exists (Some id). split; [done|]. apply H.
  - exists None. split; [done|]. intros k x Hx. apply (H k x); [apply (gk_dom _ _ _ Hg); eauto|done].
Qed.
Lemma lookfor_found nif a s id g : igmp_ok s -> group_tbl s !! id = Some g -> key g = (nif, a) -> igmp_lookfor_group nif a s = Ok (Some id).
Proof.
  intros Hok Hid Hk. destruct (lookfor_spec nif a s Hok) as ([k|] & -> & H); [|by destruct (H id g Hid)].
  destruct H as (x & Hx & Hkx). do 2 f_equal. apply (gk_unique _ _ _ (ik_groups _ Hok) k id x g); congruence.
Qed.
Lemma group_fresh_none s : group_tbl s !! group_fresh s = None.
Proof.
  destruct (group_tbl s !! group_fresh s) eqn:E; [|done]. exfalso.
  assert (is_Some (group_tbl s !! group_fresh s)) as H by eauto. apply map_max_ge in H. unfold group_fresh in H. lia.
Qed.
Lemma new_group s s' nif a g : igmp_ok s -> inet_ok (ig_inet s') -> ig_ifs s' = ig_ifs s ->
  group_tbl s' = <[group_fresh s := g]> (group_tbl s) -> igmp_group_list s' = group_fresh s :: igmp_group_list s ->
  (forall k x, group_tbl s !! k = Some x -> key x <> (nif, a)) -> key g = (nif, a) -> group_ok (ig_ifs s) g -> igmp_ok s'.
Proof.
  intros [_ Hg] Hi Hifs Ht Hl Hno Hk Hgok. split; [done|]. rewrite Hifs, Ht, Hl. apply groups_new; [done|apply group_fresh_none|done|].
  intros k x Hx. rewrite Hk. by apply (Hno k).
Qed.
Lemma remove_ok id s : igmp_ok s -> id ∈ igmp_group_list s ->
  exists s', igmp_remove_group id s = (ERR_OK, s') /\ igmp_ok s' /\ ig_inet s' = ig_inet s /\ ig_log s' = ig_log s.
Proof.
  intros [Hi Hg] Hid. unfold igmp_remove_group. rewrite bool_decide_true by done. eexists. split; [done|]. split; [|done]. split; [done|].
  apply (groups_del _ _ _ id (unlink id (igmp_group_list s))) in Hg; [done| |apply unlink_NoDup, Hg].
  intros x. pose proof (gk_nodup _ _ _ Hg) as Hnd. pose proof (unlink_gone id _ Hnd) as Hgone. pose proof (unlink_Permutation id _ Hid) as Hp. split.
  - intros Hx. split; [by apply unlink_subset in Hx|]. by intros ->.
  - intros [Hx Hne]. rewrite Hp, elem_of_cons in Hx. by destruct Hx.
Qed.

(** ** Every operation *)
Lemma igmp_start_ok nif s : igmp_ok s -> is_Some (ig_ifs s !! nif) ->
  exists e s', igmp_start mac_filter nif s = Ok (e, s') /\ igmp_ok s' /\ ig_ifs s' = ig_ifs s.
Proof.
  intros Hok Hif. unfold igmp_start, igmp_lookup_group. destruct (lookfor_spec nif allsystems s Hok) as ([id|] & -> & H); cbn [res_bind].
  - destruct H as (g & Hid & Hk). rewrite (get_group_ok s id g Hid). cbn [res_bind]. eexists _, _. split; [done|].
    destruct (gk_group _ _ _ (ik_groups _ Hok) id g Hid) as (Hg1 & Hg2 & Hg3 & Hg5 & Hg6). split.
    + apply mac_filter_ok. apply (put_ok s id g); [done..|]. unfold group_ok. cbn. pose proof (u8_range (gr_use g + 1)).
      split_and!; try done; try lia; try by right.
    + unfold ig_ifs. by destruct (mac_filter_same nif allsystems IGMP_ADD_MAC_FILTER (put_group id (g <| group_state := IGMP_GROUP_IDLE_MEMBER |> <| gr_use := u8 (gr_use g + 1) |>) s)) as (-> & _).
  - destruct (_ <? MEMP_NUM_IGMP_GROUP); cbn [res_bind]; [|by eexists _, _].
    unfold get_group. cbn [put_group group_tbl set_field set_igmp_group_list set_group_tbl].
    rewrite lookup_insert_eq. cbn [of_option res_bind]. eexists _, _. split; [done|].
    match goal with |- igmp_ok (call_mac_filter _ _ _ _ ?x) /\ _ => set (s1 := x) end.
    destruct (mac_filter_same nif allsystems IGMP_ADD_MAC_FILTER s1) as (Hi & _). split; [|by unfold ig_ifs; rewrite Hi].
    apply mac_filter_ok. apply (new_group s s1 nif allsystems (mk_group nif allsystems 0 IGMP_GROUP_IDLE_MEMBER 0 1)); try done.
    + apply Hok.
    + unfold s1. cbn. by rewrite insert_insert_eq.
    + unfold group_ok. cbn. split_and!; try done; try lia; by constructor.
Qed.
Lemma stop_loop_ok nif l : forall kept s, inet_ok (ig_inet s) -> groups_ok (ig_ifs s) (group_tbl s) (kept ++ l) ->
  exists s', stop_loop mac_filter l kept nif s = Ok s' /\ igmp_ok s' /\ ig_ifs s' = ig_ifs s.
Proof.
  induction l as [|id l IH]; intros kept s Hi Hg; cbn [stop_loop].
  - rewrite app_nil_r in Hg. eexists. split; [done|]. by split.
  - destruct (proj1 (gk_dom _ _ _ Hg id)) as [g Hid]; [apply elem_of_app; right; by left|].
    rewrite (get_group_ok s id g Hid). cbn [res_bind]. case_match.
    + destruct (mac_filter_same nif (group_address g) IGMP_DEL_MAC_FILTER s) as (M1 & M2 & M3 & M4).
      set (s1 := call_mac_filter _ _ _ _ _) in *. destruct (IH kept (free_group id s1)) as (s' & Hs' & Hok' & Hf').
      * unfold free_group. cbn. by rewrite M1.
      * unfold ig_ifs, free_group. cbn. rewrite M1, M2. apply (groups_del _ _ (kept ++ id :: l)); [done| |].
        -- pose proof (gk_nodup _ _ _ Hg) as Hnd. intros x. rewrite !elem_of_app, elem_of_cons.
           apply NoDup_app in Hnd as (_ & Hni1 & [Hni2 _]%NoDup_cons). split; [|naive_solver].
           intros Hx. split; [naive_solver|]. intros ->. destruct Hx as [Hx|Hx]; [|done]. apply (Hni1 id Hx). by left.
        -- pose proof (gk_nodup _ _ _ Hg) as Hnd. rewrite <- Permutation_middle in Hnd. by apply NoDup_cons in Hnd as [_ ?].
      * exists s'. split; [done|]. split; [done|]. rewrite Hf'. unfold ig_ifs, free_group. cbn. by rewrite M1.
    + apply IH; [done|]. by rewrite <- app_assoc.
Qed.
Lemma delaying_quick id t s : igmp_ok s -> is_Some (group_tbl s !! id) -> t = 0 \/ t = 1 ->
  igmp_delaying_member id t s = Ok s \/ igmp_delaying_member id t s = Err DivByZero.
Proof.
  intros Hok [g Hid] Ht. unfold igmp_delaying_member. rewrite (get_group_ok s id g Hid). cbn [res_bind].
  destruct (must_delay g t); [|by left]. right. unfold igmp_start_timer. rewrite (get_group_ok s id g Hid). by destruct Ht as [-> | ->].
Qed.
Lemma delay_groups_quick l sel t s : igmp_ok s -> (forall id, id ∈ l -> is_Some (group_tbl s !! id)) -> t = 0 \/ t = 1 ->
  delay_groups l sel t s = Ok s \/ delay_groups l sel t s = Err DivByZero.
Proof.
  intros Hok Hall Ht. induction l as [|id l IH]; cbn [delay_groups]; [by left|].
  destruct (Hall id) as [g Hid]; [by left|]. rewrite (get_group_ok s id g Hid). cbn [res_bind].
  assert (Ha : (if sel g then igmp_delaying_member id t s else Ok s) = Ok s \/ (if sel g then igmp_delaying_member id t s else Ok s) = Err DivByZero).
  { destruct (sel g); [|by left]. apply delaying_quick; eauto. }
  destruct Ha as [-> | ->]; cbn [res_bind]; [|by right]. apply IH. intros k Hk. apply Hall. by right.
Qed.
Definition ig_fine s (r : res (igmp A)) : Prop := exists s', r = Ok s' /\ igmp_ok s' /\ ig_ifs s' = ig_ifs s.
Lemma asked_fine l sel t s s' : asked l sel t s s' -> ig_fine s (Ok s').
Proof. intros [O I _ _ _]. exists s'. split; [done|]. split; [done|]. unfold ig_ifs. by rewrite I. Qed.
Lemma query_ok m a dest nif id s : igmp_ok s -> is_Some (group_tbl s !! id) -> 0 <= m < 256 ->
  ig_fine s (igmp_query m a dest nif id s) \/ m <= 1 /\ igmp_query m a dest nif id s = Err DivByZero.
Proof.
  intros Hok Hid Hm. assert (Hsame : ig_fine s (Ok s)) by (by exists s). unfold igmp_query.
  destruct ((dest =? allsystems) && (a =? IPADDR_ANY)).
  - destruct (m =? 0) eqn:E0.
    { left. destruct (delay_all (fun g => Nat.eqb (gr_netif g) nif && negb (group_address g =? allsystems)) IGMP_V1_DELAYING_MEMBER_TMR s) as (s' & -> & Ha);
        [apply not_allsystems|done|done|by eapply asked_fine]. }
    apply Z.eqb_neq in E0. destruct (decide (m = 1)) as [->|Hm1].
    + destruct (delay_groups_quick (igmp_group_list s) (fun g => Nat.eqb (gr_netif g) nif && negb (group_address g =? allsystems)) 1 s) as [-> | ->];
        [done|intros k; apply (gk_dom _ _ _ (ik_groups _ Hok))|by right|by left|right; by split].
    + left. destruct (delay_all (fun g => Nat.eqb (gr_netif g) nif && negb (group_address g =? allsystems)) m s) as (s' & -> & Ha);
        [apply not_allsystems|lia|done|by eapply asked_fine].
  - destruct (negb (a =? IPADDR_ANY)); [|by left].
    assert (Ho : exists o, (if dest =? allsystems then igmp_lookfor_group nif a s else Ok (Some id)) = Ok o /\
      match o with Some k => is_Some (group_tbl s !! k) | None => True end).
    { destruct (dest =? allsystems); [|by exists (Some id)]. destruct (lookfor_spec nif a s Hok) as ([k|] & -> & H); eexists; split; try done.
      destruct H as (x & Hx & _). eauto. }
    destruct Ho as ([k|] & -> & Hk); cbn [res_bind]; [|by left]. destruct (decide (m <= 1)).
    + destruct (delaying_quick k m s Hok Hk) as [-> | ->]; [lia|by left|right; by split].
    + left. destruct Hk as [x Hx]. destruct (delaying_spec k m x s Hok Hx) as (s' & g' & -> & Hok' & [Q1 _ _ _] & _); [lia|].
      exists s'. split; [done|]. split; [done|]. unfold ig_ifs. by rewrite Q1.
Qed.
Lemma report_ok id s : igmp_ok s -> is_Some (group_tbl s !! id) -> ig_fine s (igmp_report id s).
Proof.
  intros Hok [g Hid]. unfold igmp_report. rewrite (get_group_ok s id g Hid). cbn [res_bind]. case_match; [|by exists s].
  eexists. split; [done|]. split; [|done]. destruct (gk_group _ _ _ (ik_groups _ Hok) id g Hid) as (Hg1 & Hg2 & Hg3 & Hg5 & Hg6).
  apply (put_ok s id g); [done..|]. unfold group_ok. cbn. split_and!; try done; try lia; try by right.
Qed.
Lemma free_fine s r : ig_fine s r -> ig_fine s (res_bind r (fun s => Ok (ig_free s))).
Proof. intros (s' & -> & [Hi Hg] & Hf). eexists. split; [done|]. split; [|done]. split; [by apply log_ok|done]. Qed.
(** The IGMP message behind the IP header. *)
Definition igmp_payload (h : ip_hdr) p : list Z := drop (Z.to_nat (iph_hl h * 4)) (nb_first p).
Definition quick_query (h : ip_hdr) p : Prop :=
  exists m rest, igmp_payload h p = IGMP_MEMB_QUERY :: m :: rest /\ m <= 1.
Lemma nb_msg q bs : nb_first q = bs -> 8 <= zlen bs ->
  exists t m c1 c2 a b c d rest, bs = [t; m; c1; c2; a; b; c; d] ++ rest /\ nb_u8 0 q = Ok t /\ nb_u8 1 q = Ok m /\ nb_addr 4 q = Ok (load_le32 a b c d).
Proof.
  intros Hq Hl. destruct bs as [|t [|m [|c1 [|c2 [|a [|b [|c [|d rest]]]]]]]]; try (unfold zlen in Hl; simpl in Hl; lia).
  eexists t, m, c1, c2, a, b, c, d, rest. split; [done|]. unfold nb_u8, nb_addr, nb_read, nb_len. rewrite Hq.
  assert (H : forall k, k <= 8 -> (k <=? zlen ([t; m; c1; c2; a; b; c; d] ++ rest)) = true) by (intros k Hk; apply Z.leb_le; rewrite zlen_app; pose proof (zlen_nonneg rest); change (zlen [t; m; c1; c2; a; b; c; d]) with 8; lia).
  cbn [app] in H.  rewrite !H by lia. done.
Qed.
(** The packet ends inside its IP header. *)
Definition short_packet (h : ip_hdr) p : Prop := nb_len p < iph_hl h * 4.
Lemma input_header h p : 0 <= iph_hl h ->
  short_packet h p /\ nb_header (- (iph_hl h * 4)) p = Err AssertFailed \/
  exists q, nb_header (- (iph_hl h * 4)) p = Ok (Some q) /\ nb_first q = igmp_payload h p.
Proof.
  intros Hhl. unfold short_packet, igmp_payload. destruct (Z.eq_dec (iph_hl h) 0) as [->|Hne]; [by right; exists p|].
  destruct (Z.lt_ge_cases (nb_len p) (iph_hl h * 4)).
  - left. split; [done|]. unfold nb_header. rewrite (proj2 (Z.eqb_neq _ 0)), (proj2 (Z.ltb_lt _ 0)), (proj2 (Z.leb_gt _ (nb_len p))) by lia. done.
  - right. destruct (nb_hide_eq (iph_hl h * 4) p) as (q & Hq & Hf & _); [lia|]. by exists q.
Qed.
Lemma input_ok h p nif dest s : igmp_ok s -> 0 <= iph_hl h -> bytes_ok (nb_first p) ->
  ig_fine s (igmp_input h p nif dest s) \/ quick_query h p /\ igmp_input h p nif dest s = Err DivByZero \/
  short_packet h p /\ igmp_input h p nif dest s = Err AssertFailed.
Proof.
  intros Hok Hhl Hby. unfold igmp_input. destruct (input_header h p Hhl) as [[Hs ->]|(q & -> & Hf)]; [by right; right|]. cbn [res_bind].
  assert (Hfree : ig_fine s (Ok (ig_free s))) by (apply (free_fine s (Ok s)); by exists s).
  destruct (nb_len q <? IGMP_MINLEN) eqn:El; [by left|]. apply Z.ltb_ge in El. destruct (negb _); [by left|].
  destruct (lookfor_spec nif dest s Hok) as ([id|] & -> & Hl); cbn [res_bind]; [|by left]. destruct Hl as (g & Hid & _).
  destruct (nb_msg q (igmp_payload h p) Hf) as (t & m & c1 & c2 & a & b & c & d & rest & Hp & -> & -> & ->); [unfold nb_len in El; by rewrite Hf in El|].
  cbn [res_bind]. assert (Hm : 0 <= m < 256).
  { assert (Hpl : bytes_ok (igmp_payload h p)) by (by apply Forall_drop). rewrite Hp in Hpl.
    apply bytes_ok_app in Hpl as [Hpl _]. unfold bytes_ok in Hpl. rewrite !Forall_cons in Hpl. apply Hpl. }
  destruct (t =? IGMP_MEMB_QUERY) eqn:Et.
  - apply Z.eqb_eq in Et. destruct (query_ok m (load_le32 a b c d) dest nif id s Hok) as [Hr|[Hm1 ->]]; [eauto|done| |].
    + left. by apply free_fine.
    + right. left. split; [|done]. exists m, ([c1; c2; a; b; c; d] ++ rest). by rewrite Hp, Et.
  - left. apply free_fine. destruct (t =? IGMP_V2_MEMB_REPORT); [apply report_ok; eauto|by exists s].
Qed.
Lemma send_fine id type g s : igmp_ok s -> group_tbl s !! id = Some g -> ig_fine s (igmp_send id type s).
Proof. intros Hok Hid. destruct (send_ok id type g s Hok Hid) as (sent & s' & -> & Hok' & Hs & _). exists s'. split; [done|]. split; [done|]. apply Hs. Qed.
Lemma join_if_ok nif a s : igmp_ok s -> is_Some (ig_ifs s !! nif) -> ip_addr_ismulticast a = true ->
  exists ok s', join_if mac_filter nif a s = Ok (ok, s') /\ igmp_ok s' /\ ig_ifs s' = ig_ifs s.
Proof.
  intros Hok Hif Hmc. unfold join_if, igmp_lookup_group. destruct (lookfor_spec nif a s Hok) as ([id|] & -> & H); cbn [res_bind].
  - destruct H as (g & Hid & Hk). rewrite (get_group_ok s id g Hid). cbn [res_bind].
    destruct (gk_group _ _ _ (ik_groups _ Hok) id g Hid) as (Hg1 & Hg2 & Hg3 & Hg5 & Hg6).
    assert (Hst : negb (group_state g =? IGMP_GROUP_NON_MEMBER) = true) by (by destruct Hg2 as [-> | ->]). rewrite Hst. cbn [res_bind].
    rewrite (get_group_ok s id g Hid). cbn [res_bind]. eexists _, _. split; [done|]. split; [|done].
    apply (put_ok s id g); [done..|]. unfold group_ok. cbn. pose proof (u8_range (gr_use g + 1)). split_and!; try done; lia.
  - destruct (_ <? MEMP_NUM_IGMP_GROUP); cbn [res_bind]; [|by eexists _, _]. set (id := group_fresh s).
    set (g := mk_group nif a 0 IGMP_GROUP_NON_MEMBER 0 0). set (s1 := put_group id g _).
    assert (Hid1 : group_tbl s1 !! id = Some g) by apply lookup_insert_eq. rewrite (get_group_ok s1 id g Hid1). cbn [res_bind].
    change (negb (group_state g =? IGMP_GROUP_NON_MEMBER)) with false. change (gr_use g =? 0) with true. cbv iota.
    destruct (mac_filter_same nif a IGMP_ADD_MAC_FILTER s1) as (M1 & M2 & M3 & M4). set (s2 := call_mac_filter _ _ _ _ _) in *.
    destruct (send_spec id IGMP_V2_MEMB_REPORT g s2) as (sent & s3 & -> & [S1 S2 S3 S4 S5 S6] & Ht3);
      [rewrite M1; apply Hok|by rewrite M2|unfold ig_ifs; by rewrite M1|]. cbn [res_bind].
    assert (Hg3 : exists f, group_tbl s3 = <[id := mk_group nif a f IGMP_GROUP_NON_MEMBER 0 0]> (group_tbl s)).
    { rewrite Ht3, M2. destruct (sent && _); [exists 1|exists 0]; unfold s1; cbn; by rewrite ?insert_insert_eq. }
    destruct Hg3 as [f Hg3]. destruct (start_timer_spec id IGMP_JOIN_DELAYING_MEMBER_TMR (mk_group nif a f IGMP_GROUP_NON_MEMBER 0 0) s3)
      as (r & s4 & -> & Hr & Ht4 & [Q1 Q2 Q3 _]); [by rewrite Hg3; apply lookup_insert_eq|done..|]. cbn [res_bind].
    unfold set_state, get_group. rewrite Ht4, lookup_insert_eq. cbn [of_option res_bind put_group group_tbl set_field set_group_tbl].
    rewrite lookup_insert_eq. cbn [of_option res_bind]. eexists _, _. split; [done|].
    match goal with |- igmp_ok ?x /\ _ => set (s5 := x) end.
    assert (Hi5 : ig_ifs s5 = ig_ifs s). { change (ig_ifs s5) with (ifs (ig_inet s4)). rewrite Q1. change (ifs (ig_inet s3)) with (ig_ifs s3). rewrite S2. unfold ig_ifs. by rewrite M1. }
    split; [|done]. apply (new_group s s5 nif a (mk_group nif a f IGMP_GROUP_DELAYING_MEMBER r 1)); try done.
    + change (ig_inet s5) with (ig_inet s4). rewrite Q1. done.
    + unfold s5. cbn. rewrite Ht4, Hg3, !insert_insert_eq. done.
    + change (igmp_group_list s5) with (igmp_group_list s4). by rewrite Q2, S3, M3.
    + unfold group_ok. cbn. change IGMP_JOIN_DELAYING_MEMBER_TMR with 5 in Hr. split_and!; try done; try lia; by constructor.
Qed.
Lemma join_loop_ok l ifaddr a err : forall s, igmp_ok s -> Forall (fun nif => is_Some (ig_ifs s !! nif)) l -> ip_addr_ismulticast a = true ->
  exists e s', join_loop mac_filter l ifaddr a err s = Ok (e, s') /\ igmp_ok s' /\ ig_ifs s' = ig_ifs s.
Proof.
  revert err. induction l as [|nif l IH]; intros err s Hok Hl Hmc; cbn [join_loop]; [by exists err, s|].
  apply Forall_cons in Hl as [[x Hx] Hl]. rewrite (inet_if_ok nif x _ Hx). cbn [res_bind]. destruct (takes_part _ _); [|by apply IH].
  destruct (join_if_ok nif a s Hok) as (ok & s1 & -> & Hok1 & Hf1); [eauto|done|]. cbn [res_bind]. destruct ok; [|by eexists _, _].
  rewrite <- Hf1 in Hl. rewrite <- Hf1. by apply IH.
Qed.
Lemma leave_if_ok nif a s : igmp_ok s -> exists ok s', leave_if mac_filter nif a s = Ok (ok, s') /\ igmp_ok s' /\ ig_ifs s' = ig_ifs s.
Proof.
  intros Hok. unfold leave_if. destruct (lookfor_spec nif a s Hok) as ([id|] & -> & H); cbn [res_bind]; [|by eexists _, _].
  destruct H as (g & Hid & Hk). rewrite (get_group_ok s id g Hid). cbn [res_bind].
  destruct (gk_group _ _ _ (ik_groups _ Hok) id g Hid) as (Hg1 & Hg2 & Hg3 & Hg5 & Hg6). destruct (gr_use g <=? 1) eqn:Eu.
  - assert (Hs : exists s1, (if negb (last_reporter_flag g =? 0) then igmp_send id IGMP_LEAVE_GROUP s else Ok s) = Ok s1 /\ igmp_ok s1 /\ ig_ifs s1 = ig_ifs s /\
      igmp_group_list s1 = igmp_group_list s).
    { destruct (negb _); [|by exists s]. destruct (send_ok id IGMP_LEAVE_GROUP g s Hok Hid) as (sent & s1 & -> & Hok1 & [] & _). by exists s1. }
    destruct Hs as (s1 & -> & Hok1 & Hf1 & Hl1). cbn [res_bind].
    destruct (mac_filter_same nif a IGMP_DEL_MAC_FILTER s1) as (M1 & M2 & M3 & M4). pose proof (mac_filter_ok nif a IGMP_DEL_MAC_FILTER s1 Hok1) as Hok2.
    set (s2 := call_mac_filter _ _ _ _ _) in *. destruct (remove_ok id s2 Hok2) as (s3 & -> & Hok3 & Hi3 & _).
    { rewrite M3, Hl1. apply (gk_dom _ _ _ (ik_groups _ Hok)). eauto. }
    eexists _, _. split; [done|]. split; [done|]. cbn. unfold ig_ifs. rewrite Hi3, M1. exact Hf1.
  - eexists _, _. split; [done|]. split; [|done]. apply Z.leb_gt in Eu. apply (put_ok s id g); [done..|]. unfold group_ok. cbn. split_and!; try done; lia.
Qed.
Lemma leave_loop_ok l ifaddr a err : forall s, igmp_ok s -> Forall (fun nif => is_Some (ig_ifs s !! nif)) l ->
  exists e s', leave_loop mac_filter l ifaddr a err s = Ok (e, s') /\ igmp_ok s' /\ ig_ifs s' = ig_ifs s.
Proof.
  revert err. induction l as [|nif l IH]; intros err s Hok Hl; cbn [leave_loop]; [by exists err, s|].
  apply Forall_cons in Hl as [[x Hx] Hl]. rewrite (inet_if_ok nif x _ Hx). cbn [res_bind]. destruct (takes_part _ _); [|by apply IH].
  destruct (leave_if_ok nif a s Hok) as (ok & s1 & -> & Hok1 & Hf1). cbn [res_bind]. rewrite <- Hf1 in Hl. rewrite <- Hf1. by apply IH.
Qed.
Lemma report_groups_ok nif s : igmp_ok s -> ig_fine s (igmp_report_groups nif s).
Proof.
  intros Hok. unfold igmp_report_groups.
  destruct (delay_all (fun g => Nat.eqb (gr_netif g) nif) IGMP_JOIN_DELAYING_MEMBER_TMR s) as (s' & -> & Ha); [apply on_netif|done|done|by eapply asked_fine].
Qed.
Lemma tmr_ok s : igmp_ok s -> ig_fine s (igmp_tmr s).
Proof. intros Hok. destruct (tmr_spec s Hok) as (s' & ev & -> & []). by exists s'. Qed.

(** ** The operations together *)
Inductive igmp_op :=
| OpStart (nif : nat) | OpStop (nif : nat) | OpReport (nif : nat) | OpInput (h : ip_hdr) (p : nbuf) (nif : nat) (dest : Z)
| OpJoin (ifaddr a : Z) | OpLeave (ifaddr a : Z) | OpTmr.
(** The error codes are dropped. *)
Definition igmp_run (op : igmp_op) s : res (igmp A) :=
  match op with
  | OpStart nif => let! (_, s) := igmp_start mac_filter nif s in Ok s
  | OpStop nif => let! (_, s) := igmp_stop mac_filter nif s in Ok s
  | OpReport nif => igmp_report_groups nif s
  | OpInput h p nif dest => igmp_input h p nif dest s
  | OpJoin ifaddr a => let! (_, s) := igmp_joingroup mac_filter ifaddr a s in Ok s
  | OpLeave ifaddr a => let! (_, s) := igmp_leavegroup mac_filter ifaddr a s in Ok s
  | OpTmr => igmp_tmr s
  end.
Definition joinable (a : Z) : Prop := ip_addr_ismulticast a = true /\ a <> allsystems.
Definition op_ok (op : igmp_op) s : Prop :=
  match op with
  | OpStart nif => is_Some (ig_ifs s !! nif)
  | OpInput h p _ _ => 0 <= iph_hl h /\ bytes_ok (nb_first p)
  | _ => True
  end.
(** The calls that a check of their arguments aborts. *)
Definition op_aborts (op : igmp_op) : Prop :=
  match op with
  | OpInput h p _ _ => short_packet h p
  | OpJoin _ a | OpLeave _ a => ~ joinable a
  | _ => False
  end.
Lemma joinable_asserts a : joinable a -> ip_addr_ismulticast a = true /\ negb (a =? allsystems) = true.
Proof. intros [H1 H2]. split; [done|]. by rewrite (proj2 (Z.eqb_neq _ _)). Qed.
Lemma joinable_not {B} a (r : res B) : ~ joinable a ->
  (assert! ip_addr_ismulticast a in assert! negb (a =? allsystems) in r) = Err AssertFailed.
Proof.
  intros Hn. destruct (ip_addr_ismulticast a) eqn:E1; [|done]. destruct (Z.eqb_spec a allsystems) as [E2|E2]; [done|]. by destruct Hn.
Qed.

(** C27. The operations of IGMP keep the groups well-formed: the list
    holds each group once, no two groups have the same interface and address,
    every group is idle or delaying with its timer below 256, is that of all
    systems or has a multicast address, and its interface exists. This holds
    for starting an interface that exists and stopping one, joining and
    leaving a group on any interfaces, the timer, reports on request, and every packet
    of bytes, of any length, with any header length and whatever it says. Each of
    them returns, with two exceptions: a query with a maximum response
    time of 0 or 1 can end in a division by zero; and a failed check aborts exactly
    when a packet ends inside its IP header, or when the group to join or to leave is
    no multicast address or that of all systems. *)
Theorem igmp_groups_invariant (op : igmp_op) s : igmp_ok s -> op_ok op s ->
  (op_aborts op -> igmp_run op s = Err AssertFailed) /\
  (~ op_aborts op -> (exists s', igmp_run op s = Ok s' /\ igmp_ok s' /\ ig_ifs s' = ig_ifs s) \/
    (exists h p nif dest, op = OpInput h p nif dest /\ quick_query h p /\ igmp_run op s = Err DivByZero)).
Proof.
  intros Hok Hop. destruct op as [nif|nif|nif|h p nif dest|ifaddr a|ifaddr a|]; cbn in *; (split; [intros Hab; try done|intros Hna]).
  - left. destruct (igmp_start_ok nif s Hok Hop) as (e & s' & -> & ?). by exists s'.
  - left. unfold igmp_stop. destruct (stop_loop_ok nif (igmp_group_list s) [] s) as (s' & -> & ?); [apply Hok..|]. by exists s'.
  - left. by apply report_groups_ok.
  - unfold igmp_input. destruct (input_header h p (proj1 Hop)) as [[_ ->]|(q & Hq & _)]; [done|]. unfold short_packet in Hab.
    unfold nb_header in Hq. pose proof (zlen_nonneg (nb_first p)). unfold nb_len in *.
    rewrite (proj2 (Z.eqb_neq _ 0)), (proj2 (Z.ltb_lt _ 0)), (proj2 (Z.leb_gt _ (zlen (nb_first p)))) in Hq by lia. done.
  - destruct Hop as [Hhl Hby].
    destruct (input_ok h p nif dest s Hok Hhl Hby) as [?|[[? ?]|[? _]]]; [by left|right|done]. by exists h, p, nif, dest.
  - unfold igmp_joingroup. by rewrite joinable_not.
  - left. unfold igmp_joingroup. destruct (joinable_asserts a) as [-> ->]; [unfold joinable in *; by apply dec_stable|]. cbn [lwip_assert res_bind].
    destruct (join_loop_ok (netif_list (in_stack (ig_inet s))) ifaddr a ERR_VAL s Hok) as (e & s' & -> & ?); [apply Hok|unfold joinable in *; apply dec_stable in Hna; apply Hna|]. by exists s'.
  - unfold igmp_leavegroup. by rewrite joinable_not.
  - left. unfold igmp_leavegroup. destruct (joinable_asserts a) as [-> ->]; [unfold joinable in *; by apply dec_stable|]. cbn [lwip_assert res_bind].
    destruct (leave_loop_ok (netif_list (in_stack (ig_inet s))) ifaddr a ERR_VAL s Hok) as (e & s' & -> & ?); [apply Hok|]. by exists s'.
  - left. by apply tmr_ok.
Qed.
End IgmpSafe.

(** ** A host with two groups *)
Definition grp : Z := load_le32 239 1 2 3.
Definition idle_group (a use : Z) : igmp_group := mk_group 0 a 0 IGMP_GROUP_IDLE_MEMBER 0 use.
Definition demo_use (use : Z) : igmp unit :=
  mk_igmp inet_init (<[2%positive := idle_group grp use]> (<[1%positive := idle_group allsystems 1]> ∅)) [2%positive; 1%positive] [7; 3] [].
Definition demo : igmp unit := demo_use 1.
Lemma demo_ok : igmp_ok demo.
Proof.
  split; [exact inet_init_ok|]. change (ig_ifs demo) with (sk_ifaces (in_stack inet_init)). apply groups_new.
  - apply (groups_new _ ∅ []).
    + split; [constructor|by intros id; rewrite lookup_empty, elem_of_nil; split; [|intros [? ?]]|by intros id g; rewrite lookup_empty|by intros id id' g g'; rewrite lookup_empty].
    + by rewrite lookup_empty.
    + unfold group_ok. cbn. split_and!; (lia || (by eexists) || (by left) || (by right)).
    + intros k x. by rewrite lookup_empty.
  - by rewrite lookup_insert_ne, lookup_empty.
  - unfold group_ok. cbn. split_and!; (lia || (by eexists) || (by left) || (by right)).
  - intros k x. rewrite lookup_insert_Some, lookup_empty. by intros [[<- <-]|[_ ?]].
Qed.
(** A packet of 10 bytes with a header length of 24 aborts. *)
Example short_input_aborts :
  igmp_input (mk_iphdr 6 0 10 5 0 1 IP_PROTO_IGMP 0 allsystems) (mk_nbuf [] (repeat 0 10) [] true false 0) 0 allsystems demo = Err AssertFailed.
Proof. by vm_compute. Qed.
Lemma igmp_groups_invariant_witness : (exists s', igmp_run (fun _ => false) OpTmr demo = Ok s' /\ igmp_ok s' /\ ig_ifs s' = ig_ifs demo) \/
  (exists h p nif dest, OpTmr = OpInput h p nif dest /\ quick_query h p /\ igmp_run (fun _ => false) OpTmr demo = Err DivByZero).
Proof. exact (proj2 (igmp_groups_invariant (fun _ => false) OpTmr demo demo_ok I) (fun H => H)). Defined.
