(* ===== verification/IgmpLive.v ===== *)
(** * IGMP: a query is answered in time

    The response to a general query through igmp_input, igmp_tmr and igmp_send,
    and what a report of another member does; the division by zero. *)
From S2P Require Import Prelude ByteOrder IpAddr Checksum Ip Tcp TcpOut TcpIn TcpWorld TcpProcess TcpShape TcpCalls TcpScenarios Etharp EtharpTable Netif IpFrag Nbuf Inet Icmp Udp Raw TcpWire IpInput InetHdr InetSafe InetSend InetDemo Igmp IgmpSafe.

Section IgmpLive.
Context {A : Type}.
Implicit Types (s : igmp A) (g : igmp_group) (id : positive) (nif : nat) (p : nbuf).

Fixpoint igmp_ticks (n : nat) s : res (igmp A) :=
  match n with O => Ok s | S n => let! s := igmp_tmr s in igmp_ticks n s end.

(** A delaying member reports when its timer has run down. *)
Lemma ticks_report t : forall s id g, igmp_ok s -> in_allocs (ig_inet s) = [] -> group_tbl s !! id = Some g ->
  group_state g = IGMP_GROUP_DELAYING_MEMBER -> gr_timer g = Z.of_nat (S t) ->
  exists s' ev, igmp_ticks (S t) s = Ok s' /\ igmp_ok s' /\ ig_log s' = ig_log s ++ ev /\ report_of g ∈ ev.
Proof.
  induction t as [|t IH]; intros s id g Hok Hal Hid Hst Ht; cbn [igmp_ticks];
    destruct (tmr_spec s Hok) as (s1 & ev & -> & [O1 I1 L1 G1 A1 R1 W1 N1]); cbn [res_bind].
  - exists s1, ev. split_and!; [done..|]. apply (N1 Hal id); [|done..]. apply (gk_dom _ _ _ (ik_groups _ Hok)). eauto.
  - destruct (R1 id g Hid) as (g1 & Hg1 & [Ka Sa] & Ht1).
    rewrite bool_decide_true in Ht1 by (apply (gk_dom _ _ _ (ik_groups _ Hok)); eauto).
    destruct (IH s1 id g1 O1 (A1 Hal) Hg1) as (s2 & ev2 & Hs2 & O2 & G2 & Hin); [congruence|lia|].
    exists s2, (ev ++ ev2). cbn [igmp_ticks] in Hs2. split_and!; [done..|by rewrite G2, G1, app_assoc|].
    apply elem_of_app. right. unfold report_of, key in *. by injection Ka as <- <-.
Qed.
(** A group whose timer is off, or has not run down yet, reports nothing. *)
Lemma ticks_quiet n : forall s id g, igmp_ok s -> group_tbl s !! id = Some g -> gr_timer g = 0 \/ Z.of_nat n < gr_timer g ->
  exists s' ev g', igmp_ticks n s = Ok s' /\ igmp_ok s' /\ ig_log s' = ig_log s ++ ev /\ report_of g ∉ ev /\
    group_tbl s' !! id = Some g' /\ aged g g'.
Proof.
  induction n as [|n IH]; intros s id g Hok Hid Ht; cbn [igmp_ticks].
  - exists s, [], g. split_and!; [done|done|by rewrite app_nil_r|by apply not_elem_of_nil|done|done].
  - destruct (tmr_spec s Hok) as (s1 & ev & -> & [O1 I1 L1 G1 A1 R1 W1 N1]); cbn [res_bind].
    destruct (R1 id g Hid) as (g1 & Hg1 & [Ka Sa] & Ht1).
    rewrite bool_decide_true in Ht1 by (apply (gk_dom _ _ _ (ik_groups _ Hok)); eauto).
    destruct (IH s1 id g1 O1 Hg1) as (s2 & ev2 & g2 & Hs2 & O2 & G2 & Hin & Hg2 & [Kb Sb]); [lia|].
    exists s2, (ev ++ ev2), g2. split_and!; [done..|by rewrite G2, G1, app_assoc| |done|split; congruence]. rewrite elem_of_app. intros [He|He].
    + destruct (W1 _ He) as (k & x & Hk & Hx & Htx & Hr). unfold report_of in Hr. injection Hr as E1 E2.
      assert (id = k) as -> by (apply (gk_unique _ _ _ (ik_groups _ Hok) id k g x); [done..|]; unfold key; congruence).
      rewrite Hid in Hx. injection Hx as <-. lia.
    + apply Hin. unfold report_of, key in *. by injection Ka as -> ->.
Qed.

(** A packet whose IP header is in its first pbuf. *)
Definition igmp_packet (h : ip_hdr) p : Prop := 0 < iph_hl h /\ iph_hl h * 4 <= nb_len p /\ bytes_ok (nb_first p).
(** The message of a packet that passes the checks. *)
Definition igmp_msg (h : ip_hdr) p (type maxresp a : Z) : Prop :=
  igmp_packet h p /\ inet_chksum 0 (igmp_payload h p) = 0 /\
  exists c1 c2 rest, igmp_payload h p = [type; maxresp; c1; c2] ++ store_le32 a ++ rest.
Lemma input_msg h p type maxresp a nif dest s k g : igmp_ok s -> igmp_msg h p type maxresp a -> is_u32 a ->
  group_tbl s !! k = Some g -> key g = (nif, dest) ->
  igmp_input h p nif dest s = let! s := (if type =? IGMP_MEMB_QUERY then igmp_query maxresp a dest nif k s
              else if type =? IGMP_V2_MEMB_REPORT then igmp_report k s else Ok s) in Ok (ig_free s).
Proof.
  intros Hok ((Hhl & Hlen & Hby) & Hck & c1 & c2 & rest & Hp) Ha Hk Hkey. unfold igmp_input.
  destruct (nb_hide_eq (iph_hl h * 4) p) as (q & Hq & Hf & _); [lia|]. rewrite Hq. cbn [res_bind]. fold (igmp_payload h p) in Hf.
  assert (Hl : 8 <= zlen (igmp_payload h p)) by (rewrite Hp, !zlen_app; pose proof (zlen_nonneg rest); change (zlen [type; maxresp; c1; c2]) with 4; change (zlen (store_le32 a)) with 4; lia).
  rewrite (proj2 (Z.ltb_ge (nb_len q) _)) by (unfold nb_len; rewrite Hf; done).
  rewrite Hf, Hck. cbn [negb Z.eqb]. rewrite (lookfor_found nif dest s k g Hok Hk Hkey). cbn [res_bind].
  destruct (nb_msg q (igmp_payload h p) Hf Hl) as (t & m & e1 & e2 & b0 & b1 & b2 & b3 & r & Hb & -> & -> & ->). cbn [res_bind].
  rewrite Hp in Hb. cbn in Hb. injection Hb as -> -> _ _ <- <- <- <- _. by rewrite load_store32.
Qed.

(** A report of another member silences a delaying group. *)
Lemma report_silences s id g hr pr n mr : igmp_ok s -> group_tbl s !! id = Some g -> group_state g = IGMP_GROUP_DELAYING_MEMBER ->
  igmp_msg hr pr IGMP_V2_MEMB_REPORT mr (group_address g) -> is_u32 (group_address g) ->
  exists s2 s3 ev, igmp_input hr pr (gr_netif g) (group_address g) s = Ok s2 /\
    igmp_ticks n s2 = Ok s3 /\ ig_log s3 = ig_log s ++ ev /\ report_of g ∉ ev.
Proof.
  intros Hok Hid Hst Hr Ha. rewrite (input_msg hr pr IGMP_V2_MEMB_REPORT mr (group_address g) (gr_netif g) (group_address g) s id g) by done.
  change (IGMP_V2_MEMB_REPORT =? IGMP_MEMB_QUERY) with false. rewrite Z.eqb_refl. cbv iota.
  unfold igmp_report. rewrite (get_group_ok s id g) by done. cbn [res_bind]. rewrite Hst, Z.eqb_refl. cbn [res_bind].
  set (g2 := g <| gr_timer := 0 |> <| group_state := IGMP_GROUP_IDLE_MEMBER |> <| last_reporter_flag := 0 |>).
  assert (Hok2 : igmp_ok (ig_free (put_group id g2 s))).
  { assert (Hp : igmp_ok (put_group id g2 s)).
    { apply (put_ok _ id g); [done..|]. destruct (gk_group _ _ _ (ik_groups _ Hok) id g Hid) as (Q1 & Q2 & Q3 & Q5 & Q6).
      unfold group_ok. cbn. split_and!; try done; try lia; by right. }
    destruct Hp as [Hp1 Hp2]. split; [by apply log_ok|done]. }
  destruct (ticks_quiet n (ig_free (put_group id g2 s)) id g2 Hok2) as (s3 & ev & _ & Hs3 & _ & Hl & Hin & _); [apply lookup_insert_eq|by left|].
  by eexists _, s3, ev.
Qed.

(** C26. A general query is answered in time. On an interface where IGMP was
    started, a general query with a maximum response time of [m] tenths of a
    second leaves every joined group of
    the interface but that of all systems delaying with a timer of at most [m]
    ticks (10 for an [m] of 0, version 1), whatever state it was in. With memory
    for it, the tick in which the timer ends
    gives a report for the group to IP; before that none is given; and if the report of
    another member is received before that, however many ticks have passed,
    none is given any more. This is for every [m] but 1, for which the
    division by [m - 1] fails ([query_divides_by_zero]). *)
Theorem igmp_query_answered s h p nif id g k gk m : igmp_ok s -> in_allocs (ig_inet s) = [] ->
  group_tbl s !! id = Some g -> gr_netif g = nif -> group_address g <> allsystems ->
  group_tbl s !! k = Some gk -> key gk = (nif, allsystems) ->
  igmp_msg h p IGMP_MEMB_QUERY m IPADDR_ANY -> is_u8 m -> m <> 1 ->
  exists s1 t, igmp_input h p nif allsystems s = Ok s1 /\ igmp_ok s1 /\ 1 <= Z.of_nat t <= (if m =? 0 then 10 else m) /\
    (exists s2 ev, igmp_ticks t s1 = Ok s2 /\ ig_log s2 = ig_log s ++ ev /\ report_of g ∈ ev) /\
    (forall u, (u < t)%nat -> exists su evu, igmp_ticks u s1 = Ok su /\ ig_log su = ig_log s ++ evu /\ report_of g ∉ evu /\
       forall hr pr n mr, igmp_msg hr pr IGMP_V2_MEMB_REPORT mr (group_address g) -> is_u32 (group_address g) ->
       exists s2 s3 ev, igmp_input hr pr nif (group_address g) su = Ok s2 /\
         igmp_ticks n s2 = Ok s3 /\ ig_log s3 = ig_log su ++ ev /\ report_of g ∉ ev).
Proof.
  intros Hok Hal Hid Hnif Hna Hk Hkey Hmsg Hm Hm1. rewrite (input_msg h p IGMP_MEMB_QUERY m IPADDR_ANY nif allsystems s k gk) by done.
  change (IGMP_MEMB_QUERY =? IGMP_MEMB_QUERY) with true. cbv iota. unfold igmp_query.
  rewrite Z.eqb_refl. change (IPADDR_ANY =? IPADDR_ANY) with true. cbn [andb]. change IGMP_V1_DELAYING_MEMBER_TMR with 10.
  set (limit := if m =? 0 then 10 else m). assert (Hlim : 2 <= limit < 256).
  { unfold limit, is_u8 in *. destruct (Z.eqb_spec m 0); lia. }
  destruct (delay_all (fun g => Nat.eqb (gr_netif g) nif && negb (group_address g =? allsystems)) limit s) as (s1 & -> & [O1 I1 L1 G1 R1]);
    [apply not_allsystems|done|done|]. cbn [res_bind].
  destruct (R1 id g Hid) as (g1 & Hg1 & K1 & D1 & _).
  destruct D1 as [Hst Ht]; [apply (gk_dom _ _ _ (ik_groups _ Hok)); eauto|by rewrite Hnif, Nat.eqb_refl, (proj2 (Z.eqb_neq _ _))|].
  assert (Hrep : report_of g1 = report_of g) by (unfold report_of; unfold key in K1; by injection K1 as -> ->).
  assert (Hok1 : igmp_ok (ig_free s1)) by (destruct O1; split; [by apply log_ok|done]).
  exists (ig_free s1), (Z.to_nat (gr_timer g1)). split; [done|]. split; [done|]. split; [lia|]. split.
  - destruct (ticks_report (Z.to_nat (gr_timer g1) - 1) (ig_free s1) id g1 Hok1) as (s2 & ev & Hs2 & _ & Hl & Hin);
      [cbn; by rewrite I1|done|done|lia|]. replace (S (Z.to_nat (gr_timer g1) - 1)) with (Z.to_nat (gr_timer g1)) in Hs2 by lia.
    exists s2, ev. rewrite Hrep in Hin. split_and!; [done| |done]. by rewrite Hl; cbn; rewrite G1.
  - intros u Hu. destruct (ticks_quiet u (ig_free s1) id g1 Hok1 Hg1) as (su & evu & gu & Hsu & Oku & Hlu & Hinu & Hgu & [Ku Su]); [right; lia|].
    assert (Hrepu : report_of gu = report_of g) by (rewrite <- Hrep; unfold report_of; unfold key in Ku; by injection Ku as -> ->).
    exists su, evu. split; [done|]. split; [by rewrite Hlu; cbn; rewrite G1|]. split; [by rewrite <- Hrep|].
    intros hr pr n mr Hr Ha. assert (Hkg : key gu = key g) by congruence. unfold key in Hkg. injection Hkg as Hn2 Ha2.
    destruct (report_silences su id gu hr pr n mr Oku Hgu) as (s2 & s3 & ev & H1 & H2 & H3 & H4); [congruence|by rewrite Ha2..|].
    rewrite Hn2, Ha2, Hnif in H1. rewrite Hrepu in H4. by exists s2, s3, ev.
Qed.
End IgmpLive.

(** ** Packets for the host of IgmpSafe.v *)
Definition query_hdr : ip_hdr := mk_iphdr 6 0 32 5 0 1 IP_PROTO_IGMP peer allsystems.
(** A message behind an IP header with the router alert option. *)
Definition igmp_from_peer (type m a : Z) : nbuf :=
  mk_nbuf [] (ip_hdr_bytes query_hdr 0 ++ router_alert ++ igmp_msg_bytes type m a (inet_chksum 0 (igmp_msg_bytes type m a 0))) [] true false 0.
(** A general query that asks for an answer within a tenth of a second, and a
    query for a group with a maximum of 0, divide by zero. *)
Example query_divides_by_zero :
  igmp_input query_hdr (igmp_from_peer IGMP_MEMB_QUERY 1 0) 0 allsystems demo = Err DivByZero /\
  igmp_input query_hdr (igmp_from_peer IGMP_MEMB_QUERY 0 grp) 0 grp demo = Err DivByZero.
Proof. by vm_compute. Qed.
(** igmp_report_groups asks the group of all systems as well, which then sends
    a report. *)
Example reports_allsystems : (let! s := igmp_report_groups 0 demo in let! s := igmp_ticks 4 s in Ok (ig_log s)) =
  Ok [IgmpMsg 0 IGMP_V2_MEMB_REPORT grp; IgmpMsg 0 IGMP_V2_MEMB_REPORT allsystems].
Proof. by vm_compute. Qed.
(** The 256th use wraps around: one leave then removes the group. *)
Example use_wraps : (let! (_, s) := join_if (fun _ => false) 0 grp (demo_use 255) in let! (_, s) := leave_if (fun _ => false) 0 grp s in
    Ok (igmp_group_list s)) = Ok [1%positive].
Proof. by vm_compute. Qed.

Lemma igmp_query_answered_witness : exists s1 t, igmp_input query_hdr (igmp_from_peer IGMP_MEMB_QUERY 20 0) 0 allsystems demo = Ok s1 /\ igmp_ok s1 /\
  1 <= Z.of_nat t <= 20 /\ (exists s2 ev, igmp_ticks t s1 = Ok s2 /\ ig_log s2 = ig_log demo ++ ev /\ report_of (idle_group grp 1) ∈ ev) /\
  (forall u, (u < t)%nat -> exists su evu, igmp_ticks u s1 = Ok su /\ ig_log su = ig_log demo ++ evu /\ report_of (idle_group grp 1) ∉ evu /\
     forall hr pr n mr, igmp_msg hr pr IGMP_V2_MEMB_REPORT mr grp -> is_u32 grp ->
     exists s2 s3 ev, igmp_input hr pr 0 grp su = Ok s2 /\ igmp_ticks n s2 = Ok s3 /\ ig_log s3 = ig_log su ++ ev /\ report_of (idle_group grp 1) ∉ ev).
Proof.
  apply (igmp_query_answered demo query_hdr (igmp_from_peer IGMP_MEMB_QUERY 20 0) 0 2%positive (idle_group grp 1) 1%positive (idle_group allsystems 1) 20).
  - exact demo_ok.
  - reflexivity.
  - reflexivity.
  - reflexivity.
  - vm_compute. discriminate.
  - reflexivity.
  - reflexivity.
  - split; [split; [vm_compute; reflexivity|split; [vm_compute; discriminate|]]|split; [vm_compute; reflexivity|]].
    + apply bytes_check. vm_compute. reflexivity.
    + eexists _, _, _. vm_compute. reflexivity.
  - by split.
  - discriminate.
Defined.
