(* ===== verification/Dns.v ===== *)
(** * The DNS resolver (src/src/lwip/core/dns.c)

    The table of names, the queries and the responses, on top of the UDP of
    Udp.v. A C string is the list of its bytes before the NUL; the [name] of an
    entry is the whole buffer. [found] is the callback of an entry, called with
    [callback_arg], the name and the address or NULL: the function [on_found],
    whose calls [dn_log] records. DNS_LOCAL_HOSTLIST_INIT is not defined. *)
From S2P Require Import Prelude ByteOrder IpAddr Checksum Ip Tcp TcpOut TcpIn TcpWorld Etharp Netif IpFrag Timers Nbuf Inet Icmp Udp Tcpip.

Definition DNS_TABLE_SIZE : Z := 16.
Definition DNS_MAX_NAME_LENGTH : Z := 256.
Definition DNS_MAX_SERVERS : Z := 2.
Definition DNS_MSG_SIZE : Z := 512.
Definition DNS_SERVER_PORT : Z := 53.
Definition DNS_MAX_RETRIES : Z := 4.
Definition DNS_MAX_TTL : Z := 604800.
Definition DNS_FLAG1_RESPONSE : Z := 0x80.
Definition DNS_FLAG1_RD : Z := 0x01.
Definition DNS_FLAG2_ERR_MASK : Z := 0x0f.
Definition SIZEOF_DNS_HDR : Z := 12.
Definition SIZEOF_DNS_QUERY : Z := 4.
Definition SIZEOF_DNS_ANSWER : Z := 10.
Definition DNS_RRTYPE_A : Z := 1.
Definition DNS_RRCLASS_IN : Z := 1.
Definition DNS_LOCAL_HOSTLIST_MAX_NAMELEN : Z := DNS_MAX_NAME_LENGTH.
Definition MEMP_NUM_LOCALHOSTLIST : Z := 1.
(** "208.67.222.222" *)
Definition DNS_SERVER_ADDRESS : Z := ipaddr_addr [50; 48; 56; 46; 54; 55; 46; 50; 50; 50; 46; 50; 50; 50].

Inductive dns_state := DNS_STATE_UNUSED | DNS_STATE_NEW | DNS_STATE_ASKING | DNS_STATE_DONE.
#[export] Instance dns_state_eq_dec : EqDecision dns_state.
Proof. solve_decision. Defined.

(** struct dns_table_entry; [de_found]: the callback is not NULL. *)
Record dns_table_entry := mk_dns_entry {
  de_state : dns_state; de_numdns : Z; de_tmr : Z; de_retries : Z; de_seqno : Z; de_err : Z; de_ttl : Z;
  de_name : list Z; de_ipaddr : Z; de_found : bool; de_arg : Z
}.
#[export] Instance dns_table_entry_eta : Eta dns_table_entry :=
  {| eta e := mk_dns_entry (de_state e) (de_numdns e) (de_tmr e) (de_retries e) (de_seqno e) (de_err e) (de_ttl e)
       (de_name e) (de_ipaddr e) (de_found e) (de_arg e) |}.
#[export] Instance set_de_state : Setter de_state := ltac:(setter).
#[export] Instance set_de_numdns : Setter de_numdns := ltac:(setter).
#[export] Instance set_de_tmr : Setter de_tmr := ltac:(setter).
#[export] Instance set_de_retries : Setter de_retries := ltac:(setter).
#[export] Instance set_de_seqno : Setter de_seqno := ltac:(setter).
#[export] Instance set_de_err : Setter de_err := ltac:(setter).
#[export] Instance set_de_ttl : Setter de_ttl := ltac:(setter).
#[export] Instance set_de_name : Setter de_name := ltac:(setter).
#[export] Instance set_de_ipaddr : Setter de_ipaddr := ltac:(setter).
#[export] Instance set_de_found : Setter de_found := ltac:(setter).
#[export] Instance set_de_arg : Setter de_arg := ltac:(setter).

(** A call of [found], for the entry [fo_slot]. *)
Record dns_event := mk_found { fo_slot : nat; fo_arg : Z; fo_name : list Z; fo_addr : option Z }.
Record dns (A : Type) := mk_dns {
  dn_inet : inet A;
  dns_pcb : option positive;
  dns_seqno : Z;
  dns_table : list dns_table_entry;
  dns_servers : list Z;
  dns_payload : list Z;
  local_hostlist : list (list Z * Z);
  dn_log : list dns_event
}.
Arguments mk_dns {A}. Arguments dn_inet {A}. Arguments dns_pcb {A}. Arguments dns_seqno {A}. Arguments dns_table {A}.
Arguments dns_servers {A}. Arguments dns_payload {A}. Arguments local_hostlist {A}. Arguments dn_log {A}.
#[export] Instance dns_eta {A} : Eta (dns A) :=
  {| eta s := mk_dns (dn_inet s) (dns_pcb s) (dns_seqno s) (dns_table s) (dns_servers s) (dns_payload s) (local_hostlist s) (dn_log s) |}.
#[export] Instance set_dn_inet {A} : Setter (@dn_inet A) := ltac:(setter).
#[export] Instance set_dns_pcb {A} : Setter (@dns_pcb A) := ltac:(setter).
#[export] Instance set_dns_seqno {A} : Setter (@dns_seqno A) := ltac:(setter).
#[export] Instance set_dns_table {A} : Setter (@dns_table A) := ltac:(setter).
#[export] Instance set_dns_servers {A} : Setter (@dns_servers A) := ltac:(setter).
#[export] Instance set_dns_payload {A} : Setter (@dns_payload A) := ltac:(setter).
#[export] Instance set_local_hostlist {A} : Setter (@local_hostlist A) := ltac:(setter).
#[export] Instance set_dn_log {A} : Setter (@dn_log A) := ltac:(setter).

(** ** Strings and names *)

(** The string in a buffer. *)
Fixpoint c_str (buf : list Z) : list Z :=
  match buf with [] => [] | b :: buf' => if b =? 0 then [] else b :: c_str buf' end.
Definition str_eq (a b : list Z) : bool := bool_decide (a = b).
(** Access through a pointer into a buffer. *)
Definition rd (buf : list Z) (pos : Z) : res Z :=
  if pos <? 0 then Err BadAccess else of_option BadAccess (buf !! Z.to_nat pos).
Definition rd_n (buf : list Z) (pos n : Z) : res (list Z) :=
  if (0 <=? pos) && (pos + n <=? zlen buf) then Ok (slice pos n buf) else Err BadAccess.

Definition compressed (n : Z) : bool := Z.land n 0xc0 =? 0xc0.
(** [dns_parse_name]: the position behind the name. Every round moves on. *)
Fixpoint parse_name_loop (fuel : nat) (buf : list Z) (query : Z) : res Z :=
  match fuel with
  | O => Err OutOfFuel
  | S fuel =>
      let! n := rd buf query in
      let query := query + 1 in
      if compressed n then Ok (query + 1)
      else
        let query := query + n in
        let! b := rd buf query in
        if b =? 0 then Ok (query + 1) else parse_name_loop fuel buf query
  end.
Definition dns_parse_name (buf : list Z) (query : Z) : res Z := parse_name_loop (S (length buf)) buf query.

(** [dns_compare_name]: do the names differ? The inner loop compares [n]
    bytes. *)
Fixpoint compare_label (n : nat) (name : list Z) (query : Z) (buf : list Z) (response : Z) : res bool :=
  match n with
  | O => Ok true
  | S n =>
      let! a := rd name query in
      let! b := rd buf response in
      if negb (a =? b) then Ok false else compare_label n name (query + 1) buf (response + 1)
  end.
Fixpoint compare_name_loop (fuel : nat) (name : list Z) (query : Z) (buf : list Z) (response : Z) : res bool :=
  match fuel with
  | O => Err OutOfFuel
  | S fuel =>
      let! n := rd buf response in
      let response := response + 1 in
      if compressed n then Ok false
      else
        let! same := compare_label (Z.to_nat n) name query buf response in
        if negb same then Ok true
        else
          let query := query + n + 1 in
          let response := response + n in
          let! b := rd buf response in
          if b =? 0 then Ok false else compare_name_loop fuel name query buf response
  end.
Definition dns_compare_name (name buf : list Z) (response : Z) : res bool :=
  compare_name_loop (S (length buf)) name 0 buf response.

(** The labels of a host name, each behind its length; [label] is the one that
    is being copied. *)
Fixpoint encode_name (label name : list Z) : list Z :=
  match name with
  | [] => u8 (zlen label) :: label
  | c :: name' => if c =? 46 then (u8 (zlen label) :: label) ++ encode_name [] name' else encode_name (label ++ [c]) name'
  end.
Definition dns_query_bytes (id : Z) (name : list Z) : list Z :=
  (store_le16 (lwip_htons id) ++ [DNS_FLAG1_RD; 0] ++ store_le16 (lwip_htons 1) ++ [0; 0; 0; 0; 0; 0]) ++
  encode_name [] name ++ [0] ++ store_le16 (lwip_htons DNS_RRTYPE_A) ++ store_le16 (lwip_htons DNS_RRCLASS_IN).
(** The size of the pbuf that is allocated for it. *)
Definition dns_query_room : Z := SIZEOF_DNS_HDR + DNS_MAX_NAME_LENGTH + SIZEOF_DNS_QUERY.

Section Dns.
Context {A : Type} (on_found : dns_event -> dns A -> res (dns A)).
Implicit Types (s : dns A) (e : dns_table_entry) (i : nat).

Definition get_entry s i : res dns_table_entry := of_option BadAccess (dns_table s !! i).
Definition put_entry i e s : dns A := s <| dns_table := <[i := e]> (dns_table s) |>.
Definition upd_entry i (f : dns_table_entry -> dns_table_entry) s : res (dns A) :=
  let! e := get_entry s i in Ok (put_entry i (f e) s).

(** ** Set-up *)
Definition dns_setserver (numdns : Z) (dnsserver : option Z) s : dns A :=
  match dns_pcb s, dnsserver with
  | Some _, Some a =>
      if (numdns <? DNS_MAX_SERVERS) && negb (a =? IPADDR_ANY) then s <| dns_servers := <[Z.to_nat numdns := a]> (dns_servers s) |> else s
  | _, _ => s
  end.
Definition dns_getserver (numdns : Z) s : Z :=
  if numdns <? DNS_MAX_SERVERS then default IPADDR_ANY (dns_servers s !! Z.to_nat numdns) else IPADDR_ANY.
Definition unused_entry : dns_table_entry := mk_dns_entry DNS_STATE_UNUSED 0 0 0 0 0 0 (repeat 0 256) 0 false 0.
(** The globals before [dns_init]. *)
Definition dns_zero (net : inet A) : dns A :=
  mk_dns net None 0 (repeat unused_entry (Z.to_nat DNS_TABLE_SIZE)) (repeat 0 (Z.to_nat DNS_MAX_SERVERS)) (repeat 0 (Z.to_nat DNS_MSG_SIZE)) [] [].
Definition dns_init s : res (dns A) :=
  match dns_pcb s with
  | Some _ => Ok s
  | None =>
      let '(o, net) := udp_new (dn_inet s) in
      let s := s <| dns_pcb := o |> <| dn_inet := net |> in
      match o with
      | None => Ok s
      | Some id =>
          let! (_, net) := udp_bind id IPADDR_ANY 0 (dn_inet s) in
          let! net := udp_recv id true net in
          Ok (dns_setserver 0 (Some DNS_SERVER_ADDRESS) (s <| dn_inet := net |>))
      end
  end.

(** ** The local host list *)
Definition dns_lookup_local (hostname : list Z) s : Z :=
  match list_find (fun x => x.1 = hostname) (local_hostlist s) with Some (_, x) => x.2 | None => IPADDR_NONE end.
(** A NULL [hostname] or [addr] matches all. *)
Definition local_matches (hostname : option (list Z)) (a : option Z) (x : list Z * Z) : bool :=
  match hostname with None => true | Some h => str_eq x.1 h end && match a with None => true | Some a => x.2 =? a end.
Fixpoint remove_loop (hostname : option (list Z)) (a : option Z) (l : list (list Z * Z)) (removed : Z) : list (list Z * Z) * Z :=
  match l with
  | [] => ([], removed)
  | x :: l' =>
      if local_matches hostname a x then remove_loop hostname a l' (removed + 1)
      else let '(k, n) := remove_loop hostname a l' removed in (x :: k, n)
  end.
Definition dns_local_removehost (hostname : option (list Z)) (a : option Z) s : Z * dns A :=
  let '(l, n) := remove_loop hostname a (local_hostlist s) 0 in (n, s <| local_hostlist := l |>).
Definition dns_local_addhost (hostname : list Z) (a : Z) s : res (err_t * dns A) :=
  assert! zlen hostname <=? DNS_LOCAL_HOSTLIST_MAX_NAMELEN in
  if zlen (local_hostlist s) <? MEMP_NUM_LOCALHOSTLIST then Ok (ERR_OK, s <| local_hostlist := (hostname, a) :: local_hostlist s |>)
  else Ok (ERR_MEM, s).

(** ** Lookup *)
Definition is_name (name : list Z) e : Prop := de_state e = DNS_STATE_DONE /\ c_str (de_name e) = name.
Definition dns_lookup (name : list Z) s : Z :=
  let a := dns_lookup_local name s in
  if negb (a =? IPADDR_NONE) then a
  else match list_find (is_name name) (dns_table s) with Some (_, e) => de_ipaddr e | None => IPADDR_NONE end.

(** ** Queries *)
Definition dns_send (numdns : Z) (name : list Z) (id : Z) s : res (err_t * dns A) :=
  assert! numdns <? DNS_MAX_SERVERS in
  let! server := rd (dns_servers s) numdns in
  assert! negb (server =? IPADDR_ANY) in
  let '(ok, net) := pbuf_alloc_ok (dn_inet s) in
  let s := s <| dn_inet := net |> in
  if ok then
    if dns_query_room <? zlen (dns_query_bytes id name) then Err BadAccess
    else
      let p := nb_new (link_room + ip_room + 20) (dns_query_bytes id name) in
      let! pcb := of_option BadAccess (dns_pcb s) in
      let! (_, net) := udp_connect pcb server DNS_SERVER_PORT (dn_inet s) in
      let! (err, net) := udp_sendto pcb p server DNS_SERVER_PORT net in
      Ok (err, s <| dn_inet := net |>)
  else Ok (ERR_MEM, s).

(** The callback of an entry. *)
Definition call_found i e (a : option Z) s : res (dns A) :=
  if de_found e then
    let ev := mk_found i (de_arg e) (c_str (de_name e)) a in
    on_found ev (s <| dn_log := dn_log s ++ [ev] |>)
  else Ok s.
Definition flush e : dns_table_entry := e <| de_state := DNS_STATE_UNUSED |> <| de_found := false |>.
(** Send the query of an entry; the error is ignored. *)
Definition send_entry i s : res (dns A) :=
  let! e := get_entry s i in
  let! (_, s) := dns_send (de_numdns e) (c_str (de_name e)) (Z.of_nat i) s in Ok s.
(** A pending entry whose timer ended. *)
Definition retry_entry i s : res (dns A) :=
  let! e := get_entry s i in
  let e := e <| de_retries := u8 (de_retries e + 1) |> in
  let s := put_entry i e s in
  if de_retries e =? DNS_MAX_RETRIES then
    let! next := if de_numdns e + 1 <? DNS_MAX_SERVERS then rd (dns_servers s) (de_numdns e + 1) else Ok IPADDR_ANY in
    if (de_numdns e + 1 <? DNS_MAX_SERVERS) && negb (next =? IPADDR_ANY) then
      Ok (put_entry i (e <| de_numdns := u8 (de_numdns e + 1) |> <| de_tmr := 1 |> <| de_retries := 0 |>) s)
    else
      let! s := call_found i e None s in
      upd_entry i flush s
  else send_entry i (put_entry i (e <| de_tmr := de_retries e |>) s).
Definition dns_check_entry i s : res (dns A) :=
  assert! Z.of_nat i <? DNS_TABLE_SIZE in
  let! e := get_entry s i in
  match de_state e with
  | DNS_STATE_NEW =>
      send_entry i (put_entry i (e <| de_state := DNS_STATE_ASKING |> <| de_numdns := 0 |> <| de_tmr := 1 |> <| de_retries := 0 |>) s)
  | DNS_STATE_ASKING =>
      let e := e <| de_tmr := u8 (de_tmr e - 1) |> in
      let s := put_entry i e s in
      if de_tmr e =? 0 then retry_entry i s else Ok s
  | DNS_STATE_DONE =>
      let e := e <| de_ttl := u32 (de_ttl e - 1) |> in
      Ok (put_entry i (if de_ttl e =? 0 then flush e else e) s)
  | DNS_STATE_UNUSED => Ok s
  end.
Fixpoint check_loop (l : list nat) s : res (dns A) :=
  match l with [] => Ok s | i :: l' => let! s := dns_check_entry i s in check_loop l' s end.
Definition dns_check_entries s : res (dns A) := check_loop (seq 0 (Z.to_nat DNS_TABLE_SIZE)) s.
Definition dns_tmr s : res (dns A) := match dns_pcb s with Some _ => dns_check_entries s | None => Ok s end.

(** ** Responses *)

(** [struct dns_answer] in the message, with the numbers in host order. *)
Record dns_answer := mk_answer { an_type : Z; an_cls : Z; an_ttl : Z; an_len : Z }.
Definition be16 (a b : Z) : Z := lwip_ntohs (load_le16 a b).
Definition read_answer (buf : list Z) (pos : Z) : res dns_answer :=
  let! l := rd_n buf pos SIZEOF_DNS_ANSWER in
  match l with
  | [t0; t1; c0; c1; a; b; c; d; l0; l1] => Ok (mk_answer (be16 t0 t1) (be16 c0 c1) (lwip_ntohl (load_le32 a b c d)) (be16 l0 l1))
  | _ => Err BadAccess
  end.
(** The loop over the answers: the ttl and the address of the first of class IN
    and type A. *)
Fixpoint answer_loop (nanswers : nat) (buf : list Z) (pos : Z) : res (option (Z * Z)) :=
  match nanswers with
  | O => Ok None
  | S nanswers =>
      let! pos := dns_parse_name buf pos in
      let! ans := read_answer buf pos in
      if (an_type ans =? DNS_RRTYPE_A) && (an_cls ans =? DNS_RRCLASS_IN) && (an_len ans =? 4) then
        let! l := rd_n buf (pos + SIZEOF_DNS_ANSWER) 4 in
        match l with [a; b; c; d] => Ok (Some (an_ttl ans, load_le32 a b c d)) | _ => Err BadAccess end
      else answer_loop nanswers buf (pos + SIZEOF_DNS_ANSWER + an_len ans)
  end.
(** [responseerr]: the query failed. *)
Definition response_err i s : res (dns A) :=
  let! e := get_entry s i in
  let! s := call_found i e None s in
  upd_entry i flush s.
(** The response to the pending entry [i]. *)
Definition dns_response i s : res (dns A) :=
  let buf := dns_payload s in
  let! f1 := rd buf 2 in
  let! f2 := rd buf 3 in
  let err := Z.land f2 DNS_FLAG2_ERR_MASK in
  let! s := upd_entry i (fun e => e <| de_state := DNS_STATE_DONE |> <| de_err := err |>) s in
  let! q := rd_n buf 4 4 in
  let! (nquestions, nanswers) := match q with [a; b; c; d] => Ok (be16 a b, be16 c d) | _ => Err BadAccess end in
  if negb (has_flag f1 DNS_FLAG1_RESPONSE) || negb (err =? 0) || negb (nquestions =? 1) then response_err i s
  else
    let! e := get_entry s i in
    let! differs := dns_compare_name (de_name e) buf SIZEOF_DNS_HDR in
    if differs : bool then response_err i s
    else
      let! pos := dns_parse_name buf SIZEOF_DNS_HDR in
      let! o := answer_loop (Z.to_nat nanswers) buf (pos + SIZEOF_DNS_QUERY) in
      match o with
      | Some (ttl, a) =>
          let e := e <| de_ttl := if DNS_MAX_TTL <? ttl then DNS_MAX_TTL else ttl |> <| de_ipaddr := a |> in
          call_found i e (Some a) (put_entry i e s)
      | None => response_err i s
      end.
(** [dns_recv]; the packet is freed. *)
Definition dns_recv (data : list Z) s : res (dns A) :=
  if DNS_MSG_SIZE <? zlen data then Ok s
  else if zlen data <? SIZEOF_DNS_HDR + SIZEOF_DNS_QUERY + SIZEOF_DNS_ANSWER then Ok s
  else
    let buf := data ++ drop (length data) (dns_payload s) in
    let s := s <| dns_payload := buf |> in
    let! id := rd_n buf 0 2 in
    let! idx := match id with [a; b] => Ok (be16 a b) | _ => Err BadAccess end in
    if idx <? DNS_TABLE_SIZE then
      let! e := get_entry s (Z.to_nat idx) in
      if bool_decide (de_state e = DNS_STATE_ASKING) then dns_response (Z.to_nat idx) s else Ok s
    else Ok s.

(** ** Requests *)

(** The search for an entry: the first unused one, or the age and the index of
    the oldest completed one. *)
Fixpoint enqueue_loop (l : list dns_table_entry) i (seqno lseq : Z) (lseqi : nat) : option nat * nat :=
  match l with
  | [] => (None, lseqi)
  | e :: l' =>
      if bool_decide (de_state e = DNS_STATE_UNUSED) then (Some i, lseqi)
      else if bool_decide (de_state e = DNS_STATE_DONE) && (lseq <? seqno - de_seqno e) then enqueue_loop l' (S i) seqno (u8 (seqno - de_seqno e)) i
      else enqueue_loop l' (S i) seqno lseq lseqi
  end.
Definition enqueue_slot s : res (option nat) :=
  match enqueue_loop (dns_table s) 0 (dns_seqno s) 0 0 with
  | (Some i, _) => Ok (Some i)
  | (None, i) =>
      let! e := get_entry s i in
      Ok (if bool_decide (de_state e = DNS_STATE_DONE) then Some i else None)
  end.
(** The name as it is put into the buffer: cut to 255 bytes, with a NUL. *)
Definition put_name (name buf : list Z) : list Z :=
  let n := Z.to_nat (Z.min (zlen name) (DNS_MAX_NAME_LENGTH - 1)) in take n name ++ [0] ++ drop (S n) buf.
Definition dns_enqueue (name : list Z) (found : bool) (callback_arg : Z) s : res (err_t * dns A) :=
  let! o := enqueue_slot s in
  match o with
  | None => Ok (ERR_MEM, s)
  | Some i =>
      let! s := upd_entry i (fun e => e <| de_state := DNS_STATE_NEW |> <| de_seqno := dns_seqno s |> <| de_found := found |> <| de_arg := callback_arg |>
                                        <| de_name := put_name name (de_name e) |>) s in
      let s := s <| dns_seqno := u8 (dns_seqno s + 1) |> in
      let! s := dns_check_entry i s in
      Ok (ERR_INPROGRESS, s)
  end.
(** The error and, with ERR_OK, the address. *)
Definition dns_gethostbyname (hostname : list Z) (found : bool) (callback_arg : Z) s : res (err_t * option Z * dns A) :=
  if bool_decide (dns_pcb s = None) || bool_decide (hostname = []) || (DNS_MAX_NAME_LENGTH <=? zlen hostname) then Ok (ERR_ARG, None, s)
  else
    let a := ipaddr_addr hostname in
    let a := if a =? IPADDR_NONE then dns_lookup hostname s else a in
    if negb (a =? IPADDR_NONE) then Ok (ERR_OK, Some a, s)
    else
      let! (err, s) := dns_enqueue hostname found callback_arg s in Ok (err, None, s).

(** ** The stack with the resolver, as the timers see it *)
Definition on_net (f : inet A -> res (inet A)) s : res (dns A) := let! net := f (dn_inet s) in Ok (s <| dn_inet := net |>).
#[export] Instance dns_timers (T : TimerOps (inet A)) : TimerOps (dns A) := {|
  op_tcp_tmr := on_net op_tcp_tmr;
  op_tcp_needed s := op_tcp_needed (dn_inet s);
  op_ip_reass_tmr := on_net op_ip_reass_tmr;
  op_etharp_tmr := on_net op_etharp_tmr;
  op_autoip_tmr := on_net op_autoip_tmr;
  op_dns_tmr := dns_tmr;
  op_other n m := on_net (op_other n m)
|}.
End Dns.
