(* ===== verification/DnsTable.v ===== *)
(** * DNS: the table of names under its timer

    [tick_entry] is what one call of dns_tmr does to an entry; the entries do
    not influence each other. [dns_network] is what the resolver needs of the
    UDP below: a query can always be sent, or fails with an error code. *)
From S2P Require Import Prelude ByteOrder IpAddr Checksum Ip Tcp TcpOut TcpIn TcpWorld TcpProcess Etharp EtharpTable Netif IpFrag Nbuf Inet Icmp Udp Raw TcpWire IpInput InetHdr InetSafe InetSend Dns.

(** ** The network below *)
Class dns_network {A} (net_ok : positive -> inet A -> Prop) := {
  net_alloc pcb net : net_ok pcb net -> net_ok pcb (pbuf_alloc_ok net).2;
  net_send pcb net server bs : net_ok pcb net -> is_u32 server -> bytes_ok bs -> zlen bs <= dns_query_room ->
    exists e1 net1 e2 net2, udp_connect pcb server DNS_SERVER_PORT net = Ok (e1, net1) /\
      udp_sendto pcb (nb_new (link_room + ip_room + 20) bs) server DNS_SERVER_PORT net1 = Ok (e2, net2) /\ net_ok pcb net2
}.

(** The network of Inet.v, with the block of the resolver bound to any address. *)
Record dns_net_ok {A} (pcb : positive) (net : inet A) : Prop := {
  dn_ok : inet_ok net;
  dn_pcb : exists u, udp_tbl net !! pcb = Some u /\ up_local_port u <> 0 /\ up_local_ip u = IPADDR_ANY /\ udp_ok u;
  dn_listed : pcb ∈ udp_pcbs net;
  dn_ifs : forall id x, ifs net !! id = Some x -> is_u32 (nif_ip_addr (if_netif x)) /\ fits 300 (if_netif x);
  dn_id : is_u16 (ip_id net)
}.
Lemma ip_send_udp {A} nif q dst n (s s' : inet A) e : inet_if nif s = Ok n -> fits (nb_tot_len q) n -> ip_send nif q dst s = Ok (e, s') ->
  udp_tbl s' = udp_tbl s /\ udp_pcbs s' = udp_pcbs s /\ ip_id s' = ip_id s.
Proof.
  intros Hn Hf. rewrite (ip_send_small nif q dst n) by done. unfold netif_output. intros H. inv_res.
  destruct x1 as [? ?]. by injection H as _ <-.
Qed.
#[export] Instance inet_dns_network {A} : dns_network (@dns_net_ok A).
Proof.
  split.
  - intros pcb net [H1 H2 H3 H4 H5]. destruct (pbuf_alloc_ok net) as [b net'] eqn:E. cbn. destruct (alloc_ok _ _ _ E H1) as [Ho Hi].
    unfold pbuf_alloc_ok in E. assert (Hs : udp_tbl net' = udp_tbl net /\ udp_pcbs net' = udp_pcbs net /\ ip_id net' = ip_id net) by (by destruct (in_allocs net); injection E as _ <-).
    destruct Hs as (T1 & T2 & T3). split; [done|by rewrite T1|by rewrite T2|by rewrite Hi|by rewrite T3].
  - intros pcb net server bs [H1 (u & Hu & Hp & Hip & Huo) H3 H4 H5] Hsv Hbs Hlen. unfold udp_connect, udp_ensure_port, get_udp.
    rewrite Hu. cbn [of_option res_bind]. rewrite (proj2 (Z.eqb_neq _ _)) by done. cbn [res_bind]. change (negb (ERR_OK =? ERR_OK)) with false. cbv iota.
    rewrite Hu. cbn [of_option res_bind]. unfold in_udp_list. cbn [put_udp udp_pcbs set_field set_udp_tbl]. rewrite bool_decide_true by done.
    set (v := u <| up_remote_ip := server |> <| up_remote_port := DNS_SERVER_PORT |> <| up_flags := Z.lor (up_flags u) UDP_FLAGS_CONNECTED |>).
    set (net1 := put_udp pcb v net). exists ERR_OK, net1.
    assert (Ho1 : inet_ok net1).
    { destruct H1. split; try done. cbn. eapply Forall_impl; [done|]. intros k Hk. cbn. apply lookup_insert_is_Some'. by right. }
    assert (Hv : udp_tbl net1 !! pcb = Some v) by apply lookup_insert_eq. assert (Huo1 : udp_ok v) by (by destruct Huo).
    set (p := nb_new (link_room + ip_room + 20) bs). assert (Hb : nb_bytes p = bs) by (unfold nb_bytes; cbn; by rewrite app_nil_r).
    assert (Hok1 : forall e2 net2, inet_ok net2 -> ifs net2 = ifs net1 -> udp_tbl net2 = udp_tbl net1 -> udp_pcbs net2 = udp_pcbs net1 -> is_u16 (ip_id net2) ->
      udp_sendto pcb p server DNS_SERVER_PORT net1 = Ok (e2, net2) ->
      exists e2 net2, (Ok (ERR_OK, net1) : res (err_t * inet A)) = Ok (ERR_OK, net1) /\ udp_sendto pcb p server DNS_SERVER_PORT net1 = Ok (e2, net2) /\ dns_net_ok pcb net2).
    { intros e2 net2 Q1 Q2 Q3 Q4 Q5 Q6. exists e2, net2. split; [done|]. split; [done|]. split; [done|rewrite Q3; by exists v|by rewrite Q4|by rewrite Q2|done]. }
    destruct (route net1 server) as [[nif n]|] eqn:Er; [|eapply (Hok1 ERR_RTE net1); try done; unfold udp_sendto; by rewrite Er].
    pose proof Er as (x & Hx & ->)%route_ok. destruct (H4 nif x Hx) as [Hx32 Hxf].
    assert (He : udp_ensure_port pcb net1 = Ok (ERR_OK, net1)).
    { unfold udp_ensure_port, get_udp. rewrite Hv. cbn [of_option res_bind]. by rewrite (proj2 (Z.eqb_neq _ _)). }
    assert (Hzb : zlen bs <= 272) by done.
    pose proof (udp_sendto_if_eq net1 net1 ERR_OK pcb v p server DNS_SERVER_PORT nif (if_netif x) He Hv (inet_if_ok nif x net1 Hx) Huo1 Hx32 H5 Hsv) as Hs.
    rewrite Hb in Hs. specialize (Hs Hbs). unfold nb_tot_len in Hs. rewrite Hb in Hs. specialize (Hs ltac:(lia)).
    change (udp_room p) with true in Hs. cbv beta iota zeta in Hs. change (negb (ERR_OK =? ERR_OK)) with false in Hs. cbn [negb] in Hs.
    change (up_local_ip v) with (up_local_ip u) in Hs. rewrite Hip in Hs. change (negb (IPADDR_ANY =? IPADDR_ANY)) with false in Hs. cbn [andb] in Hs.
    change (udp_front p <? 20) with false in Hs. cbv iota in Hs. destruct Hs as (q & Hq & Hqb & Hql & Hqf & Hqm).
    assert (Hqt : nb_tot_len q = 28 + zlen bs).
    { unfold nb_tot_len. rewrite Hqb. unfold udp_packet, ip_packet, udp_datagram. rewrite !zlen_app, ip_hdr_bytes_len. change (zlen (udp_hdr_bytes _ _ _ _)) with 8. lia. }
    assert (Hfits : fits (nb_tot_len q) (if_netif x)) by (destruct Hxf; [by left|right; lia]).
    assert (Hi2 : inet_ok (next_id net1)) by (by destruct Ho1).
    destruct (ip_send_ok nif q server (next_id net1) x Hi2 Hx) as (e2 & net2 & Hsend & Ho2 & Hifs); [pose proof (zlen_nonneg bs); lia|done|].
    destruct (ip_send_udp nif q server (if_netif x) (next_id net1) net2 e2) as (T1 & T2 & T3); [by apply inet_if_ok|done|done|].
    apply (Hok1 e2 net2); try done; [rewrite T3; apply is_u16_u16|]. unfold udp_sendto. rewrite Er. by rewrite Hq.
Qed.

(** ** Well-formed resolvers *)
Definition name_ok (buf : list Z) : Prop := bytes_ok buf /\ length buf = 256%nat /\ zlen (c_str buf) <= 254.
Record entry_ok (servers : list Z) (e : dns_table_entry) : Prop := {
  eo_name : name_ok (de_name e);
  eo_server : exists a, servers !! Z.to_nat (de_numdns e) = Some a /\ a <> IPADDR_ANY /\ 0 <= de_numdns e < DNS_MAX_SERVERS;
  eo_asking : de_state e = DNS_STATE_ASKING -> 1 <= de_tmr e <= 3 /\ 0 <= de_retries e <= 3;
  eo_ttl : is_u32 (de_ttl e)
}.
Record dns_ok {A} (net_ok : positive -> inet A -> Prop) (s : dns A) : Prop := {
  dk_net : exists pcb, dns_pcb s = Some pcb /\ net_ok pcb (dn_inet s);
  dk_size : length (dns_table s) = 16%nat;
  dk_servers : exists a b, dns_servers s = [a; b] /\ is_u32 a /\ is_u32 b /\ a <> IPADDR_ANY;
  dk_payload : length (dns_payload s) = 512%nat /\ bytes_ok (dns_payload s);
  dk_entries : Forall (entry_ok (dns_servers s)) (dns_table s)
}.

(** What is asked of the callbacks: they return, and leave the resolver alone.
    The network they may change in any way that keeps its conditions: send,
    open connections, change the state of the application. *)
Definition callbacks_apart {A} (net_ok : positive -> inet A -> Prop) (on_found : dns_event -> dns A -> res (dns A)) : Prop :=
  forall ev (s : dns A) pcb, dns_pcb s = Some pcb -> net_ok pcb (dn_inet s) ->
  exists net, on_found ev s = Ok (s <| dn_inet := net |>) /\ net_ok pcb net.

(** ** What a tick does to an entry *)
Definition next_server (servers : list Z) (numdns : Z) : bool :=
  (numdns + 1 <? DNS_MAX_SERVERS) && negb (default IPADDR_ANY (servers !! Z.to_nat (numdns + 1)) =? IPADDR_ANY).
(** The new entry, and whether its query timed out. *)
Definition tick_entry (servers : list Z) (e : dns_table_entry) : dns_table_entry * bool :=
  match de_state e with
  | DNS_STATE_UNUSED => (e, false)
  | DNS_STATE_NEW => (e <| de_state := DNS_STATE_ASKING |> <| de_numdns := 0 |> <| de_tmr := 1 |> <| de_retries := 0 |>, false)
  | DNS_STATE_ASKING =>
      let e := e <| de_tmr := u8 (de_tmr e - 1) |> in
      if de_tmr e =? 0 then
        let e := e <| de_retries := u8 (de_retries e + 1) |> in
        if de_retries e =? DNS_MAX_RETRIES then
          if next_server servers (de_numdns e) then
            (e <| de_numdns := u8 (de_numdns e + 1) |> <| de_tmr := 1 |> <| de_retries := 0 |>, false)
          else (flush e, true)
        else (e <| de_tmr := de_retries e |>, false)
      else (e, false)
  | DNS_STATE_DONE =>
      let e := e <| de_ttl := u32 (de_ttl e - 1) |> in (if de_ttl e =? 0 then flush e else e, false)
  end.
Definition timeout_event (i : nat) (servers : list Z) (e : dns_table_entry) : list dns_event :=
  if (tick_entry servers e).2 && de_found e then [mk_found i (de_arg e) (c_str (de_name e)) None] else [].

(** ** Bytes of a query *)
Lemma encode_name_len l name : zlen (encode_name l name) = zlen l + zlen name + 1.
Proof.
  revert l. induction name as [|c name IH]; intros l; cbn [encode_name].
  - rewrite zlen_cons. change (zlen (@nil Z)) with 0. lia.
  - case_match.
    + rewrite zlen_app, IH, !zlen_cons. change (zlen (@nil Z)) with 0. lia.
    + rewrite IH, zlen_app, !zlen_cons. change (zlen (@nil Z)) with 0. lia.
Qed.
Lemma encode_name_ok l name : bytes_ok l -> bytes_ok name -> bytes_ok (encode_name l name).
Proof.
  revert l. induction name as [|c name IH]; intros l Hl Hn; cbn [encode_name].
  - apply bytes_ok_cons. split; [apply is_u8_u8|done].
  - apply bytes_ok_cons in Hn as [Hc Hn]. case_match.
    + apply bytes_ok_app. split; [apply bytes_ok_cons; split; [apply is_u8_u8|done]|apply IH; [constructor|done]].
    + apply IH; [|done]. apply bytes_ok_app. split; [done|]. apply bytes_ok_cons. split; [done|constructor].
Qed.
Lemma query_len id name : zlen (dns_query_bytes id name) = 18 + zlen name.
Proof.
  unfold dns_query_bytes. rewrite !zlen_app, encode_name_len. change (zlen (@nil Z)) with 0.
  change (zlen (store_le16 _)) with 2. change (zlen [DNS_FLAG1_RD; 0]) with 2. change (zlen [0; 0; 0; 0; 0; 0]) with 6. change (zlen [0]) with 1. lia.
Qed.
Lemma query_ok_bytes id name : bytes_ok name -> bytes_ok (dns_query_bytes id name).
Proof.
  intros Hn. unfold dns_query_bytes. assert (H0 : is_u8 0) by (unfold is_u8; lia).
  repeat (apply bytes_ok_app; split); try apply store_le16_ok; try (apply encode_name_ok; [constructor|done]).
  - repeat constructor; done.
  - repeat constructor; done.
  - repeat constructor; done.
Qed.
Lemma c_str_ok buf : bytes_ok buf -> bytes_ok (c_str buf).
Proof. induction buf as [|b buf IH]; cbn; [done|]. intros [Hb H]%bytes_ok_cons. case_match; [constructor|]. apply bytes_ok_cons. auto. Qed.

Section Table.
Context {A : Type} (net_ok : positive -> inet A -> Prop) `{!dns_network net_ok}.
Context (on_found : dns_event -> dns A -> res (dns A)) (Hfound : callbacks_apart net_ok on_found).
Implicit Types (s : dns A) (e : dns_table_entry) (i : nat).

(** Only the table, the network and the log change. *)
Record kept s s' : Prop := {
  kp_pcb : dns_pcb s' = dns_pcb s;
  kp_seqno : dns_seqno s' = dns_seqno s;
  kp_servers : dns_servers s' = dns_servers s;
  kp_payload : dns_payload s' = dns_payload s;
  kp_hosts : local_hostlist s' = local_hostlist s
}.
Lemma kept_same s : kept s s. Proof. done. Qed.
Lemma get_entry_ok s i e : dns_table s !! i = Some e -> get_entry s i = Ok e.
Proof. unfold get_entry. by intros ->. Qed.
Lemma entry_ok_at s i e : dns_ok net_ok s -> dns_table s !! i = Some e -> entry_ok (dns_servers s) e.
Proof. intros Hs Hi. by apply (Forall_lookup_1 _ _ i e (dk_entries _ _ Hs)). Qed.
Lemma dns_ok_put s i e : dns_ok net_ok s -> entry_ok (dns_servers s) e -> dns_ok net_ok (put_entry i e s).
Proof. intros [H1 H2 H3 H4 H5] He. split; try done; cbn; [by rewrite length_insert|by apply Forall_insert]. Qed.
Lemma dns_ok_net s net pcb : dns_ok net_ok s -> dns_pcb s = Some pcb -> net_ok pcb net -> dns_ok net_ok (s <| dn_inet := net |>).
Proof. intros [H1 H2 H3 H4 H5] Hp Hn. split; try done. by exists pcb. Qed.
Lemma server_rd (s : dns A) d a : 0 <= d -> dns_servers s !! Z.to_nat d = Some a -> rd (dns_servers s) d = Ok a.
Proof. intros Hd Ha. unfold rd. rewrite (proj2 (Z.ltb_ge _ _)) by lia. by rewrite Ha. Qed.
Lemma send_entry_ok s i e : dns_ok net_ok s -> dns_table s !! i = Some e ->
  exists net, send_entry i s = Ok (s <| dn_inet := net |>) /\ dns_ok net_ok (s <| dn_inet := net |>).
Proof.
  intros Hs Hi. destruct (entry_ok_at s i e Hs Hi) as [(Hn1 & Hn2 & Hn3) (a & Ha & Hne & Hd) _ _]. unfold send_entry. rewrite (get_entry_ok s i e Hi).
  cbn [res_bind]. unfold dns_send. rewrite (proj2 (Z.ltb_lt _ _)) by lia. cbn [lwip_assert res_bind]. rewrite (server_rd s _ a) by (done || lia). cbn [res_bind].
  rewrite (proj2 (Z.eqb_neq _ _)) by done. cbn [negb lwip_assert res_bind]. destruct (dk_net _ _ Hs) as (pcb & Hp & Hnet).
  pose proof (net_alloc pcb _ Hnet) as Hnet1. destruct (pbuf_alloc_ok (dn_inet s)) as [ok net] eqn:Ea. cbn in Hnet1. destruct ok.
  2:{ cbn [res_bind]. exists net. split; [done|]. by apply (dns_ok_net s net pcb). }
  rewrite (proj2 (Z.ltb_ge _ _)) by (rewrite query_len; unfold dns_query_room, SIZEOF_DNS_HDR, DNS_MAX_NAME_LENGTH, SIZEOF_DNS_QUERY; lia).
  change (dns_pcb (s <| dn_inet := net |>)) with (dns_pcb s). rewrite Hp. cbn [of_option res_bind].
  change (dn_inet (s <| dn_inet := net |>)) with net.
  assert (Ha32 : is_u32 a).
  { destruct (dk_servers _ _ Hs) as (x & y & Hsv & Hx & Hy & _). rewrite Hsv in Ha. assert (de_numdns e = 0 \/ de_numdns e = 1) as [Hd0|Hd0] by (unfold DNS_MAX_SERVERS in Hd; lia);
      rewrite Hd0 in Ha; cbn in Ha; by injection Ha as <-. }
  destruct (net_send pcb net a (dns_query_bytes (Z.of_nat i) (c_str (de_name e))) Hnet1 Ha32) as (e1 & net1 & e2 & net2 & -> & Hsend & Hnet2).
  { by apply query_ok_bytes, c_str_ok. }
  { rewrite query_len. unfold dns_query_room, SIZEOF_DNS_HDR, DNS_MAX_NAME_LENGTH, SIZEOF_DNS_QUERY. lia. }
  cbn [res_bind]. rewrite Hsend. cbn [res_bind]. exists net2. split; [done|]. by apply (dns_ok_net s net2 pcb).
Qed.
Definition called i e (a : option Z) (net : inet A) s : dns A :=
  s <| dn_log := dn_log s ++ (if de_found e then [mk_found i (de_arg e) (c_str (de_name e)) a] else []) |> <| dn_inet := net |>.
Lemma log_dns_ok s l : dns_ok net_ok s -> dns_ok net_ok (s <| dn_log := l |>).
Proof. by intros []. Qed.
Lemma call_found_spec i e a s pcb : dns_pcb s = Some pcb -> net_ok pcb (dn_inet s) ->
  exists net, call_found on_found i e a s = Ok (called i e a net s) /\ net_ok pcb net.
Proof.
  intros Hp Hn. unfold call_found, called. destruct (de_found e).
  - destruct (Hfound (mk_found i (de_arg e) (c_str (de_name e)) a) (s <| dn_log := dn_log s ++ [mk_found i (de_arg e) (c_str (de_name e)) a] |>) pcb) as (net & -> & Hnet); [done..|].
    by exists net.
  - exists (dn_inet s). rewrite app_nil_r. split; by destruct s.
Qed.
Lemma called_ok i e a net s pcb : dns_ok net_ok s -> dns_pcb s = Some pcb -> net_ok pcb net -> dns_ok net_ok (called i e a net s).
Proof. intros Hs Hp Hn. unfold called. by apply (dns_ok_net (s <| dn_log := _ |>) net pcb); [apply log_dns_ok|..]. Qed.

(** ** One tick *)
Lemma flush_ok servers e : entry_ok servers e -> entry_ok servers (flush e).
Proof. by intros [H1 H2 H3 H4]; split. Qed.
Lemma next_server_spec servers d a b : servers = [a; b] -> 0 <= d < DNS_MAX_SERVERS ->
  next_server servers d = (d =? 0) && negb (b =? IPADDR_ANY).
Proof.
  unfold DNS_MAX_SERVERS, next_server. intros -> Hd. assert (d = 0 \/ d = 1) as [-> | ->] by lia; done.
Qed.
Lemma tick_entry_ok servers e a b : servers = [a; b] -> a <> IPADDR_ANY -> entry_ok servers e -> entry_ok servers (tick_entry servers e).1.
Proof.
  intros Hs Ha He. pose proof He as [H1 (x & H2 & H2' & H2'') H3 H4]. unfold tick_entry. destruct (de_state e) eqn:Est.
  - done.
  - split; try done; cbn; try lia. exists a. unfold DNS_MAX_SERVERS. split; [by rewrite Hs|done].
  - specialize (H3 eq_refl). destruct H3 as [Ht Hr]. cbn [de_tmr de_retries de_numdns set_field set_de_tmr set_de_retries]. rewrite (u8_id (de_tmr e - 1)), (u8_id (de_retries e + 1)) by lia.
    destruct (Z.eqb_spec (de_tmr e - 1) 0) as [Ht0|Ht0].
    2:{ split; try done; [by exists x|]. cbn. intros _. lia. }
    destruct (Z.eqb_spec (de_retries e + 1) DNS_MAX_RETRIES) as [Hr4|Hr4]; unfold DNS_MAX_RETRIES in *.
    2:{ split; try done; [by exists x|]. cbn. intros _. lia. }
    rewrite (next_server_spec servers _ a b) by done. destruct (Z.eqb_spec (de_numdns e) 0) as [Hd0|Hd0]; cbn [andb]; [|by split; [|exists x|..]].
    destruct (Z.eqb_spec b IPADDR_ANY) as [Hb|Hb]; cbn [negb]; [by split; [|exists x|..]|].
    split; try done; cbn; try lia. exists b. rewrite Hd0, Hs. by split_and!.
  - cbn [de_ttl set_field set_de_ttl]. pose proof (u32_range (de_ttl e - 1)).
    destruct (u32 (de_ttl e - 1) =? 0); [apply flush_ok|]; (split; [done|by exists x|cbn; by rewrite Est|done]).
Qed.
Definition ticked i e (net : inet A) s : dns A :=
  mk_dns net (dns_pcb s) (dns_seqno s) (<[i := (tick_entry (dns_servers s) e).1]> (dns_table s)) (dns_servers s) (dns_payload s) (local_hostlist s)
    (dn_log s ++ timeout_event i (dns_servers s) e).
Lemma put_put i e e' s : put_entry i e (put_entry i e' s) = put_entry i e s.
Proof. unfold put_entry. cbn. by rewrite list_insert_insert_eq. Qed.
Lemma put_entry_id i e s : dns_table s !! i = Some e -> put_entry i e s = s.
Proof. intros Hi. unfold put_entry. rewrite list_insert_id by done. by destruct s. Qed.
Lemma put_lookup i e e' s : dns_table s !! i = Some e -> dns_table (put_entry i e' s) !! i = Some e'.
Proof. intros Hi. cbn. apply list_lookup_insert_eq. by eapply lookup_lt_Some. Qed.
Lemma upd_entry_eq i f s e : dns_table s !! i = Some e -> upd_entry i f s = Ok (put_entry i (f e) s).
Proof. intros Hi. unfold upd_entry. by rewrite (get_entry_ok s i e). Qed.
(** The queries that an entry sends. *)
Lemma send_put i e e' s : dns_ok net_ok s -> dns_table s !! i = Some e -> entry_ok (dns_servers s) e' ->
  exists net, send_entry i (put_entry i e' s) = Ok ((put_entry i e' s) <| dn_inet := net |>) /\ dns_ok net_ok ((put_entry i e' s) <| dn_inet := net |>).
Proof. intros Hs Hi He. apply (send_entry_ok _ i e'); [by apply dns_ok_put|by apply (put_lookup i e)]. Qed.
Lemma check_spec s i e : dns_ok net_ok s -> dns_table s !! i = Some e ->
  exists net, dns_check_entry on_found i s = Ok (ticked i e net s) /\ dns_ok net_ok (ticked i e net s).
Proof.
  intros Hs Hi. pose proof (entry_ok_at s i e Hs Hi) as He. destruct (dk_servers _ _ Hs) as (a & b & Hsv & Ha & Hb & Hne).
  pose proof (tick_entry_ok _ e a b Hsv Hne He) as Htk. unfold dns_check_entry.
  assert (Hi16 : (i < 16)%nat) by (rewrite <- (dk_size _ _ Hs); by eapply lookup_lt_Some).
  rewrite (proj2 (Z.ltb_lt _ _)) by (unfold DNS_TABLE_SIZE; lia). cbn [lwip_assert res_bind]. rewrite (get_entry_ok s i e Hi). cbn [res_bind].
  pose proof (dns_ok_put s i _ Hs Htk) as Hput.
  assert (Hplain : forall e', (tick_entry (dns_servers s) e) = (e', false) ->
    exists net, Ok (put_entry i e' s) = Ok (ticked i e net s) /\ dns_ok net_ok (ticked i e net s)).
  { intros e' E. exists (dn_inet s). unfold ticked, timeout_event. rewrite E in *. cbn [fst snd andb] in *. rewrite app_nil_r. split; [done|exact Hput]. }
  assert (Hsend : forall e', (tick_entry (dns_servers s) e) = (e', false) ->
    exists net, send_entry i (put_entry i e' s) = Ok (ticked i e net s) /\ dns_ok net_ok (ticked i e net s)).
  { intros e' E. destruct (send_put i e e' s Hs Hi) as (net & -> & Hok); [by rewrite E in Htk|]. exists net. unfold ticked, timeout_event. rewrite E.
    cbn [fst snd andb]. rewrite app_nil_r. done. }
  destruct (de_state e) eqn:Est.
  - destruct (Hplain e) as (net & Heq & Hok); [unfold tick_entry; by rewrite Est|]. rewrite (put_entry_id i e s Hi) in Heq. by exists net.
  - apply Hsend. unfold tick_entry. by rewrite Est.
  - cbv zeta. set (e1 := e <| de_tmr := u8 (de_tmr e - 1) |>). destruct (de_tmr e1 =? 0) eqn:Et.
    2:{ apply Hplain. unfold tick_entry. rewrite Est. cbv zeta. fold e1. by rewrite Et. }
    unfold retry_entry. rewrite (get_entry_ok (put_entry i e1 s) i e1) by (by apply (put_lookup i e)). cbn [res_bind].
    cbv zeta. set (e2 := e1 <| de_retries := u8 (de_retries e1 + 1) |>). rewrite put_put. destruct (de_retries e2 =? DNS_MAX_RETRIES) eqn:Er.
    2:{ rewrite put_put. apply Hsend. unfold tick_entry. rewrite Est. cbv zeta. fold e1. rewrite Et. fold e2. by rewrite Er. }
    destruct He as [E1 (x & E2 & E2' & E2'') E3 E4]. change (de_numdns e2) with (de_numdns e). change (dns_servers (put_entry i e2 s)) with (dns_servers s).
    assert (Hnext : exists nx, (if de_numdns e + 1 <? DNS_MAX_SERVERS then rd (dns_servers s) (de_numdns e + 1) else Ok IPADDR_ANY) = Ok nx /\
      (de_numdns e + 1 <? DNS_MAX_SERVERS) && negb (nx =? IPADDR_ANY) = next_server (dns_servers s) (de_numdns e)).
    { unfold next_server. destruct (Z.ltb_spec (de_numdns e + 1) DNS_MAX_SERVERS) as [Hlt|Hlt]; [|by exists IPADDR_ANY].
      assert (de_numdns e = 0) as -> by (unfold DNS_MAX_SERVERS in *; lia). rewrite Hsv. exists b. done. }
    destruct Hnext as (nx & -> & Hn2). cbn [res_bind]. rewrite Hn2. clear Hn2. destruct (next_server (dns_servers s) (de_numdns e)) eqn:En.
    + rewrite put_put. apply Hplain. unfold tick_entry. rewrite Est. cbv zeta. fold e1. rewrite Et. fold e2. rewrite Er.
      change (de_numdns e2) with (de_numdns e). by rewrite En.
    + assert (E : tick_entry (dns_servers s) e = (flush e2, true)).
      { unfold tick_entry. rewrite Est. cbv zeta. fold e1. rewrite Et. fold e2. rewrite Er. change (de_numdns e2) with (de_numdns e). by rewrite En. }
      unfold ticked, timeout_event. rewrite E in *. cbn [fst snd andb] in *. 

      destruct (dk_net _ _ Hs) as (pcb & Hp & Hnet).
      destruct (call_found_spec i e2 None (put_entry i e2 s) pcb) as (net & -> & Hn); [done..|]. cbn [res_bind].
      rewrite (upd_entry_eq i flush _ e2) by (by apply (put_lookup i e)). exists net.
      split; [unfold put_entry, called; cbn; by rewrite list_insert_insert_eq|]. exact (called_ok i e2 None net _ pcb Hput Hp Hn).
  - apply Hplain. unfold tick_entry. rewrite Est. cbv zeta. by destruct (_ =? 0).
Qed.

(** ** All entries *)
Definition slot_timeout s i : list dns_event :=
  match dns_table s !! i with Some e => timeout_event i (dns_servers s) e | None => [] end.
Record tmr_did (l : list nat) s s' : Prop := {
  td_ok : dns_ok net_ok s';
  td_kept : kept s s';
  td_entry : forall i e, dns_table s !! i = Some e ->
    dns_table s' !! i = Some (if bool_decide (i ∈ l) then (tick_entry (dns_servers s) e).1 else e);
  td_log : dn_log s' = dn_log s ++ flat_map (slot_timeout s) l
}.
Lemma in_tail i j (l : list nat) : i <> j -> bool_decide (i ∈ j :: l) = bool_decide (i ∈ l).
Proof. intros Hne. apply bool_decide_ext. rewrite elem_of_cons. by split; [intros [?|?]|right]. Qed.
Lemma check_loop_spec l : forall s, dns_ok net_ok s -> NoDup l -> (forall i, i ∈ l -> (i < 16)%nat) ->
  exists s', check_loop on_found l s = Ok s' /\ tmr_did l s s'.
Proof.
  induction l as [|j l IH]; intros s Hs Hnd Hl; cbn [check_loop].
  - exists s. split; [done|]. split; [done|apply kept_same|done|]. by rewrite app_nil_r.
  - apply NoDup_cons in Hnd as [Hni Hnd]. assert (Hj : (j < 16)%nat) by (apply Hl; by left).
    destruct (lookup_lt_is_Some_2 (dns_table s) j) as [ej Hej]; [by rewrite (dk_size _ _ Hs)|].
    destruct (check_spec s j ej Hs Hej) as (net & -> & Hok1). cbn [res_bind]. set (s1 := ticked j ej net s) in *.
    destruct (IH s1 Hok1 Hnd) as (s2 & -> & [O2 K2 E2 L2]); [intros k Hk; apply Hl; by right|]. exists s2. split; [done|].
    split; [done|by destruct K2| |].
    + intros i e Hi. destruct (decide (i = j)) as [->|Hne].
      * rewrite (E2 j (tick_entry (dns_servers s) e).1); [by rewrite bool_decide_false, bool_decide_true by (done || by left)|].
        rewrite Hej in Hi. injection Hi as <-. apply list_lookup_insert_eq. by rewrite (dk_size _ _ Hs).
      * rewrite (E2 i e); [by rewrite in_tail by done|]. cbn. by rewrite list_lookup_insert_ne by done.
    + rewrite L2. cbn [flat_map]. unfold slot_timeout at 2. rewrite Hej. cbn [dn_log ticked s1]. rewrite <- app_assoc. f_equal. f_equal.
      assert (Hext : forall i, i ∈ l -> slot_timeout s1 i = slot_timeout s i).
      { intros i Hi. unfold slot_timeout. cbn. rewrite list_lookup_insert_ne; [done|]. intros ->. done. }
      clear -Hext. induction l as [|k l IH]; cbn; [done|]. rewrite Hext by (by left). rewrite IH; [done|]. intros i Hi. apply Hext. by right.
Qed.
(** One call of dns_tmr. *)
Lemma dns_tmr_spec s : dns_ok net_ok s -> exists s', dns_tmr on_found s = Ok s' /\ dns_ok net_ok s' /\ kept s s' /\
  (forall i e, dns_table s !! i = Some e -> dns_table s' !! i = Some (tick_entry (dns_servers s) e).1) /\
  dn_log s' = dn_log s ++ flat_map (slot_timeout s) (seq 0 16).
Proof.
  intros Hs. unfold dns_tmr. destruct (dk_net _ _ Hs) as (pcb & -> & _). unfold dns_check_entries. change (Z.to_nat DNS_TABLE_SIZE) with 16%nat.
  destruct (check_loop_spec (seq 0 16) s Hs) as (s' & -> & [O K E L]).
  - apply NoDup_seq.
  - intros i Hi%elem_of_seq. lia.
  - exists s'. split; [done|]. split; [done|]. split; [done|]. split; [|done].
    intros i e Hi. rewrite (E i e Hi). rewrite bool_decide_true; [done|]. apply lookup_lt_Some in Hi. rewrite (dk_size _ _ Hs) in Hi. apply elem_of_seq. lia.
Qed.
End Table.
