(* ===== verification/DnsLive.v ===== *)
(** * DNS: every request is answered, once

    A request for a name that is not known takes an entry of the table; its
    callback is called when a response comes, or with NULL when the queries to
    the last server timed out, 7 ticks of dns_tmr after they began (1, 1, 2 and
    3 ticks after the queries), which makes 14 with two servers. *)
From S2P Require Import Prelude ByteOrder IpAddr Checksum Ip Tcp TcpOut TcpIn TcpWorld Netif Nbuf Inet Icmp Udp Raw IpInput InetHdr InetSafe InetDemo InetSend Dns DnsTable.

(** A host name as a C string. The query of a name of 255 bytes does not fit. *)
Definition host_ok (name : list Z) : Prop := bytes_ok name /\ Forall (fun c => c <> 0) name /\ zlen name <= 254.
Definition pending (e : dns_table_entry) : bool :=
  match de_state e with DNS_STATE_NEW | DNS_STATE_ASKING => true | _ => false end.
(** The ticks until the timeout of the entry. *)
Definition ticks_left (servers : list Z) (e : dns_table_entry) : Z :=
  match de_state e with
  | DNS_STATE_NEW => 1 + 14
  | DNS_STATE_ASKING => de_tmr e + (6 - de_retries e * (de_retries e + 1) / 2) + (if next_server servers (de_numdns e) then 7 else 0)
  | _ => 0
  end.
(** The entry of a new request. *)
Definition new_entry (name : list Z) (found : bool) (arg seqno : Z) (e : dns_table_entry) : dns_table_entry :=
  mk_dns_entry DNS_STATE_NEW (de_numdns e) (de_tmr e) (de_retries e) seqno (de_err e) (de_ttl e) (put_name name (de_name e)) (de_ipaddr e) found arg.
Definition asked (name : list Z) (found : bool) (arg seqno : Z) (e : dns_table_entry) : dns_table_entry :=
  mk_dns_entry DNS_STATE_ASKING 0 1 0 seqno (de_err e) (de_ttl e) (put_name name (de_name e)) (de_ipaddr e) found arg.
Definition arg_events (arg : Z) (l : list dns_event) : list dns_event := filter (fun ev => fo_arg ev = arg) l.

(** ** Names and ticks *)
Lemma c_str_app name l : Forall (fun c => c <> 0) name -> c_str (name ++ 0 :: l) = name.
Proof.
  induction 1 as [|c name Hc Hn IH]; cbn; [done|]. by rewrite (proj2 (Z.eqb_neq _ _)), IH.
Qed.
Lemma put_name_ok name buf : host_ok name -> bytes_ok buf -> length buf = 256%nat -> name_ok (put_name name buf) /\ c_str (put_name name buf) = name.
Proof.
  intros (Hb & Hz & Hl) Hbuf Hlen. unfold put_name, DNS_MAX_NAME_LENGTH. rewrite Z.min_l by lia. assert (Hn : Z.to_nat (zlen name) = length name) by (unfold zlen; lia).
  rewrite Hn, firstn_all. cbn [app]. assert (Hc : c_str (name ++ 0 :: drop (S (length name)) buf) = name) by (by apply c_str_app).
  split; [|done]. split; [|split].
  - apply bytes_ok_app. split; [done|]. apply bytes_ok_cons. split; [unfold is_u8; lia|by apply Forall_drop].
  - rewrite length_app. cbn [length]. rewrite length_drop. unfold zlen in Hl. lia.
  - by rewrite Hc.
Qed.
Lemma ticks_pos servers e : entry_ok servers e -> pending e = true -> 1 <= ticks_left servers e.
Proof.
  unfold pending, ticks_left. intros He Hp. destruct (de_state e) eqn:Est; [done|lia| |done].
  destruct (eo_asking _ _ He Est) as [Ht Hr]. assert (de_retries e * (de_retries e + 1) / 2 <= 6) by (apply Z.div_le_upper_bound; nia).
  case_match; lia.
Qed.
Lemma ticks_asked servers name found arg seqno e : ticks_left servers (asked name found arg seqno e) <= 14.
Proof. unfold ticks_left, asked. cbn -[Z.div next_server]. change (0 * (0 + 1) / 2) with 0. case_match; lia. Qed.
(** A tick times the entry out at the last moment, and else keeps the request. *)
Lemma tick_pending a b e : let servers := [a; b] in entry_ok servers e -> de_state e = DNS_STATE_ASKING ->
  let '(e', timeout) := tick_entry servers e in
  if ticks_left servers e =? 1 then timeout = true /\ pending e' = false
  else timeout = false /\ de_state e' = DNS_STATE_ASKING /\ ticks_left servers e' = ticks_left servers e - 1 /\
    de_name e' = de_name e /\ de_arg e' = de_arg e /\ de_found e' = de_found e.
Proof.
  intros servers He Est. destruct (eo_asking _ _ He Est) as [Ht Hr]. destruct (eo_server _ _ He) as (x & _ & _ & Hd).
  clear He. destruct e as [st d tmr r q err ttl name ip f arg]. cbn in *. subst st. unfold DNS_MAX_SERVERS in Hd.
  assert (Hd2 : d = 0 \/ d = 1) by lia. assert (Ht3 : tmr = 1 \/ tmr = 2 \/ tmr = 3) by lia. assert (Hr4 : r = 0 \/ r = 1 \/ r = 2 \/ r = 3) by lia.
  clear Hd Ht Hr. destruct Hd2 as [-> | ->], Ht3 as [-> |[-> | ->]], Hr4 as [-> |[-> |[-> | ->]]], b; cbv; split_and!; done.
Qed.
Lemma tick_silent servers e : de_state e <> DNS_STATE_ASKING -> (tick_entry servers e).2 = false.
Proof. unfold tick_entry. by destruct (de_state e). Qed.
Lemma tick_arg servers e : pending (tick_entry servers e).1 = true -> pending e = true /\ de_arg (tick_entry servers e).1 = de_arg e.
Proof. unfold tick_entry, pending. destruct (de_state e) eqn:Est; cbn; rewrite ?Est; repeat case_match; cbn in *; try done; by simplify_eq. Qed.

Section Live.
Context {A : Type} (net_ok : positive -> inet A -> Prop) `{!dns_network net_ok}.
Context (on_found : dns_event -> dns A -> res (dns A)) (Hfound : callbacks_apart net_ok on_found).
Implicit Types (s : dns A) (e : dns_table_entry) (i : nat).

(** ** A request *)
Lemma enqueue_loop_spec l : forall i seqno lseq lseqi o k, enqueue_loop l i seqno lseq lseqi = (o, k) ->
  (forall j, o = Some j -> exists e, (i <= j)%nat /\ l !! (j - i)%nat = Some e /\ de_state e = DNS_STATE_UNUSED) /\
  (k = lseqi \/ (i <= k < i + length l)%nat).
Proof.
  induction l as [|e l IH]; intros i seqno lseq lseqi o k; cbn [enqueue_loop length].
  - intros [= <- <-]. split; [done|by left].
  - assert (Hstep : forall lq m, enqueue_loop l (S i) seqno lq m = (o, k) -> m = lseqi \/ m = i ->
      (forall j, o = Some j -> exists e', (i <= j)%nat /\ (e :: l) !! (j - i)%nat = Some e' /\ de_state e' = DNS_STATE_UNUSED) /\ (k = lseqi \/ (i <= k < i + S (length l))%nat)).
    { intros lq m H Hm. destruct (IH _ _ _ _ _ _ H) as [H1 H2]. split; [|lia]. intros j Hj. destruct (H1 j Hj) as (e' & Hi & He & Hst). exists e'. split; [lia|]. split; [|done].
      replace (j - i)%nat with (S (j - S i)) by lia. done. }
    case_bool_decide as Hu.
    + intros [= <- <-]. split; [|by left]. intros j [= <-]. exists e. rewrite Nat.sub_diag. split; [lia|done].
    + case_match; intros Hl; eapply Hstep; try done; [by right|by left].
Qed.
Lemma enqueue_slot_spec s : dns_ok net_ok s -> exists o, enqueue_slot s = Ok o /\
  forall i, o = Some i -> exists e, dns_table s !! i = Some e /\ pending e = false.
Proof.
  intros Hs. unfold enqueue_slot. destruct (enqueue_loop _ _ _ _ _) as [o k] eqn:E. destruct (enqueue_loop_spec _ _ _ _ _ _ _ E) as [H1 H2].
  destruct o as [j|].
  - exists (Some j). split; [done|]. intros i [= <-]. destruct (H1 j eq_refl) as (e & _ & He & Hst). rewrite Nat.sub_0_r in He. exists e. split; [done|]. unfold pending. by rewrite Hst.
  - destruct (lookup_lt_is_Some_2 (dns_table s) k) as [e He]; [pose proof (dk_size _ _ Hs); lia|]. rewrite (get_entry_ok s k e He). cbn [res_bind].
    eexists. split; [done|]. intros i Hi. case_bool_decide as Hst; [|done]. injection Hi as <-. exists e. split; [done|]. unfold pending. by rewrite Hst.
Qed.
(** What a request did: nothing, or it took a free entry. *)
Inductive request_did (name : list Z) (found : bool) (arg : Z) s : err_t -> dns A -> Prop :=
  | did_nothing err : err <> ERR_INPROGRESS -> request_did name found arg s err s
  | did_enqueue i e s' : dns_table s !! i = Some e -> pending e = false ->
      dns_table s' = <[i := asked name found arg (dns_seqno s) e]> (dns_table s) -> dns_servers s' = dns_servers s -> dn_log s' = dn_log s ->
      request_did name found arg s ERR_INPROGRESS s'.
Lemma request_spec s name found arg : dns_ok net_ok s -> host_ok name ->
  exists err o s', dns_gethostbyname on_found name found arg s = Ok (err, o, s') /\ dns_ok net_ok s' /\ request_did name found arg s err s'.
Proof.
  intros Hs Hn. unfold dns_gethostbyname. destruct (_ || _).
  { exists ERR_ARG, None, s. split; [done|]. split; [done|by constructor]. }
  cbv zeta. destruct (negb (_ =? IPADDR_NONE)).
  { eexists ERR_OK, _, s. split; [done|]. split; [done|by constructor]. }
  unfold dns_enqueue. destruct (enqueue_slot_spec s Hs) as (o & -> & Ho). cbn [res_bind]. destruct o as [i|].
  2:{ exists ERR_MEM, None, s. split; [done|]. split; [done|by constructor]. }
  destruct (Ho i eq_refl) as (e & Hi & Hp). rewrite (upd_entry_eq i _ s e Hi). cbn [res_bind].
  set (e1 := e <| de_state := DNS_STATE_NEW |> <| de_seqno := dns_seqno s |> <| de_found := found |> <| de_arg := arg |> <| de_name := put_name name (de_name e) |>).
  pose proof (entry_ok_at net_ok s i e Hs Hi) as [E1 E2 E3 E4]. destruct E1 as (N1 & N2 & N3). destruct (put_name_ok name (de_name e) Hn N1 N2) as [Hpn _].
  assert (He1 : entry_ok (dns_servers s) e1) by (by split).
  set (s1 := (put_entry i e1 s) <| dns_seqno := _ |>). assert (Hs1 : dns_ok net_ok s1) by (by destruct (dns_ok_put net_ok s i e1 Hs He1); split).
  assert (Hi1 : dns_table s1 !! i = Some e1) by (by apply (put_lookup i e)).
  destruct (check_spec net_ok on_found Hfound s1 i e1 Hs1 Hi1) as (net & -> & Hok). cbn [res_bind]. eexists ERR_INPROGRESS, None, _. split; [done|]. split; [done|].
  apply (did_enqueue _ _ _ _ i e); try done.
  - cbn. by rewrite list_insert_insert_eq.
  - cbn. unfold timeout_event. cbn. by rewrite app_nil_r.
Qed.

(** ** A message *)
Inductive recv_did s : dns A -> Prop :=
  | did_ignore s' : dns_table s' = dns_table s -> dns_servers s' = dns_servers s -> dn_log s' = dn_log s -> recv_did s s'
  | did_answer i e e' a s' : dns_table s !! i = Some e -> de_state e = DNS_STATE_ASKING -> pending e' = false ->
      dns_table s' = <[i := e']> (dns_table s) -> dns_servers s' = dns_servers s ->
      dn_log s' = dn_log s ++ (if de_found e then [mk_found i (de_arg e) (c_str (de_name e)) a] else []) -> recv_did s s'.
Lemma response_err_spec s i e : dns_ok net_ok s -> dns_table s !! i = Some e ->
  exists net, response_err on_found i s = Ok (called i e None net (put_entry i (flush e) s)) /\ dns_ok net_ok (called i e None net (put_entry i (flush e) s)).
Proof.
  intros Hs Hi. unfold response_err. rewrite (get_entry_ok s i e Hi). cbn [res_bind]. destruct (dk_net _ _ Hs) as (pcb & Hp & Hnet).
  destruct (call_found_spec net_ok on_found Hfound i e None s pcb Hp Hnet) as (net & -> & Hn). cbn [res_bind]. exists net.
  rewrite (upd_entry_eq i flush _ e) by done. split; [done|].
  apply (called_ok net_ok i e None net _ pcb); [|done..]. apply dns_ok_put; [done|]. apply flush_ok. by apply (entry_ok_at net_ok s i).
Qed.
Lemma answer_loop_ttl n : forall buf pos ttl a, answer_loop n buf pos = Ok (Some (ttl, a)) -> is_u32 ttl.
Proof.
  induction n as [|n IH]; intros buf pos ttl a; cbn [answer_loop]; [done|]. destruct (dns_parse_name buf pos) as [p|]; [|done]. cbn [res_bind].
  destruct (read_answer buf p) as [ans|] eqn:Ea; [|done]. cbn [res_bind]. case_match; [|apply IH]. destruct (rd_n buf _ 4) as [l|]; [|done]. cbn [res_bind].
  repeat (case_match; try done). intros [= <- <-]. unfold read_answer in Ea. destruct (rd_n buf p _) as [la|]; [|done]. cbn [res_bind] in Ea.
  repeat (case_match; try done). injection Ea as <-. cbn [an_ttl]. apply lwip_htonl_range.
Qed.
(** The response to an entry that waits, if it can be read. *)
Lemma response_spec s i e s' : dns_ok net_ok s -> dns_table s !! i = Some e -> de_state e = DNS_STATE_ASKING ->
  dns_response on_found i s = Ok s' -> dns_ok net_ok s' /\ recv_did s s'.
Proof.
  intros Hs Hi Hst. unfold dns_response. destruct (rd _ 2) as [f1|]; [|done]. cbn [res_bind]. destruct (rd _ 3) as [f2|]; [|done]. cbn [res_bind]. cbv zeta.
  set (err := Z.land f2 DNS_FLAG2_ERR_MASK). rewrite (upd_entry_eq i _ s e Hi). cbn [res_bind]. set (e1 := e <| de_state := DNS_STATE_DONE |> <| de_err := err |>).
  pose proof (entry_ok_at net_ok s i e Hs Hi) as He. assert (He1 : entry_ok (dns_servers s) e1) by (by destruct He; split).
  set (s1 := put_entry i e1 s). assert (Hs1 : dns_ok net_ok s1) by (by apply dns_ok_put).
  assert (Hi1 : dns_table s1 !! i = Some e1) by (by apply (put_lookup i e)).
  destruct (rd_n _ 4 4) as [q|]; [|done]. cbn [res_bind]. destruct (match q with [_; _; _; _] => _ | _ => _ end) as [[nq na]|]; [|done]. cbn [res_bind].
  assert (Herr : response_err on_found i s1 = Ok s' -> dns_ok net_ok s' /\ recv_did s s').
  { destruct (response_err_spec s1 i e1 Hs1 Hi1) as (net & -> & Hok). intros [= <-]. split; [exact Hok|]. eapply (did_answer s i e (flush e1) None); try done. cbn. by rewrite list_insert_insert_eq. }
  case_match; [done|]. rewrite (get_entry_ok s1 i e1 Hi1). cbn [res_bind]. destruct (dns_compare_name _ _ _) as [differs|]; [|done]. cbn [res_bind].
  destruct differs; [done|]. destruct (dns_parse_name _ _) as [pos|]; [|done]. cbn [res_bind]. destruct (answer_loop _ _ _) as [[[ttl a]|]|] eqn:Ea; cbn [res_bind]; [|done|done].
  destruct (dk_net _ _ Hs1) as (pcb & Hpc & Hnet). match goal with |- call_found _ _ ?e2 ?a2 ?s2 = _ -> _ =>
    destruct (call_found_spec net_ok on_found Hfound i e2 a2 s2 pcb) as (net & -> & Hn); [done..|] end.
  intros [= <-]. apply answer_loop_ttl in Ea. split.
  - refine (called_ok net_ok _ _ _ net (put_entry i _ s1) pcb (dns_ok_put net_ok s1 i _ Hs1 _) Hpc Hn). destruct He1. split; try done. cbn.
    case_match; [unfold is_u32, DNS_MAX_TTL; lia|done].
  - apply (did_answer s i e (e1 <| de_ttl := if DNS_MAX_TTL <? ttl then DNS_MAX_TTL else ttl |> <| de_ipaddr := a |>) (Some a)); try done. cbn. by rewrite list_insert_insert_eq.
Qed.
Lemma recv_spec s data s' : dns_ok net_ok s -> bytes_ok data -> dns_recv on_found data s = Ok s' -> dns_ok net_ok s' /\ recv_did s s'.
Proof.
  intros Hs Hb. unfold dns_recv. destruct (Z.ltb_spec DNS_MSG_SIZE (zlen data)) as [Hl|Hl]; [intros [= <-]; split; [done|by apply did_ignore]|].
  case_match; [intros [= <-]; split; [done|by apply did_ignore]|]. cbv zeta. set (buf := data ++ _). set (s1 := s <| dns_payload := buf |>).
  assert (Hs1 : dns_ok net_ok s1).
  { destruct Hs as [H1 H2 H3 [H4 H4'] H5]. split; try done. cbn. split.
    - unfold buf. rewrite length_app, length_drop, H4. unfold zlen, DNS_MSG_SIZE in Hl. lia.
    - apply bytes_ok_app. split; [done|]. by apply Forall_drop. }
  destruct (rd_n buf 0 2) as [id|]; [|done]. cbn [res_bind]. destruct (match id with [_; _] => _ | _ => _ end) as [idx|]; [|done]. cbn [res_bind].
  case_match; [|intros [= <-]; split; [done|by apply did_ignore]].
  destruct (get_entry s1 (Z.to_nat idx)) as [e|] eqn:He; [|done]. cbn [res_bind]. case_bool_decide as Hst; [|intros [= <-]; split; [done|by apply did_ignore]].
  unfold get_entry in He. destruct (dns_table s1 !! Z.to_nat idx) as [e'|] eqn:He'; [|done]. injection He as ->.
  intros H1. destruct (response_spec s1 _ e s' Hs1 He' Hst H1) as [Hok Hdid]. split; [done|]. inversion Hdid; [by apply did_ignore|]. by eapply did_answer.
Qed.

(** ** Runs *)

(** [n] ticks, among them messages from anyone, requests of others (whose
    callbacks have another argument than [arg]), and what happens to the network
    meanwhile. *)
Inductive dns_run (arg : Z) : nat -> dns A -> dns A -> Prop :=
  | run_nil s : dns_run arg 0 s s
  | run_tick n s s1 s2 : dns_tmr on_found s = Ok s1 -> dns_run arg n s1 s2 -> dns_run arg (S n) s s2
  | run_recv n data s s1 s2 : bytes_ok data -> dns_recv on_found data s = Ok s1 -> dns_run arg n s1 s2 -> dns_run arg n s s2
  | run_ask n name found arg' err o s s1 s2 : host_ok name -> arg' <> arg ->
      dns_gethostbyname on_found name found arg' s = Ok (err, o, s1) -> dns_run arg n s1 s2 -> dns_run arg n s s2
  | run_net n net pcb s s2 : dns_pcb s = Some pcb -> net_ok pcb net -> dns_run arg n (s <| dn_inet := net |>) s2 -> dns_run arg n s s2.
(** No pending request has the argument [arg] (but that of the entry [i]). *)
Definition quiet (arg : Z) (o : option nat) s : Prop :=
  forall j e, dns_table s !! j = Some e -> o <> Some j -> pending e = true -> de_arg e <> arg.
Record waiting (arg : Z) (name : list Z) i (k : Z) s : Prop := {
  wt_quiet : quiet arg (Some i) s;
  wt_entry : exists e, dns_table s !! i = Some e /\ de_state e = DNS_STATE_ASKING /\ de_found e = true /\ de_arg e = arg /\
    c_str (de_name e) = name /\ ticks_left (dns_servers s) e <= k
}.
(** The events of a step. *)
Definition step_events s s' (P : list dns_event -> Prop) : Prop := exists ev, dn_log s' = dn_log s ++ ev /\ P ev.

Lemma quiet_put arg o i e s s' : quiet arg o s -> dns_table s' = <[i := e]> (dns_table s) -> pending e = false \/ de_arg e <> arg -> quiet arg o s'.
Proof.
  intros Hq Ht He j e' Hj Ho Hp. rewrite Ht in Hj. apply list_lookup_insert_Some in Hj as [(-> & -> & _)|[_ Hj]]; [destruct He; congruence|by eapply Hq].
Qed.
Lemma waiting_put arg name i k j e e' s s' : waiting arg name i k s -> dns_table s !! j = Some e -> (de_state e <> DNS_STATE_ASKING \/ de_arg e <> arg) ->
  dns_table s' = <[j := e']> (dns_table s) -> dns_servers s' = dns_servers s -> pending e' = false \/ de_arg e' <> arg -> waiting arg name i k s'.
Proof.
  intros [Hq (e0 & H0 & H1 & H2 & H3 & H4)] Hj Hne Ht Hsv He'. assert (Hij : j <> i) by (intros ->; destruct Hne; congruence).
  split; [by eapply quiet_put|]. exists e0. rewrite Ht, Hsv, list_lookup_insert_ne by done. done.
Qed.
Lemma flat_map_none (f : nat -> list dns_event) arg l : (forall j, j ∈ l -> arg_events arg (f j) = []) -> arg_events arg (flat_map f l) = [].
Proof.
  induction l as [|j l IH]; intros H; cbn; [done|]. unfold arg_events in *. rewrite filter_app, H, IH; [done| |by left]. intros k Hk. apply H. by right.
Qed.
Lemma flat_map_one (f : nat -> list dns_event) arg l i : NoDup l -> i ∈ l -> (forall j, j ∈ l -> j <> i -> arg_events arg (f j) = []) ->
  arg_events arg (flat_map f l) = arg_events arg (f i).
Proof.
  induction l as [|j l IH]; intros Hnd Hi H; [by apply not_elem_of_nil in Hi|]. apply NoDup_cons in Hnd as [Hj Hnd]. cbn. unfold arg_events in *. rewrite filter_app.
  apply elem_of_cons in Hi as [<-|Hi].
  - change (filter _ (flat_map f l)) with (arg_events arg (flat_map f l)). rewrite flat_map_none; [by rewrite app_nil_r|]. intros k Hk. apply H; [by right|]. by intros ->.
  - rewrite IH, H; [done|by left|by intros ->|done|done|]. intros k Hk. apply H. by right.
Qed.
Lemma timeout_arg arg i servers e : de_arg e <> arg \/ pending e = false -> arg_events arg (timeout_event i servers e) = [].
Proof.
  unfold timeout_event, pending. intros [He|He].
  - destruct (_ && _); [|done]. unfold arg_events. by rewrite filter_cons_False by done.
  - rewrite tick_silent; [done|]. intros E. by rewrite E in He.
Qed.
(** A tick. *)
Lemma quiet_tick arg o s s' : dns_ok net_ok s -> quiet arg o s -> dns_ok net_ok s' ->
  (forall i e, dns_table s !! i = Some e -> dns_table s' !! i = Some (tick_entry (dns_servers s) e).1) -> quiet arg o s'.
Proof.
  intros Hs Hq Hs' He j e Hj Ho Hp. destruct (lookup_lt_is_Some_2 (dns_table s) j) as [e0 H0].
  { apply lookup_lt_Some in Hj. by rewrite (dk_size _ _ Hs'), <- (dk_size _ _ Hs) in Hj. }
  rewrite (He j e0 H0) in Hj. injection Hj as <-. destruct (tick_arg _ _ Hp) as [Hp0 ->]. by eapply Hq.
Qed.
Lemma slot_quiet arg o s j : quiet arg o s -> o <> Some j -> arg_events arg (slot_timeout s j) = [].
Proof.
  intros Hq Ho. unfold slot_timeout. destruct (dns_table s !! j) as [e|] eqn:Hj; [|done]. apply timeout_arg. destruct (pending e) eqn:Hp; [left|by right]. by eapply Hq.
Qed.
Lemma tick_waits arg name i k s : dns_ok net_ok s -> waiting arg name i k s -> exists s', dns_tmr on_found s = Ok s' /\ dns_ok net_ok s' /\
  ((step_events s s' (fun ev => arg_events arg ev = []) /\ waiting arg name i (k - 1) s') \/
   (step_events s s' (fun ev => arg_events arg ev = [mk_found i arg name None]) /\ quiet arg None s')).
Proof.
  intros Hs [Hq (e & Hi & Hst & Hf & Ha & Hn & Hk)]. destruct (dns_tmr_spec net_ok on_found Hfound s Hs) as (s' & Ht & Hs' & Hkept & He & Hl). exists s'. split; [done|]. split; [done|].
  assert (Hev : arg_events arg (flat_map (slot_timeout s) (seq 0 16)) = arg_events arg (timeout_event i (dns_servers s) e)).
  { rewrite (flat_map_one _ arg _ i); [unfold slot_timeout; by rewrite Hi|apply NoDup_seq| |].
    - apply lookup_lt_Some in Hi. rewrite (dk_size _ _ Hs) in Hi. apply elem_of_seq. lia.
    - intros j _ Hj. eapply slot_quiet; [done|]. congruence. }
  destruct (dk_servers _ _ Hs) as (a & b & Hsv & _). pose proof (tick_pending a b e) as Htp. cbv zeta in Htp. rewrite <- Hsv in Htp.
  specialize (Htp (entry_ok_at net_ok s i e Hs Hi) Hst). specialize (He i e Hi) as Hi'. unfold timeout_event in Hev. destruct (tick_entry (dns_servers s) e) as [e' t] eqn:Et. cbn [fst snd] in Hi', Hev.
  pose proof (quiet_tick arg (Some i) s s' Hs Hq Hs' He) as Hq'. case_match.
  - destruct Htp as [-> Hp']. right. split.
    + eexists. split; [exact Hl|]. rewrite Hev, Hf, Ha, Hn. cbn. by rewrite decide_True by done.
    + intros j e1 Hj _ Hp. destruct (decide (j = i)) as [->|Hne]; [congruence|]. eapply Hq'; [done|congruence|done].
  - destruct Htp as (-> & T1 & T2 & T3 & T4 & T5). left. split.
    + eexists. split; [exact Hl|]. by rewrite Hev.
    + split; [done|]. exists e'. rewrite (kp_servers _ _ Hkept), T3, T4, T5. split_and!; try done. lia.
Qed.
Lemma tick_quiet arg s : dns_ok net_ok s -> quiet arg None s -> exists s', dns_tmr on_found s = Ok s' /\ dns_ok net_ok s' /\
  step_events s s' (fun ev => arg_events arg ev = []) /\ quiet arg None s'.
Proof.
  intros Hs Hq. destruct (dns_tmr_spec net_ok on_found Hfound s Hs) as (s' & Ht & Hs' & Hkept & He & Hl). exists s'. split; [done|]. split; [done|].
  split; [|exact (quiet_tick arg None s s' Hs Hq Hs' He)]. eexists. split; [exact Hl|].
  apply flat_map_none. intros j _. by apply (slot_quiet arg None).
Qed.
(** The other steps. *)
Lemma waits_put arg name i k s s' j e e' a : waiting arg name i k s -> dns_table s !! j = Some e -> de_state e = DNS_STATE_ASKING -> pending e' = false ->
  dns_table s' = <[j := e']> (dns_table s) -> dns_servers s' = dns_servers s ->
  dn_log s' = dn_log s ++ (if de_found e then [mk_found j (de_arg e) (c_str (de_name e)) a] else []) ->
  (step_events s s' (fun ev => arg_events arg ev = []) /\ waiting arg name i k s') \/
  (step_events s s' (fun ev => arg_events arg ev = [mk_found i arg name a]) /\ quiet arg None s').
Proof.
  intros Hw Hj Hst Hp Ht Hsv Hl. destruct (wt_entry _ _ _ _ _ Hw) as (e0 & H0 & H1 & H2 & H3 & H4 & H5). destruct (decide (j = i)) as [->|Hne].
  - rewrite Hj in H0. injection H0 as <-. right. split.
    + eexists. split; [exact Hl|]. rewrite H2, H3, H4. cbn. by rewrite decide_True by done.
    + intros j e1 Hj1 _ Hp1. rewrite Ht in Hj1. apply list_lookup_insert_Some in Hj1 as [(-> & -> & _)|[Hne Hj1]]; [congruence|].
      eapply (wt_quiet _ _ _ _ _ Hw); [done|congruence|done].
  - assert (Ha : de_arg e <> arg) by (apply (wt_quiet _ _ _ _ _ Hw j e Hj); [congruence|unfold pending; by rewrite Hst]). left. split.
    + eexists. split; [exact Hl|]. destruct (de_found e); [|done]. cbn. by rewrite decide_False.
    + eapply waiting_put; [done|exact Hj|by right|done|done|by left].
Qed.
Lemma quiet_request arg o name found arg' s err s' : quiet arg o s -> arg' <> arg -> request_did name found arg' s err s' ->
  step_events s s' (fun ev => arg_events arg ev = []) /\ quiet arg o s'.
Proof.
  intros Hq Hne [err' Herr|i e s'' Hi Hp Ht Hsv Hl].
  - split; [exists []; by rewrite app_nil_r|done].
  - split; [exists []; by rewrite app_nil_r|]. eapply quiet_put; [done|done|by right].
Qed.
Lemma waiting_request arg nm i k name found arg' s err s' : waiting arg nm i k s -> arg' <> arg -> request_did name found arg' s err s' ->
  step_events s s' (fun ev => arg_events arg ev = []) /\ waiting arg nm i k s'.
Proof.
  intros Hw Hne [err' Herr|j e s'' Hi Hp Ht Hsv Hl].
  - split; [exists []; by rewrite app_nil_r|done].
  - split; [exists []; by rewrite app_nil_r|]. eapply waiting_put; [done|exact Hi| |done|done|by right]. left. intros E. unfold pending in Hp. by rewrite E in Hp.
Qed.
Lemma quiet_recv arg s s' : quiet arg None s -> recv_did s s' -> step_events s s' (fun ev => arg_events arg ev = []) /\ quiet arg None s'.
Proof.
  intros Hq [s'' Ht Hsv Hl|j e e' a s'' Hj Hst Hp Ht Hsv Hl].
  - split; [exists []; by rewrite app_nil_r|]. intros j e. rewrite Ht. apply Hq.
  - assert (Ha : de_arg e <> arg) by (apply (Hq j e Hj); [done|unfold pending; by rewrite Hst]). split.
    + eexists. split; [exact Hl|]. destruct (de_found e); [|done]. cbn. by rewrite decide_False.
    + eapply quiet_put; [done|done|by left].
Qed.
Lemma step_trans s1 s2 s3 (P Q R : list dns_event -> Prop) : step_events s1 s2 P -> step_events s2 s3 Q ->
  (forall l1 l2, P l1 -> Q l2 -> R (l1 ++ l2)) -> step_events s1 s3 R.
Proof. intros (l1 & L1 & H1) (l2 & L2 & H2) H. exists (l1 ++ l2). split; [by rewrite L2, L1, app_assoc|by apply H]. Qed.
Lemma arg_events_app arg l1 l2 : arg_events arg (l1 ++ l2) = arg_events arg l1 ++ arg_events arg l2.
Proof. apply filter_app. Qed.
(** The rest of a run, after the answer and before it. *)
Lemma run_quiet arg n s s' : dns_run arg n s s' -> dns_ok net_ok s -> quiet arg None s -> step_events s s' (fun ev => arg_events arg ev = []).
Proof.
  assert (Htr : forall s1 s2 s3, step_events s1 s2 (fun ev => arg_events arg ev = []) -> step_events s2 s3 (fun ev => arg_events arg ev = []) ->
    step_events s1 s3 (fun ev => arg_events arg ev = [])).
  { intros s1 s2 s3 H1 H2. eapply step_trans; [exact H1|exact H2|]. intros l1 l2 E1 E2. by rewrite arg_events_app, E1, E2. }
  induction 1 as [s|n s s1 s2 Ht Hr IH|n data s s1 s2 Hb Ht Hr IH|n name found arg' err o s s1 s2 Hn Hne Ht Hr IH|n net pcb s s2 Hp Hnet Hr IH]; intros Hs Hq.
  - exists []. by rewrite app_nil_r.
  - destruct (tick_quiet arg s Hs Hq) as (s1' & Ht' & Hs1 & He & Hq1). rewrite Ht in Ht'. injection Ht' as <-. eapply Htr; [exact He|by apply IH].
  - destruct (recv_spec s data s1 Hs Hb Ht) as [Hs1 Hdid]. destruct (quiet_recv arg s s1 Hq Hdid) as [He Hq1]. eapply Htr; [exact He|by apply IH].
  - destruct (request_spec s name found arg' Hs Hn) as (err' & o' & s1' & Ht' & Hs1 & Hdid). rewrite Ht in Ht'. injection Ht' as <- <- <-.
    destruct (quiet_request arg None name found arg' s err s1 Hq Hne Hdid) as [He Hq1]. eapply Htr; [exact He|by apply IH].
  - apply IH; [by eapply dns_ok_net|done].
Qed.
Lemma run_waiting arg name i n s s' : dns_run arg n s s' -> forall k, dns_ok net_ok s -> waiting arg name i k s ->
  step_events s s' (fun ev => (arg_events arg ev = [] /\ Z.of_nat n < k) \/ exists a, arg_events arg ev = [mk_found i arg name a]).
Proof.
  assert (Hdone : forall n k s1 s2 s3 a, step_events s1 s2 (fun ev => arg_events arg ev = [mk_found i arg name a]) -> dns_run arg n s2 s3 -> dns_ok net_ok s2 -> quiet arg None s2 ->
    step_events s1 s3 (fun ev => (arg_events arg ev = [] /\ k) \/ exists a, arg_events arg ev = [mk_found i arg name a])).
  { intros m k s1 s2 s3 a H1 H2 H3 H4. eapply step_trans; [exact H1|by eapply run_quiet|]. intros l1 l2 E1 E2. right. exists a. by rewrite arg_events_app, E1, E2. }
  assert (Hmore : forall (k k' : Prop) s1 s2 s3, (k' -> k) -> step_events s1 s2 (fun ev => arg_events arg ev = []) ->
    step_events s2 s3 (fun ev => (arg_events arg ev = [] /\ k') \/ exists a, arg_events arg ev = [mk_found i arg name a]) ->
    step_events s1 s3 (fun ev => (arg_events arg ev = [] /\ k) \/ exists a, arg_events arg ev = [mk_found i arg name a])).
  { intros k k' s1 s2 s3 Hk H1 H2. eapply step_trans; [exact H1|exact H2|]. intros l1 l2 E1 E2. rewrite arg_events_app, E1. cbn. destruct E2 as [[E2 ?]|E2]; [left; auto|by right]. }
  induction 1 as [s|n s s1 s2 Ht Hr IH|n data s s1 s2 Hb Ht Hr IH|n nm found arg' err o s s1 s2 Hn Hne Ht Hr IH|n net pcb s s2 Hp Hnet Hr IH]; intros k Hs Hw.
  - exists []. rewrite app_nil_r. split; [done|]. left. split; [done|]. destruct (wt_entry _ _ _ _ _ Hw) as (e & Hi & Hst & _ & _ & _ & Hk).
    pose proof (ticks_pos _ e (entry_ok_at net_ok s i e Hs Hi)) as Hpos. unfold pending in Hpos. rewrite Hst in Hpos. specialize (Hpos eq_refl). lia.
  - destruct (tick_waits arg name i k s Hs Hw) as (s1' & Ht' & Hs1 & Hd). rewrite Ht in Ht'. injection Ht' as <-. destruct Hd as [[He Hw1]|[He Hq1]].
    + eapply (Hmore _ (Z.of_nat n < k - 1)); [lia|exact He|by apply IH].
    + by eapply Hdone.
  - destruct (recv_spec s data s1 Hs Hb Ht) as [Hs1 Hdid]. inversion Hdid as [s'' T1 T2 T3|j e e' a s'' T1 T2 T3 T4 T5 T6]; subst.
    + eapply (Hmore _ (Z.of_nat n < k)); [done| |apply IH; [done|]].
      * exists []. by rewrite app_nil_r.
      * destruct Hw as [Hq He]. split; [intros j e; rewrite T1; apply Hq|by rewrite T1, T2].
    + destruct (waits_put arg name i k s s1 j e e' a Hw T1 T2 T3 T4 T5 T6) as [[He Hw1]|[He Hq1]]; [|by eapply Hdone]. eapply (Hmore _ (Z.of_nat n < k)); [done|exact He|by apply IH].
  - destruct (request_spec s nm found arg' Hs Hn) as (err' & o' & s1' & Ht' & Hs1 & Hdid). rewrite Ht in Ht'. injection Ht' as <- <- <-.
    destruct (waiting_request arg name i k nm found arg' s err s1 Hw Hne Hdid) as [He Hw1]. eapply (Hmore _ (Z.of_nat n < k)); [done|exact He|by apply IH].
  - apply IH; [by eapply dns_ok_net|]. by destruct Hw.
Qed.
Lemma dns_run_ok arg n s s' : dns_run arg n s s' -> dns_ok net_ok s -> dns_ok net_ok s'.
Proof.
  induction 1 as [s|n s s1 s2 Ht Hr IH|n data s s1 s2 Hb Ht Hr IH|n nm found arg' err o s s1 s2 Hn Hne Ht Hr IH|n net pcb s s2 Hp Hnet Hr IH]; intros Hs; [done|..]; apply IH.
  - destruct (dns_tmr_spec net_ok on_found Hfound s Hs) as (s1' & Ht' & Hs1 & _). rewrite Ht in Ht'. by injection Ht' as <-.
  - by destruct (recv_spec s data s1 Hs Hb Ht).
  - destruct (request_spec s nm found arg' Hs Hn) as (err' & o' & s1' & Ht' & Hs1 & _). rewrite Ht in Ht'. by injection Ht' as _ _ <-.
  - by eapply dns_ok_net.
Qed.

(** C24. A request for a host name (of at most 254 bytes) returns, with an error,
    with the address, or with ERR_INPROGRESS; then the callback with its
    argument [arg] has not been called, it is called at most once in whatever
    follows - ticks of the timer, any messages that dns_recv gets through
    (one that leads it out of its buffer is not followed further:
    [answer_behind_buffer]), other
    requests, changes of the network - and it has been called, with the name
    and with an address or NULL, once 14 ticks have passed; the timer itself
    never fails. No other pending request uses the argument [arg], and the
    callbacks of all requests leave the resolver alone; whatever else they do to the
    network and the application they may ([callbacks_apart]). A callback that
    itself makes a request can lose it: [request_lost]. *)
Theorem dns_answered_once s name arg : dns_ok net_ok s -> host_ok name -> quiet arg None s ->
  exists err o s1, dns_gethostbyname on_found name true arg s = Ok (err, o, s1) /\ dns_ok net_ok s1 /\ dn_log s1 = dn_log s /\
    (err = ERR_INPROGRESS -> exists i, forall n s2, dns_run arg n s1 s2 -> (exists s3, dns_tmr on_found s2 = Ok s3) /\
      step_events s s2 (fun ev => (arg_events arg ev = [] /\ Z.of_nat n < 14) \/ exists a, arg_events arg ev = [mk_found i arg name a])).
Proof.
  intros Hs Hn Hq. destruct (request_spec s name true arg Hs Hn) as (err & o & s1 & Ht & Hs1 & Hdid). exists err, o, s1. split; [done|]. split; [done|].
  destruct Hdid as [err Herr|i e s1 Hi Hp Htab Hsv Hl]; [done|]. split; [done|]. intros _. exists i. intros n s2 Hr.
  destruct (dns_tmr_spec net_ok on_found Hfound s2) as (s3 & H3 & _); [by eapply dns_run_ok|]. split; [by exists s3|].
  destruct (eo_name _ _ (entry_ok_at net_ok s i e Hs Hi)) as (N1 & N2 & N3). destruct (put_name_ok name (de_name e) Hn N1 N2) as [_ Hc].
  destruct (run_waiting arg name i n s1 s2 Hr 14 Hs1) as (ev & Hl2 & Hev); [|exists ev; by rewrite Hl2, Hl].
  assert (Hi1 : dns_table s1 !! i = Some (asked name true arg (dns_seqno s) e)) by (rewrite Htab; apply list_lookup_insert_eq; by eapply lookup_lt_Some).
  split; [|eexists; split_and!; [exact Hi1|done..|apply ticks_asked]]. intros j e1 Hj Hne Hp1. rewrite Htab, list_lookup_insert_ne in Hj by congruence. by eapply Hq.
Qed.
End Live.

(** ** A host *)
Definition host_name : list Z := [119; 46; 110; 101; 116]. (* "w.net" *)
Definition dns_demo : dns unit := match dns_init (dns_zero inet_init) with Ok s => s | Err _ => dns_zero inet_init end.
Lemma dns_demo_ok : dns_ok dns_net_ok dns_demo.
Proof.
  split.
  - exists 2%positive. split; [by vm_compute|]. destruct inet_init_ok as [H1 H2 H3 H4 H5]. split.
    + split; [exact H1|exact H2|exact H3| |constructor]. repeat constructor. eexists. by vm_compute.
    + eexists. split; [vm_compute; reflexivity|]. split; [done|]. split; [done|]. by split; vm_compute.
    + change (udp_pcbs (dn_inet dns_demo)) with [2%positive]. by left.
    + intros id x Hx. assert (Hx' : ({[0%nat := lan_if]} : gmap nat iface) !! id = Some x) by exact Hx. apply lookup_singleton_Some in Hx' as [_ <-]. split; [by vm_compute|right; cbn; lia].
    + by vm_compute.
  - by vm_compute.
  - eexists _, _. split; [vm_compute; reflexivity|]. by vm_compute.
  - split; [by vm_compute|]. apply bytes_check. by vm_compute.
  - assert (He : entry_ok (dns_servers dns_demo) unused_entry).
    { split; [split; [apply bytes_check; by vm_compute|by vm_compute]| |done|by vm_compute]. eexists. by vm_compute. }
    change (dns_table dns_demo) with (replicate 16 unused_entry). by apply Forall_replicate.
Qed.
Lemma host_name_ok : host_ok host_name.
Proof. split; [apply bytes_check; by vm_compute|]. split; [by repeat constructor|by vm_compute]. Qed.
Lemma dns_demo_quiet arg : quiet arg None dns_demo.
Proof.
  intros j e Hj _ Hp. change (dns_table dns_demo) with (replicate 16 unused_entry) in Hj. by apply lookup_replicate in Hj as [-> _].
Qed.
Lemma keep_apart : callbacks_apart dns_net_ok (fun (_ : dns_event) (s : dns unit) => Ok s).
Proof. intros ev s pcb _ Hn. exists (dn_inet s). split; [by destruct s|done]. Qed.
Lemma dns_answered_once_witness : let keep := fun (ev : dns_event) (s : dns unit) => Ok s in
  exists err o s1, dns_gethostbyname keep host_name true 7 dns_demo = Ok (err, o, s1) /\ dns_ok dns_net_ok s1 /\ dn_log s1 = dn_log dns_demo /\
    (err = ERR_INPROGRESS -> exists i, forall n s2, dns_run dns_net_ok keep 7 n s1 s2 -> (exists s3, dns_tmr keep s2 = Ok s3) /\
      step_events dns_demo s2 (fun ev => (arg_events 7 ev = [] /\ Z.of_nat n < 14) \/ exists a, arg_events 7 ev = [mk_found i 7 host_name a])).
Proof.
  apply (dns_answered_once dns_net_ok (fun ev s => Ok s)); [exact keep_apart|exact dns_demo_ok|exact host_name_ok|exact (dns_demo_quiet 7)].
Defined.
(** The first server alone: the callback is called with NULL in the seventh
    tick. *)
Fixpoint dns_ticks {A} (on_found : dns_event -> dns A -> res (dns A)) (n : nat) (s : dns A) : res (dns A) :=
  match n with O => Ok s | S n => let! s := dns_tmr on_found s in dns_ticks on_found n s end.
Example timeout_in_7 : forall n, (n <= 7)%nat ->
  (let! (_, _, s) := dns_gethostbyname (fun _ s => Ok s) host_name true 7 dns_demo in let! s := dns_ticks (fun _ s => Ok s) n s in Ok (dn_log s)) =
  Ok (if (n <? 7)%nat then [] else [mk_found 0 7 host_name None]).
Proof. intros n Hn. do 8 (destruct n as [|n]; [by vm_compute|]). lia. Qed.
