(* ===== verification/DnsReply.v ===== *)
(** * DNS: a reply is understood

    The format of a reply as RFC 1035 has it, against what dns_recv makes of the
    bytes: names are labels of 1 to 63 bytes that end with 0 or with a pointer. *)
From S2P Require Import Prelude ByteOrder IpAddr Checksum Ip Tcp TcpOut TcpIn TcpWorld Netif Nbuf Inet Icmp Udp Raw IpInput InetHdr InetSafe InetDemo InetSend Dns DnsTable DnsLive.

(** ** The format *)
Record rname := mk_rname { rn_labels : list (list Z); rn_ptr : option (Z * Z) }.
Definition label_ok (l : list Z) : Prop := 1 <= zlen l <= 63 /\ Forall (fun c => c <> 0 /\ c <> 46) l /\ bytes_ok l.
Definition rname_ok (n : rname) : Prop :=
  Forall label_ok (rn_labels n) /\
  match rn_ptr n with Some (b0, b1) => 192 <= b0 < 256 /\ is_u8 b1 | None => rn_labels n <> [] end.
Fixpoint labels_bytes (ls : list (list Z)) (tail : list Z) : list Z :=
  match ls with [] => tail | l :: ls => zlen l :: l ++ labels_bytes ls tail end.
Definition rname_bytes (n : rname) : list Z :=
  labels_bytes (rn_labels n) (match rn_ptr n with Some (b0, b1) => [b0; b1] | None => [0] end).
Record rr := mk_rr { rr_name : rname; rr_type : Z; rr_class : Z; rr_ttl : Z; rr_data : list Z }.
Definition rr_ok (r : rr) : Prop :=
  rname_ok (rr_name r) /\ is_u16 (rr_type r) /\ is_u16 (rr_class r) /\ is_u32 (rr_ttl r) /\ is_u16 (zlen (rr_data r)) /\ bytes_ok (rr_data r).
Definition rr_bytes (r : rr) : list Z :=
  rname_bytes (rr_name r) ++ (be16_bytes (rr_type r) ++ be16_bytes (rr_class r) ++ be32_bytes (rr_ttl r) ++ be16_bytes (zlen (rr_data r))) ++ rr_data r.
(** An address record. *)
Definition rr_addr (r : rr) : bool := (rr_type r =? DNS_RRTYPE_A) && (rr_class r =? DNS_RRCLASS_IN) && (zlen (rr_data r) =? 4).
(** A host name from its labels. *)
Fixpoint join (ls : list (list Z)) : list Z :=
  match ls with [] => [] | [l] => l | l :: ls => l ++ 46 :: join ls end.
(** A message: the header, a question for the address of the host, the answers,
    and whatever follows. *)
Record dns_msg := mk_msg {
  mg_id : Z; mg_flags1 : Z; mg_flags2 : Z; mg_answers : Z; mg_auth : Z; mg_extra : Z;
  mg_host : list Z; mg_before : list rr; mg_addr : rr; mg_rest : list Z
}.
Definition question (name : list Z) : list Z :=
  encode_name [] name ++ [0] ++ store_le16 (lwip_htons DNS_RRTYPE_A) ++ store_le16 (lwip_htons DNS_RRCLASS_IN).
Definition dns_header (id flags1 flags2 nq na nauth nextra : Z) : list Z :=
  be16_bytes id ++ [flags1; flags2] ++ be16_bytes nq ++ be16_bytes na ++ be16_bytes nauth ++ be16_bytes nextra.
Definition msg_bytes (m : dns_msg) : list Z :=
  dns_header (mg_id m) (mg_flags1 m) (mg_flags2 m) 1 (mg_answers m) (mg_auth m) (mg_extra m) ++
  question (mg_host m) ++ flat_map rr_bytes (mg_before m) ++ rr_bytes (mg_addr m) ++ mg_rest m.
(** A query is such a header and question. *)
Lemma query_format id name : is_u16 id -> dns_query_bytes id name = dns_header id DNS_FLAG1_RD 0 1 0 0 0 ++ question name.
Proof. intros Hid. unfold dns_query_bytes, dns_header. rewrite store_htons by done. done. Qed.

(** ** Reading *)
Lemma rd_at pre x post : rd (pre ++ x :: post) (zlen pre) = Ok x.
Proof.
  unfold rd. rewrite (proj2 (Z.ltb_ge _ _)) by apply zlen_nonneg. unfold zlen. rewrite Nat2Z.id, lookup_app_r, Nat.sub_diag by lia. done.
Qed.
Lemma rd_at' buf pre x post pos : buf = pre ++ x :: post -> pos = zlen pre -> rd buf pos = Ok x.
Proof. intros -> ->. apply rd_at. Qed.
Lemma rd_n_at buf pre l post pos n : buf = pre ++ l ++ post -> pos = zlen pre -> n = zlen l -> rd_n buf pos n = Ok l.
Proof.
  intros -> -> ->. unfold rd_n. pose proof (zlen_nonneg pre). rewrite (proj2 (Z.leb_le _ _)) by done. rewrite (proj2 (Z.leb_le _ _)).
  - cbn [andb]. f_equal. unfold slice, zlen. rewrite !Nat2Z.id. by rewrite drop_app_length, take_app_length.
  - rewrite !zlen_app. pose proof (zlen_nonneg post). lia.
Qed.
Lemma be16_read n : is_u16 n -> be16 (n / 256 mod 256) (n mod 256) = n.
Proof.
  intros Hn. pose proof (store_htons n Hn) as E. unfold store_le16, be16_bytes in E. injection E as E1 E2. unfold be16. rewrite <- E1, <- E2.
  rewrite load_store16 by apply lwip_htons_range. by apply lwip_htons_invol.
Qed.
Lemma be32_read n : is_u32 n -> lwip_ntohl (load_le32 (n / 16777216 mod 256) (n / 65536 mod 256) (n / 256 mod 256) (n mod 256)) = n.
Proof.
  intros Hn. pose proof (store_htonl n Hn) as E. unfold store_le32, be32_bytes in E. injection E as E1 E2 E3 E4. rewrite <- E1, <- E2, <- E3, <- E4.
  rewrite load_store32 by apply lwip_htonl_range. by apply lwip_htonl_invol.
Qed.
Lemma label_plain n : 1 <= n <= 63 -> compressed n = false.
Proof.
  intros Hn. unfold compressed. apply Z.eqb_neq. intros E. assert (Hb : Z.testbit (Z.land n 0xc0) 7 = false); [|by rewrite E in Hb].
  rewrite Z.land_spec, (Z.bits_above_log2 n 7); [done|lia|]. apply Z.log2_lt_pow2; lia.
Qed.
Lemma ptr_compressed n : 192 <= n < 256 -> compressed n = true.
Proof.
  intros Hn. unfold compressed. apply Z.eqb_eq. replace n with (Z.lor 0xc0 (n - 192)).
  - apply Z.bits_inj'. intros k Hk. rewrite Z.land_spec, Z.lor_spec. by destruct (Z.testbit 0xc0 k), (Z.testbit (n - 192) k).
  - change 0xc0 with (3 * 2 ^ 6). rewrite Z.lor_comm. rewrite (lor_add_l 6); lia.
Qed.

(** ** Names *)
Lemma labels_head ls tail : Forall label_ok ls -> tail <> [] -> exists x r, labels_bytes ls tail = x :: r /\ (ls <> [] -> x <> 0).
Proof.
  intros Hl Ht. destruct ls as [|l ls]; cbn.
  - destruct tail as [|x r]; [done|]. by exists x, r.
  - eexists _, _. split; [done|]. intros _. apply Forall_cons in Hl as [[Hl _] _]. lia.
Qed.
Lemma parse_loop ls ptr : Forall label_ok ls -> forall fuel pre post, rname_ok (mk_rname ls ptr) -> (length ls < fuel)%nat ->
  parse_name_loop fuel (pre ++ rname_bytes (mk_rname ls ptr) ++ post) (zlen pre) = Ok (zlen pre + zlen (rname_bytes (mk_rname ls ptr))).
Proof.
  induction 1 as [|l ls Hl Hls IH]; intros fuel pre post [_ Hp] Hf; (destruct fuel as [|fuel]; [cbn in Hf; lia|]); cbn [parse_name_loop].
  - cbn in Hp. destruct ptr as [[b0 b1]|]; [|done]. destruct Hp as [Hb0 Hb1]. cbn [rname_bytes rn_labels rn_ptr labels_bytes app]. rewrite rd_at. cbn [res_bind].
    rewrite ptr_compressed by done. f_equal. change (zlen [b0; b1]) with 2. lia.
  - unfold rname_bytes. cbn [rn_labels rn_ptr labels_bytes]. set (tail := match ptr with Some (b0, b1) => [b0; b1] | None => [0] end).
    assert (Ht : tail <> []) by (unfold tail; by destruct ptr as [[? ?]|]). cbn [app]. rewrite rd_at. cbn [res_bind]. destruct Hl as [Hlen Hlb]. rewrite label_plain by done.
    destruct (labels_head ls tail Hls Ht) as (x & r & Hx & Hne). rewrite (rd_at' _ (pre ++ zlen l :: l) x (r ++ post)).
    2:{ rewrite Hx, <- !app_assoc. done. }
    2:{ rewrite zlen_app, zlen_cons. lia. }
    cbn [res_bind]. destruct (decide (ls = [] /\ ptr = None)) as [[-> ->]|Hmore].
    + cbn in Hx. injection Hx as <- <-. cbn. f_equal. rewrite !zlen_cons, zlen_app. change (zlen tail) with 1. lia.
    + assert (Hok : rname_ok (mk_rname ls ptr)).
      { split; [done|]. cbn in *. destruct ptr as [[? ?]|]; [done|]. intros ->. by apply Hmore. }
      assert (Hx0 : x <> 0).
      { destruct ls as [|l' ls]; [|by apply Hne]. destruct ptr as [[b0 b1]|]; [|naive_solver]. cbn in Hx, Hp. injection Hx as <- <-. lia. }
      rewrite (proj2 (Z.eqb_neq _ _)) by done. specialize (IH fuel (pre ++ zlen l :: l) post Hok). cbn [length] in Hf. specialize (IH ltac:(lia)).
      unfold rname_bytes in IH. cbn [rn_labels rn_ptr] in IH. fold tail in IH. rewrite <- app_assoc in IH. cbn [app] in IH. rewrite zlen_app, zlen_cons in IH.
      rewrite <- app_assoc. replace (zlen pre + 1 + zlen l) with (zlen pre + (1 + zlen l)) by lia. rewrite IH. f_equal. rewrite zlen_cons, zlen_app. lia.
Qed.
Lemma labels_len ls tail : (length ls <= length (labels_bytes ls tail))%nat.
Proof. induction ls as [|l ls IH]; cbn; [lia|]. rewrite length_app. lia. Qed.
Lemma parse_name_at n pre post buf pos : rname_ok n -> buf = pre ++ rname_bytes n ++ post -> pos = zlen pre ->
  dns_parse_name buf pos = Ok (zlen (pre ++ rname_bytes n)).
Proof.
  intros Hn -> ->. destruct n as [ls ptr]. unfold dns_parse_name. rewrite zlen_app. apply parse_loop; [apply Hn|done|].
  rewrite !length_app. pose proof (labels_len ls (match ptr with Some (b0, b1) => [b0; b1] | None => [0] end)). unfold rname_bytes. cbn [rn_labels rn_ptr]. lia.
Qed.
(** The names of a query are of this form. *)
Lemma encode_label acc l rest : Forall (fun c => c <> 0 /\ c <> 46) l ->
  encode_name acc (l ++ 46 :: rest) = (u8 (zlen (acc ++ l)) :: acc ++ l) ++ encode_name [] rest /\
  encode_name acc l = u8 (zlen (acc ++ l)) :: acc ++ l.
Proof.
  intros Hl. revert acc. induction Hl as [|c l [_ Hc] Hl IH]; intros acc; cbn [app encode_name].
  - rewrite app_nil_r. by rewrite Z.eqb_refl.
  - rewrite (proj2 (Z.eqb_neq _ _)) by done. specialize (IH (acc ++ [c])). rewrite <- app_assoc in IH. exact IH.
Qed.
Lemma encode_join ls : Forall label_ok ls -> ls <> [] -> encode_name [] (join ls) ++ [0] = rname_bytes (mk_rname ls None).
Proof.
  unfold rname_bytes. cbn [rn_labels rn_ptr]. induction 1 as [|l ls [Hlen [Hl Hb]] Hls IH]; [done|]. intros _. cbn [labels_bytes]. destruct ls as [|l' ls].
  - cbn [join labels_bytes]. destruct (encode_label [] l [] Hl) as [_ ->]. cbn [app]. by rewrite u8_id by lia.
  - change (join (l :: l' :: ls)) with (l ++ 46 :: join (l' :: ls)). destruct (encode_label [] l (join (l' :: ls)) Hl) as [-> _]. cbn [app]. rewrite u8_id by lia.
    rewrite <- IH by done. by rewrite <- app_assoc.
Qed.
Lemma compare_label_same l : forall c1 c2 b1 b2 n q r, n = length l -> q = zlen c1 -> r = zlen b1 ->
  compare_label n (c1 ++ l ++ c2) q (b1 ++ l ++ b2) r = Ok true.
Proof.
  induction l as [|x l IH]; intros c1 c2 b1 b2 n q r -> -> ->; cbn [length compare_label app]; [done|]. rewrite !rd_at. cbn [res_bind]. rewrite Z.eqb_refl. cbn [negb].
  specialize (IH (c1 ++ [x]) c2 (b1 ++ [x]) b2 _ (zlen c1 + 1) (zlen b1 + 1) eq_refl). rewrite <- !app_assoc in IH. cbn [app] in IH. apply IH; by rewrite zlen_app.
Qed.
Lemma compare_loop ls : Forall label_ok ls -> ls <> [] -> forall fuel cpre cpost pre post, (length ls < fuel)%nat ->
  compare_name_loop fuel (cpre ++ join ls ++ cpost) (zlen cpre) (pre ++ labels_bytes ls [0] ++ post) (zlen pre) = Ok false.
Proof.
  induction 1 as [|l ls Hl Hls IH]; [done|]. intros _ fuel cpre cpost pre post Hf. destruct fuel as [|fuel]; [cbn in Hf; lia|]. cbn [compare_name_loop labels_bytes app].
  rewrite rd_at. cbn [res_bind]. destruct Hl as [Hlen Hlb]. rewrite label_plain by done.
  assert (Hj : exists jr, join (l :: ls) = l ++ jr /\ (ls <> [] -> jr = 46 :: join ls)).
  { destruct ls as [|l' ls]; [exists []; cbn; by rewrite app_nil_r|by eexists]. }
  destruct Hj as (jr & Hj & Hjr). rewrite Hj, <- app_assoc.
  assert (Hbuf : pre ++ zlen l :: (l ++ labels_bytes ls [0]) ++ post = (pre ++ [zlen l]) ++ l ++ labels_bytes ls [0] ++ post) by (rewrite <- !app_assoc; done).
  rewrite Hbuf. rewrite (compare_label_same l cpre (jr ++ cpost) (pre ++ [zlen l]) (labels_bytes ls [0] ++ post)); [|unfold zlen; lia|done|by rewrite zlen_app].
  cbn [res_bind negb]. destruct (labels_head ls [0] Hls) as (x & r & Hx & Hne); [done|].
  rewrite (rd_at' _ ((pre ++ [zlen l]) ++ l) x (r ++ post)); [|by rewrite Hx, <- !app_assoc|rewrite !zlen_app; change (zlen [zlen l]) with 1; lia]. cbn [res_bind].
  destruct (decide (ls = [])) as [->|Hls0]; [cbn in Hx; by injection Hx as <- <-|]. rewrite (proj2 (Z.eqb_neq _ _)) by auto. rewrite (Hjr Hls0).
  cbn [length] in Hf. specialize (IH Hls0 fuel (cpre ++ l ++ [46]) cpost ((pre ++ [zlen l]) ++ l) post ltac:(lia)).
  rewrite <- !app_assoc in IH. rewrite <- !app_assoc. cbn [app] in IH |- *. rewrite !zlen_app, !zlen_cons in IH. change (zlen [46]) with 1 in IH. change (zlen (@nil Z)) with 0 in IH.
  replace (zlen cpre + zlen l + 1) with (zlen cpre + (zlen l + 1)) by lia. replace (zlen pre + 1 + zlen l) with (zlen pre + (1 + zlen l)) by lia.
  replace (1 + 0 + zlen l) with (1 + zlen l) in IH by lia. exact IH.
Qed.

(** ** Answers *)
Lemma read_answer_at t c ttl len pre post buf pos : is_u16 t -> is_u16 c -> is_u32 ttl -> is_u16 len ->
  buf = pre ++ (be16_bytes t ++ be16_bytes c ++ be32_bytes ttl ++ be16_bytes len) ++ post -> pos = zlen pre ->
  read_answer buf pos = Ok (mk_answer t c ttl len).
Proof.
  intros Ht Hc Httl Hlen Hb Hp. unfold read_answer. rewrite (rd_n_at buf pre _ post pos SIZEOF_DNS_ANSWER Hb Hp) by done. cbn [res_bind be16_bytes be32_bytes app].
  by rewrite !be16_read, be32_read.
Qed.
(** What the loop sees of a record: its kind, and where the next one begins. *)
Lemma answer_step r n pre post buf pos : rr_ok r -> buf = pre ++ rr_bytes r ++ post -> pos = zlen pre ->
  answer_loop (S n) buf pos =
  if rr_addr r then let! l := rd_n buf (zlen (pre ++ rr_bytes r) - 4) 4 in match l with [a; b; c; d] => Ok (Some (rr_ttl r, load_le32 a b c d)) | _ => Err BadAccess end
  else answer_loop n buf (zlen (pre ++ rr_bytes r)).
Proof.
  intros (Hn & Ht & Hc & Httl & Hl & Hd) Hb ->. cbn [answer_loop]. unfold rr_bytes in *.
  set (h := be16_bytes (rr_type r) ++ be16_bytes (rr_class r) ++ be32_bytes (rr_ttl r) ++ be16_bytes (zlen (rr_data r))) in *.
  rewrite (parse_name_at (rr_name r) pre ((h ++ rr_data r) ++ post) buf (zlen pre) Hn); [|by rewrite Hb, <- !app_assoc|done]. cbn [res_bind].
  rewrite (read_answer_at (rr_type r) (rr_class r) (rr_ttl r) (zlen (rr_data r)) (pre ++ rname_bytes (rr_name r)) (rr_data r ++ post) buf _ Ht Hc Httl Hl);
    [|by rewrite Hb; fold h; rewrite <- !app_assoc|done].
  cbn [res_bind an_type an_cls an_ttl an_len]. fold (rr_addr r). assert (Hz : zlen h = 10) by done. rewrite !zlen_app, Hz. change SIZEOF_DNS_ANSWER with 10. destruct (rr_addr r) eqn:Ea.
  - unfold rr_addr in Ea. apply andb_true_iff in Ea as [_ Ea%Z.eqb_eq]. by replace (zlen pre + (zlen (rname_bytes (rr_name r)) + (10 + zlen (rr_data r))) - 4) with (zlen pre + zlen (rname_bytes (rr_name r)) + 10) by lia.
  - f_equal. lia.
Qed.
(** The first address record is found behind others. *)
Lemma answer_found rs r a b c d : rr_ok r -> rr_addr r = true -> rr_data r = [a; b; c; d] -> Forall rr_ok rs -> Forall (fun x => rr_addr x = false) rs ->
  forall n pre post, (length rs < n)%nat -> answer_loop n (pre ++ flat_map rr_bytes rs ++ rr_bytes r ++ post) (zlen pre) = Ok (Some (rr_ttl r, load_le32 a b c d)).
Proof.
  intros Hr Ha Hd. induction 1 as [|x rs Hx Hrs IH]; intros Hno n pre post Hn; (destruct n as [|n]; [cbn in Hn; lia|]); cbn [flat_map].
  - rewrite (answer_step r n pre post) by done. rewrite Ha. rewrite (rd_n_at _ (pre ++ rname_bytes (rr_name r) ++ be16_bytes (rr_type r) ++ be16_bytes (rr_class r) ++ be32_bytes (rr_ttl r) ++ be16_bytes (zlen (rr_data r))) [a; b; c; d] post); [done| | |done].
    + unfold rr_bytes. rewrite Hd. cbn [app]. by rewrite <- !app_assoc.
    + unfold rr_bytes. rewrite !zlen_app, Hd. change (zlen [a; b; c; d]) with 4. lia.
  - apply Forall_cons in Hno as [Hxn Hno]. rewrite (answer_step x n pre (flat_map rr_bytes rs ++ rr_bytes r ++ post)); [|done|by rewrite <- !app_assoc|done].
    rewrite Hxn. cbn [length] in Hn. specialize (IH Hno n (pre ++ rr_bytes x) post ltac:(lia)). rewrite <- !app_assoc in IH. by rewrite <- !app_assoc.
Qed.

(** ** A reply *)
Record reply_ok (m : dns_msg) (ls : list (list Z)) (a b c d : Z) : Prop := {
  ro_id : 0 <= mg_id m < DNS_TABLE_SIZE;
  ro_response : has_flag (mg_flags1 m) DNS_FLAG1_RESPONSE = true;
  ro_no_error : Z.land (mg_flags2 m) DNS_FLAG2_ERR_MASK = 0;
  ro_host : mg_host m = join ls /\ Forall label_ok ls /\ ls <> [];
  ro_before : Forall rr_ok (mg_before m) /\ Forall (fun x => rr_addr x = false) (mg_before m);
  ro_addr : rr_ok (mg_addr m) /\ rr_addr (mg_addr m) = true /\ rr_data (mg_addr m) = [a; b; c; d];
  ro_answers : (length (mg_before m) < Z.to_nat (mg_answers m))%nat /\ is_u16 (mg_answers m);
  ro_size : zlen (msg_bytes m) <= DNS_MSG_SIZE
}.
Lemma ro_addr_ttl m ls a b c d : reply_ok m ls a b c d -> is_u32 (rr_ttl (mg_addr m)).
Proof. intros [_ _ _ _ _ ((_ & _ & _ & H & _) & _) _ _]. exact H. Qed.
(** The entry of a name that is known. *)
Definition resolved (ttl a : Z) (e : dns_table_entry) : dns_table_entry :=
  e <| de_state := DNS_STATE_DONE |> <| de_err := 0 |> <| de_ttl := Z.min ttl DNS_MAX_TTL |> <| de_ipaddr := a |>.
Lemma c_str_split buf : exists rest, buf = c_str buf ++ rest.
Proof.
  induction buf as [|x buf [rest IH]]; [by exists []|]. cbn. case_match; [by exists (x :: buf)|]. exists rest. cbn. by rewrite <- IH.
Qed.
Lemma min_ttl ttl : (if DNS_MAX_TTL <? ttl then DNS_MAX_TTL else ttl) = Z.min ttl DNS_MAX_TTL.
Proof. destruct (Z.ltb_spec DNS_MAX_TTL ttl); lia. Qed.
(** The ticks that an address is known. *)
Definition lifetime (ttl : Z) : Z := if ttl =? 0 then 4294967296 else Z.min ttl DNS_MAX_TTL.
Lemma lifetime_range ttl : is_u32 ttl -> 1 <= lifetime ttl <= 4294967296.
Proof. unfold lifetime, is_u32, DNS_MAX_TTL. destruct (Z.eqb_spec ttl 0); lia. Qed.
Lemma lifetime_stored ttl : is_u32 ttl -> Z.min ttl DNS_MAX_TTL = u32 (lifetime ttl).
Proof. unfold lifetime, is_u32, DNS_MAX_TTL. intros H. destruct (Z.eqb_spec ttl 0) as [->|]; [done|]. symmetry. apply u32_id. lia. Qed.

Section Reply.
Context {A : Type} (net_ok : positive -> inet A -> Prop) `{!dns_network net_ok}.
Context (on_found : dns_event -> dns A -> res (dns A)) (Hfound : callbacks_apart net_ok on_found).
Implicit Types (s : dns A) (e : dns_table_entry) (i : nat).

(** The parts of a message. *)
Definition header_of (m : dns_msg) : list Z := dns_header (mg_id m) (mg_flags1 m) (mg_flags2 m) 1 (mg_answers m) (mg_auth m) (mg_extra m).
Definition records_of (m : dns_msg) : list Z := flat_map rr_bytes (mg_before m) ++ rr_bytes (mg_addr m) ++ mg_rest m.
Lemma rr_len r : 10 <= zlen (rr_bytes r).
Proof.
  unfold rr_bytes. rewrite !zlen_app. change (zlen (be16_bytes _)) with 2. change (zlen (be32_bytes _)) with 4.
  pose proof (zlen_nonneg (rname_bytes (rr_name r))). pose proof (zlen_nonneg (rr_data r)). lia.
Qed.
Lemma msg_len m : 28 <= zlen (msg_bytes m).
Proof.
  unfold msg_bytes, question. rewrite !zlen_app, encode_name_len. change (zlen (dns_header _ _ _ _ _ _ _)) with 12. change (zlen [0]) with 1. change (zlen (store_le16 _)) with 2.
  change (zlen (@nil Z)) with 0. pose proof (zlen_nonneg (mg_host m)). pose proof (zlen_nonneg (flat_map rr_bytes (mg_before m))). pose proof (rr_len (mg_addr m)).
  pose proof (zlen_nonneg (mg_rest m)). lia.
Qed.
(** The question is that of the entry, and behind it the address is found. *)
Lemma reply_body m ls a b c d name tail : reply_ok m ls a b c d -> c_str name = mg_host m ->
  let buf := header_of m ++ question (mg_host m) ++ records_of m ++ tail in
  dns_compare_name name buf SIZEOF_DNS_HDR = Ok false /\
  exists pos, dns_parse_name buf SIZEOF_DNS_HDR = Ok pos /\
    answer_loop (Z.to_nat (mg_answers m)) buf (pos + SIZEOF_DNS_QUERY) = Ok (Some (rr_ttl (mg_addr m), load_le32 a b c d)).
Proof.
  intros [Hid Hf1 Hf2 (Hh & Hls & Hne) [Hb Hbn] (Har & Haa & Had) [Hna Hna16] Hsz] Hname buf. set (hdr := header_of m) in *.
  assert (Hq : question (mg_host m) = rname_bytes (mk_rname ls None) ++ be16_bytes 1 ++ be16_bytes 1).
  { unfold question. rewrite app_assoc, Hh, encode_join by done. done. }
  assert (Hbuf : buf = hdr ++ rname_bytes (mk_rname ls None) ++ (be16_bytes 1 ++ be16_bytes 1) ++ records_of m ++ tail) by (unfold buf; rewrite Hq; by rewrite <- !app_assoc).
  split.
  - destruct (c_str_split name) as [nrest Hn]. rewrite Hname, Hh in Hn. unfold dns_compare_name. rewrite Hn, Hbuf. unfold rname_bytes. cbn [rn_labels rn_ptr].
    apply (compare_loop ls Hls Hne _ [] nrest hdr). rewrite !length_app. pose proof (labels_len ls [0]). lia.
  - eexists. split; [apply (parse_name_at (mk_rname ls None) hdr ((be16_bytes 1 ++ be16_bytes 1) ++ records_of m ++ tail)); [by split|done|done]|].
    replace (zlen (hdr ++ rname_bytes (mk_rname ls None)) + SIZEOF_DNS_QUERY) with (zlen (hdr ++ question (mg_host m))).
    2:{ rewrite Hq, !zlen_app. change (zlen (be16_bytes 1)) with 2. unfold SIZEOF_DNS_QUERY. lia. }
    replace buf with ((hdr ++ question (mg_host m)) ++ flat_map rr_bytes (mg_before m) ++ rr_bytes (mg_addr m) ++ (mg_rest m ++ tail)).
    2:{ unfold buf, records_of. by rewrite <- !app_assoc. }
    by apply answer_found.
Qed.
Lemma reply_read m ls a b c d s e : reply_ok m ls a b c d -> dns_ok net_ok s -> dns_table s !! Z.to_nat (mg_id m) = Some e ->
  de_state e = DNS_STATE_ASKING -> c_str (de_name e) = mg_host m ->
  exists net, dns_recv on_found (msg_bytes m) s = let i := Z.to_nat (mg_id m) in let addr := load_le32 a b c d in
    Ok ((put_entry i (resolved (rr_ttl (mg_addr m)) addr e) s) <| dns_payload := msg_bytes m ++ drop (length (msg_bytes m)) (dns_payload s) |>
      <| dn_log := dn_log s ++ (if de_found e then [mk_found i (de_arg e) (mg_host m) (Some addr)] else []) |> <| dn_inet := net |>).
Proof.
  intros Hm Hs Hi Hst Hname. set (tail := drop (length (msg_bytes m)) (dns_payload s)). pose proof (msg_len m) as Hl.
  destruct (reply_body m ls a b c d (de_name e) tail Hm Hname) as (Hcmp & pos & Hpos & Hans). cbv zeta in Hcmp, Hpos, Hans.
  destruct Hm as [Hid Hf1 Hf2 _ _ _ [_ Hna16] Hsz]. unfold dns_recv.
  rewrite (proj2 (Z.ltb_ge _ _)) by done. rewrite (proj2 (Z.ltb_ge _ _)) by (unfold SIZEOF_DNS_HDR, SIZEOF_DNS_QUERY, SIZEOF_DNS_ANSWER; lia).
  cbv zeta. fold tail. set (s1 := s <| dns_payload := msg_bytes m ++ tail |>).
  set (buf := header_of m ++ question (mg_host m) ++ records_of m ++ tail) in *.
  assert (Hbuf : msg_bytes m ++ tail = buf) by (unfold msg_bytes, buf, header_of, records_of; by rewrite <- !app_assoc).
  set (body := question (mg_host m) ++ records_of m ++ tail) in *. set (i := Z.to_nat (mg_id m)) in *.
  rewrite Hbuf in *. rewrite (rd_n_at buf [] (be16_bytes (mg_id m)) ([mg_flags1 m; mg_flags2 m] ++ be16_bytes 1 ++ be16_bytes (mg_answers m) ++ be16_bytes (mg_auth m) ++ be16_bytes (mg_extra m) ++ body) 0 2) by done.
  cbn [res_bind be16_bytes]. assert (is_u16 (mg_id m)) by (unfold is_u16, DNS_TABLE_SIZE in *; lia).
  rewrite be16_read by done. rewrite (proj2 (Z.ltb_lt _ _)) by lia. fold i. rewrite (get_entry_ok s1 i e Hi). cbn [res_bind].
  rewrite bool_decide_true by done. unfold dns_response. change (dns_payload s1) with (msg_bytes m ++ tail). rewrite Hbuf.
  rewrite (rd_at' buf (be16_bytes (mg_id m)) (mg_flags1 m) ([mg_flags2 m] ++ be16_bytes 1 ++ be16_bytes (mg_answers m) ++ be16_bytes (mg_auth m) ++ be16_bytes (mg_extra m) ++ body) 2) by done. cbn [res_bind].
  rewrite (rd_at' buf (be16_bytes (mg_id m) ++ [mg_flags1 m]) (mg_flags2 m) (be16_bytes 1 ++ be16_bytes (mg_answers m) ++ be16_bytes (mg_auth m) ++ be16_bytes (mg_extra m) ++ body) 3) by done.
  cbn [res_bind]. cbv zeta. rewrite Hf2, (upd_entry_eq i _ s1 e Hi). cbn [res_bind]. set (e1 := e <| de_state := DNS_STATE_DONE |> <| de_err := 0 |>).
  rewrite (rd_n_at buf (be16_bytes (mg_id m) ++ [mg_flags1 m; mg_flags2 m]) (be16_bytes 1 ++ be16_bytes (mg_answers m)) (be16_bytes (mg_auth m) ++ be16_bytes (mg_extra m) ++ body) 4 4) by done.
  cbn [res_bind be16_bytes app]. rewrite !be16_read by done. rewrite Hf1. cbn [negb orb Z.eqb Pos.eqb].
  rewrite (get_entry_ok _ i e1) by (by apply (put_lookup i e)). cbn [res_bind]. change (de_name e1) with (de_name e).
  rewrite Hcmp. cbn [res_bind]. rewrite Hpos. cbn [res_bind]. rewrite Hans. cbn [res_bind]. destruct (dk_net _ _ Hs) as (pcb & Hp & Hnet).
  match goal with |- context [call_found _ _ ?e2 ?a2 ?s2] => destruct (call_found_spec net_ok on_found Hfound i e2 a2 s2 pcb) as (net & -> & _); [done..|] end.
  exists net. unfold called. rewrite min_ttl.
  change (de_found _) with (de_found e). change (de_arg _) with (de_arg e). change (c_str (de_name _)) with (c_str (de_name e)). rewrite Hname. f_equal.
  rewrite <- Hbuf. unfold put_entry. cbn. by rewrite list_insert_insert_eq.
Qed.

(** ** While the entry lives *)

(** Entry [i] has an answer for the host, alone, with [ttl] ticks to live. *)
Record known i (host : list Z) (a ttl : Z) s : Prop := {
  kn_entry : exists e, dns_table s !! i = Some e /\ is_name host e /\ de_ipaddr e = a /\ de_ttl e = u32 ttl;
  kn_alone : forall j e, dns_table s !! j = Some e -> is_name host e -> j = i;
  kn_local : dns_lookup_local host s = IPADDR_NONE
}.
Lemma tick_done servers e : de_state (tick_entry servers e).1 = DNS_STATE_DONE -> de_state e = DNS_STATE_DONE /\ de_name (tick_entry servers e).1 = de_name e.
Proof. unfold tick_entry. destruct (de_state e) eqn:Est; cbn; rewrite ?Est; repeat case_match; cbn; try done; try congruence. Qed.
Lemma known_tick i host a ttl s : dns_ok net_ok s -> known i host a ttl s -> 1 <= ttl <= 4294967296 -> exists s', dns_tmr on_found s = Ok s' /\ dns_ok net_ok s' /\
  dns_pcb s' = dns_pcb s /\ if ttl =? 1 then (exists e, dns_table s' !! i = Some e /\ de_state e = DNS_STATE_UNUSED) /\ dns_lookup host s' = IPADDR_NONE
    else known i host a (ttl - 1) s'.
Proof.
  intros Hs [(e & Hi & [Hst Hn] & Ha & Ht) Hal Hloc] Httl. destruct (dns_tmr_spec net_ok on_found Hfound s Hs) as (s' & Htm & Hs' & Hk & He & _).
  exists s'. split; [done|]. split; [done|]. split; [by destruct Hk|].
  assert (Hloc' : dns_lookup_local host s' = IPADDR_NONE) by (unfold dns_lookup_local; by rewrite (kp_hosts _ _ Hk)).
  assert (Hal' : forall j e1, dns_table s' !! j = Some e1 -> is_name host e1 -> j = i).
  { intros j e1 Hj [Hst1 Hn1]. destruct (lookup_lt_is_Some_2 (dns_table s) j) as [e0 H0].
    { apply lookup_lt_Some in Hj. by rewrite (dk_size _ _ Hs'), <- (dk_size _ _ Hs) in Hj. }
    rewrite (He j e0 H0) in Hj. injection Hj as <-. destruct (tick_done _ _ Hst1) as [Hd Hnm]. rewrite Hnm in Hn1. by apply (Hal j e0). }
  specialize (He i e Hi). pose proof (eo_ttl _ _ (entry_ok_at net_ok s i e Hs Hi)) as H32. unfold tick_entry in He. rewrite Hst in He.
  cbn [de_ttl set_field set_de_ttl] in He. rewrite Ht in *.
  replace (u32 (u32 ttl - 1)) with (ttl - 1) in He by (unfold u32; rewrite Zminus_mod_idemp_l; symmetry; apply Z.mod_small; lia). replace (ttl - 1 =? 0) with (ttl =? 1) in He by (destruct (Z.eqb_spec ttl 1), (Z.eqb_spec (ttl - 1) 0); lia).
  destruct (ttl =? 1); cbn [fst] in He.
  - split; [by eexists|]. unfold dns_lookup. rewrite Hloc'. cbn [negb]. rewrite Z.eqb_refl. cbn [negb]. destruct (list_find (is_name host) (dns_table s')) as [[j e1]|] eqn:Ef; [|done].
    apply list_find_Some in Ef as (Hj & Hd & _). rewrite (Hal' j e1 Hj Hd) in Hj. rewrite He in Hj. injection Hj as <-. by destruct Hd.
  - split; [eexists; split_and!; try done; cbn; by rewrite u32_id by lia|done|done].
Qed.
Lemma known_get i host a ttl s name found arg : known i host a ttl s -> dns_pcb s <> None -> host <> [] -> zlen host < DNS_MAX_NAME_LENGTH ->
  ipaddr_addr host = IPADDR_NONE -> a <> IPADDR_NONE -> name = host -> dns_gethostbyname on_found name found arg s = Ok (ERR_OK, Some a, s).
Proof.
  intros [(e & Hi & Hn & Ha & _) Hal Hloc] Hp Hh Hl Hip Hne ->. unfold dns_gethostbyname. rewrite !bool_decide_false by done. rewrite (proj2 (Z.leb_gt _ _)) by done.
  cbn [orb]. cbv zeta. rewrite Hip, Z.eqb_refl. assert (Hlk : dns_lookup host s = a); [|by rewrite Hlk, (proj2 (Z.eqb_neq _ _))].
  unfold dns_lookup. rewrite Hloc, Z.eqb_refl. cbn [negb]. destruct (list_find (is_name host) (dns_table s)) as [[j e1]|] eqn:Ef.
  - apply list_find_Some in Ef as (Hj & Hd & _). rewrite (Hal j e1 Hj Hd), Hi in Hj. by injection Hj as <-.
  - exfalso. apply list_find_None in Ef. by apply (Forall_lookup_1 _ _ i e Ef Hi).
Qed.
Lemma known_ticks i host a n : forall ttl s, dns_ok net_ok s -> known i host a ttl s -> Z.of_nat n < ttl <= 4294967296 ->
  exists s', dns_ticks on_found n s = Ok s' /\ dns_ok net_ok s' /\ known i host a (ttl - Z.of_nat n) s'.
Proof.
  induction n as [|n IH]; intros ttl s Hs Hk Hn; cbn [dns_ticks].
  - exists s. by rewrite Z.sub_0_r.
  - destruct (known_tick i host a ttl s Hs Hk) as (s1 & -> & Hs1 & _ & Hk1); [lia|]. cbn [res_bind]. rewrite (proj2 (Z.eqb_neq _ _)) in Hk1 by lia.
    destruct (IH (ttl - 1) s1 Hs1 Hk1) as (s2 & H2 & Hs2 & Hk2); [lia|]. exists s2. split; [done|]. split; [done|]. by replace (ttl - Z.of_nat (S n)) with (ttl - 1 - Z.of_nat n) by lia.
Qed.
Lemma dns_ticks_snoc n s s1 s2 : dns_ticks on_found n s = Ok s1 -> dns_tmr on_found s1 = Ok s2 -> dns_ticks on_found (S n) s = Ok s2.
Proof.
  revert s. induction n as [|n IH]; intros s H1 H2; cbn [dns_ticks] in *; [injection H1 as ->; by rewrite H2|]. destruct (dns_tmr on_found s) as [s0|]; [|done].
  cbn [res_bind] in *. by apply (IH s0).
Qed.
Lemma join_nonempty ls : Forall label_ok ls -> ls <> [] -> join ls <> [].
Proof.
  intros Hl Hne. destruct ls as [|l ls]; [done|]. apply Forall_cons in Hl as [[Hl _] _]. destruct l as [|x l]; [change (zlen (@nil Z)) with 0 in Hl; lia|]. by destruct ls.
Qed.

(** C25. A reply of at most 512 bytes in the format of RFC 1035 that echoes the id and the question of
    a pending query and holds an address behind any other records is understood:
    the callback is called with the address, and for the time to live of the
    record, cut to a week, every dns_gethostbyname for that host gives ERR_OK
    and the address at once; the tick after that forgets it. A time to live of
    0 counts as 2^32 seconds ([ttl_zero_wraps]). Every name in the message is at least one label
    or a pointer (the name of the root is misread: [root_misread]); the callbacks
    leave the resolver alone ([callbacks_apart]); the host name is not a
    dotted address, and neither in the local host list nor in another entry;
    the address is not 255.255.255.255. *)
Theorem dns_reply_known m ls a b c d s e : let i := Z.to_nat (mg_id m) in let host := mg_host m in let addr := load_le32 a b c d in let ttl := lifetime (rr_ttl (mg_addr m)) in
  reply_ok m ls a b c d -> bytes_ok (msg_bytes m) -> dns_ok net_ok s ->
  dns_table s !! i = Some e -> de_state e = DNS_STATE_ASKING -> de_found e = true -> c_str (de_name e) = host ->
  ipaddr_addr host = IPADDR_NONE -> dns_lookup host s = IPADDR_NONE -> (forall j e', dns_table s !! j = Some e' -> ~ is_name host e') ->
  addr <> IPADDR_NONE ->
  exists s1, dns_recv on_found (msg_bytes m) s = Ok s1 /\ dn_log s1 = dn_log s ++ [mk_found i (de_arg e) host (Some addr)] /\
    (forall n, Z.of_nat n < ttl -> exists s2, dns_ticks on_found n s1 = Ok s2 /\
       forall found arg, dns_gethostbyname on_found host found arg s2 = Ok (ERR_OK, Some addr, s2)) /\
    (exists s2, dns_ticks on_found (Z.to_nat ttl) s1 = Ok s2 /\ dns_lookup host s2 = IPADDR_NONE).
Proof.
  intros i host addr ttl Hm Hb Hs Hi Hst Hf Hname Hip Hlk Hno Ha. destruct (reply_read m ls a b c d s e Hm Hs Hi Hst Hname) as [net Hr]. cbv zeta in Hr. fold i addr host in Hr.
  rewrite Hf in Hr. eexists. split; [exact Hr|]. destruct (recv_spec net_ok on_found Hfound s _ _ Hs Hb Hr) as [Hs1 _]. split; [done|].
  match type of Hs1 with dns_ok _ ?x => set (s1 := x) in * end.
  assert (Hk : known i host addr ttl s1).
  { split.
    - eexists. split; [apply list_lookup_insert_eq; by eapply lookup_lt_Some|]. split_and!; try done. apply lifetime_stored.
      apply (ro_addr_ttl m ls a b c d Hm).
    - intros j e' Hj Hn. cbn in Hj. apply list_lookup_insert_Some in Hj as [(-> & _)|[_ Hj]]; [done|]. by destruct (Hno j e' Hj).
    - unfold dns_lookup in Hlk. change (dns_lookup_local host s1) with (dns_lookup_local host s). destruct (Z.eqb_spec (dns_lookup_local host s) IPADDR_NONE); [done|]. by cbn in Hlk. }
  assert (Hhost : host <> [] /\ zlen host < DNS_MAX_NAME_LENGTH).
  { destruct (ro_host _ _ _ _ _ _ Hm) as (Hh & Hls & Hne). split; [unfold host; rewrite Hh; by apply join_nonempty|].
    destruct (eo_name _ _ (entry_ok_at net_ok s i e Hs Hi)) as (_ & _ & Hl). rewrite Hname in Hl. unfold DNS_MAX_NAME_LENGTH. lia. }
  assert (Ht1 : 1 <= ttl <= 4294967296) by (apply lifetime_range, (ro_addr_ttl m ls a b c d Hm)). split.
  - intros n Hn. destruct (known_ticks i host addr n ttl s1 Hs1 Hk) as (s2 & H2 & Hs2 & Hk2); [lia|]. exists s2. split; [done|]. intros found arg.
    destruct (dk_net _ _ Hs2) as (pcb & Hp & _). eapply known_get; try done; [by rewrite Hp|apply Hhost|apply Hhost].
  - destruct (known_ticks i host addr (Z.to_nat (ttl - 1)) ttl s1 Hs1 Hk) as (s2 & H2 & Hs2 & Hk2); [lia|].
    destruct (known_tick i host addr _ s2 Hs2 Hk2) as (s3 & H3 & _ & _ & Hl3); [lia|]. rewrite Z2Nat.id in Hl3 by lia. replace (ttl - (ttl - 1)) with 1 in Hl3 by lia.
    exists s3. split; [|apply Hl3]. replace (Z.to_nat ttl) with (S (Z.to_nat (ttl - 1))) by lia. by eapply dns_ticks_snoc.
Qed.
End Reply.

(** ** A reply for the host of DnsLive.v *)
Definition demo_labels : list (list Z) := [[119]; [110; 101; 116]].
(** An alias whose name is a pointer to the question, then the address of the
    alias, with a name of its own. *)
Definition demo_reply : dns_msg :=
  mk_msg 0 0x81 0x80 2 0 0 host_name
    [mk_rr (mk_rname [] (Some (0xc0, 12))) 5 1 600 [1; 97; 0xc0; 14]]
    (mk_rr (mk_rname [[97]; [110; 101; 116]] None) 1 1 3600 [93; 184; 216; 34]) [].
Definition demo_asked : dns unit :=
  match dns_gethostbyname (fun _ s => Ok s) host_name true 7 dns_demo with Ok (_, _, s) => s | Err _ => dns_demo end.
Definition demo_entry : dns_table_entry := default unused_entry (dns_table demo_asked !! 0%nat).
Lemma demo_asked_ok : dns_ok dns_net_ok demo_asked.
Proof.
  destruct (request_spec dns_net_ok (fun _ s => Ok s) keep_apart dns_demo host_name true 7 dns_demo_ok host_name_ok) as (err & o & s' & H & Hok & _).
  unfold demo_asked. by rewrite H.
Qed.
Definition label_check (l : list Z) : bool :=
  forallb (fun c => negb (c =? 0) && negb (c =? 46)) l && forallb (fun x => (0 <=? x) && (x <? 256)) l && (1 <=? zlen l) && (zlen l <=? 63).
Lemma labels_check ls : forallb label_check ls = true -> Forall label_ok ls.
Proof.
  induction ls as [|l ls IH]; cbn [forallb]; [constructor|]. intros [[[[H1 H2]%andb_true_iff H3]%andb_true_iff H4]%andb_true_iff Hls]%andb_true_iff. constructor; [|by apply IH].
  split; [lia|]. split; [|by apply bytes_check]. clear -H1. induction l as [|c l IH]; [constructor|].
  cbn in H1. apply andb_true_iff in H1 as [[Hc1 Hc2]%andb_true_iff H1]. constructor; [lia|by apply IH].
Qed.
Lemma demo_reply_ok : reply_ok demo_reply demo_labels 93 184 216 34.
Proof.
  assert (H16 : forall n, (0 <=? n) && (n <? 65536) = true -> is_u16 n) by (unfold is_u16; lia).
  split.
  - by vm_compute.
  - reflexivity.
  - reflexivity.
  - split; [reflexivity|]. split; [|discriminate]. by apply labels_check.
  - split; [|by repeat constructor]. constructor; [|constructor]. split; [split; [constructor|by vm_compute]|].
    split_and!; [by apply H16|by apply H16|by vm_compute|by apply H16|]. apply bytes_check. reflexivity.
  - split; [|split; reflexivity]. split; [split; [by apply labels_check|discriminate]|].
    split_and!; [by apply H16|by apply H16|by vm_compute|by apply H16|]. apply bytes_check. reflexivity.
  - split; [vm_compute; lia|by apply H16].
  - by vm_compute.
Qed.
Lemma demo_alone j e' : dns_table demo_asked !! j = Some e' -> ~ is_name host_name e'.
Proof.
  assert (E : dns_table demo_asked = demo_entry :: replicate 15 unused_entry) by (vm_compute; reflexivity). rewrite E.
  intros Hj [Hst _]. destruct j as [|j]; [injection Hj as <-; by vm_compute in Hst|]. by apply lookup_replicate in Hj as [-> _].
Qed.
Lemma dns_reply_known_witness : let keep := fun (ev : dns_event) (s : dns unit) => Ok s in let addr := load_le32 93 184 216 34 in
  exists s1, dns_recv keep (msg_bytes demo_reply) demo_asked = Ok s1 /\ dn_log s1 = dn_log demo_asked ++ [mk_found 0 7 host_name (Some addr)] /\
    (forall n, Z.of_nat n < 3600 -> exists s2, dns_ticks keep n s1 = Ok s2 /\
       forall found arg, dns_gethostbyname keep host_name found arg s2 = Ok (ERR_OK, Some addr, s2)) /\
    (exists s2, dns_ticks keep (Z.to_nat 3600) s1 = Ok s2 /\ dns_lookup host_name s2 = IPADDR_NONE).
Proof.
  apply (dns_reply_known dns_net_ok (fun _ s => Ok s) keep_apart demo_reply demo_labels 93 184 216 34 demo_asked demo_entry).
  - exact demo_reply_ok.
  - apply bytes_check. vm_compute. reflexivity.
  - exact demo_asked_ok.
  - vm_compute. reflexivity.
  - vm_compute. reflexivity.
  - vm_compute. reflexivity.
  - vm_compute. reflexivity.
  - vm_compute. reflexivity.
  - vm_compute. reflexivity.
  - exact demo_alone.
  - vm_compute. discriminate.
Defined.
