(* ===== verification/DnsDemo.v ===== *)
(** * DNS: concrete runs

    Among them those that show defects of dns.c. *)
From S2P Require Import Prelude ByteOrder IpAddr Checksum Ip Tcp TcpOut TcpIn TcpWorld TcpScenarios Netif Nbuf Inet Icmp Udp Raw IpInput InetHdr InetSafe InetDemo InetSend Dns DnsTable DnsLive DnsReply.

Definition no_callback : dns_event -> dns unit -> res (dns unit) := fun _ s => Ok s.
Definition ask (on_found : dns_event -> dns unit -> res (dns unit)) (name : list Z) (arg : Z) (s : dns unit) : res (err_t * option Z * dns unit) :=
  dns_gethostbyname on_found name true arg s.

(** The query of a name of 255 bytes, which dns_gethostbyname accepts, is one
    byte longer than its pbuf. *)
Example long_name_overflows : ask no_callback (repeat 97 255) 7 dns_demo = Err BadAccess /\
  match ask no_callback (repeat 97 254) 7 dns_demo with Ok (err, _, _) => err = ERR_INPROGRESS | Err _ => False end /\
  match ask no_callback (repeat 97 256) 7 dns_demo with Ok (err, _, _) => err = ERR_ARG | Err _ => False end.
Proof. by vm_compute. Qed.
(** The length of a record leads behind the message and its buffer. *)
Definition bad_length : list Z :=
  dns_header 0 0x80 0 1 2 0 0 ++ question host_name ++ [0xc0; 12] ++ be16_bytes 5 ++ be16_bytes 1 ++ be32_bytes 0 ++ be16_bytes 1000.
Example answer_behind_buffer : dns_recv no_callback bad_length demo_asked = Err BadAccess.
Proof. by vm_compute. Qed.
(** So does the length of a label, and the name of the root is not one. *)
Example label_behind_buffer : dns_parse_name [100; 1; 2; 3] 0 = Err BadAccess.
Proof. by vm_compute. Qed.
Example root_misread : dns_parse_name [0; 2; 1; 1; 0; 0] 0 = Ok 5.
Proof. by vm_compute. Qed.
(** A question that is cut off, or compressed, counts as the same name. *)
Example prefix_matches : dns_compare_name (host_name ++ [0]) [1; 119; 0] 0 = Ok false /\ dns_compare_name (host_name ++ [0]) [0xc0; 0] 0 = Ok false /\
  dns_compare_name (host_name ++ [0]) [1; 120; 0] 0 = Ok true.
Proof. by vm_compute. Qed.
(** An answer that must not be cached, with a time to live of 0, lives for 2^32
    - 1 seconds. *)
Example ttl_zero_wraps : let e := unused_entry <| de_state := DNS_STATE_DONE |> in (tick_entry [1; 0] e).1 = e <| de_ttl := 4294967295 |>.
Proof. by vm_compute. Qed.
(** After the sequence number wrapped the age of the completed entries counts
    as negative: there is no free entry, though 15 have completed. *)
Definition done_entry : dns_table_entry := unused_entry <| de_state := DNS_STATE_DONE |> <| de_seqno := 250 |> <| de_ttl := 100 |>.
Definition wrapped (seqno : Z) : dns unit :=
  dns_demo <| dns_table := (done_entry <| de_state := DNS_STATE_ASKING |>) :: replicate 15 done_entry |> <| dns_seqno := seqno |>.
Example seqno_wraps : enqueue_slot (wrapped 5) = Ok None /\ enqueue_slot (wrapped 255) = Ok (Some 1%nat).
Proof. by vm_compute. Qed.

(** 16 requests, a name error for the first, and a callback that asks again: the
    new request takes the entry that is being reported, which is then freed. It
    was told ERR_INPROGRESS, and its callback is not called. *)
Definition again (ev : dns_event) (s : dns unit) : res (dns unit) :=
  if fo_arg ev =? 1 then let! (err, _, s) := ask no_callback host_name 99 s in if err =? ERR_INPROGRESS then Ok s else Err AssertFailed else Ok s.
Fixpoint ask_many (n : nat) (s : dns unit) : res (dns unit) :=
  match n with
  | O => Ok s
  | S n => let! s := ask_many n s in let! (_, _, s) := ask no_callback (host_name ++ [65 + Z.of_nat n]) (Z.of_nat (S n)) s in Ok s
  end.
Definition name_error (host : list Z) : list Z := dns_header 0 0x80 3 1 0 0 0 ++ question host.
Example request_lost :
  (let! s := ask_many 16 dns_demo in let! s := dns_recv again (name_error (host_name ++ [65]) ++ [0; 0]) s in let! s := dns_ticks again 20 s in
   Ok (map fo_arg (dn_log s))) = Ok (1 :: map (fun n => Z.of_nat n) (seq 2 15)).
Proof. by vm_compute. Qed.
(** A name error without records for a name of less than 8 bytes is too short for
    dns_recv, which wants an answer: the request goes on until its timeout. *)
Example name_error_ignored : (let! s := dns_recv no_callback (name_error host_name) demo_asked in Ok (dn_log s)) = Ok [] /\
  (let! s := dns_recv no_callback (name_error host_name ++ repeat 0 3) demo_asked in Ok (dn_log s)) = Ok [mk_found 0 7 host_name None].
Proof. by vm_compute. Qed.
(** Without the name error everyone is answered. *)
Example none_lost : (let! s := ask_many 16 dns_demo in let! s := dns_ticks no_callback 20 s in Ok (map fo_arg (dn_log s))) = Ok (map (fun n => Z.of_nat n) (seq 1 16)).
Proof. by vm_compute. Qed.

(** The local host list comes first, and has room for one host. *)
Definition with_local : res (dns unit) := let! (_, s) := dns_local_addhost host_name 77 dns_demo in Ok s.
Example local_host : (let! s := with_local in let! (err, a, _) := ask no_callback host_name 7 s in let! (full, _) := dns_local_addhost [65] 5 s in
    Ok (err, a, full, (dns_local_removehost (Some host_name) None s).1)) = Ok (ERR_OK, Some 77, ERR_MEM, 1).
Proof. by vm_compute. Qed.
(** A dotted address is its own answer. *)
Example dotted : (let! (err, a, _) := ask no_callback [49; 48; 46; 48; 46; 48; 46; 50] 7 dns_demo in Ok (err, a)) = Ok (ERR_OK, Some peer).
Proof. by vm_compute. Qed.
